(* ===== verification/_CoqProject ===== *)
-Q . S2P
Prelude.v
Bytes.v
Crc.v
Rle.v
SessionFile.v
Interfaces.v
CpuSoc.v
Ic.v
Timer.v
Rtc.v
Mem.v
Ram.v
Mmu.v
Cp15.v
Cpu.v
Thumb.v
CpuAlu.v
Patch.v
CpuMem.v
CpuAbort.v
CpuStack.v
ICache.v
Memcpy.v
CpuDecode.v
DecodeTable.v
CpuRun.v
CpuCycle.v
Peephole.v
Wmmx.v
WmmxLanes.v
Dsp.v
Queue.v
Scheduler.v
SchedAdvance.v
SocRun.v
SocClock.v
Gpio.v
Dma.v
Uart.v
Nand.v
DirectNand.v
SdCard.v
Vsd.v
VsdHost.v
Mmc.v
ShiftFifo.v
Ssp.v
I2s.v
Lcd.v
Display.v
Ac97.v
Wm9712L.v
Kpc.v
PwrClk.v
I2c.v
