(* ===== verification/Prelude.v ===== *)
(** * uARM: the ARM/PXA half of CloudpilotEmu

    [src/src/uarm/uarm/] emulates a Palm handheld with an Intel PXA SoC: an
    ARMv5TE interpreter with MMU and caches, the on-chip devices, flash and SD
    card storage, and a scheduler that runs the devices in emulated time. This
    library models that program. The other half of the repository (the 68k
    emulator derived from POSE, the web applications, the file system tools) is
    not modelled.

    ** How the code is modelled

    Structures are records with the fields' C names; arrays are lists, read and
    written by index with [l.[i]] and [l.[i <- x]]; integers are [Z] with the
    wrap-around of their type written out ([u8], [u32], [u64]). A function that
    can fail returns an [outcome]: [Ret], [Abort] (the emulator's [ERR], which
    ends the program), [Undef] (an access outside an array, a division by zero:
    behaviour C leaves undefined) or [Hang] (the fuel ran out). Where a loop of
    the source has no structural bound the definition takes fuel, and a theorem
    says how much is enough: [queueFuel] steps for a walk of the scheduler's
    queue (eight entries), the pending ticks for a call of [Advance], the cycles
    asked for in [socRun]'s loop, the clock of a card's reply in vSD.c. The
    loops over a fixed number of channels, pins or registers are folds.

    A device holds pointers to the devices it talks to. They are the state [W]
    of the type classes of Interfaces.v ([IrqSink] for the interrupt controller,
    [DmaSink], [PhysMem], [GpioPort], [ICachePort] and so on), which state what
    the device relies on; the file of the other side gives the instance. Calls
    into the scheduler from inside a device or the CPU are collected in order and
    made when the caller returns (SocRun.v), as none of the callers reads the
    scheduler.

    ** The files

    - Prelude.v, Bytes.v, Interfaces.v: words, lists as arrays, outcomes,
      little-endian buffers, and the classes between components.
    - CpuSoc.v: [struct ArmCpu] and the sleep state of [struct SoC]; the
      interrupt inputs. Ic.v: pxa_IC.c. The controller's outputs always are what
      its registers say, whoever writes them ([ic_cpu_inputs_exact]).
    - Cpu.v: modes, banked registers, status registers, exceptions (CPU.cpp).
      Thumb.v: [translateThumb]. CpuAlu.v: shifter, arithmetic, multiplication,
      branches. CpuMem.v, CpuAbort.v, CpuStack.v: loads and stores, their
      restart after an abort, and multiple transfers as a stack. CpuDecode.v,
      DecodeTable.v: the decoder, against the architecture's encoding tables and
      the few words that it accepts beyond them ([lenientRows]).
      CpuRun.v, CpuCycle.v: the cycle of fetch, decode and execution, interrupts,
      injected calls; the loop's count and end, and the refinement that running
      from the instruction cache is running from memory.
    - Mmu.v, Cp15.v, ICache.v: MMU.c, cp15.c, icache.cpp. The TLB is the walk
      it caches; flushes forget; invalidation makes stores visible.
    - Patch.v, Peephole.v: patches of system calls (patch_dispatch.c,
      patches.c), and library routines replaced by one instruction (peephole.c):
      the replacements compute what the guest's code computes. What a tail patch
      does is a parameter; it may run guest code and re-enter the dispatcher.
    - Wmmx.v, WmmxLanes.v, Dsp.v: the coprocessors pxa270_WMMX.c and
      pxa255_DSP.c; their packed operations lane by lane, the accumulators
      against exact arithmetic.
    - Mem.v, Ram.v, Memcpy.v: the physical memory map, RAM and ROM with the
      dirty pages, and copies through the MMU.
    - Timer.v, Rtc.v: pxa_TIMR.c and pxa_RTC.c; a batch of ticks is so many
      single ticks. Scheduler.v, SchedAdvance.v: scheduler.h; the linked array
      is an ordered list, the ticks delivered are those of the time passed.
      SocRun.v, SocClock.v: the run loop of socPXA.cpp and the guest's clock
      through sleep and wake-up. Queue.v: queue.h and audio_queue.cpp.
    - Gpio.v, Dma.v, Uart.v: pxa_GPIO.c, pxa_DMA.c, pxa_UART.c. ShiftFifo.v,
      Ssp.v, I2s.v: pxa_SSP.c and pxa_I2S.c and the short FIFOs they share. I2c.v:
      pxa_I2C.c, up to the messages that appear on the bus. PwrClk.v: pxa_PwrClk.c.
      Kpc.v: pxa270_KPC.c; the registers show which keys are down.
    - Lcd.v, Display.v: pxa_LCD.c, and its composition with the RAM: a frame that
      the controller skips would have shown what is on the screen.
    - Ac97.v, Wm9712L.v: pxa_AC97.c and ac97dev_WM9712L.c; the guest's samples reach
      the host's audio queue in order, a touch of the screen reaches the guest.
    - Crc.v, Rle.v, SessionFile.v: the session files of savestate/, with the encoder
      in assets/session.js and the checksums (common/CPCrc.cpp, assets/crc.js):
      what the web application writes is what the emulator reads, and the encoder
      never writes past the array it allocates.
    - Nand.v, DirectNand.v: nand.c and mmiodev_DirectNAND.c. SdCard.v, Vsd.v,
      VsdHost.v, Mmc.v: sdcard.c, vSD.c, pxa_MMC.c, up to what a guest that
      reads sectors through the controller gets.

    ** Bounds

    The theorems about time hold below 2^62 ns (140 years); the scheduler's
    counters are 64 bits wide. The run loop's clock theorem is for CPU speeds
    from 40 MHz to 4 GHz: below, a cycle is longer than a tick of the timer, and
    SocClock.v ends with a run that loses a tick. [socRun]'s theorem asks for fuel
    above 8 * 2^62 for one call of [Advance], more than the ticks that eight tasks
    can have pending. Memory sizes, sector numbers and register widths are those
    of the C types.

    ** Not modelled

    PACE mode (pace.c, pace_patch.c, uae/: the generated 68k core that runs
    inside the ARM emulation), the tables of system call names (syscall.c,
    syscall_dispatch.c), the debugger stub, the GPIO keypads (keys.c), registers
    without effect (pxa_MemCtrl.c, pxa_PWM.c, pxa270_IMC.c, the USB stubs), MainLoop.cpp
    (floating point over host time), the native and web shells. The manifest lists
    them with the reasons. Theorems about the CPU are outside PACE mode. *)

From Stdlib Require Export ZArith Lia Bool Btauto.
From stdpp Require Export base tactics option list numbers gmap.
From coqutil Require Export Datatypes.RecordSetters.
Export OCamlLikeNotations.
#[global] Open Scope Z_scope.
#[global] Arguments RecordSetters.constant {E} _ _ /.
#[global] Arguments Z.testbit : simpl never.

Create HintDb uarm.
Create Rewrite HintDb zbits.
Create Rewrite HintDb uarm_rw.

(** ** Fixed-width C integers

    A [uintN_t] is a [Z] in [0, 2^N); the wrap-around of the C conversions and
    of unsigned arithmetic is written out with [wrap]. *)

Definition wrap (w x : Z) : Z := x mod 2 ^ w.

Abbreviation u8 := (wrap 8).
Abbreviation u16 := (wrap 16).
Abbreviation u32 := (wrap 32).
Abbreviation u64 := (wrap 64).

Definition is_u (w x : Z) : Prop := 0 <= x < 2 ^ w.

(** The value of [x] converted to the signed type of width [w]. *)
Definition sgn (w x : Z) : Z :=
  let y := wrap w x in if y <? 2 ^ (w - 1) then y else y - 2 ^ w.

Declare Scope c_scope.
Delimit Scope c_scope with C.
Infix ".&" := Z.land (at level 40, left associativity) : c_scope.
Infix ".|" := Z.lor (at level 50, left associativity) : c_scope.
Infix ".^" := Z.lxor (at level 50, left associativity) : c_scope.
Infix ".<<" := Z.shiftl (at level 34, left associativity) : c_scope.
Infix ".>>" := Z.shiftr (at level 34, left associativity) : c_scope.
(** [a .&~ b] is the C expression [a & ~b] on operands of one unsigned type. *)
Infix ".&~" := Z.ldiff (at level 40, left associativity) : c_scope.
#[global] Open Scope c_scope.

(** [if (x & m)] *)
Definition tst (x m : Z) : bool := negb (x .& m =? 0).

(** [x ? a : b] on conditions that are integers. *)
Definition nz (x : Z) : bool := negb (x =? 0).

(** ** Arrays

    A C array is a list; the index is the C index expression. *)

Definition aget {A} `{!Inhabited A} (l : list A) (i : Z) : A := l !!! Z.to_nat i.
Definition aset {A} (l : list A) (i : Z) (x : A) : list A := <[Z.to_nat i := x]> l.

Notation "l .[ i ]" := (aget l i) (at level 1, left associativity, format "l .[ i ]") : c_scope.
Notation "l .[ i <- x ]" := (aset l i x) (at level 1, left associativity) : c_scope.

(** ** Outcomes

    [ERR(...)] aborts the emulator, [while (1)] halts it, and an access
    outside an object is undefined behaviour; everything else returns. *)

Inductive outcome (A : Type) : Type :=
| Ret (a : A)
| Abort
| Hang
| Undef.
Arguments Ret {A} a.
Arguments Abort {A}.
Arguments Hang {A}.
Arguments Undef {A}.

#[global] Instance outcome_ret : MRet outcome := λ A a, Ret a.
#[global] Instance outcome_bind : MBind outcome := λ A B f m,
  match m with Ret a => f a | Abort => Abort | Hang => Hang | Undef => Undef end.

Definition is_ret {A} (m : outcome A) : bool :=
  match m with Ret _ => true | _ => false end.

(** Outcomes that agree up to a relation on the results. *)
Definition outcome_rel {S} (R : S -> S -> Prop) (m m' : outcome S) : Prop :=
  match m, m' with
  | Ret s, Ret s' => R s s'
  | Abort, Abort | Hang, Hang | Undef, Undef => True
  | _, _ => False
  end.

#[export] Instance outcome_rel_equiv {S} (R : S -> S -> Prop) :
  Equivalence R -> Equivalence (outcome_rel R).
Proof.
  intros HR. split.
  - intros [s| | |]; cbn; by try reflexivity.
  - intros [s| | |] [s'| | |]; cbn; try done; by intros ->.
  - intros [s| | |] [s'| | |] [s''| | |]; cbn; try done; by intros -> ->.
Qed.

(** A memory-mapped access returns the C result, the contents of [buf] (read
    as one little-endian number of the access's size) and the new state. *)
Abbreviation access S := (bool * Z * S)%type.

Lemma access_inj {S} b v s b' v' s' :
  @Ret (access S) (b, v, s) = Ret (b', v', s') -> b = b' /\ v = v' /\ s = s'.
Proof. by intros [= -> -> ->]. Qed.

Lemma ret_pair_inj {A S} (a a' : A) (s s' : S) : Ret (a, s) = Ret (a', s') -> a = a' /\ s = s'.
Proof. by intros [= -> ->]. Qed.

(** ** Lemmas on fixed-width integers *)

Lemma is_u_spec w x : is_u w x <-> 0 <= x < 2 ^ w.
Proof. reflexivity. Qed.

Lemma wrap_is_u w x : 0 <= w -> is_u w (wrap w x).
Proof. intros. apply Z.mod_pos_bound. lia. Qed.

Lemma wrap_small w x : is_u w x -> wrap w x = x.
Proof. apply Z.mod_small. Qed.

Lemma wrap_idemp w x : wrap w (wrap w x) = wrap w x.
Proof. unfold wrap. apply Z.mod_mod_divide. apply Z.divide_refl. Qed.

Lemma sgn_wrap w x : sgn w (wrap w x) = sgn w x.
Proof. unfold sgn. by rewrite wrap_idemp. Qed.

Lemma wrap_sgn w x : 0 <= w -> wrap w (sgn w x) = wrap w x.
Proof.
  intros Hw. unfold sgn. destruct (_ <? _); [apply wrap_idemp|]. unfold wrap.
  replace (x mod 2 ^ w - 2 ^ w) with (x mod 2 ^ w + (-1) * 2 ^ w) by lia. rewrite Z.mod_add by (apply Z.pow_nonzero; lia). apply wrap_idemp.
Qed.

Lemma sgn_exact w x : 1 <= w -> - 2 ^ (w - 1) <= x < 2 ^ (w - 1) -> sgn w x = x.
Proof.
  intros Hw Hx. assert (E : 2 ^ w = 2 * 2 ^ (w - 1)) by (rewrite <- Z.pow_succ_r by lia; f_equal; lia).
  unfold sgn, wrap. destruct (Z.lt_ge_cases x 0).
  - rewrite <- (Z.mod_unique x (2 ^ w) (-1) (x + 2 ^ w)) by lia. rewrite (proj2 (Z.ltb_ge _ _)); lia.
  - rewrite Z.mod_small by lia. by rewrite (proj2 (Z.ltb_lt _ _)) by lia.
Qed.

Lemma testbit_wrap w x i : 0 <= w -> Z.testbit (wrap w x) i = (i <? w) && Z.testbit x i.
Proof.
  intros Hw. unfold wrap. destruct (Z.ltb_spec i w); cbn.
  - destruct (Z.le_gt_cases 0 i).
    + by apply Z.mod_pow2_bits_low.
    + by rewrite !Z.testbit_neg_r.
  - destruct (Z.le_gt_cases 0 i); [|by rewrite !Z.testbit_neg_r].
    apply Z.mod_pow2_bits_high; lia.
Qed.

(** A bit at or above the width of an unsigned number is clear. *)
Lemma testbit_above w x i : is_u w x -> w <= i -> Z.testbit x i = false.
Proof.
  intros Hx Hi. destruct (Z.le_gt_cases 0 w).
  - rewrite <- (wrap_small w x Hx), testbit_wrap by lia.
    destruct (Z.ltb_spec i w); [lia|done].
  - destruct Hx as [H0 H1]. rewrite Z.pow_neg_r in H1 by lia. lia.
Qed.

(** A non-negative number with no bit at or above [w] is below [2^w]. *)
Lemma is_u_testbit w x :
  0 <= w -> 0 <= x -> (forall i, w <= i -> Z.testbit x i = false) -> is_u w x.
Proof.
  intros Hw Hx Hb. assert (wrap w x = x) as <-; [|by apply wrap_is_u].
  apply Z.bits_inj'. intros i Hi. rewrite testbit_wrap by done.
  destruct (Z.ltb_spec i w); [done|]. by rewrite Hb.
Qed.

Lemma is_u_land_l w x y : is_u w x -> 0 <= w -> is_u w (x .& y).
Proof.
  intros Hx Hw. apply is_u_testbit; [done| |].
  - apply Z.land_nonneg. left. apply Hx.
  - intros i Hi. rewrite Z.land_spec, (testbit_above w x i) by done. done.
Qed.

Lemma is_u_land_r w x y : is_u w y -> 0 <= w -> is_u w (x .& y).
Proof. rewrite Z.land_comm. apply is_u_land_l. Qed.

Lemma is_u_ldiff w x y : is_u w x -> 0 <= w -> is_u w (x .&~ y).
Proof.
  intros Hx Hw. apply is_u_testbit; [done| |].
  - apply Z.ldiff_nonneg. left. apply Hx.
  - intros i Hi. rewrite Z.ldiff_spec, (testbit_above w x i) by done. done.
Qed.

Lemma is_u_lor w x y : is_u w x -> is_u w y -> 0 <= w -> is_u w (x .| y).
Proof.
  intros Hx Hy Hw. apply is_u_testbit; [done| |].
  - apply Z.lor_nonneg. split; [apply Hx|apply Hy].
  - intros i Hi. by rewrite Z.lor_spec, (testbit_above w x i), (testbit_above w y i).
Qed.

Lemma is_u_lxor w x y : is_u w x -> is_u w y -> 0 <= w -> is_u w (x .^ y).
Proof.
  intros Hx Hy Hw. apply is_u_testbit; [done| |].
  - apply Z.lxor_nonneg. destruct Hx, Hy; lia.
  - intros i Hi. by rewrite Z.lxor_spec, (testbit_above w x i), (testbit_above w y i).
Qed.

Lemma is_u_shiftr w x n : is_u w x -> 0 <= n -> is_u w (x .>> n).
Proof.
  intros [H0 H1] Hn. rewrite Z.shiftr_div_pow2 by done. split.
  - apply Z.div_pos; lia.
  - apply Z.le_lt_trans with x; [|done]. apply Z.div_le_upper_bound; nia.
Qed.

Lemma is_u_le w w' x : is_u w x -> 0 <= w <= w' -> is_u w' x.
Proof.
  intros [H0 H1] Hw. split; [done|].
  eapply Z.lt_le_trans; [apply H1|]. apply Z.pow_le_mono_r; lia.
Qed.

Lemma is_u_if w (b : bool) x y : is_u w x -> is_u w y -> is_u w (if b then x else y).
Proof. by destruct b. Qed.

#[export] Hint Resolve wrap_is_u is_u_land_l is_u_ldiff is_u_lor is_u_lxor is_u_shiftr
  is_u_if : uarm.
#[export] Hint Extern 3 (is_u _ _) => solve [split; [lia | reflexivity || lia]] : uarm.
#[export] Hint Extern 1 (_ <= _) => lia : uarm.

(** ** Bit tests *)

Lemma tst_spec x m : tst x m = true <-> x .& m <> 0.
Proof. unfold tst. rewrite negb_true_iff, Z.eqb_neq. done. Qed.

Lemma tst_false x m : tst x m = false <-> x .& m = 0.
Proof. unfold tst. by rewrite negb_false_iff, Z.eqb_eq. Qed.

Lemma land_pow2 x n : 0 <= n -> x .& 2 ^ n = if Z.testbit x n then 2 ^ n else 0.
Proof.
  intros Hn. apply Z.bits_inj'. intros i Hi.
  rewrite Z.land_spec, Z.pow2_bits_eqb by done.
  destruct (Z.eqb_spec n i) as [->|Hne].
  - destruct (Z.testbit x i); cbn; [|by rewrite Z.testbit_0_l].
    by rewrite Z.pow2_bits_true.
  - rewrite andb_false_r. destruct (Z.testbit x n); [|by rewrite Z.testbit_0_l].
    by rewrite Z.pow2_bits_false.
Qed.

Lemma tst_bit x n : 0 <= n -> tst x (2 ^ n) = Z.testbit x n.
Proof.
  intros Hn. unfold tst. rewrite land_pow2 by done.
  destruct (Z.testbit x n); [|done].
  apply negb_true_iff, Z.eqb_neq. pose proof (Z.pow_pos_nonneg 2 n). lia.
Qed.

(** A mask test is the existence of a common bit. *)
Lemma tst_exists x m :
  tst x m = true <-> exists i, 0 <= i /\ Z.testbit x i = true /\ Z.testbit m i = true.
Proof.
  rewrite tst_spec. split.
  - intros H. destruct (Z.eq_dec (x .& m) 0) as [|_]; [done|].
    destruct (Z.le_gt_cases 0 (x .& m)) as [Hp|Hp].
    + exists (Z.log2 (x .& m)). pose proof (Z.bit_log2 (x .& m)) as Hb.
      rewrite Z.land_spec, andb_true_iff in Hb. split; [apply Z.log2_nonneg|]. apply Hb. lia.
    + exists (Z.max 0 (Z.log2 (Z.pred (- (x .& m))) + 1)).
      split; [lia|]. apply andb_true_iff. rewrite <- Z.land_spec.
      apply Z.bits_above_log2_neg; lia.
  - intros (i & Hi & Hx & Hm) H.
    assert (Z.testbit (x .& m) i = true) as E by (rewrite Z.land_spec, Hx, Hm; done).
    rewrite H, Z.testbit_0_l in E. done.
Qed.

Lemma nz_tst x : nz x = tst x x.
Proof. unfold nz, tst. by rewrite Z.land_diag. Qed.

(** ** Equality bit by bit *)

#[export] Hint Rewrite Z.land_spec Z.lor_spec Z.lxor_spec Z.ldiff_spec Z.testbit_0_l
  andb_true_r andb_false_r andb_true_l andb_false_l orb_true_r orb_false_r orb_true_l
  orb_false_l negb_involutive : zbits.
#[export] Hint Rewrite Z.shiftr_spec Z.shiftl_spec testbit_wrap using lia : zbits.

(** Reduce an equation between numbers to one between their bits. *)
Ltac bits_ext i Hi := apply Z.bits_inj'; intros i Hi; autorewrite with zbits.

(** Close an equation between bit formulas by its atoms. *)
Ltac bits_solve :=
  repeat match goal with |- context [Z.testbit ?x ?i] => is_var x; destruct (Z.testbit x i) end;
  try reflexivity.

(** Split a bit index below [n] into its values. *)
Lemma bit_index_cases (P : Z -> Prop) (n : nat) :
  Forall (λ k, P (Z.of_nat k)) (seq 0 n) -> forall i, 0 <= i < Z.of_nat n -> P i.
Proof.
  rewrite Forall_forall. intros H i Hi. rewrite <- (Z2Nat.id i) by lia.
  apply H, elem_of_seq. lia.
Qed.

(** A check of all pairs of small numbers. *)
Lemma forallb_grid (f : Z -> Z -> bool) (n m : nat) :
  forallb (fun x => forallb (fun y => f (Z.of_nat x) (Z.of_nat y)) (seq 0 m)) (seq 0 n) = true ->
  forall x y, 0 <= x < Z.of_nat n -> 0 <= y < Z.of_nat m -> f x y = true.
Proof.
  rewrite forallb_forall. intros H x y Hx Hy. specialize (H (Z.to_nat x) ltac:(apply in_seq; lia)).
  rewrite forallb_forall in H. specialize (H (Z.to_nat y) ltac:(apply in_seq; lia)).
  by rewrite !Z2Nat.id in H by lia.
Qed.

(** ** Lemmas on arrays *)

Lemma length_aset {A} (l : list A) i x : length (aset l i x) = length l.
Proof. apply length_insert. Qed.

Lemma aget_aset_eq {A} `{!Inhabited A} (l : list A) i x :
  0 <= i < Z.of_nat (length l) -> aget (aset l i x) i = x.
Proof.
  intros Hi. unfold aget, aset. apply list_lookup_total_insert_eq. lia.
Qed.

Lemma aget_aset_ne {A} `{!Inhabited A} (l : list A) i j x :
  0 <= i -> 0 <= j -> i <> j -> aget (aset l i x) j = aget l j.
Proof.
  intros Hi Hj Hne. unfold aget, aset. apply list_lookup_total_insert_ne. lia.
Qed.

Lemma aget_aset {A} `{!Inhabited A} (l : list A) i j x :
  0 <= i < Z.of_nat (length l) -> 0 <= j ->
  aget (aset l i x) j = if i =? j then x else aget l j.
Proof.
  intros Hi Hj. destruct (Z.eqb_spec i j) as [->|Hne].
  - by apply aget_aset_eq.
  - apply aget_aset_ne; lia.
Qed.

Lemma aget_lookup {A} `{!Inhabited A} (l : list A) i x :
  l !! Z.to_nat i = Some x -> aget l i = x.
Proof. intros H. unfold aget. by apply list_lookup_total_correct. Qed.

Lemma aget_zip_with {A B C} `{!Inhabited A} `{!Inhabited B} `{!Inhabited C} (f : A -> B -> C) l k i :
  0 <= i < Z.of_nat (length l) -> i < Z.of_nat (length k) -> (zip_with f l k).[i] = f l.[i] k.[i].
Proof.
  intros Hl Hk. unfold aget.
  destruct (lookup_lt_is_Some_2 l (Z.to_nat i)) as [x Hx]; [lia|].
  destruct (lookup_lt_is_Some_2 k (Z.to_nat i)) as [y Hy]; [lia|].
  rewrite (list_lookup_total_correct l _ x), (list_lookup_total_correct k _ y) by done.
  apply list_lookup_total_correct. by rewrite lookup_zip_with, Hx, Hy.
Qed.

Lemma aget_replicate {A} `{!Inhabited A} n (x : A) i : 0 <= i < Z.of_nat n -> (replicate n x).[i] = x.
Proof.
  intros Hi. unfold aget. apply list_lookup_total_correct. apply lookup_replicate. split; [done|lia].
Qed.

(** Arrays of one length that agree at every index are equal. *)
Lemma aget_ext {A} `{!Inhabited A} (l l' : list A) :
  length l = length l' -> (forall i, 0 <= i < Z.of_nat (length l) -> l.[i] = l'.[i]) -> l = l'.
Proof.
  intros Hl H. apply list_eq. intros i. destruct (decide (i < length l)%nat) as [Hi|Hi].
  - specialize (H (Z.of_nat i) ltac:(lia)). unfold aget in H. rewrite Nat2Z.id in H.
    destruct (lookup_lt_is_Some_2 l i) as [x Hx]; [done|].
    destruct (lookup_lt_is_Some_2 l' i) as [y Hy]; [lia|].
    rewrite (list_lookup_total_correct _ _ _ Hx), (list_lookup_total_correct _ _ _ Hy) in H. congruence.
  - rewrite !lookup_ge_None_2 by lia. done.
Qed.

(** A block of array elements from index [off] on, element by element. *)
Lemma window_cons {A B} `{!Inhabited A} (f : A -> B) (a : A) l off i x :
  0 <= off ->
  (if (off <=? i) && (i <? off + Z.of_nat (S (length l))) then f (a :: l).[i - off] else x) =
  if off =? i then f a else
  if (off + 1 <=? i) && (i <? off + 1 + Z.of_nat (length l)) then f l.[i - (off + 1)] else x.
Proof.
  intros Ho. destruct (Z.eqb_spec off i) as [<-|Hne].
  - rewrite Z.leb_refl, (proj2 (Z.ltb_lt _ _)), Z.sub_diag by lia. reflexivity.
  - replace (off + Z.of_nat (S (length l))) with (off + 1 + Z.of_nat (length l)) by lia.
    assert ((off <=? i) = (off + 1 <=? i)) as -> by (apply eq_true_iff_eq; rewrite !Z.leb_le; lia).
    destruct (Z.leb_spec (off + 1) i); [|done]. cbn [andb]. destruct (i <? _); [|done].
    unfold aget. by replace (Z.to_nat (i - off)) with (S (Z.to_nat (i - (off + 1)))) by lia.
Qed.

Lemma Forall_aset {A} (P : A -> Prop) (l : list A) i x :
  Forall P l -> P x -> Forall P (aset l i x).
Proof. apply Forall_insert. Qed.

Lemma Forall_aget {A} `{!Inhabited A} (P : A -> Prop) (l : list A) i :
  Forall P l -> 0 <= i < Z.of_nat (length l) -> P (aget l i).
Proof.
  intros Hl Hi. unfold aget. apply Forall_lookup_total_1; [done|lia].
Qed.

Lemma take_aset_ge {A} (l : list A) n i x : Z.of_nat n <= i -> take n (aset l i x) = take n l.
Proof. intros. unfold aset. apply take_insert_ge. lia. Qed.

Lemma aset_same {A} `{!Inhabited A} (l : list A) i : aset l i (aget l i) = l.
Proof.
  unfold aset, aget. destruct (decide (Z.to_nat i < length l)%nat).
  - apply list_insert_id. by apply list_lookup_lookup_total_lt.
  - apply list_insert_ge. lia.
Qed.

#[export] Hint Rewrite @length_aset : uarm_rw.
#[export] Hint Resolve Forall_aset : uarm.

(** A nonzero number of width [w] has a bit below [w]. *)
Lemma nz_exists w x :
  is_u w x -> nz x = true <-> exists i, 0 <= i < w /\ Z.testbit x i = true.
Proof.
  intros Hx. rewrite nz_tst, tst_exists. split.
  - intros (i & Hi & Hb & _). exists i. split; [|done]. split; [done|].
    destruct (Z.lt_ge_cases i w); [done|]. by rewrite (testbit_above w x i) in Hb.
  - intros (i & Hi & Hb). exists i. split; [lia|done].
Qed.

(** One bit of a register, extracted as the code does it. *)
Lemma nz_shiftr_1 x n : 0 <= n -> nz ((x .>> n) .& 1) = Z.testbit x n.
Proof.
  intros Hn. change (nz ((x .>> n) .& 1)) with (tst (x .>> n) (2 ^ 0)).
  rewrite tst_bit by done. rewrite Z.shiftr_spec by done. f_equal. 
Qed.

Lemma testbit_1_shiftl n i : 0 <= n -> 0 <= i -> Z.testbit (1 .<< n) i = (n =? i).
Proof. intros. rewrite Z.shiftl_1_l. by apply Z.pow2_bits_eqb. Qed.

(** ** Loops whose body can fail *)

(** [for (i : range) body] over a state. *)
Fixpoint forM {A S} (range : list A) (body : S -> A -> outcome S) (s : S) : outcome S :=
  match range with
  | [] => Ret s
  | i :: range => s ← body s i; forM range body s
  end.

(** [n] times the same step. *)
Fixpoint iterM {S} (n : nat) (step : S -> outcome S) (s : S) : outcome S :=
  match n with O => Ret s | Datatypes.S n => s ← step s; iterM n step s end.

Lemma iterM_S {S} n (step : S -> outcome S) s :
  iterM (Datatypes.S n) step s = (s ← iterM n step s; step s).
Proof.
  revert s. induction n as [|n IH]; intros s.
  - cbn. by destruct (step s).
  - cbn -[mbind] in *. change (iterM (Datatypes.S (Datatypes.S n)) step s)
      with (s ← step s; iterM (Datatypes.S n) step s).
    change (iterM (Datatypes.S n) step s) with (s ← step s; iterM n step s).
    destruct (step s); [apply IH|done..].
Qed.

(** A state predicate every body keeps holds after the loop. *)
Lemma forM_inv {A S} (P : S -> Prop) (range : list A) body s s' :
  (forall s i s', P s -> i ∈ range -> body s i = Ret s' -> P s') ->
  P s -> forM range body s = Ret s' -> P s'.
Proof.
  revert s. induction range as [|i range IH]; intros s Hb Hs; cbn.
  - by intros [= <-].
  - destruct (body s i) as [s1| | |] eqn:E; cbn; try done.
    apply IH.
    + intros ? ? ? ? ?. apply Hb; [done|]. by right.
    + eapply Hb; [exact Hs| |exact E]. by left.
Qed.

(** ** Arithmetic modulo 2^32 *)

Lemma u32_sub_add_small a k m :
  is_u 32 m -> is_u 32 a -> 0 <= k < 2 ^ 32 -> u32 (a + k) = m <-> u32 (m - a) = k.
Proof.
  unfold is_u, wrap. intros Hm Ha Hk. split; intros E.
  - rewrite <- E, Zminus_mod_idemp_l. replace (a + k - a) with k by lia. apply Z.mod_small. lia.
  - rewrite <- E, Zplus_mod_idemp_r. replace (a + (m - a)) with m by lia. apply Z.mod_small. lia.
Qed.

Lemma u32_add_assoc a b c : u32 (u32 (a + b) + c) = u32 (a + (b + c)).
Proof. unfold wrap. rewrite Zplus_mod_idemp_l. f_equal. lia. Qed.

(** [Forall P [a; b; ...]], one goal per element. *)
Ltac forall_list := repeat first [apply Forall_nil_2 | apply Forall_cons_2].

(** [is_u w c] for a literal [c]. *)
Ltac is_u_lit := split; [lia || by vm_compute|by vm_compute || lia].

(** [lia] with divisions and remainders by constants. *)
Ltac zdiv_lia := Z.to_euclidean_division_equations; lia.

(** ** Masks as divisions *)

(** [x & 0xFF...F00...0] keeps the multiple of [2^k] below [x]. *)
Lemma land_high k x : is_u 32 x -> 0 <= k <= 32 -> x .& (2 ^ 32 - 2 ^ k) = 2 ^ k * (x / 2 ^ k).
Proof.
  intros Hx Hk. replace (2 ^ 32 - 2 ^ k) with (Z.ldiff (Z.ones 32) (Z.ones k)).
  - rewrite (Z.mul_comm (2 ^ k)), <- Z.shiftr_div_pow2, <- Z.shiftl_mul_pow2 by lia.
    rewrite <- Z.ldiff_ones_r by lia. bits_ext i Hi.
    destruct (Z.lt_ge_cases i 32).
    + rewrite (Z.ones_spec_low 32) by lia. by rewrite andb_true_l.
    + rewrite (testbit_above 32 x i) by (done || lia). done.
  - rewrite Z.ldiff_ones_r, Z.shiftr_div_pow2, Z.shiftl_mul_pow2 by lia.
    rewrite Z.ones_equiv. replace 32 with ((32 - k) + k) at 1 2 by lia.
    rewrite Z.pow_add_r by lia.
    pose proof (Z.pow_pos_nonneg 2 k). pose proof (Z.pow_pos_nonneg 2 (32 - k)).
    replace (Z.pred (2 ^ (32 - k) * 2 ^ k)) with (2 ^ k - 1 + (2 ^ (32 - k) - 1) * 2 ^ k) by nia.
    rewrite Z.div_add, Z.div_small by lia. lia.
Qed.

(** [x & 0xF..F] is a remainder. *)
Lemma land_low k x : 0 <= k -> x .& (2 ^ k - 1) = x mod 2 ^ k.
Proof. intros Hk. rewrite <- Z.land_ones by done. f_equal. rewrite Z.ones_equiv. lia. Qed.

Lemma shiftr_div x k : 0 <= k -> x .>> k = x / 2 ^ k.
Proof. intros. by apply Z.shiftr_div_pow2. Qed.

(** A mask sees only the bits it has. *)
Lemma land_same_high x y m k :
  0 <= k -> x / 2 ^ k = y / 2 ^ k -> (forall i, 0 <= i < k -> Z.testbit m i = false) ->
  x .& m = y .& m.
Proof.
  intros Hk E Hm. apply Z.bits_inj'. intros i Hi. rewrite !Z.land_spec.
  destruct (Z.lt_ge_cases i k).
  - rewrite Hm by lia. by rewrite !andb_false_r.
  - rewrite <- !shiftr_div in E by done.
    assert (Z.testbit (x .>> k) (i - k) = Z.testbit (y .>> k) (i - k)) as Eb by (by rewrite E).
    rewrite !Z.shiftr_spec in Eb by lia. by replace (i - k + k) with i in Eb by lia; rewrite Eb.
Qed.

(** A number put together from its high and its low bits. *)
Lemma lor_mul_pow2 a k y : 0 <= k -> is_u k y -> (a * 2 ^ k) .| y = a * 2 ^ k + y.
Proof.
  intros Hk Hy. symmetry. apply Z.add_nocarry_lor. apply Z.bits_inj'. intros i Hi.
  rewrite Z.land_spec, Z.bits_0. destruct (Z.lt_ge_cases i k).
  - by rewrite Z.mul_pow2_bits_low.
  - by rewrite (testbit_above k y), andb_false_r.
Qed.

(** ** Bitmaps of 32-bit words *)

Lemma divmod_32 p q : p / 32 = q / 32 -> p mod 32 = q mod 32 -> p = q.
Proof. intros E1 E2. rewrite (Z.div_mod p 32), (Z.div_mod q 32) by done. congruence. Qed.

(** Setting bit [p] of a bitmap. *)
Lemma bitmap_mark d p q :
  0 <= p -> 0 <= q -> p / 32 < Z.of_nat (length d) ->
  Z.testbit (d.[p / 32 <- d.[p / 32] .| (1 .<< (p mod 32))]).[q / 32] (q mod 32) =
  (p =? q) || Z.testbit d.[q / 32] (q mod 32).
Proof.
  intros Hp Hq Hl. assert (0 <= p / 32 /\ 0 <= q / 32) as [H1 H2] by (split; apply Z.div_pos; lia).
  pose proof (Z.mod_pos_bound p 32 ltac:(done)). pose proof (Z.mod_pos_bound q 32 ltac:(done)).
  rewrite aget_aset by lia. destruct (Z.eqb_spec (p / 32) (q / 32)) as [E|Hne].
  - rewrite Z.lor_spec, testbit_1_shiftl, E, orb_comm by lia. f_equal.
    destruct (Z.eqb_spec (p mod 32) (q mod 32)) as [E'|Hne'], (Z.eqb_spec p q) as [->|Hpq]; try done.
    exfalso. apply Hpq. by apply divmod_32.
  - destruct (Z.eqb_spec p q) as [->|]; done.
Qed.
