(* ===== verification/Bytes.v ===== *)
(** * Bytes and little-endian numbers

    Memories are lists of bytes, a byte being a number below 256; a multi-byte
    object in a [void *] buffer is its little-endian number. *)

From S2P Require Import Prelude.

Definition byte_ok : Z -> Prop := is_u 8.

Fixpoint le_combine (bs : list Z) : Z :=
  match bs with
  | [] => 0
  | b :: bs => b + 256 * le_combine bs
  end.

Fixpoint le_split (n : nat) (x : Z) : list Z :=
  match n with
  | O => []
  | S n => u8 x :: le_split n (x / 256)
  end.

(** [n] bytes from offset [off]. *)
Definition peek (mem : list Z) (off n : Z) : list Z :=
  take (Z.to_nat n) (drop (Z.to_nat off) mem).

(** The bytes [bs] stored from offset [off]. *)
Definition poke (mem : list Z) (off : Z) (bs : list Z) : list Z :=
  list_inserts (Z.to_nat off) bs mem.

(** [n] bytes from [off] lie inside the object. *)
Definition in_object (mem : list Z) (off n : Z) : bool :=
  (0 <=? off) && (off + n <=? Z.of_nat (length mem)).

Lemma in_object_spec mem off n :
  in_object mem off n = true <-> 0 <= off /\ off + n <= Z.of_nat (length mem).
Proof. unfold in_object. by rewrite andb_true_iff, !Z.leb_le. Qed.

Lemma length_le_split n x : length (le_split n x) = n.
Proof. revert x. induction n; intros; cbn; auto. Qed.

Lemma le_combine_split n x : le_combine (le_split n x) = x mod 2 ^ (8 * Z.of_nat n).
Proof.
  revert x. induction n as [|n IH]; intros x.
  - cbn. by rewrite Z.mod_1_r.
  - cbn [le_split le_combine]. rewrite IH.
    replace (8 * Z.of_nat (S n)) with (8 + 8 * Z.of_nat n) by lia.
    rewrite Z.pow_add_r by lia. change (2 ^ 8) with 256.
    rewrite Z.rem_mul_r by lia. unfold wrap. change (2 ^ 8) with 256. lia.
Qed.

(** A number of [n] bytes survives being stored and loaded. *)
Lemma le_roundtrip n x : is_u (8 * Z.of_nat n) x -> le_combine (le_split n x) = x.
Proof. intros. rewrite le_combine_split. by apply Z.mod_small. Qed.

Lemma le_split_bytes n x : Forall byte_ok (le_split n x).
Proof. revert x. induction n; intros; cbn; constructor; auto. apply wrap_is_u. lia. Qed.

Lemma le_combine_is_u bs : Forall byte_ok bs -> is_u (8 * Z.of_nat (length bs)) (le_combine bs).
Proof.
  induction 1 as [|b bs Hb _ IH]; cbn [le_combine length].
  - is_u_lit.
  - replace (8 * Z.of_nat (S (length bs))) with (8 + 8 * Z.of_nat (length bs)) by lia.
    unfold is_u in *. rewrite Z.pow_add_r by lia.
    unfold byte_ok, is_u in Hb. change (2 ^ 8) with 256 in *. nia.
Qed.

Lemma le_split_combine bs : Forall byte_ok bs -> le_split (length bs) (le_combine bs) = bs.
Proof.
  induction 1 as [|b bs Hb _ IH]; cbn [le_combine le_split length]; [done|].
  unfold byte_ok, is_u in Hb. change (2 ^ 8) with 256 in Hb.
  unfold wrap. change (2 ^ 8) with 256.
  rewrite (Z.mul_comm 256), Z.mod_add, Z.mod_small, Z.div_add, Z.div_small by lia.
  by rewrite Z.add_0_l, IH.
Qed.

Lemma length_peek mem off n :
  0 <= n -> in_object mem off n = true -> length (peek mem off n) = Z.to_nat n.
Proof.
  intros Hn [H1 H2]%in_object_spec. unfold peek. rewrite length_take, length_drop. lia.
Qed.

Lemma length_poke mem off bs : length (poke mem off bs) = length mem.
Proof. apply length_inserts. Qed.

Lemma peek_bytes mem off n : Forall byte_ok mem -> Forall byte_ok (peek mem off n).
Proof. intros. unfold peek. by apply Forall_take, Forall_drop. Qed.

Lemma poke_bytes mem off bs : Forall byte_ok mem -> Forall byte_ok bs -> Forall byte_ok (poke mem off bs).
Proof.
  intros Hm Hb. unfold poke. apply Forall_lookup. intros i x Hi.
  apply list_lookup_inserts_Some in Hi as [[_ Hi]|[_ [_ Hi]]].
  - exact (Forall_lookup_1 _ _ _ _ Hm Hi).
  - exact (Forall_lookup_1 _ _ _ _ Hb Hi).
Qed.

(** What was stored can be loaded. *)
Lemma peek_poke_same mem off bs n :
  n = Z.of_nat (length bs) -> in_object mem off n = true -> peek (poke mem off bs) off n = bs.
Proof.
  intros -> [H1 H2]%in_object_spec. unfold peek, poke. rewrite Nat2Z.id.
  apply list_eq. intros i. destruct (decide (i < length bs)%nat).
  - rewrite lookup_take_lt, lookup_drop, list_lookup_inserts by lia. f_equal. lia.
  - rewrite lookup_take_ge by lia. symmetry. apply lookup_ge_None. lia.
Qed.

(** A store changes the bytes it covers and no other. *)
Lemma aget_poke mem off bs i :
  0 <= i -> in_object mem off (Z.of_nat (length bs)) = true ->
  (poke mem off bs).[i] =
  if (off <=? i) && (i <? off + Z.of_nat (length bs)) then bs.[i - off] else mem.[i].
Proof.
  intros Hi [H1 H2]%in_object_spec. unfold aget, poke.
  destruct (Z.leb_spec off i), (Z.ltb_spec i (off + Z.of_nat (length bs))); cbn [andb].
  - rewrite list_lookup_total_inserts by lia. f_equal. lia.
  - apply list_lookup_total_inserts_ge. lia.
  - apply list_lookup_total_inserts_lt. lia.
  - apply list_lookup_total_inserts_lt. lia.
Qed.

Lemma peek_one mem i : 0 <= i < Z.of_nat (length mem) -> peek mem i 1 = [mem.[i]].
Proof.
  intros Hi. unfold peek, aget. change (Z.to_nat 1) with 1%nat.
  destruct (lookup_lt_is_Some_2 mem (Z.to_nat i)) as [x Hx]; [lia|].
  rewrite (drop_S _ _ _ Hx), (list_lookup_total_correct _ _ _ Hx). reflexivity.
Qed.

(** Loads elsewhere are not affected by a store. *)
Lemma peek_poke_disjoint mem off bs off' n :
  0 <= off -> 0 <= off' -> 0 <= n ->
  off' + n <= off \/ off + Z.of_nat (length bs) <= off' ->
  peek (poke mem off bs) off' n = peek mem off' n.
Proof.
  intros H1 H2 Hn H3. unfold peek, poke. apply list_eq. intros i.
  destruct (decide (i < Z.to_nat n)%nat).
  - rewrite !lookup_take_lt, !lookup_drop by lia.
    destruct H3; [apply list_lookup_inserts_lt|apply list_lookup_inserts_ge]; lia.
  - by rewrite !lookup_take_ge by lia.
Qed.

Lemma peek_map mem off n :
  0 <= n -> in_object mem off n = true ->
  peek mem off n = (fun k => mem.[off + Z.of_nat k]) <$> seq 0 (Z.to_nat n).
Proof.
  intros Hn Ho. pose proof (length_peek _ _ _ Hn Ho) as Hl. apply in_object_spec in Ho as [H1 H2].
  apply list_eq. intros i. destruct (decide (i < Z.to_nat n)%nat).
  - rewrite list_lookup_fmap, lookup_seq_lt by lia. cbn. unfold peek, aget.
    rewrite lookup_take_lt, lookup_drop by lia.
    destruct (lookup_lt_is_Some_2 mem (Z.to_nat off + i)) as [x Hx]; [lia|].
    rewrite Hx. f_equal. symmetry. apply list_lookup_total_correct. rewrite <- Hx. f_equal. lia.
  - rewrite !(proj2 (lookup_ge_None _ _)); [done|rewrite length_fmap, length_seq; lia|lia].
Qed.

(** Reading bytes from the highest down, eight bits at a time. *)
Lemma fold_be_combine bs :
  Forall byte_ok bs -> (length bs <= 4)%nat ->
  fold_left (fun ret b => u32 (u32 (ret .<< 8) + b)) (rev bs) 0 = le_combine bs.
Proof.
  induction 1 as [|b bs Hb Hbs IH]; intros Hl; [done|]. cbn [length] in Hl.
  cbn [rev]. rewrite fold_left_app. cbn [fold_left le_combine]. rewrite IH by lia.
  pose proof (le_combine_is_u bs Hbs) as [H0 H1].
  assert (2 ^ (8 * Z.of_nat (length bs)) <= 2 ^ 24) as H2 by (apply Z.pow_le_mono_r; lia).
  destruct Hb as [Hb0 Hb1]. rewrite Z.shiftl_mul_pow2 by done.
  change (2 ^ 8) with 256 in *. change (2 ^ 24) with 16777216 in H2.
  rewrite (wrap_small 32 (le_combine bs * 256)) by (split; cbn; lia).
  rewrite wrap_small by (split; cbn; lia). lia.
Qed.

Lemma aget_peek mem off n i :
  in_object mem off n = true -> 0 <= i < n -> (peek mem off n).[i] = mem.[off + i].
Proof.
  intros [H1 H2]%in_object_spec Hi. unfold peek, aget.
  rewrite !list_lookup_total_alt, lookup_take_lt, lookup_drop by lia. do 2 f_equal. lia.
Qed.

(** Storing byte after byte. *)
Lemma poke_cons mem off b bs :
  in_object mem off (Z.of_nat (length (b :: bs))) = true ->
  poke mem off (b :: bs) = poke (mem.[off <- b]) (off + 1) bs.
Proof.
  intros Ho. pose proof Ho as [H1 H2]%in_object_spec. cbn [length] in H2.
  apply aget_ext; [by rewrite !length_poke, length_aset|]. rewrite length_poke. intros i Hi.
  rewrite !aget_poke by (lia || (apply in_object_spec; rewrite ?length_aset; cbn [length]; lia)).
  rewrite aget_aset by lia. cbn [length].
  destruct (Z.eqb_spec off i) as [<-|Hne].
  - rewrite Z.sub_diag, Z.leb_refl.
    assert ((off + 1 <=? off) = false) as -> by (apply Z.leb_gt; lia).
    by assert ((off <? off + Z.of_nat (S (length bs))) = true) as -> by (apply Z.ltb_lt; lia).
  - assert ((off <=? i) = (off + 1 <=? i)) as -> by (apply eq_true_iff_eq; rewrite !Z.leb_le; lia).
    replace (off + Z.of_nat (S (length bs))) with (off + 1 + Z.of_nat (length bs)) by lia.
    destruct (Z.leb_spec (off + 1) i); [|done]. cbn [andb]. destruct (i <? _); [|done].
    unfold aget. by replace (Z.to_nat (i - off)) with (S (Z.to_nat (i - (off + 1)))) by lia.
Qed.

#[export] Hint Rewrite length_le_split length_poke : uarm_rw.
#[export] Hint Resolve le_split_bytes poke_bytes peek_bytes : uarm.
