(* ===== verification/Crc.v ===== *)
(** * CRC-32 (CPCrc.cpp, assets/crc.js)

    The checksum the images of a session carry. The program has it twice, for
    the emulator in C++ and for the web application in JavaScript, with the same
    table and with numbers that are unsigned in one and signed in the other. *)

From S2P Require Import Prelude Bytes.

Definition crc32Table : list Z := [
  0x00000000; 0x77073096; 0xee0e612c; 0x990951ba; 0x076dc419; 0x706af48f; 0xe963a535; 0x9e6495a3;
  0x0edb8832; 0x79dcb8a4; 0xe0d5e91e; 0x97d2d988; 0x09b64c2b; 0x7eb17cbd; 0xe7b82d07; 0x90bf1d91;
  0x1db71064; 0x6ab020f2; 0xf3b97148; 0x84be41de; 0x1adad47d; 0x6ddde4eb; 0xf4d4b551; 0x83d385c7;
  0x136c9856; 0x646ba8c0; 0xfd62f97a; 0x8a65c9ec; 0x14015c4f; 0x63066cd9; 0xfa0f3d63; 0x8d080df5;
  0x3b6e20c8; 0x4c69105e; 0xd56041e4; 0xa2677172; 0x3c03e4d1; 0x4b04d447; 0xd20d85fd; 0xa50ab56b;
  0x35b5a8fa; 0x42b2986c; 0xdbbbc9d6; 0xacbcf940; 0x32d86ce3; 0x45df5c75; 0xdcd60dcf; 0xabd13d59;
  0x26d930ac; 0x51de003a; 0xc8d75180; 0xbfd06116; 0x21b4f4b5; 0x56b3c423; 0xcfba9599; 0xb8bda50f;
  0x2802b89e; 0x5f058808; 0xc60cd9b2; 0xb10be924; 0x2f6f7c87; 0x58684c11; 0xc1611dab; 0xb6662d3d;
  0x76dc4190; 0x01db7106; 0x98d220bc; 0xefd5102a; 0x71b18589; 0x06b6b51f; 0x9fbfe4a5; 0xe8b8d433;
  0x7807c9a2; 0x0f00f934; 0x9609a88e; 0xe10e9818; 0x7f6a0dbb; 0x086d3d2d; 0x91646c97; 0xe6635c01;
  0x6b6b51f4; 0x1c6c6162; 0x856530d8; 0xf262004e; 0x6c0695ed; 0x1b01a57b; 0x8208f4c1; 0xf50fc457;
  0x65b0d9c6; 0x12b7e950; 0x8bbeb8ea; 0xfcb9887c; 0x62dd1ddf; 0x15da2d49; 0x8cd37cf3; 0xfbd44c65;
  0x4db26158; 0x3ab551ce; 0xa3bc0074; 0xd4bb30e2; 0x4adfa541; 0x3dd895d7; 0xa4d1c46d; 0xd3d6f4fb;
  0x4369e96a; 0x346ed9fc; 0xad678846; 0xda60b8d0; 0x44042d73; 0x33031de5; 0xaa0a4c5f; 0xdd0d7cc9;
  0x5005713c; 0x270241aa; 0xbe0b1010; 0xc90c2086; 0x5768b525; 0x206f85b3; 0xb966d409; 0xce61e49f;
  0x5edef90e; 0x29d9c998; 0xb0d09822; 0xc7d7a8b4; 0x59b33d17; 0x2eb40d81; 0xb7bd5c3b; 0xc0ba6cad;
  0xedb88320; 0x9abfb3b6; 0x03b6e20c; 0x74b1d29a; 0xead54739; 0x9dd277af; 0x04db2615; 0x73dc1683;
  0xe3630b12; 0x94643b84; 0x0d6d6a3e; 0x7a6a5aa8; 0xe40ecf0b; 0x9309ff9d; 0x0a00ae27; 0x7d079eb1;
  0xf00f9344; 0x8708a3d2; 0x1e01f268; 0x6906c2fe; 0xf762575d; 0x806567cb; 0x196c3671; 0x6e6b06e7;
  0xfed41b76; 0x89d32be0; 0x10da7a5a; 0x67dd4acc; 0xf9b9df6f; 0x8ebeeff9; 0x17b7be43; 0x60b08ed5;
  0xd6d6a3e8; 0xa1d1937e; 0x38d8c2c4; 0x4fdff252; 0xd1bb67f1; 0xa6bc5767; 0x3fb506dd; 0x48b2364b;
  0xd80d2bda; 0xaf0a1b4c; 0x36034af6; 0x41047a60; 0xdf60efc3; 0xa867df55; 0x316e8eef; 0x4669be79;
  0xcb61b38c; 0xbc66831a; 0x256fd2a0; 0x5268e236; 0xcc0c7795; 0xbb0b4703; 0x220216b9; 0x5505262f;
  0xc5ba3bbe; 0xb2bd0b28; 0x2bb45a92; 0x5cb36a04; 0xc2d7ffa7; 0xb5d0cf31; 0x2cd99e8b; 0x5bdeae1d;
  0x9b64c2b0; 0xec63f226; 0x756aa39c; 0x026d930a; 0x9c0906a9; 0xeb0e363f; 0x72076785; 0x05005713;
  0x95bf4a82; 0xe2b87a14; 0x7bb12bae; 0x0cb61b38; 0x92d28e9b; 0xe5d5be0d; 0x7cdcefb7; 0x0bdbdf21;
  0x86d3d2d4; 0xf1d4e242; 0x68ddb3f8; 0x1fda836e; 0x81be16cd; 0xf6b9265b; 0x6fb077e1; 0x18b74777;
  0x88085ae6; 0xff0f6a70; 0x66063bca; 0x11010b5c; 0x8f659eff; 0xf862ae69; 0x616bffd3; 0x166ccf45;
  0xa00ae278; 0xd70dd2ee; 0x4e048354; 0x3903b3c2; 0xa7672661; 0xd06016f7; 0x4969474d; 0x3e6e77db;
  0xaed16a4a; 0xd9d65adc; 0x40df0b66; 0x37d83bf0; 0xa9bcae53; 0xdebb9ec5; 0x47b2cf7f; 0x30b5ffe9;
  0xbdbdf21c; 0xcabac28a; 0x53b39330; 0x24b4a3a6; 0xbad03605; 0xcdd70693; 0x54de5729; 0x23d967bf;
  0xb3667a2e; 0xc4614ab8; 0x5d681b02; 0x2a6f2b94; 0xb40bbe37; 0xc30c8ea1; 0x5a05df1b; 0x2d02ef8d].

Definition CRC32 (data : list Z) : Z :=
  u32 (Z.lnot (fold_left (fun crc p => crc32Table.[(crc .^ p) .& 0xFF] .^ (crc .>> 8)) data (u32 (Z.lnot 0)))).

(** ** The JavaScript version

    The operators of JavaScript give signed numbers of 32 bits; [>>>] takes an
    unsigned one. *)

Definition crc32_start : Z := Z.lnot 0.

Definition crc32_add (crc value : Z) : Z := sgn 32 (crc32Table.[(crc .^ value) .& 0xff] .^ (u32 crc .>> 8)).

Definition crc32_finish (value : Z) : Z := Z.lnot value.

(** ** Division by the polynomial *)

(** One bit: shift it out, and subtract the polynomial if it was set. *)
Definition crcBit (x : Z) : Z := (x .>> 1) .^ (if Z.odd x then 0xEDB88320 else 0).

Fixpoint crcBits (n : nat) (x : Z) : Z := match n with O => x | S n => crcBits n (crcBit x) end.

(** The checksum without a table. *)
Definition CRC32_reference (data : list Z) : Z :=
  u32 (Z.lnot (fold_left (fun crc p => crcBits 8 (crc .^ p)) data (u32 (Z.lnot 0)))).

Lemma crcBit_lxor x y : crcBit (x .^ y) = crcBit x .^ crcBit y.
Proof.
  unfold crcBit. generalize 0xEDB88320. intros P. rewrite Z.shiftr_lxor, <- !Z.bit0_odd, Z.lxor_spec.
  apply Z.bits_inj'. intros i Hi. rewrite !Z.lxor_spec.
  destruct (Z.testbit x 0), (Z.testbit y 0); cbn [xorb]; rewrite ?Z.bits_0;
    destruct (Z.testbit (x .>> 1) i), (Z.testbit (y .>> 1) i), (Z.testbit P i); done.
Qed.

Lemma crcBits_lxor n x y : crcBits n (x .^ y) = crcBits n x .^ crcBits n y.
Proof. revert x y. induction n as [|n IH]; intros x y; [done|]. cbn [crcBits]. by rewrite crcBit_lxor, IH. Qed.

(** Bits above the byte are only shifted down. *)
Lemma crcBits_high n h : crcBits n (h .<< Z.of_nat n) = h.
Proof.
  revert h. induction n as [|n IH]; intros h; [apply Z.shiftl_0_r|]. cbn [crcBits].
  rewrite <- (IH h) at 2. f_equal. unfold crcBit.
  rewrite <- Z.bit0_odd, Z.shiftl_spec_low, Z.lxor_0_r by lia. rewrite Z.shiftr_shiftl_l by lia. f_equal. lia.
Qed.

Lemma crc32Table_byte b : 0 <= b < 256 -> crc32Table.[b] = crcBits 8 b.
Proof.
  intros Hb. assert (HF : forallb (fun b => crc32Table.[b] =? crcBits 8 b) (seqZ 0 256) = true) by (vm_compute; reflexivity).
  apply Z.eqb_eq. apply (proj1 (forallb_forall _ _) HF b). apply list_elem_of_In, elem_of_seqZ. lia.
Qed.

Lemma land_ff_range x : 0 <= x .& 0xff < 256.
Proof. change 0xff with (Z.ones 8). rewrite Z.land_ones by lia. apply Z.mod_pos_bound. lia. Qed.

Lemma split_byte x : x = (x .& 0xff) .^ ((x .>> 8) .<< 8).
Proof.
  change 0xff with (Z.ones 8). apply Z.bits_inj'. intros i Hi. rewrite Z.lxor_spec, Z.land_spec. destruct (Z.lt_ge_cases i 8).
  - rewrite Z.ones_spec_low, Z.shiftl_spec_low by lia. by rewrite andb_true_r, xorb_false_r.
  - rewrite Z.ones_spec_high, Z.shiftl_spec, Z.shiftr_spec by lia. rewrite andb_false_r, xorb_false_l. f_equal. lia.
Qed.

(** A byte at a time is eight bits at a time. *)
Lemma crc_step crc p :
  0 <= p < 256 -> crc32Table.[(crc .^ p) .& 0xff] .^ (crc .>> 8) = crcBits 8 (crc .^ p).
Proof.
  intros Hp. assert (E : crc .>> 8 = (crc .^ p) .>> 8).
  { by rewrite Z.shiftr_lxor, (Z.shiftr_div_pow2 p), (Z.div_small p), Z.lxor_0_r by lia. }
  rewrite E. generalize (crc .^ p). intros x. rewrite crc32Table_byte by apply land_ff_range.
  pose proof (crcBits_high 8 (x .>> 8)) as HH. revert HH. change (Z.of_nat 8) with 8. pose proof (crcBits_lxor 8 (x .& 0xff) ((x .>> 8) .<< 8)) as HL.
  revert HL. rewrite <- split_byte. generalize (crcBits 8). intros f -> ->. done.
Qed.

Lemma fold_left_ext_Forall {A B} (P : B -> Prop) (f g : A -> B -> A) l a :
  (forall a b, P b -> f a b = g a b) -> Forall P l -> fold_left f l a = fold_left g l a.
Proof. intros Hfg Hl. revert a. induction Hl as [|b l Hb _ IH]; intros a; [done|]. cbn [fold_left]. by rewrite Hfg, IH. Qed.

Lemma crc_steps data crc :
  Forall byte_ok data ->
  fold_left (fun crc p => crc32Table.[(crc .^ p) .& 0xFF] .^ (crc .>> 8)) data crc = fold_left (fun crc p => crcBits 8 (crc .^ p)) data crc.
Proof. apply fold_left_ext_Forall. exact crc_step. Qed.

Lemma crcBit_is_u x : is_u 32 x -> is_u 32 (crcBit x).
Proof.
  intros Hx. apply is_u_lxor; [|by destruct (Z.odd x); is_u_lit|lia]. unfold is_u in *. rewrite Z.shiftr_div_pow2 by lia.
  split; [apply Z.div_pos; lia|]. apply Z.div_lt_upper_bound; lia.
Qed.

(** ** The two versions agree *)

Lemma u32_land_ff crc v : (crc .^ v) .& 0xff = (u32 crc .^ v) .& 0xff.
Proof.
  change 0xff with (Z.ones 8). apply Z.bits_inj'. intros i Hi. rewrite !Z.land_spec, !Z.lxor_spec, testbit_wrap by lia.
  destruct (Z.ltb_spec i 8); [rewrite (proj2 (Z.ltb_lt i 32)) by lia; done|]. by rewrite Z.ones_spec_high, !andb_false_r by lia.
Qed.

Lemma crc32_add_ok crc v : u32 (crc32_add crc v) = u32 (crc32Table.[(u32 crc .^ v) .& 0xff] .^ (u32 crc .>> 8)).
Proof. unfold crc32_add. by rewrite wrap_sgn, u32_land_ff by lia. Qed.

Lemma crc_step_is_u crc p : is_u 32 crc -> 0 <= p < 256 -> is_u 32 (crc32Table.[(crc .^ p) .& 0xff] .^ (crc .>> 8)).
Proof.
  intros Hc Hp. rewrite crc_step by done. assert (is_u 32 (crc .^ p)) as H by (apply is_u_lxor; [done|unfold is_u; lia|lia]).
  revert H. generalize (crc .^ p), 8%nat. intros x n. revert x. induction n as [|n IH]; intros x Hx; [done|]. by apply IH, crcBit_is_u.
Qed.

(** What [compress] attaches is what the emulator compares with. *)
Lemma crc32_js data :
  Forall byte_ok data -> u32 (crc32_finish (fold_left crc32_add data crc32_start)) = CRC32 data.
Proof.
  intros Hd. assert (HG : forall s c, is_u 32 c -> u32 s = c ->
    u32 (fold_left crc32_add data s) = fold_left (fun crc p => crc32Table.[(crc .^ p) .& 0xFF] .^ (crc .>> 8)) data c).
  { induction Hd as [|p data Hp _ IH]; intros s c Hc Hs; [done|]. cbn [fold_left]. apply IH; [by apply crc_step_is_u|].
    rewrite crc32_add_ok, Hs. apply wrap_small. by apply crc_step_is_u. }
  unfold crc32_finish, CRC32. rewrite <- (HG crc32_start (u32 (Z.lnot 0)) ltac:(apply wrap_is_u; lia) eq_refl). apply Z.bits_inj'. intros i Hi.
  rewrite !testbit_wrap by lia. destruct (i <? 32) eqn:Hi32; [|by rewrite !andb_false_l]. rewrite !Z.lnot_spec by lia. rewrite testbit_wrap by lia. by rewrite Hi32.
Qed.

(** C32. The checksum computed a byte at a time with the table of 256 entries is the
    remainder of the division by the polynomial, a bit at a time, on every
    sequence of bytes; and the signed arithmetic of the web application computes
    the same 32 bits as the unsigned one of the emulator. *)
Theorem crc32_is_bitwise data :
  Forall byte_ok data ->
  CRC32 data = CRC32_reference data /\ u32 (crc32_finish (fold_left crc32_add data crc32_start)) = CRC32 data.
Proof. intros Hd. split; [|by apply crc32_js]. unfold CRC32, CRC32_reference. by rewrite crc_steps. Qed.

(** "123456789" *)
Example crc32_is_bitwise_witness :
  let data := [0x31; 0x32; 0x33; 0x34; 0x35; 0x36; 0x37; 0x38; 0x39] in
  (CRC32 data = CRC32_reference data /\ u32 (crc32_finish (fold_left crc32_add data crc32_start)) = CRC32 data) /\
  CRC32_reference data = 0xcbf43926.
Proof. split; [apply crc32_is_bitwise; forall_list; is_u_lit|vm_compute; reflexivity]. Defined.
