(* ===== verification/Rle.v ===== *)
(** * Run-length coding of sessions (rle.cpp, assets/session.js)

    The web application stores a session compressed ([compress] in session.js)
    and the emulator reads it back ([rle_decode] in rle.cpp): a size and blocks
    of literal or of repeated bytes. *)

From S2P Require Import Prelude Bytes Crc.

Definition MAX_BLOCK_SIZE := 128 * 1024 * 1024.
Definition BLOCK_TYPE_COPY := 0.
Definition BLOCK_TYPE_REPEAT := 1.
Definition REPEAT_THRESHOLD := 8.
Definition MAX_OVERHEAD := 9.

Definition len (l : list Z) : Z := Z.of_nat (length l).

(** ** The decoder

    [size_t] has [sizeW] bits: 32 in the web application, 64 on a desktop. *)

Section Decoder.
Context (sizeW : Z).

Definition usize (x : Z) : Z := wrap sizeW x.

(** The length of a block from [cc]: seven bits a byte, as [int]s that are
    converted to a [size_t]; [None] is one of the errors. *)
Fixpoint decodeLength (fuel : nat) (source : list Z) (cc blockLen shift : Z) : outcome (option (Z * Z)) :=
  match fuel with
  | O => Hang
  | S fuel =>
      if len source <=? cc then Ret None
      else if 28 <? shift then Ret None
      else
        let part := (source.[cc] .& 0x7f) .<< shift in
        if 2 ^ 32 <=? part then Undef else
        let blockLen := blockLen .| usize (sgn 32 part) in
        if tst source.[cc] 0x80 then decodeLength fuel source (cc + 1) blockLen (shift + 7)
        else Ret (Some (blockLen, cc + 1))
  end.

Fixpoint decodeBlocks (fuel : nat) (source : list Z) (size cursor cc : Z) (decompressed : list Z) : outcome (option (list Z)) :=
  match fuel with
  | O => Hang
  | S fuel =>
      if cursor <? size then
        if len source <=? cc then Ret None else
        let blockType := source.[cc] in
        r ← decodeLength 6 source (cc + 1) 0 0;
        match r with
        | None => Ret None
        | Some (blockLen, cc) =>
            if size <? usize (cursor + blockLen) then Ret None else
            let next cc decompressed := decodeBlocks fuel source size (usize (cursor + blockLen)) cc decompressed in
            if blockType =? BLOCK_TYPE_COPY then
              if len source <? usize (cc + blockLen) then Ret None
              else if in_object source cc blockLen && in_object decompressed cursor blockLen
              then next (cc + blockLen) (poke decompressed cursor (peek source cc blockLen))
              else Undef
            else if blockType =? BLOCK_TYPE_REPEAT then
              if len source <=? cc then Ret None
              else if in_object decompressed cursor blockLen
              then next (cc + 1) (poke decompressed cursor (replicate (Z.to_nat blockLen) source.[cc]))
              else Undef
            else next cc decompressed
        end
      else Ret (Some decompressed)
  end.

(** Every turn reads two bytes at least. *)
Definition rle_decode (source : list Z) : outcome (option (list Z)) :=
  if len source <? 4 then Ret None else
  let size := usize (sgn 32 (le_combine (take 4 source))) in
  if MAX_BLOCK_SIZE <? size then Ret None else
  decodeBlocks (S (length source)) source size 0 4 (replicate (Z.to_nat size) 0).
End Decoder.

(** ** The encoder *)

(** A [Uint8Array] with the position of the next write, which moves on whether or
    not the byte fits: writes past the end are ignored, so an encoder that needs
    more room loses bytes and ends with [pos] past the end of [buf]. Setting a
    range that does not fit throws. *)
Record Writer := mkWriter { buf : list Z; pos : Z }.

Definition putByte (w : Writer) (b : Z) : Writer := mkWriter w.(buf).[w.(pos) <- u8 b] (w.(pos) + 1).

Definition putBytes (w : Writer) (bs : list Z) : outcome Writer :=
  if w.(pos) + len bs <=? len w.(buf) then Ret (mkWriter (poke w.(buf) w.(pos) bs) (w.(pos) + len bs)) else Abort.

(** The bytes of a number, the lowest first. *)
Definition put4 (w : Writer) (x : Z) : Writer := fold_left (fun w k => putByte w (x .>> (8 * k))) [0; 1; 2; 3] w.

(** [do ... while] on a 32-bit number: five turns at most. *)
Fixpoint putLengthLoop (fuel : nat) (w : Writer) (length : Z) : Writer :=
  match fuel with
  | O => w
  | S fuel =>
      let w := putByte w ((length .& 0x7f) .| (if 0x7f <? length then 0x80 else 0)) in
      let length := u32 length .>> 7 in
      if length =? 0 then w else putLengthLoop fuel w length
  end.
Definition putLength (w : Writer) (length : Z) : Writer := putLengthLoop 5 w length.

Inductive ScanState := First | ScanCopy | ScanRepeat.

Record Compressor := mkCompressor {
  out : Writer;
  cursor : Z;
  state : ScanState;
  repeatFirst : Z;
  lastValue : Z
}.

Section Compress.
Context (data : list Z).

Definition putCopy (c : Compressor) (end_ : Z) : outcome Compressor :=
  if c.(cursor) =? end_ then Ret c else
  let w := putLength (putByte c.(out) BLOCK_TYPE_COPY) (end_ - c.(cursor)) in
  w ← putBytes w (peek data c.(cursor) (end_ - c.(cursor)));
  Ret { c with out := w }.

Definition putRepeat (c : Compressor) (value repeatCount : Z) : Compressor :=
  { c with out := putByte (putLength (putByte c.(out) BLOCK_TYPE_REPEAT) repeatCount) value }.

Definition scan (c : Compressor) (i : Z) : outcome Compressor :=
  let value := if i <? len data then data.[i] else 0xffff in
  match c.(state) with
  | First => Ret { c with lastValue := value; state := ScanCopy }
  | ScanCopy =>
      Ret (if value =? c.(lastValue) then { c with state := ScanRepeat; repeatFirst := i - 1 } else { c with lastValue := value })
  | ScanRepeat =>
      if value =? c.(lastValue) then Ret c else
      c ← (if REPEAT_THRESHOLD <=? i - c.(repeatFirst) then
             c ← putCopy c c.(repeatFirst);
             Ret { putRepeat { c with cursor := c.(repeatFirst) } c.(lastValue) (i - c.(repeatFirst)) with cursor := i }
           else Ret c);
      Ret { c with state := ScanCopy; lastValue := value }
  end.

Definition startCompress : Compressor :=
  let w := mkWriter (replicate (Z.to_nat (len data + MAX_OVERHEAD)) 0) 0 in
  let w := put4 w (u32 (len data)) in
  mkCompressor w 0 First 0 0.

(** One turn of the loop, with the checksum next to the rest. *)
Definition turn (s : Compressor * Z) (i : Z) : outcome (Compressor * Z) :=
  let '(c, crc) := s in
  let crc := if i <? len data then crc32_add crc data.[i] else crc in
  c ← scan c i;
  Ret (c, crc).

(** Everything up to the slice that is returned. *)
Definition compressAll : outcome (Compressor * Z) :=
  '(c, crc) ← forM (seqZ 0 (len data + 1)) turn (startCompress, crc32_start);
  match c.(state) with
  | ScanCopy =>
      c ← (if c.(cursor) <? len data then putCopy c (len data) else Ret c);
      Ret (c, crc)
  | _ => Abort
  end.

(** The compressed bytes and the checksum of the data. *)
Definition compress : outcome (list Z * Z) :=
  '(c, crc) ← compressAll;
  Ret (take (Z.to_nat c.(out).(pos)) c.(out).(buf), crc32_finish crc).
End Compress.


(** ** Streams of blocks *)

Inductive Block := Copy (bs : list Z) | Repeat (n v : Z).

Fixpoint lebLoop (fuel : nat) (n : Z) : list Z :=
  match fuel with
  | O => []
  | S fuel =>
      let rest := n .>> 7 in
      ((n .& 0x7f) .| (if 0x7f <? n then 0x80 else 0)) :: (if rest =? 0 then [] else lebLoop fuel rest)
  end.
Definition leb (n : Z) : list Z := lebLoop 5 n.

Definition expand (b : Block) : list Z := match b with Copy bs => bs | Repeat n v => replicate (Z.to_nat n) v end.
Definition encode (b : Block) : list Z :=
  match b with Copy bs => BLOCK_TYPE_COPY :: leb (len bs) ++ bs | Repeat n v => BLOCK_TYPE_REPEAT :: leb n ++ [v] end.
Definition expandAll (bs : list Block) : list Z := bs ≫= expand.
Definition encodeAll (bs : list Block) : list Z := bs ≫= encode.

Definition block_ok (b : Block) : Prop :=
  Forall byte_ok (expand b) /\ 0 < len (expand b) < 2 ^ 28 /\ match b with Copy _ => True | Repeat n v => 0 < n end.

Lemma len_nonneg l : 0 <= len l.
Proof. unfold len. lia. Qed.

Lemma len_app l l' : len (l ++ l') = len l + len l'.
Proof. unfold len. rewrite length_app. lia. Qed.

Lemma len_cons x l : len (x :: l) = 1 + len l.
Proof. unfold len. cbn. lia. Qed.

Lemma len_replicate n x : 0 <= n -> len (replicate (Z.to_nat n) x) = n.
Proof. unfold len. rewrite length_replicate. lia. Qed.

Lemma aget_app_here pre x rest : (pre ++ x :: rest).[len pre] = x.
Proof. unfold aget, len. rewrite Nat2Z.id. by rewrite lookup_total_app_r, Nat.sub_diag by lia. Qed.

(** ** Lengths *)

Lemma lebLoop_length fuel n k :
  0 <= n < 2 ^ (7 * Z.of_nat k) -> (1 <= k)%nat -> (0 < fuel)%nat -> 1 <= len (lebLoop fuel n) <= Z.of_nat k.
Proof.
  revert n k. induction fuel as [|fuel IH]; intros n k Hn Hk Hf; [lia|]. cbn [lebLoop]. rewrite len_cons, Z.shiftr_div_pow2 by lia.
  destruct (Z.eqb_spec (n / 2 ^ 7) 0) as [|Hne]; [change (len []) with 0; lia|].
  destruct fuel as [|fuel]; [cbn [lebLoop]; change (len []) with 0; lia|].
  destruct k as [|[|k]]; [lia|exfalso; apply Hne; apply Z.div_small; lia|].
  assert (Hd : 0 <= n / 2 ^ 7 < 2 ^ (7 * Z.of_nat (S k))).
  { split; [apply Z.div_pos; lia|]. apply Z.div_lt_upper_bound; [lia|]. rewrite <- Z.pow_add_r by lia.
    replace (7 + 7 * Z.of_nat (S k)) with (7 * Z.of_nat (S (S k))) by lia. lia. }
  specialize (IH (n / 2 ^ 7) (S k) Hd ltac:(lia) ltac:(lia)). lia.
Qed.

Lemma leb_length n : 0 <= n < 2 ^ 28 -> 1 <= len (leb n) <= 4 /\ (n < 128 -> len (leb n) = 1).
Proof.
  intros Hn. pose proof (lebLoop_length 5 n 4 ltac:(lia) ltac:(lia) ltac:(lia)) as H4. split; [unfold leb; lia|].
  intros H1. pose proof (lebLoop_length 5 n 1 ltac:(lia) ltac:(lia) ltac:(lia)). unfold leb. lia.
Qed.

Lemma lebByte_is_u n : 0 <= n -> is_u 8 ((n .& 0x7f) .| (if 0x7f <? n then 0x80 else 0)).
Proof.
  intros Hn. apply is_u_lor; [|destruct (_ <? _); is_u_lit|lia]. change 0x7f with (Z.ones 7). rewrite Z.land_ones by lia.
  pose proof (Z.mod_pos_bound n (2 ^ 7) ltac:(lia)). unfold is_u. lia.
Qed.

(** The first byte: seven bits, and whether more follow. *)
Lemma lebByte n :
  0 <= n -> let b := (n .& 0x7f) .| (if 0x7f <? n then 0x80 else 0) in b .& 0x7f = n mod 128 /\ tst b 0x80 = negb (n .>> 7 =? 0).
Proof.
  intros Hn b. unfold b. clear b. change 0x7f with (Z.ones 7). change 0x80 with (2 ^ 7). split.
  - apply Z.bits_inj'. intros k Hk. change 128 with (2 ^ 7). rewrite <- Z.land_ones by lia.
    rewrite !Z.land_spec, Z.lor_spec, Z.land_spec, Z.testbit_ones_nonneg by lia.
    destruct (Z.ltb_spec k 7); [|by rewrite !andb_false_r].
    replace (Z.testbit (if Z.ones 7 <? n then 2 ^ 7 else 0) k) with false; [by rewrite orb_false_r, !andb_true_r|].
    destruct (_ <? _); [|by rewrite Z.bits_0]. rewrite Z.pow2_bits_eqb by lia. symmetry. apply Z.eqb_neq. lia.
  - rewrite tst_bit, Z.lor_spec, Z.land_spec, Z.testbit_ones_nonneg by lia. cbn [Z.ltb]. change (7 <? 7) with false. rewrite andb_false_r.
    rewrite Z.shiftr_div_pow2 by lia. change (Z.ones 7) with 127. change (2 ^ 7) with 128. destruct (Z.ltb_spec 127 n).
    + rewrite (proj2 (Z.eqb_neq _ _)); [done|]. assert (1 <= n / 128) by (apply Z.div_le_lower_bound; lia). lia.
    + by rewrite Z.div_small by lia.
Qed.

Lemma lebLoop_S fuel n :
  lebLoop (S fuel) n = ((n .& 0x7f) .| (if 0x7f <? n then 0x80 else 0)) :: (if n .>> 7 =? 0 then [] else lebLoop fuel (n .>> 7)).
Proof. done. Qed.

Section DecoderOk.
Context (sizeW : Z) (HsizeW : 32 <= sizeW <= 64).
#[local] Abbreviation decodeLength := (decodeLength sizeW).
#[local] Abbreviation decodeBlocks := (decodeBlocks sizeW).
#[local] Abbreviation rle_decode := (rle_decode sizeW).

Lemma usize_small x : 0 <= x < 2 ^ 32 -> usize sizeW x = x.
Proof. intros. apply wrap_small. unfold is_u. assert (2 ^ 32 <= 2 ^ sizeW) by (apply Z.pow_le_mono_r; lia). lia. Qed.

Lemma decodeLength_loop post : forall k fuel n acc s,
  s = 28 - 7 * Z.of_nat k -> (1 <= k <= 4)%nat -> (k < fuel)%nat -> 0 <= n < 2 ^ (7 * Z.of_nat k) -> 0 <= acc < 2 ^ s ->
  forall pre, decodeLength fuel (pre ++ lebLoop (S k) n ++ post) (len pre) acc s =
    Ret (Some (acc + n * 2 ^ s, len pre + len (lebLoop (S k) n))).
Proof.
  induction k as [|k IH]; intros fuel n acc s Hs Hk Hf Hn Ha pre'; [lia|]. destruct fuel as [|fuel]; [lia|].
  rewrite lebLoop_S. cbn [decodeLength]. set (b := (n .& 0x7f) .| (if 0x7f <? n then 0x80 else 0)) in *.
  destruct (lebByte n ltac:(lia)) as [Hb1 Hb2]. fold b in Hb1, Hb2.
  set (rest := if n .>> 7 =? 0 then [] else _). rewrite <- app_comm_cons, aget_app_here, len_app, len_cons, len_app.
  pose proof (len_nonneg rest). pose proof (len_nonneg post).
  rewrite (proj2 (Z.leb_gt _ _)), (proj2 (Z.ltb_ge 28 s)) by lia. rewrite Hb1.
  assert (Hm : 0 <= n mod 128 < 128) by (apply Z.mod_pos_bound; lia). rewrite Z.shiftl_mul_pow2 by lia.
  assert (Hp : n mod 128 * 2 ^ s < 2 ^ 28).
  { assert (2 ^ s <= 2 ^ 21) by (apply Z.pow_le_mono_r; lia). assert (0 < 2 ^ s) by (apply Z.pow_pos_nonneg; lia). nia. }
  assert (0 <= n mod 128 * 2 ^ s) by (apply Z.mul_nonneg_nonneg; [lia|apply Z.pow_nonneg; lia]).
  rewrite (proj2 (Z.leb_gt _ _)) by lia. rewrite (sgn_exact 32) by lia. rewrite (usize_small (_ * _)) by lia.
  assert (Hor : acc .| n mod 128 * 2 ^ s = acc + n mod 128 * 2 ^ s).
  { rewrite Z.lor_comm, lor_mul_pow2 by (unfold is_u; lia). lia. }
  rewrite Hor, Hb2. subst rest. destruct (Z.eqb_spec (n .>> 7) 0) as [E0|Hne]; cbn [negb].
  - rewrite Z.shiftr_div_pow2 in E0 by lia. change (2 ^ 7) with 128 in E0. apply Z.div_small_iff in E0; [|lia]. rewrite Z.mod_small by lia.
    cbn. do 3 f_equal.
  - destruct k as [|k].
    { exfalso. apply Hne. rewrite Z.shiftr_div_pow2 by lia. apply Z.div_small. lia. }
    assert (Hd : 0 <= n .>> 7 < 2 ^ (7 * Z.of_nat (S k))).
    { rewrite Z.shiftr_div_pow2 by lia. split; [apply Z.div_pos; lia|]. apply Z.div_lt_upper_bound; [lia|]. rewrite <- Z.pow_add_r by lia.
      replace (7 + 7 * Z.of_nat (S k)) with (7 * Z.of_nat (S (S k))) by lia. lia. }
    replace (pre' ++ b :: lebLoop (S (S k)) (n .>> 7) ++ post) with ((pre' ++ [b]) ++ lebLoop (S (S k)) (n .>> 7) ++ post) by (by rewrite <- app_assoc).
    replace (len pre' + 1) with (len (pre' ++ [b])) by (rewrite len_app; done).
    rewrite (IH fuel (n .>> 7) (acc + n mod 128 * 2 ^ s) (s + 7) ltac:(lia) ltac:(lia) ltac:(lia) Hd).
    + rewrite len_app. change (len [b]) with 1. rewrite len_cons. do 3 f_equal; [|lia]. rewrite Z.pow_add_r, Z.shiftr_div_pow2 by lia. change (2 ^ 7) with 128.
      pose proof (Z.div_mod n 128 ltac:(lia)). nia.
    + rewrite Z.pow_add_r by lia. change (2 ^ 7) with 128. assert (0 < 2 ^ s) by (apply Z.pow_pos_nonneg; lia). nia.
Qed.

Lemma decodeLength_leb n pre post :
  0 <= n < 2 ^ 28 -> decodeLength 6 (pre ++ leb n ++ post) (len pre) 0 0 = Ret (Some (n, len pre + len (leb n))).
Proof.
  intros Hn. unfold leb. rewrite (decodeLength_loop post 4 6 n 0 0) by lia. by rewrite Z.mul_1_r, Z.add_0_l.
Qed.

(** ** Decoding what was encoded *)

Lemma peek_mid a xs b : peek (a ++ xs ++ b) (len a) (len xs) = xs.
Proof. unfold peek, len. rewrite !Nat2Z.id, drop_app_length. apply take_app_length. Qed.

Lemma aset_here a y b x : (a ++ y :: b).[len a <- x] = a ++ x :: b.
Proof. unfold aset, len. rewrite Nat2Z.id, insert_app_r_alt, Nat.sub_diag by lia. done. Qed.

Lemma poke_mid xs : forall a b c, length b = length xs -> poke (a ++ b ++ c) (len a) xs = a ++ xs ++ c.
Proof.
  induction xs as [|x xs IH]; intros a b c Hl.
  - by destruct b.
  - destruct b as [|y b]; [done|]. cbn [length] in Hl. rewrite poke_cons.
    + cbn [app]. rewrite aset_here. replace (a ++ x :: b ++ c) with ((a ++ [x]) ++ b ++ c) by (by rewrite <- app_assoc).
      replace (len a + 1) with (len (a ++ [x])) by (by rewrite len_app). rewrite IH by lia. by rewrite <- app_assoc.
    + apply in_object_spec. rewrite !length_app. unfold len. cbn [length]. lia.
Qed.

(** A stretch of zeros is overwritten from the front. *)
Lemma poke_zeros a xs k :
  len xs <= k -> poke (a ++ replicate (Z.to_nat k) 0) (len a) xs = (a ++ xs) ++ replicate (Z.to_nat (k - len xs)) 0.
Proof.
  intros Hk. unfold len in *. replace (Z.to_nat k) with (length xs + Z.to_nat (k - Z.of_nat (length xs)))%nat by lia.
  rewrite replicate_add. rewrite <- app_assoc. apply poke_mid. by rewrite length_replicate.
Qed.

Lemma expandAll_cons b bs : expandAll (b :: bs) = expand b ++ expandAll bs.
Proof. done. Qed.

Lemma encodeAll_cons b bs : encodeAll (b :: bs) = encode b ++ encodeAll bs.
Proof. done. Qed.

Lemma in_mid a xs b : in_object (a ++ xs ++ b) (len a) (len xs) = true.
Proof. apply in_object_spec. rewrite !length_app. unfold len. lia. Qed.

Lemma in_zeros a k n : 0 <= n <= k -> in_object (a ++ replicate (Z.to_nat k) 0) (len a) n = true.
Proof. intros. apply in_object_spec. rewrite length_app, length_replicate. unfold len. lia. Qed.

Lemma decodeBlocks_ok size post : size <= MAX_BLOCK_SIZE -> forall bs fuel pre done_,
  Forall block_ok bs -> len done_ + len (expandAll bs) = size -> (length bs < fuel)%nat ->
  len (pre ++ encodeAll bs ++ post) < 2 ^ 32 ->
  decodeBlocks fuel (pre ++ encodeAll bs ++ post) size (len done_) (len pre) (done_ ++ replicate (Z.to_nat (len (expandAll bs))) 0) =
  Ret (Some (done_ ++ expandAll bs)).
Proof.
  unfold MAX_BLOCK_SIZE. intros Hsize. induction bs as [|b bs IH]; intros fuel pre done_ Hok Hlen Hfuel Hsrc; (destruct fuel as [|fuel]; [cbn in Hfuel; lia|]).
  { cbn [decodeBlocks]. unfold expandAll in *. cbn in *. change (len []) with 0 in *. rewrite (proj2 (Z.ltb_ge _ _)) by lia. done. }
  apply Forall_cons in Hok as [(Hb1 & Hb2 & Hb3) Hok]. rewrite expandAll_cons, encodeAll_cons in *. rewrite len_app in Hlen. rewrite (len_app (expand b)). cbn [length] in Hfuel.
  pose proof (len_nonneg done_). pose proof (len_nonneg (expandAll bs)). pose proof (len_nonneg pre).
  set (n := len (expand b)) in *.
  assert (Hn : exists t rest, encode b = t :: leb n ++ rest /\
    (t = BLOCK_TYPE_COPY /\ rest = expand b \/ t = BLOCK_TYPE_REPEAT /\ exists v, rest = [v] /\ expand b = replicate (Z.to_nat n) v)).
  { destruct b as [xs|m v]; cbn in n, Hb3; cbn [encode expand]; do 2 eexists.
    - split; [done|]. by left.
    - assert (n = m) as -> by (unfold n; apply len_replicate; lia). split; [done|]. right. split; [done|]. by exists v. }
  destruct Hn as (t & rest & Heb & Hcase). rewrite Heb in *. set (tail := encodeAll bs ++ post) in *.
  replace (pre ++ ((t :: leb n ++ rest) ++ encodeAll bs) ++ post) with (pre ++ t :: leb n ++ rest ++ tail) in *
    by (unfold tail; cbn [app]; by rewrite <- !app_assoc).
  assert (Hl : len (pre ++ t :: leb n ++ rest ++ tail) = len pre + 1 + len (leb n) + len rest + len tail).
  { rewrite len_app, len_cons, !len_app. lia. }
  pose proof (len_nonneg rest). pose proof (len_nonneg tail). destruct (leb_length n ltac:(lia)) as [Hleb _].
  cbn [decodeBlocks]. rewrite (proj2 (Z.ltb_lt _ _)), (proj2 (Z.leb_gt _ _)) by lia. rewrite aget_app_here.
  assert (Hd : decodeLength 6 (pre ++ t :: leb n ++ rest ++ tail) (len pre + 1) 0 0 = Ret (Some (n, len pre + 1 + len (leb n)))).
  { replace (pre ++ t :: leb n ++ rest ++ tail) with ((pre ++ [t]) ++ leb n ++ rest ++ tail) by (by rewrite <- app_assoc).
    replace (len pre + 1) with (len (pre ++ [t])) by (by rewrite len_app). rewrite decodeLength_leb by lia. done. }
  rewrite Hd. cbn [mbind outcome_bind]. clear Hd. rewrite !(usize_small (len done_ + n)) by lia.
  rewrite (proj2 (Z.ltb_ge _ _)) by lia. set (head := pre ++ t :: leb n).
  assert (Es : pre ++ t :: leb n ++ rest ++ tail = head ++ rest ++ tail) by (unfold head; by rewrite <- app_assoc).
  assert (Eh : len pre + 1 + len (leb n) = len head) by (unfold head; rewrite len_app, len_cons; lia).
  rewrite Es, Eh in *.
  assert (Hnext : forall xs, len xs = n -> forall rest', len (head ++ rest') = len head + len rest' -> rest' = rest -> xs = expand b ->
    decodeBlocks fuel (head ++ rest ++ tail) size (len done_ + n) (len head + len rest)
      ((done_ ++ xs) ++ replicate (Z.to_nat (n + len (expandAll bs) - n)) 0) = Ret (Some (done_ ++ expand b ++ expandAll bs))).
  { intros xs Hxs rest' _ _ ->. replace (n + len (expandAll bs) - n) with (len (expandAll bs)) by lia.
    replace (head ++ rest ++ tail) with ((head ++ rest) ++ encodeAll bs ++ post) in * by (by rewrite <- app_assoc).
    replace (len head + len rest) with (len (head ++ rest)) by (by rewrite len_app). rewrite <- Hxs, <- len_app.
    rewrite IH; [by rewrite <- app_assoc|done|rewrite len_app; lia|lia|]. exact Hsrc. }
  destruct Hcase as [[-> ->]|(-> & v & -> & Ee)]; cbn [Z.eqb Pos.eqb BLOCK_TYPE_COPY BLOCK_TYPE_REPEAT].
  - unfold BLOCK_TYPE_COPY. cbn [Z.eqb]. rewrite usize_small by lia. fold n. rewrite (proj2 (Z.ltb_ge _ _)) by lia.
    rewrite in_mid, in_zeros by lia. cbn [andb]. rewrite peek_mid. rewrite (poke_zeros done_ (expand b)) by lia. fold n.
    apply (Hnext (expand b) eq_refl (expand b)); [apply len_app|done|done].
  - unfold BLOCK_TYPE_REPEAT, BLOCK_TYPE_COPY. cbn [Z.eqb Pos.eqb]. change (len [v]) with 1 in *.
    rewrite (proj2 (Z.leb_gt _ _)) by lia. rewrite in_zeros by lia.
    change (head ++ [v] ++ tail) with (head ++ v :: tail). rewrite aget_app_here. rewrite <- Ee. rewrite poke_zeros by lia. fold n.
    apply (Hnext (expand b) eq_refl [v]); [apply len_app|done|done].
Qed.

Lemma block_encode_pos b : 0 < len (encode b).
Proof. destruct b; unfold len; cbn; lia. Qed.

Lemma blocks_length bs : Z.of_nat (length bs) <= len (encodeAll bs).
Proof.
  induction bs as [|b bs IH]; [done|]. rewrite encodeAll_cons, len_app. pose proof (block_encode_pos b). cbn [length]. lia.
Qed.

(** A size and blocks that expand to that many bytes. *)
Lemma rle_decode_blocks bs :
  Forall block_ok bs -> len (expandAll bs) <= MAX_BLOCK_SIZE -> len (encodeAll bs) < 2 ^ 31 ->
  rle_decode (le_split 4 (len (expandAll bs)) ++ encodeAll bs) = Ret (Some (expandAll bs)).
Proof.
  intros Hok Hsize Hsrc. unfold MAX_BLOCK_SIZE in Hsize. pose proof (len_nonneg (expandAll bs)). set (size := len (expandAll bs)) in *.
  assert (Hh : len (le_split 4 size) = 4) by (unfold len; by rewrite length_le_split).
  pose proof (len_nonneg (encodeAll bs)). unfold rle_decode, MAX_BLOCK_SIZE. rewrite len_app, Hh, (proj2 (Z.ltb_ge _ _)) by lia.
  rewrite take_app_length' by (by rewrite length_le_split). rewrite (le_roundtrip 4) by (unfold is_u; lia).
  rewrite (sgn_exact 32), usize_small by lia. rewrite (proj2 (Z.ltb_ge _ _)) by lia.
  pose proof (decodeBlocks_ok size [] Hsize bs (S (length (le_split 4 size ++ encodeAll bs))) (le_split 4 size) [] Hok) as HD.
  rewrite app_nil_r, Hh in HD. change (len []) with 0 in HD. cbn [app] in HD. apply HD; [lia| |rewrite len_app; lia].
  pose proof (blocks_length bs). rewrite length_app. unfold len in *. lia.
Qed.

End DecoderOk.

(** ** The writer *)

(** The bytes written so far, in front of zeros. *)
Definition holds (cap : Z) (w : Writer) (bs : list Z) : Prop :=
  w.(buf) = bs ++ replicate (Z.to_nat (cap - len bs)) 0 /\ w.(pos) = len bs /\ len bs <= cap.

Lemma putByte_holds cap w bs b : holds cap w bs -> len bs < cap -> holds cap (putByte w b) (bs ++ [u8 b]).
Proof.
  intros (Hb & Hp & _) Hlt. unfold holds, putByte. cbn [buf pos]. rewrite Hb, Hp, len_app. change (len [u8 b]) with 1.
  split_and!; [|done|lia]. replace (Z.to_nat (cap - len bs)) with (S (Z.to_nat (cap - (len bs + 1)))) by lia. cbn [replicate].
  rewrite aset_here. by rewrite <- app_assoc.
Qed.

Lemma putBytes_holds cap w bs xs :
  holds cap w bs -> len bs + len xs <= cap -> exists w', putBytes w xs = Ret w' /\ holds cap w' (bs ++ xs).
Proof.
  intros (Hb & Hp & _) Hle. pose proof (len_nonneg xs). unfold holds, putBytes. rewrite Hb, Hp, len_app, len_replicate by lia.
  rewrite (proj2 (Z.leb_le _ _)) by lia. eexists. split; [done|]. cbn [buf pos]. rewrite poke_zeros by lia. rewrite len_app.
  split_and!; [do 3 f_equal; lia|done|lia].
Qed.

Lemma put4_holds cap w bs x : holds cap w bs -> len bs + 4 <= cap -> holds cap (put4 w x) (bs ++ le_split 4 x).
Proof.
  intros H0 Hc. unfold put4. cbn [fold_left]. do 4 (eapply putByte_holds in H0; [|rewrite ?len_app; unfold len in *; cbn; lia]).
  cbn [le_split]. rewrite !Z.div_div by lia. revert H0. rewrite !Z.shiftr_div_pow2 by lia. change (2 ^ (8 * 0)) with 1. rewrite Z.div_1_r.
  rewrite <- !app_assoc. intros H0. exact H0.
Qed.

Lemma putLengthLoop_holds cap : forall fuel w bs n, 0 <= n < 2 ^ 32 ->
  holds cap w bs -> len bs + len (lebLoop fuel n) <= cap -> holds cap (putLengthLoop fuel w n) (bs ++ lebLoop fuel n).
Proof.
  induction fuel as [|fuel IH]; intros w bs n Hn Hh Hc; [by rewrite app_nil_r|]. rewrite lebLoop_S in *. cbn [putLengthLoop].
  rewrite (wrap_small 32) by (unfold is_u; lia). set (b := (n .& 0x7f) .| _) in *. rewrite len_cons in Hc. set (rest := if n .>> 7 =? 0 then [] else _) in *.
  pose proof (len_nonneg rest). pose proof (putByte_holds cap w bs b Hh ltac:(lia)) as H1. rewrite (wrap_small 8) in H1 by (apply lebByte_is_u; lia).
  subst rest. destruct (n .>> 7 =? 0); [done|]. replace (bs ++ b :: lebLoop fuel (n .>> 7)) with ((bs ++ [b]) ++ lebLoop fuel (n .>> 7)) by (by rewrite <- app_assoc).
  apply IH; [|done|rewrite len_app; change (len [b]) with 1; lia]. rewrite Z.shiftr_div_pow2 by lia.
  split; [apply Z.div_pos; lia|]. apply Z.div_lt_upper_bound; lia.
Qed.

(** The type and the length of a block. *)
Lemma putHead_holds cap w bs t n :
  0 <= n < 2 ^ 28 -> is_u 8 t -> holds cap w bs -> len bs + 1 + len (leb n) <= cap -> holds cap (putLength (putByte w t) n) (bs ++ t :: leb n).
Proof.
  intros Hn Ht Hh Hc. pose proof (len_nonneg (leb n)). pose proof (putByte_holds cap w bs t Hh ltac:(lia)) as H1.
  rewrite (wrap_small 8) in H1 by done. replace (bs ++ t :: leb n) with ((bs ++ [t]) ++ leb n) by (by rewrite <- app_assoc).
  apply putLengthLoop_holds; [lia|done|]. fold (leb n). rewrite len_app. change (len [t]) with 1. lia.
Qed.

(** ** The encoder *)

Lemma forM_seqZ {S} (P : Z -> S -> Prop) (body : S -> Z -> outcome S) n :
  forall a s, (forall i s, a <= i < a + Z.of_nat n -> P i s -> exists s', body s i = Ret s' /\ P (i + 1) s') ->
  P a s -> exists s', forM (seqZ a (Z.of_nat n)) body s = Ret s' /\ P (a + Z.of_nat n) s'.
Proof.
  induction n as [|n IH]; intros a s Hb Hs.
  - exists s. rewrite Z.add_0_r. done.
  - rewrite seqZ_cons by lia. cbn [forM]. destruct (Hb a s ltac:(lia) Hs) as (s1 & -> & H1). cbn [mbind outcome_bind].
    replace (Z.pred (Z.of_nat (Datatypes.S n))) with (Z.of_nat n) by lia.
    destruct (IH (Z.succ a) s1) as (s2 & Hr & H2); [intros; apply Hb; [lia|done]|by rewrite <- Z.add_1_r|].
    exists s2. split; [done|]. by replace (a + Z.of_nat (Datatypes.S n)) with (Z.succ a + Z.of_nat n) by lia.
Qed.

Lemma take_peek data a b : 0 <= a <= b -> take (Z.to_nat a) data ++ peek data a (b - a) = take (Z.to_nat b) data.
Proof. intros. unfold peek. rewrite take_take_drop. f_equal. lia. Qed.

Lemma len_peek data a b : 0 <= a <= b -> b <= len data -> len (peek data a (b - a)) = b - a.
Proof. intros. unfold len in *. rewrite length_peek; [lia|lia|]. apply in_object_spec. lia. Qed.

Lemma peek_same data a b v :
  0 <= a <= b -> b <= len data -> (forall j, a <= j < b -> data.[j] = v) -> peek data a (b - a) = replicate (Z.to_nat (b - a)) v.
Proof.
  intros Ha Hb Hv. apply list_eq_same_length with (n := Z.to_nat (b - a)).
  - by rewrite length_replicate.
  - pose proof (len_peek data a b Ha Hb). unfold len in *. lia.
  - intros i x y Hi Hx Hy. apply lookup_replicate in Hy as [-> _]. unfold peek in Hx. rewrite lookup_take_lt, lookup_drop in Hx by lia.
    rewrite <- (Hv (a + Z.of_nat i)) by lia. unfold aget. symmetry. apply list_lookup_total_correct.
    replace (Z.to_nat (a + Z.of_nat i)) with (Z.to_nat a + i)%nat by lia. done.
Qed.

Lemma Forall_peek P data a k : Forall P data -> Forall P (peek data a k).
Proof. intros. unfold peek. by apply Forall_take, Forall_drop. Qed.

Lemma encodeAll_app bs bs' : encodeAll (bs ++ bs') = encodeAll bs ++ encodeAll bs'.
Proof. apply bind_app. Qed.

Lemma expandAll_app bs bs' : expandAll (bs ++ bs') = expandAll bs ++ expandAll bs'.
Proof. apply bind_app. Qed.

Section Encoder.
Context (data : list Z) (Hdata : Forall byte_ok data) (Hlen : len data < 2 ^ 28).

Definition valueAt (i : Z) : Z := if i <? len data then data.[i] else 0xffff.

(** The blocks written expand to the data before the cursor, and take no more
    room than it. *)
Definition scanned (c : Compressor) (bs : list Block) : Prop :=
  holds (len data + MAX_OVERHEAD) c.(out) (le_split 4 (len data) ++ encodeAll bs) /\
  Forall block_ok bs /\ expandAll bs = take (Z.to_nat c.(cursor)) data /\ len (encodeAll bs) <= c.(cursor) <= len data.

Definition scanState (i : Z) (c : Compressor) : Prop :=
  match c.(state) with
  | First => i = 0 /\ c.(cursor) = 0
  | ScanCopy => 1 <= i /\ c.(cursor) <= i - 1 /\ c.(lastValue) = valueAt (i - 1)
  | ScanRepeat => c.(cursor) <= c.(repeatFirst) /\ c.(repeatFirst) + 2 <= i <= len data /\
                  forall j, c.(repeatFirst) <= j < i -> data.[j] = c.(lastValue)
  end.

Lemma head_length : len (le_split 4 (len data)) = 4.
Proof. unfold len at 1. by rewrite length_le_split. Qed.

(** The literal bytes up to [end_], and what they cost. *)
Lemma putCopy_ok c bs end_ :
  scanned c bs -> c.(cursor) <= end_ <= len data -> exists w bs',
    putCopy data c end_ = Ret { c with out := w } /\ holds (len data + MAX_OVERHEAD) w (le_split 4 (len data) ++ encodeAll bs') /\
    Forall block_ok bs' /\ expandAll bs' = take (Z.to_nat end_) data /\ len (encodeAll bs') <= end_ + 5.
Proof.
  intros (Hw & Hok & He & Hc) Hend. pose proof (len_nonneg (encodeAll bs)). unfold putCopy, MAX_OVERHEAD in *. destruct (Z.eqb_spec c.(cursor) end_) as [<-|Hne].
  { exists c.(out), bs. split_and!; [by destruct c|done..|lia]. }
  pose proof (len_peek data c.(cursor) end_ ltac:(lia) ltac:(lia)) as Hp. set (xs := peek data _ _) in *.
  pose proof head_length as Hh. destruct (leb_length (end_ - c.(cursor)) ltac:(lia)) as [Hl _].
  pose proof (putHead_holds _ _ _ BLOCK_TYPE_COPY (end_ - c.(cursor)) ltac:(lia) ltac:(is_u_lit) Hw) as H1.
  destruct (putBytes_holds _ _ _ xs (H1 ltac:(rewrite len_app; lia))) as (w & -> & H2).
  { rewrite !len_app, len_cons. lia. }
  exists w, (bs ++ [Copy xs]). cbn [mbind outcome_bind]. rewrite encodeAll_app, expandAll_app. unfold encodeAll at 2 4, expandAll at 2. cbn [mbind list_bind expand encode].
  rewrite !app_nil_r, Hp, He. split_and!; [done| | |by apply take_peek; lia|].
  - rewrite <- app_assoc in H2. rewrite <- app_comm_cons in H2. done.
  - apply Forall_app. split; [done|]. forall_list. split_and!; cbn [expand]; [by apply Forall_peek|lia|lia|done].
  - rewrite len_app, len_cons, len_app. lia.
Qed.

(** A repetition worth a block of its own. *)
Lemma repeat_block_ok c bs i :
  scanned c bs -> c.(cursor) <= c.(repeatFirst) -> c.(repeatFirst) + REPEAT_THRESHOLD <= i <= len data ->
  (forall j, c.(repeatFirst) <= j < i -> data.[j] = c.(lastValue)) -> exists c' bs',
    (c ← putCopy data c c.(repeatFirst);
     Ret { putRepeat { c with cursor := c.(repeatFirst) } c.(lastValue) (i - c.(repeatFirst)) with cursor := i }) = Ret c' /\
    scanned c' bs' /\ c'.(cursor) = i.
Proof.
  unfold REPEAT_THRESHOLD. intros Hs Hf Hi Hv. pose proof Hs as (_ & _ & _ & Hc). pose proof (len_nonneg (encodeAll bs)).
  destruct (putCopy_ok c bs c.(repeatFirst) Hs ltac:(lia)) as (w & bs1 & -> & Hw & Hok & He & Hl). cbn [mbind outcome_bind].
  pose proof head_length as Hh. set (n := i - c.(repeatFirst)) in *. destruct (leb_length n ltac:(lia)) as [Hl1 Hl2].
  assert (Hn : len (leb n) + 7 <= n) by (destruct (Z.lt_ge_cases n 128); lia). clear Hl1 Hl2.
  assert (Hb : byte_ok c.(lastValue)). { rewrite <- (Hv c.(repeatFirst)) by lia. apply Forall_aget; [done|unfold len in *; lia]. }
  pose proof (putHead_holds _ _ _ BLOCK_TYPE_REPEAT n ltac:(lia) ltac:(is_u_lit) Hw) as H1.
  unfold MAX_OVERHEAD in *. specialize (H1 ltac:(rewrite len_app; lia)).
  pose proof (putByte_holds _ _ _ c.(lastValue) H1) as H2. rewrite (wrap_small 8) in H2 by done.
  specialize (H2 ltac:(rewrite !len_app, len_cons; lia)).
  exists (mkCompressor (putByte (putLength (putByte w BLOCK_TYPE_REPEAT) n) c.(lastValue)) i c.(state) c.(repeatFirst) c.(lastValue)), (bs1 ++ [Repeat n c.(lastValue)]).
  split; [by destruct c|]. split; [|done]. unfold scanned, MAX_OVERHEAD. cbn [out cursor].
  rewrite encodeAll_app, expandAll_app. unfold encodeAll at 2 4, expandAll at 2. cbn [mbind list_bind expand encode].
  rewrite !app_nil_r, He. assert (Hr : replicate (Z.to_nat n) c.(lastValue) = peek data c.(repeatFirst) n) by (unfold n; apply symmetry, peek_same; [lia..|done]).
  split_and!; [| |by rewrite Hr; apply take_peek; lia| |lia].
  - rewrite <- !app_assoc in H2. cbn [app] in H2 |- *. exact H2.
  - apply Forall_app. split; [done|]. forall_list. unfold block_ok. cbn [expand]. rewrite len_replicate by lia.
    split_and!; [by apply Forall_replicate|lia..].
  - rewrite len_app, len_cons, len_app. change (len [c.(lastValue)]) with 1. lia.
Qed.

Lemma valueAt_lt i : i < len data -> valueAt i = data.[i].
Proof. intros. unfold valueAt. by rewrite (proj2 (Z.ltb_lt _ _)). Qed.

(** The sentinel behind the data ends every repetition. *)
Lemma sentinel i : 0 <= i < len data -> valueAt (len data) <> data.[i].
Proof.
  intros. unfold valueAt. rewrite Z.ltb_irrefl. assert (byte_ok data.[i]) as Hb by (apply Forall_aget; [done|unfold len in *; lia]).
  unfold byte_ok, is_u in Hb. lia.
Qed.

Lemma scan_ok i c bs :
  0 <= i <= len data -> scanned c bs -> scanState i c ->
  exists c' bs', scan data c i = Ret c' /\ scanned c' bs' /\ scanState (i + 1) c'.
Proof.
  intros Hi Hs Hst. unfold scan. fold (valueAt i). pose proof Hs as (_ & _ & _ & Hc). pose proof (len_nonneg (encodeAll bs)).
  unfold scanState in Hst. destruct c.(state) eqn:Est.
  - eexists _, bs. split; [done|]. split; [exact Hs|]. destruct Hst as [-> Hcur]. destruct c. cbn in *. split_and!; [lia..|done].
  - destruct Hst as (H1 & Hcur & Hv). destruct (Z.eqb_spec (valueAt i) c.(lastValue)) as [E|Hne].
    + eexists _, bs. split; [done|]. split; [exact Hs|]. assert (Hlt : i < len data).
      { destruct (Z.eq_dec i (len data)) as [->|]; [|lia]. rewrite Hv, (valueAt_lt (len data - 1)) in E by lia. by destruct (sentinel (len data - 1) ltac:(lia)). }
      rewrite valueAt_lt in E, Hv by lia. destruct c. cbn in *. split_and!; [lia..|]. intros j Hj.
      assert (j = i - 1 \/ j = i) as [-> | ->] by lia; done.
    + eexists _, bs. split; [done|]. split; [exact Hs|]. destruct c. cbn in *. unfold scanState. cbn. rewrite Est. split_and!; [lia..|]. by replace (i + 1 - 1) with i by lia.
  - destruct Hst as (Hf & Hr & Hv). destruct (Z.eqb_spec (valueAt i) c.(lastValue)) as [E|Hne].
    + exists c, bs. split; [done|]. split; [exact Hs|]. unfold scanState. rewrite Est. assert (Hlt : i < len data).
      { destruct (Z.eq_dec i (len data)) as [->|]; [|lia]. rewrite <- (Hv c.(repeatFirst)) in E by lia. by destruct (sentinel c.(repeatFirst) ltac:(lia)). }
      rewrite valueAt_lt in E by done. split_and!; [lia..|]. intros j Hj. destruct (Z.eq_dec j i) as [->|]; [done|apply Hv; lia].
    + assert (HH : exists c' bs', (if REPEAT_THRESHOLD <=? i - c.(repeatFirst) then
             c ← putCopy data c c.(repeatFirst);
             Ret { putRepeat { c with cursor := c.(repeatFirst) } c.(lastValue) (i - c.(repeatFirst)) with cursor := i }
           else Ret c) = Ret c' /\ scanned c' bs' /\ c'.(cursor) <= i).
      { destruct (Z.leb_spec REPEAT_THRESHOLD (i - c.(repeatFirst))).
        - destruct (repeat_block_ok c bs i Hs Hf ltac:(lia) Hv) as (c' & bs' & -> & Hs' & E). exists c', bs'. split_and!; [done..|lia].
        - exists c, bs. split_and!; [done..|lia]. }
      destruct HH as (c' & bs' & -> & Hs' & Hle). cbn [mbind outcome_bind]. eexists _, bs'. split; [done|]. split; [exact Hs'|].
      destruct c'. cbn in *. split_and!; [lia..|]. by replace (i + 1 - 1) with i by lia.
Qed.

Lemma start_ok : scanned (startCompress data) [] /\ scanState 0 (startCompress data).
Proof.
  split; [|done]. pose proof (len_nonneg data). unfold scanned, startCompress. cbn [out cursor]. change (len (encodeAll [])) with 0. split_and!; [|constructor|done|lia|lia].
  set (n := len data) in *. assert (H0 : holds (n + MAX_OVERHEAD) (mkWriter (replicate (Z.to_nat (n + MAX_OVERHEAD)) 0) 0) []).
  { unfold holds, MAX_OVERHEAD in *. cbn [buf pos]. change (len []) with 0. rewrite Z.sub_0_r. split_and!; [done|done|lia]. }
  rewrite app_nil_r, (wrap_small 32 n) by (unfold is_u; lia). unfold MAX_OVERHEAD in *. apply (put4_holds _ _ [] n); [done|]. change (len []) with 0. lia.
Qed.

Lemma crc_turn i :
  0 <= i ->
  (if i <? len data then crc32_add (fold_left crc32_add (take (Z.to_nat i) data) crc32_start) data.[i]
   else fold_left crc32_add (take (Z.to_nat i) data) crc32_start) = fold_left crc32_add (take (Z.to_nat (i + 1)) data) crc32_start.
Proof.
  intros Hi. unfold len. destruct (Z.ltb_spec i (Z.of_nat (length data))).
  - replace (Z.to_nat (i + 1)) with (S (Z.to_nat i)) by lia. rewrite (take_S_r _ _ data.[i]).
    + by rewrite fold_left_app.
    + apply list_lookup_lookup_total_lt. lia.
  - by rewrite !take_ge by lia.
Qed.

(** The array at the end: a size, the blocks and what is left of the room. *)
Lemma compressAll_blocks : exists c bs,
  compressAll data = Ret (c, fold_left crc32_add data crc32_start) /\
  holds (len data + MAX_OVERHEAD) c.(out) (le_split 4 (len data) ++ encodeAll bs) /\ Forall block_ok bs /\ expandAll bs = data.
Proof.
  destruct start_ok as [Hs0 Ht0]. pose proof (len_nonneg data).
  destruct (forM_seqZ (fun i s => (exists bs, scanned s.1 bs /\ scanState i s.1) /\ s.2 = fold_left crc32_add (take (Z.to_nat i) data) crc32_start)
    (turn data) (Z.to_nat (len data + 1)) 0 (startCompress data, crc32_start)) as ([c crc] & Hr & (bs & Hs & Ht) & Hcrc).
  { intros i [c crc] Hi ((bs & Hs & Ht) & E). cbn [fst snd] in *. destruct (scan_ok i c bs ltac:(lia) Hs Ht) as (c' & bs' & Hsc & ? & ?).
    unfold turn. rewrite Hsc. cbn [mbind outcome_bind]. eexists. split; [done|]. cbn [fst snd]. split; [eauto|]. rewrite E. apply crc_turn. lia. }
  { split; [|done]. eauto. }
  cbn [fst snd] in *. rewrite Z2Nat.id in * by lia. rewrite Z.add_0_l in *. unfold compressAll. rewrite Hr. cbn [mbind outcome_bind].
  rewrite take_ge in Hcrc by (unfold len in *; lia). subst crc.
  assert (Hst : c.(state) = ScanCopy) by (unfold scanState in Ht; destruct c.(state); [lia|done|lia]). rewrite Hst.
  pose proof Hs as (Hw & Hok & He & Hc). pose proof (len_nonneg (encodeAll bs)).
  assert (HH : exists w bs', (if c.(cursor) <? len data then putCopy data c (len data) else Ret c) = Ret { c with out := w } /\
      holds (len data + MAX_OVERHEAD) w (le_split 4 (len data) ++ encodeAll bs') /\
      Forall block_ok bs' /\ expandAll bs' = take (Z.to_nat (len data)) data /\ len (encodeAll bs') <= len data + 5).
  { destruct (Z.ltb_spec c.(cursor) (len data)); [by apply (putCopy_ok c bs (len data)); [done|lia]|].
    exists c.(out), bs. replace (len data) with c.(cursor) at 3 4 by lia. split_and!; [by destruct c|done..|lia]. }
  destruct HH as (w & bs' & -> & Hw' & Hok' & He' & Hl'). cbn [mbind outcome_bind]. eexists _, bs'. split; [done|].
  split_and!; [by destruct c|done|]. rewrite He'. apply take_ge. unfold len. lia.
Qed.

Lemma compress_holds c crc bs :
  compressAll data = Ret (c, crc) -> holds (len data + MAX_OVERHEAD) c.(out) bs -> compress data = Ret (bs, crc32_finish crc).
Proof.
  intros E (Hb & Hp & _). unfold compress. rewrite E. cbn [mbind outcome_bind]. rewrite Hb, Hp. unfold len at 1.
  by rewrite Nat2Z.id, take_app_length.
Qed.

(** What a compressed stream holds. *)
Lemma compress_blocks : exists bs,
  compress data = Ret (le_split 4 (len data) ++ encodeAll bs, crc32_finish (fold_left crc32_add data crc32_start)) /\ Forall block_ok bs /\ expandAll bs = data /\ len (encodeAll bs) <= len data + 5.
Proof.
  destruct compressAll_blocks as (c & bs & E & Hw & Hok & He). exists bs. split; [by apply (compress_holds c)|].
  destruct Hw as (_ & _ & Hc). rewrite len_app, head_length in Hc. unfold MAX_OVERHEAD in Hc. split_and!; [done..|lia].
Qed.
End Encoder.

(** ** Every stream is decoded in finitely many turns *)

Section Terminates.
Context (sizeW : Z) (HsizeW : 0 < sizeW).

Lemma decodeLength_returns source : forall fuel cc blockLen shift,
  28 < shift + 7 * (Z.of_nat fuel - 1) -> (0 < fuel)%nat -> 0 <= blockLen ->
  match decodeLength sizeW fuel source cc blockLen shift with
  | Ret (Some (n, cc')) => 0 <= n /\ cc < cc'
  | Hang => False
  | _ => True
  end.
Proof.
  induction fuel as [|fuel IH]; intros cc blockLen shift Hf Hpos Hb; [lia|]. cbn [decodeLength].
  destruct (_ <=? cc); [done|]. destruct (Z.ltb_spec 28 shift); [done|]. set (part := (_ .& _) .<< _). destruct (2 ^ 32 <=? part); [done|].
  assert (Hb' : 0 <= blockLen .| usize sizeW (sgn 32 part)).
  { apply Z.lor_nonneg. split; [done|]. apply Z.mod_pos_bound, Z.pow_pos_nonneg; lia. }
  destruct (tst _ _); [|split; [done|lia]]. destruct fuel as [|fuel]; [lia|].
  specialize (IH (cc + 1) (blockLen .| usize sizeW (sgn 32 part)) (shift + 7) ltac:(lia) ltac:(lia) Hb').
  destruct (decodeLength _ _ _ _ _ _) as [[[n cc']|]| | |]; [lia|done..].
Qed.

Lemma decodeBlocks_returns source size : forall fuel cursor cc decompressed,
  len source - cc < Z.of_nat fuel -> (0 < fuel)%nat -> decodeBlocks sizeW fuel source size cursor cc decompressed <> Hang.
Proof.
  induction fuel as [|fuel IH]; intros cursor cc decompressed Hf Hpos; [lia|]. cbn [decodeBlocks].
  destruct (cursor <? size); [|done]. destruct (Z.leb_spec (len source) cc); [done|].
  pose proof (decodeLength_returns source 6 (cc + 1) 0 0 ltac:(lia) ltac:(lia) ltac:(lia)) as HL.
  destruct (decodeLength _ _ _ _ _ _) as [[[n cc']|]| | |]; cbn [mbind outcome_bind]; try done.
  destruct HL as [Hn Hcc]. destruct fuel as [|fuel]; [lia|].
  assert (Hnext : forall cur k d, 0 <= k -> decodeBlocks sizeW (S fuel) source size cur (cc' + k) d <> Hang) by (intros; apply IH; lia).
  destruct (size <? _); [done|]. destruct (_ =? BLOCK_TYPE_COPY).
  - destruct (_ <? _); [done|]. destruct (_ && _); [by apply Hnext|done].
  - destruct (_ =? BLOCK_TYPE_REPEAT).
    + destruct (_ <=? cc'); [done|]. destruct (in_object _ _ _); [by apply Hnext|done].
    + specialize (Hnext (usize sizeW (cursor + n)) 0 decompressed). rewrite Z.add_0_r in Hnext. by apply Hnext.
Qed.

(** The buffer keeps its size. *)
Lemma decodeBlocks_size source size : forall fuel cursor cc decompressed result,
  decodeBlocks sizeW fuel source size cursor cc decompressed = Ret (Some result) -> len result = len decompressed.
Proof.
  induction fuel as [|fuel IH]; intros cursor cc decompressed result; [done|]. cbn [decodeBlocks].
  destruct (cursor <? size); [|by intros [= ->]]. destruct (_ <=? cc); [done|].
  destruct (decodeLength _ _ _ _ _ _) as [[[n cc']|]| | |]; cbn [mbind outcome_bind]; try done.
  assert (Hpoke : forall bs cur cc d, decodeBlocks sizeW fuel source size cur cc (poke d cursor bs) = Ret (Some result) -> len result = len d).
  { intros bs cur cc0 d E. apply IH in E. unfold len in *. by rewrite length_poke in E. }
  destruct (size <? _); [done|]. destruct (_ =? BLOCK_TYPE_COPY).
  - destruct (_ <? _); [done|]. destruct (_ && _); [apply Hpoke|done].
  - destruct (_ =? BLOCK_TYPE_REPEAT); [|apply IH]. destruct (_ <=? cc'); [done|]. destruct (in_object _ _ _); [apply Hpoke|done].
Qed.
End Terminates.

(** ** Properties *)

(** C36. The decoder ends on every input, whatever the input, and an image that it
    accepts has the size that the first four bytes announce, at most 128 MiB. *)
Theorem rle_decode_ends sizeW source :
  0 < sizeW ->
  rle_decode sizeW source <> Hang /\
  forall image, rle_decode sizeW source = Ret (Some image) ->
    len image = usize sizeW (sgn 32 (le_combine (take 4 source))) /\ len image <= MAX_BLOCK_SIZE.
Proof.
  intros Hw. unfold rle_decode. destruct (_ <? 4); [done|]. set (size := usize _ _). destruct (Z.ltb_spec MAX_BLOCK_SIZE size); [done|].
  split; [apply decodeBlocks_returns; [done|unfold len; lia|lia]|]. intros image E%decodeBlocks_size.
  assert (0 <= size) by (apply Z.mod_pos_bound, Z.pow_pos_nonneg; lia). rewrite len_replicate in E by done. lia.
Qed.

Example rle_decode_ends_witness :
  rle_decode 64 [2; 0; 0; 0; 1; 2; 7] <> Hang /\
  forall image, rle_decode 64 [2; 0; 0; 0; 1; 2; 7] = Ret (Some image) -> len image = 2 /\ len image <= MAX_BLOCK_SIZE.
Proof. apply (rle_decode_ends 64 [2; 0; 0; 0; 1; 2; 7]). lia. Defined.

(** C27. The array that [compress] allocates, nine bytes more than the data, is
    large enough: for data of less than 2^28 bytes no write is lost. The position
    of the next write moves on with every byte, also with one that does not fit;
    it ends within the array, and the stream that is returned is everything that
    was written: the size and the blocks in full, which expand to the data. *)
Theorem compress_fits data :
  Forall byte_ok data -> len data < 2 ^ 28 ->
  exists c crc bs, compressAll data = Ret (c, crc) /\
    len c.(out).(buf) = len data + MAX_OVERHEAD /\ c.(out).(pos) <= len c.(out).(buf) /\
    compress data = Ret (le_split 4 (len data) ++ encodeAll bs, crc32_finish crc) /\
    c.(out).(pos) = 4 + len (encodeAll bs) /\ expandAll bs = data.
Proof.
  intros Hd Hl. destruct (compressAll_blocks data Hd Hl) as (c & bs & E & Hw & _ & He). exists c, (fold_left crc32_add data crc32_start), bs.
  pose proof (compress_holds data c _ _ E Hw) as Ec. destruct Hw as (Hb & Hp & Hc).
  assert (Hbuf : len c.(out).(buf) = len data + MAX_OVERHEAD) by (rewrite Hb, len_app, len_replicate by lia; lia).
  split_and!; [exact E|exact Hbuf|by rewrite Hbuf, Hp|exact Ec|by rewrite Hp, len_app, head_length|exact He].
Qed.

(** Two literals, eight repeated bytes and a literal: the blocks take ten bytes
    for the data's eleven, behind four bytes of size. *)
Example compress_fits_witness :
  (exists c crc bs, compressAll [1; 2; 3; 3; 3; 3; 3; 3; 3; 3; 4] = Ret (c, crc) /\
    len c.(out).(buf) = 20 /\ c.(out).(pos) <= len c.(out).(buf) /\
    compress [1; 2; 3; 3; 3; 3; 3; 3; 3; 3; 4] = Ret ([11; 0; 0; 0] ++ encodeAll bs, crc32_finish crc) /\
    c.(out).(pos) = 4 + len (encodeAll bs) /\ expandAll bs = [1; 2; 3; 3; 3; 3; 3; 3; 3; 3; 4]) /\
  encodeAll [Copy [1; 2]; Repeat 8 3; Copy [4]] = [0; 2; 1; 2; 1; 8; 3; 0; 1; 4] /\
  compress [1; 2; 3; 3; 3; 3; 3; 3; 3; 3; 4] ≫= (fun r => Ret r.1) = Ret ([11; 0; 0; 0] ++ encodeAll [Copy [1; 2]; Repeat 8 3; Copy [4]]).
Proof.
  split; [|split; by vm_compute].
  apply (compress_fits [1; 2; 3; 3; 3; 3; 3; 3; 3; 3; 4]); [forall_list; is_u_lit|vm_compute; reflexivity].
Defined.

(** A length with the top bits set is negative as an [int], and as a [size_t] it
    wraps around the bounds check. *)
Definition craftedStream : list Z := [32; 0; 0; 0; 1; 16; 0xaa; 1; 0xf8; 0xff; 0xff; 0xff; 0x0f; 0xbb].

Lemma crafted_stream_overruns : rle_decode 64 craftedStream = Undef /\ rle_decode 32 craftedStream = Undef.
Proof. split; vm_compute; reflexivity. Qed.

(** An unknown block is skipped. *)
Lemma unknown_block_is_skipped : rle_decode 64 [4; 0; 0; 0; 7; 4] = Ret (Some [0; 0; 0; 0]).
Proof. vm_compute. reflexivity. Qed.
