(* ===== verification/SessionFile.v ===== *)
(** * Session files (session_file.cpp, assets/session.js)

    The web application saves the images of a device in one file
    ([compressSession]); the emulator on the desktop loads it
    ([sessionFile_read]). Buffers are lists of bytes; a [size_t] has 64 bits. *)

From S2P Require Import Prelude Bytes Crc Rle.

Definition MAGIC := 0x19800819.
Definition VERSION := 0.
Definition HEADER_SIZE := 36.

(** ** The reader *)

(** A read past the end leaves the cursor and sets the error. *)
Definition read32 (buffer : list Z) (cursor : Z) (err : bool) : Z * Z * bool :=
  if len buffer <? usize 64 (cursor + 4) then (0, cursor, true)
  else (u32 (le_combine (peek buffer cursor 4)), cursor + 4, err).

(** The images, empty before they are read. *)
Record Session := mkSession { nor : list Z; nand : list Z; ram : list Z; savestate : list Z }.

(** A part of the file, for a decoder that gets its address and its size. *)
Definition partOf (data : list Z) (cursor size : Z) : outcome (list Z) :=
  if in_object data cursor size then Ret (peek data cursor size) else Undef.

(** One image: decompressed, and with the right checksum. *)
Definition readImage (data : list Z) (cursor size crc : Z) : outcome (option (list Z)) :=
  source ← partOf data cursor size;
  image ← rle_decode 64 source;
  match image with
  | None => Ret None
  | Some image => Ret (if CRC32 image =? crc then Some image else None)
  end.

Definition sessionFile_read_v0 (sessionData : list Z) : outcome (option (list Z * list Z * list Z)) :=
  let cursor := 8 in
  let err := false in
  let '(sizeMetadata, cursor, err) := read32 sessionData cursor err in
  let '(sizeNorCompressed, cursor, err) := read32 sessionData cursor err in
  let '(crcNor, cursor, err) := read32 sessionData cursor err in
  let '(sizeRamCompressed, cursor, err) := read32 sessionData cursor err in
  let '(crcRam, cursor, err) := read32 sessionData cursor err in
  let '(sizeNandCompressed, cursor, err) := read32 sessionData cursor err in
  let '(crcNand, cursor, err) := read32 sessionData cursor err in
  if err then Ret None else
  if negb (len sessionData =? usize 64 (cursor + sizeMetadata + sizeNorCompressed + sizeRamCompressed + sizeNandCompressed)) then Ret None else
  let cursor := cursor + sizeMetadata in
  dataNor ← readImage sessionData cursor sizeNorCompressed crcNor;
  match dataNor with None => Ret None | Some dataNor =>
  let cursor := cursor + sizeNorCompressed in
  dataRam ← readImage sessionData cursor sizeRamCompressed crcRam;
  match dataRam with None => Ret None | Some dataRam =>
  let cursor := cursor + sizeRamCompressed in
  dataNand ← readImage sessionData cursor sizeNandCompressed crcNand;
  match dataNand with None => Ret None | Some dataNand =>
  Ret (Some (dataNor, dataRam, dataNand))
  end end end.

Definition sessionFile_read (sessionData : list Z) : outcome (option Session) :=
  let '(magic, cursor, err) := read32 sessionData 0 false in
  let '(version, cursor, err) := read32 sessionData cursor err in
  if err then Ret None
  else if negb (magic =? MAGIC) then Ret None
  else if version =? 0 then
    r ← sessionFile_read_v0 sessionData;
    match r with
    | None => Ret None
    | Some (dataNor, dataRam, dataNand) => Ret (Some (mkSession dataNor dataNand dataRam []))
    end
  else Ret None.

Definition isSessionFile (sessionData : list Z) : bool :=
  let '(magic, cursor, err) := read32 sessionData 0 false in
  let '(version, cursor, err) := read32 sessionData cursor err in
  negb err && (magic =? MAGIC) && (version =? 0).

(** ** The writer *)

Definition put32 (w : Writer) (x : Z) : Writer := put4 w (sgn 32 x).

(** [serializedMetadata] is the text of the metadata as bytes. *)
Definition compressSession (nor ram nand serializedMetadata : list Z) : outcome (list Z) :=
  '(norData, norCrc) ← compress nor;
  '(ramData, ramCrc) ← compress ram;
  '(nandData, nandCrc) ← compress nand;
  let w := mkWriter (replicate (Z.to_nat (HEADER_SIZE + len serializedMetadata + len norData + len ramData + len nandData)) 0) 0 in
  let w := put32 w MAGIC in
  let w := put32 w VERSION in
  let w := put32 w (len serializedMetadata) in
  let w := put32 w (len norData) in
  let w := put32 w norCrc in
  let w := put32 w (len ramData) in
  let w := put32 w ramCrc in
  let w := put32 w (len nandData) in
  let w := put32 w nandCrc in
  w ← putBytes w serializedMetadata;
  w ← putBytes w norData;
  w ← putBytes w ramData;
  w ← putBytes w nandData;
  Ret w.(buf).

(** ** Headers *)

Definition words (ws : list Z) : list Z := ws ≫= le_split 4.

Lemma len_words ws : len (words ws) = 4 * Z.of_nat (length ws).
Proof.
  unfold words. induction ws as [|w ws IH]; [done|]. cbn [mbind list_bind]. rewrite len_app. unfold len at 1. rewrite length_le_split.
  change (list_bind _ _ (le_split 4) ws) with (ws ≫= le_split 4). rewrite IH. cbn [length]. lia.
Qed.

(** Only the low 32 bits of a number are written. *)
Lemma le_split_low x : le_split 4 x = le_split 4 (u32 x).
Proof.
  rewrite <- (le_split_combine (le_split 4 x)) by apply le_split_bytes. rewrite length_le_split, le_combine_split. done.
Qed.

Lemma put32_word cap w bs x : holds cap w bs -> len bs + 4 <= cap -> holds cap (put32 w x) (bs ++ words [u32 x]).
Proof.
  intros H Hc. unfold put32, words. cbn [mbind list_bind]. rewrite app_nil_r. rewrite <- (wrap_sgn 32 x), <- le_split_low by lia. by apply put4_holds.
Qed.

Lemma words_app ws ws' : words (ws ++ ws') = words ws ++ words ws'.
Proof. apply bind_app. Qed.

(** The words read back one after the other. *)
Lemma read32_word ws post k c err x :
  c = 4 * Z.of_nat k -> ws !! k = Some x -> is_u 32 x -> len (words ws ++ post) < 2 ^ 32 ->
  read32 (words ws ++ post) c err = (x, c + 4, err).
Proof.
  intros -> Hk Hx Hl. apply list_elem_of_split_length in Hk as (pre & rest & -> & ->). rewrite words_app in *.
  change (words (x :: rest)) with (le_split 4 x ++ words rest) in *. rewrite <- (len_words pre).
  assert (E : (words pre ++ le_split 4 x ++ words rest) ++ post = words pre ++ le_split 4 x ++ (words rest ++ post)) by (by rewrite <- !app_assoc).
  rewrite E in *. rewrite !len_app in Hl. pose proof (len_nonneg (words pre)). pose proof (len_nonneg (words rest)). pose proof (len_nonneg post).
  assert (Hx4 : len (le_split 4 x) = 4) by (unfold len; by rewrite length_le_split). unfold read32.
  rewrite !len_app, (usize_small 64), (proj2 (Z.ltb_ge _ _)) by lia. do 2 f_equal. rewrite <- Hx4, peek_mid.
  rewrite (le_roundtrip 4) by done. by apply wrap_small.
Qed.

(** ** Images *)

(** [stream] holds [image]. *)
Definition streamOf (image stream : list Z) : Prop :=
  rle_decode 64 stream = Ret (Some image) /\ 4 <= len stream <= len image + MAX_OVERHEAD.

Lemma compress_stream image :
  Forall byte_ok image -> len image <= MAX_BLOCK_SIZE ->
  exists stream crc, compress image = Ret (stream, crc) /\ streamOf image stream /\ u32 crc = CRC32 image.
Proof.
  unfold MAX_BLOCK_SIZE. intros Hb Hl. destruct (compress_blocks image Hb ltac:(lia)) as (bs & -> & Hok & He & Hc).
  pose proof (len_nonneg (encodeAll bs)). do 2 eexists. split; [done|]. split; [|by apply crc32_js]. split.
  - rewrite <- He. apply rle_decode_blocks; [lia|done|rewrite He; unfold MAX_BLOCK_SIZE; lia|lia].
  - rewrite len_app, head_length. unfold MAX_OVERHEAD. lia.
Qed.

Lemma readImage_ok image stream pre post :
  streamOf image stream -> readImage (pre ++ stream ++ post) (len pre) (len stream) (CRC32 image) = Ret (Some image).
Proof.
  intros (Hd & _). unfold readImage, partOf. rewrite in_mid, peek_mid. cbn [mbind outcome_bind]. rewrite Hd. cbn [mbind outcome_bind].
  by rewrite Z.eqb_refl.
Qed.

(** What [compressSession] writes. *)
Definition sessionHeader (metadata norData ramData nandData : list Z) (crcNor crcRam crcNand : Z) : list Z :=
  [MAGIC; VERSION; len metadata; len norData; crcNor; len ramData; crcRam; len nandData; crcNand].

Lemma CRC32_is_u data : is_u 32 (CRC32 data).
Proof. apply wrap_is_u. lia. Qed.

Lemma put32_words cap ws : forall w bs,
  holds cap w bs -> len bs + 4 * Z.of_nat (length ws) <= cap -> holds cap (fold_left put32 ws w) (bs ++ words (map (wrap 32) ws)).
Proof.
  induction ws as [|x ws IH]; intros w bs H Hc; cbn [fold_left map length] in *.
  - by rewrite app_nil_r.
  - change (u32 x :: map (wrap 32) ws) with ([u32 x] ++ map (wrap 32) ws). rewrite words_app, app_assoc. apply IH.
    + apply put32_word; [done|lia].
    + rewrite len_app, len_words. cbn [length]. lia.
Qed.

(** The four blocks behind the header fill the image. *)
Lemma put_blocks w h metadata norData ramData nandData :
  holds (len h + len metadata + len norData + len ramData + len nandData) w h ->
  (w ← putBytes w metadata; w ← putBytes w norData; w ← putBytes w ramData; w ← putBytes w nandData; Ret w.(buf)) =
  Ret (h ++ metadata ++ norData ++ ramData ++ nandData).
Proof.
  intros K0. pose proof (len_nonneg metadata). pose proof (len_nonneg norData). pose proof (len_nonneg ramData). pose proof (len_nonneg nandData).
  destruct (putBytes_holds _ _ _ metadata K0) as (w1 & -> & K1); [lia|]. cbn [mbind outcome_bind].
  destruct (putBytes_holds _ _ _ norData K1) as (w2 & -> & K2); [rewrite !len_app; lia|]. cbn [mbind outcome_bind].
  destruct (putBytes_holds _ _ _ ramData K2) as (w3 & -> & K3); [rewrite !len_app; lia|]. cbn [mbind outcome_bind].
  destruct (putBytes_holds _ _ _ nandData K3) as (w4 & -> & K4); [rewrite !len_app; lia|]. cbn [mbind outcome_bind].
  destruct K4 as (-> & _ & _). rewrite !len_app. replace (_ - _) with 0 by lia. by rewrite app_nil_r, <- !app_assoc.
Qed.

Lemma new_holds cap : 0 <= cap -> holds cap (mkWriter (replicate (Z.to_nat cap) 0) 0) [].
Proof. intros. unfold holds. cbn [buf pos]. change (len []) with 0. rewrite Z.sub_0_r. done. Qed.

Lemma fold_left_9 {A B} (f : A -> B -> A) a b c d e g h i j w :
  fold_left f [a; b; c; d; e; g; h; i; j] w = f (f (f (f (f (f (f (f (f w a) b) c) d) e) g) h) i) j.
Proof. done. Qed.

(** The nine words of the header. *)
Lemma put_header cap metadata norData ramData nandData norCrc ramCrc nandCrc :
  36 <= cap -> len metadata < 2 ^ 32 -> len norData < 2 ^ 32 -> len ramData < 2 ^ 32 -> len nandData < 2 ^ 32 ->
  holds cap (fold_left put32 [MAGIC; VERSION; len metadata; len norData; norCrc; len ramData; ramCrc; len nandData; nandCrc]
               (mkWriter (replicate (Z.to_nat cap) 0) 0))
    (words (sessionHeader metadata norData ramData nandData (u32 norCrc) (u32 ramCrc) (u32 nandCrc))).
Proof.
  intros Hc Hm Hn Hr Hd. pose proof (len_nonneg metadata). pose proof (len_nonneg norData). pose proof (len_nonneg ramData). pose proof (len_nonneg nandData).
  replace (sessionHeader _ _ _ _ _ _ _)
    with (map (wrap 32) [MAGIC; VERSION; len metadata; len norData; norCrc; len ramData; ramCrc; len nandData; nandCrc]).
  - apply (put32_words _ _ _ []); [apply new_holds; lia|]. change (len []) with 0. cbn [length]. lia.
  - unfold sessionHeader. cbn [map]. rewrite (wrap_small 32 MAGIC), (wrap_small 32 VERSION) by is_u_lit.
    by rewrite (wrap_small 32 (len metadata)), (wrap_small 32 (len norData)), (wrap_small 32 (len ramData)), (wrap_small 32 (len nandData)) by (unfold is_u; lia).
Qed.

(** One image is compressed; the rest goes on with the result. *)
Lemma bind_Ret {A B} (m : outcome A) (x : A) (f : A -> outcome B) : m = Ret x -> mbind f m = f x.
Proof. by intros ->. Qed.

Lemma compressSession_image nor ram nand metadata :
  Forall byte_ok nor -> Forall byte_ok ram -> Forall byte_ok nand ->
  len nor <= MAX_BLOCK_SIZE -> len ram <= MAX_BLOCK_SIZE -> len nand <= MAX_BLOCK_SIZE -> len metadata < 2 ^ 31 ->
  exists norData ramData nandData, streamOf nor norData /\ streamOf ram ramData /\ streamOf nand nandData /\
    compressSession nor ram nand metadata = Ret (
      words (sessionHeader metadata norData ramData nandData (CRC32 nor) (CRC32 ram) (CRC32 nand)) ++ metadata ++ norData ++ ramData ++ nandData).
Proof.
  intros Hn Hr Hd Ln Lr Ld Lm.
  destruct (compress_stream nor Hn Ln) as (norData & norCrc & E1 & S1 & <-).
  destruct (compress_stream ram Hr Lr) as (ramData & ramCrc & E2 & S2 & <-).
  destruct (compress_stream nand Hd Ld) as (nandData & nandCrc & E3 & S3 & <-).
  exists norData, ramData, nandData. do 3 (split; [done|]). unfold compressSession. rewrite (bind_Ret _ _ _ E1), (bind_Ret _ _ _ E2), (bind_Ret _ _ _ E3).
  destruct S1 as [_ S1], S2 as [_ S2], S3 as [_ S3]. unfold MAX_BLOCK_SIZE, MAX_OVERHEAD in *. pose proof (len_nonneg metadata).
  apply put_blocks. rewrite len_words. change (4 * Z.of_nat _) with HEADER_SIZE. rewrite <- fold_left_9.
  apply put_header; unfold HEADER_SIZE; lia.
Qed.

Lemma sessionFile_read_v0_ok metadata nor ram nand norData ramData nandData :
  streamOf nor norData -> streamOf ram ramData -> streamOf nand nandData ->
  let file := words (sessionHeader metadata norData ramData nandData (CRC32 nor) (CRC32 ram) (CRC32 nand)) ++ metadata ++ norData ++ ramData ++ nandData in
  len file < 2 ^ 32 -> sessionFile_read_v0 file = Ret (Some (nor, ram, nand)).
Proof.
  intros S1 S2 S3 file Hl. unfold file in *. set (ws := sessionHeader _ _ _ _ _ _ _) in *. set (post := metadata ++ _) in *.
  assert (Hws : len (words ws) = 36) by (rewrite len_words; done). unfold sessionFile_read_v0.
  pose proof (len_nonneg metadata). pose proof (len_nonneg norData). pose proof (len_nonneg ramData). pose proof (len_nonneg nandData).
  assert (Hp : len post = len metadata + len norData + len ramData + len nandData) by (unfold post; rewrite !len_app; lia).
  pose proof Hl as Hl'. rewrite len_app in Hl'.
  rewrite (read32_word ws post 2 8 false (len metadata)); [|done|done|unfold is_u; lia|done]. cbv beta iota.
  rewrite (read32_word ws post 3 (8 + 4) false (len norData)); [|done|done|unfold is_u; lia|done]. cbv beta iota.
  rewrite (read32_word ws post 4 (8 + 4 + 4) false (CRC32 nor)); [|done|done|apply CRC32_is_u|done]. cbv beta iota.
  rewrite (read32_word ws post 5 (8 + 4 + 4 + 4) false (len ramData)); [|done|done|unfold is_u; lia|done]. cbv beta iota.
  rewrite (read32_word ws post 6 (8 + 4 + 4 + 4 + 4) false (CRC32 ram)); [|done|done|apply CRC32_is_u|done]. cbv beta iota.
  rewrite (read32_word ws post 7 (8 + 4 + 4 + 4 + 4 + 4) false (len nandData)); [|done|done|unfold is_u; lia|done]. cbv beta iota.
  rewrite (read32_word ws post 8 (8 + 4 + 4 + 4 + 4 + 4 + 4) false (CRC32 nand)); [|done|done|apply CRC32_is_u|done]. cbv beta iota.
  change (8 + 4 + 4 + 4 + 4 + 4 + 4 + 4) with 36. rewrite len_app, Hws, usize_small, (proj2 (Z.eqb_eq _ _)) by lia. cbn [negb].
  assert (HA : forall a b c d : list Z, words ws ++ a ++ b ++ c ++ d = (words ws ++ a) ++ b ++ c ++ d /\
    words ws ++ a ++ b ++ c ++ d = (words ws ++ a ++ b) ++ c ++ d /\ words ws ++ a ++ b ++ c ++ d = (words ws ++ a ++ b ++ c) ++ d ++ [])
    by (intros; rewrite app_nil_r, <- !app_assoc; done).
  destruct (HA metadata norData ramData nandData) as (A1 & A2 & A3). fold post in A1, A2, A3.
  pose proof (readImage_ok nor norData (words ws ++ metadata) (ramData ++ nandData) S1) as R1. rewrite <- A1, len_app, Hws in R1. rewrite R1. cbn [mbind outcome_bind].
  pose proof (readImage_ok ram ramData (words ws ++ metadata ++ norData) nandData S2) as R2. rewrite <- A2, !len_app, Hws, !Z.add_assoc in R2. rewrite R2. cbn [mbind outcome_bind].
  pose proof (readImage_ok nand nandData (words ws ++ metadata ++ norData ++ ramData) [] S3) as R3. rewrite <- A3, !len_app, Hws, !Z.add_assoc in R3. rewrite R3. done.
Qed.

(** C13. A session written by the web application is recognised by the emulator, which
    reads back exactly the NOR, RAM and NAND images, for images of up to 128 MiB
    (the limit of the decoder) and any metadata below 2 GiB. *)
Theorem session_roundtrip nor ram nand metadata :
  Forall byte_ok nor -> Forall byte_ok ram -> Forall byte_ok nand ->
  len nor <= MAX_BLOCK_SIZE -> len ram <= MAX_BLOCK_SIZE -> len nand <= MAX_BLOCK_SIZE -> len metadata < 2 ^ 31 ->
  exists file, compressSession nor ram nand metadata = Ret file /\
    isSessionFile file = true /\ sessionFile_read file = Ret (Some (mkSession nor nand ram [])).
Proof.
  intros Hn Hr Hd Ln Lr Ld Lm. destruct (compressSession_image nor ram nand metadata) as (norData & ramData & nandData & S1 & S2 & S3 & ->); [done..|].
  eexists. split; [done|]. pose proof (sessionFile_read_v0_ok metadata nor ram nand norData ramData nandData S1 S2 S3) as HV.
  assert (Hl : len (words (sessionHeader metadata norData ramData nandData (CRC32 nor) (CRC32 ram) (CRC32 nand)) ++ metadata ++ norData ++ ramData ++ nandData) < 2 ^ 32).
  { destruct S1 as [_ S1], S2 as [_ S2], S3 as [_ S3]. unfold MAX_BLOCK_SIZE, MAX_OVERHEAD in *. rewrite !len_app, len_words. cbn [length sessionHeader]. lia. }
  specialize (HV Hl). revert Hl HV. set (ws := sessionHeader _ _ _ _ _ _ _). set (post := metadata ++ _). intros Hl HV.
  unfold isSessionFile, sessionFile_read.
  rewrite (read32_word ws post 0 0 false MAGIC); [|done|done|is_u_lit|done]. cbv beta iota.
  rewrite (read32_word ws post 1 (0 + 4) false VERSION); [|done|done|is_u_lit|done]. cbv beta iota.
  rewrite HV. done.
Qed.

Example session_roundtrip_witness : exists file, compressSession [1; 2; 3] (replicate 20 0xff) [] [0x7b; 0x7d] = Ret file /\
    isSessionFile file = true /\ sessionFile_read file = Ret (Some (mkSession [1; 2; 3] [] (replicate 20 0xff) [])).
Proof.
  apply session_roundtrip; [forall_list; is_u_lit|apply Forall_replicate; is_u_lit|constructor|vm_compute; discriminate..|vm_compute; reflexivity].
Defined.
