(* ===== verification/Interfaces.v ===== *)
(** * Interfaces between the components

    Every device of the SoC holds pointers to the devices it talks to. A
    device's operations are written against the classes of this file, which
    say what the other side promises; the file of the other side gives the
    instance. [W] is the state behind the pointers: the rest of the SoC. *)

From S2P Require Import Prelude.

(** ** The interrupt controller as a device sees it: [socIcInt]

    Interrupt sources are numbered 0..63 (two 32-bit pending registers). *)
Class IrqSink (W : Type) := {
  irq_int : W -> Z -> bool -> W;
  irq_pending : W -> Z -> bool;
  irq_pending_int w n b m :
    0 <= n < 64 -> 0 <= m < 64 ->
    irq_pending (irq_int w n b) m = if n =? m then b else irq_pending w m
}.

(** The interrupt sources of pxa_IC.h the modelled devices drive. *)
Definition PXA_I_RTC_ALM := 31.
Definition PXA_I_RTC_HZ := 30.
Definition PXA_I_TIMR3 := 29.
Definition PXA_I_TIMR2 := 28.
Definition PXA_I_TIMR1 := 27.
Definition PXA_I_TIMR0 := 26.
Definition PXA_I_DMA := 25.
Definition PXA_I_SSP := 24.
Definition PXA_I_MMC := 23.
Definition PXA_I_FFUART := 22.
Definition PXA_I_BTUART := 21.
Definition PXA_I_STUART := 20.
Definition PXA_I_I2C := 18.
Definition PXA_I_LCD := 17.
Definition PXA_I_AC97 := 14.
Definition PXA_I_I2S := 13.
Definition PXA_I_GPIO_all := 10.
Definition PXA_I_GPIO_1 := 9.
Definition PXA_I_GPIO_0 := 8.
Definition PXA_I_KEYPAD := 4.

(** ** The DMA controller as a device sees it: [socDmaExternalReq] *)
Class DmaSink (W : Type) `{IrqSink W} := {
  dma_external_req : W -> Z -> bool -> W;
  dma_external_req_irq w ch b n :
    irq_pending (dma_external_req w ch b) n = irq_pending w n
}.

(** ** The scheduler as a device sees it: the [Reschedule] callback *)
Class ReschedSink (W : Type) `{IrqSink W} := {
  reschedule : W -> Z -> W;
  reschedule_irq w task n : irq_pending (reschedule w task) n = irq_pending w n
}.

(** The tasks of reschedule.h. *)
Definition RESCHEDULE_TASK_DEVICE_TIER0 := 0.
Definition RESCHEDULE_TASK_NAND := 1.
Definition RESCHEDULE_TASK_SSP := 2.
Definition RESCHEDULE_TASK_UART := 3.
Definition RESCHEDULE_TASK_DMA := 4.

(** ** The physical address space: [memAccess] *)
Class PhysMem (W : Type) := {
  mem_access : W -> Z -> Z -> bool -> Z -> outcome (access W)
}.

(** Memory that behaves as words: an aligned word of [word_at] can be read and
    written, and a write changes that word only. *)
Class WordMem (W : Type) `{PhysMem W} := {
  words_wf : W -> Prop;
  word_at : W -> Z -> option Z;
  word_aligned w a v : words_wf w -> word_at w a = Some v -> is_u 32 v /\ is_u 32 a /\ a mod 4 = 0;
  word_read w a v b : words_wf w -> word_at w a = Some v -> mem_access w a 4 false b = Ret (true, v, w);
  word_write w a v v' :
    words_wf w -> word_at w a = Some v -> is_u 32 v' ->
    exists w', mem_access w a 4 true v' = Ret (true, v', w') /\ words_wf w' /\
      forall a', word_at w' a' = if a =? a' then Some v' else word_at w a'
}.

(** ** The display as the RAM sees it: [socSetFramebufferDirty] *)
Class FbSink (W : Type) := {
  set_fb_dirty : W -> W;
  fb_dirty : W -> bool;
  fb_dirty_set w : fb_dirty (set_fb_dirty w) = true
}.

(** The smallest such world: the flag itself. *)
#[export] Instance bool_fb_sink : FbSink bool :=
  {| set_fb_dirty _ := true; fb_dirty b := b; fb_dirty_set _ := eq_refl |}.

(** ** The instruction cache as CP15 sees it: [icacheInval], [icacheInvalAddr] *)
Class ICachePort (I : Type) := {
  icacheInval : I -> I;
  icacheInvalAddr : I -> Z -> I
}.

(** ** The CPU's interrupt inputs: [cpuIrq] *)
Class CpuIrqPort (E : Type) := { cpu_irq : E -> bool -> bool -> E }.

(** ** The CPU's registers, for coprocessors: [cpuSetReg], [cpuGetRegExternal] *)
Class CpuRegPort (E : Type) := {
  cpu_get_reg : E -> Z -> Z;
  cpu_set_reg : E -> Z -> Z -> E;
  cpu_regs_wf : E -> Prop;
  cpu_set_reg_wf e r v : cpu_regs_wf e -> cpu_regs_wf (cpu_set_reg e r v);
  cpu_get_set_reg e r r' v :
    cpu_regs_wf e -> 0 <= r < 15 -> 0 <= r' < 15 ->
    cpu_get_reg (cpu_set_reg e r v) r' = if r =? r' then v else cpu_get_reg e r'
}.

(** ** The GPIO pins a device drives: [socGpioSetState] *)
Class GpioPort (W : Type) := { gpio_set_state : W -> Z -> bool -> outcome W }.

(** ** The SoC's power state: [socWakeup] *)
Class SocWakePort (E : Type) := { soc_wakeup : E -> Z -> E }.

(** ** Derived facts every client of [IrqSink] uses *)
Section IrqSinkFacts.
Context {W : Type} `{IrqSink W}.

Lemma irq_pending_int_eq w n b : 0 <= n < 64 -> irq_pending (irq_int w n b) n = b.
Proof. intros. by rewrite irq_pending_int, Z.eqb_refl. Qed.

Lemma irq_pending_int_ne w n b m :
  0 <= n < 64 -> 0 <= m < 64 -> n <> m ->
  irq_pending (irq_int w n b) m = irq_pending w m.
Proof. intros ?? Hne. rewrite irq_pending_int by done. by apply Z.eqb_neq in Hne as ->. Qed.

(** Two worlds are told apart by a device through the pending lines only. *)
Definition irq_equiv (w w' : W) : Prop :=
  forall n, 0 <= n < 64 -> irq_pending w n = irq_pending w' n.

#[export] Instance irq_equiv_equivalence : Equivalence irq_equiv.
Proof.
  split.
  - by intros w n Hn.
  - intros w w' E n Hn. by rewrite E.
  - intros w w' w'' E E' n Hn. by rewrite E, E'.
Qed.

(** Raising or lowering one line is compatible with the equivalence. *)
Lemma irq_int_equiv w w' n b :
  0 <= n < 64 -> irq_equiv w w' -> irq_equiv (irq_int w n b) (irq_int w' n b).
Proof. intros Hn E m Hm. rewrite !irq_pending_int by done. by rewrite E. Qed.

(** Driving a line to the level it already has is not observable. *)
Lemma irq_int_noop w n b :
  0 <= n < 64 -> irq_pending w n = b -> irq_equiv (irq_int w n b) w.
Proof.
  intros Hn E m Hm. rewrite irq_pending_int by done.
  by destruct (Z.eqb_spec n m) as [<-|].
Qed.

(** The last level wins. *)
Lemma irq_int_twice w n b b' :
  0 <= n < 64 -> irq_equiv (irq_int (irq_int w n b) n b') (irq_int w n b').
Proof.
  intros Hn m Hm. rewrite !irq_pending_int by done. by destruct (n =? m).
Qed.
End IrqSinkFacts.

(** The smallest world a device can be run in: the levels of its lines. *)
Definition lines := Z -> bool.

#[export, program] Instance lines_irq_sink : IrqSink lines := {|
  irq_int w n b := fun m => if n =? m then b else w m;
  irq_pending w n := w n
|}.
Next Obligation. done. Qed.

Definition idle : lines := fun _ => false.

#[export, program] Instance lines_resched : ReschedSink lines := {| reschedule w _ := w |}.
Next Obligation. done. Qed.

#[export, program] Instance lines_dma : DmaSink lines := {| dma_external_req w _ _ := w |}.
Next Obligation. done. Qed.
