(* ===== verification/CpuSoc.v ===== *)
(** * The CPU's interrupt inputs and the SoC's power state

    The state of the CPU ([struct ArmCpu] of CPU.cpp, without its pointers and
    the PACE and injected-call switches) and the slice of [struct SoC]
    (socPXA.cpp) that the peripherals reach through callbacks: the
    reference-counted interrupt inputs, the sleep flags, and the requests made
    to the scheduler. The instructions are in Cpu.v, CpuAlu.v and Thumb.v. *)

From S2P Require Import Prelude Interfaces.

(** The registers a mode has of its own. *)
Record ArmBankedRegs := mkBank { R13 : Z; R14 : Z; bSPSR : Z }.

Record ArmCpu := mkArmCpu {
  waitingIrqs : Z;          (* uint16_t *)
  waitingFiqs : Z;          (* uint16_t *)
  waitingEventsTotal : Z;   (* uint16_t *)
  sleeping : bool;
  regs : list Z;            (* uint32_t[16]: the current mode's registers *)
  curInstrPC : Z;           (* uint32_t *)
  T : bool;                 (* Thumb state *)
  vectorBase : Z;           (* uint32_t *)
  CPAR : Z;                 (* uint16_t: coprocessor access *)
  pid : Z;                  (* uint32_t: FCSE *)
  SPSR : Z;                 (* uint32_t, of the current mode *)
  flags : Z;                (* uint32_t: N, Z, C and V *)
  Q : bool;
  I_ : bool;                (* IRQs disabled *)
  F_ : bool;                (* FIQs disabled *)
  M : Z;                    (* uint8_t: the mode *)
  bank_usr : ArmBankedRegs;
  bank_svc : ArmBankedRegs;
  bank_abt : ArmBankedRegs;
  bank_und : ArmBankedRegs;
  bank_irq : ArmBankedRegs;
  bank_fiq : ArmBankedRegs;
  extra_regs : list Z       (* R8-R12: FIQ's in another mode, the others' in FIQ mode *)
}.

Definition REG_NO_PC := 15.

(** Register reads and writes by a coprocessor; the number is below 16. *)
Definition cpuGetRegExternal (cpu : ArmCpu) (reg : Z) : Z :=
  if reg =? REG_NO_PC then u32 (cpu.(curInstrPC) + Z.b2z cpu.(T)) else cpu.(regs).[reg].

Definition cpuPrvSetPC (cpu : ArmCpu) (pc : Z) : ArmCpu :=
  { cpu with regs ::= fun r => r.[REG_NO_PC <- pc .&~ 1]; T := tst pc 1 }.

Definition cpuPrvSetReg (cpu : ArmCpu) (reg val : Z) : ArmCpu :=
  if reg =? REG_NO_PC then cpuPrvSetPC cpu val
  else { cpu with regs ::= fun r => r.[reg <- val] }.

Definition cpuIrq (cpu : ArmCpu) (fiq raise : bool) : ArmCpu :=
  let cpu :=
    if fiq then
      if raise then { cpu with waitingFiqs ::= fun n => u16 (n + 1) }
      else if nz cpu.(waitingFiqs) then { cpu with waitingFiqs ::= fun n => u16 (n - 1) }
      else cpu (* "Cannot unraise FIQ when none raised" *)
    else
      if raise then { cpu with waitingIrqs ::= fun n => u16 (n + 1) }
      else if nz cpu.(waitingIrqs) then { cpu with waitingIrqs ::= fun n => u16 (n - 1) }
      else cpu (* "Cannot unraise IRQ when none raised" *)
  in
  { cpu with waitingEventsTotal := u16 (cpu.(waitingFiqs) + cpu.(waitingIrqs)) }.

(** [cpuSetReg] for the registers a coprocessor can name. *)
Definition cpuSetReg (cpu : ArmCpu) (reg val : Z) : ArmCpu := cpuPrvSetReg cpu reg val.

Definition cpuSetVectorAddr (cpu : ArmCpu) (adr : Z) : ArmCpu := { cpu with vectorBase := adr }.
Definition cpuGetCPAR (cpu : ArmCpu) : Z := cpu.(CPAR).
Definition cpuSetCPAR (cpu : ArmCpu) (cpar : Z) : ArmCpu := { cpu with CPAR := u16 cpar }.
Definition cpuSetPid (cpu : ArmCpu) (p : Z) : ArmCpu := { cpu with pid := p }.
Definition cpuGetPid (cpu : ArmCpu) : Z := cpu.(pid).

Definition cpuSetSleeping (cpu : ArmCpu) : ArmCpu := { cpu with sleeping := true }.
Definition cpuWakeup (cpu : ArmCpu) : ArmCpu := { cpu with sleeping := false }.

(** The part of [struct SoC] behind [socSleep] and [socWakeup]; the calls of
    [Scheduler::RescheduleTaskAtLeast] ([true]) and [RescheduleTask] are recorded
    in order, newest first, with the task and the ticks. *)
Record SoC := mkSoC {
  soc_cpu : ArmCpu;
  soc_sleeping : bool;
  reschedules : list (bool * Z * Z)
}.

Definition SCHEDULER_TASK_TIMER := 0.

Definition socSleep (soc : SoC) (ticksToNextInterrupt : Z) : SoC :=
  if soc.(soc_sleeping) then soc else
  { soc with soc_sleeping := true;
             reschedules ::= cons (true, SCHEDULER_TASK_TIMER, ticksToNextInterrupt);
             soc_cpu ::= cpuSetSleeping }.

Definition socWakeup (soc : SoC) (wakeupSource : Z) : SoC :=
  if negb soc.(soc_sleeping) then soc else
  { soc with soc_sleeping := false;
             reschedules ::= cons (true, SCHEDULER_TASK_TIMER, 1);
             soc_cpu ::= cpuWakeup }.

#[export] Instance soc_cpu_irq : CpuIrqPort SoC :=
  {| cpu_irq soc fiq raise := { soc with soc_cpu ::= fun c => cpuIrq c fiq raise } |}.

#[export, program] Instance soc_cpu_regs : CpuRegPort SoC := {|
  cpu_get_reg soc r := cpuGetRegExternal soc.(soc_cpu) r;
  cpu_set_reg soc r v := { soc with soc_cpu ::= fun c => cpuSetReg c r v };
  cpu_regs_wf soc := length soc.(soc_cpu).(regs) = 16%nat
|}.
Next Obligation.
  intros [[] ? ?] r v; unfold cpuSetReg, cpuPrvSetReg, cpuPrvSetPC, REG_NO_PC; cbn.
  destruct (r =? 15); cbn; intros <-; apply length_aset.
Qed.
Next Obligation.
  intros [[] ? ?] r r' v Hl Hr Hr'; unfold cpuSetReg, cpuPrvSetReg, cpuGetRegExternal, REG_NO_PC; cbn in *.
  destruct (Z.eqb_spec r 15), (Z.eqb_spec r' 15); [lia..|]; cbn.
  apply aget_aset; lia.
Qed.

#[export] Instance soc_wake : SocWakePort SoC := {| soc_wakeup := socWakeup |}.

(** A CPU with no interrupt raised, awake. *)
Definition zero_bank : ArmBankedRegs := mkBank 0 0 0.
Definition cpu_reset : ArmCpu :=
  mkArmCpu 0 0 0 false (replicate 16 0) 0 false 0 0 0 0 0 false true true 0x13 zero_bank zero_bank
    zero_bank zero_bank zero_bank zero_bank (replicate 5 0).
Definition soc_reset : SoC := mkSoC cpu_reset false [].

(** The SoC and its CPU agree on being asleep. *)
Definition sleep_agrees (soc : SoC) : Prop := soc.(soc_sleeping) = soc.(soc_cpu).(sleeping).

Lemma sleep_agrees_sleep soc t : sleep_agrees soc -> sleep_agrees (socSleep soc t).
Proof. by destruct soc as [[] [] ?]. Qed.

Lemma sleep_agrees_wakeup soc n : sleep_agrees soc -> sleep_agrees (socWakeup soc n).
Proof. by destruct soc as [[] [] ?]. Qed.

Lemma sleep_agrees_irq soc fiq raise : sleep_agrees soc -> sleep_agrees (cpu_irq soc fiq raise).
Proof.
  destruct soc as [c s' l]; destruct c; unfold sleep_agrees; cbn; intros ->.
  unfold cpuIrq; cbn. by destruct fiq, raise; cbn; try destruct (nz _).
Qed.

#[export] Hint Resolve sleep_agrees_sleep sleep_agrees_wakeup sleep_agrees_irq : uarm.

(** The effect of [cpuIrq] on the two counts. *)
Definition count_step (n : Z) (raise : bool) : Z :=
  if raise then u16 (n + 1) else if nz n then u16 (n - 1) else n.

Lemma cpuIrq_counts cpu fiq raise :
  (cpuIrq cpu fiq raise).(waitingIrqs) =
    (if fiq then cpu.(waitingIrqs) else count_step cpu.(waitingIrqs) raise) /\
  (cpuIrq cpu fiq raise).(waitingFiqs) =
    (if fiq then count_step cpu.(waitingFiqs) raise else cpu.(waitingFiqs)).
Proof.
  destruct cpu; unfold cpuIrq, count_step; cbn.
  by destruct fiq, raise; cbn; try destruct (nz _).
Qed.

Lemma count_step_flag b : count_step (Z.b2z b) (negb b) = Z.b2z (negb b).
Proof. by destruct b. Qed.

Arguments cpuIrq : simpl never.
Arguments count_step : simpl never.
