(* ===== verification/Ic.v ===== *)
(** * The PXA interrupt controller (pxa_IC.c)

    [SocIc] is [struct SocIc]; [ic_env] stands for its [cpu] and [soc]
    pointers. Register accesses from the bus are [socIcPrvMemAccessF], from
    coprocessor 6 [pxa270icPrvCoprocAccess], and devices raise and lower their
    line with [socIcInt]. *)

From stdpp Require Import relations.
From S2P Require Import Prelude Interfaces CpuSoc.

Definition PXA_IC_BASE := 0x40D00000.
Definition PXA_IC_SIZE := 0x00010000.

Record SocIc (E : Type) := mkSocIc {
  ic_env : E;
  ICMR : list Z;    (* uint32_t[2]: mask *)
  ICLR : list Z;    (* uint32_t[2]: level, IRQ or FIQ *)
  ICPR : list Z;    (* uint32_t[2]: pending *)
  ICCR : Z;         (* uint32_t: control *)
  prio : list Z;    (* uint8_t[40] *)
  wasIrq : bool;
  wasFiq : bool;
  gen2 : bool
}.
Arguments mkSocIc {E}.
Arguments ic_env {E}.
Arguments ICMR {E}.
Arguments ICLR {E}.
Arguments ICPR {E}.
Arguments ICCR {E}.
Arguments prio {E}.
Arguments wasIrq {E}.
Arguments wasFiq {E}.
Arguments gen2 {E}.

Section Operations.
  Context {E : Type} `{CpuIrqPort E} `{SocWakePort E}.

Definition socIcInit (env : E) (socRev : Z) : SocIc E :=
  mkSocIc env [0; 0] [0; 0] [0; 0] 0 (replicate 40 0) false false (socRev =? 2).

Definition socIcPrvHandleChanges (ic : SocIc E) : SocIc E :=
  let unmasked i := ic.(ICPR).[i] .& ic.(ICMR).[i] in
  let '(nowIrq, nowFiq) :=
    fold_left (λ '(nowIrq, nowFiq) i,
      (nowIrq || nz (unmasked i .&~ ic.(ICLR).[i]), nowFiq || tst (unmasked i) ic.(ICLR).[i]))
      [0; 1] (false, false) in
  let env := ic.(ic_env) in
  let env := if Bool.eqb nowFiq ic.(wasFiq) then env else cpu_irq env true nowFiq in
  let env := if Bool.eqb nowIrq ic.(wasIrq) then env else cpu_irq env false nowIrq in
  { ic with ic_env := env; wasFiq := nowFiq; wasIrq := nowIrq }.

(** The body of the loop over the priority slots. *)
Definition highestPrioSlot (ic : SocIc E) (ret p : Z) : Z :=
  let activeIrq i := (ic.(ICPR).[i] .& ic.(ICMR).[i]) .&~ ic.(ICLR).[i] in
  let activeFiq i := (ic.(ICPR).[i] .& ic.(ICMR).[i]) .& ic.(ICLR).[i] in
  if negb (tst p 0x80) then ret else
  let periph := p .& 0x3f in
  let ret :=
    if negb (tst ret 0x80000000) && nz ((activeIrq (periph / 32) .>> (periph mod 32)) .& 1)
    then ((ret .| 0x80000000) .&~ 0x001f0000) .| (periph .<< 16) else ret in
  if negb (tst ret 0x8000) && nz ((activeFiq (periph / 32) .>> (periph mod 32)) .& 1)
  then ((ret .| 0x8000) .&~ 0x001f) .| periph else ret.

Definition socIcPrvCalcHighestPrio (ic : SocIc E) : Z :=
  fold_left (highestPrioSlot ic) ic.(prio) 0x001f001f.

Definition socIcPrvGetIcip (ic : SocIc E) (idx : Z) : Z :=
  (ic.(ICPR).[idx] .& ic.(ICMR).[idx]) .&~ ic.(ICLR).[idx].

Definition socIcPrvGetIcfp (ic : SocIc E) (idx : Z) : Z :=
  (ic.(ICPR).[idx] .& ic.(ICMR).[idx]) .& ic.(ICLR).[idx].

(** Bus access. The second-generation cases of the switch rebase [pa] and fall
    through to the first bank's code with index 1. *)
Definition socIcPrvMemAccessF (ic : SocIc E) (pa size : Z) (write : bool) (buf : Z)
  : access (SocIc E) :=
  if negb (size =? 4) then (false, buf, ic) else
  let pa := u32 (pa - PXA_IC_BASE) .>> 2 in
  let val := buf in
  let fail := (false, buf, ic) in
  let rw ic' val' :=
    if write then (true, buf, socIcPrvHandleChanges ic') else (true, val', ic) in
  let icip i := rw ic (socIcPrvGetIcip ic i) in
  let icmr i := rw { ic with ICMR ::= fun r => r.[i <- val] } ic.(ICMR).[i] in
  let iclr i := rw { ic with ICLR ::= fun r => r.[i <- val] } ic.(ICLR).[i] in
  let icfp i := rw ic (socIcPrvGetIcfp ic i) in
  let icpr i := rw ic ic.(ICPR).[i] in
  let ipr i :=
    rw { ic with prio ::= fun r => r.[i <- u8 ((val .& 0x3f) .| ((val .>> 24) .& 0x80))] }
       ((ic.(prio).[i] .& 0x3f) .| (if tst ic.(prio).[i] 0x80 then 0x80000000 else 0)) in
  let gen2only r := if ic.(gen2) then r else fail in
  match pa with
  | 0x27 (* 0x9C / 4 *) => gen2only (icip 1)
  | 0x00 => icip 0
  | 0x28 (* 0xA0 / 4 *) => gen2only (icmr 1)
  | 0x01 => icmr 0
  | 0x29 (* 0xA4 / 4 *) => gen2only (iclr 1)
  | 0x02 => iclr 0
  | 0x2a (* 0xA8 / 4 *) => gen2only (icfp 1)
  | 0x03 => icfp 0
  | 0x2b (* 0xAC / 4 *) => gen2only (icpr 1)
  | 0x04 => icpr 0
  | 0x05 => rw { ic with ICCR := val .& 1 } ic.(ICCR)
  | 0x06 => gen2only (rw ic (socIcPrvCalcHighestPrio ic))
  | _ =>
      if (0xb0 / 4 <=? pa) && (pa <=? 0xcc / 4) then ipr (pa - 0xb0 / 4 + 0x98 / 4 + 1 - 0x1c / 4)
      else if (0x1c / 4 <=? pa) && (pa <=? 0x98 / 4) then ipr (pa - 0x1c / 4)
      else fail
  end.

(** An interrupt from emulated hardware. *)
Definition socIcInt (ic : SocIc E) (intNum : Z) (raise : bool) : SocIc E :=
  let i := intNum / 32 in
  let mask := 1 .<< (intNum mod 32) in
  let old := ic.(ICPR).[i] in
  let ic :=
    if raise then
      let ic := { ic with ICPR ::= fun r => r.[i <- r.[i] .| mask] } in
      if (ic.(ICCR) .& 0x01 =? 0) || tst ic.(ICMR).[i] mask
      then { ic with ic_env ::= fun e => soc_wakeup e intNum } else ic
    else { ic with ICPR ::= fun r => r.[i <- r.[i] .&~ mask] } in
  if negb (ic.(ICPR).[i] =? old) then socIcPrvHandleChanges ic else ic.

End Operations.

(** Coprocessor 6 access: [Some] is the C [true]. *)
Definition pxa270icPrvCoprocAccess {E} `{CpuIrqPort E} `{CpuRegPort E}
  (ic : SocIc E) (two MRC : bool) (op1 Rx CRn CRm op2 : Z) : option (SocIc E) :=
  let write := negb MRC in
  if nz CRm || nz op1 || nz op2 || two then None else
  let val := if write then cpu_get_reg ic.(ic_env) Rx else 0 in
  let wr ic := Some (socIcPrvHandleChanges ic) in
  let rd v := Some { ic with ic_env ::= fun e => cpu_set_reg e Rx v } in
  let icip i := if write then None else rd (socIcPrvGetIcip ic i) in
  let icmr i := if write then wr { ic with ICMR ::= fun r => r.[i <- val] } else rd ic.(ICMR).[i] in
  let iclr i := if write then wr { ic with ICLR ::= fun r => r.[i <- val] } else rd ic.(ICLR).[i] in
  let icfp i := if write then None else rd (socIcPrvGetIcfp ic i) in
  let icpr i := if write then None else rd ic.(ICPR).[i] in
  match CRn with
  | 6 => icip 1
  | 0 => icip 0
  | 7 => icmr 1
  | 1 => icmr 0
  | 8 => iclr 1
  | 2 => iclr 0
  | 9 => icfp 1
  | 3 => icfp 0
  | 10 => icpr 1
  | 4 => icpr 0
  | 5 => if write then None else rd (socIcPrvCalcHighestPrio ic)
  | _ => None
  end.

(** ** Interrupt sources, one bit at a time *)

Definition src_bit (regs : list Z) (n : Z) : bool := Z.testbit regs.[n / 32] (n mod 32).

Definition irq_asserted {E} (ic : SocIc E) (n : Z) : bool :=
  src_bit ic.(ICPR) n && src_bit ic.(ICMR) n && negb (src_bit ic.(ICLR) n).

Definition fiq_asserted {E} (ic : SocIc E) (n : Z) : bool :=
  src_bit ic.(ICPR) n && src_bit ic.(ICMR) n && src_bit ic.(ICLR) n.

Definition bank_wf (regs : list Z) : Prop := length regs = 2%nat /\ Forall (is_u 32) regs.

Record ic_wf {E} (ic : SocIc E) : Prop := {
  wf_icmr : bank_wf ic.(ICMR);
  wf_iclr : bank_wf ic.(ICLR);
  wf_icpr : bank_wf ic.(ICPR);
  wf_prio : length ic.(prio) = 40%nat /\ Forall (is_u 8) ic.(prio)
}.

(** The flags the controller keeps tell whether an interrupt is asserted. *)
Definition ic_settled {E} (ic : SocIc E) : Prop :=
  (ic.(wasIrq) = true <-> exists n, 0 <= n < 64 /\ irq_asserted ic n = true) /\
  (ic.(wasFiq) = true <-> exists n, 0 <= n < 64 /\ fiq_asserted ic n = true).

(** The CPU's reference counts are the controller's flags. *)
Definition cpu_agrees (ic : SocIc SoC) : Prop :=
  ic.(ic_env).(soc_cpu).(waitingIrqs) = Z.b2z ic.(wasIrq) /\
  ic.(ic_env).(soc_cpu).(waitingFiqs) = Z.b2z ic.(wasFiq).

Lemma bank_wf_aset regs i v : bank_wf regs -> is_u 32 v -> bank_wf (aset regs i v).
Proof. intros [Hl Hf] Hv. split; [by rewrite length_aset|by apply Forall_aset]. Qed.

Lemma bank_is_u regs i : bank_wf regs -> 0 <= i < 2 -> is_u 32 regs.[i].
Proof. intros [Hl Hf] Hi. apply Forall_aget; [done|lia]. Qed.

#[export] Hint Resolve bank_wf_aset bank_is_u : uarm.

Lemma src_index n : 0 <= n < 64 -> 0 <= n / 32 < 2 /\ 0 <= n mod 32 < 32.
Proof. intros. split; [|by apply Z.mod_pos_bound]. split; [apply Z.div_pos|apply Z.div_lt_upper_bound]; lia. Qed.

Lemma src_split n i j : 0 <= j < 32 -> n = i * 32 + j -> n / 32 = i /\ n mod 32 = j.
Proof.
  intros Hj ->. split.
  - rewrite Z.div_add_l by lia. rewrite Z.div_small by lia. lia.
  - rewrite Z.add_comm, Z.mod_add by lia. by apply Z.mod_small.
Qed.

(** A property of some source is a property of a bit of one of two banks. *)
Lemma exists_src (f : Z -> Z -> bool) :
  (exists n, 0 <= n < 64 /\ f (n / 32) (n mod 32) = true) <->
  (exists j, 0 <= j < 32 /\ f 0 j = true) \/ (exists j, 0 <= j < 32 /\ f 1 j = true).
Proof.
  split.
  - intros (n & Hn & Hf). destruct (src_index n Hn) as [Hi Hj].
    assert (n / 32 = 0 \/ n / 32 = 1) as [E|E] by lia; rewrite E in Hf; eauto.
  - intros [(j & Hj & Hf)|(j & Hj & Hf)].
    + exists j. destruct (src_split j 0 j) as [-> ->]; [lia..|]. split; [lia|done].
    + exists (32 + j). destruct (src_split (32 + j) 1 j) as [-> ->]; [lia..|]. split; [lia|done].
Qed.

Lemma bank_irq_exists {E} (ic : SocIc E) i :
  ic_wf ic -> 0 <= i < 2 ->
  nz ((ic.(ICPR).[i] .& ic.(ICMR).[i]) .&~ ic.(ICLR).[i]) = true <->
  exists j, 0 <= j < 32 /\
    Z.testbit ic.(ICPR).[i] j && Z.testbit ic.(ICMR).[i] j && negb (Z.testbit ic.(ICLR).[i] j) = true.
Proof.
  intros [] Hi. rewrite (nz_exists 32) by eauto 6 with uarm.
  split; intros (j & Hj & Hb); exists j; split; try done;
    revert Hb; by autorewrite with zbits.
Qed.

Lemma bank_fiq_exists {E} (ic : SocIc E) i :
  ic_wf ic -> 0 <= i < 2 ->
  tst (ic.(ICPR).[i] .& ic.(ICMR).[i]) ic.(ICLR).[i] = true <->
  exists j, 0 <= j < 32 /\
    Z.testbit ic.(ICPR).[i] j && Z.testbit ic.(ICMR).[i] j && Z.testbit ic.(ICLR).[i] j = true.
Proof.
  intros [] Hi. change (tst ?a ?b) with (nz (a .& b)).
  rewrite (nz_exists 32) by eauto 6 with uarm.
  split; intros (j & Hj & Hb); exists j; split; try done;
    revert Hb; by autorewrite with zbits.
Qed.

Section HandleChanges.
Context {E : Type} `{CpuIrqPort E} `{SocWakePort E}.

(** Recomputing the lines changes no register ... *)
Lemma handle_changes_regs (ic : SocIc E) :
  let ic' := socIcPrvHandleChanges ic in
  ic'.(ICPR) = ic.(ICPR) /\ ic'.(ICMR) = ic.(ICMR) /\ ic'.(ICLR) = ic.(ICLR) /\
  ic'.(prio) = ic.(prio) /\ ic'.(ICCR) = ic.(ICCR) /\ ic'.(gen2) = ic.(gen2).
Proof. by destruct ic. Qed.

Lemma handle_changes_wf (ic : SocIc E) : ic_wf ic -> ic_wf (socIcPrvHandleChanges ic).
Proof. destruct ic; intros []; by constructor. Qed.

(** ... and leaves the flags settled. *)
Lemma handle_changes_settled (ic : SocIc E) :
  ic_wf ic -> ic_settled (socIcPrvHandleChanges ic).
Proof.
  intros Hwf. unfold ic_settled, irq_asserted, fiq_asserted, src_bit.
  destruct (handle_changes_regs ic) as (-> & -> & -> & _).
  pose proof (exists_src (λ i j, Z.testbit (ICPR ic).[i] j && Z.testbit (ICMR ic).[i] j
    && negb (Z.testbit (ICLR ic).[i] j))) as Hirq.
  pose proof (exists_src (λ i j, Z.testbit (ICPR ic).[i] j && Z.testbit (ICMR ic).[i] j
    && Z.testbit (ICLR ic).[i] j)) as Hfiq.
  cbn beta in Hirq, Hfiq. rewrite Hirq, Hfiq. clear Hirq Hfiq.
  rewrite <- !bank_irq_exists, <- !bank_fiq_exists by (done || lia).
  rewrite <- !orb_true_iff. done.
Qed.
End HandleChanges.

(** ** The CPU's counts follow the flags *)

Lemma handle_changes_cpu (ic : SocIc SoC) :
  cpu_agrees ic -> cpu_agrees (socIcPrvHandleChanges ic).
Proof.
  destruct ic as [[c s l] mr lr pr cr p wi wf g].
  unfold cpu_agrees, socIcPrvHandleChanges. cbn [fold_left].
  set (nowIrq := _ || nz _). set (nowFiq := _ || tst _ _). clearbody nowIrq nowFiq.
  cbn. intros [Hi Hf].
  assert (forall b b', Bool.eqb b b' = false -> b = negb b') as Hn by by intros [] [].
  destruct (Bool.eqb nowFiq wf) eqn:E1; [apply eqb_prop in E1|apply Hn in E1];
    (destruct (Bool.eqb nowIrq wi) eqn:E2; [apply eqb_prop in E2|apply Hn in E2]); subst; cbn;
    repeat match goal with |- context [waitingIrqs (cpuIrq ?a ?b ?d)] =>
      rewrite (proj1 (cpuIrq_counts a b d)); cbn [negb]
    | |- context [waitingFiqs (cpuIrq ?a ?b ?d)] =>
      rewrite (proj2 (cpuIrq_counts a b d)); cbn [negb] end;
    by rewrite ?Hi, ?Hf, ?count_step_flag.
Qed.

(** ** [socIcInt]: a device drives its line *)

Section Int.
Context {E : Type} `{CpuIrqPort E} `{SocWakePort E}.

Definition icpr_int (icpr : list Z) (n : Z) (raise : bool) : list Z :=
  let mask := 1 .<< (n mod 32) in
  icpr.[n / 32 <- if raise then icpr.[n / 32] .| mask else icpr.[n / 32] .&~ mask].

(** The state just before the lines are recomputed. *)
Definition int_pre (ic : SocIc E) (n : Z) (raise : bool) : SocIc E :=
  { ic with
    ic_env := if raise && ((ic.(ICCR) .& 0x01 =? 0) || tst ic.(ICMR).[n / 32] (1 .<< (n mod 32)))
              then soc_wakeup ic.(ic_env) n else ic.(ic_env);
    ICPR := icpr_int ic.(ICPR) n raise }.

Lemma socIcInt_unfold (ic : SocIc E) n raise :
  socIcInt ic n raise =
  if negb ((icpr_int ic.(ICPR) n raise).[n / 32] =? ic.(ICPR).[n / 32])
  then socIcPrvHandleChanges (int_pre ic n raise) else int_pre ic n raise.
Proof.
  destruct ic as [e mr lr pr cr p wi wf g]; unfold socIcInt, int_pre, icpr_int; cbn.
  destruct raise; cbn; [|reflexivity].
  by destruct ((cr .& 1 =? 0) || tst mr.[n / 32] (1 .<< (n mod 32))).
Qed.

Lemma mask_is_u n : 0 <= n < 32 -> is_u 32 (1 .<< n).
Proof.
  intros. rewrite Z.shiftl_1_l. split; [|apply Z.pow_lt_mono_r; lia].
  apply Z.pow_nonneg. lia.
Qed.

Lemma icpr_int_wf pr n raise : 0 <= n < 64 -> bank_wf pr -> bank_wf (icpr_int pr n raise).
Proof.
  intros Hn Hw. destruct (src_index n Hn). pose proof (mask_is_u (n mod 32)).
  unfold icpr_int. destruct raise; eauto 8 with uarm.
Qed.

Lemma src_bit_int pr n raise m :
  0 <= n < 64 -> 0 <= m < 64 -> bank_wf pr ->
  src_bit (icpr_int pr n raise) m = if n =? m then raise else src_bit pr m.
Proof.
  intros Hn Hm [Hl _]. unfold src_bit, icpr_int.
  destruct (src_index n Hn) as [Hi Hj], (src_index m Hm) as [Hi' Hj'].
  pose proof (Z.div_mod n 32 ltac:(lia)). pose proof (Z.div_mod m 32 ltac:(lia)).
  rewrite aget_aset by lia.
  destruct (Z.eqb_spec (n / 32) (m / 32)) as [E1|E1].
  - rewrite E1.
    assert (forall b : bool, Z.testbit (if b then (pr.[m / 32] .| (1 .<< (n mod 32)))
        else (pr.[m / 32] .&~ (1 .<< (n mod 32)))) (m mod 32)
      = if n mod 32 =? m mod 32 then b else Z.testbit pr.[m / 32] (m mod 32)) as ->.
    { intros b. destruct b; rewrite ?Z.lor_spec, ?Z.ldiff_spec, testbit_1_shiftl by lia;
        destruct (n mod 32 =? m mod 32), (Z.testbit _ _); reflexivity. }
    destruct (Z.eqb_spec (n mod 32) (m mod 32)), (Z.eqb_spec n m); congruence || lia.
  - by destruct (Z.eqb_spec n m) as [->|].
Qed.

Lemma int_pre_wf ic n raise : 0 <= n < 64 -> ic_wf ic -> ic_wf (int_pre ic n raise).
Proof.
  intros Hn [H1 H2 H3 H4]. destruct ic; constructor; cbn in *; try done.
  by apply icpr_int_wf.
Qed.

Lemma socIcInt_regs ic n raise :
  let ic' := socIcInt ic n raise in
  ic'.(ICPR) = icpr_int ic.(ICPR) n raise /\ ic'.(ICMR) = ic.(ICMR) /\ ic'.(ICLR) = ic.(ICLR).
Proof.
  cbn. rewrite socIcInt_unfold. destruct (negb _); [|by destruct ic].
  destruct (handle_changes_regs (int_pre ic n raise)) as (-> & -> & -> & _). by destruct ic.
Qed.

Lemma socIcInt_wf ic n raise : 0 <= n < 64 -> ic_wf ic -> ic_wf (socIcInt ic n raise).
Proof.
  intros. rewrite socIcInt_unfold.
  destruct (negb _); [apply handle_changes_wf|]; by apply int_pre_wf.
Qed.

Lemma socIcInt_settled ic n raise :
  0 <= n < 64 -> ic_wf ic -> ic_settled ic -> ic_settled (socIcInt ic n raise).
Proof.
  intros Hn Hw Hs. rewrite socIcInt_unfold.
  destruct (Z.eqb_spec (icpr_int ic.(ICPR) n raise).[n / 32] ic.(ICPR).[n / 32]) as [E1|];
    cbn [negb]; [|by apply handle_changes_settled, int_pre_wf].
  assert (icpr_int ic.(ICPR) n raise = ic.(ICPR)) as E2.
  { destruct Hw as [_ _ [Hl _] _]. destruct (src_index n Hn).
    revert E1. unfold icpr_int. rewrite aget_aset_eq by lia. intros ->. apply aset_same. }
  unfold ic_settled, irq_asserted, fiq_asserted, int_pre in *. destruct ic; cbn in *.
  by rewrite E2.
Qed.
End Int.

(** ** Register accesses *)

(** An access changes nothing, or stores to a register and recomputes the lines. *)
Definition stores {E} `{CpuIrqPort E} (ic ic' : SocIc E) : Prop :=
  ic' = ic \/ exists ic1, ic' = socIcPrvHandleChanges ic1 /\ ic_wf ic1 /\
    ic1.(ic_env) = ic.(ic_env) /\ ic1.(ICPR) = ic.(ICPR) /\ ic1.(wasIrq) = ic.(wasIrq) /\
    ic1.(wasFiq) = ic.(wasFiq) /\ ic1.(gen2) = ic.(gen2).

Section Accesses.
Context {E : Type} `{CpuIrqPort E}.

Lemma stores_refl (ic : SocIc E) : stores ic ic.
Proof. by left. Qed.

Lemma stores_changes (ic ic1 : SocIc E) :
  ic_wf ic1 -> ic1.(ic_env) = ic.(ic_env) -> ic1.(ICPR) = ic.(ICPR) ->
  ic1.(wasIrq) = ic.(wasIrq) -> ic1.(wasFiq) = ic.(wasFiq) -> ic1.(gen2) = ic.(gen2) ->
  stores ic (socIcPrvHandleChanges ic1).
Proof. right. by exists ic1. Qed.

Lemma prio_wf_aset (p : list Z) i v :
  length p = 40%nat /\ Forall (is_u 8) p ->
  length (aset p i (u8 v)) = 40%nat /\ Forall (is_u 8) (aset p i (u8 v)).
Proof. intros []. rewrite length_aset. split; [done|]. eauto with uarm. Qed.

Hint Resolve prio_wf_aset stores_refl : uarm.

Lemma mem_access_stores (ic : SocIc E) pa size write buf ok buf' ic' :
  ic_wf ic -> is_u 32 buf ->
  socIcPrvMemAccessF ic pa size write buf = (ok, buf', ic') -> stores ic ic'.
Proof.
  intros [] Hb. unfold socIcPrvMemAccessF.
  destruct (negb (size =? 4)); [by intros [= _ _ <-]; auto with uarm|].
  set (pa' := u32 (pa - PXA_IC_BASE) .>> 2). clearbody pa'.
  destruct ic as [e mr lr pr cr p wi wf g], write; cbn -[socIcPrvHandleChanges] in *;
    repeat case_match; intros [= _ _ <-]; auto with uarm;
    apply stores_changes; cbn; try done; constructor; cbn; auto with uarm.
Qed.

End Accesses.

(** ** The highest-priority register *)

(** What ICHP promises: for each of IRQ and FIQ, the peripheral of the first
    valid slot of the priority list whose interrupt is asserted. *)
Definition slot_asserts (asserted : Z -> bool) (p : Z) : bool :=
  tst p 0x80 && asserted (p .& 0x3f).

Definition first_slot (asserted : Z -> bool) (slots : list Z) : option Z :=
  (λ p, p .& 0x3f) <$> List.find (slot_asserts asserted) slots.

(** A 16-bit half of ICHP: valid bit and peripheral number. *)
Definition ichp_half (o : option Z) : Z :=
  match o with Some p => 0x8000 .| p | None => 0x1f end.

Definition ichp (irq fiq : option Z) : Z := (ichp_half irq .<< 16) .| ichp_half fiq.

(** One slot of the loop of [socIcPrvCalcHighestPrio], abstractly. *)
Definition ichp_step (found : option Z) (asserts : bool) (p : Z) : option Z :=
  match found with Some _ => found | None => if asserts then Some p else None end.

Lemma first_slot_fold asserted slots found :
  fold_left (λ f p, ichp_step f (slot_asserts asserted p) (p .& 0x3f)) slots found =
  match found with Some _ => found | None => first_slot asserted slots end.
Proof.
  unfold first_slot. revert found. induction slots as [|p slots IH]; intros found; cbn.
  - by destruct found.
  - rewrite IH. destruct found; cbn; [done|]. by destruct (slot_asserts asserted p).
Qed.

Definition periph_opts : list (option Z) := None :: (Some <$> (Z.of_nat <$> seq 0 64)).

Definition has (o : option Z) : bool := match o with Some _ => true | None => false end.

Definition periph_ok (o : option Z) : Prop := match o with Some p => 0 <= p < 64 | None => True end.

Lemma periph_opts_spec o : periph_ok o -> o ∈ periph_opts.
Proof.
  destruct o as [p|]; cbn; [|by left]. intros Hp. right.
  apply list_elem_of_fmap. exists p. split; [done|]. apply list_elem_of_fmap.
  exists (Z.to_nat p). rewrite elem_of_seq. lia.
Qed.

Lemma periph_ok_step f b p : periph_ok f -> 0 <= p < 64 -> periph_ok (ichp_step f b p).
Proof. by destruct f, b. Qed.

(** The three facts about the packed word the loop relies on, by enumeration. *)
Lemma ichp_enum :
  Forall (λ a, Forall (λ b,
    tst (ichp a b) 0x80000000 = has a /\ tst (ichp a b) 0x8000 = has b) periph_opts)
    periph_opts /\
  Forall (λ b, Forall (λ p,
    (((ichp None b .| 0x80000000) .&~ 0x001f0000) .| (p .<< 16) = ichp (Some p) b) /\
    (((ichp b None .| 0x8000) .&~ 0x001f) .| p = ichp b (Some p)))
    (Z.of_nat <$> seq 0 64)) periph_opts.
Proof. split; apply (bool_decide_unpack _); vm_compute; exact I. Qed.

Lemma ichp_flags a b :
  periph_ok a -> periph_ok b ->
  tst (ichp a b) 0x80000000 = has a /\ tst (ichp a b) 0x8000 = has b.
Proof.
  intros Ha Hb. destruct ichp_enum as [H _].
  rewrite Forall_forall in H. specialize (H a (periph_opts_spec a Ha)).
  rewrite Forall_forall in H. exact (H b (periph_opts_spec b Hb)).
Qed.

Lemma ichp_set b p :
  periph_ok b -> 0 <= p < 64 ->
  ((ichp None b .| 0x80000000) .&~ 0x001f0000) .| (p .<< 16) = ichp (Some p) b /\
  ((ichp b None .| 0x8000) .&~ 0x001f) .| p = ichp b (Some p).
Proof.
  intros Hb Hp. destruct ichp_enum as [_ H].
  rewrite Forall_forall in H. specialize (H b (periph_opts_spec b Hb)).
  rewrite Forall_forall in H. apply H. apply list_elem_of_fmap.
  exists (Z.to_nat p). rewrite elem_of_seq. lia.
Qed.

Lemma land_0x3f p : 0 <= p .& 0x3f < 64.
Proof. change 0x3f with (Z.ones 6). rewrite Z.land_ones by lia. by apply Z.mod_pos_bound. Qed.

Lemma highest_prio_slot {E} (ic : SocIc E) a b p :
  periph_ok a -> periph_ok b ->
  highestPrioSlot ic (ichp a b) p =
  ichp (ichp_step a (slot_asserts (irq_asserted ic) p) (p .& 0x3f))
       (ichp_step b (slot_asserts (fiq_asserted ic) p) (p .& 0x3f)).
Proof.
  intros Ha Hb. unfold highestPrioSlot, slot_asserts.
  pose proof (land_0x3f p) as Hp. set (q := p .& 0x3f) in *.
  destruct (tst p 0x80); cbn [negb andb]; [|by destruct a, b].
  destruct (src_index q Hp) as [_ ?].
  rewrite !nz_shiftr_1, Z.ldiff_spec, !Z.land_spec by lia.
  fold (src_bit ic.(ICPR) q) (src_bit ic.(ICMR) q) (src_bit ic.(ICLR) q).
  fold (irq_asserted ic q) (fiq_asserted ic q).
  rewrite (proj1 (ichp_flags a b Ha Hb)).
  assert ((if negb (has a) && irq_asserted ic q
    then ((ichp a b .| 0x80000000) .&~ 0x001f0000) .| (q .<< 16) else ichp a b)
    = ichp (ichp_step a (irq_asserted ic q) q) b) as ->.
  { destruct a, (irq_asserted ic q); cbn [has negb andb ichp_step]; try done.
    by apply ichp_set. }
  set (a' := ichp_step a _ q). assert (periph_ok a') as Ha' by by apply periph_ok_step.
  rewrite (proj2 (ichp_flags a' b Ha' Hb)).
  destruct b, (fiq_asserted ic q); cbn [has negb andb ichp_step]; try done.
  by apply (ichp_set a' q).
Qed.

Lemma highest_prio_fold {E} (ic : SocIc E) slots a b :
  periph_ok a -> periph_ok b ->
  fold_left (highestPrioSlot ic) slots (ichp a b) =
  ichp (fold_left (λ f p, ichp_step f (slot_asserts (irq_asserted ic) p) (p .& 0x3f)) slots a)
       (fold_left (λ f p, ichp_step f (slot_asserts (fiq_asserted ic) p) (p .& 0x3f)) slots b).
Proof.
  revert a b. induction slots as [|p slots IH]; intros a b Ha Hb; [done|].
  cbn [fold_left]. rewrite highest_prio_slot by done.
  apply IH; by apply periph_ok_step, land_0x3f.
Qed.

(** ** Coprocessor 6 *)

Lemma coproc_stores {E} `{CpuIrqPort E} `{CpuRegPort E} (ic ic' : SocIc E)
    two MRC op1 Rx CRn CRm op2 :
  ic_wf ic -> is_u 32 (cpu_get_reg ic.(ic_env) Rx) ->
  pxa270icPrvCoprocAccess ic two MRC op1 Rx CRn CRm op2 = Some ic' ->
  if MRC then exists v, ic' = { ic with ic_env ::= fun e => cpu_set_reg e Rx v }
  else stores ic ic'.
Proof.
  intros [] Hb. unfold pxa270icPrvCoprocAccess.
  destruct (_ || two); [done|].
  destruct ic as [e mr lr pr cr p wi wf g], MRC; cbn -[socIcPrvHandleChanges] in *;
    repeat case_match; intros [= <-]; eauto;
    apply stores_changes; cbn; try done; constructor; cbn; auto with uarm.
Qed.

(** ** The controller as the [IrqSink] of every device *)

Record IcWorld (E : Type) := mkIcWorld { iw_ic : SocIc E; iw_wf : ic_wf iw_ic }.
Arguments mkIcWorld {E}.
Arguments iw_ic {E}.
Arguments iw_wf {E}.

Definition iw_int {E} `{CpuIrqPort E} `{SocWakePort E} (w : IcWorld E) (n : Z) (b : bool)
  : IcWorld E :=
  match decide (0 <= n < 64) with
  | left Hn => mkIcWorld (socIcInt (iw_ic w) n b) (socIcInt_wf _ n b Hn (iw_wf w))
  | right _ => w
  end.

#[export, program] Instance ic_irq_sink {E} `{CpuIrqPort E} `{SocWakePort E}
  : IrqSink (IcWorld E) := {|
  irq_int := iw_int;
  irq_pending w n := src_bit (iw_ic w).(ICPR) n
|}.
Next Obligation.
  intros E ? ? w n b m Hn Hm. unfold iw_int. destruct (decide _); [|done]; cbn.
  destruct (socIcInt_regs (iw_ic w) n b) as [-> _].
  apply src_bit_int; [done..|]. apply (iw_wf w).
Qed.

(** ** Every run of the controller *)

(** What can happen to the controller: a device drives its line, the CPU
    accesses a register over the bus or through coprocessor 6 (its registers
    hold 32-bit values), and the CPU and the rest of the SoC run without
    touching the CPU's interrupt counts. *)
Inductive ic_step (ic : SocIc SoC) : SocIc SoC -> Prop :=
| ic_step_int n raise : 0 <= n < 64 -> ic_step ic (socIcInt ic n raise)
| ic_step_bus pa size write buf ok buf' ic' :
    is_u 32 buf -> socIcPrvMemAccessF ic pa size write buf = (ok, buf', ic') -> ic_step ic ic'
| ic_step_cp two MRC op1 Rx CRn CRm op2 ic' :
    is_u 32 (cpu_get_reg ic.(ic_env) Rx) ->
    pxa270icPrvCoprocAccess ic two MRC op1 Rx CRn CRm op2 = Some ic' -> ic_step ic ic'
| ic_step_soc soc :
    soc.(soc_cpu).(waitingIrqs) = ic.(ic_env).(soc_cpu).(waitingIrqs) ->
    soc.(soc_cpu).(waitingFiqs) = ic.(ic_env).(soc_cpu).(waitingFiqs) ->
    ic_step ic { ic with ic_env := soc }.

Definition ic_inv (ic : SocIc SoC) : Prop := ic_wf ic /\ ic_settled ic /\ cpu_agrees ic.

Lemma stores_inv (ic ic' : SocIc SoC) : stores ic ic' -> ic_inv ic -> ic_inv ic'.
Proof.
  intros [->|(ic1 & -> & Hwf & He & _ & Hi & Hf & _)] Hinv; [done|].
  split; [by apply handle_changes_wf|]. split; [by apply handle_changes_settled|].
  apply handle_changes_cpu. destruct Hinv as (_ & _ & Ha).
  unfold cpu_agrees in *. by rewrite He, Hi, Hf.
Qed.

Lemma env_inv (ic : SocIc SoC) (soc : SoC) :
  soc.(soc_cpu).(waitingIrqs) = ic.(ic_env).(soc_cpu).(waitingIrqs) ->
  soc.(soc_cpu).(waitingFiqs) = ic.(ic_env).(soc_cpu).(waitingFiqs) ->
  ic_inv ic -> ic_inv { ic with ic_env := soc }.
Proof.
  intros Hi Hf ([] & Hs & Ha). destruct ic. split; [by constructor|]. split; [exact Hs|].
  unfold cpu_agrees in *; cbn in *. destruct Ha as [<- <-]. done.
Qed.

Lemma ic_step_inv ic ic' : ic_step ic ic' -> ic_inv ic -> ic_inv ic'.
Proof.
  intros Hstep Hinv. pose proof Hinv as (Hwf & Hs & Ha).
  destruct Hstep as [n raise Hn|pa size write buf ok buf' ic' Hb Hacc
    |two MRC op1 Rx CRn CRm op2 ic' Hb Hcp|soc Hi Hf].
  - split; [by apply socIcInt_wf|]. split; [by apply socIcInt_settled|].
    rewrite socIcInt_unfold.
    assert (cpu_agrees (int_pre ic n raise)) as Hpre.
    { unfold cpu_agrees, int_pre in *. destruct ic as [e]; cbn in *.
      destruct (raise && _); [|done]. by destruct e as [? [] ?]. }
    destruct (negb _); [by apply handle_changes_cpu|done].
  - eapply stores_inv, Hinv. by eapply mem_access_stores.
  - pose proof (coproc_stores _ _ _ _ _ _ _ _ _ Hwf Hb Hcp) as Hc.
    destruct MRC; [|by eapply stores_inv].
    destruct Hc as [v ->]. destruct ic as [e]; cbn.
    apply (env_inv (mkSocIc e _ _ _ _ _ _ _ _)); [..|done];
      destruct e as [[]]; unfold cpuSetReg, cpuPrvSetReg, cpuPrvSetPC; cbn; by destruct (_ =? _).
  - by apply env_inv.
Qed.

Lemma ic_init_inv soc rev :
  soc.(soc_cpu).(waitingIrqs) = 0 -> soc.(soc_cpu).(waitingFiqs) = 0 ->
  ic_inv (socIcInit soc rev).
Proof.
  intros Hi Hf.
  assert (bank_wf [0; 0]) as Hb by (split; [done|]; repeat constructor; done).
  assert (forall n, 0 <= n < 64 -> src_bit [0; 0] n = false) as Hz.
  { intros n Hn. destruct (src_index n Hn). unfold src_bit.
    assert (n / 32 = 0 \/ n / 32 = 1) as [->| ->] by lia; apply Z.testbit_0_l. }
  split; [|split; [|done]].
  - constructor; try done. split; [done|]. cbn. repeat constructor; done.
  - unfold ic_settled, irq_asserted, fiq_asserted; cbn.
    split; (split; [done|]); intros (n & Hn & E); by rewrite Hz in E.
Qed.

Lemma ic_run_inv ic0 ic : rtc ic_step ic0 ic -> ic_inv ic0 -> ic_inv ic.
Proof. induction 1; eauto using ic_step_inv. Qed.

(** C1. In every state the controller reaches from reset, by any sequence of
    device lines, register accesses and activity of the rest of the SoC, the
    CPU has exactly one IRQ (FIQ) raised when some source is pending, enabled
    and routed to IRQ (FIQ), and none otherwise: no request is lost, counted
    twice or left standing. *)
Theorem ic_cpu_inputs_exact (soc : SoC) (rev : Z) (ic : SocIc SoC)
    (Hirq : soc.(soc_cpu).(waitingIrqs) = 0) (Hfiq : soc.(soc_cpu).(waitingFiqs) = 0)
    (Hrun : rtc ic_step (socIcInit soc rev) ic) :
  let cpu := ic.(ic_env).(soc_cpu) in
  (cpu.(waitingIrqs) = 1 /\ (exists n, 0 <= n < 64 /\ irq_asserted ic n = true) \/
   cpu.(waitingIrqs) = 0 /\ ~ (exists n, 0 <= n < 64 /\ irq_asserted ic n = true)) /\
  (cpu.(waitingFiqs) = 1 /\ (exists n, 0 <= n < 64 /\ fiq_asserted ic n = true) \/
   cpu.(waitingFiqs) = 0 /\ ~ (exists n, 0 <= n < 64 /\ fiq_asserted ic n = true)).
Proof.
  destruct (ic_run_inv _ _ Hrun (ic_init_inv soc rev Hirq Hfiq)) as (_ & [Hi Hf] & [Ei Ef]).
  cbn zeta. rewrite <- Hi, <- Hf, Ei, Ef.
  destruct (wasIrq ic), (wasFiq ic); cbn; intuition congruence.
Qed.

(** Raising source 26 after unmasking it, on a first-generation part. *)
Lemma ic_cpu_inputs_exact_witness :
  let ic0 := socIcInit soc_reset 0 in
  let ic1 := snd (socIcPrvMemAccessF ic0 0x40D00004 4 true 0x04000000) in
  let ic2 := socIcInt ic1 26 true in
  ic2.(ic_env).(soc_cpu).(waitingIrqs) = 1 /\
  (ic2.(ic_env).(soc_cpu).(waitingIrqs) = 1 /\ (exists n, 0 <= n < 64 /\ irq_asserted ic2 n = true) \/
   ic2.(ic_env).(soc_cpu).(waitingIrqs) = 0 /\ ~ (exists n, 0 <= n < 64 /\ irq_asserted ic2 n = true)).
Proof.
  intros ic0 ic1 ic2. split; [reflexivity|].
  apply (ic_cpu_inputs_exact soc_reset 0 ic2); [reflexivity..|].
  apply rtc_l with ic1.
  - apply (ic_step_bus _ 0x40D00004 4 true 0x04000000 true 0x04000000); [|reflexivity].
    split; [lia|reflexivity].
  - apply rtc_once. apply ic_step_int. lia.
Defined.

(** The highest-priority register: the loop over the priority slots finds,
    for IRQ and for FIQ, the first valid slot whose peripheral's interrupt is
    asserted, packs its number with the valid bit, and reads 0x1f when there
    is none. *)
Theorem highest_prio_first_slot (ic : SocIc SoC) :
  socIcPrvCalcHighestPrio ic =
  ichp (first_slot (irq_asserted ic) ic.(prio)) (first_slot (fiq_asserted ic) ic.(prio)).
Proof.
  pose proof (first_slot_fold (irq_asserted ic) ic.(prio) None) as Hi.
  pose proof (first_slot_fold (fiq_asserted ic) ic.(prio) None) as Hf.
  cbn in Hi, Hf. rewrite <- Hi, <- Hf.
  by apply (highest_prio_fold ic ic.(prio) None None).
Qed.

Lemma handle_changes_sleep (ic : SocIc SoC) :
  (socIcPrvHandleChanges ic).(ic_env).(soc_sleeping) = ic.(ic_env).(soc_sleeping) /\
  (sleep_agrees ic.(ic_env) -> sleep_agrees (socIcPrvHandleChanges ic).(ic_env)).
Proof.
  destruct ic as [e mr lr pr cr p wi wf g]. unfold socIcPrvHandleChanges; cbn [fold_left].
  set (nowIrq := _ || nz _). set (nowFiq := _ || tst _ _). clearbody nowIrq nowFiq.
  cbn -[cpu_irq]. destruct (Bool.eqb nowFiq wf), (Bool.eqb nowIrq wi); split; try done;
    intros He; repeat apply sleep_agrees_irq; exact He.
Qed.

Lemma int_pre_sleep (ic : SocIc SoC) n raise :
  0 <= n < 64 ->
  (int_pre ic n raise).(ic_env).(soc_sleeping) =
    ic.(ic_env).(soc_sleeping) &&
    negb (raise && (negb (Z.testbit ic.(ICCR) 0) || src_bit ic.(ICMR) n)) /\
  (sleep_agrees ic.(ic_env) -> sleep_agrees (int_pre ic n raise).(ic_env)).
Proof.
  intros Hn. destruct (src_index n Hn) as [_ ?].
  assert ((ic.(ICCR) .& 0x01 =? 0) = negb (Z.testbit ic.(ICCR) 0)) as Hc.
  { rewrite <- (tst_bit ic.(ICCR) 0) by done. unfold tst. by rewrite negb_involutive. }
  unfold int_pre. rewrite Hc, Z.shiftl_1_l, tst_bit by lia. clear Hc.
  fold (src_bit ic.(ICMR) n). set (c := raise && _). clearbody c.
  destruct ic as [e]; cbn. destruct c; [|by rewrite andb_true_r].
  split; [by destruct e as [? [] ?]|]. apply sleep_agrees_wakeup.
Qed.

(** Wake-up: on a sleeping SoC, [socIcInt] wakes the CPU exactly when it
    raises a line that is unmasked, or any line when the control register does
    not restrict wake-ups; and the SoC and its CPU stay in agreement. *)
Theorem ic_wakeup_exact (ic : SocIc SoC) (n : Z) (raise : bool)
    (Hn : 0 <= n < 64) (Hagree : sleep_agrees ic.(ic_env)) :
  let ic' := socIcInt ic n raise in
  ic'.(ic_env).(soc_sleeping) =
    ic.(ic_env).(soc_sleeping) &&
    negb (raise && (negb (Z.testbit ic.(ICCR) 0) || src_bit ic.(ICMR) n)) /\
  ic'.(ic_env).(soc_cpu).(sleeping) = ic'.(ic_env).(soc_sleeping).
Proof.
  cbv zeta. rewrite socIcInt_unfold. destruct (int_pre_sleep ic n raise Hn) as [<- Ha].
  destruct (handle_changes_sleep (int_pre ic n raise)) as [E1 E2].
  unfold sleep_agrees in *. destruct (negb _).
  - split; [done|]. symmetry. auto.
  - split; [done|]. symmetry. auto.
Qed.

(** Control bit set, source 3 masked: the CPU sleeps on; source 2 wakes it. *)
Lemma ic_wakeup_exact_witness :
  let ic := mkSocIc (socSleep soc_reset 100) [4; 0] [0; 0] [0; 0] 1 (replicate 40 0)
              false false true in
  (socIcInt ic 3 true).(ic_env).(soc_sleeping) = true /\
  (socIcInt ic 2 true).(ic_env).(soc_sleeping) = false.
Proof.
  intros ic. split.
  - rewrite (proj1 (ic_wakeup_exact ic 3 true ltac:(lia) eq_refl)). reflexivity.
  - rewrite (proj1 (ic_wakeup_exact ic 2 true ltac:(lia) eq_refl)). reflexivity.
Defined.
