(* ===== verification/Timer.v ===== *)
(** * The OS timer (pxa_TIMR.c)

    Four match registers against one free-running counter. The scheduler
    advances the counter in batches; the theorems relate a batch to the single
    ticks it stands for, and the sleep time it computes to the next match. *)

From stdpp Require Import relations.
From S2P Require Import Prelude Interfaces.

Definition PXA_TIMR_BASE := 0x40A00000.

Record PxaTimr (W : Type) := mkPxaTimr {
  ic : W;          (* struct SocIc * *)
  OSMR : list Z;   (* uint32_t[4]: match registers *)
  OSCR : Z;        (* uint32_t: counter *)
  OIER : Z;        (* uint8_t: interrupt enable *)
  OWER : Z;        (* uint8_t: watchdog enable *)
  OSSR : Z         (* uint8_t: status *)
}.
Arguments mkPxaTimr {W}.
Arguments ic {W}.
Arguments OSMR {W}.
Arguments OSCR {W}.
Arguments OIER {W}.
Arguments OWER {W}.
Arguments OSSR {W}.

Section Operations.
Context {W : Type} `{IrqSink W}.

Definition pxaTimrInit (w : W) : PxaTimr W := mkPxaTimr w [0; 0; 0; 0] 0 0 0 0.

(** The four [socIcInt] calls; the argument is [timr->OSSR]. *)
Definition raiseLower (w : W) (ossr : Z) : W :=
  let w := irq_int w PXA_I_TIMR0 (tst ossr 1) in
  let w := irq_int w PXA_I_TIMR1 (tst ossr 2) in
  let w := irq_int w PXA_I_TIMR2 (tst ossr 4) in
  irq_int w PXA_I_TIMR3 (tst ossr 8).

Definition pxaTimrPrvRaiseLowerInts (timr : PxaTimr W) : PxaTimr W :=
  { timr with ic ::= fun w => raiseLower w timr.(OSSR) }.

Definition pxaTimrPrvCheckMatchSingleStep (timr : PxaTimr W) (idx : Z) : outcome (PxaTimr W) :=
  let v := 1 .<< idx in
  if timr.(OSCR) =? timr.(OSMR).[idx] then
    if (idx =? 3) && nz timr.(OWER) then Abort (* "WDT fires" *) else
    Ret (if tst timr.(OIER) v then { timr with OSSR ::= fun s => s .| v } else timr)
  else Ret timr.

Definition pxaTimrPrvCheckMatchMultiStep (oscrOld batchedTicks : Z) (timr : PxaTimr W) (idx : Z)
  : outcome (PxaTimr W) :=
  let v := 1 .<< idx in
  if u32 (timr.(OSMR).[idx] - oscrOld) <=? batchedTicks then
    if (idx =? 3) && nz timr.(OWER) then Abort (* "WDT fires" *) else
    Ret (if tst timr.(OIER) v then { timr with OSSR ::= fun s => s .| v } else timr)
  else Ret timr.

Definition pxaTimrPrvUpdateSingleStep (timr : PxaTimr W) : outcome (PxaTimr W) :=
  timr ← forM [0; 1; 2; 3] pxaTimrPrvCheckMatchSingleStep timr;
  Ret (pxaTimrPrvRaiseLowerInts timr).

Definition pxaTimrPrvUpdateMultiStep (timr : PxaTimr W) (oscrOld batchedTicks : Z)
  : outcome (PxaTimr W) :=
  timr ← forM [0; 1; 2; 3] (pxaTimrPrvCheckMatchMultiStep oscrOld batchedTicks) timr;
  Ret (pxaTimrPrvRaiseLowerInts timr).

Definition pxaTimrPrvMemAccessF (timr : PxaTimr W) (pa size : Z) (write : bool) (buf : Z)
  : outcome (access (PxaTimr W)) :=
  if negb (size =? 4) then Ret (false, buf, timr) else
  let pa := u32 (pa - PXA_TIMR_BASE) .>> 2 in
  if write then
    let val := buf in
    timr ← match pa with
      | 0 | 1 | 2 | 3 =>
          pxaTimrPrvUpdateSingleStep { timr with OSMR ::= fun r => r.[pa <- val] }
      | 4 => Ret { timr with OSCR := val }
      | 5 => pxaTimrPrvUpdateSingleStep { timr with OSSR ::= fun s => s .&~ val }
      | 6 => Ret { timr with OWER := u8 val }
      | 7 => pxaTimrPrvUpdateSingleStep { timr with OIER := u8 val }
      | _ => Ret timr
      end;
    Ret (true, buf, timr)
  else
    let val := match pa with
      | 0 | 1 | 2 | 3 => timr.(OSMR).[pa]
      | 4 => timr.(OSCR)
      | 5 => timr.(OSSR)
      | 6 => timr.(OWER)
      | 7 => timr.(OIER)
      | _ => 0
      end in
    Ret (true, val, timr).

Definition pxaTimrTick (timr : PxaTimr W) (batchedTicks : Z) : outcome (PxaTimr W) :=
  if batchedTicks =? 1 then
    pxaTimrPrvUpdateSingleStep { timr with OSCR ::= fun c => u32 (c + 1) }
  else
    let oscrOld := timr.(OSCR) in
    pxaTimrPrvUpdateMultiStep { timr with OSCR ::= fun c => u32 (c + batchedTicks) }
      oscrOld batchedTicks.

(** The loop of [pxaTimrTicksToNextInterrupt] over [channels], with the
    minimum found so far. *)
Fixpoint ticksToNextLoop (timr : PxaTimr W) (channels : list Z) (ticksToNextInterrupt : Z) : Z :=
  match channels with
  | [] => ticksToNextInterrupt
  | i :: channels =>
      let v := 1 .<< i in
      if negb (tst timr.(OIER) v) then ticksToNextLoop timr channels ticksToNextInterrupt else
      if tst timr.(OSSR) v then 1 else
      let delta := u32 (timr.(OSMR).[i] - timr.(OSCR)) in
      ticksToNextLoop timr channels
        (if (delta <? ticksToNextInterrupt) && nz delta then delta else ticksToNextInterrupt)
  end.

Definition pxaTimrTicksToNextInterrupt (timr : PxaTimr W) : Z :=
  ticksToNextLoop timr [0; 1; 2; 3] 0xffffffff.

End Operations.

(** ** Specification *)

(** The widths of the C fields. *)
Record timr_wf {W} (t : PxaTimr W) : Prop := {
  wf_osmr : length t.(OSMR) = 4%nat /\ Forall (is_u 32) t.(OSMR);
  wf_oscr : is_u 32 t.(OSCR);
  wf_oier : is_u 8 t.(OIER);
  wf_ossr : is_u 8 t.(OSSR)
}.

(** Channel [i] matches between [lo] and [k] ticks from now. *)
Definition matches_within {W} (t : PxaTimr W) (lo k i : Z) : bool :=
  let delta := u32 (t.(OSMR).[i] - t.(OSCR)) in (lo <=? delta) && (delta <=? k).

(** The status register once the channels satisfying [c] have matched. *)
Definition latch (c : Z -> bool) (oier ossr : Z) : Z :=
  fold_left (λ s i, if c i && tst oier (1 .<< i) then s .| (1 .<< i) else s) [0; 1; 2; 3] ossr.

(** A batch of [k] ticks in which the channels satisfying [c] match. *)
Definition advanced {W} `{IrqSink W} (t : PxaTimr W) (c : Z -> bool) (k : Z)
  : outcome (PxaTimr W) :=
  if c 3 && nz t.(OWER) then Abort else
  let ossr := latch c t.(OIER) t.(OSSR) in
  Ret { t with ic ::= fun w => raiseLower w ossr; OSCR := u32 (t.(OSCR) + k); OSSR := ossr }.

(** Same registers, and interrupt lines that cannot be told apart. *)
Definition timr_equiv {W} `{IrqSink W} (t t' : PxaTimr W) : Prop :=
  t.(OSMR) = t'.(OSMR) /\ t.(OSCR) = t'.(OSCR) /\ t.(OIER) = t'.(OIER) /\
  t.(OWER) = t'.(OWER) /\ t.(OSSR) = t'.(OSSR) /\ irq_equiv t.(ic) t'.(ic).

Arguments latch : simpl never.
Arguments matches_within : simpl never.
Arguments raiseLower : simpl never.

Section Lemmas.
Context {W : Type} `{IrqSink W}.
Implicit Types t : PxaTimr W.

Lemma latch_testbit c oier ossr j :
  0 <= j ->
  Z.testbit (latch c oier ossr) j =
  Z.testbit ossr j || ((j <? 4) && c j && Z.testbit oier j).
Proof.
  intros Hj. unfold latch; cbn [fold_left]. rewrite !Z.shiftl_1_l, !tst_bit by lia.
  assert (forall s i (b : bool), 0 <= i ->
    Z.testbit (if b then s .| 2 ^ i else s) j = Z.testbit s j || (b && (i =? j))) as Hor.
  { intros s i b Hi. destruct b; [|by rewrite orb_false_r].
    by rewrite Z.lor_spec, Z.pow2_bits_eqb. }
  rewrite !Hor by lia.
  destruct (Z.ltb_spec j 4) as [Hlt|Hge].
  - assert (j = 0 \/ j = 1 \/ j = 2 \/ j = 3) as [->|[->|[->| ->]]] by lia; cbn;
      by rewrite ?andb_true_r, ?andb_false_r, ?orb_false_r.
  - destruct (Z.eqb_spec 0 j), (Z.eqb_spec 1 j), (Z.eqb_spec 2 j), (Z.eqb_spec 3 j); try lia.
    by rewrite !andb_false_r, !orb_false_r.
Qed.

Lemma latch_is_u c oier ossr : is_u 8 ossr -> is_u 8 (latch c oier ossr).
Proof.
  intros Hs. unfold latch; cbn [fold_left].
  assert (forall s i (b : bool), 0 <= i < 8 -> is_u 8 s ->
    is_u 8 (if b then s .| (1 .<< i) else s)) as Hor.
  { intros s i b Hi Hs'. apply is_u_if; [|done]. apply is_u_lor; [done| |lia].
    rewrite Z.shiftl_1_l. split; [apply Z.pow_nonneg; lia|apply Z.pow_lt_mono_r; lia]. }
  repeat (apply Hor; [lia|]). done.
Qed.

Lemma latch_ext c c' oier ossr :
  (forall i, 0 <= i < 4 -> Z.testbit ossr i = false -> Z.testbit oier i = true -> c i = c' i) ->
  latch c oier ossr = latch c' oier ossr.
Proof.
  intros Hc. apply Z.bits_inj'. intros j Hj. rewrite !latch_testbit by done.
  destruct (Z.ltb_spec j 4); [|done]. specialize (Hc j ltac:(lia)).
  destruct (Z.testbit ossr j), (Z.testbit oier j); cbn; rewrite ?andb_false_r; try done.
  by rewrite Hc.
Qed.

Lemma latch_latch c c' oier ossr :
  latch c' oier (latch c oier ossr) = latch (λ i, c i || c' i) oier ossr.
Proof.
  apply Z.bits_inj'. intros j Hj. rewrite !latch_testbit by done.
  destruct (j <? 4), (c j), (c' j), (Z.testbit ossr j), (Z.testbit oier j); reflexivity.
Qed.

(** The loop over some channels, for a condition that does not depend on the
    field the loop changes. *)
Lemma check_range (check : PxaTimr W -> Z -> outcome (PxaTimr W)) (c : Z -> bool) t :
  (forall s i, check { t with OSSR := s } i =
    if c i then
      if (i =? 3) && nz t.(OWER) then Abort else
      Ret { t with OSSR := if tst t.(OIER) (1 .<< i) then s .| (1 .<< i) else s }
    else Ret { t with OSSR := s }) ->
  forall range s, forM range check { t with OSSR := s } =
    if existsb (λ i, c i && ((i =? 3) && nz t.(OWER))) range then Abort
    else Ret { t with OSSR :=
      fold_left (λ s i, if c i && tst t.(OIER) (1 .<< i) then s .| (1 .<< i) else s) range s }.
Proof.
  intros Hc range. induction range as [|i range IH]; intros s; [done|].
  cbn [forM existsb fold_left]. rewrite Hc.
  destruct (c i); cbn [andb orb mbind outcome_bind]; [|apply IH].
  destruct ((i =? 3) && nz t.(OWER)); cbn [orb mbind outcome_bind]; [done|apply IH].
Qed.

(** The loop over the channels, for a condition that does not depend on the
    fields the loop changes. *)
Lemma check_loop (check : PxaTimr W -> Z -> outcome (PxaTimr W)) (c : Z -> bool) t :
  (forall s i, check { t with OSSR := s } i =
    if c i then
      if (i =? 3) && nz t.(OWER) then Abort else
      Ret { t with OSSR := if tst t.(OIER) (1 .<< i) then s .| (1 .<< i) else s }
    else Ret { t with OSSR := s }) ->
  forM [0; 1; 2; 3] check t =
  if c 3 && nz t.(OWER) then Abort
  else Ret { t with OSSR := latch c t.(OIER) t.(OSSR) }.
Proof.
  intros Hc. pose proof (check_range check c t Hc [0; 1; 2; 3] t.(OSSR)) as E.
  assert ({ t with OSSR := t.(OSSR) } = t) as Et by by destruct t.
  rewrite Et in E. rewrite E. cbn [existsb]. cbn [Z.eqb Pos.eqb andb].
  by rewrite !andb_false_r, orb_false_r.
Qed.

Lemma update_single t :
  pxaTimrPrvUpdateSingleStep t =
  let c i := t.(OSCR) =? t.(OSMR).[i] in
  if c 3 && nz t.(OWER) then Abort else
  let ossr := latch c t.(OIER) t.(OSSR) in
  Ret { t with ic ::= fun w => raiseLower w ossr; OSSR := ossr }.
Proof.
  unfold pxaTimrPrvUpdateSingleStep.
  rewrite (check_loop _ (λ i, t.(OSCR) =? t.(OSMR).[i])).
  - cbn zeta. destruct (_ && nz _); [done|]. by destruct t.
  - intros s i. unfold pxaTimrPrvCheckMatchSingleStep. destruct t; cbn.
    destruct (_ =? _.[i]); [|done]. destruct (_ && _); [done|]. by destruct (tst _ _).
Qed.

Lemma tick_multi t n : n <> 1 -> pxaTimrTick t n = advanced t (matches_within t 0 n) n.
Proof.
  intros Hn. unfold pxaTimrTick. apply Z.eqb_neq in Hn as ->. cbn zeta.
  unfold pxaTimrPrvUpdateMultiStep, advanced.
  rewrite (check_loop _ (matches_within t 0 n)).
  - destruct t; cbn. by destruct (_ && nz _).
  - intros s i. unfold pxaTimrPrvCheckMatchMultiStep, matches_within. destruct t; cbn.
    destruct (wrap_is_u 32 (OSMR0.[i] - OSCR0)); [lia|].
    destruct (Z.leb_spec 0 (u32 (OSMR0.[i] - OSCR0))); [|lia]. cbn [andb].
    destruct (_ <=? _); [|done]. destruct (_ && _); [done|]. by destruct (tst _ _).
Qed.

Lemma latch_ext' c c' oier ossr :
  (forall i, 0 <= i < 4 -> c i = c' i) -> latch c oier ossr = latch c' oier ossr.
Proof. intros E. apply latch_ext. auto. Qed.

Lemma advanced_ext t c c' k : (forall i, 0 <= i < 4 -> c i = c' i) -> advanced t c k = advanced t c' k.
Proof. intros E. unfold advanced. by rewrite (latch_ext' c c'), E by (done || lia). Qed.

Lemma osmr_is_u t i : timr_wf t -> 0 <= i < 4 -> is_u 32 t.(OSMR).[i].
Proof. intros [[Hl Hf] _ _ _] Hi. apply Forall_aget; [done|lia]. Qed.

Lemma tick_single t : timr_wf t -> pxaTimrTick t 1 = advanced t (matches_within t 1 1) 1.
Proof.
  intros Hw. unfold pxaTimrTick. cbn [Z.eqb Pos.eqb]. rewrite update_single.
  assert (forall i, 0 <= i < 4 ->
    (u32 (t.(OSCR) + 1) =? t.(OSMR).[i]) = matches_within t 1 1 i) as E.
  { intros i Hi. apply eq_true_iff_eq. unfold matches_within.
    rewrite andb_true_iff, !Z.leb_le, Z.eqb_eq.
    rewrite u32_sub_add_small; [lia|by apply osmr_is_u|apply Hw|lia]. }
  cbn zeta. destruct t; cbn in *. unfold advanced; cbn. rewrite E by lia.
  by rewrite (latch_ext' _ (matches_within (mkPxaTimr ic0 OSMR0 OSCR0 OIER0 OWER0 OSSR0) 1 1)).
Qed.

Lemma raiseLower_pending w s n :
  0 <= n < 64 ->
  irq_pending (raiseLower w s) n =
  if (26 <=? n) && (n <? 30) then Z.testbit s (n - 26) else irq_pending w n.
Proof.
  intros Hn. unfold raiseLower, PXA_I_TIMR0, PXA_I_TIMR1, PXA_I_TIMR2, PXA_I_TIMR3.
  rewrite !irq_pending_int by lia.
  change (tst s 1) with (tst s (2 ^ 0)). change (tst s 2) with (tst s (2 ^ 1)).
  change (tst s 4) with (tst s (2 ^ 2)). change (tst s 8) with (tst s (2 ^ 3)).
  rewrite !tst_bit by lia.
  destruct (Z.eqb_spec 29 n) as [<-|]; [done|]. destruct (Z.eqb_spec 28 n) as [<-|]; [done|].
  destruct (Z.eqb_spec 27 n) as [<-|]; [done|]. destruct (Z.eqb_spec 26 n) as [<-|]; [done|].
  destruct (Z.leb_spec 26 n), (Z.ltb_spec n 30); (done || lia).
Qed.

#[global] Instance raiseLower_proper : Proper (irq_equiv ==> eq ==> irq_equiv) (@raiseLower W _).
Proof.
  intros w w' Hw s ? <- n Hn. rewrite !raiseLower_pending by done.
  destruct (_ && _); [done|]. by apply Hw.
Qed.

Lemma raiseLower_twice w s s' : irq_equiv (raiseLower (raiseLower w s) s') (raiseLower w s').
Proof. intros n Hn. rewrite !raiseLower_pending by done. by destruct (_ && _). Qed.

#[global] Instance timr_equiv_equivalence : Equivalence (@timr_equiv W _).
Proof.
  split.
  - intros t. unfold timr_equiv. repeat split; done.
  - intros t t' (?&?&?&?&?&?). unfold timr_equiv. repeat split; done.
  - intros t t' t'' (?&?&?&?&?&?) (?&?&?&?&?&?). unfold timr_equiv.
    repeat split; try congruence. by etransitivity.
Qed.

(** A timer step cannot tell equivalent timers apart. *)
Lemma advanced_proper t t' c k :
  timr_equiv t t' -> outcome_rel timr_equiv (advanced t c k) (advanced t' c k).
Proof.
  intros (?&?&?&Hw&?&Hi). unfold advanced. rewrite Hw.
  destruct (_ && _); cbn; [done|]. destruct t, t'; cbn in *; subst.
  unfold timr_equiv; cbn. repeat split; try done. by apply raiseLower_proper.
Qed.

Lemma advanced_wf t c k t' : timr_wf t -> advanced t c k = Ret t' -> timr_wf t'.
Proof.
  intros [H1 H2 H3 H4]. unfold advanced. destruct (_ && _); [done|]. intros [= <-].
  destruct t; cbn in *. constructor; cbn; try done.
  - by apply wrap_is_u.
  - by apply latch_is_u.
Qed.

Lemma u32_sub_step m a k :
  is_u 32 m -> is_u 32 a -> 0 <= k -> k + 1 < 2 ^ 32 ->
  u32 (m - u32 (a + k)) = 1 <-> u32 (m - a) = k + 1.
Proof.
  intros Hm Ha Hk Hk1.
  rewrite <- (u32_sub_add_small (u32 (a + k)) 1 m) by (done || lia || by apply wrap_is_u).
  rewrite u32_add_assoc. apply (u32_sub_add_small a (k + 1) m Hm Ha). lia.
Qed.

Lemma matches_step t t1 k i :
  timr_wf t -> 1 <= k -> k + 1 < 2 ^ 32 -> 0 <= i < 4 ->
  t1.(OSMR) = t.(OSMR) -> t1.(OSCR) = u32 (t.(OSCR) + k) ->
  matches_within t 1 k i || matches_within t1 1 1 i = matches_within t 1 (k + 1) i.
Proof.
  intros Hw Hk Hk1 Hi Hm Hc. pose proof (osmr_is_u t i Hw Hi) as Hmi.
  destruct Hw as [_ Ho _ _]. unfold matches_within. rewrite Hm, Hc.
  apply eq_true_iff_eq. rewrite orb_true_iff, !andb_true_iff, !Z.leb_le.
  pose proof (u32_sub_step t.(OSMR).[i] t.(OSCR) k Hmi Ho ltac:(lia) Hk1). lia.
Qed.

(** One more single tick after [k] of them. *)
Lemma advanced_tick t k :
  timr_wf t -> 1 <= k -> k + 1 < 2 ^ 32 ->
  outcome_rel timr_equiv
    (t1 ← advanced t (matches_within t 1 k) k; pxaTimrTick t1 1)
    (advanced t (matches_within t 1 (k + 1)) (k + 1)).
Proof.
  intros Hw Hk Hk1.
  destruct (advanced t (matches_within t 1 k) k) as [t1| | |] eqn:E1; unfold mbind, outcome_bind.
  - rewrite tick_single by (by eapply advanced_wf).
    unfold advanced in E1. destruct (_ && _) eqn:Ea in E1; [done|].
    assert (t1.(OSMR) = t.(OSMR)) as Hm by (by injection E1 as <-; destruct t).
    assert (t1.(OSCR) = u32 (t.(OSCR) + k)) as Hc by (by injection E1 as <-; destruct t).
    pose proof (matches_step t t1 k 3 Hw Hk Hk1 ltac:(lia) Hm Hc) as H3.
    pose proof (latch_latch (matches_within t 1 k) (matches_within t1 1 1) t.(OIER) t.(OSSR)) as Hl.
    rewrite (latch_ext' (λ i, matches_within t 1 k i || matches_within t1 1 1 i)
      (matches_within t 1 (k + 1))) in Hl
      by (intros; by apply matches_step).
    unfold advanced. rewrite <- H3, andb_orb_distrib_l, Ea, orb_false_l, <- Hl.
    clear Ea H3 Hl. assert (t1.(OWER) = t.(OWER)) as -> by (by injection E1 as <-; destruct t).
    destruct (matches_within t1 1 1 3 && nz t.(OWER)); [done|].
    injection E1 as <-. destruct t; cbn.
    unfold timr_equiv; cbn. rewrite u32_add_assoc.
    do 5 (split; [done|]). apply raiseLower_twice.
  - unfold advanced in *. destruct (_ && _) eqn:Ea in E1; [|done].
    apply andb_true_iff in Ea as [Ea1 Ea2]. rewrite Ea2, andb_true_r.
    assert (matches_within t 1 (k + 1) 3 = true) as ->; [|done].
    revert Ea1. unfold matches_within. rewrite !andb_true_iff, !Z.leb_le. lia.
  - unfold advanced in E1. by destruct (_ && _) in E1.
  - unfold advanced in E1. by destruct (_ && _) in E1.
Qed.

Lemma tick_proper t t' :
  timr_wf t -> timr_equiv t t' -> outcome_rel timr_equiv (pxaTimrTick t 1) (pxaTimrTick t' 1).
Proof.
  intros Hw He. assert (timr_wf t') as Hw'.
  { destruct He as (E1&E2&E3&E4&E5&_), Hw as [? ? ? ?].
    constructor; by rewrite <- ?E1, <- ?E2, <- ?E3, <- ?E5. }
  rewrite !tick_single by done.
  assert (matches_within t' 1 1 = matches_within t 1 1) as ->.
  { unfold matches_within. by destruct He as (-> & -> & _). }
  by apply advanced_proper.
Qed.

(** [k] single ticks, in closed form. *)
Lemma single_ticks t (k : nat) :
  timr_wf t -> Z.of_nat (S k) < 2 ^ 32 ->
  outcome_rel timr_equiv (iterM (S k) (λ t, pxaTimrTick t 1) t)
    (advanced t (matches_within t 1 (Z.of_nat (S k))) (Z.of_nat (S k))).
Proof.
  intros Hw. induction k as [|k IH]; intros Hk.
  - cbn [iterM]. rewrite tick_single by done. change (Z.of_nat 1) with 1.
    by destruct (advanced t _ 1).
  - rewrite iterM_S. replace (Z.of_nat (S (S k))) with (Z.of_nat (S k) + 1) by lia.
    etransitivity; [|apply advanced_tick; (done || lia)].
    specialize (IH ltac:(lia)).
    destruct (iterM (S k) _ t) as [t1| | |] eqn:E1,
      (advanced t (matches_within t 1 (Z.of_nat (S k))) (Z.of_nat (S k))) as [t2| | |] eqn:E2;
      try done; cbn [mbind outcome_bind] in *.
    symmetry. apply tick_proper; [by eapply advanced_wf|by symmetry].
Qed.

(** What the search for the next match finds. *)
Lemma ticks_loop_spec t channels m :
  timr_wf t -> Forall (λ i, 0 <= i < 4) channels ->
  let n := ticksToNextLoop t channels m in
  let due i := u32 (t.(OSMR).[i] - t.(OSCR)) in
  (n = 1 /\ exists i, 0 <= i < 4 /\ Z.testbit t.(OIER) i = true /\ Z.testbit t.(OSSR) i = true) \/
  (n <= m /\ Forall (λ i, Z.testbit t.(OIER) i = true -> due i = 0 \/ n <= due i) channels /\
   (n = m \/ exists i, 0 <= i < 4 /\ Z.testbit t.(OIER) i = true /\ due i = n /\ 1 <= n)).
Proof.
  intros Hw Hch n due. subst n. revert m. induction Hch as [|i channels Hi Hch IH]; intros m.
  { right. cbn. split; [lia|]. auto. }
  cbn [ticksToNextLoop]. rewrite Z.shiftl_1_l, !tst_bit by lia.
  destruct (Z.testbit t.(OIER) i) eqn:En; cbn [negb].
  2:{ destruct (IH m) as [?|(? & ? & ?)]; [by left|right].
      split; [done|]. split; [|done]. constructor; [congruence|done]. }
  destruct (Z.testbit t.(OSSR) i) eqn:Es; [left; eauto|].
  fold (due i). pose proof (wrap_is_u 32 (t.(OSMR).[i] - t.(OSCR)) ltac:(lia)) as Hd.
  fold (due i) in Hd. unfold is_u in Hd.
  set (m' := if (due i <? m) && nz (due i) then due i else m).
  assert (m' <= m /\ (due i = 0 \/ m' <= due i) /\ (m' = m \/ m' = due i /\ 1 <= m')) as (H1&H2&H3).
  { subst m'. unfold nz. destruct (Z.ltb_spec (due i) m), (Z.eqb_spec (due i) 0); cbn; lia. }
  clearbody m'. destruct (IH m') as [?|(Hn1 & Hn2 & Hn3)]; [by left|right].
  split; [lia|]. split.
  - constructor; [lia|done].
  - destruct Hn3 as [->|?]; [|by right].
    destruct H3 as [->|[E ?]]; [by left|]. right. exists i. do 2 (split; [done|]). lia.
Qed.

Lemma iter_ticks_ret t (k : nat) :
  timr_wf t -> t.(OWER) = 0 -> Z.of_nat k < 2 ^ 32 ->
  exists t' : PxaTimr W, iterM k (λ t, pxaTimrTick t 1) t = Ret t' /\
    t'.(OSSR) = (if (k =? 0)%nat then t.(OSSR)
                 else latch (matches_within t 1 (Z.of_nat k)) t.(OIER) t.(OSSR)).
Proof.
  intros Hw Hwd Hk. destruct k as [|k]; [by exists t|].
  pose proof (single_ticks t k Hw Hk) as Hs. unfold advanced in Hs.
  rewrite Hwd in Hs. rewrite andb_false_r in Hs.
  destruct (iterM (S k) _ t) as [t'| | |]; try done.
  exists t'. split; [done|]. destruct Hs as (_&_&_&_&Hs&_). rewrite Hs. by destruct t.
Qed.

End Lemmas.

(** C17. Batching is sound: advancing the timer by a batch of [n] ticks leaves the
    registers and interrupt lines that [n] single ticks would, and fires the
    watchdog in the same cases, provided no match that is still to be
    reported equals the counter at the start of the batch. *)
Theorem batch_is_single_ticks {W} `{IrqSink W} (t : PxaTimr W) (n : Z)
    (Hwf : timr_wf t) (Hn : 1 <= n < 2 ^ 32)
    (Hnow : forall i, 0 <= i < 4 -> Z.testbit t.(OIER) i = true ->
      Z.testbit t.(OSSR) i = false -> t.(OSMR).[i] <> t.(OSCR))
    (Hwatchdog : t.(OWER) <> 0 -> t.(OSMR).[3] <> t.(OSCR)) :
  outcome_rel timr_equiv (pxaTimrTick t n) (iterM (Z.to_nat n) (λ t, pxaTimrTick t 1) t).
Proof.
  destruct (Z.eq_dec n 1) as [->|Hne].
  { change (Z.to_nat 1) with 1%nat. cbn [iterM]. by destruct (pxaTimrTick t 1). }
  destruct (Z.to_nat n) as [|k] eqn:Ek; [lia|].
  etransitivity; [|symmetry; apply single_ticks; [done|lia]].
  rewrite tick_multi by done. replace (Z.of_nat (S k)) with n by lia.
  assert (forall i, 0 <= i < 4 -> t.(OSMR).[i] <> t.(OSCR) ->
    matches_within t 0 n i = matches_within t 1 n i) as E.
  { intros i Hi Hd. unfold matches_within. apply eq_true_iff_eq.
    rewrite !andb_true_iff, !Z.leb_le. pose proof (wrap_is_u 32 (t.(OSMR).[i] - t.(OSCR))) as Hu.
    unfold is_u in Hu. assert (u32 (t.(OSMR).[i] - t.(OSCR)) <> 0); [|lia].
    rewrite <- (u32_sub_add_small _ 0) by (try apply osmr_is_u; try apply Hwf; done || lia).
    rewrite Z.add_0_r, wrap_small by apply Hwf. congruence. }
  unfold advanced.
  rewrite (latch_ext (matches_within t 0 n) (matches_within t 1 n)) by (intros; apply E; auto).
  assert (matches_within t 0 n 3 && nz t.(OWER) = matches_within t 1 n 3 && nz t.(OWER)) as ->.
  { unfold nz. destruct (Z.eqb_spec t.(OWER) 0); [by rewrite !andb_false_r|].
    by rewrite E by (lia || auto). }
  by destruct (_ && _).
Qed.

Definition demo_timer (osmr0 : Z) : PxaTimr lines := mkPxaTimr idle [osmr0; 0; 0; 0] 5 1 0 0.

Lemma demo_timer_wf osmr0 : is_u 32 osmr0 -> timr_wf (demo_timer osmr0).
Proof.
  intros. constructor; cbn; [|is_u_lit..].
  split; [done|]. forall_list; (done || is_u_lit).
Qed.

Lemma batch_is_single_ticks_witness :
  outcome_rel timr_equiv (pxaTimrTick (demo_timer 8) 6)
    (iterM 6 (λ t, pxaTimrTick t 1) (demo_timer 8)) /\
  (exists t, pxaTimrTick (demo_timer 8) 6 = Ret t /\ t.(OSCR) = 11 /\ t.(OSSR) = 1).
Proof.
  split; [|by eexists].
  apply (batch_is_single_ticks (demo_timer 8) 6); [apply demo_timer_wf; is_u_lit| | |].
  - lia.
  - intros i Hi He _ E. assert (i = 0 \/ i = 1 \/ i = 2 \/ i = 3) as [->|[->|[->| ->]]] by lia;
      vm_compute in He, E; discriminate.
  - cbn. congruence.
Defined.

(** The hypothesis on the starting counter is needed: a match register equal to
    the counter fires at the start of a batch, and not one tick at a time. *)
Lemma batch_refires_current_match :
  ~ outcome_rel timr_equiv (pxaTimrTick (demo_timer 5) 2)
      (iterM 2 (λ t, pxaTimrTick t 1) (demo_timer 5)).
Proof. intros (_ & _ & _ & _ & E & _). discriminate E. Qed.

(** C24. The sleep time is exact: with the watchdog off, for as many ticks as
    [pxaTimrTicksToNextInterrupt] answers no status bit changes before the
    last, and at the last an enabled status bit is set (unless the answer is
    the saturated 2^32-1). Every tick returns. *)
Theorem ticks_to_next_interrupt_exact {W} `{IrqSink W} (t : PxaTimr W)
    (Hwf : timr_wf t) (Hwatchdog : t.(OWER) = 0) :
  let n := pxaTimrTicksToNextInterrupt t in
  let run k := iterM (Z.to_nat k) (λ t, pxaTimrTick t 1) t in
  1 <= n < 2 ^ 32 /\
  (forall k, 0 <= k < n -> exists t' : PxaTimr W, run k = Ret t' /\ t'.(OSSR) = t.(OSSR)) /\
  (n < 0xffffffff ->
   exists (t' : PxaTimr W) i, run n = Ret t' /\ 0 <= i < 4 /\
     Z.testbit t.(OIER) i = true /\ Z.testbit t'.(OSSR) i = true).
Proof.
  intros n run.
  assert (forall k, 0 <= k < 2 ^ 32 -> exists t' : PxaTimr W, run k = Ret t' /\ t'.(OSSR) =
    (if (Z.to_nat k =? 0)%nat then t.(OSSR) else latch (matches_within t 1 k) t.(OIER) t.(OSSR)))
    as Hrun.
  { intros k Hk. destruct (iter_ticks_ret t (Z.to_nat k)) as (t' & E & Hs); [done..|lia|].
    exists t'. split; [done|]. by rewrite Z2Nat.id in Hs by lia. }
  pose proof (ticks_loop_spec t [0; 1; 2; 3] 0xffffffff Hwf ltac:(forall_list; lia)) as Hl.
  cbv zeta in Hl. change (ticksToNextLoop t [0; 1; 2; 3] 0xffffffff) with n in Hl. clearbody n.
  destruct Hl as [[Hn (i & Hi & He & Hs)]|(Hm & Hall & Hex)].
  - rewrite Hn. split; [lia|]. split.
    + intros k Hk. destruct (Hrun k) as (t' & E & Hs'); [lia|]. exists t'. split; [done|].
      by replace k with 0 in Hs' by lia.
    + intros _. destruct (Hrun 1) as (t' & E & Hs'); [lia|]. exists t', i. do 3 (split; [done|]).
      rewrite Hs'. change (Z.to_nat 1 =? 0)%nat with false. cbv iota.
      rewrite latch_testbit by lia. by rewrite Hs.
  - assert (1 <= n) as H1 by (destruct Hex as [->|(i & _ & _ & _ & ?)]; lia).
    split; [lia|]. split.
    + intros k Hk. destruct (Hrun k) as (t' & E & Hs'); [lia|]. exists t'. split; [done|].
      rewrite Hs'. destruct (Z.to_nat k =? 0)%nat; [done|].
      rewrite (latch_ext _ (λ _, false)).
      * apply Z.bits_inj'. intros j Hj. rewrite latch_testbit by done.
        by rewrite andb_false_r, orb_false_r.
      * intros i Hi _ He. rewrite Forall_forall in Hall.
        specialize (Hall i ltac:(repeat (rewrite elem_of_cons); lia) He).
        unfold matches_within. apply andb_false_iff. rewrite !Z.leb_gt. lia.
    + intros Hlt. destruct Hex as [->|(i & Hi & He & Hd & _)]; [lia|].
      destruct (Hrun n) as (t' & E & Hs'); [lia|]. exists t', i. do 3 (split; [done|]).
      rewrite Hs'. destruct (Nat.eqb_spec (Z.to_nat n) 0); [lia|].
      rewrite latch_testbit by lia. unfold matches_within. rewrite Hd, He, Z.leb_refl.
      destruct (Z.leb_spec 1 n), (Z.ltb_spec i 4); lia.
Qed.

Lemma ticks_to_next_interrupt_exact_witness :
  pxaTimrTicksToNextInterrupt (demo_timer 8) = 3 /\
  exists t' i, iterM 3 (λ t, pxaTimrTick t 1) (demo_timer 8) = Ret t' /\ 0 <= i < 4 /\
    Z.testbit 1 i = true /\ Z.testbit t'.(OSSR) i = true.
Proof.
  split; [reflexivity|].
  apply (ticks_to_next_interrupt_exact (demo_timer 8)); [apply demo_timer_wf; is_u_lit|reflexivity|reflexivity].
Defined.

(** ** Every run of the timer *)

(** The scheduler ticks the timer, the CPU accesses it, and the rest of the SoC
    drives interrupt lines other than the timer's. *)
Inductive timr_step {W} `{IrqSink W} (t : PxaTimr W) : PxaTimr W -> Prop :=
| timr_step_tick n t' : pxaTimrTick t n = Ret t' -> timr_step t t'
| timr_step_access pa size write buf ok buf' t' :
    pxaTimrPrvMemAccessF t pa size write buf = Ret (ok, buf', t') -> timr_step t t'
| timr_step_other w :
    (forall n, 26 <= n < 30 -> irq_pending w n = irq_pending t.(ic) n) ->
    timr_step t { t with ic := w }.

Definition timr_lines {W} `{IrqSink W} (t : PxaTimr W) : Prop :=
  forall n, 26 <= n < 30 -> irq_pending t.(ic) n = Z.testbit t.(OSSR) (n - 26).

Lemma raise_lower_lines {W} `{IrqSink W} (t : PxaTimr W) :
  timr_lines (pxaTimrPrvRaiseLowerInts t).
Proof.
  intros n Hn. destruct t; cbn. rewrite raiseLower_pending by lia.
  destruct (Z.leb_spec 26 n), (Z.ltb_spec n 30); (done || lia).
Qed.

Lemma update_lines {W} `{IrqSink W} (m : outcome (PxaTimr W)) t' :
  (t ← m; Ret (pxaTimrPrvRaiseLowerInts t)) = Ret t' -> timr_lines t'.
Proof. destruct m; cbn; try done. intros [= <-]. apply raise_lower_lines. Qed.

Lemma timr_step_lines {W} `{IrqSink W} (t t' : PxaTimr W) :
  timr_step t t' -> timr_lines t -> timr_lines t'.
Proof.
  intros [n t1 Ht|pa size write buf ok buf' t1 Ha|w Hw] Hl.
  - unfold pxaTimrTick in Ht. destruct (n =? 1); by eapply update_lines.
  - unfold pxaTimrPrvMemAccessF in Ha. destruct (negb _); [by injection Ha as _ _ <-|].
    set (pa' := _ .>> 2) in Ha. clearbody pa'. destruct write; [|by injection Ha as _ _ <-].
    match type of Ha with (_ ← ?m; _) = _ => destruct m as [t2| | |] eqn:E end; try done.
    injection Ha as _ _ <-. revert E.
    repeat case_match; intros E; try (by eapply update_lines); injection E as <-; by destruct t.
  - intros n Hn. destruct t; cbn in *. rewrite Hw by done. by apply Hl.
Qed.

(** In every run from reset, interrupt lines 26 to 29 carry status bits 0 to
    3: a match raises its line, acknowledging it lowers the line. *)
Theorem timer_lines_mirror_status {W} `{IrqSink W} (w : W) (t : PxaTimr W)
    (Hreset : forall n, 26 <= n < 30 -> irq_pending w n = false)
    (Hrun : rtc timr_step (pxaTimrInit w) t) :
  forall n, 26 <= n < 30 -> irq_pending t.(ic) n = Z.testbit t.(OSSR) (n - 26).
Proof.
  assert (timr_lines (pxaTimrInit w)) as Hi.
  { intros n Hn. cbn. rewrite Hreset by done. by rewrite Z.testbit_0_l. }
  revert Hi. induction Hrun; [done|]. eauto using timr_step_lines.
Qed.

Lemma timer_lines_mirror_status_witness :
  exists t2, pxaTimrPrvMemAccessF (pxaTimrInit idle) 0x40A0001C 4 true 2 = Ret (true, 2, t2) /\
    t2.(OSSR) = 2 /\ irq_pending t2.(ic) 27 = Z.testbit t2.(OSSR) (27 - 26).
Proof.
  eexists. split; [reflexivity|]. split; [reflexivity|].
  apply (timer_lines_mirror_status idle); [done| |lia].
  apply rtc_once. eapply (timr_step_access _ 0x40A0001C 4 true 2). reflexivity.
Defined.
