(* ===== verification/Rtc.v ===== *)
(** * The real-time clock (pxa_RTC.c) *)

From S2P Require Import Prelude Interfaces.

Definition PXA_RTC_BASE := 0x40900000.

Record PxaRtc (W : Type) := mkPxaRtc {
  ic : W;
  lastSeenTime : Z;   (* uint32_t *)
  RCNR : Z;           (* uint32_t: counter *)
  RTAR : Z;           (* uint32_t: alarm *)
  RTTR : Z;           (* uint32_t: trim *)
  RTSR : Z            (* uint8_t: status *)
}.
Arguments mkPxaRtc {W}.
Arguments ic {W}.
Arguments lastSeenTime {W}.
Arguments RCNR {W}.
Arguments RTAR {W}.
Arguments RTTR {W}.
Arguments RTSR {W}.

Section Operations.
Context {W : Type} `{IrqSink W}.

Definition pxaRtcInit (w : W) : PxaRtc W := mkPxaRtc w 0 0 0 0x7FFF 0.

Definition pxaRtcPrvUpdate (rtc : PxaRtc W) : PxaRtc W :=
  let rtc :=
    if negb (rtc.(lastSeenTime) =? rtc.(RCNR)) then
      let rtc := if tst rtc.(RTSR) 0x4 then { rtc with RTSR ::= fun s => s .| 1 } else rtc in
      let rtc := if tst rtc.(RTSR) 0x8 then { rtc with RTSR ::= fun s => s .| 2 } else rtc in
      { rtc with lastSeenTime := rtc.(RCNR) }
    else rtc in
  let rtc := { rtc with ic ::= fun w => irq_int w PXA_I_RTC_ALM (tst rtc.(RTSR) 1) } in
  { rtc with ic ::= fun w => irq_int w PXA_I_RTC_HZ (tst rtc.(RTSR) 2) }.

Definition pxaRtcPrvMemAccessF (rtc : PxaRtc W) (pa size : Z) (write : bool) (buf : Z)
  : access (PxaRtc W) :=
  if negb (size =? 4) then (false, buf, rtc) else
  let pa := u32 (pa - PXA_RTC_BASE) .>> 2 in
  if write then
    let val := buf in
    let rtc := match pa with
      | 0 => { rtc with RCNR := val }
      | 1 => pxaRtcPrvUpdate { rtc with RTAR := val }
      | 2 => pxaRtcPrvUpdate { rtc with RTSR ::= fun s => u8 ((val .&~ 3) .| ((s .&~ val) .& 3)) }
      | 3 => if negb (tst rtc.(RTTR) 0x80000000) then { rtc with RTTR := val } else rtc
      | _ => rtc
      end in
    (true, buf, rtc)
  else
    let val := match pa with
      | 0 => rtc.(RCNR)
      | 1 => rtc.(RTAR)
      | 2 => rtc.(RTSR)
      | 3 => rtc.(RTTR)
      | _ => 0
      end in
    (true, val, rtc).

Definition pxaRtcTick (rtc : PxaRtc W) : PxaRtc W :=
  pxaRtcPrvUpdate { rtc with RCNR ::= fun c => u32 (c + 1) }.

End Operations.

(** ** Behaviour *)

Definition rtc_lines {W} `{IrqSink W} (rtc : PxaRtc W) : Prop :=
  irq_pending rtc.(ic) PXA_I_RTC_ALM = Z.testbit rtc.(RTSR) 0 /\
  irq_pending rtc.(ic) PXA_I_RTC_HZ = Z.testbit rtc.(RTSR) 1.

(** The status register after the once-a-second check. *)
Definition rtc_check (s : Z) : Z :=
  let s := if Z.testbit s 2 then s .| 1 else s in if Z.testbit s 3 then s .| 2 else s.

Lemma rtc_check_testbit s i :
  0 <= i ->
  Z.testbit (rtc_check s) i =
  Z.testbit s i || ((i =? 0) && Z.testbit s 2) || ((i =? 1) && Z.testbit s 3).
Proof.
  intros Hi. unfold rtc_check. set (s1 := if Z.testbit s 2 then s .| 1 else s).
  assert (forall j, 0 <= j -> Z.testbit s1 j = Z.testbit s j || ((j =? 0) && Z.testbit s 2)) as E1.
  { intros j Hj. subst s1. destruct (Z.testbit s 2); rewrite ?andb_false_r, ?orb_false_r; [|done].
    rewrite Z.lor_spec, (Z.pow2_bits_eqb 0) by done. by rewrite Z.eqb_sym, andb_true_r. }
  rewrite (E1 3) by lia. cbn [Z.eqb Pos.eqb]. rewrite andb_false_l, orb_false_r.
  destruct (Z.testbit s 3); rewrite ?andb_false_r, ?orb_false_r, ?andb_true_r; [|by apply E1].
  rewrite Z.lor_spec, (Z.pow2_bits_eqb 1), E1 by done. f_equal. apply Z.eqb_sym.
Qed.

Lemma rtc_update_spec {W} `{IrqSink W} (rtc : PxaRtc W) :
  let rtc' := pxaRtcPrvUpdate rtc in
  rtc'.(RTSR) = (if rtc.(lastSeenTime) =? rtc.(RCNR) then rtc.(RTSR) else rtc_check rtc.(RTSR)) /\
  rtc'.(lastSeenTime) = rtc.(RCNR) /\ rtc'.(RCNR) = rtc.(RCNR) /\ rtc'.(RTAR) = rtc.(RTAR) /\
  rtc_lines rtc'.
Proof.
  cbv zeta. unfold pxaRtcPrvUpdate, rtc_check, rtc_lines.
  pose proof (tst_bit rtc.(RTSR) 2 ltac:(lia)) as E2. change (2 ^ 2) with 0x4 in E2. rewrite E2.
  set (s1 := if Z.testbit rtc.(RTSR) 2 then rtc.(RTSR) .| 1 else rtc.(RTSR)).
  pose proof (tst_bit s1 3 ltac:(lia)) as E3. change (2 ^ 3) with 8 in E3.
  assert (forall s w, irq_pending (irq_int (irq_int w PXA_I_RTC_ALM (tst s 1)) PXA_I_RTC_HZ (tst s 2))
      PXA_I_RTC_ALM = Z.testbit s 0 /\
    irq_pending (irq_int (irq_int w PXA_I_RTC_ALM (tst s 1)) PXA_I_RTC_HZ (tst s 2))
      PXA_I_RTC_HZ = Z.testbit s 1) as Hl.
  { intros s w. change (tst s 1) with (tst s (2 ^ 0)). change (tst s 2) with (tst s (2 ^ 1)).
    rewrite !tst_bit by lia. unfold PXA_I_RTC_ALM, PXA_I_RTC_HZ.
    split; by rewrite !irq_pending_int by lia. }
  destruct rtc as [w l c a t s]; cbn in *.
  assert ((if Z.testbit s 2 then mkPxaRtc w l c a t (s .| 1) else mkPxaRtc w l c a t s)
    = mkPxaRtc w l c a t s1) as Es by (subst s1; by destruct (Z.testbit s 2)).
  rewrite Es. clearbody s1. cbn. rewrite E3.
  destruct (Z.eqb_spec l c) as [->|]; cbn; [by split_and!; try apply Hl|].
  clear E3. destruct (Z.testbit s1 3); cbn; split_and!; try done; apply Hl.
Qed.

(** The once-a-second events fire at a tick and only there: after any tick the
    1 Hz (alarm) status is set if its enable bit is, both lines carry their
    status bits, and an acknowledge in the same second clears the status and
    the line and is not undone before the next tick. *)
Theorem rtc_tick_then_ack {W} `{IrqSink W} (rtc : PxaRtc W) (val : Z)
    (Hfresh : rtc.(lastSeenTime) = rtc.(RCNR)) (Hcnt : is_u 32 rtc.(RCNR))
    (Hval : Z.testbit val 0 = true /\ Z.testbit val 1 = true) :
  let rtc1 := pxaRtcTick rtc in
  let rtc2 := snd (pxaRtcPrvMemAccessF rtc1 (PXA_RTC_BASE + 8) 4 true val) in
  Z.testbit rtc1.(RTSR) 0 = Z.testbit rtc.(RTSR) 0 || Z.testbit rtc.(RTSR) 2 /\
  Z.testbit rtc1.(RTSR) 1 = Z.testbit rtc.(RTSR) 1 || Z.testbit rtc.(RTSR) 3 /\
  rtc_lines rtc1 /\
  Z.testbit rtc2.(RTSR) 0 = false /\ Z.testbit rtc2.(RTSR) 1 = false /\ rtc_lines rtc2 /\
  rtc2.(lastSeenTime) = rtc2.(RCNR).
Proof.
  intros rtc1 rtc2.
  destruct (rtc_update_spec { rtc with RCNR ::= fun c => u32 (c + 1) }) as (H1 & H2 & H3 & _ & H4).
  fold (pxaRtcTick rtc) in H1, H2, H3, H4. fold rtc1 in H1, H2, H3, H4.
  destruct (rtc_update_spec { rtc1 with RTSR ::= fun s => u8 ((val .&~ 3) .| ((s .&~ val) .& 3)) })
    as (G1 & G2 & G3 & _ & G4).
  change (pxaRtcPrvUpdate { rtc1 with RTSR ::= fun s => u8 ((val .&~ 3) .| ((s .&~ val) .& 3)) })
    with rtc2 in G1, G2, G3, G4.
  clearbody rtc2. clearbody rtc1.
  assert (rtc.(RCNR) <> u32 (rtc.(RCNR) + 1)) as Hne.
  { unfold wrap. destruct Hcnt. destruct (Z.eq_dec (RCNR rtc) (2 ^ 32 - 1)) as [->|].
    - by vm_compute.
    - rewrite Z.mod_small; lia. }
  assert (rtc1.(RTSR) = rtc_check rtc.(RTSR)) as H1'.
  { rewrite H1. destruct rtc; cbn in *; subst. by destruct (Z.eqb_spec RCNR0 (u32 (RCNR0 + 1))). }
  assert (rtc1.(lastSeenTime) = rtc1.(RCNR)) as Hf by (rewrite H2, H3; by destruct rtc).
  assert (rtc2.(RTSR) = u8 ((val .&~ 3) .| ((rtc1.(RTSR) .&~ val) .& 3))) as G1'.
  { rewrite G1. destruct rtc1; cbn in *. by rewrite Hf, Z.eqb_refl. }
  assert (rtc2.(lastSeenTime) = rtc2.(RCNR)) by (by rewrite G2, G3).
  rewrite G1', H1'.
  assert (forall i, i = 0 \/ i = 1 ->
    Z.testbit (u8 ((val .&~ 3) .| ((rtc_check rtc.(RTSR) .&~ val) .& 3))) i = false) as Hack.
  { intros i Hi. rewrite testbit_wrap, Z.lor_spec, Z.land_spec, !Z.ldiff_spec by lia.
    destruct Hval as [V0 V1], Hi as [->| ->]; by rewrite ?V0, ?V1, ?andb_false_r. }
  rewrite !rtc_check_testbit by lia. cbn [Z.eqb Pos.eqb andb]. rewrite !orb_false_r.
  split_and!; auto.
Qed.

Definition demo_rtc : PxaRtc lines := mkPxaRtc idle 7 7 0 0x7fff 8.

Lemma rtc_tick_then_ack_witness :
  let rtc1 := pxaRtcTick demo_rtc in
  let rtc2 := snd (pxaRtcPrvMemAccessF rtc1 (PXA_RTC_BASE + 8) 4 true 0xb) in
  irq_pending rtc1.(ic) PXA_I_RTC_HZ = true /\ rtc_lines rtc2 /\ Z.testbit rtc2.(RTSR) 1 = false.
Proof.
  destruct (rtc_tick_then_ack demo_rtc 0xb) as (_ & _ & _ & _ & H5 & H6 & _);
    [reflexivity|is_u_lit|done|].
  split; [reflexivity|]. by split.
Defined.

(** With the alarm enabled and set for 100 s, one second ticks and the alarm is
    reported: the alarm register takes no part in the check. *)
Lemma alarm_register_ignored {W} `{IrqSink W} (w : W) :
  Z.testbit (pxaRtcTick (mkPxaRtc w 0 0 100 0x7fff 4)).(RTSR) 0 = true.
Proof. reflexivity. Qed.
