(* ===== verification/Mem.v ===== *)
(** * The physical memory map (mem.c)

    A fixed table of regions: RAM, ROM, then the devices, each with an access
    function and its user data. The first region that covers an address gets
    the access. *)

From S2P Require Import Prelude.

Definition NUM_MEM_REGIONS := 128.
Definition REGION_RAM := 0.
Definition REGION_ROM := 1.
Definition REGION_BASE := 2.

Section Mem.
(** [UD] is what [void *uD] points to, [W] the state the handlers change. *)
Context {UD W : Type}.

Definition ArmMemAccessF := UD -> W -> Z -> Z -> bool -> Z -> outcome (access W).

Record ArmMemRegion := mkArmMemRegion {
  pa : Z;               (* uint32_t *)
  sz : Z;               (* uint32_t *)
  aF : ArmMemAccessF;
  uD : UD
}.

Record ArmMem := mkArmMem { regions : list ArmMemRegion }.

(** [null] stands for the zeroed function pointer and user data. *)
Definition memInit (null : ArmMemAccessF) (nullD : UD) : ArmMem :=
  mkArmMem (replicate (Z.to_nat NUM_MEM_REGIONS) (mkArmMemRegion 0 0 null nullD)).

(** [region->pa <= addr && region->pa + region->sz > addr], in 32 bits. *)
Definition covers (r : ArmMemRegion) (addr : Z) : bool :=
  (r.(pa) <=? addr) && (addr <? u32 (r.(pa) + r.(sz))).

Definition checkForIntersection (mem : ArmMem) (pa_ sz_ : Z) : bool :=
  existsb (λ r,
    if r.(sz) =? 0 then false else
    ((r.(pa) <=? pa_) && (pa_ <? u32 (r.(pa) + r.(sz)))) ||
    ((pa_ <=? r.(pa)) && (r.(pa) <? u32 (pa_ + sz_)))) mem.(regions).

Definition memRegionAddFixed (mem : ArmMem) (region pa_ sz_ : Z) (af : ArmMemAccessF) (ud : UD)
  : bool * ArmMem :=
  (true, mkArmMem (aset mem.(regions) region (mkArmMemRegion pa_ sz_ af ud))).

(** The search for a free slot from [REGION_BASE] on. *)
Fixpoint firstFree (rs : list ArmMemRegion) (i : Z) : option Z :=
  match rs with
  | [] => None
  | r :: rs => if r.(sz) =? 0 then Some i else firstFree rs (i + 1)
  end.

Definition memRegionAdd (mem : ArmMem) (pa_ sz_ : Z) (af : ArmMemAccessF) (ud : UD)
  : bool * ArmMem :=
  if checkForIntersection mem pa_ sz_ then (false, mem) else
  match firstFree (drop (Z.to_nat REGION_BASE) mem.(regions)) REGION_BASE with
  | Some i => (true, mkArmMem (aset mem.(regions) i (mkArmMemRegion pa_ sz_ af ud)))
  | None => (false, mem)
  end.

Definition memRegionAddRam (mem : ArmMem) := memRegionAddFixed mem REGION_RAM.
Definition memRegionAddRom (mem : ArmMem) := memRegionAddFixed mem REGION_ROM.

(** The RAM and ROM slots are called directly, not through [aF]. *)
Context (ramAccessF romAccessF : ArmMemAccessF).
Context (romInstructionFetch : UD -> W -> Z -> Z -> Z -> outcome (access W)).

Definition memAccess (mem : ArmMem) (w : W) (addr size : Z) (write : bool) (buf : Z)
  : outcome (access W) :=
  match mem.(regions) with
  | ram :: rom :: rest =>
      if covers ram addr then ramAccessF ram.(uD) w addr size write buf else
      if covers rom addr then romAccessF rom.(uD) w addr size write buf else
      match List.find (λ r, covers r addr) rest with
      | Some r => r.(aF) r.(uD) w addr size write buf
      | None => Ret (false, buf, w)
      end
  | _ => Undef
  end.

Definition memInstructionFetch (mem : ArmMem) (w : W) (addr size : Z) (buf : Z)
  : outcome (access W) :=
  match mem.(regions) with
  | ram :: rom :: rest =>
      if covers ram addr then ramAccessF ram.(uD) w addr size false buf else
      if covers rom addr then romInstructionFetch rom.(uD) w addr size buf else
      match List.find (λ r, covers r addr) rest with
      | Some r => r.(aF) r.(uD) w addr size false buf
      | None => Ret (false, buf, w)
      end
  | _ => Undef
  end.

(** ** Invariant *)

Definition region_ok (r : ArmMemRegion) : Prop :=
  0 <= r.(pa) /\ 0 <= r.(sz) /\ r.(pa) + r.(sz) < 2 ^ 32.

Definition regions_disjoint (rs : list ArmMemRegion) : Prop :=
  forall i j r r' addr, i <> j -> rs !! i = Some r -> rs !! j = Some r' ->
    covers r addr = true -> covers r' addr = false.

Record mem_wf (mem : ArmMem) : Prop := {
  wf_count : length mem.(regions) = Z.to_nat NUM_MEM_REGIONS;
  wf_regions : Forall region_ok mem.(regions);
  wf_disjoint : regions_disjoint mem.(regions)
}.

Lemma covers_spec r addr :
  region_ok r -> covers r addr = true <-> r.(pa) <= addr < r.(pa) + r.(sz).
Proof.
  intros (H1 & H2 & H3). unfold covers. rewrite wrap_small by (unfold is_u; lia).
  rewrite andb_true_iff, Z.leb_le, Z.ltb_lt. done.
Qed.

Lemma no_intersection mem p s af ud i r addr :
  Forall region_ok mem.(regions) -> region_ok (mkArmMemRegion p s af ud) ->
  checkForIntersection mem p s = false -> mem.(regions) !! i = Some r ->
  p <= addr < p + s -> covers r addr = false.
Proof.
  intros Hok (Hp1 & Hp2 & Hp3) Hno Hr Haddr. cbn in *.
  pose proof (Forall_lookup_1 _ _ _ _ Hok Hr) as Hrok.
  apply not_true_iff_false. rewrite (covers_spec r addr Hrok). intros Hc.
  destruct Hrok as (H1 & H2 & H3).
  assert (checkForIntersection mem p s = true) as He; [|congruence].
  unfold checkForIntersection. apply existsb_exists. exists r. split.
  - apply list_elem_of_In. by eapply list_elem_of_lookup_2.
  - destruct (Z.eqb_spec r.(sz) 0); [lia|].
    rewrite !wrap_small by (unfold is_u; lia).
    apply orb_true_iff. rewrite !andb_true_iff, !Z.leb_le, !Z.ltb_lt. lia.
Qed.

Lemma first_free_spec rs k i :
  firstFree rs k = Some i ->
  exists r, k <= i /\ rs !! Z.to_nat (i - k) = Some r /\ r.(sz) = 0.
Proof.
  revert k. induction rs as [|r rs IH]; intros k; cbn; [done|].
  destruct (Z.eqb_spec r.(sz) 0).
  - intros [= <-]. exists r. rewrite Z.sub_diag. split; [lia|done].
  - intros (r' & H1 & H2 & H3)%IH. exists r'. split; [lia|].
    replace (Z.to_nat (i - k)) with (S (Z.to_nat (i - (k + 1)))) by lia. done.
Qed.

Lemma find_insert_other (f : ArmMemRegion -> bool) rs k r0 r :
  rs !! k = Some r0 -> f r0 = false -> f r = false ->
  List.find f (<[k:=r]> rs) = List.find f rs.
Proof.
  revert k. induction rs as [|x rs IH]; intros [|k]; cbn; try done.
  - intros [= ->] -> ->. done.
  - intros Hk H0 H1. destruct (f x); [done|]. by apply IH.
Qed.

Lemma find_insert_only (f : ArmMemRegion -> bool) rs k r0 r :
  rs !! k = Some r0 -> (forall j x, rs !! j = Some x -> f x = false) -> f r = true ->
  List.find f (<[k:=r]> rs) = Some r.
Proof.
  revert k. induction rs as [|x rs IH]; intros [|k]; cbn; try done.
  - by intros _ _ ->.
  - intros Hk Hf Hr. rewrite (Hf 0%nat x eq_refl).
    apply IH; [done| |done]. intros j y Hj. by apply (Hf (S j)).
Qed.

Lemma add_wf mem p s af ud i r0 :
  mem_wf mem -> region_ok (mkArmMemRegion p s af ud) -> checkForIntersection mem p s = false ->
  mem.(regions) !! i = Some r0 -> r0.(sz) = 0 ->
  mem_wf (mkArmMem (<[i := mkArmMemRegion p s af ud]> mem.(regions))).
Proof.
  intros [Hc Hok Hd] Hnew Hno Hi H0. constructor; cbn.
  - by rewrite length_insert.
  - by apply Forall_insert.
  - assert (forall j x addr, mem.(regions) !! j = Some x ->
      covers (mkArmMemRegion p s af ud) addr = true -> covers x addr = false) as Hx.
    { intros j x addr Hj Hcov. eapply no_intersection; try done.
      by apply (covers_spec _ _ Hnew) in Hcov. }
    intros j k r r' addr Hjk Hr Hr' Hcov.
    apply list_lookup_insert_Some in Hr as [(<- & <- & _)|[Hji Hr]];
      apply list_lookup_insert_Some in Hr' as [(E & <- & _)|[Hki Hr']]; try done.
    + eauto.
    + subst k. apply not_true_iff_false. intros Hcov'.
      rewrite (Hx j r addr Hr Hcov') in Hcov. done.
    + eauto.
Qed.

(** Where an access goes: to one region, or nowhere. *)
Definition unmapped (mem : ArmMem) (addr : Z) : Prop :=
  Forall (λ r, covers r addr = false) mem.(regions).

End Mem.

(** Mapping a device: when [memRegionAdd] accepts a region, the table stays
    well formed (all regions disjoint), every access inside the region reaches
    the device's handler, and every other access goes where it went before. *)
Theorem region_add_dispatch {UD W : Type}
    (ramA romA : ArmMemAccessF (UD := UD) (W := W)) (mem mem' : ArmMem)
    (p s : Z) (af : ArmMemAccessF) (ud : UD)
    (Hwf : mem_wf mem) (Hrange : 0 <= p /\ 0 <= s /\ p + s < 2 ^ 32)
    (Hadd : memRegionAdd mem p s af ud = (true, mem')) :
  mem_wf mem' /\
  forall w addr size write buf,
    memAccess ramA romA mem' w addr size write buf =
    if (p <=? addr) && (addr <? p + s) then af ud w addr size write buf
    else memAccess ramA romA mem w addr size write buf.
Proof.
  unfold memRegionAdd in Hadd. destruct (checkForIntersection mem p s) eqn:Hno; [done|].
  destruct (firstFree _ _) as [i|] eqn:Hfree; [|done]. injection Hadd as <-.
  apply first_free_spec in Hfree as (r0 & Hi & Hr0 & Hsz). unfold REGION_BASE in *.
  set (new := mkArmMemRegion p s af ud). assert (region_ok new) as Hnew by done.
  rewrite lookup_drop in Hr0. replace (Z.to_nat 2 + Z.to_nat (i - 2))%nat with (Z.to_nat i) in Hr0 by lia.
  split; [by eapply add_wf|]. intros w addr size write buf.
  unfold memAccess. destruct Hwf as [Hc Hok Hd]; destruct mem as [rs]; cbn [regions] in *.
  destruct rs as [|ram [|rom rest]]; [done..|].
  replace (Z.to_nat i) with (S (S (Z.to_nat (i - 2)))) in Hr0 by lia. cbn in Hr0.
  unfold aset. replace (Z.to_nat i) with (S (S (Z.to_nat (i - 2)))) by lia. cbn [list_insert].
  pose proof (covers_spec new addr Hnew) as Hcov. cbn [pa sz new] in Hcov.
  destruct ((p <=? addr) && (addr <? p + s)) eqn:Ein.
  - apply andb_true_iff in Ein. rewrite Z.leb_le, Z.ltb_lt in Ein.
    assert (forall j x, (ram :: rom :: rest) !! j = Some x -> covers x addr = false) as Hx
      by (intros; by eapply (no_intersection (mkArmMem (ram :: rom :: rest)) p s af ud)).
    cbn. rewrite (Hx 0%nat ram eq_refl), (Hx 1%nat rom eq_refl).
    rewrite (find_insert_only _ rest _ r0 new); [done|done| |by apply Hcov].
    intros j x Hj. by apply (Hx (S (S j))).
  - assert (covers new addr = false) as Hout.
    { apply not_true_iff_false. rewrite Hcov. apply not_true_iff_false in Ein.
      rewrite andb_true_iff, Z.leb_le, Z.ltb_lt in Ein. done. }
    cbn. rewrite (find_insert_other _ rest _ r0 new); try done.
    apply not_true_iff_false. rewrite covers_spec; [lia|].
    exact (Forall_lookup_1 _ _ (S (S (Z.to_nat (i - 2)))) _ Hok Hr0).
Qed.

Definition demo_dev (b : bool) : ArmMemAccessF (UD := Z) (W := Z) :=
  fun ud w addr size write buf => Ret (b, ud, w).

Definition demo_mem : ArmMem := memInit (demo_dev false) 0.

Lemma demo_mem_wf : mem_wf demo_mem.
Proof.
  constructor; cbn [regions demo_mem memInit].
  - apply length_replicate.
  - apply Forall_replicate. by vm_compute.
  - intros i j r r' addr _ Hi _. apply lookup_replicate in Hi as [-> _].
    unfold covers; cbn. intros [H1%Z.leb_le H2%Z.ltb_lt]%andb_true_iff.
    change (u32 (0 + 0)) with 0 in H2. lia.
Qed.

Lemma region_add_dispatch_witness :
  let mem' := snd (memRegionAdd demo_mem 0x40A00000 0x10000 (demo_dev true) 7) in
  memAccess (demo_dev false) (demo_dev false) mem' 0 0x40A00004 4 false 0 = Ret (true, 7, 0).
Proof.
  intros mem'.
  destruct (region_add_dispatch (demo_dev false) (demo_dev false) demo_mem mem'
    0x40A00000 0x10000 (demo_dev true) 7 demo_mem_wf) as [_ ->]; [|reflexivity..].
  split; [lia|]. split; [lia|reflexivity].
Defined.
