(* ===== verification/Ram.v ===== *)
(** * RAM and ROM (RAM.c, ram_buffer.c, ROM.c)

    RAM is a byte buffer with a bitmap of 512-byte pages written since the last
    save, and a window, the framebuffer, whose stores mark the display dirty. *)

From S2P Require Import Prelude Bytes Interfaces.

Record RamBuffer := mkRamBuffer {
  size : Z;             (* size_t: bytes *)
  dirtyPagesSize : Z;   (* size_t: bytes *)
  buffer : list Z;      (* bytes *)
  dirtyPages : list Z   (* uint32_t[] *)
}.

Definition ramBufferAllocate (sz : Z) : RamBuffer :=
  let pageCount := sz / 512 in
  let pageCount := if pageCount * 512 <? sz then pageCount + 1 else pageCount in
  let dirtyPageCount4 := pageCount / 32 in
  let dirtyPageCount4 :=
    if dirtyPageCount4 * 32 <? pageCount then dirtyPageCount4 + 1 else dirtyPageCount4 in
  mkRamBuffer (pageCount * 512) (dirtyPageCount4 * 4)
    (replicate (Z.to_nat (pageCount * 512)) 0) (replicate (Z.to_nat dirtyPageCount4) 0).

(** [RAM_BUFFER_MARK_DIRTY] *)
Definition markDirty (buf : RamBuffer) (addr : Z) : outcome RamBuffer :=
  if in_object buf.(dirtyPages) (addr .>> 14) 1 then
    Ret { buf with dirtyPages ::= fun d =>
            d.[addr .>> 14 <- d.[addr .>> 14] .| (1 .<< ((addr .>> 9) .& 0x1f))] }
  else Undef.

Record ArmRam (W : Type) := mkArmRam {
  adr : Z;              (* uint32_t *)
  sz : Z;               (* uint32_t *)
  buf : RamBuffer;
  soc : W;
  framebufferStart : Z;
  framebufferStart_2 : Z;
  framebufferStart_4 : Z;
  framebufferStart_8 : Z;
  framebufferStart_16 : Z;
  framebufferStart_32 : Z;
  framebufferStart_64 : Z;
  framebufferEnd : Z
}.
Arguments mkArmRam {W}.
Arguments adr {W}.
Arguments sz {W}.
Arguments buf {W}.
Arguments soc {W}.
Arguments framebufferStart {W}.
Arguments framebufferStart_2 {W}.
Arguments framebufferStart_4 {W}.
Arguments framebufferStart_8 {W}.
Arguments framebufferStart_16 {W}.
Arguments framebufferStart_32 {W}.
Arguments framebufferStart_64 {W}.
Arguments framebufferEnd {W}.

Section Operations.
Context {W : Type} `{FbSink W}.

(** [if (offset < ram->framebufferEnd && offset >= start) socSetFramebufferDirty] *)
Definition markFramebuffer (ram : ArmRam W) (start offset : Z) : ArmRam W :=
  if (offset <? ram.(framebufferEnd)) && (start <=? offset)
  then { ram with soc ::= set_fb_dirty } else ram.

(** The marking of the last page of a wide store that may straddle two. *)
Definition markStraddle (ram : ArmRam W) (mask offset : Z) : outcome (ArmRam W) :=
  if tst offset mask then
    b ← markDirty ram.(buf) (u32 (offset + mask)); Ret { ram with buf := b }
  else Ret ram.

(** The stores of [n] bytes of [bufP] through [addr]. *)
Definition storeBytes (ram : ArmRam W) (n : nat) (offset bufP : Z) : outcome (ArmRam W) :=
  if in_object ram.(buf).(buffer) offset (Z.of_nat n) then
    Ret { ram with buf ::= fun b => { b with buffer ::= fun m => poke m offset (le_split n bufP) } }
  else Undef.

(** The loads of [n] bytes through [addr] into [bufP]. *)
Definition loadBytes (ram : ArmRam W) (n : nat) (offset : Z) : outcome Z :=
  if in_object ram.(buf).(buffer) offset (Z.of_nat n)
  then Ret (le_combine (peek ram.(buf).(buffer) offset (Z.of_nat n)))
  else Undef.

Definition ramAccessF (ram : ArmRam W) (pa size : Z) (write : bool) (bufP : Z)
  : outcome (access (ArmRam W)) :=
  let offset := u32 (pa - ram.(adr)) in
  if write then
    b ← markDirty ram.(buf) offset;
    let ram := { ram with buf := b } in
    let done (m : outcome (ArmRam W)) := ram ← m; Ret (true, bufP, ram) in
    match size with
    | 1 => done (storeBytes (markFramebuffer ram ram.(framebufferStart) offset) 1 offset bufP)
    | 2 => done (storeBytes (markFramebuffer ram ram.(framebufferStart_2) offset) 2 offset bufP)
    | 4 => done (storeBytes (markFramebuffer ram ram.(framebufferStart_4) offset) 4 offset bufP)
    | 64 => done (
        ram ← markStraddle (markFramebuffer ram ram.(framebufferStart_64) offset) 0x3f offset;
        storeBytes ram 64 offset bufP)
    | 32 => done (
        ram ← markStraddle (markFramebuffer ram ram.(framebufferStart_32) offset) 0x1f offset;
        storeBytes ram 32 offset bufP)
    | 16 => done (
        ram ← markStraddle (markFramebuffer ram ram.(framebufferStart_16) offset) 0x0f offset;
        storeBytes ram 16 offset bufP)
    | 8 => done (storeBytes (markFramebuffer ram ram.(framebufferStart_8) offset) 8 offset bufP)
    | _ => Ret (false, bufP, ram)
    end
  else
    let done (m : outcome Z) := v ← m; Ret (true, v, ram) in
    match size with
    | 1 => done (loadBytes ram 1 offset)
    | 2 => done (loadBytes ram 2 offset)
    | 4 => done (loadBytes ram 4 offset)
    | 64 => done (loadBytes ram 64 offset)
    | 32 => done (loadBytes ram 32 offset)
    | 16 => done (loadBytes ram 16 offset)
    | 8 => done (loadBytes ram 8 offset)
    | _ => Ret (false, bufP, ram)
    end.

Definition ramSetFramebuffer (ram : ArmRam W) (base size : Z) : ArmRam W :=
  let start := u32 (base - ram.(adr)) in
  if 0 <? size then
    { ram with
      framebufferStart := start;
      framebufferStart_2 := u32 (start - 2);
      framebufferStart_4 := u32 (start - 4);
      framebufferStart_8 := u32 (start - 8);
      framebufferStart_16 := u32 (start - 16);
      framebufferStart_32 := u32 (start - 32);
      framebufferStart_64 := u32 (start - 64);
      framebufferEnd := u32 (start + size) }
  else
    { ram with
      framebufferStart := start;
      framebufferStart_2 := 0;
      framebufferStart_4 := 0;
      framebufferStart_8 := 0;
      framebufferStart_16 := 0;
      framebufferStart_32 := 0;
      framebufferStart_64 := 0;
      framebufferEnd := 0xffffffff }.

Definition ramInit (w : W) (a s : Z) (b : RamBuffer) : ArmRam W :=
  ramSetFramebuffer (mkArmRam a s b w 0 0 0 0 0 0 0 0) 0 0.

End Operations.

(** ** ROM *)

Record ArmRom := mkArmRom {
  rom_base : Z;
  rom_size : Z;
  rom_data : list Z;          (* bytes *)
  dataPeephole : list Z       (* bytes: the copy the peephole optimiser patches *)
}.

Definition romInit (adr : Z) (data : list Z) : ArmRom :=
  mkArmRom adr (Z.of_nat (length data)) data data.

(** [access]: loads of one of the supported sizes. *)
Definition romAccess (source : list Z) (offset size bufP : Z) : outcome (bool * Z) :=
  let load n :=
    if in_object source offset n then Ret (true, le_combine (peek source offset n)) else Undef in
  match size with
  | 1 | 2 | 4 | 64 | 32 | 16 | 8 => load size
  | _ => Ret (false, bufP)
  end.

Definition romAccessF (rom : ArmRom) (pa size : Z) (write : bool) (bufP : Z) : outcome (bool * Z) :=
  if write then Ret (false, bufP) else
  romAccess rom.(rom_data) (u32 (pa - rom.(rom_base))) size bufP.

Definition romInstructionFetch (rom : ArmRom) (pa size bufP : Z) : outcome (bool * Z) :=
  romAccess rom.(dataPeephole) (u32 (pa - rom.(rom_base))) size bufP.

(** ** Specification *)

Definition page_dirty (b : RamBuffer) (p : Z) : bool :=
  Z.testbit b.(dirtyPages).[p / 32] (p mod 32).

Record buffer_wf (b : RamBuffer) : Prop := {
  wf_size : b.(size) = Z.of_nat (length b.(buffer));
  wf_bytes : Forall byte_ok b.(buffer);
  wf_pages : Z.of_nat (length b.(buffer)) <= 512 * 32 * Z.of_nat (length b.(dirtyPages))
}.

Definition valid_size (n : nat) : Prop := In n [1; 2; 4; 8; 16; 32; 64]%nat.

(** An access of [n] bytes at offset [off] that lies in RAM. *)
Record valid_access {W} (ram : ArmRam W) (pa : Z) (n : nat) (off : Z) : Prop := {
  va_size : valid_size n;
  va_pa : is_u 32 pa;
  va_adr : 0 <= ram.(adr);
  va_off : off = pa - ram.(adr);
  va_in : 0 <= off /\ off + Z.of_nat n <= Z.of_nat (length ram.(buf).(buffer))
}.

Definition fbStart {W} (ram : ArmRam W) (n : nat) : Z :=
  match n with
  | 1 => ram.(framebufferStart) | 2 => ram.(framebufferStart_2) | 4 => ram.(framebufferStart_4)
  | 8 => ram.(framebufferStart_8) | 16 => ram.(framebufferStart_16)
  | 32 => ram.(framebufferStart_32) | _ => ram.(framebufferStart_64)
  end%nat.

Section Lemmas.
Context {W : Type} `{FbSink W}.
Implicit Types ram : ArmRam W.

Lemma page_index addr :
  0 <= addr -> addr .>> 14 = addr / 512 / 32 /\ (addr .>> 9) .& 0x1f = (addr / 512) mod 32.
Proof.
  intros Ha. rewrite !Z.shiftr_div_pow2 by lia. change 0x1f with (Z.ones 5).
  rewrite Z.land_ones by lia. split; [|done].
  rewrite Z.div_div by lia. done.
Qed.

Lemma markDirty_spec b addr :
  0 <= addr < 512 * 32 * Z.of_nat (length b.(dirtyPages)) ->
  exists b', markDirty b addr = Ret b' /\ b'.(size) = b.(size) /\ b'.(buffer) = b.(buffer) /\
    length b'.(dirtyPages) = length b.(dirtyPages) /\
    forall p, 0 <= p -> page_dirty b' p = page_dirty b p || (p =? addr / 512).
Proof.
  intros Ha. destruct (page_index addr ltac:(lia)) as [E1 E2].
  assert (0 <= addr / 512 / 32 < Z.of_nat (length b.(dirtyPages))) as Hi.
  { rewrite Z.div_div by lia. split; [apply Z.div_pos; lia|apply Z.div_lt_upper_bound; lia]. }
  unfold markDirty. rewrite E1, E2.
  destruct (in_object _ _ _) eqn:Ein.
  2:{ apply not_true_iff_false in Ein. rewrite in_object_spec in Ein. lia. }
  eexists. split; [done|]. destruct b as [s ds m d]; cbn in *.
  rewrite length_aset. do 3 (split; [done|]). intros p Hp. unfold page_dirty; cbn.
  pose proof (Z.mod_pos_bound p 32 ltac:(lia)).
  pose proof (Z.mod_pos_bound (addr / 512) 32 ltac:(lia)).
  assert (0 <= addr / 512) by (apply Z.div_pos; lia).
  rewrite aget_aset by (try apply Z.div_pos; lia).
  pose proof (Z.div_mod p 32 ltac:(lia)). pose proof (Z.div_mod (addr / 512) 32 ltac:(lia)).
  destruct (Z.eqb_spec (addr / 512 / 32) (p / 32)) as [E|Hne].
  - rewrite E, Z.lor_spec, testbit_1_shiftl by lia. f_equal. apply eq_true_iff_eq.
    rewrite !Z.eqb_eq. split; [lia|congruence].
  - destruct (Z.eqb_spec p (addr / 512)) as [->|]; [done|by rewrite orb_false_r].
Qed.

Lemma access_write_cases ram pa n v :
  valid_size n ->
  ramAccessF ram pa (Z.of_nat n) true v =
  let offset := u32 (pa - ram.(adr)) in
  b ← markDirty ram.(buf) offset;
  let ram := { ram with buf := b } in
  ram ← (ram ← (if (16 <=? n)%nat
                then markStraddle (markFramebuffer ram (fbStart ram n) offset) (Z.of_nat n - 1) offset
                else Ret (markFramebuffer ram (fbStart ram n) offset));
         storeBytes ram n offset v);
  Ret (true, v, ram).
Proof.
  intros Hn. unfold ramAccessF. destruct (markDirty _ _) as [b| | |]; cbn [mbind outcome_bind]; try done.
  cbn in Hn. repeat (destruct Hn as [<-|Hn]; [reflexivity|]). done.
Qed.

Lemma access_read_cases ram pa n v :
  valid_size n ->
  ramAccessF ram pa (Z.of_nat n) false v =
  (v ← loadBytes ram n (u32 (pa - ram.(adr))); Ret (true, v, ram)).
Proof. intros Hn. cbn in Hn. repeat (destruct Hn as [<-|Hn]; [reflexivity|]). done. Qed.

Lemma valid_size_bounds n : valid_size n -> (1 <= n <= 64)%nat.
Proof. cbn. lia. Qed.

Lemma valid_offset ram pa n off :
  valid_access ram pa n off -> u32 (pa - ram.(adr)) = off /\ 0 <= off < 2 ^ 32.
Proof.
  intros [Hs Hp Ha -> [H1 H2]]. unfold is_u in Hp. split; [apply wrap_small; unfold is_u|]; lia.
Qed.

(** Everything but the pages and the buffer. *)
Definition same_setup ram ram' : Prop :=
  ram'.(adr) = ram.(adr) /\ ram'.(sz) = ram.(sz) /\
  ram'.(framebufferEnd) = ram.(framebufferEnd) /\ (forall n, fbStart ram' n = fbStart ram n).

Definition touches_fb ram n off : bool :=
  (off <? ram.(framebufferEnd)) && (fbStart ram n <=? off).

Lemma straddle_spec ram n off :
  valid_size n -> 0 <= off -> off + Z.of_nat n <= Z.of_nat (length ram.(buf).(buffer)) ->
  off + Z.of_nat n <= 2 ^ 32 -> buffer_wf ram.(buf) ->
  exists ram', (if (16 <=? n)%nat then markStraddle ram (Z.of_nat n - 1) off else Ret ram) = Ret ram' /\
    same_setup ram ram' /\ ram'.(soc) = ram.(soc) /\
    ram'.(buf).(size) = ram.(buf).(size) /\ ram'.(buf).(buffer) = ram.(buf).(buffer) /\
    length ram'.(buf).(dirtyPages) = length ram.(buf).(dirtyPages) /\
    forall p, 0 <= p -> page_dirty ram'.(buf) p =
      page_dirty ram.(buf) p ||
      ((16 <=? n)%nat && tst off (Z.of_nat n - 1) && (p =? (off + Z.of_nat n - 1) / 512)).
Proof.
  intros Hn Ho Hin H32 [_ _ Hp]. destruct (Nat.leb_spec 16 n) as [Hge|].
  2:{ exists ram. cbn [andb]. setoid_rewrite orb_false_r. by repeat split. }
  unfold markStraddle. destruct (tst off (Z.of_nat n - 1)) eqn:Et; cbn [andb].
  2:{ exists ram. setoid_rewrite orb_false_r. by repeat split. }
  pose proof (valid_size_bounds n Hn).
  rewrite wrap_small by (unfold is_u; lia).
  destruct (markDirty_spec ram.(buf) (off + (Z.of_nat n - 1))) as (b & -> & E1 & E2 & E3 & E4); [lia|].
  eexists. split; [done|]. destruct ram; cbn in *. repeat split; try done.
  intros p Hp'. rewrite E4 by done. by replace (off + (Z.of_nat n - 1)) with (off + Z.of_nat n - 1) by lia.
Qed.

(** What a store that lies in RAM does. *)
Lemma write_spec ram pa n off v :
  buffer_wf ram.(buf) -> valid_access ram pa n off -> off + Z.of_nat n <= 2 ^ 32 ->
  exists ram', ramAccessF ram pa (Z.of_nat n) true v = Ret (true, v, ram') /\
    same_setup ram ram' /\ buffer_wf ram'.(buf) /\
    ram'.(buf).(buffer) = poke ram.(buf).(buffer) off (le_split n v) /\
    ram'.(soc) = (if touches_fb ram n off then set_fb_dirty ram.(soc) else ram.(soc)) /\
    forall p, 0 <= p -> page_dirty ram'.(buf) p =
      page_dirty ram.(buf) p || (p =? off / 512) ||
      ((16 <=? n)%nat && tst off (Z.of_nat n - 1) && (p =? (off + Z.of_nat n - 1) / 512)).
Proof.
  intros Hwf Hv H32. destruct (valid_offset _ _ _ _ Hv) as [Eo Ho].
  destruct Hv as [Hs _ _ _ [H1 H2]]. pose proof Hwf as [Hsz Hb Hp].
  pose proof (valid_size_bounds n Hs).
  rewrite access_write_cases by done. cbv zeta. rewrite Eo.
  destruct (markDirty_spec ram.(buf) off) as (b & -> & E1 & E2 & E3 & E4); [lia|].
  cbn [mbind outcome_bind].
  set (ram1 := markFramebuffer { ram with buf := b } _ off).
  assert (ram1.(buf) = b /\ same_setup ram ram1 /\
    ram1.(soc) = (if touches_fb ram n off then set_fb_dirty ram.(soc) else ram.(soc)))
    as (Hb1 & Hs1 & Hc1).
  { subst ram1. unfold markFramebuffer, touches_fb. clear -ram. destruct ram; cbn.
    unfold same_setup. destruct n as [|[|[|n]]]; cbn;
      (match goal with |- context [if ?c then _ else _] => destruct c end; cbn; done). }
  clearbody ram1.
  destruct (straddle_spec ram1 n off) as (ram2 & -> & Hs2 & Hc2 & F1 & F2 & F3 & F4);
    rewrite ?Hb1, ?E2; try done; [constructor; by rewrite ?E1, ?E2, ?E3|].
  rewrite Hb1 in *. cbn [mbind outcome_bind]. unfold storeBytes.
  rewrite F2, E2. destruct (in_object _ _ _) eqn:Ein.
  2:{ apply not_true_iff_false in Ein. rewrite in_object_spec in Ein. lia. }
  eexists. split; [done|]. unfold same_setup in *.
  destruct Hs1 as (A1 & A2 & A3 & A4), Hs2 as (B1 & B2 & B3 & B4).
  assert (forall p, 0 <= p -> page_dirty ram2.(buf) p = page_dirty (buf ram) p || (p =? off / 512)
    || ((16 <=? n)%nat && tst off (Z.of_nat n - 1) && (p =? (off + Z.of_nat n - 1) / 512))) as HD
    by (intros p Hp'; by rewrite F4, E4 by done).
  assert (forall k, fbStart ram2 k = fbStart ram k) as HF by (intros; by rewrite B4, A4).
  rewrite A1 in B1. rewrite A2 in B2. rewrite A3 in B3. rewrite Hc1 in Hc2.
  assert (forall f, page_dirty { ram2.(buf) with buffer ::= f } = page_dirty ram2.(buf)) as HP
    by (intros f; by destruct ram2.(buf)).
  clear Hs A1 A2 A3 A4 B4 F4. set (st := λ m, poke m off (le_split n v)).
  assert (buf { ram2 with buf ::= fun b => { b with buffer ::= st } }
    = { ram2.(buf) with buffer ::= st }) as HB by by destruct ram2.
  rewrite HB. split; [|split; [|split; [|split]]].
  - destruct ram2; cbn in *. auto.
  - destruct (buf ram2); cbn in *. subst st. constructor; cbn; rewrite ?length_poke.
    + congruence.
    + apply poke_bytes; [congruence|]. apply le_split_bytes.
    + rewrite F2, E2, F3, E3. lia.
  - subst st. destruct (buf ram2); cbn in *. congruence.
  - rewrite <- Hc2. by destruct ram2.
  - intros p Hp'. rewrite HP. by apply HD.
Qed.
End Lemmas.

(** ** Properties *)

Lemma valid_access_mono {W} (ram ram' : ArmRam W) pa n off :
  ram'.(adr) = ram.(adr) ->
  length ram'.(buf).(buffer) = length ram.(buf).(buffer) ->
  valid_access ram pa n off -> valid_access ram' pa n off.
Proof. intros Ha Hl [? ? ? ? ?]. by constructor; rewrite ?Ha, ?Hl. Qed.

Lemma read_spec {W} `{FbSink W} (ram : ArmRam W) pa n off v :
  valid_access ram pa n off ->
  ramAccessF ram pa (Z.of_nat n) false v =
  Ret (true, le_combine (peek ram.(buf).(buffer) off (Z.of_nat n)), ram).
Proof.
  intros Hv. destruct (valid_offset _ _ _ _ Hv) as [Eo _]. destruct Hv as [Hs _ _ _ [H1 H2]].
  rewrite access_read_cases, Eo by done. unfold loadBytes.
  destruct (in_object _ _ _) eqn:Ein; [done|].
  apply not_true_iff_false in Ein. rewrite in_object_spec in Ein. lia.
Qed.

(** ** RAM as words *)

#[export] Instance ram_phys_mem {W} `{FbSink W} : PhysMem (ArmRam W) := {| mem_access := ramAccessF |}.

Definition ram_word {W} (ram : ArmRam W) (a : Z) : option Z :=
  if (ram.(adr) <=? a) && (a - ram.(adr) + 4 <=? Z.of_nat (length ram.(buf).(buffer))) && (a <? 2 ^ 32) && (a mod 4 =? 0)
  then Some (le_combine (peek ram.(buf).(buffer) (a - ram.(adr)) 4)) else None.

Definition ram_words_wf {W} (ram : ArmRam W) : Prop :=
  buffer_wf ram.(buf) /\ 0 <= ram.(adr) /\ ram.(adr) mod 4 = 0 /\ ram.(adr) + Z.of_nat (length ram.(buf).(buffer)) <= 2 ^ 32.

Section Words.
Context {W : Type} `{FbSink W}.
Implicit Types ram : ArmRam W.

Lemma ram_word_spec ram a v :
  ram_word ram a = Some v -> 0 <= ram.(adr) ->
  valid_access ram a 4 (a - ram.(adr)) /\ a mod 4 = 0 /\ v = le_combine (peek ram.(buf).(buffer) (a - ram.(adr)) 4).
Proof.
  unfold ram_word. destruct (_ && _) eqn:E; [|done]. intros [= <-] Ha.
  rewrite !andb_true_iff, !Z.leb_le, Z.ltb_lt, Z.eqb_eq in E. destruct E as [[[E1 E2] E3] E4].
  split; [|done]. split; [cbn; tauto|split; lia|done|done|cbn; lia].
Qed.

Lemma ram_word_mono ram ram' a :
  ram'.(adr) = ram.(adr) -> length ram'.(buf).(buffer) = length ram.(buf).(buffer) ->
  is_Some (ram_word ram' a) <-> is_Some (ram_word ram a).
Proof. intros E1 E2. unfold ram_word. rewrite E1, E2. destruct (_ && _); split; intros []; eauto; done. Qed.

#[export, program] Instance ram_word_mem : WordMem (ArmRam W) := {|
  words_wf := ram_words_wf;
  word_at := ram_word
|}.
Next Obligation.
  intros ram a v (Hwf & Ha & _) E. destruct (ram_word_spec ram a v E Ha) as (Hv & Hm & ->).
  split; [|split; [apply Hv|done]]. destruct Hv as [_ _ _ _ [H1 H2]]. destruct Hwf as [_ Hb _].
  pose proof (le_combine_is_u _ (peek_bytes ram.(buf).(buffer) (a - ram.(adr)) 4 Hb)) as G.
  rewrite length_peek in G by (done || (apply in_object_spec; cbn in H2; lia)). done.
Qed.
Next Obligation.
  intros ram a v b (Hwf & Ha & _) E. destruct (ram_word_spec ram a v E Ha) as (Hv & Hm & ->).
  exact (read_spec ram a 4 _ b Hv).
Qed.
Next Obligation.
  intros ram a v v' (Hwf & Ha & Hal & Hend) E Hv'. destruct (ram_word_spec ram a v E Ha) as (Hv & Hm & ->).
  destruct (write_spec ram a 4 _ v' Hwf Hv) as (ram' & Ew & (Ea & _) & Hwf' & Eb & _).
  { destruct Hv as [_ _ _ _ [H1 H2]]. cbn in *. lia. }
  assert (El : length ram'.(buf).(buffer) = length ram.(buf).(buffer)) by (by rewrite Eb, length_poke).
  exists ram'. split; [exact Ew|]. split; [by split; [|rewrite Ea, El]|]. intros a'.
  destruct Hv as [_ _ _ _ [H1 H2]]. change (Z.of_nat 4) with 4 in H2.
  destruct (Z.eqb_spec a a') as [<-|Hne].
  - unfold ram_word in E |- *. rewrite Ea, El. destruct (_ && _); [|done]. f_equal.
    rewrite Eb, peek_poke_same; [by apply (le_roundtrip 4)|done|apply in_object_spec; lia].
  - destruct (ram_word ram a') as [x|] eqn:E'.
    + destruct (ram_word_spec ram a' x E' Ha) as ([_ _ _ _ [G1 G2]] & Hm' & ->). change (Z.of_nat 4) with 4 in G2.
      unfold ram_word in E' |- *. rewrite Ea, El. destruct (_ && _); [|done]. f_equal.
      rewrite Eb, peek_poke_disjoint; [done|lia|lia|lia|]. rewrite length_le_split. change (Z.of_nat 4) with 4.
      zdiv_lia.
    + pose proof (ram_word_mono ram ram' a' Ea El) as G. rewrite E' in G. destruct (ram_word ram' a'); [|done].
      destruct (proj1 G); [by eexists|done].
Qed.
End Words.
(** RAM is memory: a store in range returns, a load of the same size at the
    same address then gives the stored number, and a load of any other bytes
    gives what it gave before. *)
Theorem ram_load_after_store {W} `{FbSink W} (ram : ArmRam W) (pa off v : Z) (n : nat)
    (Hwf : buffer_wf ram.(buf)) (Hacc : valid_access ram pa n off)
    (Hend : off + Z.of_nat n <= 2 ^ 32) (Hv : is_u (8 * Z.of_nat n) v) :
  exists ram', ramAccessF ram pa (Z.of_nat n) true v = Ret (true, v, ram') /\
    buffer_wf ram'.(buf) /\
    ramAccessF ram' pa (Z.of_nat n) false 0 = Ret (true, v, ram') /\
    forall pa' n' off', valid_access ram pa' n' off' ->
      off' + Z.of_nat n' <= off \/ off + Z.of_nat n <= off' ->
      exists v', ramAccessF ram pa' (Z.of_nat n') false 0 = Ret (true, v', ram) /\
        ramAccessF ram' pa' (Z.of_nat n') false 0 = Ret (true, v', ram').
Proof.
  destruct (write_spec ram pa n off v Hwf Hacc Hend) as (ram' & E & (Ea & _) & Hwf' & Eb & _).
  exists ram'. do 2 (split; [done|]).
  assert (length ram'.(buf).(buffer) = length ram.(buf).(buffer)) as El by (by rewrite Eb, length_poke).
  split.
  - rewrite (read_spec ram' pa n off) by (by apply (valid_access_mono ram)).
    rewrite Eb, peek_poke_same; [by rewrite le_roundtrip|by rewrite length_le_split|].
    apply in_object_spec. apply Hacc.
  - intros pa' n' off' Hacc' Hd. eexists. split; [by eapply read_spec|].
    rewrite (read_spec ram' pa' n' off') by (by apply (valid_access_mono ram)).
    rewrite Eb, peek_poke_disjoint; [done|apply Hacc|apply Hacc'|lia|].
    by rewrite length_le_split.
Qed.

Definition demo_ram : ArmRam bool := ramInit false 0xa0000000 2048 (ramBufferAllocate 2048).

Lemma demo_ram_wf : buffer_wf demo_ram.(buf).
Proof.
  constructor; [reflexivity| |vm_compute; discriminate].
  cbn. apply Forall_replicate. is_u_lit.
Qed.

Lemma demo_access pa n :
  valid_size n -> 0xa0000000 <= pa -> pa + Z.of_nat n <= 0xa0000000 + 2048 ->
  valid_access demo_ram pa n (pa - 0xa0000000).
Proof.
  intros Hn H1 H2. pose proof (valid_size_bounds n Hn).
  constructor; try done; [unfold is_u; lia|].
  change (length _) with 2048%nat. lia.
Qed.

Lemma ram_load_after_store_witness :
  exists ram', ramAccessF demo_ram 0xa0000010 4 true 0x12345678 = Ret (true, 0x12345678, ram') /\
    ramAccessF ram' 0xa0000010 4 false 0 = Ret (true, 0x12345678, ram').
Proof.
  destruct (ram_load_after_store demo_ram 0xa0000010 0x10 0x12345678 4) as (ram' & E & _ & E' & _).
  - apply demo_ram_wf.
  - apply (demo_access 0xa0000010 4); [cbn; lia|lia|lia].
  - lia.
  - is_u_lit.
  - by exists ram'.
Defined.

Lemma straddle_test n off :
  In n [16; 32; 64]%nat -> 0 <= off -> tst off (Z.of_nat n - 1) = negb (off mod Z.of_nat n =? 0).
Proof.
  intros Hn Ho. unfold tst. f_equal. f_equal. cbn in Hn.
  destruct Hn as [<-|[<-|[<-|[]]]];
    [change (Z.of_nat 16 - 1) with (Z.ones 4)|change (Z.of_nat 32 - 1) with (Z.ones 5)
    |change (Z.of_nat 64 - 1) with (Z.ones 6)]; by rewrite Z.land_ones by lia.
Qed.

Lemma same_page_aligned n off i :
  valid_size n -> off mod Z.of_nat n = 0 -> off <= i < off + Z.of_nat n -> i / 512 = off / 512.
Proof.
  intros Hn Hm Hi.
  cbn in Hn. repeat (destruct Hn as [<-|Hn]; [zdiv_lia|]). done.
Qed.

(** C29. The dirty-page bitmap is complete: after a store that is aligned, or is 16
    bytes or wider, every byte that changed lies in a page marked dirty, and
    no mark is lost: saving the dirty pages saves all changes. *)
Theorem ram_dirty_pages_complete {W} `{FbSink W} (ram ram' : ArmRam W) (pa off v v' : Z) (n : nat)
    (ok : bool)
    (Hwf : buffer_wf ram.(buf)) (Hacc : valid_access ram pa n off)
    (Hend : off + Z.of_nat n <= 2 ^ 32)
    (Halign : off mod Z.of_nat n = 0 \/ (16 <= n)%nat)
    (Hstore : ramAccessF ram pa (Z.of_nat n) true v = Ret (ok, v', ram')) :
  (forall i, 0 <= i -> ram'.(buf).(buffer).[i] <> ram.(buf).(buffer).[i] ->
     page_dirty ram'.(buf) (i / 512) = true) /\
  (forall p, 0 <= p -> page_dirty ram.(buf) p = true -> page_dirty ram'.(buf) p = true).
Proof.
  destruct (write_spec ram pa n off v Hwf Hacc Hend) as (r & E & _ & _ & Eb & _ & Ed).
  rewrite E in Hstore. injection Hstore as _ _ <-.
  destruct Hacc as [Hs _ _ _ [H1 H2]]. split.
  2:{ intros p Hp Hd. by rewrite Ed, Hd by done. }
  intros i Hi. rewrite Eb, aget_poke, length_le_split;
    [|done|apply in_object_spec; rewrite length_le_split; lia].
  destruct (Z.leb_spec off i), (Z.ltb_spec i (off + Z.of_nat n)); cbn [andb]; try done. intros _.
  rewrite Ed by (apply Z.div_pos; lia).
  destruct (decide (off mod Z.of_nat n = 0)) as [Hm|Hm].
  { rewrite (same_page_aligned n off i Hs Hm) by lia. by rewrite Z.eqb_refl, orb_true_r. }
  destruct Halign as [|Hge]; [done|].
  assert (In n [16; 32; 64]%nat) as Hw by (cbn in Hs |- *; lia).
  rewrite straddle_test by done. apply Z.eqb_neq in Hm as ->.
  destruct (Nat.leb_spec 16 n); [|lia]. cbn [negb andb].
  assert (i / 512 = off / 512 \/ i / 512 = (off + Z.of_nat n - 1) / 512) as Hpage.
  { apply valid_size_bounds in Hs. zdiv_lia. }
  rewrite <- orb_assoc. apply orb_true_iff. right. apply orb_true_iff. rewrite !Z.eqb_eq. lia.
Qed.

(** A 32-byte store across a page boundary marks both pages. *)
Lemma ram_dirty_pages_complete_witness :
  exists ram', ramAccessF demo_ram 0xa00001f0 32 true (2 ^ 255 + 1) = Ret (true, 2 ^ 255 + 1, ram') /\
    page_dirty ram'.(buf) (0x1f0 / 512) = true /\ page_dirty ram'.(buf) (0x20f / 512) = true.
Proof.
  eexists. split; [vm_compute; reflexivity|].
  split; (eapply (proj1 (ram_dirty_pages_complete demo_ram _ 0xa00001f0 0x1f0 (2 ^ 255 + 1)
    (2 ^ 255 + 1) 32 true demo_ram_wf (demo_access 0xa00001f0 32 _ _ _) _ _ _)); [lia|]);
    vm_compute; discriminate.
Unshelve.
  all: first [cbn; lia|right; lia|vm_compute; reflexivity].
Defined.

(** The display is told of every store to it: with a framebuffer of [size]
    bytes at offset [fb] of RAM, at least as far into RAM as the store is
    wide, a store that overlaps it marks it dirty. *)
Theorem framebuffer_store_marks_display {W} `{FbSink W} (ram0 ram' : ArmRam W)
    (base fsize fb pa off v v' : Z) (n : nat) (ok : bool)
    (Hwf : buffer_wf ram0.(buf)) (Hacc : valid_access ram0 pa n off)
    (Hend : off + Z.of_nat n <= 2 ^ 32)
    (Hsize : 0 < fsize) (Hfb : fb = base - ram0.(adr)) (Hfit : fb + fsize < 2 ^ 32)
    (Hroom : Z.of_nat n <= fb)
    (Hoverlap : off < fb + fsize /\ fb < off + Z.of_nat n)
    (Hstore : ramAccessF (ramSetFramebuffer ram0 base fsize) pa (Z.of_nat n) true v
              = Ret (ok, v', ram')) :
  fb_dirty ram'.(soc) = true.
Proof.
  set (ram := ramSetFramebuffer ram0 base fsize) in *.
  assert (ram.(adr) = ram0.(adr) /\ ram.(buf) = ram0.(buf)) as [Ea Eb]
    by (subst ram; unfold ramSetFramebuffer; destruct ram0; cbn; by destruct (0 <? fsize)).
  assert (buffer_wf ram.(buf)) as Hwf' by (by rewrite Eb).
  assert (valid_access ram pa n off) as Hacc' by (by apply (valid_access_mono ram0); rewrite ?Eb).
  destruct (write_spec ram pa n off v Hwf' Hacc' Hend) as (r & E & _ & _ & _ & Es & _).
  rewrite E in Hstore. injection Hstore as _ _ <-. rewrite Es.
  assert (touches_fb ram n off = true) as ->; [|apply fb_dirty_set].
  destruct Hacc as [Hs _ _ _ _].
  assert (forall k, 0 <= k <= fb -> u32 (u32 (base - ram0.(adr)) - k) = fb - k) as Hk.
  { intros k Hk. rewrite (wrap_small 32 (base - _)), wrap_small; unfold is_u; lia. }
  assert (u32 (base - ram0.(adr)) = fb) as H0 by (rewrite wrap_small; unfold is_u; lia).
  unfold touches_fb, ram, ramSetFramebuffer. destruct (Z.ltb_spec 0 fsize); [|lia].
  apply andb_true_iff. split.
  - apply Z.ltb_lt. destruct ram0; cbn in *. rewrite H0, wrap_small; unfold is_u; lia.
  - apply Z.leb_le. clear -Hs Hk H0 Hoverlap Hroom. destruct ram0; cbn in *.
    repeat (destruct Hs as [<-|Hs]; [cbn; rewrite ?Hk; lia|]). done.
Qed.

Lemma framebuffer_store_marks_display_witness :
  exists ram', ramAccessF (ramSetFramebuffer demo_ram 0xa0000100 0x100) 0xa0000104 4 true 7
    = Ret (true, 7, ram') /\ fb_dirty ram'.(soc) = true.
Proof.
  eexists. split; [vm_compute; reflexivity|].
  eapply (framebuffer_store_marks_display demo_ram _ 0xa0000100 0x100 0x100 0xa0000104 0x104 7 7 4 true
    demo_ram_wf (demo_access 0xa0000104 4 _ _ _)); try lia; [reflexivity|].
  vm_compute; reflexivity.
Unshelve.
  all: cbn; lia.
Defined.

(** A framebuffer closer to the start of RAM than the store is wide is missed:
    [framebufferStart_4] wraps around. *)
Lemma framebuffer_at_start_missed :
  exists ram', ramAccessF (ramSetFramebuffer demo_ram 0xa0000000 0x100) 0xa0000000 4 true 7
    = Ret (true, 7, ram') /\ fb_dirty ram'.(soc) = false.
Proof. eexists. split; vm_compute; reflexivity. Qed.
