(* ===== verification/Mmu.v ===== *)
(** * The MMU (MMU.c)

    ARMv5 page walks through physical memory, and a direct-mapped TLB with one
    entry per 4K page of the address space. An entry is valid when it carries
    the MMU's current 16-bit revision, which a flush increments. *)

From S2P Require Import Prelude Interfaces.

(** [TRANSLATE_RESULT_FAULT], and the cacheable flag of a result. *)
Definition TRANSLATE_RESULT_FAULT (fsr : Z) : Z := (1 .<< 63) .| (fsr .<< 32).
Definition MMU_DISABLED_TTP := 0xFFFFFFFF.

Record TlbEntry := mkTlbEntry {
  te_pa : Z;          (* uint32_t *)
  te_revision : Z;    (* 16 bits *)
  te_ap : Z;          (* 2 bits *)
  te_domain : Z;      (* 4 bits *)
  te_c : bool;
  te_section : bool
}.

Definition tlbEntry0 : TlbEntry := mkTlbEntry 0 0 0 0 false false.

Record ArmMmu (W : Type) := mkArmMmu {
  mem : W;
  transTablPA : Z;    (* uint32_t *)
  S_bit : bool;
  R_bit : bool;
  xscale : bool;
  domainCfg : Z;      (* uint32_t *)
  tlb : gmap Z TlbEntry;   (* [1 << 20] entries, zeroed where absent *)
  revision : Z        (* uint16_t *)
}.
Arguments mkArmMmu {W}.
Arguments mem {W}.
Arguments transTablPA {W}.
Arguments S_bit {W}.
Arguments R_bit {W}.
Arguments xscale {W}.
Arguments domainCfg {W}.
Arguments tlb {W}.
Arguments revision {W}.

Definition tlbAt (t : gmap Z TlbEntry) (i : Z) : TlbEntry := default tlbEntry0 (t !! i).

(** Where a walk ends: the block of addresses a descriptor maps. *)
Record mapping := mkMapping {
  m_paPage : Z; m_va : Z; m_sz : Z; m_ap : Z; m_c : bool; m_section : bool; m_dom : Z
}.

(** "handle 4 AP sections": a page whose quarters have the same permissions is
    one block, otherwise the block is the quarter that is needed, number [ap]. *)
Definition decodeQuarters (t dom paPage va sz ap : Z) (pxa_tex_page : bool) : mapping :=
  let c := tst t 0x08 in
  let i := (t .>> 4) .& 0xFF in
  if pxa_tex_page || (((i .& 0x0F) =? (i .>> 4)) && ((i .& 0x03) =? ((i .>> 2) .& 0x03)))
  then mkMapping paPage va sz ((t .>> 4) .& 3) c false dom
  else
    let sz := sz / 4 in
    mkMapping (u32 (paPage + ap * sz)) (u32 (va + ap * sz)) sz
      ((t .>> (4 + 2 * ap)) .& 3) c false dom.

(** The second-level descriptor [t] decoded: a fault status or a block. *)
Definition decodeL2 (xscale coarse : bool) (adr dom t : Z) : Z + mapping :=
  match t .& 3 with
  | 0 => inl (0x07 .| (dom .<< 4))
  | 1 => inr (decodeQuarters t dom (t .& 0xFFFF0000) (adr .& 0xFFFF0000) 65536
                ((adr .>> 14) .& 3) false)
  | 2 => inr (decodeQuarters t dom (t .& 0xFFFFF000) (adr .& 0xFFFFF000) 4096
                ((adr .>> 10) .& 3) false)
  | _ =>
      if coarse then
        if xscale then
          inr (decodeQuarters t dom (t .& 0xFFFFF000) (adr .& 0xFFFFF000) 4096 0 true)
        else inl 0x07 (* "invalid coarse page table entry" *)
      else
        inr (mkMapping (t .& 0xFFFFFC00) (adr .& 0xFFFFFC00) 1024 ((t .>> 4) .& 3)
               (tst t 0x08) false dom)
  end.

(** What the first-level descriptor [t] says: a fault, a section, or the
    address of the second-level descriptor. *)
Inductive l1_result :=
| L1Fault (fsr : Z)
| L1Section (m : mapping)
| L1Table (coarse : bool) (dom addr : Z).

Definition decodeL1 (adr t : Z) : l1_result :=
  let dom := (t .>> 5) .& 0x0F in
  match t .& 3 with
  | 0 => L1Fault 0x05
  | 1 => L1Table true dom (u32 ((t .& 0xFFFFFC00) + ((adr .& 0x000FF000) .>> 10)))
  | 2 => L1Section (mkMapping (t .& 0xFFF00000) (adr .& 0xFFF00000) (2 ^ 20) ((t .>> 10) .& 3)
                      (tst t 0x08) true dom)
  | _ => L1Table false dom (u32 ((t .& 0xFFFFF000) + ((adr .& 0x000FFC00) .>> 8)))
  end.

Section Operations.
Context {W : Type} `{PhysMem W}.

Definition mmuTlbFlush (mmu : ArmMmu W) : ArmMmu W :=
  let mmu := { mmu with revision ::= fun r => u16 (r + 1) } in
  if mmu.(revision) =? 0 then
    { mmu with revision := 1;
               tlb ::= fmap (fun e => { e with te_revision := 0 }) }
  else mmu.

Definition mmuReset (mmu : ArmMmu W) : ArmMmu W :=
  mmuTlbFlush { mmu with transTablPA := MMU_DISABLED_TTP }.

Definition mmuInit (w : W) (xscaleMode : bool) : ArmMmu W :=
  mmuReset (mkArmMmu w 0 false false xscaleMode 0 ∅ 0).

Definition mmuIsOn (mmu : ArmMmu W) : bool := negb (mmu.(transTablPA) =? MMU_DISABLED_TTP).

Definition checkPermissionsForWrite (mmu : ArmMmu W) (ap domain : Z) (section priviledged : bool)
  : Z :=
  let perm_err := (if section then 0x0D else 0x0F) .| (domain .<< 4) in
  match (mmu.(domainCfg) .>> (domain * 2)) .& 3 with
  | 0 | 2 => (if section then 0x08 else 0xB) .| (domain .<< 4)
  | 1 =>
      match ap with
      | 0 => perm_err
      | 1 | 2 => if negb priviledged then perm_err else 0
      | 3 => 0
      | _ => perm_err
      end
  | _ => 0
  end.

(** The loop that enters a block in the TLB. *)
Definition tlbFill (mmu : ArmMmu W) (m : mapping) : ArmMmu W :=
  if 1024 <? m.(m_sz) then
    { mmu with tlb ::= fun t =>
        fold_left (λ t k,
          let offset := 4096 * Z.of_nat k in
          <[u32 (m.(m_va) + offset) .>> 12 :=
              mkTlbEntry (u32 (m.(m_paPage) + offset)) mmu.(revision) m.(m_ap) m.(m_dom)
                m.(m_c) m.(m_section)]> t)
          (seq 0 (Z.to_nat (m.(m_sz) / 4096))) t }
  else mmu.

(** From the label [translated:] on. *)
Definition finishWalk (mmu : ArmMmu W) (m : mapping) (adr : Z) (priviledged write : bool)
  : Z * ArmMmu W :=
  let pa := u32 (u32 (adr - m.(m_va)) + m.(m_paPage)) in
  let mmu := tlbFill mmu m in
  let fsr :=
    if write then checkPermissionsForWrite mmu m.(m_ap) m.(m_dom) m.(m_section) priviledged else 0 in
  if nz fsr then (TRANSLATE_RESULT_FAULT fsr, mmu)
  else (if m.(m_c) then pa .| (1 .<< 62) else pa, mmu).

Definition translateAndCache (mmu : ArmMmu W) (adr : Z) (priviledged write : bool)
  : outcome (Z * ArmMmu W) :=
  if tst mmu.(transTablPA) 3 then Ret (TRANSLATE_RESULT_FAULT 0x01, mmu) else
  '(ok, t, w) ← mem_access mmu.(mem)
     (u32 (mmu.(transTablPA) + ((adr .& 0xFFF00000) .>> 18))) 4 false 0;
  let mmu := { mmu with mem := w } in
  if negb ok then Ret (TRANSLATE_RESULT_FAULT 0x0C, mmu) else
  match decodeL1 adr t with
  | L1Fault fsr => Ret (TRANSLATE_RESULT_FAULT fsr, mmu)
  | L1Section m => Ret (finishWalk mmu m adr priviledged write)
  | L1Table coarse dom addr =>
      '(ok, t, w) ← mem_access mmu.(mem) addr 4 false addr;
      let mmu := { mmu with mem := w } in
      if negb ok then Ret (TRANSLATE_RESULT_FAULT (0x0E .| (dom .<< 4)), mmu) else
      match decodeL2 mmu.(xscale) coarse adr dom t with
      | inl fsr => Ret (TRANSLATE_RESULT_FAULT fsr, mmu)
      | inr m => Ret (finishWalk mmu m adr priviledged write)
      end
  end.

Definition mmuTranslate (mmu : ArmMmu W) (addr : Z) (priviledged write : bool)
  : outcome (Z * ArmMmu W) :=
  if mmu.(transTablPA) =? MMU_DISABLED_TTP then Ret (addr, mmu) else
  let e := tlbAt mmu.(tlb) (addr .>> 12) in
  if negb (e.(te_revision) =? mmu.(revision)) then translateAndCache mmu addr priviledged write else
  let fsr :=
    if write then checkPermissionsForWrite mmu e.(te_ap) e.(te_domain) e.(te_section) priviledged
    else 0 in
  if nz fsr then Ret (TRANSLATE_RESULT_FAULT fsr, mmu) else
  let result := u32 ((addr .& 0xfff) + e.(te_pa)) in
  Ret (if e.(te_c) then result .| (1 .<< 62) else result, mmu).

Definition mmuGetTTP (mmu : ArmMmu W) : Z := mmu.(transTablPA).
Definition mmuSetTTP (mmu : ArmMmu W) (ttp : Z) : ArmMmu W :=
  { mmuTlbFlush mmu with transTablPA := ttp }.
Definition mmuSetS (mmu : ArmMmu W) (on : bool) : ArmMmu W := { mmu with S_bit := on }.
Definition mmuSetR (mmu : ArmMmu W) (on : bool) : ArmMmu W := { mmu with R_bit := on }.
Definition mmuGetS (mmu : ArmMmu W) : bool := mmu.(S_bit).
Definition mmuGetR (mmu : ArmMmu W) : bool := mmu.(R_bit).
Definition mmuGetDomainCfg (mmu : ArmMmu W) : Z := mmu.(domainCfg).
Definition mmuSetDomainCfg (mmu : ArmMmu W) (val : Z) : ArmMmu W := { mmu with domainCfg := val }.

End Operations.

(** ** The walk without a TLB *)

(** Reads of the page tables do not change the memory, and give [rd]. *)
Definition pure_reads {W} `{PhysMem W} (w : W) (rd : Z -> option Z) : Prop :=
  forall a b, mem_access w a 4 false b =
    Ret (match rd a with Some t => (true, t, w) | None => (false, b, w) end).

Definition l1_addr (ttp adr : Z) : Z := u32 (ttp + ((adr .& 0xFFF00000) .>> 18)).

(** The second-level descriptor that translates [adr], if it has one. *)
Definition l2_desc (rd : Z -> option Z) (ttp adr : Z) : option Z :=
  t ← rd (l1_addr ttp adr);
  match decodeL1 adr t with L1Table _ _ addr => rd addr | _ => None end.

Definition page_walk (rd : Z -> option Z) (ttp : Z) (xs : bool) (adr : Z) : Z + mapping :=
  if tst ttp 3 then inl 0x01 else
  match rd (l1_addr ttp adr) with
  | None => inl 0x0C
  | Some t =>
      match decodeL1 adr t with
      | L1Fault fsr => inl fsr
      | L1Section m => inr m
      | L1Table coarse dom addr =>
          match rd addr with
          | None => inl (0x0E .| (dom .<< 4))
          | Some t => decodeL2 xs coarse adr dom t
          end
      end
  end.

(** What a translation must answer. *)
Definition walk_translate {W} (mmu : ArmMmu W) (rd : Z -> option Z) (adr : Z)
    (priviledged write : bool) : Z :=
  if mmu.(transTablPA) =? MMU_DISABLED_TTP then adr else
  match page_walk rd mmu.(transTablPA) mmu.(xscale) adr with
  | inl fsr => TRANSLATE_RESULT_FAULT fsr
  | inr m => fst (finishWalk mmu m adr priviledged write)
  end.

(** The architecture's rule for large and small pages: their descriptor is
    repeated in every second-level slot they span. *)
Definition replicated (rd : Z -> option Z) (ttp : Z) : Prop :=
  forall adr adr' t, is_u 32 adr -> is_u 32 adr' -> l2_desc rd ttp adr = Some t ->
    (t .& 3 = 1 -> adr / 2 ^ 16 = adr' / 2 ^ 16 -> l2_desc rd ttp adr' = Some t) /\
    (t .& 3 = 2 -> adr / 2 ^ 12 = adr' / 2 ^ 12 -> l2_desc rd ttp adr' = Some t).

(** A valid entry holds what the walk of every address of its page gives. *)
Definition entry_agrees (e : TlbEntry) (adr : Z) (m : mapping) : Prop :=
  e.(te_ap) = m.(m_ap) /\ e.(te_domain) = m.(m_dom) /\ e.(te_c) = m.(m_c) /\
  e.(te_section) = m.(m_section) /\
  u32 ((adr .& 0xfff) + e.(te_pa)) = u32 (u32 (adr - m.(m_va)) + m.(m_paPage)).

Definition coherent {W} (mmu : ArmMmu W) (rd : Z -> option Z) : Prop :=
  forall adr, is_u 32 adr ->
    let e := tlbAt mmu.(tlb) (adr .>> 12) in
    e.(te_revision) = mmu.(revision) ->
    exists m, page_walk rd mmu.(transTablPA) mmu.(xscale) adr = inr m /\ entry_agrees e adr m.

(** Every entry is from this revision or an older one. *)
Definition mmu_wf {W} (mmu : ArmMmu W) : Prop :=
  1 <= mmu.(revision) < 2 ^ 16 /\
  forall i, 0 <= (tlbAt mmu.(tlb) i).(te_revision) <= mmu.(revision).

(** ** Blocks *)

(** The fields of an address a decoder looks at. *)
Lemma adr_fields adr :
  is_u 32 adr ->
  adr .& 0xFFF00000 = 2 ^ 20 * (adr / 2 ^ 20) /\ adr .& 0xFFFF0000 = 2 ^ 16 * (adr / 2 ^ 16) /\
  adr .& 0xFFFFF000 = 2 ^ 12 * (adr / 2 ^ 12) /\
  (adr .>> 14) .& 3 = (adr / 2 ^ 14) mod 4 /\ (adr .>> 10) .& 3 = (adr / 2 ^ 10) mod 4.
Proof.
  intros Ha. rewrite !shiftr_div by lia.
  split; [exact (land_high 20 adr Ha ltac:(lia))|].
  split; [exact (land_high 16 adr Ha ltac:(lia))|].
  split; [exact (land_high 12 adr Ha ltac:(lia))|].
  split; [exact (land_low 2 _ ltac:(lia))|exact (land_low 2 _ ltac:(lia))].
Qed.

Lemma div_div_pow2 x a b : 0 <= a <= b -> x / 2 ^ b = x / 2 ^ a / 2 ^ (b - a).
Proof.
  intros. rewrite Z.div_div by (try apply Z.pow_nonzero; try apply Z.pow_pos_nonneg; lia).
  f_equal. rewrite <- Z.pow_add_r by lia. f_equal. lia.
Qed.

Lemma same_block_coarser x y a b : 0 <= a <= b -> x / 2 ^ a = y / 2 ^ a -> x / 2 ^ b = y / 2 ^ b.
Proof. intros Hab E. by rewrite !(div_div_pow2 _ a b), E by done. Qed.

(** The block of addresses [decode] maps as it maps [adr]. *)
Definition is_block (m : mapping) (adr : Z) (decode : Z -> Z + mapping) : Prop :=
  exists k, 12 <= k <= 20 /\ m.(m_sz) = 2 ^ k /\ m.(m_va) = 2 ^ k * (adr / 2 ^ k) /\
    forall adr', is_u 32 adr' -> adr' / 2 ^ k = adr / 2 ^ k -> decode adr' = inr m.

Lemma quarters_block t dom paPage k tex adr :
  is_u 32 adr -> k = 12 \/ k = 16 ->
  let D adr' := decodeQuarters t dom paPage (2 ^ k * (adr' / 2 ^ k)) (2 ^ k)
                  ((adr' / 2 ^ (k - 2)) mod 4) tex in
  1024 < (D adr).(m_sz) ->
  exists j, 12 <= j <= k /\ (D adr).(m_sz) = 2 ^ j /\ (D adr).(m_va) = 2 ^ j * (adr / 2 ^ j) /\
    forall adr', is_u 32 adr' -> adr' / 2 ^ j = adr / 2 ^ j -> D adr' = D adr.
Proof.
  intros Ha Hk D. subst D. cbn beta. unfold decodeQuarters. set (u := tex || _).
  destruct u; cbn [m_sz m_va]; intros Hsz.
  { exists k. split; [lia|]. do 2 (split; [done|]). by intros adr' _ ->. }
  destruct Hk as [->| ->]; [by vm_compute in Hsz|]. exists 14. split; [lia|]. split; [done|].
  change (2 ^ 16 / 4) with (2 ^ 14). change (16 - 2) with 14. split.
  - unfold is_u in Ha. rewrite wrap_small; [|unfold is_u]; zdiv_lia.
  - intros adr' _ E. rewrite E. do 2 f_equal.
    by rewrite (same_block_coarser adr' adr 14 16) by (done || lia).
Qed.

Lemma decodeL2_block xs coarse adr dom t m :
  is_u 32 adr -> decodeL2 xs coarse adr dom t = inr m -> 1024 < m.(m_sz) ->
  is_block m adr (λ adr', decodeL2 xs coarse adr' dom t) /\
  (t .& 3 = 1 /\ m.(m_sz) <= 2 ^ 16 \/ t .& 3 = 2 /\ m.(m_sz) = 2 ^ 12 \/
   t .& 3 = 3 /\ coarse = true /\ m.(m_sz) = 2 ^ 12).
Proof.
  intros Ha Hm Hsz.
  assert (t .& 3 = 0 \/ t .& 3 = 1 \/ t .& 3 = 2 \/ t .& 3 = 3) as Ht.
  { pose proof (land_low 2 t ltac:(lia)) as E. change (2 ^ 2 - 1) with 3 in E. rewrite E.
    pose proof (Z.mod_pos_bound t (2 ^ 2) eq_refl). lia. }
  assert (forall k j, 12 <= j <= k -> k = 12 -> 2 ^ j = 2 ^ 12) as H12
    by (intros k j ? ->; f_equal; lia).
  unfold decodeL2 in Hm. destruct (adr_fields adr Ha) as (_ & E16 & E12 & E14 & E10).
  destruct Ht as [Et|[Et|[Et|Et]]]; rewrite Et in Hm.
  - done.
  - rewrite E16, E14 in Hm. injection Hm as <-.
    destruct (quarters_block t dom (t .& 0xFFFF0000) 16 false adr) as (j & Hj & Es & Ev & Hd);
      [done|by right|exact Hsz|]. split.
    + exists j. split; [lia|]. do 2 (split; [done|]). intros adr' Ha' E.
      destruct (adr_fields adr' Ha') as (_ & F16 & _ & F14 & _).
      unfold decodeL2. rewrite Et, F16, F14. f_equal. by apply Hd.
    + left. split; [done|]. eapply Z.le_trans; [apply Z.eq_le_incl; exact Es|].
      apply Z.pow_le_mono_r; lia.
  - rewrite E12, E10 in Hm. injection Hm as <-.
    destruct (quarters_block t dom (t .& 0xFFFFF000) 12 false adr) as (j & Hj & Es & Ev & Hd);
      [done|by left|exact Hsz|]. split.
    + exists j. split; [lia|]. do 2 (split; [done|]). intros adr' Ha' E.
      destruct (adr_fields adr' Ha') as (_ & _ & F12 & _ & F10).
      unfold decodeL2. rewrite Et, F12, F10. f_equal. by apply Hd.
    + right. left. split; [done|]. etransitivity; [exact Es|]. by apply (H12 12).
  - destruct coarse; [destruct xs|]; [|done|injection Hm as <-; cbn in Hsz; lia].
    rewrite E12 in Hm. injection Hm as <-. split; [|by right; right].
    exists 12. split; [lia|]. do 2 (split; [done|]). intros adr' Ha' E.
    destruct (adr_fields adr' Ha') as (_ & _ & F12 & _).
    unfold decodeL2. rewrite Et, F12, E. done.
Qed.

(** The first-level descriptor and the second-level slot depend on the high
    bits of the address only. *)
Lemma l1_addr_same ttp adr adr' :
  is_u 32 adr -> is_u 32 adr' -> adr' / 2 ^ 20 = adr / 2 ^ 20 -> l1_addr ttp adr' = l1_addr ttp adr.
Proof.
  intros Ha Ha' E. unfold l1_addr. destruct (adr_fields adr Ha) as [-> _].
  destruct (adr_fields adr' Ha') as [-> _]. by rewrite E.
Qed.

Lemma coarse_slot_same adr adr' :
  adr' / 2 ^ 12 = adr / 2 ^ 12 -> adr' .& 0x000FF000 = adr .& 0x000FF000.
Proof.
  intros E. apply (land_same_high _ _ _ 12); [lia|done|].
  apply (bit_index_cases (λ i, Z.testbit 0xFF000 i = false) 12). by vm_compute; repeat constructor.
Qed.

Lemma decodeL1_table adr adr' t coarse dom addr :
  decodeL1 adr t = L1Table coarse dom addr ->
  exists addr', decodeL1 adr' t = L1Table coarse dom addr' /\
    (coarse = true -> adr' / 2 ^ 12 = adr / 2 ^ 12 -> addr' = addr).
Proof.
  assert (t .& 3 = 0 \/ t .& 3 = 1 \/ t .& 3 = 2 \/ t .& 3 = 3) as Ht.
  { pose proof (land_low 2 t ltac:(lia)) as E. change (2 ^ 2 - 1) with 3 in E. rewrite E.
    pose proof (Z.mod_pos_bound t (2 ^ 2) eq_refl). lia. }
  unfold decodeL1. destruct Ht as [-> |[-> |[-> | ->]]]; try done; intros [= <- <- <-]; eexists;
    (split; [done|]); [|done].
  intros _ E. by rewrite (coarse_slot_same adr adr' E).
Qed.

Lemma walk_block rd ttp xs adr m :
  replicated rd ttp -> is_u 32 adr ->
  page_walk rd ttp xs adr = inr m -> 1024 < m.(m_sz) ->
  is_block m adr (page_walk rd ttp xs).
Proof.
  intros Hrep Ha Hw Hsz. pose proof Hw as Hw0. unfold page_walk in Hw.
  destruct (tst ttp 3) eqn:Ettp; [done|].
  destruct (rd (l1_addr ttp adr)) as [t|] eqn:E1; [|done].
  destruct (decodeL1 adr t) as [fsr|m'|coarse dom addr] eqn:Ed; [done| |].
  - injection Hw as ->. unfold decodeL1 in Ed.
    destruct (adr_fields adr Ha) as [E20 _].
    assert (m = mkMapping (t .& 0xFFF00000) (adr .& 0xFFF00000) (2 ^ 20) ((t .>> 10) .& 3)
              (tst t 0x08) true ((t .>> 5) .& 0x0F) /\
      forall adr', decodeL1 adr' t = L1Section (mkMapping (t .& 0xFFF00000) (adr' .& 0xFFF00000)
        (2 ^ 20) ((t .>> 10) .& 3) (tst t 0x08) true ((t .>> 5) .& 0x0F))) as [-> Hd].
    { unfold decodeL1. repeat case_match; simplify_eq; done. }
    exists 20. split; [lia|]. split; [done|]. split; [exact E20|]. intros adr' Ha' E.
    unfold page_walk. rewrite Ettp, (l1_addr_same ttp adr adr'), E1, Hd by done.
    destruct (adr_fields adr' Ha') as [-> _]. by rewrite E20, E.
  - destruct (rd addr) as [t2|] eqn:E2; [|done].
    assert (l2_desc rd ttp adr = Some t2) as El2.
    { unfold l2_desc. rewrite E1. cbn. by rewrite Ed. }
    destruct (decodeL2_block xs coarse adr dom t2 m Ha Hw Hsz) as [(k & Hk & Es & Ev & Hd) Hkind].
    exists k. do 3 (split; [done|]). intros adr' Ha' E.
    assert (k <= 16) as Hk16.
    { destruct (Z.le_gt_cases k 16) as [|Hgt]; [done|].
      pose proof (Z.pow_lt_mono_r 2 16 k). destruct Hkind as [[_ ?]|[[_ ?]|[_ [_ ?]]]]; lia. }
    assert (l1_addr ttp adr' = l1_addr ttp adr) as El1.
    { apply l1_addr_same; [done..|]. apply (same_block_coarser adr' adr k 20); [lia|done]. }
    destruct (decodeL1_table adr adr' t coarse dom addr Ed) as (addr' & Ed' & Hsame).
    assert (rd addr' = Some t2) as E2'.
    { assert (l2_desc rd ttp adr' = Some t2 -> rd addr' = Some t2) as Hl2.
      { unfold l2_desc. rewrite El1, E1. cbn. by rewrite Ed'. }
      destruct (Hrep adr adr' t2 Ha Ha' El2) as [R1 R2].
      destruct Hkind as [[Ht _]|[[Ht Es']|[Ht [Hc Es']]]].
      - apply Hl2, R1; [done|]. symmetry. apply (same_block_coarser adr' adr k 16); [lia|done].
      - apply Hl2, R2; [done|]. symmetry.
        rewrite Es in Es'. apply Z.pow_inj_r in Es'; [|lia..]. by subst k.
      - rewrite Hsame; [done|done|].
        rewrite Es in Es'. apply Z.pow_inj_r in Es'; [|lia..]. by subst k. }
    unfold page_walk. rewrite Ettp, El1, E1, Ed', E2'.
    by apply Hd.
Qed.

(** ** The TLB *)

Lemma fold_insert_lookup {A} (key : nat -> Z) (g : nat -> A) (b : Z) (n : nat) (t : gmap Z A) i :
  (forall k, (k < n)%nat -> key k = b + Z.of_nat k) ->
  fold_left (λ t k, <[key k := g k]> t) (seq 0 n) t !! i =
  if (b <=? i) && (i <? b + Z.of_nat n) then Some (g (Z.to_nat (i - b))) else t !! i.
Proof.
  induction n as [|n IH]; intros Hk.
  - change (Z.of_nat 0) with 0. rewrite Z.add_0_r. cbn [seq fold_left].
    destruct (Z.leb_spec b i), (Z.ltb_spec i b); cbn; (done || lia).
  - rewrite seq_S, fold_left_app. cbn [fold_left]. rewrite Nat.add_0_l, Hk by lia.
    destruct (Z.eq_dec (b + Z.of_nat n) i) as [<-|Hne].
    + rewrite lookup_insert_eq. destruct (Z.leb_spec b (b + Z.of_nat n)); [|lia].
      destruct (Z.ltb_spec (b + Z.of_nat n) (b + Z.of_nat (S n))); [|lia].
      cbn [andb]. do 2 f_equal. lia.
    + rewrite lookup_insert_ne by done. rewrite IH by auto.
      destruct (Z.leb_spec b i), (Z.ltb_spec i (b + Z.of_nat n)),
        (Z.ltb_spec i (b + Z.of_nat (S n))); cbn; (done || lia).
Qed.

Section Tlb.
Context {W : Type} `{PhysMem W}.
Implicit Types mmu : ArmMmu W.

Lemma fill_setup mmu m :
  let mmu' := tlbFill mmu m in
  mmu'.(transTablPA) = mmu.(transTablPA) /\ mmu'.(xscale) = mmu.(xscale) /\
  mmu'.(revision) = mmu.(revision) /\ mmu'.(mem) = mmu.(mem) /\
  mmu'.(domainCfg) = mmu.(domainCfg) /\ mmu'.(S_bit) = mmu.(S_bit) /\ mmu'.(R_bit) = mmu.(R_bit).
Proof. cbv zeta. unfold tlbFill. destruct (1024 <? m.(m_sz)), mmu; done. Qed.

(** The entries a block of [2^k] bytes sets. *)
Lemma fill_at mmu m adr k i :
  is_u 32 adr -> 12 <= k <= 20 -> m.(m_sz) = 2 ^ k -> m.(m_va) = 2 ^ k * (adr / 2 ^ k) ->
  0 <= i ->
  tlbAt (tlbFill mmu m).(tlb) i =
  if i / 2 ^ (k - 12) =? adr / 2 ^ k then
    mkTlbEntry (u32 (m.(m_paPage) + 4096 * (i - m.(m_va) / 4096))) mmu.(revision)
      m.(m_ap) m.(m_dom) m.(m_c) m.(m_section)
  else tlbAt mmu.(tlb) i.
Proof.
  intros Ha Hk Hsz Hva Hi.
  assert (2 ^ k = 4096 * 2 ^ (k - 12)) as E2.
  { replace k with (12 + (k - 12)) at 1 by lia. by rewrite Z.pow_add_r by lia. }
  pose proof (Z.pow_pos_nonneg 2 (k - 12) ltac:(lia) ltac:(lia)) as Hpos.
  set (q := 2 ^ (k - 12)) in *. set (B := adr / 2 ^ k) in *.
  assert (m.(m_va) / 4096 = q * B) as Eva.
  { rewrite Hva, E2, <- Z.mul_assoc, Z.mul_comm. by apply Z.div_mul. }
  assert (0 <= B /\ 2 ^ k * B <= adr) as [HB HBa].
  { split; [apply Z.div_pos; [apply Ha|lia]|]. apply Z.mul_div_le. lia. }
  assert (m.(m_va) + 2 ^ k <= 2 ^ 32) as Hend.
  { assert (B < 2 ^ (32 - k)) as HBu.
    { apply Z.div_lt_upper_bound; [lia|]. rewrite <- Z.pow_add_r by lia.
      replace (k + (32 - k)) with 32 by lia. apply Ha. }
    assert (2 ^ 32 = 2 ^ k * 2 ^ (32 - k)) as E32
      by (rewrite <- Z.pow_add_r by lia; f_equal; lia).
    rewrite Hva, E32. nia. }
  unfold tlbFill. rewrite Hsz. destruct (Z.ltb_spec 1024 (2 ^ k)); [|nia].
  assert (2 ^ k / 4096 = q) as Eq by (rewrite E2, Z.mul_comm; by apply Z.div_mul).
  rewrite Eq.
  assert (forall f, ({ mmu with tlb ::= f }).(tlb) = f mmu.(tlb)) as Ef by (intros; by destruct mmu).
  rewrite Ef. unfold tlbAt at 1. cbv zeta.
  rewrite (fold_insert_lookup _ _ (q * B)).
  2:{ intros j Hj. rewrite wrap_small by (unfold is_u; nia). rewrite shiftr_div by lia.
      change (2 ^ 12) with 4096. rewrite (Z.mul_comm 4096), Z.div_add by lia. lia. }
  rewrite Z2Nat.id by lia.
  assert ((q * B <=? i) && (i <? q * B + q) = (i / q =? B)) as ->.
  { apply eq_true_iff_eq. rewrite andb_true_iff, Z.leb_le, Z.ltb_lt, Z.eqb_eq.
    pose proof (Z.div_mod i q ltac:(lia)). pose proof (Z.mod_pos_bound i q Hpos). nia. }
  destruct (Z.eqb_spec (i / q) B) as [EB|]; [|done]. cbn. rewrite Eva.
  pose proof (Z.mul_div_le i q Hpos). by rewrite Z2Nat.id by nia.
Qed.

Lemma page_of adr k : is_u 32 adr -> 12 <= k -> adr .>> 12 / 2 ^ (k - 12) = adr / 2 ^ k.
Proof. intros Ha Hk. rewrite shiftr_div by lia. symmetry. apply div_div_pow2. lia. Qed.

(** Filling the TLB with the block of a walk keeps it coherent. *)
Lemma fill_coherent mmu rd adr m :
  replicated rd mmu.(transTablPA) -> coherent mmu rd -> is_u 32 adr ->
  page_walk rd mmu.(transTablPA) mmu.(xscale) adr = inr m ->
  coherent (tlbFill mmu m) rd.
Proof.
  intros Hrep Hco Ha Hw adr' Ha'. destruct (fill_setup mmu m) as (-> & -> & -> & _).
  destruct (Z.lt_ge_cases 1024 m.(m_sz)) as [Hsz|Hsz].
  2:{ unfold tlbFill. destruct (Z.ltb_spec 1024 m.(m_sz)); [lia|]. by apply Hco. }
  destruct (walk_block rd _ _ adr m Hrep Ha Hw Hsz) as (k & Hk & Es & Ev & Hd).
  cbv zeta. rewrite (fill_at mmu m adr k) by (try apply Z.shiftr_nonneg; apply Ha' || done).
  rewrite page_of by (done || lia).
  destruct (Z.eqb_spec (adr' / 2 ^ k) (adr / 2 ^ k)) as [E|]; [|by apply Hco].
  intros _. exists m. split; [by apply Hd|]. unfold entry_agrees; cbn.
  do 4 (split; [done|]).
  assert (m.(m_va) = 4096 * (m.(m_va) / 4096)) as Eva.
  { rewrite Ev. replace k with (12 + (k - 12)) at 1 3 by lia. rewrite Z.pow_add_r by lia.
    change (2 ^ 12) with 4096. rewrite <- Z.mul_assoc, (Z.mul_comm 4096), Z.div_mul by lia. lia. }
  pose proof (land_low 12 adr' ltac:(lia)) as El. change (2 ^ 12 - 1) with 0xfff in El.
  rewrite El, shiftr_div by lia. change (2 ^ 12) with 4096.
  pose proof (Z.div_mod adr' 4096 ltac:(lia)).
  unfold wrap. rewrite Zplus_mod_idemp_r, Zplus_mod_idemp_l. f_equal. lia.
Qed.
End Tlb.

Section Translate.
Context {W : Type} `{PhysMem W}.
Implicit Types mmu : ArmMmu W.

Lemma finishWalk_fill mmu m adr p w : snd (finishWalk mmu m adr p w) = tlbFill mmu m.
Proof. unfold finishWalk. by destruct (nz _). Qed.

Lemma translateAndCache_walk mmu rd adr p w :
  pure_reads mmu.(mem) rd ->
  translateAndCache mmu adr p w =
  Ret (match page_walk rd mmu.(transTablPA) mmu.(xscale) adr with
       | inl fsr => (TRANSLATE_RESULT_FAULT fsr, mmu)
       | inr m => finishWalk mmu m adr p w
       end).
Proof.
  intros Hpure. unfold translateAndCache, page_walk.
  destruct (tst mmu.(transTablPA) 3); [done|].
  assert ({ mmu with mem := mmu.(mem) } = mmu) as Emem by by destruct mmu.
  fold (l1_addr mmu.(transTablPA) adr). rewrite Hpure.
  destruct (rd (l1_addr _ _)) as [t|]; cbn [mbind outcome_bind negb]; rewrite Emem; [|done].
  destruct (decodeL1 adr t) as [fsr|m|coarse dom addr]; [done..|].
  rewrite Hpure. destruct (rd addr) as [t2|]; cbn [mbind outcome_bind negb]; rewrite Emem; [|done].
  by destruct (decodeL2 _ _ _ _ _).
Qed.

Lemma fill_wf mmu rd adr m :
  replicated rd mmu.(transTablPA) -> is_u 32 adr ->
  page_walk rd mmu.(transTablPA) mmu.(xscale) adr = inr m ->
  mmu_wf mmu -> mmu_wf (tlbFill mmu m).
Proof.
  intros Hrep Ha Hw [Hr Hall]. destruct (fill_setup mmu m) as (_ & _ & Er & _).
  split; [by rewrite Er|]. intros i. rewrite Er.
  destruct (Z.lt_ge_cases 1024 m.(m_sz)) as [Hsz|Hsz].
  2:{ unfold tlbFill. destruct (Z.ltb_spec 1024 m.(m_sz)); [lia|]. apply Hall. }
  destruct (walk_block rd _ _ adr m Hrep Ha Hw Hsz) as (k & Hk & Es & Ev & _).
  destruct (Z.le_gt_cases 0 i) as [Hi|Hi].
  - rewrite (fill_at mmu m adr k) by done. destruct (_ =? _); [cbn; lia|apply Hall].
  - unfold tlbFill. destruct (Z.ltb_spec 1024 m.(m_sz)); [|lia].
    assert (forall f, ({ mmu with tlb ::= f }).(tlb) = f mmu.(tlb)) as Ef by (intros; by destruct mmu).
    rewrite Ef. unfold tlbAt.
    assert (forall l t, (fold_left (λ t k, <[u32 (m_va m + 4096 * Z.of_nat k) .>> 12 :=
      mkTlbEntry (u32 (m_paPage m + 4096 * Z.of_nat k)) (revision mmu) (m_ap m) (m_dom m) (m_c m)
        (m_section m)]> t) l t) !! i = t !! i) as ->; [|apply Hall].
    induction l as [|x l IH]; intros t; [done|]. cbn. rewrite IH. apply lookup_insert_ne.
    pose proof (wrap_is_u 32 (m_va m + 4096 * Z.of_nat x) ltac:(lia)) as [Hu _].
    apply (Z.shiftr_nonneg _ 12) in Hu. lia.
Qed.

Lemma entry_result mmu e adr m (p w : bool) :
  entry_agrees e adr m ->
  (let fsr := if w then checkPermissionsForWrite mmu e.(te_ap) e.(te_domain) e.(te_section) p else 0 in
   if nz fsr then TRANSLATE_RESULT_FAULT fsr else
   let result := u32 ((adr .& 0xfff) + e.(te_pa)) in
   if e.(te_c) then result .| (1 .<< 62) else result) = fst (finishWalk mmu m adr p w).
Proof.
  intros (-> & -> & -> & -> & ->). unfold finishWalk.
  assert (forall ap d s, checkPermissionsForWrite (tlbFill mmu m) ap d s p
    = checkPermissionsForWrite mmu ap d s p) as Ec.
  { intros. unfold checkPermissionsForWrite.
    destruct (fill_setup mmu m) as (_ & _ & _ & _ & -> & _). done. }
  cbv zeta. rewrite Ec. by destruct (nz _).
Qed.

Lemma mmuTlbFlush_misses mmu :
  mmu_wf mmu ->
  mmu_wf (mmuTlbFlush mmu) /\
  forall i, (tlbAt (mmuTlbFlush mmu).(tlb) i).(te_revision) <> (mmuTlbFlush mmu).(revision).
Proof.
  intros [Hr Hall]. unfold mmuTlbFlush, mmu_wf.
  destruct mmu as [w ttp sb rb xs dc t r]; cbn in *.
  assert (forall i, (tlbAt ((λ e, { e with te_revision := 0 }) <$> t) i).(te_revision) = 0) as Hz.
  { intros i. unfold tlbAt. rewrite lookup_fmap. by destruct (t !! i) as [[]|]. }
  destruct (Z.eq_dec r (2 ^ 16 - 1)) as [->|Hne].
  - change (u16 (2 ^ 16 - 1 + 1)) with 0. cbn. split.
    + split; [lia|]. intros i. rewrite Hz. lia.
    + intros i. rewrite Hz. lia.
  - assert (u16 (r + 1) = r + 1) as -> by (apply wrap_small; unfold is_u; lia).
    destruct (Z.eqb_spec (r + 1) 0); [lia|]. cbn. split.
    + split; [lia|]. intros i. specialize (Hall i). lia.
    + intros i. specialize (Hall i). lia.
Qed.

End Translate.

(** C9. Address translation is the page walk: while the page tables read the same,
    [mmuTranslate] returns, with or without a TLB hit, the physical address,
    cacheability or fault status the walk of the tables gives under the
    current domain configuration, and keeps the TLB coherent. *)
Theorem mmu_translate_is_walk {W} `{PhysMem W} (mmu : ArmMmu W) (rd : Z -> option Z) (adr : Z)
    (priviledged write : bool)
    (Hpure : pure_reads mmu.(mem) rd) (Hrep : replicated rd mmu.(transTablPA))
    (Hwf : mmu_wf mmu) (Hco : coherent mmu rd) (Hadr : is_u 32 adr) :
  exists mmu',
    mmuTranslate mmu adr priviledged write
      = Ret (walk_translate mmu rd adr priviledged write, mmu') /\
    coherent mmu' rd /\ mmu_wf mmu' /\
    mmu'.(mem) = mmu.(mem) /\ mmu'.(transTablPA) = mmu.(transTablPA) /\
    mmu'.(xscale) = mmu.(xscale) /\ mmu'.(domainCfg) = mmu.(domainCfg).
Proof.
  unfold mmuTranslate, walk_translate.
  destruct (_ =? MMU_DISABLED_TTP); [by exists mmu|]. cbv zeta.
  set (e := tlbAt mmu.(tlb) (adr .>> 12)).
  destruct (Z.eqb_spec e.(te_revision) mmu.(revision)) as [Ehit|]; cbn [negb].
  - destruct (Hco adr Hadr Ehit) as (m & Ew & He). rewrite Ew.
    exists mmu. rewrite <- (entry_result mmu e adr m priviledged write He). cbv zeta.
    split; [by destruct (nz _)|done].
  - rewrite (translateAndCache_walk mmu rd) by done.
    destruct (page_walk rd _ _ adr) as [fsr|m] eqn:Ew; [by exists mmu|].
    exists (tlbFill mmu m).
    rewrite <- (finishWalk_fill mmu m adr priviledged write) at 1.
    rewrite <- surjective_pairing. split; [done|].
    destruct (fill_setup mmu m) as (-> & -> & _ & -> & -> & _).
    split; [by eapply fill_coherent|]. split; [by eapply fill_wf|done].
Qed.

(** C10. Flushing: after a TLB flush, a change of the translation table or a reset,
    also when the 16-bit revision wraps around, no entry is valid, so the TLB
    is coherent with whatever the page tables then hold. *)
Theorem mmu_flush_forgets {W} `{PhysMem W} (mmu : ArmMmu W) (ttp : Z) (rd : Z -> option Z)
    (Hwf : mmu_wf mmu) :
  let flushed (mmu' : ArmMmu W) :=
    mmu_wf mmu' /\ coherent mmu' rd /\
    forall i, (tlbAt mmu'.(tlb) i).(te_revision) <> mmu'.(revision) in
  flushed (mmuTlbFlush mmu) /\ flushed (mmuSetTTP mmu ttp) /\ flushed (mmuReset mmu).
Proof.
  intros flushed.
  assert (forall mmu1 : ArmMmu W, mmu_wf mmu1 ->
    (forall i, (tlbAt mmu1.(tlb) i).(te_revision) <> mmu1.(revision)) -> flushed mmu1) as Hf.
  { intros mmu1 Hw Hm. split; [done|]. split; [|done]. intros adr _ e He. by destruct (Hm _ He). }
  destruct (mmuTlbFlush_misses mmu Hwf) as [Hw Hm].
  split; [by apply Hf|]. split.
  - apply Hf; unfold mmuSetTTP; by destruct (mmuTlbFlush mmu).
  - unfold mmuReset. apply Hf; apply mmuTlbFlush_misses; by destruct mmu.
Qed.

(** ** A concrete machine: page tables given by a function *)

#[export] Instance table_mem : PhysMem (Z -> option Z) :=
  {| mem_access f a size write b :=
       if write then Ret (false, b, f) else
       Ret (match f a with Some t => (true, t, f) | None => (false, b, f) end) |}.

(** Every megabyte has a coarse table whose pages all map 0xa0000000. *)
Definition demo_tables (a : Z) : option Z :=
  Some (if a <? 0x8000 then 0x8001 else 0xa0000ffe).

Definition demo_mmu : ArmMmu (Z -> option Z) :=
  mmuSetDomainCfg (mmuSetTTP (mmuInit demo_tables true) 0x4000) 1.

Lemma demo_mmu_wf : mmu_wf (mmuInit demo_tables true).
Proof. split; [vm_compute; split; [discriminate|reflexivity]|]. intros i.
  change (0 <= (tlbAt ∅ i).(te_revision) <= 1). unfold tlbAt. rewrite lookup_empty. cbn. lia.
Qed.

Lemma demo_replicated : replicated demo_tables 0x4000.
Proof.
  intros adr adr' t Ha Ha' Hl.
  assert (forall x, is_u 32 x -> l2_desc demo_tables 0x4000 x = Some 0xa0000ffe) as Hall.
  { intros x Hx. unfold l2_desc, demo_tables at 1; cbn.
    assert ((l1_addr 0x4000 x <? 0x8000) = true) as ->.
    { apply Z.ltb_lt. unfold l1_addr. destruct (adr_fields x Hx) as [-> _].
      rewrite shiftr_div by lia. unfold is_u in Hx.
      rewrite wrap_small; [|unfold is_u]; zdiv_lia. }
    change (decodeL1 x 32769) with (L1Table true 0 (u32 (0x8000 + ((x .& 1044480) .>> 10)))).
    unfold demo_tables.
    assert (0 <= (x .& 1044480) .>> 10) by (apply Z.shiftr_nonneg, Z.land_nonneg; lia).
    assert ((x .& 1044480) .>> 10 < 0x10000).
    { rewrite shiftr_div by lia. apply Z.div_lt_upper_bound; [lia|].
      assert (is_u 20 (x .& 1044480)) as [_ Hb]; [|lia].
      apply is_u_land_r; [is_u_lit|lia]. }
    rewrite wrap_small by (unfold is_u; lia).
    destruct (Z.ltb_spec (0x8000 + ((x .& 1044480) .>> 10)) 0x8000); [lia|done]. }
  rewrite !Hall in * by done. injection Hl as <-. split; [|done]. intros Et. discriminate Et.
Qed.

Lemma mmu_translate_is_walk_witness :
  exists mmu', mmuTranslate demo_mmu 0x12345678 false false = Ret (0x40000000a0000678, mmu') /\
    coherent mmu' demo_tables.
Proof.
  destruct (mmu_translate_is_walk demo_mmu demo_tables 0x12345678 false false)
    as (mmu' & E & Hco & _).
  - intros a b. reflexivity.
  - exact demo_replicated.
  - destruct (mmuTlbFlush_misses _ demo_mmu_wf) as [Hw _]. exact Hw.
  - intros adr _ e He. change ((tlbAt ∅ (adr .>> 12)).(te_revision) = 2) in He.
    unfold tlbAt in He. rewrite lookup_empty in He. discriminate He.
  - is_u_lit.
  - exists mmu'. split; [|done]. rewrite E. reflexivity.
Defined.

(** A flush at the last revision number. *)
Lemma mmu_flush_forgets_witness :
  let mmu := { demo_mmu with revision := 0xffff; tlb := <[5 := mkTlbEntry 0 1 0 0 false false]> ∅ } in
  (mmuTlbFlush mmu).(revision) = 1 /\
  (tlbAt (mmuTlbFlush mmu).(tlb) 5).(te_revision) <> (mmuTlbFlush mmu).(revision).
Proof.
  intros mmu. split; [reflexivity|].
  apply (mmu_flush_forgets mmu 0 demo_tables).
  split; [vm_compute; split; [discriminate|reflexivity]|].
  intros i. cbn. unfold tlbAt. destruct (Z.eq_dec i 5) as [->|].
  - rewrite lookup_insert_eq. cbn. lia.
  - rewrite lookup_insert_ne, lookup_empty by done. cbn. lia.
Defined.
