(* ===== verification/Cp15.v ===== *)
(** * The system control coprocessor (cp15.c) *)

From stdpp Require Import relations.
From S2P Require Import Prelude Interfaces CpuSoc Mmu.

Record ArmCP15 (W I : Type) := mkArmCP15 {
  cpu : ArmCpu;
  mmu : ArmMmu W;
  icache : I;
  control : Z;       (* uint32_t *)
  ttb : Z;           (* uint32_t *)
  FSR : Z;           (* uint32_t *)
  FAR : Z;           (* uint32_t *)
  un0 : Z;           (* the union's first word: CPAR, or the bytes cfg, iMin, iMax *)
  un1 : Z;           (* the union's second word: ACP, or the half-word tid *)
  mmuSwitchCy : Z;   (* uint32_t *)
  cpuid : Z;
  cacheId : Z;
  cp_xscale : bool;
  cp_omap : bool
}.
Arguments mkArmCP15 {W I}.
Arguments cpu {W I}.
Arguments mmu {W I}.
Arguments icache {W I}.
Arguments control {W I}.
Arguments ttb {W I}.
Arguments FSR {W I}.
Arguments FAR {W I}.
Arguments un0 {W I}.
Arguments un1 {W I}.
Arguments mmuSwitchCy {W I}.
Arguments cpuid {W I}.
Arguments cacheId {W I}.
Arguments cp_xscale {W I}.
Arguments cp_omap {W I}.

(** A byte or half-word of a union word, read and written in place. *)
Definition field_get (word pos width : Z) : Z := wrap width (word .>> pos).
Definition field_set (word pos width val : Z) : Z :=
  (word .&~ (Z.ones width .<< pos)) .| (wrap width val .<< pos).

Section Operations.
Context {W I : Type} `{PhysMem W} `{ICachePort I}.

Definition cp15Cycle (cp15 : ArmCP15 W I) : ArmCP15 W I :=
  if nz cp15.(mmuSwitchCy) then
    let cp15 := { cp15 with mmuSwitchCy ::= fun n => n - 1 } in
    if cp15.(mmuSwitchCy) =? 0 then
      { cp15 with mmu ::= fun m =>
          mmuSetTTP m (if tst cp15.(control) 0x00000001 then cp15.(ttb) else MMU_DISABLED_TTP) }
    else cp15
  else cp15.

(** A write of [val] to the control register. *)
Definition writeControl (cp15 : ArmCP15 W I) (val : Z) : outcome (ArmCP15 W I) :=
  let val := (val .| 0x0070) .&~ 0x0080 in
  let tmp := val .^ cp15.(control) in
  if tst tmp 0x84F0 then Hang (* "unknown bits changed, halting" *) else
  let cp15 :=
    if tst tmp 0x00002000 then
      { cp15 with cpu ::= fun c =>
          cpuSetVectorAddr c (if tst val 0x00002000 then 0xFFFF0000 else 0x00000000);
        control ::= fun c => c .^ 0x00002000 }
    else cp15 in
  let cp15 :=
    if tst tmp 0x00000200 then
      { cp15 with mmu ::= fun m => mmuSetR m (tst val 0x00000200);
        control ::= fun c => c .^ 0x00000200 }
    else cp15 in
  let cp15 :=
    if tst tmp 0x00000100 then
      { cp15 with mmu ::= fun m => mmuSetS m (tst val 0x00000100);
        control ::= fun c => c .^ 0x00000100 }
    else cp15 in
  let cp15 :=
    if tst tmp 0x00000001 then
      { cp15 with mmuSwitchCy := 2; control ::= fun c => c .^ 0x00000001 }
    else cp15 in
  Ret cp15.

(** A write of [val] to the translation table base. *)
Definition writeTtb (cp15 : ArmCP15 W I) (val : Z) : ArmCP15 W I :=
  let cp15 := if tst cp15.(control) 0x00000001 (* mmu is on *)
              then { cp15 with mmu ::= fun m => mmuSetTTP m val } else cp15 in
  { cp15 with ttb := val }.

(** [Some (val, cp15)] is [goto success] with the value read, [None] [goto fail]. *)
Definition xferBody (cp15 : ArmCP15 W I) (read : bool) (CRn CRm op2 val : Z)
  : outcome (option (Z * ArmCP15 W I)) :=
  let success (v : Z) (s : ArmCP15 W I) := Ret (Some (v, s)) in
  let fail := Ret None in
  let rw (v : Z) (s : ArmCP15 W I) := if read then success v cp15 else success val s in
  match CRn with
  | 0 =>
      if negb read then fail else
      if negb (CRm =? 0) then fail else
      if op2 =? 0 then success cp15.(cpuid) cp15 else
      if op2 =? 1 then success cp15.(cacheId) cp15 else fail
  | 1 =>
      if (op2 =? 0) && (CRm =? 0) then
        if read then success cp15.(control) cp15
        else s ← writeControl cp15 val; success val s
      else if CRm =? 1 then rw 0 cp15
      else if cp15.(cp_xscale) && (op2 =? 1) then rw cp15.(un1) { cp15 with un1 := val }
      else fail
  | 2 => rw cp15.(ttb) (writeTtb cp15 val)
  | 3 => rw (mmuGetDomainCfg cp15.(mmu)) { cp15 with mmu ::= fun m => mmuSetDomainCfg m val }
  | 5 => rw cp15.(FSR) { cp15 with FSR := val }
  | 6 => rw cp15.(FAR) { cp15 with FAR := val }
  | 7 =>
      let CRm57 := (CRm =? 5) || (CRm =? 7) in
      if CRm57 && (op2 =? 0) then success val { cp15 with icache ::= icacheInval } else
      if CRm57 && (op2 =? 1) then
        success val { cp15 with icache ::= fun i => icacheInvalAddr i val } else
      if CRm57 && (op2 =? 2) then success val { cp15 with icache ::= icacheInval } else
      if (CRm =? 10) && (op2 =? 4) || (CRm =? 10) && (op2 =? 1) || (CRm =? 6) && (op2 =? 0) ||
         (CRm =? 6) && (op2 =? 1) || (CRm =? 6) && (op2 =? 2) || (CRm =? 2) && (op2 =? 5) ||
         (CRm =? 5) && (op2 =? 6) || (CRm =? 0) && (op2 =? 4) || (CRm =? 14) && (op2 =? 2) ||
         (CRm =? 10) && (op2 =? 0) || (CRm =? 10) && (op2 =? 2)
      then success val cp15 else fail
  | 8 => success val { cp15 with mmu ::= mmuTlbFlush }
  | 9 => if (CRm =? 1) && (op2 =? 0) || (CRm =? 2) && (op2 =? 0) then success val cp15 else fail
  | 10 =>
      if negb read && (CRm =? 0) && ((op2 =? 0) || (op2 =? 1)) then success val cp15 else fail
  | 13 =>
      rw (cpuGetPid cp15.(cpu)) { cp15 with cpu ::= fun c => cpuSetPid c (val .& 0xfe000000) }
  | 14 =>
      if cp15.(cp_xscale) &&
         ((CRm =? 8) || (CRm =? 9) || (CRm =? 0) || (CRm =? 3) || (CRm =? 4)) && (op2 =? 0)
      then success 0 cp15 else fail
  | 15 =>
      if cp15.(cp_xscale) && (op2 =? 0) && (CRm =? 1) then
        rw (cpuGetCPAR cp15.(cpu)) { cp15 with cpu ::= fun c => cpuSetCPAR c (val .& 0x3FFF) }
      else if cp15.(cp_omap) then
        if (CRm =? 1) && (op2 =? 0) then
          rw (field_get cp15.(un0) 0 8) { cp15 with un0 ::= fun u => field_set u 0 8 (val .& 0x87) }
        else if (CRm =? 2) && (op2 =? 0) then
          rw (field_get cp15.(un0) 16 8) { cp15 with un0 ::= fun u => field_set u 16 8 val }
        else if (CRm =? 3) && (op2 =? 0) then
          rw (field_get cp15.(un0) 8 8) { cp15 with un0 ::= fun u => field_set u 8 8 val }
        else if (CRm =? 4) && (op2 =? 0) then
          rw (field_get cp15.(un1) 0 16) { cp15 with un1 ::= fun u => field_set u 0 16 val }
        else if (CRm =? 8) && (op2 =? 0) && read then success 0 cp15
        else if (CRm =? 8) && (op2 =? 2) && negb read then success val cp15
        else fail
      else fail
  | _ => fail
  end.

Definition cp15prvCoprocRegXferFunc (cp15 : ArmCP15 W I) (two read : bool)
    (op1 Rx CRn CRm op2 : Z) : outcome (bool * ArmCP15 W I) :=
  let val := if negb read then cpuGetRegExternal cp15.(cpu) Rx else 0 in
  if negb (op1 =? 0) || two then Ret (false, cp15) else
  r ← xferBody cp15 read CRn CRm op2 val;
  match r with
  | None => Ret (false, cp15)
  | Some (val, cp15) =>
      Ret (true, if read then { cp15 with cpu ::= fun c => cpuSetReg c Rx val } else cp15)
  end.

Definition cp15Init (c : ArmCpu) (m : ArmMmu W) (i : I) (cpuid cacheId : Z) (xscale omap : bool)
  : ArmCP15 W I :=
  mkArmCP15 c m i 0x00004072 0 0 0 (if omap then field_set 0 16 8 0xff else 0) 0 0
    cpuid cacheId xscale omap.

Definition cp15SetFaultStatus (cp15 : ArmCP15 W I) (addr faultStatus : Z) : ArmCP15 W I :=
  { cp15 with FAR := addr; FSR := faultStatus }.

End Operations.

#[local] Arguments mmuSetTTP : simpl never.
#[local] Arguments mmuTlbFlush : simpl never.

(** ** The registers mirror the machine *)

(** What the control register says holds of the MMU and the CPU: the S and R
    bits, the exception vectors, and, unless a switch is under way, the
    translation table in use. *)
Definition cp15_mirrors {W I} (s : ArmCP15 W I) : Prop :=
  s.(mmu).(S_bit) = Z.testbit s.(control) 8 /\
  s.(mmu).(R_bit) = Z.testbit s.(control) 9 /\
  s.(cpu).(vectorBase) = (if Z.testbit s.(control) 13 then 0xFFFF0000 else 0) /\
  0 <= s.(mmuSwitchCy) <= 2 /\
  (s.(mmuSwitchCy) = 0 ->
   s.(mmu).(transTablPA) = if Z.testbit s.(control) 0 then s.(ttb) else MMU_DISABLED_TTP).

(** The value a control write stores in the bits that can change. *)
Definition control_value (val : Z) : Z := (val .| 0x0070) .&~ 0x0080.

(** The bits a control write must leave alone. *)
Definition control_halts {W I} (s : ArmCP15 W I) (val : Z) : bool :=
  tst (control_value val .^ s.(control)) 0x84F0.

Section Lemmas.
Context {W I : Type} `{PhysMem W} `{ICachePort I}.
Implicit Types s : ArmCP15 W I.

(** The control register after the bits of [tmp] have been toggled one by one. *)
Definition toggled (c tmp : Z) : Z :=
  let c := if Z.testbit tmp 13 then c .^ 2 ^ 13 else c in
  let c := if Z.testbit tmp 9 then c .^ 2 ^ 9 else c in
  let c := if Z.testbit tmp 8 then c .^ 2 ^ 8 else c in
  if Z.testbit tmp 0 then c .^ 2 ^ 0 else c.

Lemma toggled_testbit c tmp i :
  0 <= i ->
  Z.testbit (toggled c tmp) i =
  if (i =? 0) || (i =? 8) || (i =? 9) || (i =? 13)
  then xorb (Z.testbit c i) (Z.testbit tmp i) else Z.testbit c i.
Proof.
  intros Hi. unfold toggled.
  assert (forall (b : bool) x n, 0 <= n ->
    Z.testbit (if b then x .^ 2 ^ n else x) i = xorb (Z.testbit x i) (b && (i =? n))) as Hs.
  { intros b x n Hn. destruct b; cbn [andb]; [|by rewrite xorb_false_r].
    by rewrite Z.lxor_spec, Z.pow2_bits_eqb, Z.eqb_sym. }
  cbv zeta. rewrite !Hs by lia.
  destruct (Z.eqb_spec i 0) as [->|]; [cbn; by rewrite !andb_false_r, !xorb_false_r, andb_true_r|].
  destruct (Z.eqb_spec i 8) as [->|]; [cbn; by rewrite !andb_false_r, !xorb_false_r, andb_true_r|].
  destruct (Z.eqb_spec i 9) as [->|]; [cbn; by rewrite !andb_false_r, !xorb_false_r, andb_true_r|].
  destruct (Z.eqb_spec i 13) as [->|]; [cbn; by rewrite !andb_false_r, !xorb_false_r, andb_true_r|].
  cbn. by rewrite !andb_false_r, !xorb_false_r.
Qed.

(** A control write in closed form. *)
Lemma writeControl_eq s val :
  let v := control_value val in
  let tmp := v .^ s.(control) in
  writeControl s val =
  if control_halts s val then Hang else
  Ret { s with
    cpu := if Z.testbit tmp 13
           then cpuSetVectorAddr s.(cpu) (if Z.testbit v 13 then 0xFFFF0000 else 0) else s.(cpu);
    mmu := (let m := if Z.testbit tmp 9 then mmuSetR s.(mmu) (Z.testbit v 9) else s.(mmu) in
            if Z.testbit tmp 8 then mmuSetS m (Z.testbit v 8) else m);
    control := toggled s.(control) tmp;
    mmuSwitchCy := if Z.testbit tmp 0 then 2 else s.(mmuSwitchCy) }.
Proof.
  cbv zeta. unfold writeControl, control_halts. fold (control_value val).
  set (v := control_value val). set (tmp := v .^ s.(control)). cbv zeta.
  destruct (tst tmp 0x84F0); [done|]. unfold toggled.
  change 0x00002000 with (2 ^ 13). change 0x00000200 with (2 ^ 9). change 0x00000100 with (2 ^ 8).
  change 0x00000001 with (2 ^ 0). rewrite !tst_bit by lia. f_equal.
  generalize (2 ^ 13), (2 ^ 9), (2 ^ 8), (2 ^ 0). intros p13 p9 p8 p0. clearbody tmp v.
  destruct s as [? m]; cbn.
  destruct (Z.testbit tmp 13), (Z.testbit tmp 9), (Z.testbit tmp 8), (Z.testbit tmp 0); reflexivity.
Qed.

Lemma control_bits_after s val i :
  0 <= i ->
  Z.testbit (toggled s.(control) (control_value val .^ s.(control))) i =
  if (i =? 0) || (i =? 8) || (i =? 9) || (i =? 13)
  then Z.testbit (control_value val) i else Z.testbit s.(control) i.
Proof.
  intros Hi. rewrite toggled_testbit by done. destruct (_ || (i =? 13)); [|done].
  rewrite Z.lxor_spec. by destruct (Z.testbit s.(control) i), (Z.testbit (control_value val) i).
Qed.

Lemma writeControl_mirrors s s' val :
  writeControl s val = Ret s' -> cp15_mirrors s -> cp15_mirrors s'.
Proof.
  rewrite writeControl_eq. destruct (control_halts s val); [done|]. intros [= <-] (A & B & C & D & E).
  unfold cp15_mirrors. set (tmp := control_value val .^ s.(control)).
  pose proof (control_bits_after s val) as Hb. fold tmp in Hb.
  assert (forall i, Z.testbit tmp i = xorb (Z.testbit (control_value val) i) (Z.testbit s.(control) i))
    as Ht by (intros; apply Z.lxor_spec).
  clearbody tmp. generalize (Hb 0), (Hb 8), (Hb 9), (Hb 13). clear Hb. cbn [Z.eqb Pos.eqb orb].
  generalize (toggled s.(control) tmp) as c'. intros c' B0 B8 B9 B13.
  destruct s as [[] []]; cbn in *.
  rewrite B0, B8, B9, B13, !Ht by lia. clear B0 B8 B9 B13 Ht. subst.
  split; [|split; [|split; [|split]]].
  - by destruct (xorb (Z.testbit _ 9) _), (Z.testbit (control_value val) 8), (Z.testbit control0 8).
  - by destruct (xorb (Z.testbit _ 8) _), (Z.testbit (control_value val) 9), (Z.testbit control0 9).
  - by destruct (Z.testbit (control_value val) 13), (Z.testbit control0 13).
  - destruct (xorb _ _); lia.
  - destruct (Z.testbit (control_value val) 0), (Z.testbit control0 0); cbn; try done;
      intros Hcy; rewrite <- E by done; by destruct (xorb _ _), (xorb _ _).
Qed.

(** Operations that leave alone what the control register describes. *)
Lemma mirrors_same s s' :
  s'.(control) = s.(control) -> s'.(ttb) = s.(ttb) -> s'.(mmuSwitchCy) = s.(mmuSwitchCy) ->
  s'.(cpu).(vectorBase) = s.(cpu).(vectorBase) ->
  s'.(mmu).(S_bit) = s.(mmu).(S_bit) -> s'.(mmu).(R_bit) = s.(mmu).(R_bit) ->
  s'.(mmu).(transTablPA) = s.(mmu).(transTablPA) ->
  cp15_mirrors s -> cp15_mirrors s'.
Proof. unfold cp15_mirrors. by intros -> -> -> -> -> -> ->. Qed.

Lemma flush_setup (m : ArmMmu W) :
  (mmuTlbFlush m).(S_bit) = m.(S_bit) /\ (mmuTlbFlush m).(R_bit) = m.(R_bit) /\
  (mmuTlbFlush m).(transTablPA) = m.(transTablPA).
Proof. unfold mmuTlbFlush. destruct m; cbn. by destruct (_ =? 0). Qed.

Lemma setTTP_setup (m : ArmMmu W) ttp :
  (mmuSetTTP m ttp).(S_bit) = m.(S_bit) /\ (mmuSetTTP m ttp).(R_bit) = m.(R_bit) /\
  (mmuSetTTP m ttp).(transTablPA) = ttp.
Proof.
  unfold mmuSetTTP. destruct (flush_setup m) as (<- & <- & _). by destruct (mmuTlbFlush m).
Qed.

Lemma translate_setup (m m' : ArmMmu W) adr p w r :
  mmuTranslate m adr p w = Ret (r, m') ->
  m'.(S_bit) = m.(S_bit) /\ m'.(R_bit) = m.(R_bit) /\ m'.(transTablPA) = m.(transTablPA).
Proof.
  assert (forall (m1 : ArmMmu W) b adr, (snd (finishWalk m1 b adr p w)).(S_bit) = m1.(S_bit) /\
    (snd (finishWalk m1 b adr p w)).(R_bit) = m1.(R_bit) /\
    (snd (finishWalk m1 b adr p w)).(transTablPA) = m1.(transTablPA)) as Hf.
  { intros. rewrite finishWalk_fill. by destruct (fill_setup m1 b) as (-> & _ & _ & _ & _ & -> & ->). }
  assert (forall m1 b adr, finishWalk m1 b adr p w = (r, m') -> m'.(S_bit) = m1.(S_bit) /\
    m'.(R_bit) = m1.(R_bit) /\ m'.(transTablPA) = m1.(transTablPA)) as Hf'.
  { intros m1 b a E. specialize (Hf m1 b a). by rewrite E in Hf. }
  clear Hf. unfold mmuTranslate, translateAndCache.
  destruct m as [mm ttp sb rb xs dc t rv]; cbn -[mem_access finishWalk].
  destruct (_ =? MMU_DISABLED_TTP); [by intros [= _ <-]|].
  destruct (negb (_ =? _)); [|by destruct (nz _); intros [= _ <-]].
  destruct (tst ttp 3); [by intros [= _ <-]|].
  destruct (mem_access _ _ _ _ _) as [[[ok t1] w1]| | |]; cbn -[mem_access finishWalk]; try done.
  destruct (negb ok); [by intros [= _ <-]|].
  destruct (decodeL1 adr t1) as [f|b|coarse dom a]; [by intros [= _ <-]|intros [= E]; exact (Hf' _ _ _ E)|].
  destruct (mem_access _ _ _ _ _) as [[[ok2 t2] w2]| | |]; cbn -[mem_access finishWalk]; try done.
  destruct (negb ok2); [by intros [= _ <-]|].
  destruct (decodeL2 xs coarse adr dom t2) as [f|b]; [by intros [= _ <-]|].
  intros [= E]. exact (Hf' _ _ _ E).
Qed.

Lemma cycle_mirrors s : cp15_mirrors s -> cp15_mirrors (cp15Cycle s).
Proof.
  intros Hm. pose proof Hm as (A & B & C & D & E). unfold cp15Cycle, nz.
  destruct (Z.eqb_spec s.(mmuSwitchCy) 0) as [|Hne]; cbn [negb]; [exact Hm|]. clear Hm.
  destruct s as [c m ic ctl tb ? ? ? ? cy]; cbn in *. unfold cp15_mirrors.
  change (tst ctl 1) with (tst ctl (2 ^ 0)). rewrite tst_bit by lia.
  destruct (Z.eqb_spec (cy - 1) 0); cbn; [|split_and!; try done; lia].
  destruct (setTTP_setup m (if Z.testbit ctl 0 then tb else MMU_DISABLED_TTP)) as (-> & -> & ->).
  split_and!; (done || lia).
Qed.

Lemma cycle_two s :
  s.(mmuSwitchCy) = 2 ->
  (cp15Cycle s).(mmuSwitchCy) = 1 /\ (cp15Cycle s).(control) = s.(control) /\
  (cp15Cycle s).(ttb) = s.(ttb) /\ (cp15Cycle s).(mmu) = s.(mmu).
Proof. intros E. unfold cp15Cycle. destruct s; cbn in *. by subst. Qed.

Lemma cycle_one s :
  s.(mmuSwitchCy) = 1 ->
  (cp15Cycle s).(mmuSwitchCy) = 0 /\
  (cp15Cycle s).(mmu).(transTablPA) =
    if Z.testbit s.(control) 0 then s.(ttb) else MMU_DISABLED_TTP.
Proof.
  intros E. unfold cp15Cycle. rewrite E. cbn [nz Z.eqb Pos.eqb negb].
  change (tst s.(control) 1) with (tst s.(control) (2 ^ 0)).
  destruct s as [c m]; cbn in *. subst; cbn.
  change (tst control0 1) with (tst control0 (2 ^ 0)). rewrite tst_bit by lia.
  split; [done|]. apply setTTP_setup.
Qed.

Lemma ttb_mirrors s val :
  cp15_mirrors s -> cp15_mirrors (writeTtb s val).
Proof.
  intros (A & B & C & D & E). unfold writeTtb. change 0x00000001 with (2 ^ 0). rewrite tst_bit by lia.
  destruct s as [c m ic ctl tb]; cbn in *. unfold cp15_mirrors.
  destruct (setTTP_setup m val) as (E1 & E2 & E3).
  revert E. destruct (Z.testbit ctl 0) eqn:M; intros E; cbn; rewrite ?E1, ?E2, ?E3, ?M;
    split_and!; (done || lia).
Qed.

Lemma xfer_mirrors s s' read CRn CRm op2 val v :
  xferBody s read CRn CRm op2 val = Ret (Some (v, s')) -> cp15_mirrors s -> cp15_mirrors s'.
Proof.
  unfold xferBody. intros Hx Hm.
  assert (cp15_mirrors { s with mmu ::= mmuTlbFlush }) as Hf.
  { destruct (flush_setup s.(mmu)) as (F1 & F2 & F3).
    by apply (mirrors_same s); [..|exact Hm]; destruct s. }
  revert Hx. repeat case_match; intros Hx; simplify_eq; try exact Hm; try exact Hf;
    try (by apply ttb_mirrors);
    try (by apply (mirrors_same s); [..|exact Hm]; destruct s as [[] []]).
  destruct (writeControl s val) as [s1| | |] eqn:Ew; try done.
  injection Hx as <- <-. by eapply writeControl_mirrors.
Qed.

(** ** Every run *)

(** The CPU executes a CP15 transfer, a cycle elapses, a fault is recorded, an
    address is translated, or the CPU and the cache change on their own. The
    reset of the MMU in [cpuReset] is not a step, see [cpu_reset_strands_M]. *)
Inductive cp15_step s : ArmCP15 W I -> Prop :=
| cp15_step_xfer two read op1 Rx CRn CRm op2 ok s' :
    cp15prvCoprocRegXferFunc s two read op1 Rx CRn CRm op2 = Ret (ok, s') -> cp15_step s s'
| cp15_step_cycle : cp15_step s (cp15Cycle s)
| cp15_step_fault addr fs : cp15_step s (cp15SetFaultStatus s addr fs)
| cp15_step_translate adr p w r m' :
    mmuTranslate s.(mmu) adr p w = Ret (r, m') -> cp15_step s { s with mmu := m' }
| cp15_step_cpu c i :
    c.(vectorBase) = s.(cpu).(vectorBase) -> cp15_step s { s with cpu := c; icache := i }.

Lemma setReg_vectorBase c r v : (cpuSetReg c r v).(vectorBase) = c.(vectorBase).
Proof. unfold cpuSetReg, cpuPrvSetReg, cpuPrvSetPC. destruct (r =? REG_NO_PC), c; done. Qed.

Lemma cp15_step_mirrors s s' : cp15_step s s' -> cp15_mirrors s -> cp15_mirrors s'.
Proof.
  intros Hstep Hm.
  destruct Hstep as [two read op1 Rx CRn CRm op2 ok s' Hx| |addr fs|adr p w r m' Ht|c i Hc].
  - unfold cp15prvCoprocRegXferFunc in Hx. destruct (_ || two); [by injection Hx as _ <-|].
    destruct (xferBody _ _ _ _ _ _) as [[[v s1]|]| | |] eqn:E; try done; cbn in Hx;
      injection Hx as _ <-; [|done].
    apply xfer_mirrors in E; [|done]. destruct read; [|done].
    apply (mirrors_same s1); [..|done]; destruct s1; try done. cbn. apply setReg_vectorBase.
  - by apply cycle_mirrors.
  - apply (mirrors_same s); [..|done]; by destruct s.
  - apply translate_setup in Ht as (E1 & E2 & E3).
    apply (mirrors_same s); [..|done]; by destruct s.
  - apply (mirrors_same s); [..|done]; by destruct s.
Qed.

Lemma cp15_run_mirrors s s' : rtc cp15_step s s' -> cp15_mirrors s -> cp15_mirrors s'.
Proof. induction 1; eauto using cp15_step_mirrors. Qed.

End Lemmas.

(** A reset of the CPU resets the MMU and not CP15: with the M bit set, the MMU is
    off, and a write that sets the bit once more changes nothing. *)
Lemma cpu_reset_strands_M {W I : Type} `{PhysMem W} `{ICachePort I} (s s' : ArmCP15 W I) val :
  Z.testbit s.(control) 0 = true -> Z.testbit val 0 = true -> s.(mmuSwitchCy) = 0 ->
  writeControl { s with mmu ::= mmuReset } val = Ret s' ->
  s'.(mmuSwitchCy) = 0 /\ s'.(mmu).(transTablPA) = MMU_DISABLED_TTP /\ cp15Cycle s' = s'.
Proof.
  intros Hm Hv Hcy. unfold writeControl. cbv zeta. destruct (tst _ 0x84F0); [done|].
  assert (Ht : tst (((val .| 0x70) .&~ 0x80) .^ s.(control)) 1 = false).
  { change 1 with (2 ^ 0). rewrite tst_bit, Z.lxor_spec, Z.ldiff_spec, Z.lor_spec, Hv by lia.
    by replace (Z.testbit s.(control) 0) with true. }
  destruct s as [c m i ct tb fs fa u0 u1 cy ci ca xs om]; cbn in *. rewrite Ht. subst cy.
  assert (Hr : (mmuReset m).(transTablPA) = MMU_DISABLED_TTP) by (unfold mmuReset; destruct (flush_setup { m with transTablPA := MMU_DISABLED_TTP }) as (_ & _ & ->); by destruct m).
  destruct (mmuReset m). cbn in Hr. subst. intros E.
  repeat match type of E with context [if ?b then _ else _] => destruct b end; injection E as <-; done.
Qed.

(** C33. The control register tells the truth: in every run from reset, the MMU's S
    and R bits and the exception vectors are those of the control register,
    and whenever no MMU switch is pending the MMU walks the table at TTB
    exactly when the M bit is set. A reset of the CPU alone ([cpuReset], in
    socReset and in power mode 3) is not one of the run's steps: it turns the MMU
    off and leaves the control register ([cpu_reset_strands_M]). *)
Theorem cp15_control_mirrors_machine {W I : Type} `{PhysMem W} `{ICachePort I}
    (c : ArmCpu) (w : W) (xs : bool) (i : I) (id cid : Z) (omap : bool) (s : ArmCP15 W I)
    (Hvec : c.(vectorBase) = 0)
    (Hrun : rtc cp15_step (cp15Init c (mmuInit w xs) i id cid xs omap) s) :
  s.(mmu).(S_bit) = Z.testbit s.(control) 8 /\
  s.(mmu).(R_bit) = Z.testbit s.(control) 9 /\
  s.(cpu).(vectorBase) = (if Z.testbit s.(control) 13 then 0xFFFF0000 else 0) /\
  (s.(mmuSwitchCy) = 0 ->
   s.(mmu).(transTablPA) = if Z.testbit s.(control) 0 then s.(ttb) else MMU_DISABLED_TTP).
Proof.
  destruct (cp15_run_mirrors _ _ Hrun) as (? & ? & ? & _ & ?); [|done].
  unfold cp15_mirrors, cp15Init, mmuInit, mmuReset, mmuTlbFlush; cbn. rewrite Hvec.
  split_and!; done || lia.
Qed.

(** The MMU switch lags by two cycles: writing the control register halts the
    emulator if a bit that must not change would; otherwise, when the write
    changes the M bit, the translation table stays in use for the current and
    the next cycle, and from the second on the MMU is on or off as written. *)
Theorem cp15_mmu_switch_lags {W I : Type} `{PhysMem W} `{ICachePort I}
    (s : ArmCP15 W I) (Rx : Z)
    (HM : Z.testbit (cpuGetRegExternal s.(cpu) Rx) 0 <> Z.testbit s.(control) 0) :
  let val := cpuGetRegExternal s.(cpu) Rx in
  if control_halts s val then
    cp15prvCoprocRegXferFunc s false false 0 Rx 1 0 0 = Hang
  else
    exists s1, cp15prvCoprocRegXferFunc s false false 0 Rx 1 0 0 = Ret (true, s1) /\
      s1.(mmu).(transTablPA) = s.(mmu).(transTablPA) /\
      (cp15Cycle s1).(mmu).(transTablPA) = s.(mmu).(transTablPA) /\
      (cp15Cycle (cp15Cycle s1)).(mmu).(transTablPA) =
        (if Z.testbit val 0 then s.(ttb) else MMU_DISABLED_TTP) /\
      (cp15Cycle (cp15Cycle s1)).(mmuSwitchCy) = 0.
Proof.
  intros val. unfold cp15prvCoprocRegXferFunc. cbn [negb Z.eqb orb].
  fold val. fold val in HM. unfold xferBody. cbn [Z.eqb andb negb].
  rewrite writeControl_eq. destruct (control_halts s val); [done|].
  cbn [mbind outcome_bind]. eexists. split; [reflexivity|].
  assert (Z.testbit (control_value val) 0 = Z.testbit val 0) as Ev.
  { unfold control_value. rewrite Z.ldiff_spec, Z.lor_spec.
    change (Z.testbit 0x70 0) with false. change (Z.testbit 0x80 0) with false.
    by rewrite orb_false_r, andb_true_r. }
  pose proof (control_bits_after s val 0 ltac:(lia)) as Hc. cbn [Z.eqb orb] in Hc.
  assert (Z.testbit (control_value val .^ s.(control)) 0 = true) as Ht.
  { rewrite Z.lxor_spec, Ev. by destruct (Z.testbit val 0), (Z.testbit s.(control) 0). }
  rewrite Ht. set (tmp := control_value val .^ s.(control)) in *. clearbody tmp.
  set (s1 := { s with cpu := _; mmu := _ ; control := _; mmuSwitchCy := _ }).
  assert (s1.(mmuSwitchCy) = 2 /\ Z.testbit s1.(control) 0 = Z.testbit val 0 /\
    s1.(ttb) = s.(ttb) /\ s1.(mmu).(transTablPA) = s.(mmu).(transTablPA)) as (E1 & E2 & E3 & E4).
  { subst s1. rewrite <- Ev, <- Hc. destruct s as [c m]; cbn.
    by destruct (Z.testbit tmp 9), (Z.testbit tmp 8). }
  clearbody s1. destruct (cycle_two s1 E1) as (F1 & F2 & F3 & F4).
  destruct (cycle_one _ F1) as (G1 & G2). by rewrite G2, F2, F3, F4, E2, E3.
Qed.

Definition demo_cp15 : ArmCP15 (Z -> option Z) unit :=
  cp15Init { soc_reset.(soc_cpu) with regs ::= fun r => r.[1 <- 0x4073] }
    (mmuInit demo_tables true) tt 0x69052d06 0x1d172172 true false.

#[export] Instance unit_icache : ICachePort unit :=
  {| icacheInval i := i; icacheInvalAddr i _ := i |}.

(** MCR p15, 0, r1, c1, c0, 0 with the M bit set in r1, then two cycles. *)
Lemma cp15_mmu_switch_lags_witness :
  exists s1, cp15prvCoprocRegXferFunc demo_cp15 false false 0 1 1 0 0 = Ret (true, s1) /\
    (cp15Cycle s1).(mmu).(transTablPA) = MMU_DISABLED_TTP /\
    (cp15Cycle (cp15Cycle s1)).(mmu).(transTablPA) = 0.
Proof.
  destruct (cp15_mmu_switch_lags demo_cp15 1) as (s1 & E & _ & E1 & E2 & _).
  - vm_compute. discriminate.
  - exists s1. split; [exact E|]. split; [exact E1|exact E2].
Defined.

Lemma cp15_control_mirrors_machine_witness :
  exists s1, cp15prvCoprocRegXferFunc demo_cp15 false false 0 1 2 0 0 = Ret (true, s1) /\
    s1.(ttb) = 0x4073 /\
    s1.(mmu).(transTablPA) = if Z.testbit s1.(control) 0 then s1.(ttb) else MMU_DISABLED_TTP.
Proof.
  exists (writeTtb demo_cp15 0x4073). split; [reflexivity|]. split; [reflexivity|].
  apply (cp15_control_mirrors_machine { soc_reset.(soc_cpu) with regs ::= fun r => r.[1 <- 0x4073] }
    demo_tables true tt 0x69052d06 0x1d172172 false); [reflexivity| |reflexivity].
  apply rtc_once. apply (cp15_step_xfer _ false false 0 1 2 0 0 true). reflexivity.
Defined.
