(* ===== verification/Cpu.v ===== *)
(** * Modes, status registers and exceptions of the CPU (CPU.cpp)

    The registers each mode has of its own, the program status registers, and
    the entry into exceptions, on the state of CpuSoc.v. Everything here is
    outside PACE mode. *)

From S2P Require Import Prelude Bytes CpuSoc.

Definition ARM_SR_N := 0x80000000.
Definition ARM_SR_Z := 0x40000000.
Definition ARM_SR_C := 0x20000000.
Definition ARM_SR_V := 0x10000000.
Definition ARM_SR_Q := 0x08000000.
Definition ARM_SR_I := 0x00000080.
Definition ARM_SR_F := 0x00000040.
Definition ARM_SR_T := 0x00000020.
Definition ARM_SR_M := 0x0000001F.

Definition ARM_SR_MODE_USR := 0x10.
Definition ARM_SR_MODE_FIQ := 0x11.
Definition ARM_SR_MODE_IRQ := 0x12.
Definition ARM_SR_MODE_SVC := 0x13.
Definition ARM_SR_MODE_ABT := 0x17.
Definition ARM_SR_MODE_UND := 0x1B.
Definition ARM_SR_MODE_SYS := 0x1F.

Definition ARM_VECTOR_OFFT_UND := 0x04.
Definition ARM_VECTOR_OFFT_SWI := 0x08.
Definition ARM_VECTOR_OFFT_P_ABT := 0x0C.
Definition ARM_VECTOR_OFFT_D_ABT := 0x10.
Definition ARM_VECTOR_OFFT_IRQ := 0x18.
Definition ARM_VECTOR_OFFT_FIQ := 0x1C.

Definition ARM_REG_NUM_CPSR := 16.
Definition ARM_REG_NUM_SPSR := 17.
Definition REG_NO_SP := 13.
Definition REG_NO_LR := 14.

(** ** Banked registers *)

(** A pointer to one of the banks inside the CPU. *)
Inductive BankPtr := PUsr | PSvc | PAbt | PUnd | PIrq | PFiq.

#[export] Instance bank_ptr_eq : EqDecision BankPtr.
Proof. solve_decision. Defined.

Definition getBank (cpu : ArmCpu) (p : BankPtr) : ArmBankedRegs :=
  match p with
  | PUsr => cpu.(bank_usr) | PSvc => cpu.(bank_svc) | PAbt => cpu.(bank_abt)
  | PUnd => cpu.(bank_und) | PIrq => cpu.(bank_irq) | PFiq => cpu.(bank_fiq)
  end.

Definition setBank (cpu : ArmCpu) (p : BankPtr) (b : ArmBankedRegs) : ArmCpu :=
  match p with
  | PUsr => { cpu with bank_usr := b } | PSvc => { cpu with bank_svc := b }
  | PAbt => { cpu with bank_abt := b } | PUnd => { cpu with bank_und := b }
  | PIrq => { cpu with bank_irq := b } | PFiq => { cpu with bank_fiq := b }
  end.

Definition cpuPrvModeToBankedRegsPtr (mode : Z) : outcome BankPtr :=
  match mode with
  | 0x10 | 0x1F => Ret PUsr
  | 0x11 => Ret PFiq
  | 0x12 => Ret PIrq
  | 0x13 => Ret PSvc
  | 0x17 => Ret PAbt
  | 0x1B => Ret PUnd
  | _ => Abort
  end.

(** Exchange R8-R12 with the other set. *)
Definition swapFiqRegs (cpu : ArmCpu) : ArmCpu :=
  fold_left (fun c i =>
    let tmp := c.(extra_regs).[i] in
    { c with extra_regs ::= (fun e => e.[i <- c.(regs).[i + 8]]); regs ::= (fun r => r.[i + 8 <- tmp]) })
    [0; 1; 2; 3; 4] cpu.

Definition cpuPrvSwitchToMode (cpu : ArmCpu) (newMode : Z) : outcome ArmCpu :=
  let curMode := cpu.(M) in
  if curMode =? newMode then Ret cpu else
  let cpu := if (curMode =? ARM_SR_MODE_FIQ) || (newMode =? ARM_SR_MODE_FIQ) then swapFiqRegs cpu else cpu in
  saveTo ← cpuPrvModeToBankedRegsPtr curMode;
  getFrom ← cpuPrvModeToBankedRegsPtr newMode;
  if bool_decide (saveTo = getFrom) then Ret cpu else
  let cpu := setBank cpu saveTo (mkBank cpu.(regs).[REG_NO_SP] cpu.(regs).[REG_NO_LR] cpu.(SPSR)) in
  let b := getBank cpu getFrom in
  Ret { cpu with regs ::= (fun r => r.[REG_NO_SP <- b.(R13)].[REG_NO_LR <- b.(R14)]);
                 SPSR := b.(bSPSR); M := newMode }.

(** ** Status registers *)

Definition cpuPrvSetPSRlo8 (cpu : ArmCpu) (val : Z) : outcome ArmCpu :=
  cpu ← cpuPrvSwitchToMode cpu (val .& ARM_SR_M);
  Ret { cpu with T := tst val ARM_SR_T; F_ := tst val ARM_SR_F; I_ := tst val ARM_SR_I }.

Definition cpuPrvSetPSRhi8 (cpu : ArmCpu) (val : Z) : ArmCpu :=
  { cpu with flags := val .& 0xf0000000; Q := tst val ARM_SR_Q }.

Definition cpuPrvMaterializeCPSR (cpu : ArmCpu) : Z :=
  let bit (b : bool) (m : Z) : Z := if b then m else 0 in
  cpu.(flags) .| bit cpu.(Q) ARM_SR_Q .| bit cpu.(T) ARM_SR_T .| bit cpu.(I_) ARM_SR_I
    .| bit cpu.(F_) ARM_SR_F .| cpu.(M).

Definition cpuPrvSetPSR (spsr : bool) (cpu : ArmCpu) (mask : Z) (privileged : bool) (val : Z)
  : outcome ArmCpu :=
  if spsr then Ret { cpu with SPSR := val } else
  cpu ← (if privileged && tst mask 1 then cpuPrvSetPSRlo8 cpu val else Ret cpu);
  Ret (if tst mask 8 then cpuPrvSetPSRhi8 cpu val else cpu).

(** [cpuSetReg] and [cpuGetRegExternal] with the status registers. *)
Definition cpuSetRegOrPSR (cpu : ArmCpu) (reg val : Z) : outcome ArmCpu :=
  if reg =? ARM_REG_NUM_CPSR then
    cpu ← cpuPrvSetPSRlo8 cpu val; Ret (cpuPrvSetPSRhi8 cpu val)
  else Ret (if reg <? 16 then cpuPrvSetReg cpu reg val else cpu).

Definition cpuGetRegOrPSR (cpu : ArmCpu) (reg : Z) : Z :=
  if reg <? 16 then cpuGetRegExternal cpu reg
  else if reg =? ARM_REG_NUM_CPSR then cpuPrvMaterializeCPSR cpu
  else if reg =? ARM_REG_NUM_SPSR then cpu.(SPSR) else 0.

(** ** Exceptions *)

Definition cpuPrvException (cpu : ArmCpu) (vector_pc lr newLowBits : Z) : outcome ArmCpu :=
  let spsr := cpuPrvMaterializeCPSR cpu in
  cpu ← cpuPrvSetPSRlo8 cpu newLowBits;
  Ret { cpu with SPSR := spsr; regs ::= fun r => r.[REG_NO_LR <- lr].[REG_NO_PC <- vector_pc] }.

(** The exceptions, with the low bits of the status and the vectors the code
    passes for each. *)
Inductive ArmException := ExcUnd | ExcSwi | ExcPAbt | ExcDAbt | ExcIrq | ExcFiq.

Definition lowBits (e : ArmException) : Z :=
  match e with
  | ExcUnd => ARM_SR_MODE_UND .| ARM_SR_I
  | ExcSwi => ARM_SR_MODE_SVC .| ARM_SR_I
  | ExcPAbt | ExcDAbt => ARM_SR_MODE_ABT .| ARM_SR_I
  | ExcIrq => ARM_SR_MODE_IRQ .| ARM_SR_I
  | ExcFiq => ARM_SR_MODE_FIQ .| ARM_SR_I .| ARM_SR_F
  end.

Definition vectorOfft (e : ArmException) : Z :=
  match e with
  | ExcUnd => ARM_VECTOR_OFFT_UND
  | ExcSwi => ARM_VECTOR_OFFT_SWI
  | ExcPAbt => ARM_VECTOR_OFFT_P_ABT
  | ExcDAbt => ARM_VECTOR_OFFT_D_ABT
  | ExcIrq => ARM_VECTOR_OFFT_IRQ
  | ExcFiq => ARM_VECTOR_OFFT_FIQ
  end.

Definition takeException (cpu : ArmCpu) (e : ArmException) (lr : Z) : outcome ArmCpu :=
  cpuPrvException cpu (u32 (cpu.(vectorBase) + vectorOfft e)) (u32 lr) (lowBits e).

(** The CPU's part of [cpuReset]; the MMU is reset with it. *)
Definition cpuReset (cpu : ArmCpu) (pc : Z) : ArmCpu :=
  cpuPrvSetPC { cpu with I_ := true; F_ := true; M := ARM_SR_MODE_SVC } pc.

(** The return of an exception: the status comes back from SPSR (the ends of
    data processing and of LDM with the PC as destination). *)
Definition restoreSPSR (cpu : ArmCpu) (pc : Z) : outcome ArmCpu :=
  let sr := cpu.(SPSR) in
  cpu ← cpuPrvSetPSRlo8 cpu sr;
  Ret { cpuPrvSetPSRhi8 cpu sr with regs ::= fun r => r.[REG_NO_PC <- pc] }.

(** ** The architectural view: the registers of every mode *)

Definition modes : list Z := [0x10; 0x11; 0x12; 0x13; 0x17; 0x1B; 0x1F].

Definition bankOf (mode : Z) : BankPtr :=
  match cpuPrvModeToBankedRegsPtr mode with Ret p => p | _ => PUsr end.

(** Whether a mode sees FIQ's R8-R12. *)
Definition inFiq (mode : Z) : bool := bool_decide (bankOf mode = PFiq).

(** Register [r] (0-14) as mode [m] sees it. *)
Definition modeReg (cpu : ArmCpu) (m r : Z) : Z :=
  if (8 <=? r) && (r <=? 12) then
    if eqb (inFiq m) (inFiq cpu.(M)) then cpu.(regs).[r] else cpu.(extra_regs).[r - 8]
  else if (r =? 13) || (r =? 14) then
    if bool_decide (bankOf m = bankOf cpu.(M)) then cpu.(regs).[r]
    else if r =? 13 then (getBank cpu (bankOf m)).(R13) else (getBank cpu (bankOf m)).(R14)
  else cpu.(regs).[r].

(** The saved status register of mode [m]. *)
Definition modeSPSR (cpu : ArmCpu) (m : Z) : Z :=
  if bool_decide (bankOf m = bankOf cpu.(M)) then cpu.(SPSR) else (getBank cpu (bankOf m)).(bSPSR).

Record cpu_wf (cpu : ArmCpu) : Prop := {
  cw_regs : length cpu.(regs) = 16%nat;
  cw_extra : length cpu.(extra_regs) = 5%nat;
  cw_mode : cpu.(M) ∈ modes;
  cw_flags : exists n, 0 <= n < 16 /\ cpu.(flags) = n .<< 28
}.

(** What a change of mode leaves alone. *)
Definition unbanked (cpu : ArmCpu) :=
  (cpu.(flags), cpu.(Q), cpu.(I_), cpu.(F_), cpu.(T), cpu.(curInstrPC), cpu.(waitingIrqs), cpu.(waitingFiqs),
   cpu.(sleeping), cpu.(vectorBase)).

(** A property of the seven modes, mode by mode. *)
Lemma modes_cases (P : Z -> Prop) : Forall P modes -> forall m, m ∈ modes -> P m.
Proof. by rewrite Forall_forall. Qed.

Lemma bankOf_ptr m : m ∈ modes -> cpuPrvModeToBankedRegsPtr m = Ret (bankOf m).
Proof. revert m. apply modes_cases. unfold modes. forall_list; reflexivity. Qed.

Lemma bankOf_fiq m : m ∈ modes -> (m =? ARM_SR_MODE_FIQ) = inFiq m.
Proof. revert m. apply modes_cases. unfold modes. forall_list; reflexivity. Qed.

Lemma inFiq_banks m m' : bankOf m <> bankOf m' -> inFiq m && inFiq m' = false.
Proof. unfold inFiq. intros Hne. repeat case_bool_decide; try done. congruence. Qed.

Lemma getBank_setBank cpu p q b : getBank (setBank cpu p b) q = if bool_decide (p = q) then b else getBank cpu q.
Proof. destruct cpu, p, q; reflexivity. Qed.

Lemma setBank_frame cpu p b :
  (setBank cpu p b).(regs) = cpu.(regs) /\ (setBank cpu p b).(extra_regs) = cpu.(extra_regs) /\
  (setBank cpu p b).(M) = cpu.(M) /\ unbanked (setBank cpu p b) = unbanked cpu.
Proof. by destruct cpu, p. Qed.

(** The exchange, register by register. *)
Lemma swapFiqRegs_spec cpu :
  length cpu.(regs) = 16%nat -> length cpu.(extra_regs) = 5%nat ->
  let cpu' := swapFiqRegs cpu in
  (forall r, 0 <= r < 16 -> cpu'.(regs).[r] = if (8 <=? r) && (r <=? 12) then cpu.(extra_regs).[r - 8] else cpu.(regs).[r]) /\
  (forall i, 0 <= i < 5 -> cpu'.(extra_regs).[i] = cpu.(regs).[i + 8]) /\
  length cpu'.(regs) = 16%nat /\ length cpu'.(extra_regs) = 5%nat /\
  cpu'.(M) = cpu.(M) /\ cpu'.(SPSR) = cpu.(SPSR) /\ (forall p, getBank cpu' p = getBank cpu p) /\
  unbanked cpu' = unbanked cpu.
Proof.
  intros Hr He. destruct cpu. cbn in Hr, He. unfold swapFiqRegs. cbn.
  do 16 (destruct regs as [|? regs]; [done|]). destruct regs; [|done].
  do 5 (destruct extra_regs as [|? extra_regs]; [done|]). destruct extra_regs; [|done].
  split; [|split; [|by repeat split; intros []]].
  - apply (bit_index_cases (fun r => _ = _) 16). cbn [seq]. forall_list; reflexivity.
  - apply (bit_index_cases (fun r => _ = _) 5). cbn [seq]. forall_list; reflexivity.
Qed.

(** The registers after the exchange of R8-R12, if the change of mode needs it. *)
Definition preSwitch (cpu : ArmCpu) (newMode : Z) : ArmCpu :=
  if (cpu.(M) =? ARM_SR_MODE_FIQ) || (newMode =? ARM_SR_MODE_FIQ) then swapFiqRegs cpu else cpu.

Lemma preSwitch_spec cpu new :
  cpu_wf cpu -> new ∈ modes -> bankOf new <> bankOf cpu.(M) ->
  let cpu' := preSwitch cpu new in
  (forall m r, m ∈ modes -> 0 <= r < 15 -> (8 <=? r) && (r <=? 12) = true ->
     modeReg cpu m r =
     if eqb (inFiq m) (inFiq new) then cpu'.(regs).[r] else cpu'.(extra_regs).[r - 8]) /\
  (forall r, 0 <= r < 16 -> (8 <=? r) && (r <=? 12) = false -> cpu'.(regs).[r] = cpu.(regs).[r]) /\
  length cpu'.(regs) = 16%nat /\ length cpu'.(extra_regs) = 5%nat /\
  cpu'.(M) = cpu.(M) /\ cpu'.(SPSR) = cpu.(SPSR) /\ (forall p, getBank cpu' p = getBank cpu p) /\
  unbanked cpu' = unbanked cpu.
Proof.
  intros [Hr He Hm Hf] Hn Hne. unfold preSwitch. cbv zeta.
  rewrite (bankOf_fiq _ Hm), (bankOf_fiq _ Hn). pose proof (inFiq_banks _ _ Hne) as Hx.
  destruct (swapFiqRegs_spec cpu Hr He) as (S1 & S2 & S3 & S4 & S5 & S6 & S7 & S8).
  destruct (inFiq cpu.(M) || inFiq new) eqn:Hc.
  - split; [|split; [intros r Hr15 E; by rewrite S1, E|done]]. intros m r Hmm Hr15 E.
    unfold modeReg. rewrite E, S1, E, S2 by lia. replace (r - 8 + 8) with r by lia.
    by destruct (inFiq m), (inFiq new), (inFiq cpu.(M)).
  - split; [|done]. intros m r Hmm Hr15 E. unfold modeReg. rewrite E.
    by destruct (inFiq m), (inFiq new), (inFiq cpu.(M)).
Qed.

(** A change of mode as the programmer sees it. *)
Record switched (cpu cpu' : ArmCpu) (mode : Z) : Prop := {
  sw_wf : cpu_wf cpu';
  sw_mode : cpu'.(M) = mode;
  sw_regs : forall m r, m ∈ modes -> 0 <= r < 15 -> modeReg cpu' m r = modeReg cpu m r;
  sw_spsr : forall m, m ∈ modes -> modeSPSR cpu' m = modeSPSR cpu m;
  sw_pc : cpu'.(regs).[15] = cpu.(regs).[15];
  sw_rest : unbanked cpu' = unbanked cpu
}.

Lemma unbanked_wf cpu cpu' : unbanked cpu' = unbanked cpu -> cpu'.(flags) = cpu.(flags).
Proof. unfold unbanked. intros E. by injection E. Qed.

Lemma switch_other_bank cpu new :
  cpu_wf cpu -> new ∈ modes -> bankOf new <> bankOf cpu.(M) ->
  exists cpu', cpuPrvSwitchToMode cpu new = Ret cpu' /\ switched cpu cpu' new.
Proof.
  intros Hwf Hn Hne. destruct (preSwitch_spec cpu new Hwf Hn Hne) as (P1 & P2 & P3 & P4 & P5 & P6 & P7 & P8).
  unfold cpuPrvSwitchToMode. rewrite (proj2 (Z.eqb_neq _ _)) by congruence.
  fold (preSwitch cpu new). rewrite (bankOf_ptr _ (cw_mode _ Hwf)), (bankOf_ptr _ Hn). cbn [mbind outcome_bind].
  rewrite bool_decide_eq_false_2 by congruence. eexists. split; [reflexivity|].
  set (c1 := preSwitch cpu new) in *. clearbody c1.
  set (c2 := setBank c1 (bankOf cpu.(M)) _).
  destruct (setBank_frame c1 (bankOf cpu.(M)) (mkBank c1.(regs).[REG_NO_SP] c1.(regs).[REG_NO_LR] c1.(SPSR)))
    as (F1 & F2 & F3 & F4). fold c2 in F1, F2, F3, F4.
  pose proof (fun q => getBank_setBank c1 (bankOf cpu.(M)) q (mkBank c1.(regs).[REG_NO_SP] c1.(regs).[REG_NO_LR] c1.(SPSR)))
    as F5. fold c2 in F5. clearbody c2.
  match goal with |- switched _ ?x _ => set (c3 := x) end.
  assert (c3.(regs) = c1.(regs).[13 <- (getBank c2 (bankOf new)).(R13)].[14 <- (getBank c2 (bankOf new)).(R14)] /\
    c3.(extra_regs) = c1.(extra_regs) /\ c3.(M) = new /\ c3.(SPSR) = (getBank c2 (bankOf new)).(bSPSR) /\
    (forall p, getBank c3 p = getBank c2 p) /\ unbanked c3 = unbanked c2) as (G1 & G2 & G3 & G4 & G5 & G6)
    by (subst c3; destruct c2; cbn in F1, F2 |- *; subst; by repeat split; intros []).
  clearbody c3. rewrite F5, bool_decide_eq_false_2, P7 in G1, G4 by congruence.
  destruct Hwf as [Hr He Hm Hf]. split.
  - split; [rewrite G1, !length_aset; congruence|congruence|by rewrite G3|].
    by rewrite (unbanked_wf cpu c3) by congruence.
  - done.
  - intros m r Hmm Hr15. unfold modeReg at 1. rewrite G1, G2, G3.
    destruct ((8 <=? r) && (r <=? 12)) eqn:E8.
    + rewrite P1 by done. rewrite !aget_aset_ne by lia. done.
    + unfold modeReg. rewrite E8. destruct ((r =? 13) || (r =? 14)) eqn:E13.
      * rewrite G5, F5, P7. unfold REG_NO_SP, REG_NO_LR.
        apply orb_true_iff in E13 as [->%Z.eqb_eq| ->%Z.eqb_eq]; cbn [Z.eqb Pos.eqb];
          rewrite ?(P2 13), ?(P2 14) by (done || lia);
          [rewrite aget_aset_ne, aget_aset_eq by (rewrite ?P3; lia)|
           rewrite aget_aset_eq by (rewrite length_aset, P3; lia)];
          repeat case_bool_decide; cbn [R13 R14]; cbn [R13 R14]; congruence.
      * apply orb_false_iff in E13 as [?%Z.eqb_neq ?%Z.eqb_neq].
        rewrite !aget_aset_ne by lia. apply P2; [lia|done].
  - intros m Hmm. unfold modeSPSR. rewrite G3, G4, G5, F5, P7. repeat case_bool_decide; cbn; congruence.
  - rewrite G1, !aget_aset_ne by lia. by apply P2.
  - congruence.
Qed.

Lemma switched_refl cpu : cpu_wf cpu -> switched cpu cpu cpu.(M).
Proof. by intros; split. Qed.

Lemma switch_exact cpu new :
  cpu_wf cpu -> new ∈ modes ->
  exists cpu', cpuPrvSwitchToMode cpu new = Ret cpu' /\
    switched cpu cpu' (if bool_decide (bankOf new = bankOf cpu.(M)) then cpu.(M) else new).
Proof.
  intros Hwf Hn.
  case_bool_decide as Hb; [|by apply switch_other_bank].
  exists cpu. split; [|by apply switched_refl].
  unfold cpuPrvSwitchToMode. destruct (Z.eqb_spec cpu.(M) new) as [|Hne]; [done|].
  pose proof (cw_mode _ Hwf) as Hm. rewrite (bankOf_fiq _ Hm), (bankOf_fiq _ Hn), (bankOf_ptr _ Hm), (bankOf_ptr _ Hn).
  cbn [mbind outcome_bind]. rewrite bool_decide_eq_true_2 by done.
  assert (inFiq new = inFiq cpu.(M)) as E by (unfold inFiq; by rewrite Hb).
  assert (inFiq cpu.(M) = false) as E'.
  { destruct (inFiq cpu.(M)) eqn:Ef; [|done]. rewrite <- (bankOf_fiq _ Hn) in E. rewrite <- (bankOf_fiq _ Hm) in Ef.
    apply Z.eqb_eq in E, Ef. congruence. }
  by rewrite E, E'.
Qed.

(** C2. Changing the mode loses no register: every register and saved status
    register of every mode reads as before, whichever mode looks at it, the
    program counter and the flags stay, and the CPU is in the new mode - except
    that between the user and the system mode, which share all registers, the
    mode does not change at all. *)
Theorem mode_switch_exact (cpu : ArmCpu) (new : Z) (Hwf : cpu_wf cpu) (Hn : new ∈ modes) :
  exists cpu', cpuPrvSwitchToMode cpu new = Ret cpu' /\
    switched cpu cpu' (if bool_decide (bankOf new = bankOf cpu.(M)) then cpu.(M) else new).
Proof. by apply switch_exact. Qed.

(** ** The fields of the status register *)

Definition cpsrOf (n : Z) (q t i f : bool) (m : Z) : Z :=
  (n .<< 28) .| (if q then ARM_SR_Q else 0) .| (if t then ARM_SR_T else 0) .| (if i then ARM_SR_I else 0)
    .| (if f then ARM_SR_F else 0) .| m.

Definition cpsrFieldsOk (n : Z) (q t i f : bool) (m : Z) : bool :=
  let c := cpsrOf n q t i f m in
  eqb (tst c ARM_SR_Q) q && eqb (tst c ARM_SR_T) t && eqb (tst c ARM_SR_I) i && eqb (tst c ARM_SR_F) f &&
  (c .& ARM_SR_M =? m) && (c .& 0xf0000000 =? n .<< 28).

Lemma cpsrFields_all :
  let bs := [true; false] in
  forallb (fun n => forallb (fun q => forallb (fun t => forallb (fun i => forallb (fun f =>
    forallb (cpsrFieldsOk (Z.of_nat n) q t i f) modes) bs) bs) bs) bs) (seq 0 16) = true.
Proof. vm_compute. reflexivity. Qed.

Lemma forallb_elem {A} (f : A -> bool) l x : forallb f l = true -> x ∈ l -> f x = true.
Proof. rewrite forallb_forall. intros H Hx. apply H. by apply list_elem_of_In. Qed.

(** Every field can be read back from the status register. *)
Record cpsr_fields (cpu : ArmCpu) (c : Z) : Prop := {
  cf_Q : tst c ARM_SR_Q = cpu.(Q);
  cf_T : tst c ARM_SR_T = cpu.(T);
  cf_I : tst c ARM_SR_I = cpu.(I_);
  cf_F : tst c ARM_SR_F = cpu.(F_);
  cf_M : c .& ARM_SR_M = cpu.(M);
  cf_flags : c .& 0xf0000000 = cpu.(flags)
}.

Lemma cpsr_fields_ok cpu : cpu_wf cpu -> cpsr_fields cpu (cpuPrvMaterializeCPSR cpu).
Proof.
  intros [_ _ Hm (n & Hn & Hf)]. pose proof cpsrFields_all as H. cbv zeta in H.
  assert (forall b : bool, b ∈ [true; false]) as Hb by (intros []; rewrite !elem_of_cons; auto).
  apply (forallb_elem _ _ (Z.to_nat n)) in H; [|apply elem_of_seq; lia]. cbv beta in H. rewrite Z2Nat.id in H by lia.
  apply (forallb_elem _ _ cpu.(Q)) in H; [|done]. apply (forallb_elem _ _ cpu.(T)) in H; [|done].
  apply (forallb_elem _ _ cpu.(I_)) in H; [|done]. apply (forallb_elem _ _ cpu.(F_)) in H; [|done].
  apply (forallb_elem _ _ cpu.(M)) in H; [|done].
  unfold cpsrFieldsOk in H. rewrite !andb_true_iff in H. destruct H as [[[[[H1 H2] H3] H4] H5] H6].
  apply eqb_prop in H1, H2, H3, H4. apply Z.eqb_eq in H5, H6.
  unfold cpuPrvMaterializeCPSR. rewrite Hf. fold (cpsrOf n cpu.(Q) cpu.(T) cpu.(I_) cpu.(F_) cpu.(M)).
  split; congruence.
Qed.

(** The low byte of the status: the mode and the masks. *)
Lemma setPSRlo8_exact cpu v :
  cpu_wf cpu -> v .& ARM_SR_M ∈ modes ->
  exists c, switched cpu c (if bool_decide (bankOf (v .& ARM_SR_M) = bankOf cpu.(M)) then cpu.(M) else v .& ARM_SR_M) /\
    cpuPrvSetPSRlo8 cpu v = Ret { c with T := tst v ARM_SR_T; F_ := tst v ARM_SR_F; I_ := tst v ARM_SR_I }.
Proof.
  intros Hwf Hm. unfold cpuPrvSetPSRlo8. destruct (switch_exact cpu _ Hwf Hm) as (c & -> & Hs).
  by exists c.
Qed.

(** ** Entering and leaving an exception *)

Definition excMode (e : ArmException) : Z := lowBits e .& ARM_SR_M.

Lemma excMode_mode e : excMode e ∈ modes /\ bankOf (excMode e) <> PUsr.
Proof. split; [unfold modes; rewrite !elem_of_cons|]; destruct e; auto 10. Qed.

(** Only the user and the system mode share a bank. *)
Lemma same_bank m m' : m ∈ modes -> m' ∈ modes -> bankOf m = bankOf m' -> bankOf m <> PUsr -> m' = m.
Proof.
  intros Hm Hm'. revert m' Hm'. revert m Hm.
  apply (modes_cases (fun m => forall m', m' ∈ modes -> bankOf m = bankOf m' -> bankOf m <> PUsr -> m' = m)).
  unfold modes at 1. forall_list;
    refine (modes_cases (fun m' => _) _); unfold modes; forall_list; done.
Qed.

(** The registers of modes after the entry; [modeReg] looks only at registers,
    banks and the mode. *)
Lemma modeReg_ext cpu cpu' m r :
  cpu'.(regs).[r] = cpu.(regs).[r] -> cpu'.(extra_regs) = cpu.(extra_regs) ->
  (forall p, getBank cpu' p = getBank cpu p) -> cpu'.(M) = cpu.(M) -> modeReg cpu' m r = modeReg cpu m r.
Proof. intros E1 E2 E3 E4. unfold modeReg. by rewrite E1, E2, E3, E4. Qed.

(** The state after an exception. *)
Record entered (cpu cpu' : ArmCpu) (e : ArmException) (lr : Z) : Prop := {
  en_wf : cpu_wf cpu';
  en_mode : cpu'.(M) = excMode e;
  en_T : cpu'.(T) = false;
  en_I : cpu'.(I_) = true;
  en_F : cpu'.(F_) = match e with ExcFiq => true | _ => false end;
  en_pc : cpu'.(regs).[15] = u32 (cpu.(vectorBase) + vectorOfft e);
  en_lr : modeReg cpu' (excMode e) 14 = u32 lr;
  en_spsr : cpu'.(SPSR) = cpuPrvMaterializeCPSR cpu;
  en_regs : forall m r, m ∈ modes -> 0 <= r < 15 -> ~ (bankOf m = bankOf (excMode e) /\ r = 14) ->
    modeReg cpu' m r = modeReg cpu m r;
  en_spsrs : forall m, m ∈ modes -> bankOf m <> bankOf (excMode e) -> modeSPSR cpu' m = modeSPSR cpu m;
  en_flags : cpu'.(flags) = cpu.(flags) /\ cpu'.(Q) = cpu.(Q)
}.

Lemma takeException_entered cpu e lr :
  cpu_wf cpu -> exists cpu', takeException cpu e lr = Ret cpu' /\ entered cpu cpu' e lr.
Proof.
  intros Hwf. destruct (excMode_mode e) as [Hm Hu]. unfold takeException, cpuPrvException.
  destruct (setPSRlo8_exact cpu (lowBits e) Hwf Hm) as (c & [Sw Sm Sr Ss Sp Sq] & ->).
  cbn [mbind outcome_bind]. fold (excMode e) in *.
  assert (c.(M) = excMode e) as Em.
  { rewrite Sm. case_bool_decide as Hb; [|done]. apply same_bank; [done|apply Hwf|done|done]. }
  match goal with |- exists cpu', Ret ?x = _ /\ _ => set (c' := x) end.
  assert (c'.(regs) = c.(regs).[14 <- u32 lr].[15 <- u32 (cpu.(vectorBase) + vectorOfft e)] /\
    c'.(extra_regs) = c.(extra_regs) /\ (forall p, getBank c' p = getBank c p) /\ c'.(M) = c.(M) /\
    c'.(SPSR) = cpuPrvMaterializeCPSR cpu /\ c'.(flags) = c.(flags) /\ c'.(Q) = c.(Q) /\
    c'.(T) = tst (lowBits e) ARM_SR_T /\ c'.(F_) = tst (lowBits e) ARM_SR_F /\ c'.(I_) = tst (lowBits e) ARM_SR_I)
    as (G1 & G2 & G3 & G4 & G5 & G6 & G7 & G8 & G9 & G10) by (subst c'; destruct c; by repeat split; intros []).
  clearbody c'. exists c'. split; [done|]. unfold unbanked in Sq. injection Sq as Sf SQ _ _ _ _ _ _ _ _.
  destruct Sw as [Wr We Wm Wf]. split.
  - split; [by rewrite G1, !length_aset|by rewrite G2|by rewrite G4|by rewrite G6].
  - congruence.
  - rewrite G8. by destruct e.
  - rewrite G10. by destruct e.
  - rewrite G9. by destruct e.
  - rewrite G1. apply aget_aset_eq. rewrite length_aset. lia.
  - unfold modeReg. cbn [Z.leb Z.eqb Pos.eqb Z.compare Pos.compare Pos.compare_cont andb orb].
    rewrite G4, Em, bool_decide_eq_true_2, G1 by done. rewrite aget_aset_ne, aget_aset_eq by lia. done.
  - done.
  - intros m r Hmm Hr Hne. rewrite <- (Sr m r Hmm Hr). unfold modeReg. rewrite G1, G2, G3, G4, Em.
    assert (r = 14 -> bankOf m <> bankOf (excMode e)) as H14 by (intros -> ?; by apply Hne).
    rewrite aget_aset_ne by lia. destruct (decide (r = 14)) as [->|H14'].
    + cbn. by rewrite bool_decide_eq_false_2 by auto.
    + by rewrite aget_aset_ne by lia.
  - intros m Hmm Hne. rewrite <- (Ss m Hmm). unfold modeSPSR. rewrite G3, G4, Em.
    by rewrite !bool_decide_eq_false_2 by done.
  - split; congruence.
Qed.

(** Every exception is entered as the architecture demands: the program
    counter is the vector, LR and the saved status of the exception's mode are
    the return address and the old status register, every other register of
    every mode is untouched, IRQs are masked and the CPU is in ARM state - and
    FIQs are masked by an FIQ, but unmasked by every other exception, whether
    they were masked or not. *)
Theorem exception_entry_exact (cpu : ArmCpu) (e : ArmException) (lr : Z) (Hwf : cpu_wf cpu) :
  exists cpu', takeException cpu e lr = Ret cpu' /\ entered cpu cpu' e lr.
Proof. by apply takeException_entered. Qed.

Lemma exception_return (cpu : ArmCpu) (e : ArmException) (lr pc : Z) (Hwf : cpu_wf cpu) :
  exists c1 c2, takeException cpu e lr = Ret c1 /\ restoreSPSR c1 pc = Ret c2 /\
    cpuPrvMaterializeCPSR c2 = cpuPrvMaterializeCPSR cpu /\ c2.(M) = cpu.(M) /\ c2.(regs).[15] = pc /\
    (forall m r, m ∈ modes -> 0 <= r < 15 -> ~ (bankOf m = bankOf (excMode e) /\ r = 14) ->
      modeReg c2 m r = modeReg cpu m r).
Proof.
  destruct (takeException_entered cpu e lr Hwf) as (c1 & E1 & En). exists c1.
  destruct (cpsr_fields_ok cpu Hwf) as [FQ FT FI FF FM Ff].
  pose proof (cw_mode _ Hwf) as Hm. unfold restoreSPSR. rewrite (en_spsr _ _ _ _ En).
  set (v := cpuPrvMaterializeCPSR cpu) in *.
  destruct (setPSRlo8_exact c1 v (en_wf _ _ _ _ En)) as (c & [Sw Sm Sr Ss Sp Sq] & ->); [by rewrite FM|].
  cbn [mbind outcome_bind]. eexists. split; [done|]. split; [reflexivity|].
  assert (c.(M) = cpu.(M)) as Em.
  { rewrite Sm, FM, (en_mode _ _ _ _ En). clear Sm. case_bool_decide as Hb; [|done].
    destruct (excMode_mode e). symmetry. apply same_bank; try done. }
  match goal with |- cpuPrvMaterializeCPSR ?x = _ /\ _ => set (c2 := x) end.
  assert (c2.(regs) = c.(regs).[15 <- pc] /\ c2.(extra_regs) = c.(extra_regs) /\
    (forall p, getBank c2 p = getBank c p) /\ c2.(M) = c.(M) /\ c2.(flags) = cpu.(flags) /\ c2.(Q) = cpu.(Q) /\
    c2.(T) = cpu.(T) /\ c2.(F_) = cpu.(F_) /\ c2.(I_) = cpu.(I_)) as (G1 & G2 & G3 & G4 & G5 & G6 & G7 & G8 & G9)
    by (rewrite <- Ff, <- FQ, <- FT, <- FF, <- FI; subst c2; destruct c; by repeat split; intros []).
  clearbody c2. split; [|split; [congruence|split]].
  - unfold v, cpuPrvMaterializeCPSR. by rewrite G4, G5, G6, G7, G8, G9, Em.
  - rewrite G1. apply aget_aset_eq. pose proof (cw_regs _ Sw). lia.
  - intros m r Hmm Hr Hne. rewrite <- (en_regs _ _ _ _ En m r Hmm Hr Hne), <- (Sr m r Hmm Hr).
    apply modeReg_ext; [|done|done|done]. rewrite G1. apply aget_aset_ne; lia.
Qed.

(** C3. An exception whose handler returns at once leaves no trace but its
    link register: the status register - mode, flags, masks and state - and
    every other register of every mode are as before the exception. *)
Theorem exception_return_roundtrip (cpu : ArmCpu) (e : ArmException) (lr pc : Z) (Hwf : cpu_wf cpu) :
  exists c1 c2, takeException cpu e lr = Ret c1 /\ restoreSPSR c1 pc = Ret c2 /\
    cpuPrvMaterializeCPSR c2 = cpuPrvMaterializeCPSR cpu /\ c2.(M) = cpu.(M) /\ c2.(regs).[15] = pc /\
    (forall m r, m ∈ modes -> 0 <= r < 15 -> ~ (bankOf m = bankOf (excMode e) /\ r = 14) ->
      modeReg c2 m r = modeReg cpu m r).
Proof. by apply exception_return. Qed.

(** A CPU in user mode with FIQs masked. *)
Definition demo_user : ArmCpu := { cpu_reset with M := ARM_SR_MODE_USR; I_ := false; regs ::= fun r => r.[13 <- 0x1000] }.

Lemma demo_user_wf : cpu_wf demo_user.
Proof. split; [done|done|by left|by exists 0]. Qed.

Lemma mode_switch_exact_witness :
  exists cpu', cpuPrvSwitchToMode demo_user ARM_SR_MODE_IRQ = Ret cpu' /\
    modeReg cpu' ARM_SR_MODE_USR 13 = 0x1000 /\
    (exists cpu'', cpuPrvSwitchToMode demo_user ARM_SR_MODE_SYS = Ret cpu'' /\ cpu''.(M) = ARM_SR_MODE_USR).
Proof.
  destruct (mode_switch_exact demo_user ARM_SR_MODE_IRQ demo_user_wf) as (c & E & [_ _ Hr _ _ _]).
  - vm_compute. set_solver.
  - destruct (mode_switch_exact demo_user ARM_SR_MODE_SYS demo_user_wf) as (c' & E' & [_ Hm _ _ _ _]).
    + vm_compute. set_solver.
    + exists c. split; [exact E|]. split; [rewrite Hr; [reflexivity|by left|lia]|]. exists c'. split; [exact E'|].
      rewrite Hm. reflexivity.
Defined.

Lemma exception_entry_exact_witness :
  exists cpu', takeException demo_user ExcSwi 0x8004 = Ret cpu' /\ cpu'.(F_) = false /\ demo_user.(F_) = true /\
    modeReg cpu' ARM_SR_MODE_USR 13 = 0x1000.
Proof.
  destruct (exception_entry_exact demo_user ExcSwi 0x8004 demo_user_wf) as (c & E & En).
  exists c. split; [exact E|]. split; [exact (en_F _ _ _ _ En)|]. split; [reflexivity|].
  rewrite (en_regs _ _ _ _ En); [reflexivity|by left|lia|].
  intros [Hb _]. discriminate Hb.
Defined.

Lemma exception_return_roundtrip_witness :
  exists c1 c2, takeException demo_user ExcIrq 0x8004 = Ret c1 /\ restoreSPSR c1 0x8000 = Ret c2 /\
    cpuPrvMaterializeCPSR c2 = cpuPrvMaterializeCPSR demo_user.
Proof.
  destruct (exception_return_roundtrip demo_user ExcIrq 0x8004 0x8000 demo_user_wf) as (c1 & c2 & E1 & E2 & Ec & _).
  exists c1, c2. split; [exact E1|]. split; [exact E2|exact Ec].
Defined.
