(* ===== verification/Thumb.v ===== *)
(** * The translation of Thumb instructions (translateThumb in CPU.cpp)

    A Thumb instruction that has an ARM equivalent is executed as that
    instruction; 0 marks one that is executed directly. *)

From S2P Require Import Prelude.

(** A guaranteed undefined ARM instruction that carries the Thumb one. *)
Definition undefinedThumb (instrT : Z) : Z := 0xE7F000F0 .| (instrT .& 0x0F) .| ((instrT .& 0xFFF0) .<< 4).

Definition aluTable : list Z :=
  [0x00100000; 0x00300000; 0x01B00010; 0x01B00030; 0x01B00050; 0x00B00000; 0x00D00000; 0x01B00070;
   0x01100000; 0x02700000; 0x01500000; 0x01700000; 0x01900000; 0x00100090; 0x01D00000; 0x01F00000].

(** AND EOR LSL(2) LSR(2) ASR(2) ADC SBC ROR TST NEG CMP(2) CMN ORR MUL BIC MVN. *)
Definition translateAlu (instr instrT : Z) : Z :=
  let use16 := 0x2AAE280A in
  let use12 := 0xA208AAAA in
  let use8 := 0x0800C3F0 in
  let use0 := 0xFFF3BEAF in
  let vals := [0; 0; instrT .& 7; (instrT .>> 3) .& 7] in
  let v8 := (instrT .>> 6) .& 15 in
  let instr := instr .| aluTable.[v8] in
  let v8 := v8 .<< 1 in
  instr .| (vals.[(use16 .>> v8) .& 3] .<< 16) .| (vals.[(use12 .>> v8) .& 3] .<< 12)
    .| (vals.[(use8 .>> v8) .& 3] .<< 8) .| vals.[(use0 .>> v8) .& 3].

Definition memTable : list Z :=
  [0x07800000; 0x018000B0; 0x07C00000; 0x019000D0; 0x07900000; 0x019000B0; 0x07D00000; 0x019000F0].

(** ADD(7) SUB(4) PUSH POP BKPT. *)
Definition translateMisc (instr instrT : Z) : Z :=
  if instrT .& 0x0600 =? 0x0400 then
    let instr := instr .| (instrT .& 0xFF) .| 0x000D0000 in
    if tst instrT 0x0800 then (if tst instrT 0x0100 then instr .| 0x00008000 else instr) .| 0x08B00000
    else (if tst instrT 0x0100 then instr .| 0x00004000 else instr) .| 0x09200000
  else if tst instrT 0x0100 then undefinedThumb instrT
  else match (instrT .>> 9) .& 7 with
       | 0 => instr .| 0x020DDF00 .| (instrT .& 0x7F) .| (if tst instrT 0x0080 then 0x00400000 else 0x00800000)
       | 7 => instr .| 0x01200070 .| (instrT .& 0x0F) .| ((instrT .& 0xF0) .<< 4)
       | _ => undefinedThumb instrT
       end.

(** MOV(1) CMP(1) ADD(2) SUB(2). *)
Definition translateImm8 (instr instrT : Z) : Z :=
  let instr := instr .| (instrT .& 0x00FF) in
  match (instrT .>> 11) .& 3 with
  | 0 => instr .| 0x03B00000 .| ((instrT .& 0x0700) .<< 4)
  | 1 => instr .| 0x03500000 .| ((instrT .& 0x0700) .<< 8)
  | 2 => instr .| 0x02900000 .| ((instrT .& 0x0700) .<< 4) .| ((instrT .& 0x0700) .<< 8)
  | _ => instr .| 0x02500000 .| ((instrT .& 0x0700) .<< 4) .| ((instrT .& 0x0700) .<< 8)
  end.

Definition translateThumb (instrT : Z) : Z :=
  let instr := 0xE0000000 in
  let loadBit (i : Z) : Z := if tst instrT 0x0800 then i .| 0x00100000 else i in
  let RdRn := ((instrT .& 7) .<< 12) .| ((instrT .& 0x38) .<< 13) in
  match instrT .>> 12 with
  | 0 | 1 =>
      if negb (instrT .& 0x1800 =? 0x1800) then
        instr .| (0x01B00000 .| ((instrT .& 0x7) .<< 12) .| ((instrT .>> 3) .& 7) .| ((instrT .>> 6) .& 0x60)
                  .| ((instrT .<< 1) .& 0xF80))
      else
        let vB := tst instrT 0x0200 in
        let instr := instr .| (((if vB then 5 else 9) .<< 20) .| ((instrT .& 0x38) .<< 13)
                               .| ((instrT .& 0x07) .<< 12) .| ((instrT .>> 6) .& 0x07)) in
        if tst instrT 0x0400 then instr .| 0x02000000 else instr
  | 2 | 3 => translateImm8 instr instrT
  | 4 =>
      if tst instrT 0x0800 then 0
      else if tst instrT 0x0400 then
        let vD := (instrT .& 7) .| ((instrT .>> 4) .& 0x08) in
        let v8 := (instrT .>> 3) .& 0xF in
        match (instrT .>> 8) .& 3 with
        | 1 => instr .| (0x01500000 .| (vD .<< 16) .| v8)
        | _ => 0
        end
      else translateAlu instr instrT
  | 5 => instr .| (((instrT .>> 6) .& 7) .| RdRn .| memTable.[(instrT .>> 9) .& 7])
  | 6 => loadBit (instr .| (RdRn .| ((instrT .>> 4) .& 0x7C) .| 0x05800000))
  | 7 => loadBit (instr .| (RdRn .| ((instrT .>> 6) .& 0x1F) .| 0x05C00000))
  | 8 => loadBit (instr .| (RdRn .| ((instrT .>> 5) .& 0x0E) .| ((instrT .>> 1) .& 0x300) .| 0x01C000B0))
  | 9 => loadBit (instr .| (((instrT .& 0x700) .<< 4) .| ((instrT .& 0xFF) .<< 2) .| 0x058D0000))
  | 10 => 0
  | 11 => translateMisc instr instrT
  | 12 =>
      let instr := loadBit (instr .| (0x08800000 .| ((instrT .& 0x700) .<< 8) .| (instrT .& 0xFF))) in
      if tst (1 .<< ((instrT .>> 8) .& 0x07)) instrT then instr else instr .| 0x00200000
  | 13 =>
      let v8 := (instrT .>> 8) .& 0x0F in
      if v8 =? 14 then undefinedThumb instrT
      else if v8 =? 15 then instr .| (0x0F000000 .| (instrT .& 0xFF))
      else
        let instr := (v8 .<< 28) .| 0x0A000000 .| (instrT .& 0xFF) in
        if tst instrT 0x80 then instr .| 0x00FFFF00 else instr
  | _ =>
      match (instrT .>> 11) .& 3 with
      | 0 =>
          let instr := instr .| (0x0A000000 .| (instrT .& 0x7FF)) in
          let instr := if tst instrT 0x0400 then instr .| 0x00FFF800 else instr in
          if tst instrT 0x0800 then undefinedThumb instrT
          else
            let instr := instr .| (0x0A000000 .| (instrT .& 0x7FF)) in
            if tst instrT 0x0400 then instr .| 0x00FFF800 else instr
      | _ => 0
      end
  end.

(** The functions that execute the rest, with their template arguments. *)
Inductive ThumbExec :=
| execFn_thumb_3_ldr
| execFn_thumb_4_add (pcD pcS : bool)
| execFn_thumb_3_mov (pcD pcS : bool)
| execFn_thumb_bl_x (blx pcS : bool)
| execFn_thumb_load_addr (sp : bool)
| execFn_thumb_bl_x_prefix
| execFn_thumb_bl_suffix
| execFn_thumb_blx_suffix.

Definition cpuPrvDecoderThumb (instr : Z) : outcome ThumbExec :=
  match instr .>> 12 with
  | 4 =>
      if tst instr 0x0800 then Ret execFn_thumb_3_ldr
      else if tst instr 0x0400 then
        let pcD := ((instr .& 7) .| ((instr .>> 4) .& 0x08)) =? 15 in
        let pcS := ((instr .>> 3) .& 0xF) =? 15 in
        let blx := tst instr 0x80 in
        match (instr .>> 8) .& 0x03 with
        | 0 => Ret (execFn_thumb_4_add pcD pcS)
        | 2 => Ret (execFn_thumb_3_mov pcD pcS)
        | 3 => Ret (execFn_thumb_bl_x blx pcS)
        | _ => Abort
        end
      else Abort
  | 10 => Ret (execFn_thumb_load_addr (tst instr 0x0800))
  | 14 | 15 =>
      match (instr .>> 11) .& 3 with
      | 1 => Ret execFn_thumb_blx_suffix
      | 2 => Ret execFn_thumb_bl_x_prefix
      | 3 => Ret execFn_thumb_bl_suffix
      | _ => Abort
      end
  | _ => Abort (* "thumb opcode should be transcoded" *)
  end.

(** [cpuDecodeThumb]: an ARM instruction to execute, or a function. *)
Definition cpuDecodeThumb (instr : Z) : outcome (Z + ThumbExec) :=
  let translatedInstr := translateThumb instr in
  if nz translatedInstr then Ret (inl translatedInstr)
  else e ← cpuPrvDecoderThumb instr; Ret (inr e).

(** ** The equivalents in the ARM architecture

    Instructions are assembled from their fields, by addition; the tables are
    those of the chapter on Thumb in the ARM architecture reference. *)

Definition bits (x hi lo : Z) : Z := (x .>> lo) .& Z.ones (hi - lo + 1).

Inductive DpOp := AND | EOR | SUB | RSB | ADD | ADC | SBC | RSC | TST | TEQ | CMP | CMN | ORR | MOV | BIC | MVN.

Definition opNo (op : DpOp) : Z :=
  match op with
  | AND => 0 | EOR => 1 | SUB => 2 | RSB => 3 | ADD => 4 | ADC => 5 | SBC => 6 | RSC => 7
  | TST => 8 | TEQ => 9 | CMP => 10 | CMN => 11 | ORR => 12 | MOV => 13 | BIC => 14 | MVN => 15
  end.

Inductive ShiftOp := LSL | LSR | ASR | ROR.
Definition shNo (s : ShiftOp) : Z := match s with LSL => 0 | LSR => 1 | ASR => 2 | ROR => 3 end.

Definition always : Z := 14 .<< 28.
(** Data processing that sets the flags. *)
Definition dps (op : DpOp) (rd rn op2 : Z) : Z := always + (opNo op) .<< 21 + 1 .<< 20 + rn .<< 16 + rd .<< 12 + op2.
Definition immOp (imm8 : Z) : Z := 1 .<< 25 + imm8.
Definition shiftByImm (rm : Z) (s : ShiftOp) (n : Z) : Z := n .<< 7 + (shNo s) .<< 5 + rm.
Definition shiftByReg (rm : Z) (s : ShiftOp) (rs : Z) : Z := rs .<< 8 + (shNo s) .<< 5 + 1 .<< 4 + rm.

(** Word and byte transfers, halfword and signed transfers, at [rn] plus an offset. *)
Definition ldst (load byte : bool) (rd rn off : Z) : Z :=
  always + 1 .<< 26 + 1 .<< 24 + 1 .<< 23 + (Z.b2z byte) .<< 22 + (Z.b2z load) .<< 20 + rn .<< 16 + rd .<< 12 + off.
Definition regOff (rm : Z) : Z := 1 .<< 25 + rm.
Definition ldstH (load signed half : bool) (rd rn off : Z) : Z :=
  always + 1 .<< 24 + 1 .<< 23 + (Z.b2z load) .<< 20 + rn .<< 16 + rd .<< 12 + 1 .<< 7 + (Z.b2z signed) .<< 6
    + (Z.b2z half) .<< 5 + 1 .<< 4 + off.
Definition immOffH (imm8 : Z) : Z := 1 .<< 22 + (imm8 .>> 4) .<< 8 + (imm8 .& 15).

(** Multiple transfers: increment after, or decrement before. *)
Definition ldm (load before up wback : bool) (rn list : Z) : Z :=
  always + 1 .<< 27 + (Z.b2z before) .<< 24 + (Z.b2z up) .<< 23 + (Z.b2z wback) .<< 21 + (Z.b2z load) .<< 20
    + rn .<< 16 + list.

(** A branch with a halfword offset of [n] bits. *)
Definition branch (cond off n : Z) : Z := cond .<< 28 + 10 .<< 24 + ((off - bits off (n - 1) (n - 1) .<< n) .& Z.ones 24).

Definition permUndefined (x : Z) : Z := 0xE7F000F0 + (x .>> 4) .<< 8 + (x .& 15).

Definition thumbAlu (op rd rm : Z) : Z :=
  match op with
  | 0 => dps AND rd rd rm
  | 1 => dps EOR rd rd rm
  | 2 => dps MOV rd 0 (shiftByReg rd LSL rm)
  | 3 => dps MOV rd 0 (shiftByReg rd LSR rm)
  | 4 => dps MOV rd 0 (shiftByReg rd ASR rm)
  | 5 => dps ADC rd rd rm
  | 6 => dps SBC rd rd rm
  | 7 => dps MOV rd 0 (shiftByReg rd ROR rm)
  | 8 => dps TST 0 rd rm
  | 9 => dps RSB rd rm (immOp 0)
  | 10 => dps CMP 0 rd rm
  | 11 => dps CMN 0 rd rm
  | 12 => dps ORR rd rd rm
  | 13 => always + 1 .<< 20 + rd .<< 16 + rd .<< 8 + 9 .<< 4 + rm (* MULS rd, rm, rd *)
  | 14 => dps BIC rd rd rm
  | _ => dps MVN rd 0 rm
  end.

(** The ARM instruction equivalent to a Thumb instruction; [None] where there
    is none and the instruction has to be executed directly. *)
Definition thumbEquivalent (t : Z) : option Z :=
  let rd := bits t 2 0 in
  let rn := bits t 5 3 in
  let rm := bits t 8 6 in
  let imm5 := bits t 10 6 in
  let imm8 := bits t 7 0 in
  let r8 := bits t 10 8 in
  let load := Z.testbit t 11 in
  match bits t 15 11 with
  | 0 => Some (dps MOV rd 0 (shiftByImm rn LSL imm5))
  | 1 => Some (dps MOV rd 0 (shiftByImm rn LSR imm5))
  | 2 => Some (dps MOV rd 0 (shiftByImm rn ASR imm5))
  | 3 => Some (dps (if Z.testbit t 9 then SUB else ADD) rd rn (if Z.testbit t 10 then immOp rm else rm))
  | 4 => Some (dps MOV r8 0 (immOp imm8))
  | 5 => Some (dps CMP 0 r8 (immOp imm8))
  | 6 => Some (dps ADD r8 r8 (immOp imm8))
  | 7 => Some (dps SUB r8 r8 (immOp imm8))
  | 8 => if bits t 10 10 =? 0 then Some (thumbAlu (bits t 9 6) rd rn)
         else if bits t 9 8 =? 1 then Some (dps CMP 0 (bits t 7 7 * 8 + rd) (bits t 6 3))
         else None (* ADD(4), MOV(3), BX, BLX *)
  | 9 => None (* LDR(3) *)
  | 10 => match bits t 10 9 with
          | 0 => Some (ldst false false rd rn (regOff rm))
          | 1 => Some (ldstH false false true rd rn rm)
          | 2 => Some (ldst false true rd rn (regOff rm))
          | _ => Some (ldstH true true false rd rn rm)
          end
  | 11 => match bits t 10 9 with
          | 0 => Some (ldst true false rd rn (regOff rm))
          | 1 => Some (ldstH true false true rd rn rm)
          | 2 => Some (ldst true true rd rn (regOff rm))
          | _ => Some (ldstH true true true rd rn rm)
          end
  | 12 | 13 => Some (ldst load false rd rn (4 * imm5))
  | 14 | 15 => Some (ldst load true rd rn imm5)
  | 16 | 17 => Some (ldstH load false true rd rn (immOffH (2 * imm5)))
  | 18 | 19 => Some (ldst load false r8 13 (4 * imm8))
  | 20 | 21 => None (* ADD(5), ADD(6) *)
  | 22 | 23 =>
      match bits t 11 8 with
      | 0 => let sp op := Some (always + (opNo op) .<< 21 + 13 .<< 16 + 13 .<< 12 + immOp (15 .<< 8 + bits t 6 0)) in
             if bits t 7 7 =? 0 then sp ADD else sp SUB
      | 4 => Some (ldm false true false true 13 imm8)
      | 5 => Some (ldm false true false true 13 (1 .<< 14 + imm8))
      | 12 => Some (ldm true false true true 13 imm8)
      | 13 => Some (ldm true false true true 13 (1 .<< 15 + imm8))
      | 14 => Some (always + 0x01200070 + (imm8 .>> 4) .<< 8 + (imm8 .& 15))
      | _ => Some (permUndefined t)
      end
  | 24 => Some (ldm false false true true r8 imm8)
  | 25 => Some (ldm true false true (negb (Z.testbit imm8 r8)) r8 imm8)
  | 26 | 27 =>
      match bits t 11 8 with
      | 14 => Some (permUndefined t)
      | 15 => Some (always + 15 .<< 24 + imm8)
      | cond => Some (branch cond imm8 8)
      end
  | 28 => Some (branch 14 (bits t 10 0) 11)
  | _ => None (* BL, BLX *)
  end.

(** STMIA whose base register is in the list. *)
Definition stmBaseListed (t : Z) : bool := (bits t 15 11 =? 24) && Z.testbit t (bits t 10 8).

(** What the translation has to be; the decoder has to know the rest. *)
Definition thumbExpected (t : Z) : Z :=
  match thumbEquivalent t with
  | Some i => if stmBaseListed t then i - 1 .<< 21 else i
  | None => 0
  end.

Definition thumbOk (t : Z) : bool :=
  let i := translateThumb t in
  (i =? thumbExpected t) && (nz i || is_ret (cpuPrvDecoderThumb t)).

Lemma thumb_all :
  forallb (fun hi => forallb (fun lo => thumbOk (Z.of_nat hi * 256 + Z.of_nat lo)) (seq 0 256)) (seq 0 256) = true.
Proof. vm_compute. reflexivity. Qed.

Lemma thumbOk_all t : is_u 16 t -> thumbOk t = true.
Proof.
  intros Ht. change (is_u 16 t) with (0 <= t < 65536) in Ht.
  assert (0 <= t / 256 < 256 /\ 0 <= t mod 256 < 256) as [H1 H2] by zdiv_lia.
  pose proof (forallb_grid (fun hi lo => thumbOk (hi * 256 + lo)) 256 256 thumb_all _ _ H1 H2) as H.
  cbv beta in H. by rewrite (Z.mul_comm _ 256), <- Z.div_mod in H.
Qed.

(** C4. Every one of the 65536 Thumb instructions is decoded: one that has an
    ARM equivalent is translated to exactly the encoding the architecture
    gives for it - but for STMIA with its base register in the list, which
    loses its write-back - and for every other there is a function that
    executes it directly. *)
Theorem thumb_translation_exact (t : Z) (Ht : is_u 16 t) :
  translateThumb t = thumbExpected t /\ is_ret (cpuDecodeThumb t) = true.
Proof.
  pose proof (thumbOk_all t Ht) as H. unfold thumbOk in H.
  apply andb_true_iff in H as [He%Z.eqb_eq Hd]. split; [done|].
  unfold cpuDecodeThumb. destruct (nz (translateThumb t)); [done|].
  destruct (cpuPrvDecoderThumb t); done.
Qed.

(** ADDS R1, R0, #0 and STMIA R0!, {R0, R1}, which becomes STMIA R0, {R0, R1}. *)
Lemma thumb_translation_exact_witness :
  translateThumb 0x1c01 = 0xE2901000 /\ translateThumb 0xC003 = 0xE8800003 /\
  thumbEquivalent 0xC003 = Some 0xE8A00003.
Proof.
  destruct (thumb_translation_exact 0x1c01) as [E1 _]; [is_u_lit|].
  destruct (thumb_translation_exact 0xC003) as [E2 _]; [is_u_lit|].
  rewrite E1, E2. split; [reflexivity|]. split; reflexivity.
Defined.
