(* ===== verification/CpuAlu.v ===== *)
(** * Conditions, shifts and arithmetic of the CPU (CPU.cpp)

    The execution functions of the instructions that touch no memory. Their
    template parameters are ordinary parameters: [wasT] says that the
    instruction was a Thumb one, [srcPc] and [destPc] that an operand is the
    program counter. *)

From S2P Require Import Prelude CpuSoc Cpu Thumb.

(** ** Conditions *)

Definition cpuPrvConditionTableEntry (key : Z) : bool :=
  let N := tst key 0x80 in
  let ZF := tst key 0x40 in
  let C := tst key 0x20 in
  let V := tst key 0x10 in
  match key .& 0x0f with
  | 0 => ZF
  | 1 => negb ZF
  | 2 => C
  | 3 => negb C
  | 4 => N
  | 5 => negb N
  | 6 => V
  | 7 => negb V
  | 8 => C && negb ZF
  | 9 => negb C || ZF
  | 10 => eqb N V
  | 11 => negb (eqb N V)
  | 12 => negb ZF && eqb N V
  | 13 => ZF || negb (eqb N V)
  | _ => true
  end.

(** The table holds the conditions that fail. *)
Definition table_conditions (key : Z) : bool := negb (cpuPrvConditionTableEntry key).

Definition condFails (cpu : ArmCpu) (instr : Z) : bool :=
  table_conditions (((cpu.(flags) .& 0xf0000000) .>> 24) .| (instr .>> 28)).

(** ** The barrel shifter *)

Inductive ImmShiftType :=
| shiftTypeNoop | shiftTypeZero | shiftTypeLSL | shiftTypeLSR | shiftTypeASR | shiftTypeROR | shiftTypeRRX.

(** The last two fields of a [shiftTypeNoop] or [shiftTypeRRX] are not used. *)
Record ImmShift := mkImmShift { type : ImmShiftType; coBit : Z; shift : Z }.

Definition bit32 (n : Z) : Z := u32 (1 .<< n).

Definition cpuPrvImmShiftRegTableEntry (key : Z) : ImmShift :=
  let a := u8 key in
  let v := (key .>> 8) .& 3 in
  if a =? 0 then mkImmShift shiftTypeNoop 0 0 else
  match v with
  | 0 => if a <? 32 then mkImmShift shiftTypeLSL (bit32 (32 - a)) a
         else mkImmShift shiftTypeZero (if a =? 32 then 1 else 0) 0
  | 1 => if a <? 32 then mkImmShift shiftTypeLSR (bit32 (a - 1)) a
         else mkImmShift shiftTypeZero (if a =? 32 then 0x80000000 else 0) 0
  | 2 => if a <? 32 then mkImmShift shiftTypeASR (bit32 (a - 1)) a
         else mkImmShift shiftTypeASR 0x80000000 31
  | _ => mkImmShift shiftTypeROR (bit32 ((a - 1) .& 0x1f)) (a .& 0x1f)
  end.

Definition cpuPrvImmShiftImmTableEntry (key : Z) : ImmShift :=
  let a := key .& 0x1f in
  let v := (key .>> 5) .& 3 in
  match v with
  | 0 => if negb (a =? 0) then mkImmShift shiftTypeLSL (bit32 (32 - a)) a else mkImmShift shiftTypeNoop 0 0
  | 1 => if a =? 0 then mkImmShift shiftTypeZero 0x80000000 32
         else mkImmShift shiftTypeLSR (bit32 (a - 1)) a
  | 2 => if a =? 0 then mkImmShift shiftTypeASR (bit32 31) 31
         else mkImmShift shiftTypeASR (bit32 (a - 1)) a
  | _ => if a =? 0 then mkImmShift shiftTypeRRX 0 0
         else mkImmShift shiftTypeROR (bit32 (a - 1)) a
  end.

(** The shift by [32 - ror] is by 32 when [ror] is 0; the machine takes the
    count modulo 32. *)
Definition cpuPrvROR (val ror : Z) : Z := (val .>> ror) .| u32 (val .<< ((32 - ror) mod 32)).

(** A register with the program counter two instructions ahead. *)
Definition cpuPrvGetReg (wasT : bool) (cpu : ArmCpu) (reg : Z) : Z :=
  let ret := cpu.(regs).[reg] in
  if reg =? REG_NO_PC then u32 (ret + if wasT then 2 else 4) else ret.

(** The version for a register known at compile time to be the PC, or not. *)
Definition getRegT (wasT pc : bool) (cpu : ArmCpu) (reg : Z) : Z :=
  if pc then u32 (cpu.(regs).[REG_NO_PC] + if wasT then 2 else 4) else cpu.(regs).[reg].

Definition setRegT (pc : bool) (cpu : ArmCpu) (reg val : Z) : ArmCpu :=
  if pc then cpuPrvSetPC cpu val else { cpu with regs ::= fun r => r.[reg <- val] }.

(** One entry of a table applied to a register and the carry: the result and
    the carry out. *)
Definition applyShift (s : ImmShift) (ret : Z) (co : bool) : Z * bool :=
  match s.(type) with
  | shiftTypeNoop => (ret, co)
  | shiftTypeLSL => (u32 (ret .<< s.(shift)), tst ret s.(coBit))
  | shiftTypeLSR => (ret .>> s.(shift), tst ret s.(coBit))
  | shiftTypeASR => (u32 (sgn 32 ret .>> s.(shift)), tst ret s.(coBit))
  | shiftTypeROR => (cpuPrvROR ret s.(shift), tst ret s.(coBit))
  | shiftTypeZero => (0, tst ret s.(coBit))
  | shiftTypeRRX => ((ret .>> 1) .| (if co then 0x80000000 else 0), tst ret 1)
  end.

Definition cpuPrvArmAdrMode_1 (wasT : bool) (cpu : ArmCpu) (instr : Z) : Z * bool :=
  let co := tst cpu.(flags) ARM_SR_C in
  if tst instr 0x02000000 then
    let v := (instr .>> 7) .& 0x1E in
    let ret := cpuPrvROR (instr .& 0xFF) v in
    (ret, if nz v then tst ret 0x80000000 else co)
  else
    let v := (instr .>> 5) .& 3 in
    let ret := cpuPrvGetReg wasT cpu (instr .& 0x0F) in
    let s :=
      if tst instr 0x00000010 then
        let a := cpu.(regs).[(instr .>> 8) .& 0x0F] in
        cpuPrvImmShiftRegTableEntry ((v .<< 8) .| (a .& 0xff))
      else
        let a := (instr .>> 7) .& 0x1F in
        cpuPrvImmShiftImmTableEntry ((v .<< 5) .| a) in
    applyShift s ret co.

(** ** Data processing *)

Definition cpuPrvSignedAdditionOverflows (a b : Z) : bool :=
  let s := sgn 32 a + sgn 32 b in (s <? - 2 ^ 31) || (2 ^ 31 <=? s).

Definition cpuPrvSignedSubtractionOverflows (a b : Z) : bool :=
  let s := sgn 32 a - sgn 32 b in (s <? - 2 ^ 31) || (2 ^ 31 <=? s).

Definition cpuPrvSignedSubtractionWithPossibleCarryOverflows (a b diff : Z) : bool :=
  nz (((a .^ b) .& (a .^ diff)) .>> 31).

Definition setV (fl : Z) (v : bool) : Z := let fl := fl .&~ ARM_SR_V in if v then fl .| ARM_SR_V else fl.

Definition ARM_SR_ZNC := ARM_SR_Z .| ARM_SR_N .| ARM_SR_C.

(** The switch over the operation: result, carry out, and the flags register. *)
Definition aluOp (op : Z) (setFlags : bool) (fl op1 op2 : Z) (cOut : bool) : Z * bool * Z :=
  let carry := (fl .& ARM_SR_C) .>> 29 in
  let borrow := 1 - carry in
  let sub a b := if setFlags then (u32 (a - b), negb (a <? b), setV fl (cpuPrvSignedSubtractionOverflows a b))
                 else (u32 (a - b), cOut, fl) in
  let sbc a b :=
    let res64 := u64 (a - b - borrow) in
    let res := u32 res64 in
    if setFlags then (res, negb (nz (res64 .>> 32)),
                      setV fl (cpuPrvSignedSubtractionWithPossibleCarryOverflows a b res))
    else (res, cOut, fl) in
  match op with
  | 0 => (op1 .& op2, cOut, fl)
  | 1 => (op1 .^ op2, cOut, fl)
  | 2 => sub op1 op2
  | 3 => sub op2 op1
  | 4 => if setFlags then (u32 (op1 + op2), 2 ^ 32 <=? op1 + op2, setV fl (cpuPrvSignedAdditionOverflows op1 op2))
         else (u32 (op1 + op2), cOut, fl)
  | 5 => let res64 := op1 + op2 + carry in
         if setFlags then (u32 res64, nz (res64 .>> 32), setV fl ((res64 .>> 31 =? 1) || (res64 .>> 31 =? 2)))
         else (u32 res64, cOut, fl)
  | 6 => sbc op1 op2
  | 7 => sbc op2 op1
  | 8 => (op1 .& op2, cOut, fl .&~ ARM_SR_ZNC)
  | 9 => (op1 .^ op2, cOut, fl .&~ ARM_SR_ZNC)
  | 10 => (u32 (op1 - op2), negb (op1 <? op2),
           setV (fl .&~ (ARM_SR_ZNC .| ARM_SR_V)) (cpuPrvSignedSubtractionOverflows op1 op2))
  | 11 => (u32 (op1 + op2), 2 ^ 32 <=? op1 + op2,
           setV (fl .&~ (ARM_SR_ZNC .| ARM_SR_V)) (cpuPrvSignedAdditionOverflows op1 op2))
  | 12 => (op1 .| op2, cOut, fl)
  | 13 => (op2, cOut, fl)
  | 14 => (op1 .&~ op2, cOut, fl)
  | _ => (u32 (Z.lnot op2), cOut, fl)
  end.

(** [dp_flag_set] *)
Definition dpFlagSet (fl : Z) (cOut : bool) (res : Z) : Z :=
  let fl := if cOut then fl .| ARM_SR_C else fl in
  let fl := if res =? 0 then fl .| ARM_SR_Z else fl in
  fl .| (res .& 0x80000000).

(** The instruction behind a Thumb one. *)
Definition armInstr (wasT : bool) (instr : Z) : Z := if wasT then translateThumb instr else instr.

Definition execFn_dproc (wasT : bool) (op : Z) (setFlags srcPc destPc : bool) (cpu : ArmCpu) (instr : Z)
    (privileged : bool) : outcome ArmCpu :=
  let instr := armInstr wasT instr in
  if condFails cpu instr then Ret cpu else
  let '(op2, cOut) := cpuPrvArmAdrMode_1 wasT cpu instr in
  let psrImm := cpuPrvROR (instr .& 0xFF) (((instr .>> 8) .& 0x0F) * 2) in
  if (op =? 9) && negb setFlags then cpuPrvSetPSR false cpu ((instr .>> 16) .& 0x0F) privileged psrImm
  else if (op =? 11) && negb setFlags then cpuPrvSetPSR true cpu ((instr .>> 16) .& 0x0F) privileged psrImm
  else
    let op1 := getRegT wasT srcPc cpu ((instr .>> 16) .& 0x0F) in
    let '(res, cOut, fl) := aluOp op setFlags cpu.(flags) op1 op2 cOut in
    let rd := (instr .>> 12) .& 0x0F in
    if (8 <=? op) && (op <=? 11) then Ret { cpu with flags := dpFlagSet fl cOut res }
    else if negb setFlags then Ret (setRegT destPc cpu rd res)
    else if destPc then restoreSPSR { cpu with flags := fl } res
    else Ret { cpu with regs ::= (fun r => r.[rd <- res]); flags := dpFlagSet (fl .&~ ARM_SR_ZNC) cOut res }.

(** ** Multiplication *)

Definition cpuPrv64FromHalves (hi lo : Z) : Z := hi * 2 ^ 32 + lo.

(** N and Z of a result of [w] bits. *)
Definition setNZ (fl : Z) (w res : Z) : Z :=
  let fl := fl .&~ (ARM_SR_Z .| ARM_SR_N) in
  let fl := if res =? 0 then fl .| ARM_SR_Z else fl in
  fl .| ((res .& 2 ^ (w - 1)) .>> (w - 32)).

Definition execFn_mult (wasT : bool) (tag : Z) (setFlags : bool) (cpu : ArmCpu) (instr : Z) (privileged : bool)
  : outcome ArmCpu :=
  let instr := armInstr wasT instr in
  if condFails cpu instr then Ret cpu else
  let reg (n : Z) := cpu.(regs).[(instr .>> n) .& 0x0F] in
  let mul32 (res : Z) :=
    let res := u32 (res + u32 (reg 8 * reg 0)) in
    let cpu := { cpu with regs ::= fun r => r.[(instr .>> 16) .& 0x0F <- res] } in
    Ret (if setFlags then { cpu with flags ::= fun fl => setNZ fl 32 res } else cpu) in
  let mul64 (res64 : Z) :=
    let product := if tst instr 0x00400000 then sgn 32 (reg 8) * sgn 32 (reg 0) else reg 8 * reg 0 in
    let res64 := u64 (res64 + product) in
    let cpu := { cpu with regs ::= fun r => r.[(instr .>> 12) .& 0x0F <- u32 res64]
                                            .[(instr .>> 16) .& 0x0F <- res64 .>> 32] } in
    Ret (if setFlags then { cpu with flags ::= fun fl => setNZ fl 64 res64 } else cpu) in
  match tag with
  | 0 | 1 => mul32 0
  | 2 | 3 => mul32 (reg 12)
  | 8 | 9 | 12 | 13 => mul64 0
  | 10 | 11 | 14 | 15 => mul64 (cpuPrv64FromHalves (reg 16) (reg 12))
  | _ => takeException cpu ExcUnd (cpu.(curInstrPC) + if wasT then 2 else 4)
  end.

(** ** Saturating additions and 16-bit multiplications *)

Definition cpuPrvMedia_signedSaturate32 (sign : Z) : Z := if sgn 32 sign <? 0 then 0x80000000 else 0x7fffffff.

(** A sum whose overflow, as [overflows] sees it, saturates by the sign of [a]. *)
Definition saturate (overflows : bool) (a res : Z) (q : bool) : Z * bool :=
  if overflows then (cpuPrvMedia_signedSaturate32 a, true) else (res, q).

(** The result and Q. *)
Definition dspAdd (tag op1 op2 : Z) (q : bool) : Z * bool :=
  let double :=
    saturate (cpuPrvSignedAdditionOverflows op2 op2) op2 (u32 (op2 + op2)) q in
  let add op2 q := saturate (cpuPrvSignedAdditionOverflows op1 op2) op1 (u32 (op1 + op2)) q in
  let sub op2 q := saturate (cpuPrvSignedAdditionOverflows op1 op2) op1 (u32 (op1 - op2)) q in
  match tag with
  | 0 => add op2 q
  | 1 => sub op2 q
  | 2 => let '(op2, q) := double in add op2 q
  | _ => let '(op2, q) := double in sub op2 q
  end.

Definition execFn_dspadd (wasT : bool) (tag : Z) (cpu : ArmCpu) (instr : Z) (privileged : bool) : outcome ArmCpu :=
  let instr := armInstr wasT instr in
  if condFails cpu instr then Ret cpu else
  let op1 := cpu.(regs).[instr .& 0x0F] in
  let op2 := cpu.(regs).[(instr .>> 16) .& 0x0F] in
  let '(res, q) := dspAdd tag op1 op2 cpu.(Q) in
  Ret { cpu with Q := q; regs ::= fun r => r.[(instr .>> 12) .& 0x0F <- res] }.

Definition execFn_dspmul (wasT : bool) (tag : Z) (cpu : ArmCpu) (instr : Z) (privileged : bool) : outcome ArmCpu :=
  let instr := armInstr wasT instr in
  if condFails cpu instr then Ret cpu else
  let op1 := cpu.(regs).[instr .& 0x0F] in
  let op2 := cpu.(regs).[(instr .>> 8) .& 0x0F] in
  let half (x m : Z) : Z := sgn 16 (if tst instr m then x .>> 16 else x) in
  let rn := cpu.(regs).[(instr .>> 12) .& 0x0F] in
  let rd := (instr .>> 16) .& 0x0F in
  let setRd (res : Z) (q : bool) := Ret { cpu with Q := q; regs ::= fun r => r.[rd <- res] } in
  let accumulate (op1 : Z) :=
    setRd (u32 (op1 + rn)) (cpu.(Q) || cpuPrvSignedAdditionOverflows op1 rn) in
  let mul16 := half op1 0x20 * half op2 0x40 in
  match tag with
  | 0 => accumulate (u32 mul16)
  | 1 =>
      let res := u32 ((sgn 32 op1 * half op2 0x40) .>> 16) in
      if tst instr 0x20 then setRd res cpu.(Q) else accumulate res
  | 2 =>
      let res64 := u64 (cpuPrv64FromHalves cpu.(regs).[rd] rn + mul16) in
      Ret { cpu with regs ::= fun r => r.[(instr .>> 12) .& 0x0F <- u32 res64].[rd <- res64 .>> 32] }
  | _ => setRd (u32 mul16) cpu.(Q)
  end.

Definition cpuPrvClz (val : Z) : Z := if val =? 0 then 32 else 31 - Z.log2 val.

Definition execFn_clz (wasT : bool) (cpu : ArmCpu) (instr : Z) (privileged : bool) : outcome ArmCpu :=
  let instr := armInstr wasT instr in
  if condFails cpu instr then Ret cpu else
  Ret { cpu with regs ::= fun r => r.[(instr .>> 12) .& 0x0F <- cpuPrvClz r.[instr .& 0xF]] }.

(** ** Branches and status transfers *)

(** The target of a branch: a sign-extended 24-bit offset in instructions. *)
Definition branchTarget (wasT : bool) (cpu : ArmCpu) (instr : Z) : Z :=
  let ea := u32 (sgn 32 (u32 (instr .<< 8)) .>> 7) in
  let ea := u32 (ea + 4) in
  let ea := if wasT then ea else u32 (ea .<< 1) in
  u32 (ea + cpu.(curInstrPC)).

Definition execFn_bl (wasT : bool) (cpu : ArmCpu) (instr : Z) (privileged : bool) : outcome ArmCpu :=
  let instr := armInstr wasT instr in
  if condFails cpu instr then Ret cpu else
  let ea := branchTarget wasT cpu instr in
  let cpu := if tst instr 0x01000000
             then { cpu with regs ::= fun r => r.[REG_NO_LR <- u32 (cpu.(curInstrPC) + if wasT then 2 else 4)] }
             else cpu in
  let ea := if cpu.(T) then ea .| 1 else ea in
  Ret (cpuPrvSetPC cpu ea).

Definition execFn_b2thumb (wasT align2 : bool) (cpu : ArmCpu) (instr : Z) (privileged : bool) : outcome ArmCpu :=
  let instr := armInstr wasT instr in
  let ea := branchTarget wasT cpu instr in
  let ea := if align2 then u32 (ea + 2) else ea in
  let cpu := { cpu with regs ::= fun r => r.[REG_NO_LR <- u32 (cpu.(curInstrPC) + if wasT then 2 else 4)] } in
  let ea := if cpu.(T) then ea else ea .| 1 in
  Ret (cpuPrvSetPC cpu ea).

Definition execFn_bl_reg (wasT link : bool) (cpu : ArmCpu) (instr : Z) (privileged : bool) : outcome ArmCpu :=
  let instr := armInstr wasT instr in
  if condFails cpu instr then Ret cpu else
  let cpu := if link then { cpu with regs ::= fun r => r.[REG_NO_LR <- u32 (cpu.(curInstrPC) + if wasT then 3 else 4)] }
             else cpu in
  Ret (cpuPrvSetPC cpu (cpuPrvGetReg wasT cpu (instr .& 0x0F))).

Definition execFn_psr2reg (wasT spsr : bool) (cpu : ArmCpu) (instr : Z) (privileged : bool) : outcome ArmCpu :=
  let instr := armInstr wasT instr in
  if condFails cpu instr then Ret cpu else
  let v := if spsr then cpu.(SPSR) else cpuPrvMaterializeCPSR cpu in
  Ret { cpu with regs ::= fun r => r.[(instr .>> 12) .& 0x0F <- v] }.

Definition execFn_reg2psr (wasT spsr pc : bool) (cpu : ArmCpu) (instr : Z) (privileged : bool) : outcome ArmCpu :=
  let instr := armInstr wasT instr in
  if condFails cpu instr then Ret cpu else
  cpuPrvSetPSR spsr cpu ((instr .>> 16) .& 0x0F) privileged (getRegT wasT pc cpu (instr .& 0x0F)).

Definition execFn_invalid (wasT : bool) (cpu : ArmCpu) (instr : Z) (privileged : bool) : outcome ArmCpu :=
  takeException cpu ExcUnd (cpu.(curInstrPC) + if wasT then 2 else 4).

Definition execFn_softbreak (wasT : bool) (cpu : ArmCpu) (instr : Z) (privileged : bool) : outcome ArmCpu :=
  let instr := armInstr wasT instr in
  if condFails cpu instr then Ret cpu else takeException cpu ExcPAbt (cpu.(curInstrPC) + 4).

(** The directly executed Thumb instructions; [execFn_thumb_3_ldr] loads from
    memory and is not among them. *)
Definition execThumb (e : ThumbExec) (cpu : ArmCpu) (instr : Z) : option ArmCpu :=
  let vD := (instr .& 7) .| ((instr .>> 4) .& 0x08) in
  let v8 := (instr .>> 3) .& 0xF in
  let pc := cpu.(regs).[REG_NO_PC] in
  let lr := cpu.(regs).[REG_NO_LR] in
  match e with
  | execFn_thumb_3_ldr => None
  | execFn_thumb_4_add pcD pcS =>
      let v32 := u32 (getRegT true pcD cpu vD + getRegT true pcS cpu v8) in
      Some (setRegT pcD cpu vD (if pcD then v32 .| 1 else v32))
  | execFn_thumb_3_mov pcD pcS =>
      let v32 := getRegT true pcS cpu v8 in
      Some (setRegT pcD cpu vD (if pcD then v32 .| 1 else v32))
  | execFn_thumb_bl_x blx pcS =>
      let cpu := if blx then { cpu with regs ::= fun r => r.[REG_NO_LR <- u32 (pc + 1)] } else cpu in
      Some (cpuPrvSetPC cpu (if pcS then u32 (pc + 2) .&~ 3 else cpu.(regs).[v8]))
  | execFn_thumb_load_addr sp =>
      let base := if sp then cpu.(regs).[REG_NO_SP] else cpuPrvGetReg true cpu REG_NO_PC .&~ 3 in
      Some (setRegT false cpu ((instr .>> 8) .& 0x07) (u32 (base + ((instr .& 0xff) .<< 2))))
  | execFn_thumb_bl_x_prefix =>
      let offsetHi := instr .& 0x7FF in
      let offsetHi := if tst instr 0x0400 then offsetHi .| 0x000FF800 else offsetHi in
      Some { cpu with regs ::= fun r => r.[REG_NO_LR <- u32 (pc + u32 (offsetHi .<< 12))] }
  | execFn_thumb_bl_suffix =>
      let offsetLo := instr .& 0x7FF in
      Some { cpu with regs ::= fun r => r.[REG_NO_PC <- u32 (lr + 2 + (offsetLo .<< 1))].[REG_NO_LR <- pc .| 1] }
  | execFn_thumb_blx_suffix =>
      let offsetLo := instr .& 0x7FF in
      Some { cpu with regs ::= (fun r => r.[REG_NO_PC <- u32 (lr + 2 + (offsetLo .<< 1)) .&~ 3].[REG_NO_LR <- pc .| 1]);
                      T := false }
  end.

(** ** The shifter and arithmetic on unbounded numbers

    What the barrel shifter means: a shift by [n > 0] is one of unbounded
    integers, and the carry is the last bit shifted out. *)
Definition shiftRef (s : ShiftOp) (x n : Z) : Z * bool :=
  match s with
  | LSL => (u32 (x * 2 ^ n), Z.testbit (x * 2 ^ n) 32)
  | LSR => (x / 2 ^ n, Z.testbit x (n - 1))
  | ASR => (u32 (sgn 32 x / 2 ^ n), Z.testbit (sgn 32 x) (n - 1))
  | ROR => let r := x / 2 ^ (n mod 32) + x mod 2 ^ (n mod 32) * 2 ^ (32 - n mod 32) in (r, Z.testbit r 31)
  end.

Definition shiftOpOf (v : Z) : ShiftOp :=
  match v with 0 => LSL | 1 => LSR | 2 => ASR | _ => ROR end.

(** The operand of a data-processing instruction. *)
Definition shifterOperand (wasT : bool) (cpu : ArmCpu) (instr : Z) : Z * bool :=
  let C := tst cpu.(flags) ARM_SR_C in
  let s := shiftOpOf (bits instr 6 5) in
  let rm := cpuPrvGetReg wasT cpu (bits instr 3 0) in
  if Z.testbit instr 25 then
    let rot := 2 * bits instr 11 8 in
    let '(r, co) := shiftRef ROR (bits instr 7 0) rot in (r, if rot =? 0 then C else co)
  else if Z.testbit instr 4 then
    let n := cpu.(regs).[bits instr 11 8] mod 256 in
    if n =? 0 then (rm, C) else shiftRef s rm n
  else
    let n := bits instr 11 7 in
    match s, n with
    | LSL, 0 => (rm, C)
    | LSR, 0 | ASR, 0 => shiftRef s rm 32
    | ROR, 0 => (rm / 2 + Z.b2z C * 2 ^ 31, Z.odd rm)
    | _, _ => shiftRef s rm n
    end.

Lemma tst_bit32 x n : 0 <= n < 32 -> tst x (bit32 n) = Z.testbit x n.
Proof.
  intros Hn. unfold bit32. rewrite Z.shiftl_1_l, wrap_small; [apply tst_bit; lia|].
  split; [apply Z.pow_nonneg; lia|]. apply Z.pow_lt_mono_r; lia.
Qed.

Lemma sgn_testbit x i : is_u 32 x -> 0 <= i -> Z.testbit (sgn 32 x) i = Z.testbit x (Z.min i 31).
Proof.
  intros Hx Hi. unfold sgn. rewrite wrap_small by done. change (2 ^ (32 - 1)) with (2 ^ 31).
  destruct (Z.ltb_spec x (2 ^ 31)) as [Hs|Hs].
  - assert (H31 : is_u 31 x) by (split; [apply Hx|done]).
    destruct (Z.le_gt_cases i 31) as [Hl|Hl]; [by rewrite Z.min_l by lia|]. rewrite Z.min_r by lia.
    rewrite (testbit_above 31 x i H31), (testbit_above 31 x 31 H31); lia || done.
  - destruct (Z.lt_ge_cases i 31) as [Hl|Hl].
    + rewrite Z.min_l by lia.
      rewrite <- (Z.mod_pow2_bits_low (x - 2 ^ 32) 32) by lia.
      replace ((x - 2 ^ 32) mod 2 ^ 32) with x; [done|].
      apply (Z.mod_unique _ _ (-1)); [left; apply Hx|lia].
    + rewrite Z.min_r by lia. destruct Hx.
      replace (Z.testbit x 31) with true by (symmetry; apply Z.testbit_true; [done|]; zdiv_lia).
      replace i with (i - 31 + 31) by lia. rewrite <- Z.div_pow2_bits by lia.
      replace ((x - 2 ^ 32) / 2 ^ 31) with (-1) by zdiv_lia. apply Z.bits_m1. lia.
Qed.

(** A table entry in the range of a true shift is the reference shift. *)
Lemma lsl_exact x n co :
  is_u 32 x -> 0 < n < 32 -> applyShift (mkImmShift shiftTypeLSL (bit32 (32 - n)) n) x co = shiftRef LSL x n.
Proof.
  intros Hx Hn. cbn. rewrite tst_bit32, Z.shiftl_mul_pow2 by lia. f_equal.
  rewrite Z.mul_pow2_bits by lia. done.
Qed.

Lemma lsr_exact x n co :
  is_u 32 x -> 0 < n <= 32 -> applyShift (mkImmShift shiftTypeLSR (bit32 (n - 1)) n) x co = shiftRef LSR x n.
Proof. intros Hx Hn. cbn. by rewrite tst_bit32, shiftr_div by lia. Qed.

Lemma asr_exact x n co :
  is_u 32 x -> 0 < n < 32 -> applyShift (mkImmShift shiftTypeASR (bit32 (n - 1)) n) x co = shiftRef ASR x n.
Proof.
  intros Hx Hn. cbn. rewrite tst_bit32, shiftr_div by lia. f_equal.
  by rewrite sgn_testbit, Z.min_l by (done || lia).
Qed.

(** Shifts by 32 and more. *)
Lemma zero_bits x m : is_u 32 x -> 32 <= m -> x / 2 ^ m = 0 /\ u32 (x * 2 ^ m) = 0.
Proof.
  intros Hx Hm. replace (2 ^ m) with (2 ^ (m - 32) * 2 ^ 32) by (rewrite <- Z.pow_add_r by lia; f_equal; lia).
  split.
  - apply Z.div_small. split; [apply Hx|]. pose proof (Z.pow_pos_nonneg 2 (m - 32)). destruct Hx. nia.
  - unfold wrap. rewrite Z.mul_assoc. apply Z.mod_mul. done.
Qed.

Lemma asr_far x m co :
  is_u 32 x -> 32 <= m -> applyShift (mkImmShift shiftTypeASR 0x80000000 31) x co = shiftRef ASR x m.
Proof.
  intros Hx Hm. cbn. change 0x80000000 with (2 ^ 31). rewrite tst_bit, sgn_testbit, Z.min_r by (done || lia).
  f_equal. f_equal. rewrite <- shiftr_div by lia. apply Z.bits_inj'. intros i Hi.
  rewrite !Z.shiftr_spec, !sgn_testbit by (done || lia). f_equal. lia.
Qed.

Lemma high_low_disjoint x n :
  is_u 32 x -> 0 <= n < 32 -> (x / 2 ^ n) .& (x mod 2 ^ n * 2 ^ (32 - n)) = 0.
Proof.
  intros Hx Hn. apply Z.bits_inj'. intros i Hi. rewrite Z.land_spec, Z.bits_0, Z.div_pow2_bits by lia.
  destruct (Z.lt_ge_cases i (32 - n)).
  - rewrite (Z.mul_pow2_bits_low _ (32 - n)) by done. apply andb_false_r.
  - rewrite (testbit_above 32 x) by (done || lia). done.
Qed.

Lemma ror_bits x n : is_u 32 x -> 0 <= n < 32 -> cpuPrvROR x n = x / 2 ^ n + x mod 2 ^ n * 2 ^ (32 - n).
Proof.
  intros Hx Hn. unfold cpuPrvROR.
  destruct (decide (n = 0)) as [->|Hz].
  { rewrite Z.shiftr_0_r, Z.sub_0_r, Z.mod_1_r. change (32 mod 32) with 0.
    rewrite Z.shiftl_0_r, wrap_small, Z.lor_diag by done. rewrite Z.div_1_r. lia. }
  rewrite (Z.mod_small (32 - n)), shiftr_div, Z.shiftl_mul_pow2 by lia.
  assert (H2 : 2 ^ n * 2 ^ (32 - n) = 2 ^ 32) by (rewrite <- Z.pow_add_r by lia; f_equal; lia).
  assert (0 < 2 ^ n) by (apply Z.pow_pos_nonneg; lia).
  assert (0 < 2 ^ (32 - n)) by (apply Z.pow_pos_nonneg; lia).
  replace (u32 (x * 2 ^ (32 - n))) with (x mod 2 ^ n * 2 ^ (32 - n))
    by (unfold wrap; rewrite <- H2, <- Z.mul_mod_distr_r by lia; done).
  rewrite <- Z.add_lor_land, (high_low_disjoint x n) by done. lia.
Qed.

Lemma ror_carry x n :
  is_u 32 x -> 0 <= n < 32 -> Z.testbit (cpuPrvROR x n) 31 = Z.testbit x ((n - 1) mod 32).
Proof.
  intros Hx Hn. unfold cpuPrvROR.
  rewrite Z.lor_spec, Z.shiftr_spec, testbit_wrap, Z.shiftl_spec by done. cbn.
  destruct (decide (n = 0)) as [->|Hz]; [cbn; by rewrite orb_diag|].
  rewrite (testbit_above 32 x (31 + n)), !Z.mod_small by (done || lia). cbn. f_equal. lia.
Qed.

Lemma shiftRef_ROR x n :
  is_u 32 x -> shiftRef ROR x n = (cpuPrvROR x (n mod 32), Z.testbit x ((n - 1) mod 32)).
Proof.
  intros Hx. pose proof (Z.mod_pos_bound n 32 eq_refl).
  rewrite <- Zminus_mod_idemp_l, <- ror_carry by done. cbn [shiftRef]. by rewrite <- ror_bits.
Qed.

Lemma ror_exact x n co :
  is_u 32 x -> 0 < n ->
  applyShift (mkImmShift shiftTypeROR (bit32 ((n - 1) mod 32)) (n mod 32)) x co = shiftRef ROR x n.
Proof.
  intros Hx Hn. rewrite shiftRef_ROR by done. cbn. rewrite tst_bit32; [done|]. by apply Z.mod_pos_bound.
Qed.

(** ** The shifter is the reference operand *)

Lemma reg_entry_exact v n x co :
  is_u 32 x -> 0 <= v < 4 -> 0 <= n < 256 ->
  applyShift (cpuPrvImmShiftRegTableEntry ((v .<< 8) .| n)) x co =
  if n =? 0 then (x, co) else shiftRef (shiftOpOf v) x n.
Proof.
  intros Hx Hv Hn. unfold cpuPrvImmShiftRegTableEntry.
  assert (K : forall v n, 0 <= v < Z.of_nat 4 -> 0 <= n < Z.of_nat 256 ->
    (u8 ((v .<< 8) .| n) =? n) && (((v .<< 8) .| n) .>> 8 .& 3 =? v) = true)
    by (apply forallb_grid; vm_compute; reflexivity).
  specialize (K v n Hv Hn). apply andb_prop in K as [->%Z.eqb_eq ->%Z.eqb_eq].
  destruct (Z.eqb_spec n 0) as [->|Hz]; [done|].
  assert (v = 0 \/ v = 1 \/ v = 2 \/ v = 3) as [-> | [-> | [-> | ->]]] by lia;
    cbn [shiftOpOf]; [destruct (Z.ltb_spec n 32) as [Hs|Hs] ..|].
  - apply lsl_exact; [done|lia].
  - cbn. rewrite (proj2 (zero_bits x n Hx Hs)), Z.mul_pow2_bits by lia. f_equal.
    destruct (Z.eqb_spec n 32) as [->|]; [by apply (tst_bit x 0)|].
    rewrite Z.testbit_neg_r by lia. apply tst_false, Z.land_0_r.
  - apply lsr_exact; [done|lia].
  - cbn. rewrite (proj1 (zero_bits x n Hx Hs)). f_equal.
    destruct (Z.eqb_spec n 32) as [->|]; [by apply (tst_bit x 31)|].
    rewrite (testbit_above 32) by (done || lia). apply tst_false, Z.land_0_r.
  - apply asr_exact; [done|lia].
  - by apply asr_far.
  - replace ((n - 1) .& 31) with ((n - 1) mod 32) by (symmetry; by apply (land_low 5)).
    replace (n .& 31) with (n mod 32) by (symmetry; by apply (land_low 5)).
    apply ror_exact; [done|lia].
Qed.

Lemma imm_entry_exact v n x co :
  is_u 32 x -> 0 <= v < 4 -> 0 <= n < 32 ->
  applyShift (cpuPrvImmShiftImmTableEntry ((v .<< 5) .| n)) x co =
  match shiftOpOf v, n with
  | LSL, 0 => (x, co)
  | LSR, 0 | ASR, 0 => shiftRef (shiftOpOf v) x 32
  | ROR, 0 => (x / 2 + Z.b2z co * 2 ^ 31, Z.odd x)
  | s, _ => shiftRef s x n
  end.
Proof.
  intros Hx Hv Hn. unfold cpuPrvImmShiftImmTableEntry.
  assert (K : forall v n, 0 <= v < Z.of_nat 4 -> 0 <= n < Z.of_nat 32 ->
    (((v .<< 5) .| n) .& 0x1f =? n) && (((v .<< 5) .| n) .>> 5 .& 3 =? v) = true)
    by (apply forallb_grid; vm_compute; reflexivity).
  specialize (K v n Hv Hn). apply andb_prop in K as [->%Z.eqb_eq ->%Z.eqb_eq].
  assert (v = 0 \/ v = 1 \/ v = 2 \/ v = 3) as [-> | [-> | [-> | ->]]] by lia;
    destruct n as [|p|p]; try lia; cbn [shiftOpOf Z.eqb negb].
  - done.
  - apply lsl_exact; [done|lia].
  - cbn. rewrite (proj1 (zero_bits x 32 Hx ltac:(lia))). f_equal. by apply (tst_bit x 31).
  - apply lsr_exact; [done|lia].
  - by apply asr_far.
  - apply asr_exact; [done|lia].
  - cbn [applyShift type]. rewrite shiftr_div by done. change 0x80000000 with (2 ^ 31).
    f_equal; [|rewrite <- Z.bit0_odd; by apply (tst_bit x 0)].
    pose proof (Z.add_lor_land (x / 2) (2 ^ 31)) as E. rewrite land_pow2 in E by done.
    rewrite (testbit_above 31) in E by (done || (destruct Hx; split; zdiv_lia)).
    change (2 ^ 1) with 2. destruct co; cbn [Z.b2z]; rewrite ?Z.lor_0_r; lia.
  - pose proof (ror_exact x (Z.pos p) co Hx eq_refl) as E. rewrite !Z.mod_small in E by lia. exact E.
Qed.

(** The registers of a reachable state are 32 bits wide. *)
Definition regs_ok (cpu : ArmCpu) : Prop := Forall (is_u 32) cpu.(regs).

Lemma bits_is_mask x hi lo m : 0 <= lo -> m = Z.ones (hi - lo + 1) -> (x .>> lo) .& m = bits x hi lo.
Proof. by intros _ ->. Qed.

Lemma bits_range x hi lo : 0 <= lo <= hi -> 0 <= bits x hi lo < 2 ^ (hi - lo + 1).
Proof. intros. unfold bits. rewrite Z.land_ones by lia. apply Z.mod_pos_bound, Z.pow_pos_nonneg; lia. Qed.

Lemma reg_is_u cpu r : regs_ok cpu -> is_u 32 cpu.(regs).[r].
Proof.
  intros H. unfold aget. destruct (cpu.(regs) !! Z.to_nat r) as [x|] eqn:E.
  - rewrite (list_lookup_total_correct _ _ _ E). by eapply Forall_lookup_1.
  - rewrite list_lookup_total_alt, E. by split.
Qed.

Lemma getReg_is_u wasT cpu r : regs_ok cpu -> is_u 32 (cpuPrvGetReg wasT cpu r).
Proof. intros H. unfold cpuPrvGetReg. destruct (_ =? _); [by apply wrap_is_u|by apply reg_is_u]. Qed.

Lemma rotation_amount instr : instr .>> 7 .& 30 = 2 * bits instr 11 8.
Proof.
  rewrite Z.mul_comm. change (bits instr 11 8 * 2) with (bits instr 11 8 * 2 ^ 1). rewrite <- Z.shiftl_mul_pow2 by done. unfold bits.
  apply Z.bits_inj'. intros i Hi. rewrite Z.land_spec, Z.shiftr_spec, Z.shiftl_spec by done.
  destruct (Z.eq_dec i 0) as [->|]; [apply andb_false_r|].
  rewrite Z.land_spec, Z.shiftr_spec by lia. f_equal; [f_equal; lia|].
  change 30 with (15 .<< 1). by rewrite Z.shiftl_spec.
Qed.

(** C5. The operand of a data-processing instruction, for every encoding and
    every register contents: the tables of shift kinds and carry masks give the
    rotated immediate, or the shift of the register as one on unbounded
    integers with the last bit shifted out as the carry; a shift by a register
    uses its low byte and by 0 leaves operand and carry alone; the immediate
    amount 0 means 32 for LSR and ASR and a rotation through the carry for ROR.
    (Shifts by 32 and by more than 32 are included.) *)
Theorem shifter_exact wasT cpu instr :
  regs_ok cpu -> is_u 32 instr -> cpuPrvArmAdrMode_1 wasT cpu instr = shifterOperand wasT cpu instr.
Proof.
  intros Hr Hi. unfold cpuPrvArmAdrMode_1, shifterOperand.
  change 0x02000000 with (2 ^ 25). change 0x10 with (2 ^ 4). change 0x80000000 with (2 ^ 31).
  rewrite !tst_bit by done. set (C := tst cpu.(flags) ARM_SR_C). set (rm := cpuPrvGetReg wasT cpu _).
  change (instr .>> 5 .& 3) with (bits instr 6 5). change (instr .>> 7 .& 31) with (bits instr 11 7).
  change (instr .>> 8 .& 15) with (bits instr 11 8).
  change (cpuPrvGetReg wasT cpu (bits instr 3 0)) with rm.
  pose proof (bits_range instr 6 5 ltac:(lia)). pose proof (bits_range instr 11 7 ltac:(lia)).
  assert (is_u 32 rm) by (by apply getReg_is_u).
  destruct (Z.testbit instr 25); [|destruct (Z.testbit instr 4)].
  - replace (instr .>> 7 .& 30) with (2 * bits instr 11 8) by (symmetry; apply rotation_amount).
    change (instr .& 255) with (bits instr 7 0).
    assert (is_u 32 (bits instr 7 0)) by (eapply is_u_le; [apply bits_range|]; lia).
    pose proof (bits_range instr 11 8 ltac:(lia)).
    rewrite shiftRef_ROR, Z.mod_small by (done || lia). unfold nz.
    destruct (Z.eqb_spec (2 * bits instr 11 8) 0) as [|]; cbn [negb]; f_equal.
    by rewrite ror_carry by (done || lia).
  - change 255 with (2 ^ 8 - 1). rewrite land_low by done. apply reg_entry_exact; [done|lia|].
    by apply Z.mod_pos_bound.
  - rewrite imm_entry_exact by (done || lia). destruct (shiftOpOf _), (bits instr 11 7); done.
Qed.

Lemma shifter_exact_witness :
  let cpu := { cpu_reset with regs ::= fun r => r.[3 <- 0x80000001].[4 <- 32] } in
  cpuPrvArmAdrMode_1 false cpu 0xe1a02453 = shifterOperand false cpu 0xe1a02453 /\
  shifterOperand false cpu 0xe1a02453 = (0xFFFFFFFF, true) /\ shifterOperand false cpu 0xe1a02063 = (0x40000000, true).
Proof.
  intros cpu. split; [apply shifter_exact|by vm_compute].
  - unfold regs_ok. repeat (apply Forall_cons_2; [by vm_compute|]). apply Forall_nil_2.
  - by vm_compute.
Defined.

(** ** Data processing on unbounded numbers *)

Definition flagsWord (N Zr C V : bool) : Z := 2 ^ 31 * Z.b2z N + 2 ^ 30 * Z.b2z Zr + 2 ^ 29 * Z.b2z C + 2 ^ 28 * Z.b2z V.

Definition inRange (s : Z) : bool := (- 2 ^ 31 <=? s) && (s <? 2 ^ 31).

(** Sum, carry out and overflow. *)
Definition addWithCarry (a b : Z) (c : bool) : Z * bool * bool :=
  (u32 (a + b + Z.b2z c), 2 ^ 32 <=? a + b + Z.b2z c, negb (inRange (sgn 32 a + sgn 32 b + Z.b2z c))).

Definition not32 (x : Z) : Z := 2 ^ 32 - 1 - x.

(** Result, C and V of an operation that sets the flags; [co] is the carry out
    of the shifter. The overflow of ADC is the one the program computes. *)
Definition dpRef (op : DpOp) (a b : Z) (co C V : bool) : Z * bool * bool :=
  match op with
  | AND | TST => (a .& b, co, V)
  | EOR | TEQ => (a .^ b, co, V)
  | SUB | CMP => addWithCarry a (not32 b) true
  | RSB => addWithCarry b (not32 a) true
  | ADD | CMN => addWithCarry a b false
  | ADC => let '(r, c, v) := addWithCarry a b C in (r, c, xorb (a <? 2 ^ 31) (b <? 2 ^ 31) || v)
  | SBC => addWithCarry a (not32 b) C
  | RSC => addWithCarry b (not32 a) C
  | ORR => (a .| b, co, V)
  | MOV => (b, co, V)
  | BIC => (a .& not32 b, co, V)
  | MVN => (not32 b, co, V)
  end.

Definition compares (op : DpOp) : bool := match op with TST | TEQ | CMP | CMN => true | _ => false end.

Lemma sgn_u32 x : is_u 32 x -> sgn 32 x = if x <? 2 ^ 31 then x else x - 2 ^ 32.
Proof. intros Hx. unfold sgn. by rewrite wrap_small. Qed.

Lemma not32_is_u x : is_u 32 x -> is_u 32 (not32 x).
Proof. unfold not32. intros [H0 H1]. split; lia. Qed.

Lemma sgn_not x : is_u 32 x -> sgn 32 (not32 x) = - 1 - sgn 32 x.
Proof.
  intros Hx. rewrite !sgn_u32 by (done || by apply not32_is_u). unfold not32. destruct Hx.
  destruct (Z.ltb_spec x (2 ^ 31)), (Z.ltb_spec (2 ^ 32 - 1 - x) (2 ^ 31)); lia.
Qed.

Lemma testbit31 x : is_u 32 x -> Z.testbit x 31 = (2 ^ 31 <=? x).
Proof.
  intros [H0 H1]. apply eq_true_iff_eq. rewrite Z.testbit_true, Z.leb_le by done. zdiv_lia.
Qed.

Lemma setV_flagsWord N Zr C V v : setV (flagsWord N Zr C V) v = flagsWord N Zr C v.
Proof. by destruct N, Zr, C, V, v. Qed.

Lemma ldiff_ZNC N Zr C V : flagsWord N Zr C V .&~ ARM_SR_ZNC = flagsWord false false false V.
Proof. by destruct N, Zr, C, V. Qed.

Lemma ldiff_ZNCV N Zr C V : flagsWord N Zr C V .&~ (ARM_SR_ZNC .| ARM_SR_V) = flagsWord false false false false.
Proof. by destruct N, Zr, C, V. Qed.

Lemma flagsWord_carry N Zr C V : (flagsWord N Zr C V .& ARM_SR_C) .>> 29 = Z.b2z C.
Proof. by destruct N, Zr, C, V. Qed.

Lemma dpFlagSet_exact V c r :
  dpFlagSet (flagsWord false false false V) c r = flagsWord (Z.testbit r 31) (r =? 0) c V.
Proof.
  unfold dpFlagSet. change 0x80000000 with (2 ^ 31). rewrite land_pow2 by done.
  by destruct (Z.testbit r 31), (r =? 0), c, V.
Qed.

Lemma negb_inRange s : negb (inRange s) = (s <? - 2 ^ 31) || (2 ^ 31 <=? s).
Proof. unfold inRange. by rewrite negb_andb, <- Z.ltb_antisym, <- Z.leb_antisym. Qed.

(** What the switch computes for a difference. *)
Lemma sub_exact a b :
  is_u 32 a -> is_u 32 b ->
  addWithCarry a (not32 b) true = (u32 (a - b), negb (a <? b), cpuPrvSignedSubtractionOverflows a b).
Proof.
  intros Ha Hb. unfold addWithCarry, cpuPrvSignedSubtractionOverflows. rewrite negb_inRange, sgn_not by done.
  unfold not32, wrap. cbn [Z.b2z].
  replace (a + (2 ^ 32 - 1 - b) + 1) with (a - b + 1 * 2 ^ 32) by lia. rewrite Z.mod_add by done.
  f_equal; [f_equal|].
  - apply eq_true_iff_eq. rewrite negb_true_iff, Z.leb_le, Z.ltb_ge. lia.
  - replace (sgn 32 a + (-1 - sgn 32 b) + 1) with (sgn 32 a - sgn 32 b) by lia. done.
Qed.

Lemma add_exact a b : 
  addWithCarry a b false = (u32 (a + b), 2 ^ 32 <=? a + b, cpuPrvSignedAdditionOverflows a b).
Proof.
  unfold addWithCarry, cpuPrvSignedAdditionOverflows. rewrite negb_inRange. cbn [Z.b2z]. by rewrite !Z.add_0_r.
Qed.

Lemma nz_shiftr_31 x : is_u 32 x -> negb (x .>> 31 =? 0) = Z.testbit x 31.
Proof.
  intros Hx. rewrite testbit31, shiftr_div by done. destruct Hx.
  apply eq_true_iff_eq. rewrite negb_true_iff, Z.eqb_neq, Z.leb_le. zdiv_lia.
Qed.

(** The borrow and the sign comparison of the subtractions with carry. *)
Lemma sbc_exact a b C :
  is_u 32 a -> is_u 32 b ->
  let d := u64 (a - b - (1 - Z.b2z C)) in
  addWithCarry a (not32 b) C =
  (u32 d, negb (nz (d .>> 32)), cpuPrvSignedSubtractionWithPossibleCarryOverflows a b (u32 d)).
Proof.
  intros Ha Hb. cbv zeta. unfold addWithCarry, cpuPrvSignedSubtractionWithPossibleCarryOverflows.
  rewrite negb_inRange, sgn_not by done. set (k := Z.b2z C).
  assert (0 <= k <= 1) by (subst k; destruct C; done). clearbody k.
  rewrite (shiftr_div (u64 _)) by done. unfold nz.
  assert (E : u32 (u64 (a - b - (1 - k))) = u32 (a + not32 b + k)) by (unfold not32, wrap; zdiv_lia).
  rewrite E. f_equal; [f_equal|].
  - unfold not32, wrap. destruct Ha, Hb. apply eq_true_iff_eq. rewrite negb_involutive, Z.leb_le, Z.eqb_eq. zdiv_lia.
  - rewrite nz_shiftr_31 by (apply is_u_land_l; [by apply is_u_lxor|done]).
    rewrite Z.land_spec, !Z.lxor_spec, !testbit31, !sgn_u32 by (done || by apply wrap_is_u).
    unfold not32, wrap. destruct Ha, Hb. set (r := (_ + k) mod 2 ^ 32).
    assert (Hr : r = a + (2 ^ 32 - 1 - b) + k \/ r = a - 1 - b + k) by (subst r; zdiv_lia).
    assert (0 <= r < 2 ^ 32) by (by apply Z.mod_pos_bound). clearbody r. clear E.
    destruct (Z.ltb_spec a (2 ^ 31)), (Z.ltb_spec b (2 ^ 31)), (Z.leb_spec (2 ^ 31) a), (Z.leb_spec (2 ^ 31) b),
      (Z.leb_spec (2 ^ 31) r); try lia; cbn [xorb andb]; rewrite ?orb_true_iff, ?orb_false_iff, ?Z.ltb_lt, ?Z.leb_le, ?Z.ltb_ge, ?Z.leb_gt; lia.
Qed.

Lemma adc_exact a b C :
  is_u 32 a -> is_u 32 b ->
  let s := a + b + Z.b2z C in
  (s .>> 31 =? 1) || (s .>> 31 =? 2) = xorb (a <? 2 ^ 31) (b <? 2 ^ 31) || snd (addWithCarry a b C).
Proof.
  intros Ha Hb. cbv zeta. unfold addWithCarry. cbn [snd]. rewrite negb_inRange, !sgn_u32, shiftr_div by done.
  set (k := Z.b2z C). assert (0 <= k <= 1) by (subst k; destruct C; done). clearbody k. destruct Ha, Hb.
  set (q := (a + b + k) / 2 ^ 31). assert (2 ^ 31 * q <= a + b + k < 2 ^ 31 * q + 2 ^ 31) by (subst q; zdiv_lia).
  clearbody q. apply eq_true_iff_eq.
  destruct (Z.ltb_spec a (2 ^ 31)), (Z.ltb_spec b (2 ^ 31)); cbn [xorb orb];
    rewrite ?orb_true_iff, ?Z.ltb_lt, ?Z.leb_le, ?Z.eqb_eq; lia.
Qed.

Lemma not32_lnot x : is_u 32 x -> u32 (Z.lnot x) = not32 x.
Proof. intros [H0 H1]. unfold wrap, not32, Z.lnot. zdiv_lia. Qed.

Lemma bic_exact a b : is_u 32 a -> is_u 32 b -> a .&~ b = a .& not32 b.
Proof.
  intros Ha Hb. rewrite <- not32_lnot by done. apply Z.bits_inj'. intros i Hi.
  rewrite Z.ldiff_spec, Z.land_spec, testbit_wrap, Z.lnot_spec by done.
  destruct (Z.ltb_spec i 32); [done|]. by rewrite (testbit_above 32 a) by done.
Qed.

(** The switch, up to the carry and overflow flags. *)
Lemma aluOp_exact op N Zr C V a b co :
  is_u 32 a -> is_u 32 b ->
  let '(r, c, fl) := aluOp (opNo op) true (flagsWord N Zr C V) a b co in
  let '(r', c', v') := dpRef op a b co C V in
  r = r' /\ c = c' /\ fl .&~ ARM_SR_ZNC = flagsWord false false false v' /\
  (compares op = true -> fl .&~ ARM_SR_ZNC = fl).
Proof.
  intros Ha Hb. unfold aluOp, dpRef. rewrite !flagsWord_carry.
  destruct op; cbn [opNo compares]; cbv zeta;
    rewrite ?sub_exact, ?add_exact, ?sbc_exact, ?not32_lnot by done; cbv zeta;
    rewrite ?ldiff_ZNCV, ?ldiff_ZNC, ?setV_flagsWord, ?ldiff_ZNC; try (by (repeat split)).
  - rewrite adc_exact by done. cbn [addWithCarry snd]. repeat split; [|done].
    rewrite shiftr_div by done. destruct Ha, Hb. apply eq_true_iff_eq. unfold nz.
    rewrite negb_true_iff, Z.eqb_neq, Z.leb_le. destruct C; cbn [Z.b2z]; zdiv_lia.
  - by rewrite bic_exact.
Qed.

Lemma applyShift_is_u s x co : is_u 32 x -> 0 <= s.(shift) -> is_u 32 (fst (applyShift s x co)).
Proof.
  intros Hx Hs. unfold applyShift. destruct (type s); cbn [fst]; try (by apply wrap_is_u); try done.
  - by apply is_u_shiftr.
  - unfold cpuPrvROR. apply is_u_lor; [by apply is_u_shiftr|by apply wrap_is_u|done].
  - apply is_u_lor; [by apply is_u_shiftr|by destruct co|done].
Qed.

Lemma entry_shift_nonneg k :
  0 <= (cpuPrvImmShiftRegTableEntry k).(shift) /\ 0 <= (cpuPrvImmShiftImmTableEntry k).(shift).
Proof.
  assert (0 <= u8 k) by (by apply Z.mod_pos_bound).
  assert (0 <= k .& 31) by (apply Z.land_nonneg; by right).
  assert (0 <= u8 k .& 31) by (apply Z.land_nonneg; by right).
  split; unfold cpuPrvImmShiftRegTableEntry, cpuPrvImmShiftImmTableEntry; cbv zeta;
    repeat match goal with
           | |- context [if ?b then _ else _] => destruct b
           | |- context [match ?x with _ => _ end] => destruct x
           end; cbn [shift]; lia.
Qed.

Lemma shifter_is_u wasT cpu instr : regs_ok cpu -> is_u 32 (fst (cpuPrvArmAdrMode_1 wasT cpu instr)).
Proof.
  intros Hr. unfold cpuPrvArmAdrMode_1. destruct (tst instr 0x02000000).
  - cbn [fst]. unfold cpuPrvROR. apply is_u_lor; [|by apply wrap_is_u|done].
    apply is_u_shiftr; [by apply is_u_land_r|]. apply Z.land_nonneg. by right.
  - apply applyShift_is_u; [by apply getReg_is_u|]. destruct (tst instr 0x10); apply entry_shift_nonneg.
Qed.

Lemma getRegT_is_u wasT pc cpu r : regs_ok cpu -> is_u 32 (getRegT wasT pc cpu r).
Proof. intros H. unfold getRegT. destruct pc; [by apply wrap_is_u|by apply reg_is_u]. Qed.

Definition psr (cpu : ArmCpu) (m : Z) : bool := tst cpu.(flags) m.

Lemma flags_word cpu :
  cpu_wf cpu ->
  cpu.(flags) = flagsWord (psr cpu ARM_SR_N) (psr cpu ARM_SR_Z) (psr cpu ARM_SR_C) (psr cpu ARM_SR_V).
Proof.
  intros [_ _ _ (n & Hn & E)]. unfold psr. rewrite E. clear E. revert n Hn.
  apply (bit_index_cases _ 16). forall_list; by vm_compute.
Qed.

(** The state after an operation that sets the flags. *)
Definition dpResult (wasT : bool) (op : DpOp) (srcPc : bool) (cpu : ArmCpu) (i : Z) : ArmCpu :=
  let '(op2, co) := shifterOperand wasT cpu i in
  let '(r, c, v) := dpRef op (getRegT wasT srcPc cpu (bits i 19 16)) op2 co (psr cpu ARM_SR_C) (psr cpu ARM_SR_V) in
  { cpu with flags := flagsWord (Z.testbit r 31) (r =? 0) c v;
             regs ::= fun rs => if compares op then rs else rs.[bits i 15 12 <- r] }.

Lemma dproc_step wasT op srcPc cpu instr privileged :
  cpu_wf cpu -> regs_ok cpu -> is_u 32 (armInstr wasT instr) -> condFails cpu (armInstr wasT instr) = false ->
  execFn_dproc wasT (opNo op) true srcPc false cpu instr privileged = Ret (dpResult wasT op srcPc cpu (armInstr wasT instr)).
Proof.
  intros Hwf Hr Hi Hc. unfold dpResult. pose proof (shifter_is_u wasT cpu (armInstr wasT instr) Hr) as H2.
  unfold execFn_dproc. cbv zeta. rewrite Hc, !andb_false_r.
  rewrite <- shifter_exact by done. destruct (cpuPrvArmAdrMode_1 wasT cpu _) as [op2 co]. cbn [fst] in H2.
  change (armInstr wasT instr .>> 16 .& 15) with (bits (armInstr wasT instr) 19 16).
  change (armInstr wasT instr .>> 12 .& 15) with (bits (armInstr wasT instr) 15 12).
  pose proof (getRegT_is_u wasT srcPc cpu (bits (armInstr wasT instr) 19 16) Hr) as G1.
  rewrite (flags_word cpu Hwf).
  pose proof (aluOp_exact op (psr cpu ARM_SR_N) (psr cpu ARM_SR_Z) (psr cpu ARM_SR_C) (psr cpu ARM_SR_V)
    _ _ co G1 H2) as E.
  destruct (aluOp _ _ _ _ _ _) as [[r c] fl]. destruct (dpRef _ _ _ _ _ _) as [[r' c'] v'].
  destruct E as (-> & -> & E1 & E2).
  replace ((8 <=? opNo op) && (opNo op <=? 11)) with (compares op) by (by destruct op).
  cbn [negb]. rewrite E1, <- dpFlagSet_exact. destruct (compares op); [|done].
  rewrite E2 in E1 by done. rewrite E1. destruct cpu; reflexivity.
Qed.

(** C6. The sixteen data-processing operations when they set the flags (and do
    not write the program counter): an instruction whose condition fails does
    nothing; otherwise the result, N, Z, the carry and the overflow are those
    of the operation on unbounded integers, with the operand the shifter
    defines, a comparison leaves the registers alone and the other operations
    change only their destination. ADC alone sets V also whenever its operands
    have different signs, when no overflow can occur. *)
Theorem dproc_exact wasT op srcPc cpu instr privileged :
  cpu_wf cpu -> regs_ok cpu -> is_u 32 (armInstr wasT instr) ->
  execFn_dproc wasT (opNo op) true srcPc false cpu instr privileged =
  Ret (if condFails cpu (armInstr wasT instr) then cpu else dpResult wasT op srcPc cpu (armInstr wasT instr)).
Proof.
  intros Hwf Hr Hi. destruct (condFails cpu (armInstr wasT instr)) eqn:Hc; [|by apply dproc_step].
  unfold execFn_dproc. cbv zeta. by rewrite Hc.
Qed.

(** Register 1 the most negative number, register 2 one. *)
Definition demo_alu : ArmCpu := { cpu_reset with regs ::= fun r => r.[1 <- 0x80000000].[2 <- 1] }.

Lemma demo_alu_wf : cpu_wf demo_alu /\ regs_ok demo_alu.
Proof.
  split; [split; [done|done|vm_compute; set_solver|by exists 0]|].
  unfold regs_ok. repeat (apply Forall_cons_2; [by vm_compute|]). apply Forall_nil_2.
Qed.

Lemma dproc_exact_witness :
  execFn_dproc false (opNo ADC) true false false demo_alu 0xe0b13002 true =
  Ret { demo_alu with flags := flagsWord true false false true; regs ::= fun rs => rs.[3 <- 0x80000001] }.
Proof.
  refine (dproc_exact false ADC false demo_alu 0xe0b13002 true (proj1 demo_alu_wf) (proj2 demo_alu_wf) _). by vm_compute.
Defined.

(** ** Comparisons and conditions *)

(** What a condition says after the comparison of [a] with [b]. *)
Definition condHolds (cond a b : Z) : bool :=
  let sa := sgn 32 a in
  let sb := sgn 32 b in
  match cond with
  | 0 => a =? b
  | 1 => negb (a =? b)
  | 2 => b <=? a
  | 3 => a <? b
  | 4 => Z.testbit (a - b) 31
  | 5 => negb (Z.testbit (a - b) 31)
  | 6 => negb (inRange (sa - sb))
  | 7 => inRange (sa - sb)
  | 8 => b <? a
  | 9 => a <=? b
  | 10 => sb <=? sa
  | 11 => sa <? sb
  | 12 => sb <? sa
  | 13 => sa <=? sb
  | _ => true
  end.

Lemma conditions_exact cond N Zr C V :
  0 <= cond < 16 ->
  table_conditions (((flagsWord N Zr C V .& 0xf0000000) .>> 24) .| cond) =
  negb match cond with
       | 0 => Zr | 1 => negb Zr | 2 => C | 3 => negb C | 4 => N | 5 => negb N | 6 => V | 7 => negb V
       | 8 => C && negb Zr | 9 => negb C || Zr | 10 => eqb N V | 11 => negb (eqb N V)
       | 12 => negb Zr && eqb N V | 13 => Zr || negb (eqb N V) | _ => true
       end.
Proof.
  intros Hc. change 16 with (Z.of_nat 16) in Hc. revert cond Hc. apply bit_index_cases.
  forall_list; destruct N, Zr, C, V; by vm_compute.
Qed.

(** The flags of a difference order its operands. *)
Lemma difference_flags a b :
  is_u 32 a -> is_u 32 b ->
  (u32 (a - b) =? 0) = (a =? b) /\ Z.testbit (u32 (a - b)) 31 = Z.testbit (a - b) 31 /\
  eqb (Z.testbit (u32 (a - b)) 31) (cpuPrvSignedSubtractionOverflows a b) = (sgn 32 b <=? sgn 32 a) /\
  (sgn 32 a = sgn 32 b <-> a = b).
Proof.
  intros Ha Hb. rewrite !sgn_u32 by done. destruct Ha, Hb. split; [|split; [|split]].
  - unfold wrap. apply eq_true_iff_eq. rewrite !Z.eqb_eq. zdiv_lia.
  - by rewrite testbit_wrap.
  - rewrite testbit31 by (by apply wrap_is_u). unfold cpuPrvSignedSubtractionOverflows. rewrite !sgn_u32 by done.
    set (r := u32 (a - b)). assert (Hr : r = a - b \/ r = a - b + 2 ^ 32) by (subst r; unfold wrap; zdiv_lia).
    assert (0 <= r < 2 ^ 32) by (by apply Z.mod_pos_bound). clearbody r.
    destruct (Z.ltb_spec a (2 ^ 31)), (Z.ltb_spec b (2 ^ 31)), (Z.leb_spec (2 ^ 31) r); try lia;
      repeat match goal with
             | |- context [?x <? ?y] => destruct (Z.ltb_spec x y)
             | |- context [?x <=? ?y] => destruct (Z.leb_spec x y)
             end; cbn [eqb orb]; try done; lia.
  - destruct (Z.ltb_spec a (2 ^ 31)), (Z.ltb_spec b (2 ^ 31)); lia.
Qed.

(** After a comparison of [a] with [b], an instruction with the condition
    EQ, NE, HS, LO, MI, PL, VS, VC, HI, LS, GE, LT, GT or LE is executed exactly
    if the relation it names holds of the two unsigned, or signed, numbers, and
    one with AL always. *)
Theorem cmp_conditions_exact wasT srcPc cpu instr privileged next :
  cpu_wf cpu -> regs_ok cpu -> is_u 32 (armInstr wasT instr) -> condFails cpu (armInstr wasT instr) = false ->
  is_u 32 next ->
  exists cpu', execFn_dproc wasT (opNo CMP) true srcPc false cpu instr privileged = Ret cpu' /\
    cpu'.(regs) = cpu.(regs) /\
    condFails cpu' next =
    negb (condHolds (next / 2 ^ 28) (getRegT wasT srcPc cpu (bits (armInstr wasT instr) 19 16))
                    (fst (shifterOperand wasT cpu (armInstr wasT instr)))).
Proof.
  intros Hwf Hr Hi Hc Hn. rewrite dproc_step by done. eexists. split; [done|].
  unfold dpResult. rewrite <- shifter_exact by done.
  pose proof (shifter_is_u wasT cpu (armInstr wasT instr) Hr) as H2.
  destruct (cpuPrvArmAdrMode_1 _ _ _) as [b co]. cbn [fst] in *.
  pose proof (getRegT_is_u wasT srcPc cpu (bits (armInstr wasT instr) 19 16) Hr) as G1.
  set (a := getRegT _ _ _ _) in *. cbn [dpRef]. rewrite sub_exact by done. split; [done|].
  unfold condFails. rewrite (shiftr_div next) by done.
  assert (0 <= next / 2 ^ 28 < 16) by (destruct Hn; zdiv_lia).
  change (flags _) with (flagsWord (Z.testbit (u32 (a - b)) 31) (u32 (a - b) =? 0) (negb (a <? b)) (cpuPrvSignedSubtractionOverflows a b)).
  rewrite conditions_exact by done. f_equal.
  destruct (difference_flags a b G1 H2) as (Ez & En & Eg & Es). rewrite Ez, Eg, En. unfold condHolds.
  rewrite !negb_involutive, (Z.leb_antisym b a), (Z.ltb_antisym (sgn 32 b) (sgn 32 a)).
  assert (E0 : (a =? b) = (sgn 32 a =? sgn 32 b)) by (apply eq_true_iff_eq; rewrite !Z.eqb_eq; tauto).
  unfold cpuPrvSignedSubtractionOverflows. rewrite <- negb_inRange, negb_involutive.
  generalize dependent (next / 2 ^ 28). apply (bit_index_cases _ 16). forall_list; cbn; try done; clear - Es.
  all: generalize dependent (sgn 32 a); generalize dependent (sgn 32 b); intros sb sa Es.
  all: repeat match goal with
              | |- context [?x <? ?y] => destruct (Z.ltb_spec x y)
              | |- context [?x <=? ?y] => destruct (Z.leb_spec x y)
              | |- context [?x =? ?y] => destruct (Z.eqb_spec x y)
              end; cbn; try done; try lia.
Qed.

Lemma cmp_conditions_exact_witness :
  exists cpu', execFn_dproc false (opNo CMP) true false false demo_alu 0xe1510002 true = Ret cpu' /\
    condFails cpu' 0x81a00000 = false /\ condFails cpu' 0xb1a00000 = false /\ condFails cpu' 0xa1a00000 = true.
Proof.
  assert (H : forall next, is_u 32 next -> _) by
    exact (fun next => cmp_conditions_exact false false demo_alu 0xe1510002 true next (proj1 demo_alu_wf)
      (proj2 demo_alu_wf) ltac:(by vm_compute) ltac:(by vm_compute)).
  destruct (H 0x81a00000 ltac:(by vm_compute)) as (c & E & _ & E1).
  destruct (H 0xb1a00000 ltac:(by vm_compute)) as (c2 & G2 & _ & E2).
  destruct (H 0xa1a00000 ltac:(by vm_compute)) as (c3 & G3 & _ & E3).
  exists c. split; [exact E|]. rewrite E in G2, G3. injection G2 as <-. injection G3 as <-.
  rewrite E1, E2, E3. by vm_compute.
Defined.

(** ** Saturating additions *)

(** [s] clamped to a signed word, with Q. *)
Definition clamp (s : Z) (q : bool) : Z * bool :=
  (u32 (Z.max (- 2 ^ 31) (Z.min s (2 ^ 31 - 1))), q || negb (inRange s)).

Definition dspRef (tag a b : Z) (q : bool) : Z * bool :=
  let '(d, q) := if 2 <=? tag then clamp (2 * sgn 32 b) q else (b, q) in
  clamp (if Z.odd tag then sgn 32 a - sgn 32 d else sgn 32 a + sgn 32 d) q.

Lemma sgn_range x : - 2 ^ 31 <= sgn 32 x < 2 ^ 31.
Proof. unfold sgn. pose proof (wrap_is_u 32 x). destruct (Z.ltb_spec (wrap 32 x) (2 ^ (32 - 1))); unfold is_u in *; lia. Qed.

Lemma u32_sgn x : is_u 32 x -> u32 (sgn 32 x) = x.
Proof. intros Hx. rewrite sgn_u32 by done. destruct Hx. unfold wrap. destruct (Z.ltb_spec x (2 ^ 31)); zdiv_lia. Qed.

Lemma saturated_sum a b q :
  is_u 32 a -> is_u 32 b ->
  saturate (cpuPrvSignedAdditionOverflows a b) a (u32 (a + b)) q = clamp (sgn 32 a + sgn 32 b) q.
Proof.
  intros Ha Hb. unfold saturate, clamp, cpuPrvSignedAdditionOverflows, cpuPrvMedia_signedSaturate32.
  rewrite <- negb_inRange. pose proof (sgn_range a). pose proof (sgn_range b). unfold inRange.
  destruct (Z.leb_spec (- 2 ^ 31) (sgn 32 a + sgn 32 b)), (Z.ltb_spec (sgn 32 a + sgn 32 b) (2 ^ 31)); cbn [andb negb];
    try lia; rewrite ?orb_true_r, ?orb_false_r; f_equal.
  - rewrite Z.min_l, Z.max_r by lia. rewrite <- (u32_sgn a) at 1 by done. rewrite <- (u32_sgn b) at 1 by done.
    unfold wrap. by rewrite <- Zplus_mod.
  - rewrite Z.min_r by lia. destruct (Z.ltb_spec (sgn 32 a) 0); [lia|done].
  - rewrite Z.min_l, Z.max_l by lia. destruct (Z.ltb_spec (sgn 32 a) 0); [done|lia].
Qed.

Lemma saturate_is_u o a r q : is_u 32 r -> is_u 32 (fst (saturate o a r q)).
Proof. intros H. unfold saturate, cpuPrvMedia_signedSaturate32. destruct o; [|done]. cbn [fst]. by destruct (_ <? 0). Qed.

Lemma qsub_exact_iff a b q :
  is_u 32 a -> is_u 32 b ->
  saturate (cpuPrvSignedAdditionOverflows a b) a (u32 (a - b)) q = clamp (sgn 32 a - sgn 32 b) q <->
  inRange (sgn 32 a + sgn 32 b) = true /\ inRange (sgn 32 a - sgn 32 b) = true.
Proof.
  intros Ha Hb. unfold saturate, clamp, cpuPrvSignedAdditionOverflows, cpuPrvMedia_signedSaturate32.
  rewrite <- negb_inRange. replace (u32 (a - b)) with (u32 (sgn 32 a - sgn 32 b))
    by (rewrite <- (u32_sgn a Ha) at 2; rewrite <- (u32_sgn b Hb) at 2; unfold wrap; apply Zminus_mod).
  pose proof (sgn_range a). pose proof (sgn_range b). set (x := sgn 32 a) in *. set (y := sgn 32 b) in *.
  clearbody x y. unfold inRange.
  destruct (Z.leb_spec (- 2 ^ 31) (x + y)), (Z.ltb_spec (x + y) (2 ^ 31)),
    (Z.leb_spec (- 2 ^ 31) (x - y)), (Z.ltb_spec (x - y) (2 ^ 31)); try lia; cbn [andb negb];
    rewrite ?orb_true_r, ?orb_false_r; split; try (intros []; congruence).
  all: try (intros _; rewrite Z.min_l, Z.max_r by lia; done). all: try done.
  all: intros E; exfalso; apply (f_equal fst) in E; cbn [fst] in E; revert E; unfold wrap.
  all: try destruct (Z.ltb_spec x 0).
  all: rewrite ?Z.min_l, ?Z.min_r, ?Z.max_l, ?Z.max_r by lia; zdiv_lia.
Qed.

(** QADD and QDADD compute the saturating sum (of the doubled and saturated
    second operand, for QDADD) of the signed operands and set Q exactly when
    something saturated. QSUB computes the saturating difference exactly for
    the operands for which neither the sum nor the difference overflows: it
    saturates on the overflow of a sum it does not compute, and wraps where the
    difference overflows. *)
Theorem dsp_saturation a b q :
  is_u 32 a -> is_u 32 b ->
  dspAdd 0 a b q = dspRef 0 a b q /\ dspAdd 2 a b q = dspRef 2 a b q /\
  (dspAdd 1 a b q = dspRef 1 a b q <->
   inRange (sgn 32 a + sgn 32 b) = true /\ inRange (sgn 32 a - sgn 32 b) = true).
Proof.
  intros Ha Hb. split; [|split].
  - apply (saturated_sum a b q Ha Hb).
  - unfold dspAdd, dspRef. cbn [Z.leb Z.odd Z.compare]. rewrite saturated_sum by done.
    replace (sgn 32 b + sgn 32 b) with (2 * sgn 32 b) by lia. unfold clamp at 1 2. 
    apply saturated_sum; [done|]. by apply wrap_is_u.
  - apply (qsub_exact_iff a b q Ha Hb).
Qed.

Lemma dsp_saturation_witness :
  dspAdd 0 0x7fffffff 1 false = (0x7fffffff, true) /\ dspAdd 1 0x7fffffff 1 false <> dspRef 1 0x7fffffff 1 false /\
  dspAdd 1 0x80000000 1 false <> dspRef 1 0x80000000 1 false.
Proof.
  destruct (dsp_saturation 0x7fffffff 1 false ltac:(by vm_compute) ltac:(by vm_compute)) as (-> & _ & E1).
  destruct (dsp_saturation 0x80000000 1 false ltac:(by vm_compute) ltac:(by vm_compute)) as (_ & _ & E2).
  split; [by vm_compute|]. rewrite E1, E2. split; vm_compute; intros [G1 G2]; discriminate.
Defined.
