(* ===== verification/Patch.v ===== *)
(** * Patches of system calls (patch_dispatch.c, patches.c)

    A system call of the guest is the pair [LDR R12, [R9, #-table]] and
    [LDR PC, [R12, #offset]] of consecutive instructions. The dispatcher
    watches for it, runs the call's head patch before the call and its tail
    patch when the call returns. *)

From S2P Require Import Prelude.

Definition MAX_PENDING_TAILPATCH := 32.
Definition MAX_PATCHES := 50.
Definition PATCH_TABLE_SIZE := 0xc00.

(** The machine whose registers a patch sees. *)
Class RegFile (X : Type) := {
  registers : X -> list Z;
  set_register : X -> Z -> Z -> X
}.

(** [HF] and [TF] are the function pointers, with their context. *)
Record Patch (HF TF : Type) := mkPatch {
  p_syscall : Z;             (* uint32_t *)
  headpatch : option HF;
  tailpatch : option TF
}.
Arguments mkPatch {HF TF}.
Arguments p_syscall {HF TF}.
Arguments headpatch {HF TF}.
Arguments tailpatch {HF TF}.

(** [pt_patch] is the pointer into [patches], null in a fresh entry. *)
Record PendingTailpatch := mkPending {
  registersAtInvocation : list Z;
  returnAddress : Z;
  pt_patch : option Z
}.

Definition pending0 : PendingTailpatch := mkPending (replicate 16 0) 0 None.

#[export] Instance pending_inhabited : Inhabited PendingTailpatch := populate pending0.
#[export] Instance patch_inhabited HF TF : Inhabited (Patch HF TF) := populate (mkPatch 0 None None).

Record PatchDispatch (HF TF : Type) := mkPatchDispatch {
  table : Z;                 (* int8_t *)
  countdown : Z;             (* uint8_t *)
  patchTable : list Z;       (* uint8_t[PATCH_TABLE_SIZE] *)
  patches : list (Patch HF TF);   (* [MAX_PATCHES] *)
  nPatches : Z;
  pendingTailpatches : list PendingTailpatch;   (* [MAX_PENDING_TAILPATCH] *)
  nPendingTailpatches : Z
}.
Arguments mkPatchDispatch {HF TF}.
Arguments table {HF TF}.
Arguments countdown {HF TF}.
Arguments patchTable {HF TF}.
Arguments patches {HF TF}.
Arguments nPatches {HF TF}.
Arguments pendingTailpatches {HF TF}.
Arguments nPendingTailpatches {HF TF}.

Section Operations.
Context {X HF TF : Type} `{RegFile X}.

(** What the function pointers do; a tail patch may run the machine, and with
    it the dispatcher. *)
Context (callHead : HF -> X -> Z -> outcome X).
Context (callTail : TF -> PatchDispatch HF TF * X -> Z -> list Z -> outcome (PatchDispatch HF TF * X)).

Definition initPatchDispatch : PatchDispatch HF TF :=
  mkPatchDispatch (-1) 0 (replicate (Z.to_nat PATCH_TABLE_SIZE) 0xff)
    (replicate (Z.to_nat MAX_PATCHES) (mkPatch 0 None None)) 0
    (replicate (Z.to_nat MAX_PENDING_TAILPATCH) pending0) 0.

(** The negation of the least [int32_t] wraps. *)
Definition patchDispatchOnLoadR12FromR9 (pd : PatchDispatch HF TF) (offset : Z) : PatchDispatch HF TF :=
  let pd := { pd with table := -1; countdown := 0 } in
  let offset := sgn 32 offset in
  if 0 <=? offset then pd else
  let offset := sgn 32 (- offset) in
  if tst offset 0x03 || (12 <? offset) then pd else
  { pd with table := sgn 8 offset; countdown := 2 }.

Definition patchDispatchOnLoadPcFromR12 (pd : PatchDispatch HF TF) (offset : Z) (x : X)
  : outcome (PatchDispatch HF TF * X) :=
  let offset := sgn 32 offset in
  if negb (pd.(countdown) =? 1) || (offset <? 0) || tst offset 0x03 || (0xfff <? offset) then Ret (pd, x) else
  let key := u32 (((pd.(table) .>> 2) - 1) .<< 10) .| (offset .>> 2) in
  if PATCH_TABLE_SIZE <=? key then Undef else
  let patchIdx := pd.(patchTable).[key] in
  if patchIdx =? 0xff then Ret (pd, x) else
  let patch := pd.(patches).[patchIdx] in
  x ← match patch.(headpatch) with Some f => callHead f x patch.(p_syscall) | None => Ret x end;
  match patch.(tailpatch) with
  | None => Ret (pd, x)
  | Some _ =>
      if pd.(nPendingTailpatches) =? MAX_PENDING_TAILPATCH then Ret (pd, x) else
      let tailpatch := mkPending (registers x) ((registers x).[14] .&~ 0x01) (Some patchIdx) in
      Ret ({ pd with pendingTailpatches ::= (fun l => l.[pd.(nPendingTailpatches) <- tailpatch]);
                     nPendingTailpatches ::= fun n => n + 1 }, x)
  end.

(** The entry past the last one moves down, unless the last one was removed. *)
Definition removePending (pd : PatchDispatch HF TF) (i : Z) : outcome (PatchDispatch HF TF) :=
  let n := pd.(nPendingTailpatches) in
  let dec pd := Ret { pd with nPendingTailpatches ::= fun n => n - 1 } in
  if i =? n - 1 then dec pd
  else if MAX_PENDING_TAILPATCH <=? n then Undef
  else dec { pd with pendingTailpatches ::= fun l => l.[i <- l.[n]] }.

(** The loop from [i] on; [fuel] bounds its iterations. *)
Fixpoint runPending (fuel : nat) (i : Z) (pd : PatchDispatch HF TF) (x : X) : outcome (PatchDispatch HF TF * X) :=
  match fuel with
  | O => Ret (pd, x)
  | S fuel =>
      if negb (i <? pd.(nPendingTailpatches)) then Ret (pd, x) else
      let p := pd.(pendingTailpatches).[i] in
      if negb (p.(returnAddress) =? (registers x).[15]) ||
         negb (p.(registersAtInvocation).[13] =? (registers x).[13])
      then runPending fuel (i + 1) pd x
      else
        match p.(pt_patch) with
        | None => Undef
        | Some idx =>
            let patch := pd.(patches).[idx] in
            '(pd, x) ← match patch.(tailpatch) with
                       | Some f => callTail f (pd, x) patch.(p_syscall) p.(registersAtInvocation)
                       | None => Ret (pd, x)
                       end;
            pd ← removePending pd i;
            runPending fuel (i + 1) pd x
        end
  end.

(** At most [MAX_PENDING_TAILPATCH] entries are pending. *)
Definition patchOnBeforeExecute (pd : PatchDispatch HF TF) (x : X) : outcome (PatchDispatch HF TF * X) :=
  let pd := { pd with countdown ::= fun c => if nz c then c - 1 else c } in
  if pd.(nPendingTailpatches) =? 0 then Ret (pd, x) else
  runPending (Z.to_nat MAX_PENDING_TAILPATCH) 0 pd x.

Definition patchDispatchAddPatch (pd : PatchDispatch HF TF) (syscall : Z) (hp : option HF) (tp : option TF)
  : outcome (PatchDispatch HF TF) :=
  let key := u32 (((syscall .>> 14) - 1) .<< 10) .| ((syscall .& 0xfff) .>> 2) in
  if PATCH_TABLE_SIZE <=? key then Ret pd else
  let fill pd idx := { pd with patches ::= fun l => l.[idx <- mkPatch syscall hp tp] } in
  let old := pd.(patchTable).[key] in
  if negb (old =? 0xff) then Ret (fill pd old)
  else
    let patchIdx := u8 pd.(nPatches) in
    if MAX_PATCHES <=? patchIdx then Abort
    else Ret (fill { pd with nPatches ::= (fun n => n + 1); patchTable ::= (fun l => l.[key <- patchIdx]) } patchIdx).

End Operations.

(** ** The patches of patches.c *)

Definition SYSCALL_UI_INITIALIZE := 0xc55c.
Definition SYSCALL_SYS_SET_AUTO_OFF_TIME := 0x88c8.

Definition packSyscall (table offset : Z) : Z := (table .<< 12) .| offset.

Inductive HeadpatchF := headpatch_SysSetAutoOffTime.
Inductive TailpatchF := tailpatch_UIInitialize.

Definition callHeadpatch {X} `{RegFile X} (f : HeadpatchF) (x : X) (syscall : Z) : outcome X :=
  match f with headpatch_SysSetAutoOffTime => Ret (set_register x 0 0) end.

Definition registerPatches (pd : PatchDispatch HeadpatchF TailpatchF) : outcome (PatchDispatch HeadpatchF TailpatchF) :=
  pd ← patchDispatchAddPatch pd SYSCALL_UI_INITIALIZE None (Some tailpatch_UIInitialize);
  patchDispatchAddPatch pd SYSCALL_SYS_SET_AUTO_OFF_TIME (Some headpatch_SysSetAutoOffTime) None.

(** ** The table of patches *)

Definition keyOf (table off : Z) : Z := (table / 4 - 1) * 1024 + off / 4.

(** A table offset and a call's offset in the table. *)
Definition validCall (table off : Z) : Prop :=
  (table = 4 \/ table = 8 \/ table = 12) /\ 0 <= off < 0x1000 /\ off mod 4 = 0.

Definition lookupPatch {HF TF} (pd : PatchDispatch HF TF) (table off : Z) : option (Patch HF TF) :=
  let idx := pd.(patchTable).[keyOf table off] in
  if idx =? 0xff then None else Some pd.(patches).[idx].

Record pd_wf {HF TF} (pd : PatchDispatch HF TF) : Prop := {
  pw_table : length pd.(patchTable) = Z.to_nat PATCH_TABLE_SIZE;
  pw_patches : length pd.(patches) = Z.to_nat MAX_PATCHES;
  pw_pending : length pd.(pendingTailpatches) = Z.to_nat MAX_PENDING_TAILPATCH;
  pw_count : 0 <= pd.(nPatches) <= MAX_PATCHES;
  pw_n : 0 <= pd.(nPendingTailpatches) <= MAX_PENDING_TAILPATCH;
  pw_entry k : 0 <= k < PATCH_TABLE_SIZE -> pd.(patchTable).[k] = 0xff \/ 0 <= pd.(patchTable).[k] < pd.(nPatches);
  pw_inj k k' : 0 <= k < PATCH_TABLE_SIZE -> 0 <= k' < PATCH_TABLE_SIZE ->
    pd.(patchTable).[k] = pd.(patchTable).[k'] -> pd.(patchTable).[k] <> 0xff -> k = k';
  pw_live i : 0 <= i < pd.(nPendingTailpatches) ->
    exists idx, (pd.(pendingTailpatches).[i]).(pt_patch) = Some idx /\ 0 <= idx < pd.(nPatches)
}.

Lemma keyOf_range t o : validCall t o -> 0 <= keyOf t o < PATCH_TABLE_SIZE.
Proof. unfold validCall, keyOf, PATCH_TABLE_SIZE. intros ([-> | [-> | ->]] & Ho & _); cbn; zdiv_lia. Qed.

Lemma keyOf_inj t o t' o' : validCall t o -> validCall t' o' -> keyOf t o = keyOf t' o' -> t = t' /\ o = o'.
Proof.
  unfold validCall, keyOf.
  intros ([-> | [-> | ->]] & Ho & Hm) ([-> | [-> | ->]] & Ho' & Hm') E; cbn in E; split; zdiv_lia.
Qed.

Lemma table_key t o :
  validCall t o -> u32 (((t .>> 2) - 1) .<< 10) .| (o .>> 2) = keyOf t o.
Proof.
  intros (Ht & Ho & Hm). unfold keyOf. rewrite (shiftr_div o) by done.
  replace (u32 (((t .>> 2) - 1) .<< 10)) with ((t / 4 - 1) * 2 ^ 10) by (by destruct Ht as [-> | [-> | ->]]).
  apply lor_mul_pow2; [done|]. split; zdiv_lia.
Qed.

Lemma syscall_key t o :
  validCall t o -> u32 (((packSyscall t o .>> 14) - 1) .<< 10) .| ((packSyscall t o .& 0xfff) .>> 2) = keyOf t o.
Proof.
  intros Hv. pose proof Hv as (Ht & Ho & Hm). rewrite <- (table_key t o Hv).
  unfold packSyscall. rewrite (Z.shiftl_mul_pow2 t 12), lor_mul_pow2 by (done || split; lia).
  change 0xfff with (2 ^ 12 - 1). rewrite land_low, !shiftr_div by done.
  f_equal; [do 3 f_equal|]; destruct Ht as [-> | [-> | ->]]; zdiv_lia.
Qed.

Section Table.
Context {HF TF : Type}.
Implicit Types (pd : PatchDispatch HF TF).

(** Registration defines one entry of the table and leaves the others alone. *)
Lemma add_patch_exact pd pd' t o hp tp :
  pd_wf pd -> validCall t o -> patchDispatchAddPatch pd (packSyscall t o) hp tp = Ret pd' ->
  pd_wf pd' /\ lookupPatch pd' t o = Some (mkPatch (packSyscall t o) hp tp) /\
  (forall t' o', validCall t' o' -> (t', o') <> (t, o) -> lookupPatch pd' t' o' = lookupPatch pd t' o') /\
  (pd'.(pendingTailpatches), pd'.(nPendingTailpatches)) = (pd.(pendingTailpatches), pd.(nPendingTailpatches)).
Proof.
  intros [Ht Hp Hl Hc Hn He Hi Hv] Hval. unfold patchDispatchAddPatch. rewrite syscall_key by done.
  pose proof (keyOf_range t o Hval) as Hk. rewrite (proj2 (Z.leb_gt _ _)) by lia.
  set (key := keyOf t o) in *.
  assert (Hother : forall t' o', validCall t' o' -> (t', o') <> (t, o) -> keyOf t' o' <> key).
  { intros t' o' Hv' Hne E. apply keyOf_inj in E as [-> ->]; done. }
  destruct (Z.eqb_spec pd.(patchTable).[key] 0xff) as [E|E]; cbn [negb].
  - rewrite wrap_small by (unfold is_u, MAX_PATCHES in *; lia).
    destruct (Z.leb_spec MAX_PATCHES pd.(nPatches)) as [|Hlt]; [done|]. intros [= <-].
    assert (Hne : pd.(nPatches) <> 0xff) by (unfold MAX_PATCHES in *; lia).
    assert (Hlk : forall k, 0 <= k < PATCH_TABLE_SIZE ->
      (pd.(patchTable).[key <- pd.(nPatches)]).[k] = if key =? k then pd.(nPatches) else pd.(patchTable).[k])
      by (intros k Hkk; apply aget_aset; rewrite ?Ht; unfold PATCH_TABLE_SIZE in *; lia).
    destruct pd as [tb cd pt ps np pe n]; cbn in *. split; [split; cbn; rewrite ?length_aset; try done|split; [|split]].
    + lia.
    + intros k Hkk. rewrite Hlk by done. destruct (Z.eqb_spec key k) as [->|]; [lia|]. destruct (He k Hkk); lia.
    + intros k k' Hkk Hkk'. rewrite !Hlk by done.
      destruct (Z.eqb_spec key k), (Z.eqb_spec key k'); try lia.
      * intros Eq. destruct (He k' Hkk'); lia.
      * intros Eq. destruct (He k Hkk); lia.
      * by apply Hi.
    + intros j Hj. destruct (Hv j Hj) as (idx & G & Hidx). exists idx. split; [done|lia].
    + unfold lookupPatch; cbn. fold key. rewrite Hlk, Z.eqb_refl by done.
      rewrite (proj2 (Z.eqb_neq _ _)) by done. rewrite aget_aset_eq; [done|]. rewrite Hp. unfold MAX_PATCHES in *. lia.
    + intros t' o' Hv' Hneq. unfold lookupPatch; cbn. pose proof (keyOf_range t' o' Hv').
      rewrite Hlk by done. rewrite (proj2 (Z.eqb_neq key (keyOf t' o'))) by (intros G; by apply (Hother t' o')).
      destruct (Z.eqb_spec pt.[keyOf t' o'] 0xff) as [|Hu]; [done|]. f_equal.
      destruct (He (keyOf t' o') ltac:(done)); [done|]. apply aget_aset_ne; lia.
    + done.
  - intros [= <-]. destruct (He key Hk) as [|Hlt]; [done|].
    destruct pd as [tb cd pt ps np pe n]; cbn in *. split; [split; cbn; rewrite ?length_aset; done|split; [|split]].
    + unfold lookupPatch; cbn. fold key. rewrite (proj2 (Z.eqb_neq _ _)) by done.
      rewrite aget_aset_eq; [done|]. rewrite Hp. unfold MAX_PATCHES in *. lia.
    + intros t' o' Hv' Hneq. unfold lookupPatch; cbn. pose proof (keyOf_range t' o' Hv').
      destruct (Z.eqb_spec pt.[keyOf t' o'] 0xff) as [|Hu]; [done|]. f_equal.
      destruct (He (keyOf t' o') ltac:(done)); [done|]. apply aget_aset_ne; [lia|lia|].
      intros G. apply (Hother t' o' Hv' Hneq). symmetry. by apply Hi.
    + done.
Qed.
End Table.

(** ** Calls and returns *)

(** The pending call [p] is the one that returns in the state [x]. *)
Definition returnsIn {X} `{RegFile X} (x : X) (p : PendingTailpatch) : bool :=
  (p.(returnAddress) =? (registers x).[15]) && (p.(registersAtInvocation).[13] =? (registers x).[13]).

Definition live {HF TF} (pd : PatchDispatch HF TF) : list PendingTailpatch :=
  take (Z.to_nat pd.(nPendingTailpatches)) pd.(pendingTailpatches).

Section Calls.
Context {X HF TF : Type} `{RegFile X}.
Context (callHead : HF -> X -> Z -> outcome X).
Context (callTail : TF -> PatchDispatch HF TF * X -> Z -> list Z -> outcome (PatchDispatch HF TF * X)).
Implicit Types (pd : PatchDispatch HF TF) (x : X).

(** The two instructions of a call, with [between] instructions in between. *)
Definition systemCall (between : nat) (pd : PatchDispatch HF TF) (x : X) (t o : Z) : outcome (PatchDispatch HF TF * X) :=
  '(pd, x) ← iterM (Datatypes.S between) (fun '(pd, x) => patchOnBeforeExecute callTail pd x)
               (patchDispatchOnLoadR12FromR9 pd (u32 (- t)), x);
  patchDispatchOnLoadPcFromR12 callHead pd o x.

(** What a patch [p], entry [idx] of the table, does at a call. *)
Definition callPatch (p : Patch HF TF) (idx : Z) (pd : PatchDispatch HF TF) (x : X)
  : outcome (PatchDispatch HF TF * X) :=
  x ← match p.(headpatch) with Some f => callHead f x p.(p_syscall) | None => Ret x end;
  let entry := mkPending (registers x) ((registers x).[14] .&~ 0x01) (Some idx) in
  Ret (if bool_decide (is_Some p.(tailpatch)) && negb (pd.(nPendingTailpatches) =? MAX_PENDING_TAILPATCH)
       then { pd with pendingTailpatches ::= (fun l => l.[pd.(nPendingTailpatches) <- entry]);
                      nPendingTailpatches ::= fun n => n + 1 }
       else pd, x).

Lemma runPending_none fuel i pd x :
  (forall k, i <= k < pd.(nPendingTailpatches) -> returnsIn x pd.(pendingTailpatches).[k] = false) ->
  runPending callTail fuel i pd x = Ret (pd, x).
Proof.
  revert i. induction fuel as [|fuel IH]; intros i Hno; [done|]. cbn [runPending].
  destruct (Z.ltb_spec i pd.(nPendingTailpatches)) as [Hlt|]; [|done]. cbn [negb].
  pose proof (Hno i ltac:(lia)) as G. unfold returnsIn in G. rewrite <- negb_andb, G. cbn [negb].
  apply IH. intros k Hk. apply Hno. lia.
Qed.

Lemma before_execute_none pd x :
  (forall k, 0 <= k < pd.(nPendingTailpatches) -> returnsIn x pd.(pendingTailpatches).[k] = false) ->
  patchOnBeforeExecute callTail pd x =
  Ret ({ pd with countdown ::= fun c => if nz c then c - 1 else c }, x).
Proof. intros Hno. unfold patchOnBeforeExecute. destruct (_ =? 0); [done|]. by apply runPending_none. Qed.

Lemma load_r12_exact pd t o : validCall t o ->
  patchDispatchOnLoadR12FromR9 pd (u32 (- t)) = { pd with table := t; countdown := 2 }.
Proof. intros (Ht & _). destruct pd. by destruct Ht as [-> | [-> | ->]]. Qed.

Lemma load_pc_exact pd x t o :
  validCall t o ->
  patchDispatchOnLoadPcFromR12 callHead { pd with table := t; countdown := 1 } o x =
  match lookupPatch pd t o with
  | None => Ret ({ pd with table := t; countdown := 1 }, x)
  | Some p => callPatch p pd.(patchTable).[keyOf t o] { pd with table := t; countdown := 1 } x
  end.
Proof.
  intros Hval. pose proof Hval as (Ht & Ho & Hm). unfold patchDispatchOnLoadPcFromR12, lookupPatch.
  assert (E : sgn 32 o = o).
  { unfold sgn. rewrite wrap_small by (unfold is_u; lia). by rewrite (proj2 (Z.ltb_lt o _)) by lia. }
  rewrite E. cbn [countdown]. destruct pd as [tb cd pt ps np pe n]. cbn.
  rewrite (table_key t o Hval). pose proof (keyOf_range t o Hval). rewrite (proj2 (Z.leb_gt _ _)) by lia.
  rewrite (proj2 (Z.ltb_ge o 0)), (proj2 (Z.ltb_ge 4095 o)) by lia. 
  replace (tst o 3) with false by (symmetry; apply tst_false; change 3 with (2 ^ 2 - 1); by rewrite land_low). cbn.
  destruct (_ =? 255); [done|]. unfold callPatch. destruct (match headpatch _ with Some _ => _ | None => _ end); [|done..].
  cbn. destruct (tailpatch _); cbn; [|done]. by destruct (n =? _).
Qed.

Lemma between_none n pd x :
  (forall k, 0 <= k < pd.(nPendingTailpatches) -> returnsIn x pd.(pendingTailpatches).[k] = false) ->
  0 <= pd.(countdown) ->
  iterM n (fun '(pd, x) => patchOnBeforeExecute callTail pd x) (pd, x) =
  Ret ({ pd with countdown ::= fun c => Z.max 0 (c - Z.of_nat n) }, x).
Proof.
  intros Hno Hc. induction n as [|n IH].
  - destruct pd; cbn in *. do 3 f_equal. lia.
  - rewrite iterM_S, IH. cbn [mbind outcome_bind]. rewrite before_execute_none by (by destruct pd).
    destruct pd as [tb cd pt ps np pe m]; cbn in *. do 3 f_equal. unfold nz.
    destruct (Z.eqb_spec (Z.max 0 (cd - Z.of_nat n)) 0); cbn [negb]; lia.
Qed.
Lemma between_call n pd x t :
  (forall k, 0 <= k < pd.(nPendingTailpatches) -> returnsIn x pd.(pendingTailpatches).[k] = false) ->
  iterM (Datatypes.S n) (fun '(pd, x) => patchOnBeforeExecute callTail pd x) ({ pd with table := t; countdown := 2 }, x) =
  Ret ({ pd with table := t; countdown := Z.max 0 (1 - Z.of_nat n) }, x).
Proof.
  intros Hno. rewrite between_none by (destruct pd; done). destruct pd; cbn [countdown nPendingTailpatches] in *.
  cbn. do 3 f_equal. lia.
Qed.
End Calls.

Lemma aget_take {A} `{!Inhabited A} (l : list A) n k : 0 <= k < n -> (take (Z.to_nat n) l).[k] = l.[k].
Proof. intros Hk. unfold aget. rewrite lookup_total_take. by rewrite decide_True by lia. Qed.

Lemma live_aget {HF TF} (pd : PatchDispatch HF TF) (P : PendingTailpatch -> Prop) :
  pd_wf pd -> Forall P (live pd) -> forall k, 0 <= k < pd.(nPendingTailpatches) -> P pd.(pendingTailpatches).[k].
Proof.
  intros Hwf Hno k Hk. destruct Hwf as [_ _ Hl _ Hn _ _ _]. unfold live in Hno.
  pose proof (Forall_aget _ _ k Hno) as G. rewrite length_take, aget_take in G by done.
  apply G. unfold MAX_PENDING_TAILPATCH in *. lia.
Qed.

(** Once a patch is registered for a system call, the two consecutive
    instructions of that call run its head patch and queue its tail patch under
    the return address; every other call does what it did before; and nothing
    runs when another instruction comes in between. *)
Theorem patched_call_exact {X HF TF} `{RegFile X} callHead callTail (pd pd' : PatchDispatch HF TF) (x : X) t o hp tp n t' o' :
  pd_wf pd -> validCall t o -> patchDispatchAddPatch pd (packSyscall t o) hp tp = Ret pd' ->
  Forall (fun p => returnsIn x p = false) (live pd) -> validCall t' o' ->
  let p := if bool_decide ((t', o') = (t, o)) then Some (mkPatch (packSyscall t o) hp tp) else lookupPatch pd t' o' in
  systemCall callHead callTail n pd' x t' o' =
  match n, p with
  | O, Some p => callPatch callHead p pd'.(patchTable).[keyOf t' o'] { pd' with table := t'; countdown := 1 } x
  | O, None => Ret ({ pd' with table := t'; countdown := 1 }, x)
  | _, _ => Ret ({ pd' with table := t'; countdown := 0 }, x)
  end.
Proof.
  intros Hwf Hval Ha Hno Hval'. destruct (add_patch_exact _ _ _ _ _ _ Hwf Hval Ha) as (Hwf' & El & Eo & [= Ep En]).
  assert (Hno' : forall k, 0 <= k < pd'.(nPendingTailpatches) -> returnsIn x pd'.(pendingTailpatches).[k] = false)
    by (rewrite Ep, En; exact (live_aget pd _ Hwf Hno)).
  cbv zeta. unfold systemCall. rewrite (load_r12_exact pd' t' o' Hval').
  rewrite between_call by done. cbn [mbind outcome_bind]. destruct n as [|n].
  - change (Z.max 0 (1 - Z.of_nat 0)) with 1. rewrite load_pc_exact by done.
    case_bool_decide as E; [by injection E as -> ->; rewrite El|]. rewrite Eo by done. done.
  - replace (Z.max 0 (1 - Z.of_nat (Datatypes.S n))) with 0 by lia.
    unfold patchDispatchOnLoadPcFromR12. by destruct pd'.
Qed.

(** The registers alone are a machine. *)
#[export] Instance list_regfile : RegFile (list Z) := {| registers l := l; set_register l i v := l.[i <- v] |}.

Lemma init_wf {HF TF} : pd_wf (initPatchDispatch (HF := HF) (TF := TF)).
Proof.
  assert (G : forall k, 0 <= k < PATCH_TABLE_SIZE -> (replicate (Z.to_nat PATCH_TABLE_SIZE) 0xff).[k] = 0xff)
    by (intros k Hk; apply aget_replicate; unfold PATCH_TABLE_SIZE in *; lia).
  split; cbn -[PATCH_TABLE_SIZE Z.to_nat]; try (by rewrite length_replicate); try done.
  - intros k Hk. left. by apply G.
  - intros k k' Hk Hk' _ Hne. by rewrite G in Hne.
  - lia.
Qed.

Definition demo_regs : list Z := replicate 14 0 ++ [0x8001; 0x9000].
Definition noTail : TailpatchF -> PatchDispatch HeadpatchF TailpatchF * list Z -> Z -> list Z ->
  outcome (PatchDispatch HeadpatchF TailpatchF * list Z) := fun _ s _ _ => Ret s.

Lemma patched_call_exact_witness :
  exists pd', patchDispatchAddPatch initPatchDispatch SYSCALL_SYS_SET_AUTO_OFF_TIME (Some headpatch_SysSetAutoOffTime) None = Ret pd' /\
    systemCall callHeadpatch noTail 0 pd' demo_regs.[0 <- 77] 8 0x8c8 = Ret ({ pd' with table := 8; countdown := 1 }, demo_regs) /\
    systemCall callHeadpatch noTail 1 pd' demo_regs.[0 <- 77] 8 0x8c8 =
      Ret ({ pd' with table := 8; countdown := 0 }, demo_regs.[0 <- 77]).
Proof.
  assert (Hv : validCall 8 0x8c8) by (split; [lia|split; [lia|done]]).
  assert (Ha : exists pd' : PatchDispatch HeadpatchF TailpatchF, patchDispatchAddPatch initPatchDispatch (packSyscall 8 0x8c8)
    (Some headpatch_SysSetAutoOffTime) None = Ret pd') by (eexists; reflexivity).
  destruct Ha as (pd' & Ha). exists pd'. split; [exact Ha|].
  pose proof (fun n => patched_call_exact callHeadpatch noTail initPatchDispatch pd' demo_regs.[0 <- 77] 8 0x8c8
    _ None n 8 0x8c8 init_wf Hv Ha (Forall_nil_2 _) Hv) as E.
  split; [rewrite (E O)|rewrite (E 1%nat)]; reflexivity.
Defined.

(** ** Returns *)

Section Returns.
Context {X HF TF : Type} `{RegFile X}.
Context (callTail : TF -> PatchDispatch HF TF * X -> Z -> list Z -> outcome (PatchDispatch HF TF * X)).
Implicit Types (pd : PatchDispatch HF TF) (x : X).

(** The scan up to the only entry that returns. *)
Lemma runPending_skip fuel i j pd x :
  0 <= i -> i + Z.of_nat fuel = j ->
  (forall k, i <= k < j -> returnsIn x pd.(pendingTailpatches).[k] = false) -> j <= pd.(nPendingTailpatches) ->
  forall fuel', runPending callTail (fuel + fuel') i pd x = runPending callTail fuel' j pd x.
Proof.
  revert i. induction fuel as [|fuel IH]; intros i Hi Hj Hno Hle fuel'; [by replace j with i by lia|].
  cbn [Nat.add runPending]. rewrite (proj2 (Z.ltb_lt i _)) by lia. cbn [negb].
  pose proof (Hno i ltac:(lia)) as G. unfold returnsIn in G. rewrite <- negb_andb, G. cbn [negb].
  apply IH; [lia|lia| |done]. intros k Hk. apply Hno. lia.
Qed.

(** The pending call [i] is the first that returns in the state [x], and none of
    the calls after it returns in the state [x'] that its tail patch leaves. (The
    loop does not get to the last entry, which has moved or has gone.) *)
Definition firstReturn pd x x' (i : Z) : Prop :=
  (forall k, 0 <= k < i -> returnsIn x pd.(pendingTailpatches).[k] = false) /\
  returnsIn x pd.(pendingTailpatches).[i] = true /\
  (forall k, i < k < pd.(nPendingTailpatches) - 1 -> returnsIn x' pd.(pendingTailpatches).[k] = false).

(** The tail patch of the pending call [i] turns [pd] and [x] into [pd2] and [x'].
    It may run guest code and with it the dispatcher, and change whatever that
    changes: the table and the countdown, the patches, and the entries past the
    last pending one. The calls that were pending still are, and those that the
    guest code made have returned. *)
Definition tailRun pd x (i : Z) pd2 x' : Prop :=
  exists idx f, (pd.(pendingTailpatches).[i]).(pt_patch) = Some idx /\
    (pd.(patches).[idx]).(tailpatch) = Some f /\
    callTail f (pd, x) (pd.(patches).[idx]).(p_syscall) (pd.(pendingTailpatches).[i]).(registersAtInvocation) = Ret (pd2, x') /\
    pd2.(nPendingTailpatches) = pd.(nPendingTailpatches) /\ live pd2 = live pd.

(** What is pending once the entry [i] has been removed. *)
Lemma live_removed pd i :
  0 <= i < pd.(nPendingTailpatches) -> i = pd.(nPendingTailpatches) - 1 \/ pd.(nPendingTailpatches) < MAX_PENDING_TAILPATCH ->
  exists pd', removePending pd i = Ret pd' /\ pd'.(nPendingTailpatches) = pd.(nPendingTailpatches) - 1 /\
    live pd' = if i =? pd.(nPendingTailpatches) - 1 then take (Z.to_nat (pd.(nPendingTailpatches) - 1)) (live pd)
               else (take (Z.to_nat (pd.(nPendingTailpatches) - 1)) (live pd)).[i <- pd.(pendingTailpatches).[pd.(nPendingTailpatches)]].
Proof.
  intros Hi Hlt. unfold removePending. destruct (Z.eqb_spec i (pd.(nPendingTailpatches) - 1)) as [E|E].
  - eexists. split; [done|]. split; [done|]. destruct pd as [tb cd pt ps np pe n]; unfold live; cbn in *. by rewrite take_take, Nat.min_l by lia.
  - rewrite (proj2 (Z.leb_gt _ _)) by lia. eexists. split; [done|]. split; [done|].
    destruct pd as [tb cd pt ps np pe n]; unfold live; cbn in *.
    rewrite take_take, Nat.min_l by lia. unfold aset at 1. rewrite take_insert. by rewrite decide_True by lia.
Qed.

Lemma aget_live pd k : 0 <= k < pd.(nPendingTailpatches) -> (live pd).[k] = pd.(pendingTailpatches).[k].
Proof. intros Hk. unfold live. by apply aget_take. Qed.

(** The calls behind the removed one, but for the newest, keep their places. *)
Lemma live_behind pd pd' i k e :
  i < k < pd.(nPendingTailpatches) - 1 -> 0 <= i ->
  live pd' = (if i =? pd.(nPendingTailpatches) - 1 then take (Z.to_nat (pd.(nPendingTailpatches) - 1)) (live pd)
              else (take (Z.to_nat (pd.(nPendingTailpatches) - 1)) (live pd)).[i <- e]) ->
  (live pd').[k] = pd.(pendingTailpatches).[k].
Proof.
  intros Hk Hi ->. rewrite (proj2 (Z.eqb_neq i _)) by lia. by rewrite aget_aset_ne, aget_take, aget_live by lia.
Qed.

(** The turn of the loop in which the call [i] returns. *)
Lemma runPending_return fuel pd x i pd2 x' :
  0 <= i < pd.(nPendingTailpatches) -> i = pd.(nPendingTailpatches) - 1 \/ pd.(nPendingTailpatches) < MAX_PENDING_TAILPATCH ->
  tailRun pd x i pd2 x' -> returnsIn x pd.(pendingTailpatches).[i] = true ->
  exists pd', runPending callTail (S fuel) i pd x = runPending callTail fuel (i + 1) pd' x' /\
    pd'.(nPendingTailpatches) = pd.(nPendingTailpatches) - 1 /\
    live pd' = if i =? pd.(nPendingTailpatches) - 1 then take (Z.to_nat (pd.(nPendingTailpatches) - 1)) (live pd)
               else (take (Z.to_nat (pd.(nPendingTailpatches) - 1)) (live pd)).[i <- pd2.(pendingTailpatches).[pd.(nPendingTailpatches)]].
Proof.
  intros Hi Hn (idx & f & Ep & Ef & Hc & En & El) G. cbn [runPending]. rewrite (proj2 (Z.ltb_lt i _)) by lia. cbn [negb].
  unfold returnsIn in G. rewrite <- negb_andb, G. cbn [negb]. rewrite Ep, Ef, Hc. cbn [mbind outcome_bind].
  rewrite <- En, <- El in *. destruct (live_removed pd2 i Hi Hn) as (pd' & -> & Hr). exists pd'. split; [done|exact Hr].
Qed.

End Returns.

(** C40. When a call returns, its tail patch runs and the call is no longer
    pending. The calls before it stay pending. If it was the newest call, these
    are all the others; if it was not, the entry past the end of the array, left
    from earlier calls or from calls made while the tail patch ran, takes its
    place and the newest pending call is forgotten: its tail patch never runs.

    The tail patch is not assumed to leave the dispatcher alone: the one in
    patches.c runs an injected system call, whose cycles come back to
    [patchOnBeforeExecute] of the same dispatcher. It may end with any dispatcher
    [pd2] that has the same calls pending as before ([tailRun]), that is, the
    calls made meanwhile have returned. No call before it returns in [x], and
    none after it in the state [x'] that the tail patch leaves ([firstReturn]);
    unless it is the newest, fewer than 32 calls are pending: with 32 the entry
    past the last one is outside of the array. *)
Theorem tailpatch_return_exact {X HF TF} `{RegFile X} callTail (pd pd2 : PatchDispatch HF TF) (x x' : X) (i : Z) :
  let n := pd.(nPendingTailpatches) in
  0 <= i < n -> n <= MAX_PENDING_TAILPATCH -> i = n - 1 \/ n < MAX_PENDING_TAILPATCH ->
  firstReturn pd x x' i ->
  tailRun callTail { pd with countdown ::= fun c => if nz c then c - 1 else c } x i pd2 x' ->
  exists pd', patchOnBeforeExecute callTail pd x = Ret (pd', x') /\ pd'.(nPendingTailpatches) = n - 1 /\
    live pd' = if i =? n - 1 then take (Z.to_nat (n - 1)) (live pd)
               else (take (Z.to_nat (n - 1)) (live pd)).[i <- pd2.(pendingTailpatches).[n]].
Proof.
  intros n Hi Hmax Hn (Hb & Hr & Ha) Ht. subst n. unfold patchOnBeforeExecute. rewrite (proj2 (Z.eqb_neq _ _)) by (destruct pd; cbn in *; lia).
  revert Ht. pose (pd1 := { pd with countdown ::= fun c => if nz c then c - 1 else c }). fold pd1.
  change pd.(nPendingTailpatches) with pd1.(nPendingTailpatches) in *. change (live pd) with (live pd1).
  change pd.(pendingTailpatches) with pd1.(pendingTailpatches) in *. clearbody pd1. intros Ht.
  replace (Z.to_nat MAX_PENDING_TAILPATCH) with (Z.to_nat i + S (Z.to_nat (MAX_PENDING_TAILPATCH - 1 - i)))%nat by lia.
  rewrite (runPending_skip callTail _ 0 i) by (done || lia).
  destruct (runPending_return callTail (Z.to_nat (MAX_PENDING_TAILPATCH - 1 - i)) pd1 x i pd2 x' Hi Hn Ht Hr) as (pd' & -> & En & El).
  exists pd'. split; [|done]. apply runPending_none. intros k Hk. rewrite En in Hk.
  rewrite <- aget_live by lia. rewrite (live_behind pd1 pd' i k _ ltac:(lia) ltac:(lia) El). apply Ha. lia.
Qed.

(** Two calls of UIInitialize are pending. *)
Definition demo_pending : list PendingTailpatch :=
  [mkPending demo_regs 0x9000 (Some 0); mkPending demo_regs 0xa000 (Some 0)].

(** A tail patch that makes an injected call, as the one in patches.c: the code it
    runs calls SysSetAutoOffTime, then UIInitialize, which has a tail patch, and
    returns from it. The injected call has registers of its own. *)
Definition demo_tail : TailpatchF -> PatchDispatch HeadpatchF TailpatchF * list Z -> Z -> list Z ->
  outcome (PatchDispatch HeadpatchF TailpatchF * list Z) := fun _ '(pd, x) _ _ =>
  let y := x.[13 <- 0x7f00].[14 <- 0x20008].[15 <- 0x20000] in
  '(pd, y) ← systemCall callHeadpatch noTail 0 pd y 8 0x8c8;
  '(pd, y) ← systemCall callHeadpatch noTail 0 pd y 12 0x55c;
  '(pd, _) ← patchOnBeforeExecute noTail pd y.[15 <- 0x20008];
  Ret (pd, x).

(** The dispatcher after [registerPatches], with the two calls. *)
Definition registered : PatchDispatch HeadpatchF TailpatchF :=
  match registerPatches initPatchDispatch with Ret pd => pd | _ => initPatchDispatch end.
Definition demo_registered : PatchDispatch HeadpatchF TailpatchF :=
  { registered with pendingTailpatches ::= (fun l => demo_pending ++ drop 2 l); nPendingTailpatches := 2 }.

(** The entry that the call of UIInitialize in the tail patch leaves behind. *)
Definition demo_stale : PendingTailpatch := mkPending (replicate 13 0 ++ [0x7f00; 0x20008; 0x20000]) 0x20008 (Some 0).
Definition demo_after : PatchDispatch HeadpatchF TailpatchF :=
  { demo_registered with table := 12; countdown := 0; pendingTailpatches ::= (fun l => l.[2 <- demo_stale]) }.

Lemma demo_run i x : i = 0 \/ i = 1 -> x = demo_regs.[15 <- if i =? 0 then 0x9000 else 0xa000] ->
  tailRun demo_tail { demo_registered with countdown ::= fun c => if nz c then c - 1 else c } x i demo_after x.
Proof. intros Hi ->. exists 0, tailpatch_UIInitialize. destruct Hi as [-> | ->]; vm_compute; done. Qed.

(** The newest call returns; and the older one, whose place the stale entry takes. *)
Lemma tailpatch_return_exact_witness :
  (exists pd', patchOnBeforeExecute demo_tail demo_registered demo_regs.[15 <- 0xa000] = Ret (pd', demo_regs.[15 <- 0xa000]) /\
     live pd' = take 1 demo_pending) /\
  exists pd', patchOnBeforeExecute demo_tail demo_registered demo_regs.[15 <- 0x9000] = Ret (pd', demo_regs.[15 <- 0x9000]) /\
     live pd' = [demo_stale].
Proof.
  split.
  - destruct (tailpatch_return_exact demo_tail demo_registered demo_after demo_regs.[15 <- 0xa000] demo_regs.[15 <- 0xa000] 1 ltac:(split; [lia|done]) ltac:(done) (or_introl eq_refl)
      ltac:(split; [|split]; [|done|]; intros k Hk; [assert (k = 0) as -> by lia; done|cbn in Hk; lia])
      (demo_run 1 _ (or_intror eq_refl) eq_refl)) as (pd' & E & _ & El).
    exists pd'. split; [exact E|]. rewrite El. vm_compute. reflexivity.
  - destruct (tailpatch_return_exact demo_tail demo_registered demo_after demo_regs.[15 <- 0x9000] demo_regs.[15 <- 0x9000] 0 ltac:(split; [lia|done]) ltac:(done) (or_intror eq_refl)
      ltac:(split; [|split]; [|done|]; intros k Hk; [lia|cbn in Hk; lia])
      (demo_run 0 _ (or_introl eq_refl) eq_refl)) as (pd' & E & _ & El).
    exists pd'. split; [exact E|]. rewrite El. vm_compute. reflexivity.
Defined.
