(* ===== verification/CpuMem.v ===== *)
(** * Loads, stores and coprocessor transfers of the CPU (CPU.cpp)

    The CPU together with its MMU, CP15 and instruction cache is an [ArmCP15];
    [Machine] adds the dispatcher of system call patches and the coprocessors.
    Template parameters are ordinary parameters; [mode] is the bit set the
    decoder passes as one. *)

From S2P Require Import Prelude Interfaces CpuSoc Mmu Cp15 Cpu Thumb CpuAlu Patch.

Definition ARM_MODE_2_WORD := 0x10.
Definition ARM_MODE_2_LOAD := 0x20.
Definition ARM_MODE_2_T := 0x40.
Definition ARM_MODE_2_INV := 0x80.
Definition ARM_MODE_2_SYSCALL := 0x01.

Definition ARM_MODE_3_TYPE := 0x30.
Definition ARM_MODE_3_H := 0x00.
Definition ARM_MODE_3_SH := 0x10.
Definition ARM_MODE_3_SB := 0x20.
Definition ARM_MODE_3_D := 0x30.
Definition ARM_MODE_3_LOAD := 0x40.
Definition ARM_MODE_3_INV := 0x80.
Definition ARM_MDOE_3_PCREL := 0x01.

Definition ARM_MODE_4_INC := 0x10.
Definition ARM_MODE_4_BFR := 0x20.
Definition ARM_MODE_4_WBK := 0x40.

Definition ARM_MODE_5_REG := 0x0F.
Definition ARM_MODE_5_IS_OPTION := 0x10.
Definition ARM_MODE_5_RR := 0x20.

(** The parts of a translation's result. *)
Definition MMU_TRANSLATE_RESULT_OK (x : Z) : bool := negb (tst x (1 .<< 63)).
Definition MMU_TRANSLATE_RESULT_CACHEABLE (x : Z) : bool := tst x (1 .<< 62).
Definition MMU_TRANSLATE_RESULT_PA (x : Z) : Z := u32 x.
Definition MMU_TRANSLATE_RESULT_FSR (x : Z) : Z := u8 ((x .>> 32) .& 0xff).

#[export] Instance cp15_regfile {W I} : RegFile (ArmCP15 W I) := {|
  registers m := m.(cpu).(regs);
  set_register m i v := { m with cpu ::= fun c => { c with regs ::= fun r => r.[i <- v] } }
|}.

(** The functions of a coprocessor, [None] where the pointer is null; they
    answer whether the instruction is one of theirs. *)
Record ArmCoprocessor (M : Type) := mkCoprocessor {
  regXfer : option (M -> bool -> bool -> Z -> Z -> Z -> Z -> Z -> outcome (bool * M));
  dataProcessing : option (M -> bool -> Z -> Z -> Z -> Z -> Z -> outcome (bool * M));
  memAccess : option (M -> bool -> bool -> bool -> Z -> Z -> Z -> Z -> option Z -> outcome (bool * M));
  twoRegF : option (M -> bool -> Z -> Z -> Z -> Z -> outcome (bool * M))
}.
Arguments mkCoprocessor {M}.
Arguments regXfer {M}.
Arguments dataProcessing {M}.
Arguments memAccess {M}.
Arguments twoRegF {M}.

Definition noCoprocessor {M} : ArmCoprocessor M := mkCoprocessor None None None None.
#[export] Instance coprocessor_inhabited M : Inhabited (ArmCoprocessor M) := populate noCoprocessor.

Section Memory.
Context {W I : Type} `{PhysMem W} `{ICachePort I}.

Definition withCpu (m : ArmCP15 W I) (f : ArmCpu -> outcome ArmCpu) : outcome (ArmCP15 W I) :=
  c ← f m.(cpu); Ret { m with cpu := c }.

(** The value read (or written), or a fault status; [fsrP] is whether the caller
    takes the status. The status of a failed translation is stored in any case. *)
Definition cpuPrvMemOpEx (size : Z) (m : ArmCP15 W I) (buf vaddr : Z) (write priviledged fsrP : bool)
  : outcome ((Z + Z) * ArmCP15 W I) :=
  if (1 <? size) && tst vaddr (size - 1) then Ret (inl 1, m) else
  '(r, mm) ← mmuTranslate m.(mmu) vaddr priviledged write;
  let m := { m with mmu := mm } in
  if negb (MMU_TRANSLATE_RESULT_OK r)
  then (if fsrP then Ret (inl (MMU_TRANSLATE_RESULT_FSR r), m) else Undef) else
  '(ok, v, w) ← mem_access mm.(mem) (MMU_TRANSLATE_RESULT_PA r) size write buf;
  let m := { m with mmu := { mm with mem := w } } in
  Ret (if negb ok then inl 10 else inr v, m).

Definition cpuPrvMemOp (size : Z) (m : ArmCP15 W I) (buf vaddr : Z) (write priviledged : bool)
  : outcome ((Z + Z) * ArmCP15 W I) := cpuPrvMemOpEx size m buf vaddr write priviledged true.

(** An access of a coprocessor or the debugger, without a place for the status. *)
Definition cpuMemOpExternal (m : ArmCP15 W I) (buf vaddr size : Z) (write : bool)
  : outcome ((Z + Z) * ArmCP15 W I) :=
  if (size =? 1) || (size =? 2) || (size =? 4) || (size =? 8)
  then cpuPrvMemOpEx size m buf vaddr write true false else Abort.

Definition cpuPrvHandleMemErr (m : ArmCP15 W I) (addr : Z) (instrFetch : bool) (fsr : Z) : outcome (ArmCP15 W I) :=
  let m := cp15SetFaultStatus m addr fsr in
  withCpu m (fun c =>
    if instrFetch then takeException c ExcPAbt (c.(curInstrPC) + 4)
    else takeException c ExcDAbt (c.(curInstrPC) + 8)).

(** An access and the data abort when it fails. [S] is the CPU, or the CPU with
    more state, which [inj] adds. *)
Definition memOpOrAbortIn {S} (inj : ArmCP15 W I -> S) (size : Z) (m : ArmCP15 W I) (buf vaddr : Z)
    (write privileged : bool) (k : Z -> ArmCP15 W I -> outcome S) : outcome S :=
  '(r, m) ← cpuPrvMemOp size m buf vaddr write privileged;
  match r with
  | inl fsr => m ← cpuPrvHandleMemErr m vaddr false fsr; Ret (inj m)
  | inr v => k v m
  end.

Definition memOpOrAbort := memOpOrAbortIn (fun m => m).

(** [cpuPrvSetRegNotPC], [cpuPrvGetRegNotPC]. *)
Definition setReg (m : ArmCP15 W I) (reg val : Z) : ArmCP15 W I :=
  { m with cpu ::= fun c => { c with regs ::= fun r => r.[reg <- u32 val] } }.
Definition getReg (m : ArmCP15 W I) (reg : Z) : Z := m.(cpu).(regs).[reg].

(** ** Swaps and single transfers *)

Definition execFn_swb (wasT : bool) (tag : Z) (m : ArmCP15 W I) (instr : Z) (privileged : bool)
  : outcome (ArmCP15 W I) :=
  let instr := armInstr wasT instr in
  if condFails m.(cpu) instr then Ret m else
  let swap (size : Z) :=
    let ea := getReg m ((instr .>> 16) .& 0x0F) in
    memOpOrAbort size m 0 ea false privileged (fun op1 m =>
      let v := wrap (8 * size) (getReg m (instr .& 0x0F)) in
      memOpOrAbort size m v ea true privileged (fun _ m => Ret (setReg m ((instr .>> 12) .& 0x0F) op1))) in
  match tag with
  | 0 => swap 4
  | 4 => swap 1
  | _ => withCpu m (fun c => execFn_invalid wasT c instr privileged)
  end.

(** The last lines of the single transfers: the base register. *)
Definition writeBack (addBefore addAfter : bool) (reg ea increment : Z) (m : ArmCP15 W I) : outcome (ArmCP15 W I) :=
  Ret (if addAfter then setReg m reg (if addBefore then ea else ea + increment) else m).

Definition execFn_load_store_1 (wasT : bool) (mode : Z) (pc addBefore addAfter immediate negate : bool)
    (m : ArmCP15 W I) (instr : Z) (privileged : bool) : outcome (ArmCP15 W I) :=
  let instr := armInstr wasT instr in
  if condFails m.(cpu) instr then Ret m else
  let reg := (instr .>> 16) .& 0x0F in
  let increment := if immediate then ((instr .>> 4) .& 0xF0) .| (instr .& 0x0F) else getReg m (instr .& 0x0F) in
  let increment := if negate then u32 (- increment) else increment in
  let ea := getRegT wasT pc m.(cpu) reg in
  let ea := if addBefore then u32 (ea + increment) else ea in
  let rd := (instr .>> 12) .& 0x0F in
  let done := writeBack addBefore addAfter reg ea increment in
  let load (size : Z) (conv : Z -> Z) :=
    memOpOrAbort size m 0 ea false privileged (fun v m => done (setReg m rd (conv v))) in
  if tst mode ARM_MODE_3_LOAD then
    match mode .& ARM_MODE_3_TYPE with
    | 0x00 => load 2 (fun v => v)
    | 0x10 => load 2 (sgn 16)
    | 0x20 => load 1 (sgn 8)
    | _ =>
        memOpOrAbort 8 m 0 ea false privileged (fun v m =>
          if rd =? 15 then Undef (* regs[16] *)
          else done (setReg (setReg m rd (u32 v)) (rd + 1) (v .>> 32)))
    end
  else
    match mode .& ARM_MODE_3_TYPE with
    | 0x00 =>
        let v := u16 (if tst mode ARM_MDOE_3_PCREL then getRegT wasT true m.(cpu) rd else getReg m rd) in
        memOpOrAbort 2 m v ea true privileged (fun _ m => done m)
    | 0x10 | 0x20 => withCpu m (fun c => execFn_invalid wasT c instr privileged)
    | _ =>
        if rd =? 15 then Undef else
        memOpOrAbort 8 m (getReg m rd .| (getReg m (rd + 1) .<< 32)) ea true privileged (fun _ m => done m)
    end.

(** The scaled register offset of addressing mode 2. *)
Definition offsetShift (cpu : ArmCpu) (instr increment : Z) : Z :=
  let shift := (instr .>> 7) .& 0x1F in
  match (instr .>> 5) .& 3 with
  | 0 => u32 (increment .<< shift)
  | 1 => if nz shift then increment .>> shift else 0
  | 2 => u32 (sgn 32 increment .>> (if nz shift then shift else 31))
  | _ => if nz shift then cpuPrvROR increment shift
         else (increment .>> 1) .| u32 ((cpu.(flags) .& ARM_SR_C) .<< 2)
  end.

Definition Patches := PatchDispatch HeadpatchF TailpatchF.

Definition execFn_load_store_2 (wasT : bool) (mode : Z) (srcPc destPc addBefore addAfter immediate negate : bool)
    (pd : Patches) (m : ArmCP15 W I) (instr : Z) (privileged : bool) : outcome (Patches * ArmCP15 W I) :=
  let instr := armInstr wasT instr in
  if condFails m.(cpu) instr then Ret (pd, m) else
  let sourceReg := (instr .>> 16) .& 0x0F in
  let privileged := privileged && negb (tst mode ARM_MODE_2_T) in
  let increment := if immediate then instr .& 0xFFF else offsetShift m.(cpu) instr (getReg m (instr .& 0x0F)) in
  let increment := if negate then u32 (- increment) else increment in
  let ea := getRegT wasT srcPc m.(cpu) sourceReg in
  let ea := if addBefore then u32 (ea + increment) else ea in
  let destReg := (instr .>> 12) .& 0x0F in
  let done pd m := m ← writeBack addBefore addAfter sourceReg ea increment m; Ret (pd, m) in
  let memOp := memOpOrAbortIn (pair pd) in
  if tst mode ARM_MODE_2_LOAD then
    if tst mode ARM_MODE_2_WORD then
      memOp 4 m 0 ea false privileged (fun v m =>
        let offset := if addBefore then increment else 0 in
        '(pd, m) ← (if negb (tst mode ARM_MODE_2_SYSCALL) then Ret (pd, m)
                    else if destPc then patchDispatchOnLoadPcFromR12 callHeadpatch pd offset m
                    else Ret (patchDispatchOnLoadR12FromR9 pd offset, m));
        done pd { m with cpu ::= fun c => setRegT destPc c destReg v })
    else memOp 1 m 0 ea false privileged (fun v m => done pd (setReg m destReg v))
  else
    let op1 := getRegT wasT destPc m.(cpu) destReg in
    if tst mode ARM_MODE_2_WORD then memOp 4 m op1 ea true privileged (fun _ m => done pd m)
    else memOp 1 m (u8 op1) ea true privileged (fun _ m => done pd m).

Definition execFn_thumb_3_ldr (m : ArmCP15 W I) (instr : Z) (privileged : bool) : outcome (ArmCP15 W I) :=
  let pc := cpuPrvGetReg true m.(cpu) REG_NO_PC .&~ 0x03 in
  let addr := u32 (pc + ((instr .& 0xff) .<< 2)) in
  memOpOrAbort 4 m 0 addr false privileged (fun v m => Ret (setReg m ((instr .>> 8) .& 0x07) v)).

(** ** Multiple transfers *)

(** What register [regNo] is stored as; [user] selects the user mode's. *)
Definition storedReg (wasT user : bool) (cpu : ArmCpu) (regNo : Z) : Z :=
  if user && (8 <=? regNo) && (regNo <=? 12) && (cpu.(M) =? ARM_SR_MODE_FIQ) then cpu.(extra_regs).[regNo - 8]
  else if user && (regNo =? REG_NO_SP) then cpu.(bank_usr).(R13)
  else if user && (regNo =? REG_NO_LR) then cpu.(bank_usr).(R14)
  else cpuPrvGetReg wasT cpu regNo.

Definition loadUserReg (user : bool) (cpu : ArmCpu) (regNo v : Z) : ArmCpu :=
  if user && (8 <=? regNo) && (regNo <=? 12) && (cpu.(M) =? ARM_SR_MODE_FIQ)
  then { cpu with extra_regs ::= fun l => l.[regNo - 8 <- v] }
  else if user && (regNo =? REG_NO_SP) then { cpu with bank_usr ::= fun b => { b with R13 := v } }
  else if user && (regNo =? REG_NO_LR) then { cpu with bank_usr ::= fun b => { b with R14 := v } }
  else cpuPrvSetReg cpu regNo v.

(** The loop over the register indices: the registers that remain, the effective
    address and the PC loaded for a return. [inr] is the state after an abort. *)
Fixpoint multiLoop (wasT : bool) (mode : Z) (isLoad user copySPSR : bool) (instr : Z) (privileged : bool)
    (origBase : Z) (idxs : list Z) (m : ArmCP15 W I) (ea loadedPc : Z)
  : outcome ((ArmCP15 W I * Z * Z) + ArmCP15 W I) :=
  match idxs with
  | [] => Ret (inl (m, ea, loadedPc))
  | idx :: idxs =>
      let continue := multiLoop wasT mode isLoad user copySPSR instr privileged origBase idxs in
      let regNo := if tst mode ARM_MODE_4_INC then idx else 15 - idx in
      if negb (Z.testbit instr regNo) then continue m ea loadedPc else
      let step (b : bool) (ea : Z) := if b then u32 (ea + if tst mode ARM_MODE_4_INC then 4 else -4) else ea in
      let ea := step (tst mode ARM_MODE_4_BFR) ea in
      '(r, m) ← cpuPrvMemOp 4 m (if isLoad then 0 else storedReg wasT user m.(cpu) regNo) ea (negb isLoad) privileged;
      match r with
      | inl fsr =>
          m ← cpuPrvHandleMemErr m ea false fsr;
          let reg := (instr .>> 16) .& 0x0F in
          Ret (inr (if Z.testbit instr reg then { m with cpu ::= fun c => cpuPrvSetReg c reg origBase } else m))
      | inr v =>
          let ea := step (negb (tst mode ARM_MODE_4_BFR)) ea in
          if negb isLoad then continue m ea loadedPc
          else if (regNo =? REG_NO_PC) && copySPSR then continue m ea v
          else continue { m with cpu ::= fun c => loadUserReg user c regNo v } ea loadedPc
      end
  end.

Definition execFn_load_store_multi (wasT : bool) (mode : Z) (isLoad sBit : bool) (m : ArmCP15 W I) (instr : Z)
    (privileged : bool) : outcome (ArmCP15 W I) :=
  let instr := armInstr wasT instr in
  if condFails m.(cpu) instr then Ret m else
  let reg := (instr .>> 16) .& 0x0f in
  let ea := getReg m reg in
  let s := sBit && negb ((m.(cpu).(M) =? ARM_SR_MODE_USR) || (m.(cpu).(M) =? ARM_SR_MODE_SYS)) in
  let copySPSR := s && (isLoad && Z.testbit instr REG_NO_PC) in
  let user := s && negb (isLoad && Z.testbit instr REG_NO_PC) in
  r ← multiLoop wasT mode isLoad user copySPSR instr privileged ea (map Z.of_nat (seq 0 16)) m ea 0xffffffff;
  match r with
  | inr m => Ret m
  | inl (m, ea, loadedPc) =>
      let m := if tst mode ARM_MODE_4_WBK then setReg m reg ea else m in
      if copySPSR then
        withCpu m (fun c => c ← restoreSPSR c loadedPc;
          Ret { c with regs ::= fun r => r.[REG_NO_PC <- loadedPc .&~ if c.(T) then 1 else 3] })
      else Ret m
  end.

(** ** Coprocessors *)

(** The base register and mode, the offsets added before and after, the option. *)
Definition cpuPrvArmAdrMode_5 (instr : Z) : Z * Z * Z * Z :=
  let val := instr .& 0xFF in
  let reg := (instr .>> 16) .& 0x0F in
  let P := tst instr 0x01000000 in
  let W := tst instr 0x00200000 in
  let U := tst instr 0x00800000 in
  let addBefore := if P then val else 0 in
  let addAfter := if W then val else 0 in
  let option := if negb P && negb W then val else 0 in
  let reg := if negb P && negb W && negb U then reg .| ARM_MODE_5_RR else reg in
  if negb (tst reg ARM_MODE_5_IS_OPTION) && negb U
  then (reg, u32 (- addBefore), u32 (- addAfter), option) else (reg, addBefore, addAfter, option).

Context (coproc : Z -> ArmCoprocessor (ArmCP15 W I)).

(** Coprocessors 14 and 15 are for privileged code, CPAR guards the others. *)
Definition coprocAccess (cpu : ArmCpu) (cpNo : Z) (privileged : bool) : bool :=
  if 14 <=? cpNo then privileged else tst cpu.(CPAR) (1 .<< cpNo).

(** The call of a coprocessor's function, and the undefined instruction when
    there is none or it refuses. *)
Definition coprocCall (wasT : bool) (m : ArmCP15 W I) (instr : Z) (privileged : bool)
    (f : option (outcome (bool * ArmCP15 W I))) : outcome (ArmCP15 W I) :=
  let invalid (m : ArmCP15 W I) := withCpu m (fun c => execFn_invalid wasT c instr privileged) in
  match f with
  | None => invalid m
  | Some r => '(ok, m) ← r; if negb ok then invalid m else Ret m
  end.

Definition execFn_cp_mem2reg (wasT two : bool) (m : ArmCP15 W I) (instr : Z) (privileged : bool)
  : outcome (ArmCP15 W I) :=
  if condFails m.(cpu) instr then Ret m else
  let cpNo := (instr .>> 8) .& 0x0F in
  let '(mode, addBefore, addAfter, memVal8) := cpuPrvArmAdrMode_5 instr in
  coprocCall wasT m instr privileged
    (if negb (coprocAccess m.(cpu) cpNo privileged) then None
     else if tst mode ARM_MODE_5_RR then
       f ← (coproc cpNo).(twoRegF);
       Some (f m (tst instr 0x00100000) ((instr .>> 4) .& 0x0F) ((instr .>> 12) .& 0x0F) ((instr .>> 16) .& 0x0F)
               (instr .& 0x0F))
     else
       f ← (coproc cpNo).(memAccess);
       Some (f m two (tst instr 0x00400000) (negb (tst instr 0x00100000)) ((instr .>> 12) .& 0x0F)
               (mode .& ARM_MODE_5_REG) addBefore addAfter
               (if tst mode ARM_MODE_5_IS_OPTION then Some memVal8 else None))).

Definition execFn_cp_dp (wasT two : bool) (m : ArmCP15 W I) (instr : Z) (privileged : bool) : outcome (ArmCP15 W I) :=
  if condFails m.(cpu) instr then Ret m else
  let cpNo := (instr .>> 8) .& 0x0F in
  coprocCall wasT m instr privileged
    (if negb (coprocAccess m.(cpu) cpNo privileged) then None
     else if tst instr 0x00000010 then
       f ← (coproc cpNo).(regXfer);
       Some (f m two (tst instr 0x00100000) ((instr .>> 21) .& 0x07) ((instr .>> 12) .& 0x0F)
               ((instr .>> 16) .& 0x0F) (instr .& 0x0F) ((instr .>> 5) .& 0x07))
     else
       f ← (coproc cpNo).(dataProcessing);
       Some (f m two ((instr .>> 20) .& 0x0F) ((instr .>> 12) .& 0x0F) ((instr .>> 16) .& 0x0F) (instr .& 0x0F)
               ((instr .>> 5) .& 0x07))).
End Memory.
