(* ===== verification/CpuAbort.v ===== *)
(** * Data aborts of single transfers

    A transfer whose access fails enters the data abort with the registers it
    started with, so that the handler can map the page and run it again. *)

From S2P Require Import Prelude Interfaces CpuSoc Mmu Cp15 Cpu Thumb CpuAlu Patch CpuMem.

(** The transfers of one register, or register pair. *)
Inductive Transfer :=
| TSwap (tag : Z)
| TLoadStore1 (mode : Z) (pc addBefore addAfter immediate negate : bool)
| TLoadStore2 (mode : Z) (srcPc destPc addBefore addAfter immediate negate : bool)
| TThumbLdr.

Section Abort.
Context {W I : Type} `{PhysMem W} `{ICachePort I}.
Implicit Types m : ArmCP15 W I.

Definition runTransfer (wasT : bool) (t : Transfer) (pd : Patches) (m : ArmCP15 W I) (instr : Z) (privileged : bool)
  : outcome (Patches * ArmCP15 W I) :=
  let keep r := m ← r; Ret (pd, m) in
  match t with
  | TSwap tag => keep (execFn_swb wasT tag m instr privileged)
  | TLoadStore1 mode pc b a i n => keep (execFn_load_store_1 wasT mode pc b a i n m instr privileged)
  | TLoadStore2 mode s d b a i n => execFn_load_store_2 wasT mode s d b a i n pd m instr privileged
  | TThumbLdr => keep (execFn_thumb_3_ldr m instr privileged)
  end.

(** What holds of the result when there is one. *)
Definition post {A} (P : A -> Prop) (r : outcome A) : Prop := match r with Ret a => P a | _ => True end.

Lemma post_bind {A B} (P : B -> Prop) (r : outcome A) (f : A -> outcome B) :
  post (fun a => post P (f a)) r -> post P (a ← r; f a).
Proof. by destruct r. Qed.

Lemma post_impl {A} (P Q : A -> Prop) r : (forall a, P a -> Q a) -> post P r -> post Q r.
Proof. destruct r; cbn; auto. Qed.

(** An access changes neither registers nor mode. *)
Lemma memOp_cpu size m buf va w p : post (fun x => (snd x).(cpu) = m.(cpu)) (cpuPrvMemOp size m buf va w p).
Proof.
  unfold cpuPrvMemOp, cpuPrvMemOpEx. destruct (_ && _); [done|]. apply post_bind.
  destruct (mmuTranslate _ _ _ _) as [[r mm]| | |]; cbn [post]; try done.
  destruct (negb _); [by destruct m|]. apply post_bind.
  destruct (mem_access _ _ _ _ _) as [[[ok v] w']| | |]; done.
Qed.

(** How a transfer ends: in the mode it began, or in an exception entered from
    the state it began with. *)
Definition ends (c c' : ArmCpu) : Prop :=
  c'.(M) = c.(M) \/
  takeException c ExcDAbt (c.(curInstrPC) + 8) = Ret c' \/
  exists lr, takeException c ExcUnd lr = Ret c'.

Lemma handle_ends m a fsr : post (fun m' => ends m.(cpu) m'.(cpu)) (cpuPrvHandleMemErr m a false fsr).
Proof.
  unfold cpuPrvHandleMemErr, withCpu. replace (cpu (cp15SetFaultStatus m a fsr)) with m.(cpu) by (by destruct m).
  destruct (takeException _ _ _) as [c| | |] eqn:E; cbn; try done. right. left. rewrite E. by destruct m.
Qed.

Lemma memOpOrAbort_ends {S} (inj : ArmCP15 W I -> S) (P : S -> Prop) size m buf va w p k :
  (forall m', ends m.(cpu) m'.(cpu) -> P (inj m')) ->
  (forall v m', m'.(cpu) = m.(cpu) -> post P (k v m')) ->
  post P (memOpOrAbortIn inj size m buf va w p k).
Proof.
  intros Hinj Hk. unfold memOpOrAbortIn. apply post_bind.
  pose proof (memOp_cpu size m buf va w p) as Hc. destruct (cpuPrvMemOp _ _ _ _ _ _) as [[[fsr|v] m1]| | |]; cbn [post] in *; try done.
  - apply post_bind. eapply post_impl; [|apply handle_ends]. intros m2 E. apply Hinj. cbn [snd] in Hc. by rewrite <- Hc.
  - by apply Hk.
Qed.

Lemma setReg_M m r v : (setReg m r v).(cpu).(M) = m.(cpu).(M).
Proof. by destruct m as [[]]. Qed.

Lemma setRegT_M b c r v : (setRegT b c r v).(M) = c.(M).
Proof. by destruct b, c. Qed.

Lemma invalid_ends wasT m instr p :
  post (fun m' => ends m.(cpu) m'.(cpu)) (withCpu m (fun c => execFn_invalid wasT c instr p)).
Proof.
  unfold withCpu, execFn_invalid. destruct (takeException _ _ _) as [c| | |] eqn:E; cbn; try done.
  right. right. eexists. rewrite E. by destruct m.
Qed.

Lemma writeBack_ends c b a r ea i m : m.(cpu).(M) = c.(M) -> post (fun m' => ends c m'.(cpu)) (writeBack b a r ea i m).
Proof. intros E. left. destruct a; [by rewrite setReg_M|done]. Qed.

(** Every way a transfer's code continues after its access keeps the mode. *)
Ltac ends_step :=
  first
    [ apply writeBack_ends
    | apply invalid_ends
    | match goal with |- post _ (memOpOrAbortIn _ _ _ _ _ _ _ _) => apply memOpOrAbort_ends; [done|] | |- post _ (_ ≫= _) => apply post_bind end
    | match goal with |- post _ (if ?b then _ else _) => destruct b end
    | match goal with |- post _ (match ?x with _ => _ end) => destruct x end
    | exact Logic.I
    | progress intros ].

Lemma swb_ends wasT tag m instr p :
  post (fun m' => ends m.(cpu) m'.(cpu)) (execFn_swb wasT tag m instr p).
Proof.
  unfold execFn_swb, memOpOrAbort. cbv zeta. destruct (condFails _ _); [by left|].
  assert (G : forall size ea, post (fun m' : ArmCP15 W I => ends m.(cpu) m'.(cpu))
    (memOpOrAbortIn (fun m => m) size m 0 ea false p (fun op1 m =>
      memOpOrAbortIn (fun m => m) size m (wrap (8 * size) (getReg m (armInstr wasT instr .& 0x0F))) ea true p
        (fun _ m => Ret (setReg m ((armInstr wasT instr .>> 12) .& 0x0F) op1))))).
  { intros size ea. apply memOpOrAbort_ends; [done|]. intros v m1 E1. apply memOpOrAbort_ends.
    - intros m' He. by rewrite <- E1.
    - intros v2 m2 E2. left. by rewrite setReg_M, E2, E1. }
  destruct tag as [|q|q]; [apply G| |apply invalid_ends].
  do 3 (destruct q as [q|q|]; try apply invalid_ends). apply G.
Qed.

Lemma load_store_1_ends wasT mode pc b a i n m instr p :
  post (fun m' => ends m.(cpu) m'.(cpu)) (execFn_load_store_1 wasT mode pc b a i n m instr p).
Proof.
  unfold execFn_load_store_1, memOpOrAbort. cbv zeta. destruct (condFails _ _); [by left|].
  repeat ends_step. all: rewrite ?setReg_M; try congruence.
Qed.

(** A head patch writes registers only. *)
Lemma headpatch_M f m sys : post (fun m' : ArmCP15 W I => m'.(cpu).(M) = m.(cpu).(M)) (callHeadpatch f m sys).
Proof. destruct f, m as [[]]. done. Qed.

Lemma onLoadPc_M (pd : Patches) off m :
  post (fun r => (snd r).(cpu).(M) = m.(cpu).(M)) (patchDispatchOnLoadPcFromR12 callHeadpatch pd off m).
Proof.
  unfold patchDispatchOnLoadPcFromR12. cbv zeta. repeat case_match; try done.
  all: apply post_bind; try (eapply post_impl; [|apply headpatch_M]; intros m' E); cbn [post]; repeat case_match; cbn; congruence.
Qed.

Lemma load_store_2_ends wasT mode s d b a i n (pd : Patches) m instr p :
  post (fun r => ends m.(cpu) (snd r).(cpu)) (execFn_load_store_2 wasT mode s d b a i n pd m instr p).
Proof.
  unfold execFn_load_store_2. cbv zeta. destruct (condFails _ _); [by left|].
  assert (G : forall pd' m' reg ea inc, m'.(cpu).(M) = m.(cpu).(M) ->
    post (fun r : Patches * ArmCP15 W I => ends m.(cpu) (snd r).(cpu))
      (m0 ← writeBack b a reg ea inc m'; Ret (pd', m0))) by (intros; apply post_bind; by apply writeBack_ends).
  repeat match goal with |- post _ (if ?b then _ else _) => destruct b end.
  all: apply memOpOrAbort_ends; [done|]; intros v m1 E1; try (apply G; rewrite ?setReg_M; congruence).
  all: try (apply G; rewrite E1; cbn; by rewrite setRegT_M).
  apply post_bind. apply (post_impl (fun r : Patches * ArmCP15 W I => (snd r).(cpu).(M) = m.(cpu).(M))).
  - intros [pd' m2] E. apply G. cbn [snd] in E. rewrite <- E. destruct m2. cbn. apply setRegT_M.
  - rewrite <- E1. destruct (negb _); [done|]. destruct d; [apply onLoadPc_M|done].
Qed.

Lemma transfer_ends wasT t pd m instr p :
  post (fun r => ends m.(cpu) (snd r).(cpu)) (runTransfer wasT t pd m instr p).
Proof.
  destruct t; cbn [runTransfer]; try apply post_bind; [apply swb_ends|apply load_store_1_ends|apply load_store_2_ends|].
  unfold execFn_thumb_3_ldr, memOpOrAbort. cbv zeta. apply memOpOrAbort_ends; [done|].
  intros v m1 E. cbn [post snd]. left. by rewrite setReg_M, E.
Qed.
End Abort.

(** C7. A load, store or swap of one register or pair that takes a data abort
    can be run again: the handler that returns to LR - 8 finds the processor as
    before the instruction - status register, mode, every register of every mode
    but the link register of the abort mode, and the program counter at the
    instruction - whatever the access did, write-back included. *)
Theorem abort_restartable {W I} `{PhysMem W} `{ICachePort I} wasT t (pd pd' : Patches) (m m' : ArmCP15 W I) instr privileged :
  cpu_wf m.(cpu) -> is_u 32 m.(cpu).(curInstrPC) ->
  runTransfer wasT t pd m instr privileged = Ret (pd', m') ->
  m.(cpu).(M) <> ARM_SR_MODE_ABT -> m'.(cpu).(M) = ARM_SR_MODE_ABT ->
  exists c, restoreSPSR m'.(cpu) (u32 (modeReg m'.(cpu) ARM_SR_MODE_ABT 14 - 8)) = Ret c /\
    cpuPrvMaterializeCPSR c = cpuPrvMaterializeCPSR m.(cpu) /\ c.(M) = m.(cpu).(M) /\
    c.(regs).[15] = m.(cpu).(curInstrPC) /\
    forall mode r, mode ∈ modes -> 0 <= r < 15 -> ~ (mode = ARM_SR_MODE_ABT /\ r = 14) ->
      modeReg c mode r = modeReg m.(cpu) mode r.
Proof.
  intros Hwf Hpc E Hm Hm'. pose proof (transfer_ends wasT t pd m instr privileged) as G. rewrite E in G. cbn [post snd] in G.
  destruct G as [G|[G|(lr & G)]].
  - congruence.
  - destruct (exception_return m.(cpu) ExcDAbt (m.(cpu).(curInstrPC) + 8) m.(cpu).(curInstrPC) Hwf)
      as (c1 & c2 & E1 & E2 & R1 & R2 & R3 & R4).
    rewrite G in E1. injection E1 as <-. exists c2.
    destruct (takeException_entered m.(cpu) ExcDAbt (m.(cpu).(curInstrPC) + 8) Hwf) as (c1 & E1 & En).
    rewrite G in E1. injection E1 as <-. split.
    + rewrite <- E2. f_equal. rewrite (en_lr _ _ _ _ En : modeReg m'.(cpu) ARM_SR_MODE_ABT 14 = _).
      unfold wrap. rewrite Zminus_mod_idemp_l. replace (_ + 8 - 8) with m.(cpu).(curInstrPC) by lia. by apply Z.mod_small.
    + do 3 (split; [done|]). intros mode r Hmo Hr Hne. apply R4; [done|done|]. intros [Hb ->]. apply Hne. split; [|done].
      apply (same_bank ARM_SR_MODE_ABT mode);
        [exact (proj1 (excMode_mode ExcDAbt))|done|by rewrite Hb|exact (proj2 (excMode_mode ExcDAbt))].
  - destruct (takeException_entered m.(cpu) ExcUnd lr Hwf) as (c1 & E1 & En). rewrite G in E1. injection E1 as <-.
    rewrite (en_mode _ _ _ _ En) in Hm'. done.
Qed.

(** A user program at 0x8000 that loads from an address that is not there. *)
Definition demo_machine : ArmCP15 (Z -> option Z) unit :=
  { demo_cp15 with cpu := { demo_user with curInstrPC := 0x8000; regs ::= fun r => r.[1 <- 0x5000] };
                   mmu := mmuInit (fun _ => None) true }.

(** [LDR R0, [R1], #4] *)
Lemma abort_restartable_witness :
  exists pd' m' c, runTransfer false (TLoadStore2 (ARM_MODE_2_LOAD .| ARM_MODE_2_WORD) false false false true true false)
      initPatchDispatch demo_machine 0xe4910004 false = Ret (pd', m') /\ m'.(FAR) = 0x5000 /\
    restoreSPSR m'.(cpu) (u32 (modeReg m'.(cpu) ARM_SR_MODE_ABT 14 - 8)) = Ret c /\ c.(regs).[15] = 0x8000 /\
    modeReg c ARM_SR_MODE_USR 1 = 0x5000.
Proof.
  eexists _, _. assert (Hwf : cpu_wf demo_machine.(cpu)) by (split; [done|done|vm_compute; set_solver|by exists 0]).
  epose proof (abort_restartable false (TLoadStore2 (ARM_MODE_2_LOAD .| ARM_MODE_2_WORD) false false false true true false)
    initPatchDispatch _ demo_machine _ 0xe4910004 false Hwf ltac:(by vm_compute) ltac:(reflexivity) ltac:(done) ltac:(reflexivity))
    as (c & E & _ & _ & Hpc & Hr).
  exists c. split; [reflexivity|]. split; [reflexivity|]. split; [exact E|]. split; [exact Hpc|].
  rewrite Hr; [reflexivity|vm_compute; set_solver|lia|]. intros [? _]. done.
Defined.

(** ** Multiple transfers *)

Lemma setReg_wf c r v : cpu_wf c -> cpu_wf (cpuPrvSetReg c r v).
Proof.
  intros [Hr He Hm Hf]. unfold cpuPrvSetReg, cpuPrvSetPC. destruct c; cbn in *.
  destruct (_ =? _); split; cbn; rewrite ?length_aset; done.
Qed.

Lemma cpuPrvSetReg_M c r v : (cpuPrvSetReg c r v).(M) = c.(M).
Proof. unfold cpuPrvSetReg, cpuPrvSetPC. destruct c. by destruct (_ =? _). Qed.

(** Where the loop ends when it stores or loads the current mode's registers. *)
Definition multiEnd {W I} (c : ArmCpu) (base origBase : Z) (r : (ArmCP15 W I * Z * Z) + ArmCP15 W I) : Prop :=
  match r with
  | inl (m', _, _) => cpu_wf m'.(cpu) /\ m'.(cpu).(M) = c.(M)
  | inr m' => m'.(cpu).(M) = ARM_SR_MODE_ABT /\ m'.(cpu).(regs).[base] = origBase
  end.

Lemma multiLoop_ends {W I} `{PhysMem W} `{ICachePort I} wasT mode isLoad instr p origBase idxs :
  forall (m : ArmCP15 W I) ea lp,
  let base := bits instr 19 16 in
  cpu_wf m.(cpu) -> Z.testbit instr base = true -> 13 <= base < 15 ->
  post (multiEnd m.(cpu) base origBase) (multiLoop wasT mode isLoad false false instr p origBase idxs m ea lp).
Proof.
  induction idxs as [|idx idxs IH]; intros m ea lp base Hwf Hin Hb; [by split|].
  cbn [multiLoop]. cbv zeta. destruct (negb (Z.testbit _ _)); [by apply IH|]. apply post_bind.
  set (buf := if isLoad then _ else _). set (a := if tst mode _ then _ else _). clearbody buf a.
  pose proof (memOp_cpu 4 m buf a (negb isLoad) p) as Hc.
  destruct (cpuPrvMemOp _ _ _ _ _ _) as [[[fsr|v] m1]| | |]; cbn [post snd] in *; try done.
  - unfold cpuPrvHandleMemErr, withCpu. replace (cpu (cp15SetFaultStatus m1 a fsr)) with m.(cpu) by (rewrite <- Hc; by destruct m1).
    destruct (takeException_entered m.(cpu) ExcDAbt (m.(cpu).(curInstrPC) + 8) Hwf) as (c & -> & En).
    cbn [mbind outcome_bind post]. change (instr .>> 16 .& 15) with base. rewrite Hin.
    match goal with |- multiEnd _ _ _ (inr ?x) => set (m3 := x) end.
    assert (E3 : m3.(cpu) = cpuPrvSetReg c base origBase) by (subst m3; by destruct m1). clearbody m3.
    split; rewrite E3; [rewrite cpuPrvSetReg_M; exact (en_mode _ _ _ _ En)|].
    unfold cpuPrvSetReg, REG_NO_PC. rewrite (proj2 (Z.eqb_neq base 15)) by lia.
    pose proof (cw_regs _ (en_wf _ _ _ _ En)). destruct c; cbn in *. apply aget_aset_eq. lia.
  - rewrite <- Hc in Hwf |- *. destruct (negb isLoad); [by apply IH|]. rewrite andb_false_r.
    match goal with |- post _ (multiLoop _ _ _ _ _ _ _ _ _ ?x _ _) => set (m2 := x) end.
    assert (E2 : m2.(cpu) = cpuPrvSetReg m1.(cpu) (if tst mode ARM_MODE_4_INC then idx else 15 - idx) v)
      by (subst m2; by destruct m1). clearbody m2.
    eapply post_impl; [|apply IH; [rewrite E2; by apply setReg_wf|done|done]].
    intros [[[m3 ea3] lp3]|m3]; cbn [multiEnd]; [|done]. by rewrite E2, cpuPrvSetReg_M.
Qed.

(** A multiple transfer that aborts restores its base register too late:
    after the switch to the abort mode. With the stack pointer or the link
    register as base, and in the list, it is the abort mode's stack pointer or
    return address that gets the value, whatever they were. *)
Theorem multi_abort_base_in_wrong_bank {W I} `{PhysMem W} `{ICachePort I} wasT mode isLoad (m m' : ArmCP15 W I) instr privileged :
  let i := armInstr wasT instr in
  let base := bits i 19 16 in
  cpu_wf m.(cpu) -> base = 13 \/ base = 14 -> Z.testbit i base = true -> m.(cpu).(M) <> ARM_SR_MODE_ABT ->
  execFn_load_store_multi wasT mode isLoad false m instr privileged = Ret m' -> m'.(cpu).(M) = ARM_SR_MODE_ABT ->
  modeReg m'.(cpu) ARM_SR_MODE_ABT base = m.(cpu).(regs).[base].
Proof.
  intros i base Hwf Hb Hin HM E Ha. unfold execFn_load_store_multi in E. cbv zeta in E. fold i in E.
  destruct (condFails _ _); [injection E as <-; congruence|]. cbn [andb] in E.
  change (i .>> 16 .& 15) with base in E.
  pose proof (multiLoop_ends wasT mode isLoad i privileged (getReg m base) (map Z.of_nat (seq 0 16)) m (getReg m base)
    0xffffffff Hwf Hin ltac:(lia)) as G. fold base in G.
  destruct (multiLoop _ _ _ _ _ _ _ _ _ _ _ _) as [[[[m3 ea] lp]|m3]| | |]; cbn [mbind outcome_bind post multiEnd] in *; try done.
  - destruct G as [_ G]. injection E as <-. exfalso. apply HM. rewrite <- G, <- Ha. destruct (tst mode _); [|done]. by rewrite setReg_M.
  - destruct G as [G1 G2]. injection E as <-. unfold modeReg. rewrite G1, bool_decide_eq_true_2 by done.
    destruct Hb as [-> | ->]; exact G2.
Qed.

(** [LDMIA SP, {R0, SP}] with nothing at the stack pointer. *)
Lemma multi_abort_base_in_wrong_bank_witness :
  exists m', execFn_load_store_multi false ARM_MODE_4_INC true false demo_machine 0xe89d2001 false = Ret m' /\
    modeReg demo_machine.(cpu) ARM_SR_MODE_ABT 13 = 0 /\ modeReg m'.(cpu) ARM_SR_MODE_ABT 13 = 0x1000.
Proof.
  assert (Hwf : cpu_wf demo_machine.(cpu)) by (split; [done|done|vm_compute; set_solver|by exists 0]).
  eexists. split; [reflexivity|]. split; [reflexivity|].
  erewrite (multi_abort_base_in_wrong_bank false ARM_MODE_4_INC true demo_machine _ 0xe89d2001 false Hwf (or_introl eq_refl));
    [reflexivity|done|done|reflexivity|reflexivity].
Defined.

(** An access of a coprocessor or the debugger to an address that does not
    translate stores the fault status through a null pointer. *)
Lemma external_access_unmapped {W I} `{PhysMem W} `{ICachePort I} (m : ArmCP15 W I) (buf va size r : Z) (write : bool) mm
    (Hsize : size = 1 \/ size = 2 \/ size = 4 \/ size = 8) (Hal : va mod size = 0)
    (Htr : mmuTranslate m.(mmu) va true write = Ret (r, mm)) (Hbad : MMU_TRANSLATE_RESULT_OK r = false) :
  cpuMemOpExternal m buf va size write = Undef.
Proof.
  assert (((1 <? size) && tst va (size - 1)) = false) as Ea.
  { apply andb_false_iff. right. apply tst_false.
    destruct Hsize as [-> | [-> | [-> | ->]]];
    [change (1 - 1) with (2 ^ 0 - 1)|change (2 - 1) with (2 ^ 1 - 1)|change (4 - 1) with (2 ^ 2 - 1)|change (8 - 1) with (2 ^ 3 - 1)];
    by rewrite land_low. }
  unfold cpuMemOpExternal, cpuPrvMemOpEx. rewrite Ea, Htr. cbn [mbind outcome_bind]. rewrite Hbad.
  by destruct Hsize as [-> | [-> | [-> | ->]]].
Qed.
