(* ===== verification/CpuStack.v ===== *)
(** * Multiple transfers as stack operations

    A multiple transfer visits its registers upwards or downwards; with memory
    that behaves as words ([WordMem]) and the MMU off, a store and the load of
    the opposite direction are a push and a pop. *)

From S2P Require Import Prelude Bytes Interfaces CpuSoc Mmu Cp15 Cpu Thumb CpuAlu Patch CpuMem Ram.

(** The mode the decoder passes, with write-back. *)
Definition multiMode (inc bfr : bool) : Z :=
  ARM_MODE_4_WBK .| (if inc then ARM_MODE_4_INC else 0) .| (if bfr then ARM_MODE_4_BFR else 0).

Definition direction (inc : bool) : Z := if inc then 4 else -4.

(** The registers of the list [instr] in the order they are transferred. *)
Definition visited (inc : bool) (instr : Z) (idxs : list Z) : list Z :=
  List.filter (Z.testbit instr) (map (fun idx => if inc then idx else 15 - idx) idxs).

(** The address of the [k]-th transferred register. *)
Definition slot (inc bfr : bool) (ea : Z) (k : nat) : Z :=
  u32 (ea + (if bfr then direction inc else 0) + Z.of_nat k * direction inc).

Lemma mode_bits inc bfr :
  tst (multiMode inc bfr) ARM_MODE_4_INC = inc /\ tst (multiMode inc bfr) ARM_MODE_4_BFR = bfr /\
  tst (multiMode inc bfr) ARM_MODE_4_WBK = true.
Proof. by destruct inc, bfr. Qed.

Lemma slot_S inc bfr ea k : slot inc bfr (u32 (ea + direction inc)) k = slot inc bfr ea (S k).
Proof. unfold slot. rewrite Nat2Z.inj_succ. unfold wrap. destruct bfr, inc; cbn [direction]; zdiv_lia. Qed.

Lemma slot_0 inc bfr ea : is_u 32 ea -> slot inc bfr ea 0 = if bfr then u32 (ea + direction inc) else ea.
Proof. intros He. unfold slot. destruct bfr; [f_equal; lia|]. rewrite wrap_small; [lia|]. by replace (ea + 0 + Z.of_nat 0 * direction inc) with ea by lia. Qed.

Lemma slot_inj inc bfr ea j k : (j < 16)%nat -> (k < 16)%nat -> slot inc bfr ea j = slot inc bfr ea k -> j = k.
Proof.
  intros Hj Hk E. unfold slot, wrap in E. apply Nat2Z.inj. destruct inc; cbn [direction] in E; zdiv_lia.
Qed.

(** The opposite transfer, started where the first one ended, visits the same
    addresses in reverse. *)
Lemma slot_reverse inc bfr ea n j :
  (j < n)%nat ->
  slot (negb inc) (negb bfr) (u32 (ea + Z.of_nat n * direction inc)) j = slot inc bfr ea (n - 1 - j).
Proof.
  intros Hj. unfold slot. rewrite !Nat2Z.inj_sub by lia. unfold wrap. change (Z.of_nat 1) with 1.
  destruct inc, bfr; cbn [negb direction]; rewrite <- !Z.add_assoc, Zplus_mod_idemp_l; f_equal; lia.
Qed.

Section Stack.
Context {W I : Type} `{WordMem W} `{ICachePort I}.
Implicit Types m : ArmCP15 W I.

Definition withMem (m : ArmCP15 W I) (w : W) : ArmCP15 W I := { m with mmu ::= fun mm => { mm with mem := w } }.

Record plain (m : ArmCP15 W I) : Prop := {
  pl_off : m.(mmu).(transTablPA) = MMU_DISABLED_TTP;
  pl_words : words_wf m.(mmu).(mem)
}.

Lemma memOp_off m buf a write p v :
  plain m -> word_at m.(mmu).(mem) a = Some v ->
  cpuPrvMemOp 4 m buf a write p =
  ('(ok, v, w) ← mem_access m.(mmu).(mem) a 4 write buf; Ret (if negb ok then inl 10 else inr v, withMem m w)).
Proof.
  intros [Hoff Hw] E. destruct (word_aligned _ _ _ Hw E) as (Hv & Ha & Hal).
  unfold cpuPrvMemOp, cpuPrvMemOpEx. replace (tst a (4 - 1)) with false.
  2:{ symmetry. apply tst_false. change (4 - 1) with (2 ^ 2 - 1). by rewrite land_low. }
  cbn [andb Z.ltb Z.compare Pos.compare Pos.compare_cont]. unfold mmuTranslate. rewrite Hoff, Z.eqb_refl. cbn [mbind outcome_bind].
  unfold MMU_TRANSLATE_RESULT_OK, MMU_TRANSLATE_RESULT_PA. rewrite (wrap_small 32 a) by done.
  replace (tst a (1 .<< 63)) with false; [by destruct m|]. symmetry. change (1 .<< 63) with (2 ^ 63). rewrite tst_bit by done.
  by apply (testbit_above 32).
Qed.

Lemma memOp_read m buf a p v :
  plain m -> word_at m.(mmu).(mem) a = Some v -> cpuPrvMemOp 4 m buf a false p = Ret (inr v, m).
Proof.
  intros Hp E. rewrite (memOp_off _ _ _ _ _ v) by done. rewrite (word_read _ _ v) by (apply Hp || done).
  by destruct m as [? [] ? ? ? ? ? ? ? ? ? ? ? ?].
Qed.

Lemma memOp_write m a p v v' :
  plain m -> word_at m.(mmu).(mem) a = Some v -> is_u 32 v' ->
  exists w', cpuPrvMemOp 4 m v' a true p = Ret (inr v', withMem m w') /\ words_wf w' /\
    forall a', word_at w' a' = if a =? a' then Some v' else word_at m.(mmu).(mem) a'.
Proof.
  intros Hp E Hv. destruct (word_write _ _ _ v' (pl_words _ Hp) E Hv) as (w' & Ew & Hw & Hr).
  exists w'. rewrite (memOp_off _ _ _ _ _ v) by done. by rewrite Ew.
Qed.

Lemma withMem_facts m w :
  (withMem m w).(cpu) = m.(cpu) /\ (withMem m w).(mmu).(mem) = w /\
  (withMem m w).(mmu).(transTablPA) = m.(mmu).(transTablPA) /\ (forall w', withMem (withMem m w) w' = withMem m w').
Proof. by destruct m as [? [] ? ? ? ? ? ? ? ? ? ? ? ?]. Qed.

Definition last_ea (inc : bool) (ea : Z) (n : nat) : Z := u32 (ea + Z.of_nat n * direction inc).

(** The loop of a store: every listed register goes to its slot. *)
Lemma store_loop wasT inc bfr user instr p base idxs : forall m ea lp,
  let rs := visited inc instr idxs in
  plain m -> is_u 32 ea -> (length rs <= 16)%nat ->
  (forall r, r ∈ rs -> is_u 32 (storedReg wasT user m.(cpu) r)) ->
  (forall k, (k < length rs)%nat -> is_Some (word_at m.(mmu).(mem) (slot inc bfr ea k))) ->
  exists w', multiLoop wasT (multiMode inc bfr) false user false instr p base idxs m ea lp =
      Ret (inl (withMem m w', last_ea inc ea (length rs), lp)) /\ words_wf w' /\
    (forall k r, rs !! k = Some r -> word_at w' (slot inc bfr ea k) = Some (storedReg wasT user m.(cpu) r)) /\
    (forall a, (forall k, (k < length rs)%nat -> slot inc bfr ea k <> a) -> word_at w' a = word_at m.(mmu).(mem) a).
Proof.
  destruct (mode_bits inc bfr) as (B1 & B2 & _).
  induction idxs as [|idx idxs IH]; intros m ea lp; cbv zeta; intros Hp Hea Hlen Hreg Hs.
  { exists m.(mmu).(mem). split; [|split; [apply Hp|split; [by intros k r|done]]].
    cbn. unfold last_ea. rewrite Z.mul_0_l, Z.add_0_r, wrap_small by done.
    by destruct m as [? [] ? ? ? ? ? ? ? ? ? ? ? ?]. }
  cbn [multiLoop]. cbv zeta. rewrite B1, B2. unfold visited in Hlen, Hreg, Hs |- *. cbn [map List.filter] in *.
  set (r := if inc then idx else 15 - idx) in *. fold (visited inc instr idxs) in *.
  destruct (Z.testbit instr r); cbn [negb]; [|by apply IH].
  cbn [length] in *. fold (direction inc).
  destruct (Hs O ltac:(lia)) as [v Ev]. rewrite slot_0 in Ev by done.
  destruct (memOp_write m _ p v (storedReg wasT user m.(cpu) r) Hp Ev (Hreg r ltac:(left))) as (w1 & Ew & Hw1 & Hr1).
  rewrite Ew. cbn [mbind outcome_bind negb]. clear Ew.
  destruct (withMem_facts m w1) as (F1 & F2 & F3 & F4).
  replace (if negb bfr then _ else _) with (u32 (ea + direction inc)) by (by destruct bfr).
  destruct (IH (withMem m w1) (u32 (ea + direction inc)) lp) as (w' & E & Hw' & Hin & Hout).
  - split; [rewrite F3; apply Hp|by rewrite F2].
  - by apply wrap_is_u.
  - lia.
  - rewrite F1. intros r' Hr'. apply Hreg. by right.
  - intros k Hk. rewrite F2, slot_S, Hr1. destruct (_ =? _); [by eexists|]. apply Hs. lia.
  - rewrite F1, F2 in *. exists w'. rewrite E, F4. split; [|split; [done|split]].
    + do 3 f_equal. unfold last_ea. rewrite u32_add_assoc, Nat2Z.inj_succ. by rewrite Z.mul_succ_l, (Z.add_comm _ (direction inc)).
    + intros [|k] r' Er; cbn in Er.
      * injection Er as <-. rewrite Hout.
        -- by rewrite Hr1, slot_0, Z.eqb_refl by done.
        -- intros k Hk Ek. rewrite slot_S in Ek. apply slot_inj in Ek; lia.
      * rewrite <- slot_S. by apply Hin.
    + intros a Ha. rewrite Hout, Hr1.
      * rewrite <- slot_0 by done. rewrite (proj2 (Z.eqb_neq _ _)); [done|]. apply Ha. lia.
      * intros k Hk. rewrite slot_S. apply Ha. lia.
Qed.

(** The CPU after the registers [rs] were loaded with [val 0], [val 1], ... *)
Fixpoint loadAll (user : bool) (val : nat -> Z) (rs : list Z) (c : ArmCpu) : ArmCpu :=
  match rs with
  | [] => c
  | r :: rs => loadAll user (fun k => val (S k)) rs (loadUserReg user c r (val O))
  end.

Lemma load_loop wasT inc bfr user instr p base idxs : forall m ea lp val,
  let rs := visited inc instr idxs in
  plain m -> is_u 32 ea ->
  (forall k, (k < length rs)%nat -> word_at m.(mmu).(mem) (slot inc bfr ea k) = Some (val k)) ->
  multiLoop wasT (multiMode inc bfr) true user false instr p base idxs m ea lp =
  Ret (inl ({ m with cpu ::= loadAll user val rs }, last_ea inc ea (length rs), lp)).
Proof.
  destruct (mode_bits inc bfr) as (B1 & B2 & _).
  induction idxs as [|idx idxs IH]; intros m ea lp val; cbv zeta; intros Hp Hea Hs.
  { cbn. unfold last_ea. rewrite Z.mul_0_l, Z.add_0_r, wrap_small by done. by destruct m. }
  cbn [multiLoop]. cbv zeta. rewrite B1, B2. unfold visited in Hs |- *. cbn [map List.filter] in *.
  set (r := if inc then idx else 15 - idx) in *. fold (visited inc instr idxs) in *.
  destruct (Z.testbit instr r); cbn [negb]; [|by apply IH].
  cbn [length loadAll] in *. fold (direction inc).
  pose proof (Hs O ltac:(lia)) as Ev. rewrite slot_0 in Ev by done.
  rewrite (memOp_read m 0 _ p _ Hp Ev). cbn [mbind outcome_bind negb]. rewrite andb_false_r.
  replace (if negb bfr then _ else _) with (u32 (ea + direction inc)) by (by destruct bfr).
  rewrite (IH _ _ _ (fun k => val (S k))).
  - do 3 f_equal. f_equal. unfold last_ea. rewrite u32_add_assoc, Nat2Z.inj_succ.
    by rewrite Z.mul_succ_l, (Z.add_comm _ (direction inc)).
  - destruct m; split; apply Hp.
  - by apply wrap_is_u.
  - intros k Hk. rewrite slot_S. rewrite <- (Hs (S k)) by lia. by destruct m.
Qed.

(** Without the user bank, the listed registers, PC aside, get their values. *)
Lemma loadAll_regs rs : forall val c,
  NoDup rs -> (forall r, r ∈ rs -> 0 <= r < 15) -> length c.(regs) = 16%nat ->
  let c' := loadAll false val rs c in
  (forall k r, rs !! k = Some r -> c'.(regs).[r] = val k) /\
  (forall r, 0 <= r < 16 -> r ∉ rs -> c'.(regs).[r] = c.(regs).[r]) /\ length c'.(regs) = 16%nat.
Proof.
  induction rs as [|r0 rs IH]; intros val c Hnd Hrs Hl; cbn [loadAll].
  { split; [by intros k r; rewrite lookup_nil|done]. }
  apply NoDup_cons in Hnd as [Hnot Hnd]. pose proof (Hrs r0 ltac:(left)) as Hr0.
  assert (E : (loadUserReg false c r0 (val 0%nat)).(regs) = c.(regs).[r0 <- val O]).
  { unfold loadUserReg. cbn [andb]. unfold cpuPrvSetReg, REG_NO_PC. rewrite (proj2 (Z.eqb_neq r0 15)) by lia. by destruct c. }
  destruct (IH (fun k => val (S k)) (loadUserReg false c r0 (val O)) Hnd) as (I1 & I2 & I3).
  { intros r Hr. apply Hrs. by right. } { by rewrite E, length_aset. }
  split; [|split; [|done]].
  - intros [|k] r Er; cbn in Er; [|by apply I1]. injection Er as <-.
    rewrite I2, E, aget_aset_eq by (done || lia). done.
  - intros r Hr Hni. apply not_elem_of_cons in Hni as [Hne Hni]. rewrite I2, E, aget_aset_ne by (done || lia). done.
Qed.
End Stack.

(** ** Push and pop *)

Definition idxs16 : list Z := map Z.of_nat (seq 0 16).

Lemma visited_reverse inc instr : visited (negb inc) instr idxs16 = rev (visited inc instr idxs16).
Proof. unfold visited. rewrite <- List.filter_rev, <- map_rev. by destruct inc. Qed.

Lemma visited_spec inc instr r : r ∈ visited inc instr idxs16 <-> 0 <= r < 16 /\ Z.testbit instr r = true.
Proof.
  unfold visited. rewrite list_elem_of_In, filter_In, in_map_iff. split.
  - intros [(i & <- & Hi) Hb]. split; [|done]. unfold idxs16 in Hi. apply in_map_iff in Hi as (n & <- & Hn).
    apply in_seq in Hn. destruct inc; lia.
  - intros [Hr Hb]. split; [|done]. exists (if inc then r else 15 - r). split; [destruct inc; lia|].
    unfold idxs16. apply in_map_iff. exists (Z.to_nat (if inc then r else 15 - r)). rewrite in_seq. destruct inc; lia.
Qed.

Lemma visited_nodup inc instr : NoDup (visited inc instr idxs16).
Proof. apply NoDup_ListNoDup, List.NoDup_filter, NoDup_ListNoDup. destruct inc; apply (bool_decide_unpack _); by vm_compute. Qed.

Lemma visited_length inc instr : (length (visited inc instr idxs16) <= 16)%nat.
Proof. unfold visited. rewrite List.filter_length_le. by rewrite length_map. Qed.

(** Instructions with the same base register and the same list. *)
Lemma same_fields a b : a .& 0xFFFFF = b .& 0xFFFFF ->
  bits a 19 16 = bits b 19 16 /\ forall r, 0 <= r < 16 -> Z.testbit a r = Z.testbit b r.
Proof.
  intros E.
  assert (K : forall i, 0 <= i < 20 -> Z.testbit a i = Z.testbit b i).
  { intros i Hi. apply (f_equal (fun x => Z.testbit x i)) in E. change 0xFFFFF with (Z.ones 20) in E.
    rewrite !Z.land_spec, Z.ones_spec_low, !andb_true_r in E by lia. done. }
  split; [|intros r Hr; apply K; lia]. unfold bits. apply Z.bits_inj'. intros i Hi.
  rewrite !Z.land_spec, !Z.shiftr_spec by done. change (Z.ones (19 - 16 + 1)) with (Z.ones 4).
  destruct (Z.lt_ge_cases i 4); [by rewrite K by lia|]. by rewrite Z.ones_spec_high, !andb_false_r by lia.
Qed.

Lemma visited_ext inc a b : (forall r, 0 <= r < 16 -> Z.testbit a r = Z.testbit b r) -> visited inc a idxs16 = visited inc b idxs16.
Proof.
  intros E. unfold visited. apply filter_ext_in. intros r Hr. apply E.
  apply in_map_iff in Hr as (i & <- & Hi). apply in_map_iff in Hi as (k & <- & Hk). apply in_seq in Hk. destruct inc; lia.
Qed.

Section PushPop.
Context {W I : Type} `{WordMem W} `{ICachePort I}.
Implicit Types m : ArmCP15 W I.

Lemma setReg_facts m r v :
  (setReg m r v).(cpu).(regs) = m.(cpu).(regs).[r <- u32 v] /\ (setReg m r v).(mmu) = m.(mmu).
Proof. by destruct m as [[]]. Qed.

Lemma setReg_cpu m r v : (setReg m r v).(cpu) = { m.(cpu) with regs ::= fun l => l.[r <- u32 v] }.
Proof. by destruct m. Qed.

Lemma regs_set (c : ArmCpu) r v : ({ c with regs ::= fun l => l.[r <- v] }).(regs) = c.(regs).[r <- v].
Proof. by destruct c. Qed.

(** The store as a whole. *)
Lemma push_exact wasT inc bfr m instr p :
  let a := armInstr wasT instr in
  let base := bits a 19 16 in
  let rs := visited inc a idxs16 in
  let ea := m.(cpu).(regs).[base] in
  plain m -> regs_ok m.(cpu) -> length m.(cpu).(regs) = 16%nat ->
  condFails m.(cpu) a = false -> Z.testbit a 15 = false ->
  (forall k, (k < length rs)%nat -> is_Some (word_at m.(mmu).(mem) (slot inc bfr ea k))) ->
  exists m1, execFn_load_store_multi wasT (multiMode inc bfr) false false m instr p = Ret m1 /\ plain m1 /\
    m1.(cpu) = { m.(cpu) with regs ::= fun l => l.[base <- last_ea inc ea (length rs)] } /\
    (forall k r, rs !! k = Some r -> word_at m1.(mmu).(mem) (slot inc bfr ea k) = Some m.(cpu).(regs).[r]).
Proof.
  intros a base rs ea Hp Hr Hl Hc H15 Hs. unfold execFn_load_store_multi. cbv zeta. fold a. rewrite Hc.
  change (a .>> 16 .& 15) with base. cbn [andb]. unfold getReg. fold ea. fold idxs16.
  assert (Hst : forall r, r ∈ rs -> storedReg wasT false m.(cpu) r = m.(cpu).(regs).[r]).
  { intros r Hin. apply visited_spec in Hin as [Hr16 Hb]. unfold storedReg, cpuPrvGetReg, REG_NO_PC. cbn [andb].
    destruct (Z.eqb_spec r 15) as [->|]; [congruence|done]. }
  destruct (store_loop wasT inc bfr false a p ea idxs16 m ea 0xffffffff) as (w' & E & Hw' & Hin & _).
  - done.
  - by apply reg_is_u.
  - apply visited_length.
  - intros r Hin. rewrite Hst by done. by apply reg_is_u.
  - done.
  - fold rs in E, Hin. rewrite E. cbn [mbind outcome_bind].
    destruct (mode_bits inc bfr) as (_ & _ & ->). eexists. split; [done|].
    destruct (withMem_facts m w') as (F1 & F2 & _).
    destruct (setReg_facts (withMem m w') base (last_ea inc ea (length rs))) as [_ G2]. rewrite G2, F2.
    split; [split; rewrite G2; [destruct m; apply Hp|by rewrite F2]|]. split.
    + rewrite setReg_cpu, F1. unfold last_ea. by rewrite wrap_idemp.
    + intros k r Ek. rewrite (Hin k r Ek). f_equal. apply Hst. by eapply list_elem_of_lookup_2.
Qed.

(** The load as a whole. *)
Lemma pop_exact wasT inc bfr m instr p val :
  let a := armInstr wasT instr in
  let base := bits a 19 16 in
  let rs := visited inc a idxs16 in
  let ea := m.(cpu).(regs).[base] in
  plain m -> is_u 32 ea -> length m.(cpu).(regs) = 16%nat ->
  condFails m.(cpu) a = false -> Z.testbit a 15 = false ->
  (forall k, (k < length rs)%nat -> word_at m.(mmu).(mem) (slot inc bfr ea k) = Some (val k)) ->
  exists m3, execFn_load_store_multi wasT (multiMode inc bfr) true false m instr p = Ret m3 /\
    m3.(mmu) = m.(mmu) /\ m3.(cpu).(regs).[base] = last_ea inc ea (length rs) /\
    (forall k r, rs !! k = Some r -> r <> base -> m3.(cpu).(regs).[r] = val k) /\
    (forall r, 0 <= r < 16 -> r ∉ rs -> r <> base -> m3.(cpu).(regs).[r] = m.(cpu).(regs).[r]).
Proof.
  intros a base rs ea Hp Hea Hl Hc H15 Hs. unfold execFn_load_store_multi. cbv zeta. fold a. rewrite Hc.
  change (a .>> 16 .& 15) with base. cbn [andb]. unfold getReg. fold ea. fold idxs16.
  rewrite (load_loop wasT inc bfr false a p ea idxs16 m ea 0xffffffff val Hp Hea Hs). fold rs.
  cbn [mbind outcome_bind]. destruct (mode_bits inc bfr) as (_ & _ & ->). eexists. split; [done|].
  set (m2 := { m with cpu ::= loadAll false val rs }).
  assert (E2 : m2.(cpu) = loadAll false val rs m.(cpu) /\ m2.(mmu) = m.(mmu)) by (by destruct m). destruct E2 as [Ec Em].
  clearbody m2. destruct (setReg_facts m2 base (last_ea inc ea (length rs))) as [-> ->]. rewrite Ec.
  destruct (loadAll_regs rs val m.(cpu) (visited_nodup _ _)) as (L1 & L2 & L3); [|done|].
  { intros r Hin. apply visited_spec in Hin as [Hr Hb]. destruct (decide (r = 15)) as [->|]; [congruence|lia]. }
  pose proof (bits_range a 19 16 ltac:(lia)) as Hbase. fold base in Hbase. change (2 ^ (19 - 16 + 1)) with 16 in Hbase.
  split; [done|]. split; [rewrite aget_aset_eq by lia; apply wrap_idemp|]. split.
  - intros k r Ek Hne. rewrite aget_aset_ne; [by apply L1|lia| |done].
    apply list_elem_of_lookup_2, visited_spec in Ek. lia.
  - intros r Hr Hni Hne. rewrite aget_aset_ne by (done || lia). by apply L2.
Qed.
End PushPop.

(** C8. A multiple store with write-back and the load of the opposite direction
    are a push and a pop, for all four addressing modes, whatever lies in
    between: if the second instruction finds the base register and the block as
    the first one left them, it gives every register of the list, and the base,
    the value it had before the store, and leaves the others as they are. *)
Theorem stm_ldm_roundtrip {W I} `{WordMem W} `{ICachePort I} wasT inc bfr (m : ArmCP15 W I) i1 i2 p1 p2 :
  let a1 := armInstr wasT i1 in
  let a2 := armInstr wasT i2 in
  let base := bits a1 19 16 in
  let addr := slot inc bfr m.(cpu).(regs).[base] in
  let n := length (visited inc a1 idxs16) in
  plain m -> regs_ok m.(cpu) -> length m.(cpu).(regs) = 16%nat -> condFails m.(cpu) a1 = false ->
  a1 .& 0xFFFFF = a2 .& 0xFFFFF -> Z.testbit a1 15 = false -> Z.testbit a1 base = false ->
  (forall k, (k < n)%nat -> is_Some (word_at m.(mmu).(mem) (addr k))) ->
  exists m1, execFn_load_store_multi wasT (multiMode inc bfr) false false m i1 p1 = Ret m1 /\ plain m1 /\
    m1.(cpu) = { m.(cpu) with regs ::= fun l => l.[base <- last_ea inc m.(cpu).(regs).[base] n] } /\
    forall m2 : ArmCP15 W I, plain m2 -> length m2.(cpu).(regs) = 16%nat -> condFails m2.(cpu) a2 = false ->
      m2.(cpu).(regs).[base] = m1.(cpu).(regs).[base] ->
      (forall k, (k < n)%nat -> word_at m2.(mmu).(mem) (addr k) = word_at m1.(mmu).(mem) (addr k)) ->
      exists m3, execFn_load_store_multi wasT (multiMode (negb inc) (negb bfr)) true false m2 i2 p2 = Ret m3 /\
        m3.(mmu) = m2.(mmu) /\
        forall r, 0 <= r < 16 ->
          m3.(cpu).(regs).[r] = if Z.testbit a1 r || (r =? base) then m.(cpu).(regs).[r] else m2.(cpu).(regs).[r].
Proof.
  intros a1 a2 base addr n Hp Hr Hl Hc1 Hsame H15 Hbl Hs. set (rs := visited inc a1 idxs16) in *.
  pose proof (bits_range a1 19 16 ltac:(lia)) as Hb. fold base in Hb. change (2 ^ (19 - 16 + 1)) with 16 in Hb.
  destruct (push_exact wasT inc bfr m i1 p1 Hp Hr Hl Hc1 H15 Hs) as (m1 & E1 & Hp1 & Er1 & Ew1).
  exists m1. do 3 (split; [done|]). intros m2 Hp2 Hl2 Hc2 Hb2 Hw2.
  destruct (same_fields a1 a2 Hsame) as [Eb Elist]. fold base in Eb.
  assert (Hvis : visited (negb inc) a2 idxs16 = rev rs) by (rewrite visited_reverse; f_equal; symmetry; by apply visited_ext).
  rewrite Er1, regs_set, aget_aset_eq in Hb2 by lia. set (ea := m.(cpu).(regs).[base]) in *.
  assert (Hea : is_u 32 ea) by (by apply reg_is_u).
  set (val := fun j => m.(cpu).(regs).[default 0 (rs !! (n - 1 - j)%nat)]).
  assert (Hslot : forall j, (j < n)%nat ->
    word_at m2.(mmu).(mem) (slot (negb inc) (negb bfr) (last_ea inc ea n) j) = Some (val j)).
  { intros j Hj. unfold last_ea. rewrite slot_reverse by done. unfold addr in Hw2. rewrite Hw2 by lia.
    destruct (lookup_lt_is_Some_2 rs (n - 1 - j)) as [r Er]; [change (length rs) with n; lia|].
    unfold val. rewrite Er. exact (Ew1 _ _ Er). }
  destruct (pop_exact wasT (negb inc) (negb bfr) m2 i2 p2 val) as (m3 & E3 & Em & Eb3 & Ein & Eout); fold a2; rewrite <- ?Eb.
  - done.
  - rewrite Hb2. by apply wrap_is_u.
  - done.
  - done.
  - by rewrite <- Elist by lia.
  - rewrite Hvis, length_rev, Hb2. exact Hslot.
  - fold a2 in Eb3, Ein, Eout. rewrite <- Eb in Eb3, Ein, Eout. rewrite Hvis in Eb3, Ein, Eout.
    exists m3. split; [done|]. split; [done|]. intros r Hr16. destruct (Z.eqb_spec r base) as [->|Hne].
    + rewrite orb_true_r, Eb3, Hb2, length_rev. change (u32 (u32 (ea + Z.of_nat n * direction inc) + Z.of_nat n * direction (negb inc)) = ea).
      rewrite u32_add_assoc. replace (direction (negb inc)) with (- direction inc) by (by destruct inc).
      rewrite wrap_small; [ring|]. by replace (ea + _) with ea by ring.
    + rewrite orb_false_r. destruct (Z.testbit a1 r) eqn:Et.
      * assert (Hin : r ∈ rev rs) by (apply list_elem_of_In; rewrite <- in_rev; apply list_elem_of_In; by apply visited_spec).
        apply list_elem_of_lookup in Hin as [j Ej]. rewrite (Ein j r Ej Hne).
        assert (Hj : (j < n)%nat) by (apply lookup_lt_Some in Ej; by rewrite length_rev in Ej).
        rewrite rev_alt in Ej. change (reverse rs !! j = Some r) in Ej. rewrite reverse_lookup in Ej by done.
        unfold val. replace (n - 1 - j)%nat with (length rs - S j)%nat by (change (length rs) with n; lia). by rewrite Ej.
      * apply Eout; [done| |done]. rewrite list_elem_of_In, <- in_rev, <- list_elem_of_In. intros Hin.
        apply visited_spec in Hin as [_ Hin]. congruence.
Qed.

(** PUSH {R4, R5, LR} and POP of the same registers in RAM. *)
Definition demo_stack : ArmCP15 (ArmRam bool) unit :=
  cp15Init { cpu_reset with regs ::= fun r => r.[4 <- 44].[5 <- 55].[13 <- 0xa0000100].[14 <- 0x8000] }
    (mmuInit demo_ram true) tt 0x69052d06 0x1d172172 true false.

Lemma stm_ldm_roundtrip_witness :
  exists m1 m3, execFn_load_store_multi false (multiMode false true) false false demo_stack 0xe92d4030 true = Ret m1 /\
    execFn_load_store_multi false (multiMode true false) true false
      (setReg (setReg m1 4 1) 14 2) 0xe8bd4030 true = Ret m3 /\
    map (aget m3.(cpu).(regs)) [4; 5; 13; 14] = [44; 55; 0xa0000100; 0x8000].
Proof.
  destruct (stm_ldm_roundtrip false false true demo_stack 0xe92d4030 0xe8bd4030 true true) as (m1 & E1 & Hp1 & Ec1 & Hpop).
  - split; [done|]. split; [apply demo_ram_wf|]. vm_compute. repeat split; discriminate.
  - unfold regs_ok. repeat (apply Forall_cons_2; [by vm_compute|]). apply Forall_nil_2.
  - done.
  - by vm_compute.
  - by vm_compute.
  - done.
  - done.
  - intros k Hk. vm_compute in Hk. destruct k as [|[|[|k]]]; [eexists; vm_compute; reflexivity ..|lia].
  - destruct (setReg_facts m1 4 1) as [G1 G2]. destruct (setReg_facts (setReg m1 4 1) 14 2) as [G3 G4].
    assert (Hl : length m1.(cpu).(regs) = 16%nat /\ condFails (setReg (setReg m1 4 1) 14 2).(cpu) 0xe8bd4030 = false)
      by (split; [rewrite Ec1; by vm_compute|]; replace (condFails _ _) with (condFails m1.(cpu) 0xe8bd4030);
          [rewrite Ec1; by vm_compute|by destruct m1 as [[]]]).
    destruct Hl as [Hl Hc]. destruct (Hpop (setReg (setReg m1 4 1) 14 2)) as (m3 & E3 & _ & Hr).
    + split; rewrite G4, G2; apply Hp1.
    + by rewrite G3, G1, !length_aset.
    + exact Hc.
    + rewrite G3, G1. change (bits _ _ _) with 13. by rewrite !aget_aset_ne by lia.
    + intros k _. by rewrite G4, G2.
    + exists m1, m3. split; [exact E1|]. split; [exact E3|]. cbn [map]. by rewrite !Hr by lia.
Defined.
