(* ===== verification/ICache.v ===== *)
(** * The instruction cache (icache.cpp)

    Lines of 32 bytes, direct-mapped by virtual address, with the decoded form
    of the instructions they hold. The sizes of the types and of the decoded
    entries are those of the native 64-bit build. *)

From S2P Require Import Prelude Bytes Interfaces Mmu.

Definition CACHE_LINE_WIDTH_BITS := 5.
Definition CACHE_INDEX_BITS := 17.

Definition calculateIndex (va : Z) : Z := (va .>> CACHE_LINE_WIDTH_BITS) .& Z.ones CACHE_INDEX_BITS.
Definition calculateTag (va : Z) : Z := va .>> (CACHE_LINE_WIDTH_BITS + CACHE_INDEX_BITS).
Definition calculateLineIndex (va : Z) : Z := va .& Z.ones CACHE_LINE_WIDTH_BITS.
Definition maskLine (va : Z) : Z := va .&~ Z.ones CACHE_LINE_WIDTH_BITS.

Definition DECODED_BITS := 0x03.
Definition DECODED_BITS_ARM := 0x02.
Definition DECODED_BITS_THUMB := 0x03.
Definition DECODED_BITS_SHIFT := 2.

Record icacheline := mkLine {
  data : list Z;       (* uint8_t[32] *)
  decoded : list Z;    (* uint32_t[16], one for every half-word *)
  tag : Z;             (* uint_fast16_t *)
  revision : Z         (* uint32_t *)
}.

Definition line0 : icacheline := mkLine (replicate 32 0) (replicate 16 0) 0 0.

(** [cache] is zeroed where the map is empty. *)
Record ICache := mkICache { ic_revision : Z; cache : gmap Z icacheline }.

Definition lineAt (ic : ICache) (i : Z) : icacheline := default line0 (ic.(cache) !! i).

Definition icInval (ic : ICache) : ICache :=
  let ic := { ic with ic_revision ::= fun r => u32 (r + 1) } in
  if ic.(ic_revision) =? 0
  then { ic with ic_revision := 1; cache ::= fmap (fun l => { l with revision := 0 }) } else ic.

Definition icacheInit : ICache := icInval (mkICache 0 ∅).

Definition icInvalAddr (ic : ICache) (va : Z) : ICache :=
  let line := lineAt ic (calculateIndex va) in
  if negb (line.(revision) =? ic.(ic_revision)) || negb (line.(tag) =? calculateTag va) then ic else
  { ic with cache ::= <[calculateIndex va := { line with revision := u32 (ic.(ic_revision) - 1) }]> }.

(** Lines from [line] on while the line address is below [stop]. A loop that
    wraps past the end of the address space does not end. *)
Fixpoint invalLines (fuel : nat) (ic : ICache) (line stop : Z) : outcome ICache :=
  match fuel with
  | O => if line <? stop then Hang else Ret ic
  | S fuel => if line <? stop then invalLines fuel (icInvalAddr ic line) (u32 (line + 32)) stop else Ret ic
  end.

(** A range that does not wrap has at most [size / 32 + 2] lines. *)
Definition icacheInvalRange (ic : ICache) (addr size : Z) : outcome ICache :=
  invalLines (Z.to_nat (size / 32 + 2)) ic (maskLine addr) (u32 (addr + size)).

#[export] Instance icache_port : ICachePort ICache := {| icacheInval := icInval; icacheInvalAddr := icInvalAddr |}.

(** Instruction fetches of physical memory: [memInstructionFetch]. *)
Class InstrMem (W : Type) := { mem_fetch : W -> Z -> Z -> outcome (access W) }.

(** New contents for a line; the decoded entries of changed words are dropped. *)
Definition refill (line : icacheline) (new : list Z) : icacheline :=
  { line with
      data := new;
      decoded ::= imap (fun k d =>
        let off := 4 * Z.of_nat (k / 2) in
        if bool_decide (peek new off 4 = peek line.(data) off 4) then d else 0) }.

Section Fetch.
Context {W : Type} `{PhysMem W} `{InstrMem W}.

(** [cpuDecodeArm] and [cpuDecodeThumb]: the address of the function that
    executes an instruction, as an offset. *)
Context (cpuDecodeArm cpuDecodeThumb : Z -> Z).

Definition decodeFor (sz inst : Z) : Z := if sz =? 4 then cpuDecodeArm inst else cpuDecodeThumb inst.
Definition decodedBits (sz : Z) : Z := if sz =? 4 then DECODED_BITS_ARM else DECODED_BITS_THUMB.

(** The end of a fetch: the instruction and its decoded form from the line. *)
Definition fetchLine (sz : Z) (ic : ICache) (va : Z) : Z * Z * ICache :=
  let line := lineAt ic (calculateIndex va) in
  let i := calculateLineIndex va in
  let inst := le_combine (peek line.(data) i sz) in
  let iInst := i .>> 1 in
  let d := line.(decoded).[iInst] in
  if negb (d .& DECODED_BITS =? decodedBits sz) then
    let code := decodeFor sz inst in
    let line := { line with decoded ::= fun l => l.[iInst <- u32 (code .<< DECODED_BITS_SHIFT) .| decodedBits sz] } in
    (inst, code, { ic with cache ::= <[calculateIndex va := line]> })
  else (inst, u32 (sgn 32 d .>> DECODED_BITS_SHIFT), ic).

(** A fetch of [sz] bytes, 2 or 4: a fault status, or the instruction and its
    decoded form. *)
Definition icacheFetch (sz : Z) (ic : ICache) (mmu : ArmMmu W) (va : Z)
  : outcome ((Z + Z * Z) * ICache * ArmMmu W) :=
  if tst va (sz - 1) then Ret (inl 3, ic, mmu) else
  let line := lineAt ic (calculateIndex va) in
  let tag_ := u8 (calculateTag va) in
  let hit ic mmu := let '(inst, code, ic) := fetchLine sz ic va in Ret (inr (inst, code), ic, mmu) in
  if negb (line.(revision) =? ic.(ic_revision)) || negb (line.(tag) =? tag_) then
    let cacheable := mmuIsOn mmu in
    '(r, mmu) ← (if cacheable then mmuTranslate mmu va true false else Ret (va, mmu));
    if tst r (1 .<< 63) then Ret (inl (u8 ((r .>> 32) .& 0xff)), ic, mmu) else
    let pa := u32 r in
    if negb (cacheable && tst r (1 .<< 62)) then
      '(ok, inst, w) ← mem_fetch mmu.(mem) pa sz;
      let mmu := { mmu with mem := w } in
      Ret (if negb ok then inl 0x0d else inr (inst, decodeFor sz inst), ic, mmu)
    else
      '(ok, bytes, w) ← mem_fetch mmu.(mem) (maskLine pa) 32;
      let mmu := { mmu with mem := w } in
      if negb ok then Ret (inl 0x0d, ic, mmu) else
      let line := { refill line (le_split 32 bytes) with revision := ic.(ic_revision); tag := tag_ } in
      hit { ic with cache ::= <[calculateIndex va := line]> } mmu
  else hit ic mmu.
End Fetch.

(** ** The decoded instructions belong to the line *)

(** A function's offset fits in the 30 bits a decoded entry has for it. *)
Definition codeOk (code : Z) : Prop := exists s, - 2 ^ 29 <= s < 2 ^ 29 /\ code = u32 s.

Lemma entry_roundtrip code b :
  codeOk code -> b = 2 \/ b = 3 ->
  let d := u32 (code .<< 2) .| b in d .& 3 = b /\ u32 (sgn 32 d .>> 2) = code.
Proof.
  intros (s & Hs & ->) Hb. cbv zeta.
  assert (E : u32 (u32 s .<< 2) = u32 s mod 2 ^ 30 * 2 ^ 2) by (rewrite Z.shiftl_mul_pow2 by done; unfold wrap; zdiv_lia).
  rewrite E, lor_mul_pow2 by (done || (destruct Hb as [-> | ->]; by vm_compute)). split.
  - change 3 with (2 ^ 2 - 1) at 1. rewrite land_low by done. destruct Hb as [-> | ->]; zdiv_lia.
  - rewrite shiftr_div by done. unfold sgn, wrap. 
    destruct Hb as [-> | ->]; destruct (Z.ltb_spec ((s mod 2 ^ 32 mod 2 ^ 30 * 2 ^ 2 + 2) mod 2 ^ 32) (2 ^ (32 - 1)));
    destruct (Z.ltb_spec ((s mod 2 ^ 32 mod 2 ^ 30 * 2 ^ 2 + 3) mod 2 ^ 32) (2 ^ (32 - 1))); zdiv_lia.
Qed.

Definition entry_ok (cpuDecodeArm cpuDecodeThumb : Z -> Z) (line : icacheline) (k : nat) (d : Z) : Prop :=
  let word n := le_combine (peek line.(data) (2 * Z.of_nat k) n) in
  (d .& DECODED_BITS = DECODED_BITS_ARM ->
     Nat.Even k /\ u32 (sgn 32 d .>> DECODED_BITS_SHIFT) = cpuDecodeArm (word 4)) /\
  (d .& DECODED_BITS = DECODED_BITS_THUMB ->
     u32 (sgn 32 d .>> DECODED_BITS_SHIFT) = cpuDecodeThumb (word 2)).

Record line_ok (cpuDecodeArm cpuDecodeThumb : Z -> Z) (line : icacheline) : Prop := mkLineOk {
  lo_decoded : length line.(decoded) = 16%nat;
  lo_entries k d : line.(decoded) !! k = Some d -> entry_ok cpuDecodeArm cpuDecodeThumb line k d
}.

Definition icache_ok (cpuDecodeArm cpuDecodeThumb : Z -> Z) (ic : ICache) : Prop :=
  map_Forall (fun _ => line_ok cpuDecodeArm cpuDecodeThumb) ic.(cache).

(** Revisions run ahead of the lines: a line of an older revision is invalid. *)
Definition revision_ok (ic : ICache) : Prop :=
  1 <= ic.(ic_revision) < 2 ^ 32 /\ map_Forall (fun _ l => 0 <= l.(revision) <= ic.(ic_revision)) ic.(cache).

Lemma peek_sub mem off off' n n' :
  0 <= off -> off <= off' -> 0 <= n' -> off' + n' <= off + n ->
  peek mem off' n' = peek (peek mem off n) (off' - off) n'.
Proof.
  intros. unfold peek. apply list_eq. intros i.
  destruct (decide (i < Z.to_nat n')%nat).
  - rewrite !lookup_take_lt, !lookup_drop, lookup_take_lt, lookup_drop by lia. f_equal. lia.
  - by rewrite !lookup_take_ge by lia.
Qed.

Lemma revision_ok_set ic i line :
  revision_ok ic -> 0 <= line.(revision) <= ic.(ic_revision) ->
  revision_ok (mkICache ic.(ic_revision) (<[i := line]> ic.(cache))).
Proof. intros [H1 H2] Hl. split; [done|]. by apply map_Forall_insert_2. Qed.

Lemma lineAt_rev ic i : revision_ok ic -> 0 <= (lineAt ic i).(revision) <= ic.(ic_revision).
Proof.
  intros [H1 H2]. unfold lineAt. destruct (cache ic !! i) eqn:E; [by eapply H2|cbn; lia].
Qed.

Section LineLemmas.
Context (cpuDecodeArm cpuDecodeThumb : Z -> Z).
Abbreviation line_ok := (line_ok cpuDecodeArm cpuDecodeThumb).
Abbreviation icache_ok := (icache_ok cpuDecodeArm cpuDecodeThumb).

Lemma entry_zero line k : entry_ok cpuDecodeArm cpuDecodeThumb line k 0.
Proof. by split; intros E; vm_compute in E. Qed.

Lemma line0_ok : line_ok line0.
Proof. split; [done|]. intros k d [-> _]%lookup_replicate. apply entry_zero. Qed.

Lemma lineAt_ok ic i : icache_ok ic -> line_ok (lineAt ic i).
Proof.
  intros H. unfold lineAt. destruct (cache ic !! i) eqn:E; [by eapply H|apply line0_ok].
Qed.

Lemma refill_ok line new : line_ok line -> line_ok (refill line new).
Proof.
  intros [Hl He]. split; [by destruct line; cbn; rewrite length_imap|].
  intros k d Hk. destruct line as [dat dec t r]. cbn -[Nat.div] in *.
  rewrite list_lookup_imap in Hk. destruct (dec !! k) as [d0|] eqn:Ek; [|done]. cbn -[Nat.div] in Hk.
  case_bool_decide as Hsame; simplify_eq; [|apply entry_zero].
  specialize (He _ _ Ek). unfold entry_ok in *. cbn -[Nat.div] in *.
  pose proof (Nat.div_mod_eq k 2). pose proof (Nat.mod_upper_bound k 2).
  split; intros Hb; destruct He as [Ha Ht].
  - destruct (Ha Hb) as [[j Hj] E]. split; [by exists j|]. rewrite E.
    replace (2 * Z.of_nat k) with (4 * Z.of_nat (k / 2)) by (subst k; rewrite (Nat.mul_comm 2), Nat.div_mul; lia).
    by rewrite Hsame.
  - rewrite (Ht Hb). do 2 f_equal.
    rewrite (peek_sub dat (4 * Z.of_nat (k / 2)) _ 4), (peek_sub new (4 * Z.of_nat (k / 2)) _ 4) by lia.
    by rewrite Hsame.
Qed.

Lemma icache_ok_set ic i line r :
  icache_ok ic -> line_ok line ->
  icache_ok (mkICache r (<[i := line]> ic.(cache))).
Proof. intros H Hl. by apply map_Forall_insert_2. Qed.

Lemma line_ok_data line t r : line_ok line -> line_ok {| data := data line; decoded := decoded line; tag := t; revision := r |}.
Proof. by intros [? ?]; split. Qed.

Hypothesis (codeArm : forall inst, codeOk (cpuDecodeArm inst)).
Hypothesis (codeThumb : forall inst, codeOk (cpuDecodeThumb inst)).

Lemma fetchLine_ok sz ic va inst code ic' :
  sz = 2 \/ sz = 4 -> va mod sz = 0 -> is_u 32 va -> icache_ok ic ->
  fetchLine cpuDecodeArm cpuDecodeThumb sz ic va = (inst, code, ic') ->
  inst = le_combine (peek (lineAt ic (calculateIndex va)).(data) (calculateLineIndex va) sz) /\
  code = decodeFor cpuDecodeArm cpuDecodeThumb sz inst /\ icache_ok ic' /\ (revision_ok ic -> revision_ok ic').
Proof.
  intros Hsz Hal Hva Hic.
  pose proof (lineAt_rev ic (calculateIndex va)) as Hrev.
  pose proof (lineAt_ok ic (calculateIndex va) Hic) as Hl. unfold fetchLine.
  set (line := lineAt ic (calculateIndex va)) in *.
  assert (Ei : calculateLineIndex va = va mod 32) by (unfold calculateLineIndex; change (Z.ones _) with (2 ^ 5 - 1); by rewrite land_low).
  rewrite Ei. set (k := Z.to_nat ((va mod 32) / 2)).
  assert (Ek : (va mod 32) .>> 1 = Z.of_nat k) by (rewrite shiftr_div by done; subst k; zdiv_lia).
  assert (Ek2 : va mod 32 = 2 * Z.of_nat k) by (subst k; destruct Hsz; subst sz; zdiv_lia).
  rewrite Ek. set (inst0 := le_combine _).
  assert (is_Some (line.(decoded) !! k)) as [d Hd] by (apply lookup_lt_is_Some; rewrite (lo_decoded _ _ _ Hl); subst k; zdiv_lia).
  assert (line.(decoded).[Z.of_nat k] = d) as -> by (apply aget_lookup; by rewrite Nat2Z.id).
  pose proof (lo_entries _ _ _ Hl _ _ Hd) as [Ha Ht].
  destruct (Z.eqb_spec (d .& DECODED_BITS) (decodedBits sz)) as [Eb|Eb]; cbn [negb]; intros [= <- <- <-].
  - split; [done|]. split; [|done]. unfold decodeFor. destruct Hsz as [-> | ->]; cbn in Eb |- *.
    + rewrite Ht by done. subst inst0. by rewrite Ek2.
    + rewrite (proj2 (Ha Eb)). subst inst0. by rewrite Ek2.
  - split; [done|]. split; [done|]. destruct ic as [r c]. cut (line_ok {| data := data line; decoded := (decoded line).[Z.of_nat k <- u32 (decodeFor cpuDecodeArm cpuDecodeThumb sz inst0 .<< DECODED_BITS_SHIFT) .| decodedBits sz]; tag := tag line; revision := revision line |}).
    { intros Hline. split; [exact (icache_ok_set (mkICache r c) _ _ _ Hic Hline)|].
      intros Hr. apply (revision_ok_set (mkICache r c)); [done|exact (Hrev Hr)]. }
    set (code := decodeFor _ _ sz inst0).
    assert (entry_ok cpuDecodeArm cpuDecodeThumb line k (u32 (code .<< DECODED_BITS_SHIFT) .| decodedBits sz)) as Hnew.
    { destruct (entry_roundtrip code (decodedBits sz)) as [Hb Hc].
      + subst code. unfold decodeFor. by destruct (sz =? 4).
      + destruct Hsz; subst sz; cbn; auto.
      + split; intros Hb'; unfold DECODED_BITS, DECODED_BITS_SHIFT in *; rewrite Hb in Hb'; rewrite Hc; subst code inst0; rewrite Ek2.
        * destruct Hsz; subst sz; [done|]. split; [|done]. exists (Z.to_nat (va mod 32 / 4)). clear - Ek2 Hal. clearbody k. zdiv_lia.
        * by destruct Hsz; subst sz. }
    destruct line as [dat dec t rv]. split; cbn in *.
    + rewrite length_aset. by apply Hl.
    + intros k' d' Hk'. unfold aset in Hk'. rewrite Nat2Z.id in Hk'.
      apply list_lookup_insert_Some in Hk' as [(<- & <- & _)|[_ Hk']]; [done|].
      by apply (lo_entries _ _ _ Hl).
Qed.
End LineLemmas.

Lemma icInval_ok fa ft ic : icache_ok fa ft ic -> icache_ok fa ft (icInval ic).
Proof.
  intros H. destruct ic as [r c]. unfold icInval. cbn. destruct (_ =? 0); [|done].
  intros i l. cbn. rewrite lookup_fmap. destruct (c !! i) as [l0|] eqn:E; cbn; intros; simplify_eq.
  destruct (H i l0 E) as [H1 H2]. destruct l0. by split.
Qed.

Lemma icInvalAddr_ok fa ft ic va : icache_ok fa ft ic -> icache_ok fa ft (icInvalAddr ic va).
Proof.
  intros H. unfold icInvalAddr. destruct (_ || _); [done|]. destruct ic as [r c].
  refine (icache_ok_set _ _ (mkICache r c) _ _ _ H _).
  pose proof (lineAt_ok fa ft _ (calculateIndex va) H) as [H1 H2]. by destruct (lineAt _ _).
Qed.

(** No line is valid. *)
Definition all_stale (ic : ICache) : Prop :=
  ic.(ic_revision) <> 0 /\ map_Forall (fun _ l => l.(revision) <> ic.(ic_revision)) ic.(cache).

Lemma icInval_stale ic : revision_ok ic -> all_stale (icInval ic) /\ revision_ok (icInval ic).
Proof.
  destruct ic as [r c]. intros [Hr Hc]. unfold icInval, all_stale, revision_ok. cbn in *.
  destruct (Z.eqb_spec (u32 (r + 1)) 0) as [E|E]; cbn.
  - split; (split; [lia|]); intros i l; rewrite lookup_fmap; destruct (c !! i) as [l0|]; cbn; intros; simplify_eq;
      destruct l0; cbn; lia.
  - assert (u32 (r + 1) = r + 1) as -> by (unfold wrap in *; zdiv_lia).
    split; (split; [unfold wrap in *; zdiv_lia|]); intros i l Hi; specialize (Hc i l Hi); cbn in *; lia.
Qed.

(** A fetch of [va] does not take the line. *)
Definition miss (ic : ICache) (va : Z) : Prop :=
  (lineAt ic (calculateIndex va)).(revision) <> ic.(ic_revision) \/
  (lineAt ic (calculateIndex va)).(tag) <> u8 (calculateTag va).

Lemma miss_spec ic va :
  let line := lineAt ic (calculateIndex va) in
  miss ic va -> negb (line.(revision) =? ic.(ic_revision)) || negb (line.(tag) =? u8 (calculateTag va)) = true.
Proof. cbv zeta. intros [E%Z.eqb_neq|E%Z.eqb_neq]; rewrite E; [done|apply orb_true_r]. Qed.

Lemma stale_miss ic va : all_stale ic -> miss ic va.
Proof.
  intros [H0 H]. left. unfold lineAt. destruct (cache ic !! calculateIndex va) eqn:E; [by eapply H|cbn; lia].
Qed.

Section FetchSpec.
Context {W : Type} `{PhysMem W} `{InstrMem W}.
Context (cpuDecodeArm cpuDecodeThumb : Z -> Z).
Hypothesis (codeArm : forall inst, codeOk (cpuDecodeArm inst)).
Hypothesis (codeThumb : forall inst, codeOk (cpuDecodeThumb inst)).
Abbreviation icache_ok := (icache_ok cpuDecodeArm cpuDecodeThumb).
Abbreviation decodeFor := (decodeFor cpuDecodeArm cpuDecodeThumb).
Abbreviation icacheFetch := (icacheFetch cpuDecodeArm cpuDecodeThumb).

(** A fetch of the memory itself: translate, read, decode. *)
Definition fetchUncached (sz : Z) (mmu : ArmMmu W) (va : Z) : outcome ((Z + Z * Z) * ArmMmu W) :=
  if tst va (sz - 1) then Ret (inl 3, mmu) else
  let on := mmuIsOn mmu in
  '(r, mmu) ← (if on then mmuTranslate mmu va true false else Ret (va, mmu));
  if tst r (1 .<< 63) then Ret (inl (u8 ((r .>> 32) .& 0xff)), mmu) else
  let line := on && tst r (1 .<< 62) in
  let pa := u32 r in
  '(ok, bytes, w) ← mem_fetch mmu.(mem) (if line then maskLine pa else pa) (if line then 32 else sz);
  let inst := if line then le_combine (peek (le_split 32 bytes) (calculateLineIndex va) sz) else bytes in
  Ret (if negb ok then inl 0x0d else inr (inst, decodeFor sz inst), { mmu with mem := w }).

Lemma tst_aligned sz va : sz = 2 \/ sz = 4 -> tst va (sz - 1) = false -> va mod sz = 0.
Proof.
  intros Hsz Eal%tst_false. destruct Hsz; subst sz.
  - change (2 - 1) with (2 ^ 1 - 1) in Eal. by rewrite land_low in Eal.
  - change (4 - 1) with (2 ^ 2 - 1) in Eal. by rewrite land_low in Eal.
Qed.

(** What a fetch may return, and the cache it leaves. *)
Definition fetch_post (sz : Z) (ic : ICache) (out : (Z + Z * Z) * ICache * ArmMmu W) : Prop :=
  let '(r, ic', _) := out in
  (forall inst code, r = inr (inst, code) -> code = decodeFor sz inst) /\
  icache_ok ic' /\ (revision_ok ic -> revision_ok ic').

Lemma miss_line_ok ic i bytes t :
  icache_ok ic -> 
  icache_ok {| ic_revision := ic.(ic_revision);
               cache := <[i := {| data := le_split 32 bytes; decoded := decoded (refill (lineAt ic i) (le_split 32 bytes));
                                  tag := t; revision := ic.(ic_revision) |}]> ic.(cache) |}.
Proof.
  intros Hic. apply icache_ok_set; [done|].
  apply (line_ok_data _ _ (refill (lineAt ic i) (le_split 32 bytes))), refill_ok, lineAt_ok, Hic.
Qed.

Lemma fetch_keeps (sz : Z) ic (mmu : ArmMmu W) va out :
  sz = 2 \/ sz = 4 -> is_u 32 va -> icache_ok ic ->
  icacheFetch sz ic mmu va = Ret out -> fetch_post sz ic out.
Proof.
  intros Hsz Hva Hic. unfold ICache.icacheFetch.
  destruct (tst va (sz - 1)) eqn:Eal; [by intros [= <-]|].
  pose proof (tst_aligned _ _ Hsz Eal) as Hal.
  assert (Hhit : forall ic0 (mmu0 : ArmMmu W), icache_ok ic0 -> (revision_ok ic -> revision_ok ic0) ->
    (let '(inst, code, ic) := fetchLine cpuDecodeArm cpuDecodeThumb sz ic0 va in Ret (inr (inst, code), ic, mmu0)) = Ret out ->
    fetch_post sz ic out).
  { intros ic0 mmu0 Hok0 Hr. destruct (fetchLine _ _ _ _ _) as [[inst code] ic1] eqn:E. intros [= <-].
    destruct (fetchLine_ok _ _ codeArm codeThumb _ _ _ _ _ _ Hsz Hal Hva Hok0 E) as (_ & Ec & Hok & Er).
    split; [by intros ?? [= <- <-]|split; [done|auto]]. }
  destruct (_ || _); [|by apply Hhit].
  destruct (if mmuIsOn mmu then _ else _) as [[r mmu1]| | |]; try done. cbn [mbind outcome_bind].
  destruct (tst r (1 .<< 63)); [by intros [= <-]|].
  destruct (negb _).
  - destruct (mem_fetch _ _ _) as [[[ok inst] w]| | |]; try done. cbn [mbind outcome_bind]. intros [= <-].
    split; [|done]. destruct ok; cbn; [by intros ?? [= <- <-]|done].
  - destruct (mem_fetch _ _ _) as [[[ok bytes] w]| | |]; try done. cbn [mbind outcome_bind].
    destruct (negb ok); [by intros [= <-]|].
    apply Hhit.
    + pose proof (miss_line_ok ic (calculateIndex va) bytes (u8 (calculateTag va)) Hic).
      destruct ic; cbn in *. by destruct (lineAt _ _).
    + intros Hr. destruct ic as [rev c]. apply (revision_ok_set (mkICache rev c)); [done|].
      destruct Hr as [Hr _]. cbn in *. lia.
Qed.

Lemma fetch_miss (sz : Z) ic (mmu : ArmMmu W) va :
  sz = 2 \/ sz = 4 -> is_u 32 va -> icache_ok ic -> miss ic va ->
  ('(r, _, mmu') ← icacheFetch sz ic mmu va; Ret (r, mmu')) = fetchUncached sz mmu va.
Proof.
  intros Hsz Hva Hic Hst. unfold ICache.icacheFetch, fetchUncached.
  destruct (tst va (sz - 1)) eqn:Eal; [done|].
  apply tst_aligned in Eal; [|done].
  rewrite (miss_spec _ _ Hst).
  destruct (if mmuIsOn mmu then _ else _) as [[r mmu1]| | |]; try done. cbn [mbind outcome_bind].
  destruct (tst r (1 .<< 63)); [done|].
  destruct (mmuIsOn mmu && tst r (1 .<< 62)); cbn [negb].
  - destruct (mem_fetch _ _ _) as [[[ok bytes] w]| | |]; try done. cbn [mbind outcome_bind].
    destruct ok; cbn [negb]; [|done].
    match goal with |- context [fetchLine _ _ sz ?ic1 va] =>
      destruct (fetchLine cpuDecodeArm cpuDecodeThumb sz ic1 va) as [[inst code] ic2] eqn:E;
      eapply (fetchLine_ok _ _ codeArm codeThumb _ _ _ _ _ _ Hsz Eal Hva) in E as (-> & -> & _) end.
    + cbn [mbind outcome_bind]. unfold lineAt at 1 3. destruct ic as [rev c]. cbn. by rewrite lookup_insert_eq.
    + pose proof (miss_line_ok ic (calculateIndex va) bytes (u8 (calculateTag va)) Hic).
      destruct ic; cbn in *. by destruct (lineAt _ _).
  - destruct (mem_fetch _ _ _) as [[[ok inst] w]| | |]; try done.
Qed.
End FetchSpec.

(** ** Invalidation of a range *)

Lemma line_parts va :
  is_u 32 va ->
  maskLine va = 32 * (va / 32) /\ calculateIndex va = va / 32 mod 2 ^ 17 /\ calculateTag va = va / 2 ^ 22.
Proof.
  intros H. unfold calculateIndex, calculateTag, maskLine, CACHE_LINE_WIDTH_BITS, CACHE_INDEX_BITS.
  rewrite !shiftr_div by done. change (Z.ones 17) with (2 ^ 17 - 1). rewrite land_low by done.
  split_and!; try done. rewrite Z.ldiff_ones_r, Z.shiftl_mul_pow2, shiftr_div by done.
  change (2 ^ 5) with 32. lia.
Qed.
Definition valid_at (ic : ICache) (va : Z) : bool :=
  let line := lineAt ic (calculateIndex va) in
  (line.(revision) =? ic.(ic_revision)) && (line.(tag) =? calculateTag va).

Lemma lineAt_inval ic a i :
  lineAt (icInvalAddr ic a) i =
  if valid_at ic a && (i =? calculateIndex a)
  then { (lineAt ic i) with revision := u32 (ic.(ic_revision) - 1) } else lineAt ic i.
Proof.
  unfold icInvalAddr, valid_at. rewrite <- negb_andb.
  destruct (_ && _) eqn:E; cbn [negb andb]; [|done].
  destruct (Z.eqb_spec i (calculateIndex a)) as [->|Hi].
  - destruct ic. unfold lineAt. cbn. by rewrite lookup_insert_eq.
  - destruct ic. unfold lineAt. cbn. by rewrite lookup_insert_ne.
Qed.

Lemma inval_keeps_revision ic a : (icInvalAddr ic a).(ic_revision) = ic.(ic_revision).
Proof. unfold icInvalAddr. destruct (_ || _); [done|by destruct ic]. Qed.

Lemma pred_ne r : u32 (r - 1) <> r.
Proof. unfold wrap. zdiv_lia. Qed.

Lemma same_line va a :
  is_u 32 va -> is_u 32 a -> maskLine va = maskLine a ->
  calculateIndex va = calculateIndex a /\ calculateTag va = calculateTag a.
Proof.
  intros Hv Ha. destruct (line_parts va Hv) as (-> & -> & ->), (line_parts a Ha) as (-> & -> & ->).
  intros E. assert (va / 32 = a / 32) as E' by lia. rewrite E'. split; [done|].
  change (2 ^ 22) with (32 * 2 ^ 17). rewrite <- !Z.div_div by done. by rewrite E'.
Qed.

Lemma inval_valid_at ic a va :
  is_u 32 va -> is_u 32 a -> valid_at (icInvalAddr ic a) va = true ->
  valid_at ic va = true /\ maskLine va <> maskLine a.
Proof.
  intros Hv Ha E. unfold valid_at in E. rewrite lineAt_inval, inval_keeps_revision in E.
  destruct (valid_at ic a) eqn:Ea; cbn [andb] in E.
  - destruct (Z.eqb_spec (calculateIndex va) (calculateIndex a)) as [Ei|Ei].
    + destruct (lineAt _ _). cbn in E. apply andb_true_iff in E as [E%Z.eqb_eq _]. by apply pred_ne in E.
    + split; [exact E|]. intros E'. by apply same_line in E' as [? _].
  - split; [exact E|]. intros E'. apply same_line in E' as [Ei Et]; [|done..].
    unfold valid_at in Ea. rewrite <- Ei, <- Et in Ea. by rewrite E in Ea.
Qed.

(** A line that is not valid is not taken, below 1 GB. *)
Lemma invalid_miss ic va : is_u 30 va -> valid_at ic va = false -> miss ic va.
Proof.
  intros Hv E. unfold miss, valid_at in *. apply andb_false_iff in E as [E%Z.eqb_neq|E%Z.eqb_neq]; [by left|right].
  assert (u8 (calculateTag va) = calculateTag va) as ->; [|done].
  apply wrap_small. destruct (line_parts va) as (_ & _ & ->); [by apply (is_u_le 30)|].
  unfold is_u in *. zdiv_lia.
Qed.

Lemma invalLines_ret fuel ic line stop :
  is_u 32 line -> line mod 32 = 0 -> stop <= 2 ^ 32 - 32 -> stop - line <= 32 * Z.of_nat fuel ->
  exists ic', invalLines fuel ic line stop = Ret ic' /\
    (forall va, is_u 32 va -> valid_at ic' va = true ->
       valid_at ic va = true /\ ~ (line <= maskLine va < stop)) /\
    (forall P : ICache -> Prop, (forall ic va, is_u 32 va -> P ic -> P (icInvalAddr ic va)) -> P ic -> P ic').
Proof.
  revert ic line. induction fuel as [|fuel IH]; intros ic line Hu Hl Hstop Hf; cbn [invalLines];
    destruct (Z.ltb_spec line stop) as [Hlt|Hge]; try lia.
  1, 3: exists ic; split_and!; try done; intros va Hv E; split; [done|lia].
  assert (u32 (line + 32) = line + 32) as -> by (apply wrap_small; unfold is_u in *; lia).
  destruct (IH (icInvalAddr ic line) (line + 32)) as (ic' & -> & Hv & HP); try (unfold is_u in *; zdiv_lia).
  exists ic'. split_and!; [done| |intros P HPs HP0; apply HP; auto].
  intros va Hva E. destruct (Hv va Hva E) as [E1 Hn]. apply inval_valid_at in E1 as [E1 Hne]; [|done..].
  split; [done|]. intros [H1 H2]. apply Hn. split; [|done].
  destruct (line_parts va Hva) as (Em & _), (line_parts line Hu) as (Em' & _). rewrite Em, Em' in *. zdiv_lia.
Qed.

Lemma invalLines_hang fuel ic line stop :
  is_u 32 line -> line mod 32 = 0 -> 2 ^ 32 - 32 < stop -> stop < 2 ^ 32 -> invalLines fuel ic line stop = Hang.
Proof.
  revert ic line. induction fuel as [|fuel IH]; intros ic line Hu Hl Hs Hs'; cbn [invalLines];
    destruct (Z.ltb_spec line stop) as [Hlt|Hge]; try done; try (unfold is_u in *; zdiv_lia).
  apply IH; try done; [by apply wrap_is_u|unfold wrap; zdiv_lia].
Qed.
Lemma icInvalAddr_rev ic va : revision_ok ic -> revision_ok (icInvalAddr ic va).
Proof.
  intros H. pose proof (lineAt_rev ic (calculateIndex va) H) as Hl. unfold icInvalAddr.
  destruct (_ || _); [done|]. destruct ic as [r c]. apply (revision_ok_set (mkICache r c)); [done|].
  destruct H as [H _]. cbn in *. destruct (lineAt _ _). cbn. unfold wrap. zdiv_lia.
Qed.

Lemma icacheInit_rev : revision_ok icacheInit.
Proof. split; [by vm_compute|]. by intros i l. Qed.

(** The cache's invariant. *)
Definition icache_wf (fa ft : Z -> Z) (ic : ICache) : Prop := icache_ok fa ft ic /\ revision_ok ic.

Lemma icacheInvalRange_ret ic addr size :
  is_u 32 addr -> is_u 32 size -> u32 (addr + size) <= 2 ^ 32 - 32 ->
  exists ic', icacheInvalRange ic addr size = Ret ic' /\
    (forall va, is_u 32 va -> valid_at ic' va = true -> ~ (maskLine addr <= maskLine va < u32 (addr + size))) /\
    (forall P : ICache -> Prop, (forall ic va, is_u 32 va -> P ic -> P (icInvalAddr ic va)) -> P ic -> P ic').
Proof.
  intros Ha Hs Hstop. destruct (line_parts addr Ha) as (Em & _).
  destruct (invalLines_ret (Z.to_nat (size / 32 + 2)) ic (maskLine addr) (u32 (addr + size))) as (ic' & E & Hv & HP);
    try (rewrite ?Em; unfold is_u, wrap in *; zdiv_lia).
  exists ic'. split_and!; [done| |done]. intros va Hva Hvalid. by apply Hv.
Qed.

(** A cached decode is never stale: whatever fetches, invalidations and
    refills came before, the function a fetch returns is the one the decoder
    gives for the instruction it returns, in ARM and in Thumb state. The
    cache's invariant holds initially and every operation keeps it. *)
Theorem icache_decode_exact {W} `{PhysMem W} `{InstrMem W} (fa ft : Z -> Z)
    (codeArm : forall inst, codeOk (fa inst)) (codeThumb : forall inst, codeOk (ft inst))
    (sz : Z) (ic ic' : ICache) (mmu mmu' : ArmMmu W) (r : Z + Z * Z) (addr : Z)
    (Hsz : sz = 2 \/ sz = 4) (Haddr : is_u 32 addr) (Hic : icache_wf fa ft ic) :
  icache_wf fa ft icacheInit /\ icache_wf fa ft (icInval ic) /\ icache_wf fa ft (icInvalAddr ic addr) /\
  (icacheFetch fa ft sz ic mmu addr = Ret (r, ic', mmu') ->
   icache_wf fa ft ic' /\ forall inst code, r = inr (inst, code) -> code = if sz =? 4 then fa inst else ft inst).
Proof.
  destruct Hic as [Hic Hrev]. unfold icache_wf. split_and!; auto using icInval_ok, icInvalAddr_ok, icInvalAddr_rev, icacheInit_rev.
  - by apply icInval_ok.
  - by apply icInval_stale.
  - intros E. destruct (fetch_keeps _ _ codeArm codeThumb _ _ _ _ _ Hsz Haddr Hic E) as (Hc & Hok & Hr). auto.
Qed.

(** After [icacheInval] a fetch sees the memory: its result, the fault
    status or the instruction and its decoded form, and what it does to the
    TLB and to memory are those of translating the address and reading, also
    when the revision counter wraps around. *)
Theorem icache_inval_coherent {W} `{PhysMem W} `{InstrMem W} (fa ft : Z -> Z)
    (codeArm : forall inst, codeOk (fa inst)) (codeThumb : forall inst, codeOk (ft inst))
    (sz : Z) (ic : ICache) (mmu : ArmMmu W) (va : Z)
    (Hsz : sz = 2 \/ sz = 4) (Hva : is_u 32 va) (Hic : icache_wf fa ft ic) :
  ('(r, _, mmu') ← icacheFetch fa ft sz (icInval ic) mmu va; Ret (r, mmu')) = fetchUncached fa ft sz mmu va.
Proof.
  apply fetch_miss; try done; [by apply icInval_ok, Hic|by apply stale_miss, icInval_stale, Hic].
Qed.

(** C30. [icacheInvalRange] ends unless the range reaches into the last 32
    bytes of the address space, where its line counter wraps around and it
    loops for ever; when it ends, a fetch of an address of the range below
    1 GB sees the memory again. *)
Theorem icache_range_coherent {W} `{PhysMem W} `{InstrMem W} (fa ft : Z -> Z)
    (codeArm : forall inst, codeOk (fa inst)) (codeThumb : forall inst, codeOk (ft inst))
    (sz : Z) (ic : ICache) (mmu : ArmMmu W) (addr size : Z)
    (Hsz : sz = 2 \/ sz = 4) (Ha : is_u 32 addr) (Hs : is_u 32 size) (Hic : icache_wf fa ft ic) :
  if u32 (addr + size) <=? 2 ^ 32 - 32 then
    exists ic', icacheInvalRange ic addr size = Ret ic' /\ icache_wf fa ft ic' /\
      forall va, is_u 30 va -> addr <= va < u32 (addr + size) ->
        ('(r, _, mmu') ← icacheFetch fa ft sz ic' mmu va; Ret (r, mmu')) = fetchUncached fa ft sz mmu va
  else forall fuel, invalLines fuel ic (maskLine addr) (u32 (addr + size)) = Hang.
Proof.
  destruct (line_parts addr Ha) as (Em & _). destruct (Z.leb_spec (u32 (addr + size)) (2 ^ 32 - 32)) as [Hle|Hgt].
  - destruct (icacheInvalRange_ret ic addr size Ha Hs Hle) as (ic' & E & Hv & HP). exists ic'. split; [done|].
    assert (icache_wf fa ft ic') as Hwf.
    { apply HP; [|done]. intros ic0 va _ [H1 H2]. split; auto using icInvalAddr_ok, icInvalAddr_rev. }
    split; [done|]. intros va Hva Hr. assert (is_u 32 va) as Hva32 by (by apply (is_u_le 30)).
    apply fetch_miss; try done; [apply Hwf|]. apply invalid_miss; [done|].
    destruct (valid_at ic' va) eqn:Ev; [|done]. exfalso. apply (Hv va Hva32 Ev).
    destruct (line_parts va Hva32) as (Em' & _). rewrite Em, Em'. zdiv_lia.
  - intros fuel. apply invalLines_hang; try done; [rewrite Em; unfold is_u in *; zdiv_lia|rewrite Em; zdiv_lia|].
    by apply wrap_is_u.
Qed.

Lemma index_alias va k :
  calculateIndex (va + 2 ^ 30 * k) = calculateIndex va /\
  calculateLineIndex (va + 2 ^ 30 * k) = calculateLineIndex va /\
  u8 (calculateTag (va + 2 ^ 30 * k)) = u8 (calculateTag va).
Proof.
  unfold calculateIndex, calculateLineIndex, calculateTag, CACHE_LINE_WIDTH_BITS, CACHE_INDEX_BITS, wrap.
  rewrite !shiftr_div by done. change (Z.ones 17) with (2 ^ 17 - 1). change (Z.ones 5) with (2 ^ 5 - 1).
  rewrite !land_low by done. split_and!; zdiv_lia.
Qed.

(** Above 1 GB the cache takes one address for another: addresses that
    differ in their top two bits only hit the same line, since a lookup
    compares 8 of the 10 bits of the tag, and [icacheInvalAddr], which compares
    all of them, leaves the line of such an address valid. *)
Theorem icache_alias {W} `{PhysMem W} `{InstrMem W} (fa ft : Z -> Z)
    (sz : Z) (ic : ICache) (mmu : ArmMmu W) (va k : Z)
    (Hsz : sz = 2 \/ sz = 4) (Hva : is_u 32 va)
    (Hvalid : (lineAt ic (calculateIndex va)).(revision) = ic.(ic_revision))
    (Htag : (lineAt ic (calculateIndex va)).(tag) = u8 (calculateTag va)) :
  icacheFetch fa ft sz ic mmu (va + 2 ^ 30 * k) = icacheFetch fa ft sz ic mmu va /\
  (2 ^ 30 <= va -> icInvalAddr ic va = ic).
Proof.
  destruct (index_alias va k) as (Ei & El & Et). split.
  - unfold icacheFetch, fetchLine. rewrite Ei, El, Et, Hvalid, Htag, !Z.eqb_refl. cbn [negb orb].
    assert (forall x, tst x (sz - 1) = negb (x mod sz =? 0)) as Hal.
    { intros x. unfold tst. destruct Hsz; subst sz.
      - change (2 - 1) with (2 ^ 1 - 1). by rewrite land_low.
      - change (4 - 1) with (2 ^ 2 - 1). by rewrite land_low. }
    rewrite !Hal. assert ((va + 2 ^ 30 * k) mod sz = va mod sz) as -> by (destruct Hsz; subst sz; zdiv_lia). done.
  - intros Hbig. unfold icInvalAddr. rewrite Htag.
    destruct (Z.eqb_spec (u8 (calculateTag va)) (calculateTag va)) as [E|E]; [|by rewrite orb_true_r].
    exfalso. unfold calculateTag, CACHE_LINE_WIDTH_BITS, CACHE_INDEX_BITS, wrap in E. rewrite shiftr_div in E by done. zdiv_lia.
Qed.

(** ** A small machine: one cacheable section at address 0 *)

#[local] Instance demo_mem : PhysMem unit := {| mem_access w _ _ _ _ := Ret (true, 0xc1e, w) |}.
#[local] Instance demo_instr : InstrMem unit := {| mem_fetch w _ _ := Ret (true, 0x4770, w) |}.

Lemma codeOk_small (f : Z -> Z) : (forall inst, 0 <= f inst < 2 ^ 29) -> forall inst, codeOk (f inst).
Proof. intros H inst. exists (f inst). specialize (H inst). split; [lia|]. symmetry. apply wrap_small. unfold is_u. lia. Qed.

Definition demo_decode (m inst : Z) : Z := inst mod m.

Lemma demo_decode_ok m : 0 < m <= 1000 -> forall inst, codeOk (demo_decode m inst).
Proof. intros Hm. apply codeOk_small. intros inst. unfold demo_decode. zdiv_lia. Qed.

Definition demo_mmu : ArmMmu unit := mmuSetDomainCfg (mmuSetTTP (mmuInit tt true) 0x4000) 3.

Definition demo_fetch (sz va : Z) := icacheFetch (demo_decode 1000) (demo_decode 999) sz icacheInit demo_mmu va.

Lemma icacheInit_wf fa ft : icache_wf fa ft icacheInit.
Proof. split; [by apply icInval_ok|apply icacheInit_rev]. Qed.

(** What a Thumb fetch through the section leaves. *)
Definition demo_filled : ICache := match demo_fetch 2 0x8000 with Ret (_, ic, _) => ic | _ => icacheInit end.
Definition demo_translated : ArmMmu unit := match demo_fetch 2 0x8000 with Ret (_, _, mmu) => mmu | _ => demo_mmu end.

(** The ARM decode of the word is made anew after the Thumb decode of its
    lower half, and takes the same entry. *)
Lemma icache_decode_exact_witness :
  demo_fetch 2 0x8000 = Ret (inr (0x4770, 0x4770 mod 999), demo_filled, demo_translated) /\
  icache_wf (demo_decode 1000) (demo_decode 999) demo_filled /\
  (forall inst code, inr (A := Z) (0x4770, 0x4770 mod 999) = inr (inst, code) -> code = demo_decode 999 inst) /\
  (let '(r, ic) := match icacheFetch (demo_decode 1000) (demo_decode 999) 4 demo_filled demo_translated 0x8000 with
                   | Ret (r, ic, _) => (r, ic) | _ => (inl 0, icacheInit) end in
   r = inr (0x4770, 0x4770 mod 1000) /\ (lineAt ic 0x400).(decoded).[0] = 4 * (0x4770 mod 1000) + 2).
Proof.
  assert (E : demo_fetch 2 0x8000 = Ret (inr (0x4770, 0x4770 mod 999), demo_filled, demo_translated)) by (vm_compute; reflexivity).
  split; [exact E|]. unfold demo_fetch in E.
  pose proof (icache_decode_exact (W := unit) (demo_decode 1000) (demo_decode 999) (demo_decode_ok 1000 ltac:(lia))
    (demo_decode_ok 999 ltac:(lia)) 2 icacheInit demo_filled demo_mmu demo_translated (inr (0x4770, 0x4770 mod 999))
    0x8000 ltac:(by left) ltac:(by is_u_lit) (icacheInit_wf _ _)) as (_ & _ & _ & Hfetch).
  specialize (Hfetch E). clear E. destruct Hfetch as [Hwf Hcode].
  split; [exact Hwf|]. split; [exact Hcode|]. by vm_compute.
Defined.

Lemma icache_inval_coherent_witness :
  ('(r, _, mmu') ← icacheFetch (demo_decode 1000) (demo_decode 999) 4 (icInval icacheInit) demo_mmu 0x8000; Ret (r, mmu')) =
  fetchUncached (demo_decode 1000) (demo_decode 999) 4 demo_mmu 0x8000.
Proof.
  apply (icache_inval_coherent (W := unit)); try apply demo_decode_ok; try lia; [by is_u_lit|apply icacheInit_wf].
Defined.

Lemma icache_range_coherent_witness :
  exists ic', icacheInvalRange icacheInit 0x8000 0x40 = Ret ic' /\ icache_wf (demo_decode 1000) (demo_decode 999) ic' /\
    forall va, is_u 30 va -> 0x8000 <= va < 0x8040 ->
      ('(r, _, mmu') ← icacheFetch (demo_decode 1000) (demo_decode 999) 4 ic' demo_mmu va; Ret (r, mmu')) =
      fetchUncached (demo_decode 1000) (demo_decode 999) 4 demo_mmu va.
Proof.
  apply (icache_range_coherent (W := unit) (demo_decode 1000) (demo_decode 999) (demo_decode_ok 1000 ltac:(lia)) (demo_decode_ok 999 ltac:(lia))
    4 icacheInit demo_mmu 0x8000 0x40); [by right|by is_u_lit|by is_u_lit|apply icacheInit_wf].
Defined.

(** The line of the ROM's reset vector answers for the same offset in RAM. *)
Definition demo_line_cache : ICache :=
  mkICache 1 {[0x400 := mkLine (le_split 32 0x4770) (replicate 16 0) 0x80 1]}.

Lemma icache_alias_witness :
  icacheFetch (demo_decode 1000) (demo_decode 999) 4 demo_line_cache demo_mmu (0xa0008000 + 2 ^ 30 * -1) =
  icacheFetch (demo_decode 1000) (demo_decode 999) 4 demo_line_cache demo_mmu 0xa0008000 /\
  (2 ^ 30 <= 0xa0008000 -> icInvalAddr demo_line_cache 0xa0008000 = demo_line_cache).
Proof.
  apply (icache_alias (W := unit) (demo_decode 1000) (demo_decode 999) 4 demo_line_cache demo_mmu 0xa0008000 (-1));
    [by right|by is_u_lit|by vm_compute|by vm_compute].
Defined.
