(* ===== verification/Memcpy.v ===== *)
(** * Copies between the host and the guest (memcpy.cpp)

    Transfers through the MMU, page by page, in the widest accesses that the
    alignment allows; [W] is the physical memory. A host buffer is a list of
    bytes with a position. *)

From S2P Require Import Prelude Bytes Interfaces Mmu CpuMem.

(** [struct MemcpyResult]; the fields are set on a fault, [wasWrite] always. *)
Record MemcpyResult := mkMemcpyResult { ok : bool; faultAddr : Z; wasWrite : bool; fsr : Z }.

Section Memcpy.
Context {W : Type} `{PhysMem W}.

(** The variables of a transfer of physical memory. *)
Record transferring := mkTransferring {
  host : list Z;      (* the host's buffer *)
  pos : Z;            (* where host points to in it *)
  armPa : Z;          (* uint32_t *)
  sizeTotal : Z;      (* uint32_t *)
  tmem : W
}.

(** Accesses of [size] bytes while as many remain; whether none failed. *)
Fixpoint transfer_loop_pa (fuel : nat) (size : Z) (write : bool) (t : transferring) : outcome (bool * transferring) :=
  match fuel with
  | O => Hang
  | S fuel =>
      if t.(sizeTotal) <? size then Ret (true, t) else
      '(good, v, w) ← mem_access t.(tmem) t.(armPa) size write (le_combine (peek t.(host) t.(pos) size));
      if negb good then Ret (false, { t with tmem := w }) else
      transfer_loop_pa fuel size write
        (mkTransferring (if write then t.(host) else poke t.(host) t.(pos) (le_split (Z.to_nat size) v))
           (t.(pos) + size) (u32 (t.(armPa) + size)) (t.(sizeTotal) - size) w)
  end.

(** The sizes of the accesses for an alignment. *)
Definition sizesFor (align : Z) : list Z :=
  match align with
  | 3 => [64; 32; 16; 8; 4; 2; 1]
  | 2 => [4; 2; 1]
  | 1 => [2; 1]
  | 0 => [1]
  | _ => []
  end.

Fixpoint transfer_pa (sizes : list Z) (write : bool) (t : transferring) : outcome (bool * transferring) :=
  match sizes with
  | [] => Ret (true, t)
  | size :: sizes =>
      '(good, t) ← transfer_loop_pa (S (Z.to_nat t.(sizeTotal))) size write t;
      if negb good then Ret (false, t) else transfer_pa sizes write t
  end.

(** [__builtin_ctz] of [arm | host | 8], for a host pointer that is a multiple of 8. *)
Definition alignOf (arm : Z) : Z := if Z.testbit arm 0 then 0 else if Z.testbit arm 1 then 1 else if Z.testbit arm 2 then 2 else 3.

(** The bytes up to the next multiple of 1024, as the code computes them. *)
Definition chunkOf (pa size : Z) : Z :=
  let pageBoundary := pa .| 0x03ff in
  if pageBoundary <? u32 (pa + size) then u32 (u32 (pageBoundary - pa) + 1) else size.

Fixpoint transferLoop (fuel : nat) (align : Z) (buf : list Z) (off arm size : Z) (write privileged : bool) (mmu : ArmMmu W)
  : outcome (MemcpyResult * list Z * ArmMmu W) :=
  match fuel with
  | O => Hang
  | S fuel =>
      if negb (0 <? size) then Ret (mkMemcpyResult true 0 write 0, buf, mmu) else
      '(r, mmu) ← mmuTranslate mmu arm privileged false;
      if negb (MMU_TRANSLATE_RESULT_OK r) then Ret (mkMemcpyResult false arm write (MMU_TRANSLATE_RESULT_FSR r), buf, mmu) else
      let pa := MMU_TRANSLATE_RESULT_PA r in
      let chunkSize := chunkOf pa size in
      '(good, t) ← transfer_pa (sizesFor align) write (mkTransferring buf off pa chunkSize mmu.(mem));
      let mmu := { mmu with mem := t.(tmem) } in
      if negb good then Ret (mkMemcpyResult false (u32 (t.(armPa) + (arm - pa))) write 10, t.(host), mmu) else
      transferLoop fuel align t.(host) (off + chunkSize) (u32 (arm + chunkSize)) (u32 (size - chunkSize)) write privileged mmu
  end.

(** Every turn moves a byte at least. *)
Definition transfer (buf : list Z) (arm size : Z) (write privileged : bool) (mmu : ArmMmu W)
  : outcome (MemcpyResult * list Z * ArmMmu W) :=
  transferLoop (S (Z.to_nat size)) (alignOf arm) buf 0 arm size write privileged mmu.

Definition memcpy_armToHost (dest : list Z) (src size : Z) (privileged : bool) (mmu : ArmMmu W) :=
  transfer dest src size false privileged mmu.

Definition memcpy_hostToArm (dest : Z) (src : list Z) (size : Z) (privileged : bool) (mmu : ArmMmu W) :=
  transfer src dest size true privileged mmu.

Definition scratchSize : Z := 4096.

(** [scratch] survives between the chunks, and between the calls. *)
Fixpoint armToArmLoop (fuel : nat) (scratch : list Z) (res : MemcpyResult) (dest src size : Z) (privileged : bool) (mmu : ArmMmu W)
  : outcome (MemcpyResult * list Z * ArmMmu W) :=
  match fuel with
  | O => Hang
  | S fuel =>
      if negb ((0 <? size) && res.(ok)) then Ret (res, scratch, mmu) else
      let chunkSize := if scratchSize <? size then scratchSize else size in
      '(res, scratch, mmu) ← memcpy_armToHost scratch src chunkSize privileged mmu;
      '(res, scratch, mmu) ← (if res.(ok) then memcpy_hostToArm dest scratch chunkSize privileged mmu else Ret (res, scratch, mmu));
      armToArmLoop fuel scratch res (u32 (dest + chunkSize)) (u32 (src + chunkSize)) (size - chunkSize) privileged mmu
  end.

Definition memcpy_armToArm (scratch : list Z) (dest src size : Z) (privileged : bool) (mmu : ArmMmu W)
  : outcome (MemcpyResult * list Z * ArmMmu W) :=
  armToArmLoop (S (Z.to_nat size)) scratch (mkMemcpyResult true 0 false 0) dest src size privileged mmu.
End Memcpy.
