(* ===== verification/CpuDecode.v ===== *)
(** * The instruction decoder (CPU.cpp)

    The choice of the function, and of its template arguments, that executes an
    ARM instruction word, and the functions' addresses in the instruction
    cache. The reference is the encoding tables of the ARM architecture. *)

From S2P Require Import Prelude CpuSoc Thumb CpuMem.

Definition INSTR_PACE_ENTER := 0xfff9ace0.
Definition INSTR_PACE_RESUME := 0xfff9ace1.
Definition INSTR_PACE_RETURN_FROM_CALLOUT := 0xfff9ace2.
Definition INSTR_PEEPHOLE_ADS_UDIVMOD := 0xfff9ee90.
Definition INSTR_PEEPHOLE_ADS_SDIVMOD := 0xfff9ee91.
Definition INSTR_PEEPHOLE_ADS_UDIV10 := 0xfff9ee92.
Definition INSTR_PEEPHOLE_ADS_SDIV10 := 0xfff9ee93.
Definition INSTR_PEEPHOLE_ADS_MEMCPY := 0xfff9ee94.

(** The functions [execFn_*] with their template arguments, [wasT] apart. *)
Inductive ExecFn :=
| fn_invalid
| fn_noop
| fn_b2thumb (align2 : bool)
| fn_cp_mem2reg (two : bool)
| fn_cp_dp (two : bool)
| fn_paceEnter
| fn_paceResume
| fn_paceReturnFromCallout
| fn_udivmod
| fn_sdivmod
| fn_udiv10
| fn_sdiv10
| fn_memcpy
| fn_swb (tag : Z)
| fn_mult (tag : Z) (setFlags : bool)
| fn_load_store_1 (mode : Z) (pc addBefore addAfter immediate negate : bool)
| fn_psr2reg (spsr : bool)
| fn_reg2psr (spsr pc : bool)
| fn_dspadd (tag : Z)
| fn_softbreak
| fn_dspmul (tag : Z)
| fn_clz
| fn_bl_reg (link : bool)
| fn_dproc (op : Z) (setFlags srcPc destPc : bool)
| fn_load_store_2 (mode : Z) (srcPc destPc addBefore addAfter immediate negate : bool)
| fn_load_store_multi (mode : Z) (isLoad sBit : bool)
| fn_bl (link : bool)
| fn_swi.

(** ** Addressing modes *)

Definition cpuPrvArmAdrModeDecode_2 (instr : Z) : Z :=
  (if tst instr 0x00400000 then 0 else ARM_MODE_2_WORD)
  .| (if tst instr 0x00100000 then ARM_MODE_2_LOAD else 0)
  .| (if negb (tst instr 0x01000000) && tst instr 0x00200000 then ARM_MODE_2_T else 0).

(** Without STRICT_CPU. *)
Definition cpuPrvArmAdrModeDecode_3 (instr : Z) : Z :=
  let reg := (instr .>> 16) .& 0x0F in
  let reg := if negb (tst instr 0x00400000) && tst instr 0x00000F00 then reg .| ARM_MODE_3_INV else reg in
  match ((instr .>> 5) .& 0x3) .| ((instr .>> 18) .& 0x04) with
  | 7 => reg .| ARM_MODE_3_SH .| ARM_MODE_3_LOAD
  | 3 => reg .| ARM_MODE_3_D
  | 6 => reg .| ARM_MODE_3_SB .| ARM_MODE_3_LOAD
  | 2 => reg .| ARM_MODE_3_D .| ARM_MODE_3_LOAD
  | 5 => reg .| ARM_MODE_3_LOAD
  | 0 => reg .| ARM_MODE_3_INV
  | _ => reg
  end.

Definition cpuPrvArmAdrModeDecode_4 (instr : Z) : Z :=
  (if tst instr 0x00200000 then ARM_MODE_4_WBK else 0)
  .| (if tst instr 0x00800000 then ARM_MODE_4_INC else 0)
  .| (if tst instr 0x01000000 then ARM_MODE_4_BFR else 0).

(** ** The decoder *)

(** Condition field 15. *)
Definition decodeUncond (wasT : bool) (instr : Z) : ExecFn :=
  let rest :=
    if wasT then fn_invalid
    else if instr =? INSTR_PACE_ENTER then fn_paceEnter
    else if instr =? INSTR_PACE_RESUME then fn_paceResume
    else if instr =? INSTR_PACE_RETURN_FROM_CALLOUT then fn_paceReturnFromCallout
    else if instr =? INSTR_PEEPHOLE_ADS_UDIVMOD then fn_udivmod
    else if instr =? INSTR_PEEPHOLE_ADS_SDIVMOD then fn_sdivmod
    else if instr =? INSTR_PEEPHOLE_ADS_UDIV10 then fn_udiv10
    else if instr =? INSTR_PEEPHOLE_ADS_SDIV10 then fn_sdiv10
    else if instr =? INSTR_PEEPHOLE_ADS_MEMCPY then fn_memcpy
    else fn_invalid in
  match (instr .>> 24) .& 0x0f with
  | 5 | 7 => if (instr .& 0x0D70F000) =? 0x0550F000 then fn_noop else fn_invalid
  | 10 | 11 => fn_b2thumb (tst instr 0x01000000)
  | 12 | 13 => fn_cp_mem2reg true
  | 14 => fn_cp_dp true
  | _ => rest
  end.

(** SWP and the multiplies. *)
Definition decodeMult (instr : Z) : ExecFn :=
  if tst instr 0x01000000 then
    match (instr .>> 20) .& 0x0F with
    | 0 => fn_swb 0
    | 4 => fn_swb 4
    | _ => fn_invalid
    end
  else
    let flags := tst instr 0x00100000 in
    match (instr .>> 20) .& 0x0F with
    | 0 | 1 => fn_mult 0 flags
    | 2 | 3 => fn_mult 2 flags
    | 8 | 9 | 12 | 13 => fn_mult 8 flags
    | 10 | 11 | 14 | 15 => fn_mult 10 flags
    | _ => fn_invalid
    end.

(** The loads and stores of halfwords, signed bytes and doublewords. *)
Definition decodeLoadStore1 (instr : Z) : ExecFn :=
  let mode := cpuPrvArmAdrModeDecode_3 instr in
  let pc := ((instr .>> 16) .& 0x0f) =? REG_NO_PC in
  let addAfter := negb (tst instr 0x01000000) || tst instr 0x00200000 in
  let addBefore := tst instr 0x01000000 in
  let negate := negb (tst instr 0x00800000) in
  let immediate := tst instr 0x00400000 in
  let EXEC_LOAD_STORE_1 mode :=
    if addBefore || addAfter then fn_load_store_1 mode pc addBefore addAfter immediate negate
    else fn_load_store_1 mode pc addBefore addAfter false false in
  if tst mode ARM_MODE_2_INV then fn_invalid
  else if tst mode ARM_MODE_3_LOAD then EXEC_LOAD_STORE_1 (ARM_MODE_3_LOAD .| (mode .& ARM_MODE_3_TYPE))
  else
    match mode .& ARM_MODE_3_TYPE with
    | 0x00 => (* H *)
        if ((instr .>> 12) .& 0x0f) =? REG_NO_PC then EXEC_LOAD_STORE_1 (ARM_MODE_3_H .| ARM_MDOE_3_PCREL)
        else EXEC_LOAD_STORE_1 ARM_MODE_3_H
    | 0x30 => EXEC_LOAD_STORE_1 ARM_MODE_3_D
    | _ => fn_invalid
    end.

(** The miscellaneous instructions. *)
Definition decodeMisc (instr : Z) : ExecFn :=
  match (instr .>> 4) .& 0x0F with
  | 0 =>
      if (instr .& 0x00BF0FFF) =? 0x000F0000 then fn_psr2reg (tst instr 0x00400000)
      else if (instr .& 0x00B0FFF0) =? 0x0020F000 then
        fn_reg2psr (tst instr 0x00400000) ((instr .& 0x0f) =? 0x0f)
      else fn_invalid
  | 5 => if tst instr 0x00000F00 then fn_invalid else fn_dspadd ((instr .>> 21) .& 3)
  | 7 => fn_softbreak
  | 8 | 9 | 10 | 11 | 12 | 13 | 14 | 15 =>
      match (instr .>> 21) .& 3 with
      | 0 => fn_dspmul 0
      | 1 => if tst instr 0x00000020 && tst instr 0x0000F000 then fn_invalid else fn_dspmul 1
      | 2 => fn_dspmul 2
      | _ => if tst instr 0x0000F000 then fn_invalid else fn_dspmul 3
      end
  | 1 | 3 =>
      if tst instr 0x00400000 then fn_clz
      else if negb ((instr .& 0x0FFFFF00) =? 0x012FFF00) then fn_invalid
      else fn_bl_reg ((instr .& 0x00000030) =? 0x00000030)
  | _ => fn_invalid
  end.

(** Data processing, and immediates to the status registers. *)
Definition decodeDproc (instr : Z) : ExecFn :=
  let setFlags := tst instr 0x00100000 in
  let srcPc := ((instr .>> 16) .& 0x0F) =? 0x0f in
  let destPc := ((instr .>> 12) .& 0x0F) =? 0x0f in
  let op := (instr .>> 21) .& 0x0F in
  if ((op =? 8) || (op =? 10)) && negb setFlags then fn_invalid
  else fn_dproc op setFlags srcPc destPc.

(** The loads and stores of words and bytes. *)
Definition decodeLoadStore2 (instr : Z) : ExecFn :=
  let mode := cpuPrvArmAdrModeDecode_2 instr in
  let regSrc := (instr .>> 16) .& 0x0f in
  let regDst := (instr .>> 12) .& 0x0f in
  let srcPc := regSrc =? 15 in
  let destPc := regDst =? 15 in
  let addAfter := negb (tst instr 0x01000000) || tst instr 0x00200000 in
  let addBefore := tst instr 0x01000000 in
  let negate := negb (tst instr 0x00800000) in
  let immediate := negb (tst instr 0x02000000) in
  let syscall := ((regSrc =? 9) && (regDst =? 12)) || ((regSrc =? 12) && destPc) in
  let EXEC_LOAD_STORE_2 mode :=
    if addBefore || addAfter then fn_load_store_2 mode srcPc destPc addBefore addAfter immediate negate
    else fn_load_store_2 mode srcPc destPc addBefore addAfter false false in
  if tst mode ARM_MODE_2_INV then fn_invalid
  else if tst mode ARM_MODE_2_LOAD && tst mode ARM_MODE_2_WORD && syscall then EXEC_LOAD_STORE_2 (mode .| ARM_MODE_2_SYSCALL)
  else EXEC_LOAD_STORE_2 mode.

Definition cpuPrvDecoderArm (wasT : bool) (instr : Z) : ExecFn :=
  if (instr .>> 28) =? 0x0f then decodeUncond wasT instr else
  match (instr .>> 24) .& 0x0F with
  | 0 | 1 =>
      if (instr .& 0x00000090) =? 0x00000090 then
        if (instr .& 0x00000060) =? 0x00000000 then decodeMult instr else decodeLoadStore1 instr
      else if (instr .& 0x01900000) =? 0x01000000 then decodeMisc instr
      else decodeDproc instr
  | 2 | 3 => decodeDproc instr
  | 4 | 5 => decodeLoadStore2 instr
  | 6 | 7 => if tst instr 0x00000010 then fn_invalid else decodeLoadStore2 instr
  | 8 | 9 =>
      fn_load_store_multi (cpuPrvArmAdrModeDecode_4 instr) (tst instr 0x00100000) (tst instr 0x00400000)
  | 10 | 11 => fn_bl (tst instr 0x01000000)
  | 12 | 13 => fn_cp_mem2reg false
  | 14 => fn_cp_dp false
  | _ => fn_swi
  end.

(** ** What the cache stores *)

(** A function pointer; a template's instances for ARM and Thumb differ. *)
Inductive FnPtr :=
| fn (wasT : bool) (f : ExecFn)
| fnThumb (f : ThumbExec).

Definition decodeArm (instr : Z) : outcome FnPtr := Ret (fn false (cpuPrvDecoderArm false instr)).

Definition decodeThumb (instr : Z) : outcome FnPtr :=
  r ← Thumb.cpuDecodeThumb instr;
  Ret (match r with
       | inl translatedInstr => fn true (cpuPrvDecoderArm true translatedInstr)
       | inr f => fnThumb f
       end).
