(* ===== verification/DecodeTable.v ===== *)
(** * The decoder against the encoding tables

    The encodings of the ARM architecture (version 5TE) as a table of masks and
    values, the words outside of it that the decoder accepts all the same, and
    the proof that the decoder's tests choose the row the tables have. *)

From S2P Require Import Prelude CpuSoc Thumb CpuMem CpuDecode.

(** A row holds for the words that agree with [value] in the bits of [mask]. *)
Record row := mkRow { mask : Z; value : Z; choose : Z -> ExecFn }.

Definition matches (instr : Z) (r : row) : bool := (instr .& r.(mask)) =? r.(value).

Fixpoint firstRow (instr : Z) (rows : list row) : ExecFn :=
  match rows with
  | [] => fn_invalid
  | r :: rows => if matches instr r then r.(choose) instr else firstRow instr rows
  end.

Definition undefined : Z -> ExecFn := fun _ => fn_invalid.

(** A bit that the architecture only says should be zero or should be one is in
    a mask where the decoder checks it; a word that breaks such a rule is
    unpredictable.

    Condition 1111: PLD, BLX (immediate), and the coprocessor instructions. *)
Definition uncondRows : list row :=
  [ mkRow 0xFD70F000 0xF550F000 (fun _ => fn_noop);
    mkRow 0xFE000000 0xFA000000 (fun i => fn_b2thumb (Z.testbit i 24));
    mkRow 0xFE000000 0xFC000000 (fun _ => fn_cp_mem2reg true);
    mkRow 0xFF000000 0xFE000000 (fun _ => fn_cp_dp true) ].

(** The emulator's own words, in the space that the architecture leaves undefined. *)
Definition patchRows : list row :=
  [ mkRow 0xFFFFFFFF 0xFFF9ACE0 (fun _ => fn_paceEnter);
    mkRow 0xFFFFFFFF 0xFFF9ACE1 (fun _ => fn_paceResume);
    mkRow 0xFFFFFFFF 0xFFF9ACE2 (fun _ => fn_paceReturnFromCallout);
    mkRow 0xFFFFFFFF 0xFFF9EE90 (fun _ => fn_udivmod);
    mkRow 0xFFFFFFFF 0xFFF9EE91 (fun _ => fn_sdivmod);
    mkRow 0xFFFFFFFF 0xFFF9EE92 (fun _ => fn_udiv10);
    mkRow 0xFFFFFFFF 0xFFF9EE93 (fun _ => fn_sdiv10);
    mkRow 0xFFFFFFFF 0xFFF9EE94 (fun _ => fn_memcpy);
    mkRow 0xF0000000 0xF0000000 undefined ].

(** Multiplies and swaps. *)
Definition multRows : list row :=
  let mult tag := fun i => fn_mult tag (Z.testbit i 20) in
  [ mkRow 0x0FE000F0 0x00000090 (mult 0);   (* MUL *)
    mkRow 0x0FE000F0 0x00200090 (mult 2);   (* MLA *)
    mkRow 0x0FA000F0 0x00800090 (mult 8);   (* UMULL, SMULL *)
    mkRow 0x0FA000F0 0x00A00090 (mult 10);  (* UMLAL, SMLAL *)
    mkRow 0x0FF000F0 0x01000090 (fun _ => fn_swb 0);
    mkRow 0x0FF000F0 0x01400090 (fun _ => fn_swb 4);
    mkRow 0x0E0000F0 0x00000090 undefined ].

Definition isPc (i lo : Z) : bool := bits i (lo + 3) lo =? 15.

(** P: the offset is added before the access; it is written back when W is set
    or when P is clear. *)
Definition addBefore (i : Z) : bool := Z.testbit i 24.
Definition addAfter (i : Z) : bool := negb (Z.testbit i 24) || Z.testbit i 21.

(** Halfwords, signed bytes and doublewords. *)
Definition ls1 (mode : Z) (i : Z) : ExecFn :=
  fn_load_store_1 mode (isPc i 16) (addBefore i) (addAfter i) (Z.testbit i 22) (negb (Z.testbit i 23)).

(** Bits 11-8 of the register forms should be zero. *)
Definition extraRows : list row :=
  [ mkRow 0x0E4000F0 0x000000B0 (fun i => if bits i 11 8 =? 0 then
      ls1 (if Z.testbit i 20 then 0x40 else if isPc i 12 then 0x01 else 0x00) i else fn_invalid);  (* LDRH, STRH *)
    mkRow 0x0E5000F0 0x001000D0 (fun i => if bits i 11 8 =? 0 then ls1 0x60 i else fn_invalid);     (* LDRSB *)
    mkRow 0x0E5000F0 0x001000F0 (fun i => if bits i 11 8 =? 0 then ls1 0x50 i else fn_invalid);     (* LDRSH *)
    mkRow 0x0E5000F0 0x000000D0 (fun i => if bits i 11 8 =? 0 then ls1 0x70 i else fn_invalid);     (* LDRD *)
    mkRow 0x0E5000F0 0x000000F0 (fun i => if bits i 11 8 =? 0 then ls1 0x30 i else fn_invalid);     (* STRD *)
    mkRow 0x0E4000F0 0x004000B0 (fun i => ls1 (if Z.testbit i 20 then 0x40 else if isPc i 12 then 0x01 else 0x00) i);
    mkRow 0x0E5000F0 0x005000D0 (ls1 0x60);
    mkRow 0x0E5000F0 0x005000F0 (ls1 0x50);
    mkRow 0x0E5000F0 0x004000D0 (ls1 0x70);
    mkRow 0x0E5000F0 0x004000F0 (ls1 0x30) ].

(** The miscellaneous instructions, by bits 22-21 and 7-4. *)
Definition miscRows : list row :=
  [ mkRow 0x0FBF0FFF 0x010F0000 (fun i => fn_psr2reg (Z.testbit i 22));                     (* MRS *)
    mkRow 0x0FB0FFF0 0x0120F000 (fun i => fn_reg2psr (Z.testbit i 22) (bits i 3 0 =? 15));  (* MSR *)
    mkRow 0x0FFFFFF0 0x012FFF10 (fun _ => fn_bl_reg false);                                 (* BX *)
    mkRow 0x0FFFFFF0 0x012FFF30 (fun _ => fn_bl_reg true);                                  (* BLX *)
    mkRow 0x0FF000F0 0x01600010 (fun _ => fn_clz);                                          (* CLZ *)
    mkRow 0x0F900FF0 0x01000050 (fun i => fn_dspadd (bits i 22 21));                        (* QADD, QSUB, QDADD, QDSUB *)
    mkRow 0x0FF000F0 0x01200070 (fun _ => fn_softbreak);                                    (* BKPT *)
    mkRow 0x0FF00090 0x01000080 (fun _ => fn_dspmul 0);                                     (* SMLAxy *)
    mkRow 0x0FF000B0 0x01200080 (fun _ => fn_dspmul 1);                                     (* SMLAWy *)
    mkRow 0x0FF0F0B0 0x012000A0 (fun _ => fn_dspmul 1);                                     (* SMULWy *)
    mkRow 0x0FF00090 0x01400080 (fun _ => fn_dspmul 2);                                     (* SMLALxy *)
    mkRow 0x0FF0F090 0x01600080 (fun _ => fn_dspmul 3);                                     (* SMULxy *)
    mkRow 0x0F900090 0x01000080 undefined;
    mkRow 0x0F900010 0x01000000 undefined;
    mkRow 0x0F900090 0x01000010 undefined ].

(** Data processing; TST and CMP without S, as immediates, are undefined, TEQ
    and CMN without S are MSR (immediate). *)
Definition dprocRows : list row :=
  [ mkRow 0x0FB00000 0x03000000 undefined;
    mkRow 0x0C000000 0x00000000
      (fun i => fn_dproc (bits i 24 21) (Z.testbit i 20) (isPc i 16) (isPc i 12)) ].

(** Words and bytes; a load that may be part of a system call is marked. *)
Definition ls2 (i : Z) : ExecFn :=
  let syscall := ((bits i 19 16 =? 9) && (bits i 15 12 =? 12)) || ((bits i 19 16 =? 12) && isPc i 12) in
  let word := negb (Z.testbit i 22) in
  let mode := (if word then 0x10 else 0) .| (if Z.testbit i 20 then 0x20 else 0)
              .| (if negb (Z.testbit i 24) && Z.testbit i 21 then 0x40 else 0)
              .| (if word && Z.testbit i 20 && syscall then 0x01 else 0) in
  fn_load_store_2 mode (isPc i 16) (isPc i 12) (addBefore i) (addAfter i) (negb (Z.testbit i 25)) (negb (Z.testbit i 23)).

Definition otherRows : list row :=
  [ mkRow 0x0E000010 0x06000010 undefined;
    mkRow 0x0C000000 0x04000000 ls2;
    mkRow 0x0E000000 0x08000000 (fun i => fn_load_store_multi
      ((if Z.testbit i 21 then 0x40 else 0) .| (if Z.testbit i 23 then 0x10 else 0) .| (if Z.testbit i 24 then 0x20 else 0))
      (Z.testbit i 20) (Z.testbit i 22));                   (* LDM, STM *)
    mkRow 0x0E000000 0x0A000000 (fun i => fn_bl (Z.testbit i 24));
    mkRow 0x0E000000 0x0C000000 (fun _ => fn_cp_mem2reg false);
    mkRow 0x0F000000 0x0E000000 (fun _ => fn_cp_dp false);
    mkRow 0x0F000000 0x0F000000 (fun _ => fn_swi) ].

(** The own words are ARM instructions only. *)
Definition armTable (wasT : bool) : list row :=
  uncondRows ++ (if wasT then [mkRow 0xF0000000 0xF0000000 undefined] else patchRows) ++
  multRows ++ extraRows ++ miscRows ++ dprocRows ++ otherRows.

(** Words that the architecture leaves undefined, and that the decoder takes for
    CLZ or BKPT: it looks at one of bits 22-21 or at none, and does not tell 0001
    from 0011. *)
Definition lenientRows : list row :=
  [ mkRow 0x0FF000F0 0x01400010 (fun _ => fn_clz);
    mkRow 0x0FD000F0 0x01400030 (fun _ => fn_clz);
    mkRow 0x0FF000F0 0x01000070 (fun _ => fn_softbreak);
    mkRow 0x0FD000F0 0x01400070 (fun _ => fn_softbreak) ].

Definition lenient (instr : Z) : bool := negb ((instr .>> 28) =? 15) && existsb (matches instr) lenientRows.

(** Everything that the decoder accepts. *)
Definition acceptedTable (wasT : bool) : list row :=
  uncondRows ++ (if wasT then [mkRow 0xF0000000 0xF0000000 undefined] else patchRows) ++
  multRows ++ extraRows ++ lenientRows ++ miscRows ++ dprocRows ++ otherRows.

(** ** Tests on bits *)

Definition idxs32 : list Z := map Z.of_nat (seq 0 32).
Definition setBits (m : Z) : list Z := List.filter (fun i => Z.testbit m i) idxs32.

Lemma idxs32_in i : 0 <= i < 32 -> In i idxs32.
Proof. intros. apply in_map_iff. exists (Z.to_nat i). split; [lia|]. apply in_seq. lia. Qed.

Lemma tst_bits x m : is_u 32 m -> tst x m = existsb (fun i => Z.testbit x i) (setBits m).
Proof.
  intros Hm. apply eq_true_iff_eq. rewrite tst_exists, existsb_exists. unfold setBits. split.
  - intros (i & Hi & Hx & Hb). exists i. split; [|done]. apply filter_In. split; [|done]. apply idxs32_in.
    split; [done|]. destruct (Z.lt_ge_cases i 32); [done|]. by rewrite (testbit_above 32) in Hb.
  - intros (i & [Hin Hb]%filter_In & Hx). exists i. split; [|done].
    apply in_map_iff in Hin as (n & <- & _). lia.
Qed.

(** The bits a mask asks for, with the values it asks for. *)
Definition wanted (m v : Z) : list (Z * bool) := map (fun i => (i, Z.testbit v i)) (setBits m).

Lemma mask_bits x m v :
  is_u 32 m -> v .&~ m = 0 ->
  ((x .& m) =? v) = forallb (fun p : Z * bool => if p.2 then Z.testbit x p.1 else negb (Z.testbit x p.1)) (wanted m v).
Proof.
  intros Hm Hv. apply eq_true_iff_eq. rewrite Z.eqb_eq, forallb_forall. unfold wanted, setBits. split.
  - intros <- p (i & <- & [_ Hb]%filter_In)%in_map_iff. cbn. rewrite Z.land_spec, Hb, andb_true_r.
    by destruct (Z.testbit x i).
  - intros H. apply Z.bits_inj'. intros i Hi. rewrite Z.land_spec. destruct (Z.testbit m i) eqn:Em.
    + assert (i < 32) by (destruct (Z.lt_ge_cases i 32); [done|]; by rewrite (testbit_above 32 m) in Em).
      specialize (H (i, Z.testbit v i) ltac:(apply in_map_iff; exists i; split; [done|]; apply filter_In; split; [apply idxs32_in; lia|done])).
      cbn [fst snd] in H. rewrite andb_true_r. by destruct (Z.testbit v i), (Z.testbit x i).
    + assert (Z.testbit (v .&~ m) i = false) as E by (by rewrite Hv, Z.testbit_0_l).
      rewrite Z.ldiff_spec, Em, andb_true_r in E. by rewrite E, andb_false_r.
Qed.

(** A field of [n] bits, as the sum of its bits. *)
Fixpoint field (x lo : Z) (n : nat) : Z :=
  match n with
  | O => 0
  | S n => Z.b2z (Z.testbit x lo) + 2 * field x (lo + 1) n
  end.

Lemma field_spec x lo n : 0 <= lo -> (x .>> lo) .& Z.ones (Z.of_nat n) = field x lo n.
Proof.
  intros Hlo. rewrite Z.land_ones, Z.shiftr_div_pow2 by lia. revert lo Hlo.
  induction n as [|n IH]; intros lo Hlo; [cbn; by rewrite Z.mod_1_r|].
  cbn [field]. rewrite <- IH by lia. rewrite Nat2Z.inj_succ, Z.pow_succ_r by lia.
  rewrite Z.rem_mul_r by lia. rewrite Z.testbit_spec' by lia. rewrite Z.pow_add_r, Z.div_div by lia.
  by change (2 ^ 1) with 2.
Qed.

Lemma field_4 x lo : 0 <= lo -> (x .>> lo) .& 15 = field x lo 4.
Proof. intros. by rewrite <- field_spec. Qed.

Lemma field_2 x lo : 0 <= lo -> (x .>> lo) .& 3 = field x lo 2.
Proof. intros. by rewrite <- field_spec. Qed.

Lemma firstRow_skip instr rows rest :
  (forall r, In r rows -> matches instr r = false) -> firstRow instr (rows ++ rest) = firstRow instr rest.
Proof.
  induction rows as [|r rows IH]; cbn; [done|]. intros H. rewrite (H r) by auto. auto.
Qed.

Lemma firstRow_prefix instr rows rest rest' :
  firstRow instr rest = firstRow instr rest' -> firstRow instr (rows ++ rest) = firstRow instr (rows ++ rest').
Proof. intros E. induction rows as [|r rows IH]; [done|]. cbn [app firstRow]. by rewrite IH. Qed.

(** Turn every test of the goal into one on the bits of the word. *)
Ltac to_bits :=
  repeat match goal with
  | |- context [tst ?x ?m] => is_var x; rewrite (tst_bits x m) by (unfold is_u; lia);
      let l := eval vm_compute in (setBits m) in change (setBits m) with l
  | |- context [(?x .& ?m) =? ?v] => is_var x; rewrite (mask_bits x m v) by (unfold is_u; lia || reflexivity);
      let l := eval vm_compute in (wanted m v) in change (wanted m v) with l
  | |- context [(?x .>> ?lo) .& 15] => is_var x; rewrite (field_4 x lo) by lia
  | |- context [(?x .>> ?lo) .& 3] => is_var x; rewrite (field_2 x lo) by lia
  end; cbn [existsb forallb fst snd field];
  repeat match goal with |- context [Z.testbit ?x (?a + ?b)] => let c := eval vm_compute in (a + b) in change (a + b) with c end.

Lemma cond_bits instr :
  is_u 32 instr ->
  ((instr .>> 28) =? 15) = Z.testbit instr 28 && Z.testbit instr 29 && Z.testbit instr 30 && Z.testbit instr 31.
Proof.
  intros Hu. assert (instr .>> 28 = (instr .>> 28) .& 15) as ->.
  { change 15 with (2 ^ 4 - 1). rewrite land_low, shiftr_div by done. symmetry. apply Z.mod_small. unfold is_u in Hu. zdiv_lia. }
  to_bits. by destruct (Z.testbit instr 28), (Z.testbit instr 29), (Z.testbit instr 30), (Z.testbit instr 31).
Qed.

(** The rows of condition 1111. *)
Definition uncondRow (r : row) : bool :=
  ((r.(mask) .& 0xF0000000) =? 0xF0000000) && ((r.(value) .>> 28) =? 15).

Lemma uncond_row_cond instr r :
  is_u 32 instr -> uncondRow r = true -> (instr .>> 28) <> 15 -> matches instr r = false.
Proof.
  intros Hu [Hm Hv]%andb_true_iff Hc. apply Z.eqb_eq in Hm, Hv. apply Z.eqb_neq. intros E. apply Hc. rewrite <- Hv, <- E.
  rewrite Z.shiftr_land. assert (r.(mask) .>> 28 .& 15 = 15) as Hm'.
  { assert ((r.(mask) .& 0xF0000000) .>> 28 = 15) as H by (by rewrite Hm). by rewrite Z.shiftr_land in H. }
  assert (instr .>> 28 = instr .>> 28 .& 15) as ->.
  { change 15 with (2 ^ 4 - 1). rewrite land_low, shiftr_div by done. symmetry. apply Z.mod_small. unfold is_u in Hu. zdiv_lia. }
  by rewrite <- Z.land_assoc, (Z.land_comm 15), Hm'.
Qed.

(** The words of the emulator have the class 15. *)
Definition ownWord (wasT : bool) (instr : Z) : ExecFn :=
  firstRow instr (if wasT then [mkRow 0xF0000000 0xF0000000 undefined] else patchRows).

Lemma own_invalid wasT instr : (instr .>> 24) .& 15 <> 15 -> ownWord wasT instr = fn_invalid.
Proof.
  intros Hc. unfold ownWord. destruct wasT; cbn -[matches]; [by destruct (matches _ _)|].
  assert (forall v f, (v .>> 24) .& 15 = 15 -> matches instr (mkRow 0xFFFFFFFF v f) = false) as H.
  { intros v f Hv. apply Z.eqb_neq. cbn [mask value]. intros E. apply Hc. etransitivity; [|exact Hv]. by rewrite <- E, Z.shiftr_land, <- Z.land_assoc. }
  rewrite !H by reflexivity. by destruct (matches _ _).
Qed.

(** Condition 1111 does not get past them. *)
Lemma own_catches (wasT : bool) instr (rest : list row) :
  is_u 32 instr -> (instr .>> 28) = 15 ->
  firstRow instr ((if wasT then [mkRow 0xF0000000 0xF0000000 undefined] else patchRows) ++ rest) = ownWord wasT instr.
Proof.
  intros Hu Hc. pose proof (cond_bits instr Hu) as Hb. rewrite Hc in Hb. cbn [Z.eqb Pos.eqb] in Hb.
  symmetry in Hb. rewrite !andb_true_iff in Hb. destruct Hb as [[[H28 H29] H30] H31].
  assert (matches instr (mkRow 0xF0000000 0xF0000000 undefined) = true) as Hlast.
  { unfold matches. cbn [mask value]. to_bits. by rewrite H28, H29, H30, H31. }
  unfold ownWord, patchRows. destruct wasT; cbn [app firstRow]; rewrite Hlast; done.
Qed.

Lemma decode_uncond_exact wasT instr :
  is_u 32 instr -> (instr .>> 28) = 15 ->
  cpuPrvDecoderArm wasT instr = firstRow instr (acceptedTable wasT).
Proof.
  intros Hu Hc. pose proof (cond_bits instr Hu) as Hb. rewrite Hc in Hb. cbn [Z.eqb Pos.eqb] in Hb.
  symmetry in Hb. rewrite !andb_true_iff in Hb. destruct Hb as [[[H28 H29] H30] H31].
  assert (ownWord wasT instr = if wasT then fn_invalid
    else if instr =? INSTR_PACE_ENTER then fn_paceEnter
    else if instr =? INSTR_PACE_RESUME then fn_paceResume
    else if instr =? INSTR_PACE_RETURN_FROM_CALLOUT then fn_paceReturnFromCallout
    else if instr =? INSTR_PEEPHOLE_ADS_UDIVMOD then fn_udivmod
    else if instr =? INSTR_PEEPHOLE_ADS_SDIVMOD then fn_sdivmod
    else if instr =? INSTR_PEEPHOLE_ADS_UDIV10 then fn_udiv10
    else if instr =? INSTR_PEEPHOLE_ADS_SDIV10 then fn_sdiv10
    else if instr =? INSTR_PEEPHOLE_ADS_MEMCPY then fn_memcpy
    else fn_invalid) as Hown.
  { unfold ownWord, patchRows. destruct wasT; cbn [firstRow]; [by destruct (matches _ _)|].
    assert (forall v f, matches instr (mkRow 0xFFFFFFFF v f) = (instr =? v)) as Hfull.
    { intros v f. unfold matches. cbn [mask value]. change 0xFFFFFFFF with (2 ^ 32 - 1).
      by rewrite land_low, (Z.mod_small instr). }
    rewrite !Hfull. cbn [choose]. repeat (destruct (instr =? _); [done|]). by destruct (matches _ _). }
  unfold cpuPrvDecoderArm, decodeUncond. rewrite Hc. cbn [Z.eqb Pos.eqb]. rewrite <- Hown.
  unfold acceptedTable. cbn [firstRow app uncondRows]. rewrite own_catches by done. pose proof (own_invalid wasT instr) as Hinv. revert Hinv.
  set (rest := ownWord wasT instr). clearbody rest. unfold matches. cbn [mask value choose].
  to_bits. rewrite H28, H29, H30, H31.
  destruct (Z.testbit instr 27), (Z.testbit instr 26), (Z.testbit instr 25), (Z.testbit instr 24); cbn;
    intros Hinv; try rewrite (Hinv ltac:(done)); rewrite ?andb_false_r, ?andb_true_r; reflexivity.
Qed.

Lemma bits_field x lo : 0 <= lo -> bits x (lo + 3) lo = field x lo 4.
Proof. intros. unfold bits. replace (lo + 3 - lo + 1) with 4 by lia. by apply field_4. Qed.

Lemma bits_4 x hi lo : 0 <= lo -> hi = lo + 3 -> bits x hi lo = field x lo 4.
Proof. intros ? ->. by apply bits_field. Qed.

Lemma bits_2 x hi lo : 0 <= lo -> hi = lo + 1 -> bits x hi lo = field x lo 2.
Proof. intros ? ->. unfold bits. replace (lo + 1 - lo + 1) with 2 by lia. by apply field_2. Qed.

(** The rows that ask for the other value of a known bit are out. *)
Definition admits (k : Z) (b : bool) (r : row) : bool := negb (Z.testbit r.(mask) k && xorb (Z.testbit r.(value) k) b).

Fixpoint select (bs : list bool) (rows : list row) : list row :=
  match bs, rows with
  | b :: bs, r :: rows => if b then r :: select bs rows else select bs rows
  | _, _ => []
  end.

Lemma firstRow_known k b instr rows bs :
  0 <= k -> Z.testbit instr k = b -> map (admits k b) rows = bs -> firstRow instr rows = firstRow instr (select bs rows).
Proof.
  intros Hk <- <-. induction rows as [|r rows IH]; [done|]. cbn [map select firstRow].
  unfold admits at 1. destruct (Z.testbit (mask r) k && xorb _ _) eqn:E; cbn [negb firstRow]; [|by rewrite IH].
  apply andb_true_iff in E as [Em Ev]. unfold matches. destruct (Z.eqb_spec (instr .& mask r) (value r)) as [H|]; [|done].
  rewrite <- H, Z.land_spec, Em, andb_true_r, xorb_nilpotent in Ev. done.
Qed.

Ltac known E :=
  match type of E with Z.testbit ?x ?k = ?b =>
    match goal with |- context [firstRow x ?rows] =>
      let bs := eval vm_compute in (map (admits k b) rows) in
      rewrite (firstRow_known k b x rows bs ltac:(lia) E ltac:(vm_compute; reflexivity)); cbn [select]
    end
  end.

(** Split on a bit: the rows it excludes go, and its tests are decided. *)
Ltac split_bit x k :=
  let E := fresh "E" in destruct (Z.testbit x k) eqn:E; known E; rewrite ?E.

Ltac decide_tests :=
  cbn [Z.b2z andb orb negb];
  repeat match goal with
  | |- context [?a + 2 * ?b] =>
      let c := eval vm_compute in (a + 2 * b) in
      match c with Z0 => idtac | Zpos _ => idtac end; change (a + 2 * b) with c
  end;
  cbn [Z.eqb Pos.eqb andb orb negb].

Ltac rewrite_bits := repeat match goal with E : Z.testbit ?x ?k = _ |- context [Z.testbit ?x ?k] => rewrite E end.
Ltac finish :=
  cbn [firstRow]; unfold matches, undefined; cbn [mask value choose];
  to_bits; rewrite_bits; decide_tests; rewrite ?orb_false_r, ?andb_true_r; try reflexivity.

(** The register in a mode's low bits does not matter to the other tests. *)
Lemma low_masked x m : m .& 15 = 0 -> (x .& 15) .& m = 0.
Proof. intros H. by rewrite <- Z.land_assoc, (Z.land_comm 15), H, Z.land_0_r. Qed.

Lemma field_18 instr : (instr .>> 18) .& 4 = if Z.testbit instr 20 then 4 else 0.
Proof. change 4 with (2 ^ 2) at 1. by rewrite land_pow2, Z.shiftr_spec. Qed.

Lemma mode_3_tests instr m :
  m .& 15 = 0 ->
  cpuPrvArmAdrModeDecode_3 instr .& m =
    ((if negb (tst instr 0x00400000) && tst instr 0x00000F00 then ARM_MODE_3_INV else 0)
     .| match ((instr .>> 5) .& 0x3) .| ((instr .>> 18) .& 0x04) with
        | 7 => 0x50 | 3 => 0x30 | 6 => 0x60 | 2 => 0x70 | 5 => 0x40 | 0 => 0x80 | _ => 0
        end) .& m.
Proof.
  intros Hm. unfold cpuPrvArmAdrModeDecode_3. set (reg := (instr .>> 16) .& 15).
  assert (Hreg : reg .& m = 0) by (by apply low_masked).
  rewrite field_2, field_18 by lia. cbn [field].
  destruct (negb _ && _), (Z.testbit instr 5), (Z.testbit instr (5 + 1)), (Z.testbit instr 20); cbn [Z.b2z];
    match goal with |- context [match ?x with _ => _ end] => let c := eval vm_compute in x in change x with c end;
    rewrite <- ?Z.lor_assoc, ?(Z.land_lor_distr_l reg), ?Hreg, ?Z.lor_0_l; reflexivity.
Qed.

Lemma isPc_field x lo : 0 <= lo -> isPc x lo = (field x lo 4 =? 15).
Proof. intros. unfold isPc. by rewrite bits_field. Qed.

Lemma mode_3_tst instr m : tst (cpuPrvArmAdrModeDecode_3 instr) m = negb (cpuPrvArmAdrModeDecode_3 instr .& m =? 0).
Proof. done. Qed.

Ltac fields x := rewrite ?(isPc_field x 16), ?(isPc_field x 12) by lia; rewrite ?(bits_4 x 19 16), ?(bits_4 x 15 12), ?(bits_4 x 11 8), ?(bits_4 x 3 0), ?(bits_4 x 24 21), ?(bits_2 x 22 21) by lia.

Lemma ls2_exact instr : decodeLoadStore2 instr = ls2 instr.
Proof.
  unfold decodeLoadStore2, ls2, addBefore, addAfter, cpuPrvArmAdrModeDecode_2.
  fields instr. to_bits.
  set (d15 := Z.b2z (Z.testbit instr 12) + _ =? 15). set (d12 := Z.b2z (Z.testbit instr 12) + _ =? 12).
  set (s15 := Z.b2z (Z.testbit instr 16) + _ =? 15). set (s12 := Z.b2z (Z.testbit instr 16) + _ =? 12).
  set (s9 := Z.b2z (Z.testbit instr 16) + _ =? 9). clearbody d15 d12 s15 s12 s9.
  destruct (Z.testbit instr 20), (Z.testbit instr 21), (Z.testbit instr 22), (Z.testbit instr 24);
    cbn [orb andb negb]; rewrite ?orb_false_r; vm_compute tst; cbn [andb];
    try destruct ((s9 && d12) || (s12 && d15)); reflexivity.
Qed.

Lemma dproc_row_exact instr :
  decodeDproc instr =
  if Z.testbit instr 24 && negb (Z.testbit instr 23) && negb (Z.testbit instr 21) && negb (Z.testbit instr 20) then fn_invalid
  else fn_dproc (bits instr 24 21) (Z.testbit instr 20) (isPc instr 16) (isPc instr 12).
Proof.
  unfold decodeDproc. fields instr. to_bits.
  destruct (Z.testbit instr 20), (Z.testbit instr 21), (Z.testbit instr 22), (Z.testbit instr 23), (Z.testbit instr 24); reflexivity.
Qed.

(** Halfwords and the like, on the bits L, S and H. *)
Lemma ls1_exact instr :
  Z.testbit instr 6 || Z.testbit instr 5 = true ->
  decodeLoadStore1 instr =
  if negb (Z.testbit instr 22) && negb (bits instr 11 8 =? 0) then fn_invalid
  else match Z.testbit instr 20, Z.testbit instr 6, Z.testbit instr 5 with
       | _, false, false => fn_invalid
       | true, false, true => ls1 0x40 instr
       | false, false, true => ls1 (if isPc instr 12 then 0x01 else 0x00) instr
       | true, true, false => ls1 0x60 instr
       | true, true, true => ls1 0x50 instr
       | false, true, false => ls1 0x70 instr
       | false, true, true => ls1 0x30 instr
       end.
Proof.
  intros Hsh. unfold decodeLoadStore1. change REG_NO_PC with 15.
  rewrite (mode_3_tst instr ARM_MODE_2_INV), (mode_3_tst instr ARM_MODE_3_LOAD) by done. rewrite !mode_3_tests by done.
  unfold ls1, addBefore, addAfter. rewrite field_18. fields instr. to_bits.
  set (d15 := Z.b2z (Z.testbit instr 12) + _ =? 15). set (s15 := Z.b2z (Z.testbit instr 16) + _ =? 15). clearbody d15 s15.
  destruct (Z.testbit instr 8), (Z.testbit instr 9), (Z.testbit instr 10), (Z.testbit instr 11);
  rewrite ?orb_false_r;
  destruct (Z.testbit instr 22), (Z.testbit instr 5), (Z.testbit instr 6), (Z.testbit instr 20), (Z.testbit instr 24), (Z.testbit instr 21);
    try reflexivity; try discriminate Hsh; destruct d15; reflexivity.
Qed.

(** A word whose condition is not 1111. *)
Lemma decode_cond_exact wasT instr :
  is_u 32 instr -> (instr .>> 28) <> 15 ->
  cpuPrvDecoderArm wasT instr = firstRow instr (acceptedTable wasT).
Proof.
  intros Hu Hc. unfold acceptedTable. rewrite app_assoc, firstRow_skip.
  2: { intros r Hr. apply uncond_row_cond; [done| |done]. revert r Hr. apply forallb_forall. by destruct wasT. }
  apply Z.eqb_neq in Hc. unfold cpuPrvDecoderArm. rewrite Hc. clear Hc.
  unfold multRows, extraRows, lenientRows, miscRows, dprocRows, otherRows. cbn [app].
  to_bits.
  split_bit instr 27; split_bit instr 26; split_bit instr 25; split_bit instr 24; decide_tests; rewrite ?ls2_exact, ?dproc_row_exact.
  all: try solve [unfold cpuPrvArmAdrModeDecode_4; finish].
  all: try solve [finish; destruct (Z.testbit instr 4); reflexivity].
  all: try solve [finish; destruct (Z.testbit instr 20), (Z.testbit instr 21), (Z.testbit instr 23); reflexivity].
  all: split_bit instr 7; split_bit instr 6; split_bit instr 5; split_bit instr 4; cbn [andb negb orb];
    try rewrite ls1_exact by (rewrite_bits; done); unfold decodeMult, decodeMisc; rewrite ?orb_false_r, ?andb_true_r.
  all: try solve [finish].
  all: split_bit instr 20; split_bit instr 23; cbn [andb negb orb]; try solve [finish].
  all: split_bit instr 22; cbn [andb negb orb]; try solve [finish; destruct (bits instr 11 8 =? 0); reflexivity].
  all: split_bit instr 21; cbn [andb negb orb]; try solve [finish].
  all: cbn [firstRow]; unfold matches, undefined; cbn [mask value choose]; fields instr; finish.
  all: try solve [destruct (Z.testbit instr 8), (Z.testbit instr 9), (Z.testbit instr 10), (Z.testbit instr 11); reflexivity].
  all: try solve [destruct (Z.testbit instr 12), (Z.testbit instr 13), (Z.testbit instr 14), (Z.testbit instr 15); reflexivity].
  all: repeat rewrite andb_false_r.
  all: try solve [match goal with |- (if negb ?c then _ else _) = _ => destruct c; reflexivity end].
  all: destruct (Z.testbit instr 0), (Z.testbit instr 1), (Z.testbit instr 2), (Z.testbit instr 3); cbn [andb negb]; reflexivity.
Qed.

Lemma decoder_table (wasT : bool) (instr : Z) : is_u 32 instr -> cpuPrvDecoderArm wasT instr = firstRow instr (acceptedTable wasT).
Proof.
  intros Hu. destruct (Z.eq_dec (instr .>> 28) 15); [by apply decode_uncond_exact|by apply decode_cond_exact].
Qed.

(** Rows that do not match do not count. *)
Lemma firstRow_without instr rows mid rest :
  existsb (matches instr) mid = false -> firstRow instr (rows ++ mid ++ rest) = firstRow instr (rows ++ rest).
Proof.
  intros Hno. induction rows as [|r rows IH]; cbn [app firstRow]; [|by rewrite IH].
  apply firstRow_skip. intros r Hr. destruct (matches instr r) eqn:E; [|done].
  rewrite <- Hno. symmetry. apply existsb_exists. by exists r.
Qed.

(** A lenient word has no row in the space of the condition field's other values. *)
Lemma lenient_rows instr :
  existsb (matches instr) lenientRows = true ->
  firstRow instr (multRows ++ extraRows ++ miscRows ++ dprocRows ++ otherRows) = fn_invalid /\
  firstRow instr (multRows ++ extraRows ++ lenientRows ++ miscRows ++ dprocRows ++ otherRows) = firstRow instr lenientRows.
Proof.
  unfold lenientRows at 1. unfold existsb, matches. cbn [mask value]. to_bits.
  destruct (Z.testbit instr 4) eqn:E4; [|discriminate]. destruct (Z.testbit instr 5) eqn:E5, (Z.testbit instr 6) eqn:E6; try discriminate;
    (destruct (Z.testbit instr 7) eqn:E7; [discriminate|]); (destruct (Z.testbit instr 20) eqn:E20; [discriminate|]);
    destruct (Z.testbit instr 21) eqn:E21, (Z.testbit instr 22) eqn:E22; try discriminate;
    (destruct (Z.testbit instr 23) eqn:E23; [discriminate|]); (destruct (Z.testbit instr 24) eqn:E24; [|discriminate]);
    (destruct (Z.testbit instr 25) eqn:E25; [discriminate|]); (destruct (Z.testbit instr 26) eqn:E26; [discriminate|]);
    (destruct (Z.testbit instr 27) eqn:E27; [discriminate|]); intros _.
  all: unfold multRows, extraRows, lenientRows, miscRows, dprocRows, otherRows; cbn [app].
  all: split; known E27; known E26; known E25; known E24; known E23; known E20; known E7; known E4; known E22; known E21; known E6; known E5; finish.
Qed.

Lemma accepted_table instr wasT :
  is_u 32 instr ->
  if lenient instr then firstRow instr (armTable wasT) = fn_invalid /\ firstRow instr (acceptedTable wasT) = firstRow instr lenientRows
  else firstRow instr (acceptedTable wasT) = firstRow instr (armTable wasT).
Proof.
  intros Hu. unfold lenient. destruct (Z.eqb_spec (instr .>> 28) 15) as [Hc|Hc]; cbn [negb andb].
  - unfold armTable, acceptedTable. apply firstRow_prefix. by rewrite !own_catches.
  - unfold armTable, acceptedTable.
    assert (Hskip : forall rest, firstRow instr (uncondRows ++ (if wasT then [mkRow 0xF0000000 0xF0000000 undefined] else patchRows) ++ rest) = firstRow instr rest).
    { intros rest. rewrite app_assoc. apply firstRow_skip. intros r Hr. apply uncond_row_cond; [done| |done]. revert r Hr. apply forallb_forall. by destruct wasT. }
    rewrite !Hskip. destruct (existsb _ _) eqn:E; [by apply lenient_rows|]. by rewrite (app_assoc multRows), firstRow_without, <- app_assoc.
Qed.

(** C26. The decoder chooses, for every one of the 2^32 instruction words and for
    both callers, the function and the template arguments that the encoding
    tables of the architecture have for the word: the chain of masks, shifts and
    switches is equivalent to the first matching row of the table. The only
    exceptions are the words of [lenientRows], which the architecture leaves
    undefined and the decoder runs as CLZ or as a breakpoint. A halfword or
    doubleword access with a register offset is valid only if bits 11-8 are zero,
    as the architecture has it; the comment at the decoder's test (CPU.cpp:502)
    says that they must be one. *)
Theorem arm_decode_exact (wasT : bool) (instr : Z) (Hu : is_u 32 instr) :
  if lenient instr
  then firstRow instr (armTable wasT) = fn_invalid /\ cpuPrvDecoderArm wasT instr = firstRow instr lenientRows
  else cpuPrvDecoderArm wasT instr = firstRow instr (armTable wasT).
Proof. rewrite decoder_table by done. by apply accepted_table. Qed.

(** LDRNE r12, [r9, #-4]!, SMLAL r0, r1, r2, r3, LDRH r0, [r1, r2] with bits 11-8
    clear and set, CLZ r0, r1, BKPT 0, and two words close to the last ones. *)
Lemma arm_decode_exact_witness :
  cpuPrvDecoderArm false 0x1539C004 = firstRow 0x1539C004 (armTable false) /\
  cpuPrvDecoderArm false 0x1539C004 = fn_load_store_2 0x31 false false true true true true /\
  cpuPrvDecoderArm true 0xE0E10392 = fn_mult 10 false /\
  cpuPrvDecoderArm false 0xE19100B2 = fn_load_store_1 0x40 false true false false false /\
  cpuPrvDecoderArm false 0xE1910FB2 = fn_invalid /\
  firstRow 0xE16F0F11 (armTable false) = fn_clz /\ firstRow 0xE1200070 (armTable false) = fn_softbreak /\
  (firstRow 0xE14F0F11 (armTable false) = fn_invalid /\ cpuPrvDecoderArm false 0xE14F0F11 = fn_clz) /\
  firstRow 0xE1000070 (armTable false) = fn_invalid /\ cpuPrvDecoderArm false 0xE1000070 = fn_softbreak.
Proof.
  pose proof (arm_decode_exact false 0xE14F0F11 ltac:(unfold is_u; lia)) as HC.
  pose proof (arm_decode_exact false 0xE1000070 ltac:(unfold is_u; lia)) as HB. vm_compute in HC, HB.
  split; [apply (arm_decode_exact false 0x1539C004); unfold is_u; lia|].
  do 6 (split; [by vm_compute|]). split; [exact HC|exact HB].
Defined.
