(* ===== verification/CpuRun.v ===== *)
(** * The instruction cycle (CPU.cpp)

    What each decoded function does to the CPU, the fetch through the
    instruction cache and the loop of [cpuCycle] with the interrupts.

    The state is the CPU with its memory, MMU and system coprocessor, the
    instruction cache and the patches. The PACE mode's functions, which run the
    generated 68k core, are parameters, as are the other coprocessors; no
    debugger is attached. *)

From S2P Require Import Prelude Interfaces CpuSoc Mmu Cp15 Cpu CpuAlu Thumb Patch CpuMem ICache Memcpy CpuDecode.

Definition OFFSET_PEEPHOLE_ADS_UDIVMOD_DIVISION_BY_ZERO := 76.
Definition OFFSET_PEEPHOLE_ADS_SDIVMOD_DIVISION_BY_ZERO := 88.

Record Machine (W : Type) := mkMachine {
  core : ArmCP15 W ICache;
  patchDispatch : Patches;
  isInjectedCall : bool;
  modePace : bool;
  memcpyScratch : list Z
}.
Arguments mkMachine {W}.
Arguments core {W}.
Arguments patchDispatch {W}.
Arguments isInjectedCall {W}.
Arguments modePace {W}.
Arguments memcpyScratch {W}.

Section Run.
Context {W : Type} `{PhysMem W} `{InstrMem W}.
Context (coproc : Z -> ArmCoprocessor (ArmCP15 W ICache)).

Definition onCore (s : Machine W) (f : ArmCP15 W ICache -> outcome (ArmCP15 W ICache)) : outcome (Machine W) :=
  m ← f s.(core); Ret { s with core := m }.

Definition onCpu (s : Machine W) (f : ArmCpu -> outcome ArmCpu) : outcome (Machine W) := onCore s (fun m => withCpu m f).

(** ** Replaced routines *)

(** [cpuPrvSetRegNotPC] and [cpuPrvSetPC], to return with r0 and r1. *)
Definition returnPair (c : ArmCpu) (r0 r1 : Z) : ArmCpu :=
  let c := { c with regs ::= fun r => r.[0 <- u32 r0].[1 <- u32 r1] } in
  cpuPrvSetPC c c.(regs).[REG_NO_LR].

Definition execFn_peephole_ADC_udivmod (c : ArmCpu) : outcome ArmCpu :=
  let num := c.(regs).[1] in
  let den := c.(regs).[0] in
  if den =? 0 then Ret (cpuPrvSetPC c (u32 (c.(curInstrPC) + OFFSET_PEEPHOLE_ADS_UDIVMOD_DIVISION_BY_ZERO)))
  else Ret (returnPair c (num / den) (num mod den)).

(** A quotient that does not fit in an [int32_t] is undefined behaviour. *)
Definition execFn_peephole_ADC_sdivmod (c : ArmCpu) : outcome ArmCpu :=
  let num := sgn 32 c.(regs).[1] in
  let den := sgn 32 c.(regs).[0] in
  if den =? 0 then Ret (cpuPrvSetPC c (u32 (c.(curInstrPC) + OFFSET_PEEPHOLE_ADS_SDIVMOD_DIVISION_BY_ZERO)))
  else if (num =? - 2 ^ 31) && (den =? -1) then Undef
  else Ret (returnPair c (Z.quot num den) (Z.rem num den)).

Definition execFn_peephole_ADC_udiv10 (c : ArmCpu) : outcome ArmCpu :=
  let num := c.(regs).[0] in
  Ret (returnPair c (num / 10) (num mod 10)).

Definition execFn_peephole_ADC_sdiv10 (c : ArmCpu) : outcome ArmCpu :=
  let num := sgn 32 c.(regs).[0] in
  Ret (returnPair c (Z.quot num 10) (Z.rem num 10)).

Definition execFn_peephole_ADC_memcpy (s : Machine W) (privileged : bool) : outcome (Machine W) :=
  let c := s.(core).(cpu) in
  let src := c.(regs).[1] in
  let dest := c.(regs).[0] in
  let size := c.(regs).[2] in
  ic ← icacheInvalRange s.(core).(icache) dest size;
  '(result, scratch, mm) ← memcpy_armToArm s.(memcpyScratch) dest src size privileged s.(core).(mmu);
  let m := { s.(core) with icache := ic; mmu := mm } in
  m ← (if negb result.(ok) then cpuPrvHandleMemErr m result.(faultAddr) false result.(fsr)
       else withCpu m (fun c => Ret (cpuPrvSetPC c c.(regs).[REG_NO_LR])));
  Ret { s with core := m; memcpyScratch := scratch }.

(** ** System calls *)

(** Printing a string: memory is read up to a zero or a fault; [fuel] bounds the
    length. *)
Fixpoint printString (fuel : nat) (m : ArmCP15 W ICache) (addr : Z) : outcome (ArmCP15 W ICache) :=
  match fuel with
  | O => Hang
  | S fuel =>
      '(r, m) ← cpuPrvMemOp 1 m 0 addr false true;
      match r with
      | inl _ => Ret m
      | inr ch => if nz ch then printString fuel m (u32 (addr + 1)) else Ret m
      end
  end.

(** Every address once. *)
Definition printFuel (width : Z) : nat := Z.to_nat (2 ^ width).

Definition execFn_swi (wasT : bool) (m : ArmCP15 W ICache) (instr : Z) : outcome (ArmCP15 W ICache) :=
  let instr := armInstr wasT instr in
  if condFails m.(cpu) instr then Ret m else
  let swi := withCpu m (fun c => takeException c ExcSwi (c.(curInstrPC) + if wasT then 2 else 4)) in
  if (instr .& 0x00ffffff) =? (if wasT then 0xab else 0x123456) then
    if getReg m 0 =? 4 then printString (printFuel 32) m (getReg m 1)
    else if getReg m 0 =? 3 then '(_, m) ← cpuPrvMemOp 1 m 0 (getReg m 1) false true; Ret m
    else swi
  else swi.

(** ** The functions *)

(** What the PACE functions do: [execFn_paceEnter] and the like, the 68k core's
    step, and [paceSave68kState]. *)
Context (paceFn : ExecFn -> Machine W -> bool -> outcome (Machine W)).
Context (cpuPrvCyclePace : Machine W -> outcome (Machine W)).
Context (paceSave : Machine W -> outcome (Machine W)).

Definition execFn (wasT : bool) (f : ExecFn) (s : Machine W) (instr : Z) (privileged : bool) : outcome (Machine W) :=
  match f with
  | fn_invalid => onCpu s (fun c => execFn_invalid wasT c instr privileged)
  | fn_noop => Ret s
  | fn_b2thumb align2 => onCpu s (fun c => execFn_b2thumb wasT align2 c instr privileged)
  | fn_cp_mem2reg two => onCore s (fun m => execFn_cp_mem2reg coproc wasT two m instr privileged)
  | fn_cp_dp two => onCore s (fun m => execFn_cp_dp coproc wasT two m instr privileged)
  | fn_paceEnter | fn_paceResume | fn_paceReturnFromCallout => paceFn f s privileged
  | fn_udivmod => onCpu s execFn_peephole_ADC_udivmod
  | fn_sdivmod => onCpu s execFn_peephole_ADC_sdivmod
  | fn_udiv10 => onCpu s execFn_peephole_ADC_udiv10
  | fn_sdiv10 => onCpu s execFn_peephole_ADC_sdiv10
  | fn_memcpy => execFn_peephole_ADC_memcpy s privileged
  | fn_swb tag => onCore s (fun m => execFn_swb wasT tag m instr privileged)
  | fn_mult tag setFlags => onCpu s (fun c => execFn_mult wasT tag setFlags c instr privileged)
  | fn_load_store_1 mode pc b a i n => onCore s (fun m => execFn_load_store_1 wasT mode pc b a i n m instr privileged)
  | fn_psr2reg spsr => onCpu s (fun c => execFn_psr2reg wasT spsr c instr privileged)
  | fn_reg2psr spsr pc => onCpu s (fun c => execFn_reg2psr wasT spsr pc c instr privileged)
  | fn_dspadd tag => onCpu s (fun c => execFn_dspadd wasT tag c instr privileged)
  | fn_softbreak => onCpu s (fun c => execFn_softbreak wasT c instr privileged)
  | fn_dspmul tag => onCpu s (fun c => execFn_dspmul wasT tag c instr privileged)
  | fn_clz => onCpu s (fun c => execFn_clz wasT c instr privileged)
  | fn_bl_reg link => onCpu s (fun c => execFn_bl_reg wasT link c instr privileged)
  | fn_dproc op setFlags srcPc destPc => onCpu s (fun c => execFn_dproc wasT op setFlags srcPc destPc c instr privileged)
  | fn_load_store_2 mode srcPc destPc b a i n =>
      '(pd, m) ← execFn_load_store_2 wasT mode srcPc destPc b a i n s.(patchDispatch) s.(core) instr privileged;
      Ret { s with core := m; patchDispatch := pd }
  | fn_load_store_multi mode isLoad sBit => onCore s (fun m => execFn_load_store_multi wasT mode isLoad sBit m instr privileged)
  | fn_bl link => onCpu s (fun c => execFn_bl wasT c instr privileged)
  | fn_swi => onCore s (fun m => execFn_swi wasT m instr)
  end.

Definition execThumbFn (f : ThumbExec) (s : Machine W) (instr : Z) (privileged : bool) : outcome (Machine W) :=
  match f with
  | Thumb.execFn_thumb_3_ldr => onCore s (fun m => CpuMem.execFn_thumb_3_ldr m instr privileged)
  | _ => onCpu s (fun c => match execThumb f c instr with Some c => Ret c | None => Undef end)
  end.

Definition execPtr (f : FnPtr) (s : Machine W) (instr : Z) (privileged : bool) : outcome (Machine W) :=
  match f with
  | fn wasT f => execFn wasT f s instr privileged
  | fnThumb f => execThumbFn f s instr privileged
  end.

(** ** Function addresses *)

(** A function's offset from [execFn_noop], and the function at an offset. *)
Context (address : FnPtr -> Z) (functionAt : Z -> FnPtr).

Definition cpuPrvCompressExecFn (f : FnPtr) : Z := u32 (address f).
Definition cpuPrvDecompressExecFn (compressed : Z) : FnPtr := functionAt (sgn 32 compressed).

Definition cpuDecodeArm (instr : Z) : Z :=
  match decodeArm (u32 instr) with Ret f => cpuPrvCompressExecFn f | _ => 0 end.

(** [instr] indexes the table of 2^16 translations. [decodeThumb] always returns. *)
Definition cpuDecodeThumb (instr : Z) : Z :=
  match decodeThumb (u16 instr) with Ret f => cpuPrvCompressExecFn f | _ => 0 end.

(** ** The cycle *)

(** [cpuPrvCycleArm] for [sz] 4 and [cpuPrvCycleThumb] for 2. *)
Definition cycleFetched (sz : Z) (s : Machine W) : outcome (Machine W) :=
  let privileged := negb (s.(core).(cpu).(M) =? ARM_SR_MODE_USR) in
  let pc := s.(core).(cpu).(regs).[REG_NO_PC] in
  let m := { s.(core) with cpu ::= fun c => { c with curInstrPC := pc } } in
  '(r, ic, mm) ← icacheFetch cpuDecodeArm cpuDecodeThumb sz m.(icache) m.(mmu) pc;
  let m := { m with icache := ic; mmu := mm } in
  match r with
  | inl fsr => onCore { s with core := m } (fun m => cpuPrvHandleMemErr m pc true fsr)
  | inr (instr, decoded) =>
      let m := { m with cpu ::= fun c => { c with regs ::= fun r => r.[REG_NO_PC <- u32 (pc + sz)] } } in
      execPtr (cpuPrvDecompressExecFn decoded) { s with core := m } instr privileged
  end.

Definition cpuPrvCycleArm := cycleFetched 4.
Definition cpuPrvCycleThumb := cycleFetched 2.

(** [cpuPrvException] for an interrupt: the PACE mode is left. *)
Definition interrupt (s : Machine W) (e : ArmException) : outcome (Machine W) :=
  let lr := s.(core).(cpu).(regs).[REG_NO_PC] + 4 in
  s ← (if s.(modePace) then s ← paceSave s; Ret { s with modePace := false } else Ret s);
  onCpu s (fun c => takeException c e lr).

Definition checkInterrupts (s : Machine W) : outcome (Machine W) :=
  let c := s.(core).(cpu) in
  if nz c.(waitingEventsTotal) then
    if nz c.(waitingFiqs) && negb c.(F_) && negb s.(isInjectedCall) then interrupt s ExcFiq
    else if nz c.(waitingIrqs) && negb c.(I_) && negb s.(isInjectedCall) then interrupt s ExcIrq
    else Ret s
  else Ret s.

Context (callTail : TailpatchF -> Patches * ArmCP15 W ICache -> Z -> list Z -> outcome (Patches * ArmCP15 W ICache)).

(** One turn of the loop, with the cycles it takes. *)
Definition cpuStep (s : Machine W) : outcome (Z * Machine W) :=
  s ← checkInterrupts s;
  let m := cp15Cycle s.(core) in
  '(pd, m) ← patchOnBeforeExecute callTail s.(patchDispatch) m;
  let s := { s with core := m; patchDispatch := pd } in
  if s.(modePace) then s ← cpuPrvCyclePace s; Ret (10, s)
  else if s.(core).(cpu).(T) then s ← cpuPrvCycleThumb s; Ret (1, s)
  else s ← cpuPrvCycleArm s; Ret (1, s).

Fixpoint cycleLoop (fuel : nat) (s : Machine W) (cycles cycleAcc : Z) : outcome (Z * Machine W) :=
  match fuel with
  | O => Hang
  | S fuel =>
      if (cycleAcc <? cycles) && negb s.(core).(cpu).(sleeping) then
        '(n, s) ← cpuStep s; cycleLoop fuel s cycles (u32 (cycleAcc + n))
      else Ret (cycleAcc, s)
  end.

(** Every turn takes a cycle at least. *)
Definition cpuCycle (s : Machine W) (cycles : Z) : outcome (Z * Machine W) :=
  cycleLoop (S (Z.to_nat cycles)) s cycles 0.

(** ** Injected calls *)

Definition INJECTED_CALL_LR_MAGIC := 0xfffffffc.
Definition INJECTED_CALL_MAX_CYCLES := 200000000.

Definition cpuFinishInjectedCall (cpu scratchState : ArmCpu) : ArmCpu :=
  { cpu with waitingIrqs := scratchState.(waitingIrqs); waitingFiqs := scratchState.(waitingFiqs);
             waitingEventsTotal := u16 (scratchState.(waitingFiqs) + scratchState.(waitingIrqs)) }.

Fixpoint injectedLoop (fuel : nat) (s : Machine W) (cycle : Z) : outcome (Machine W) :=
  match fuel with
  | O => Hang
  | S fuel =>
      if s.(core).(cpu).(regs).[REG_NO_PC] =? INJECTED_CALL_LR_MAGIC then Ret s else
      '(_, s) ← cpuCycle s 1;
      if cycle =? INJECTED_CALL_MAX_CYCLES then Abort else injectedLoop fuel s (cycle + 1)
  end.

(** A failed read is reported through a null pointer when the translation
    fails, and by [ERR] otherwise. *)
Definition cpuExecuteInjectedCall (s : Machine W) (syscall : Z) : outcome (Machine W) :=
  let table := u8 (syscall .>> 12) in
  '(r, m) ← cpuPrvMemOpEx 4 s.(core) 0 (u32 (getReg s.(core) 9 - table)) false true false;
  match r with
  | inl _ => Abort
  | inr tableAddr =>
      '(r, m) ← cpuPrvMemOpEx 4 m 0 (u32 (tableAddr + (syscall .& 0xfff))) false true false;
      match r with
      | inl _ => Abort
      | inr entryAddr =>
          let m := { m with cpu ::= fun c =>
            { c with regs ::= (fun r => r.[REG_NO_PC <- entryAddr].[REG_NO_LR <- INJECTED_CALL_LR_MAGIC]); T := false } } in
          injectedLoop (S (Z.to_nat (INJECTED_CALL_MAX_CYCLES + 1)))
            { s with core := m; isInjectedCall := true } 0
      end
  end.
End Run.
