(* ===== verification/CpuCycle.v ===== *)
(** * The instruction cycle: its theorems

    The decoded functions of the instruction cache are those of the instruction
    fetched, the loop counts its cycles and ends, and interrupts are taken
    between instructions. *)

From S2P Require Import Prelude Interfaces CpuSoc Mmu Cp15 Cpu CpuAlu Thumb Patch CpuMem CpuAbort ICache Memcpy CpuDecode DecodeTable CpuRun.

(** ** Decoding *)

(** The instances of the templates that exist. *)
Definition fnOk (f : FnPtr) : Prop :=
  match f with
  | fn _ (fn_swb a) | fn _ (fn_mult a _) | fn _ (fn_dspadd a) | fn _ (fn_dspmul a) | fn _ (fn_dproc a _ _ _)
  | fn _ (fn_load_store_1 a _ _ _ _ _) | fn _ (fn_load_store_2 a _ _ _ _ _ _) | fn _ (fn_load_store_multi a _ _) =>
      0 <= a < 256
  | _ => True
  end.

(** The functions have distinct addresses within 512 MB of each other. *)
Record layout (address : FnPtr -> Z) (functionAt : Z -> FnPtr) : Prop := mkLayout {
  lay_range f : fnOk f -> - 2 ^ 29 <= address f < 2 ^ 29;
  lay_at f : fnOk f -> functionAt (address f) = f
}.

Lemma firstRow_ok (P : ExecFn -> Prop) instr rows :
  P fn_invalid -> Forall (fun r => P (r.(choose) instr)) rows -> P (firstRow instr rows).
Proof. intros H0. induction 1 as [|r rows Hr Hrows IH]; cbn; [done|]. by destruct (matches instr r). Qed.

Lemma mode_small (a b c d : Z) :
  0 <= a < 256 -> 0 <= b < 256 -> 0 <= c < 256 -> 0 <= d < 256 -> 0 <= a .| b .| c .| d < 256.
Proof. intros. change 256 with (2 ^ 8) in *. by repeat apply is_u_lor. Qed.

Lemma decoder_fnOk wasT wasT' instr : is_u 32 instr -> fnOk (fn wasT' (cpuPrvDecoderArm wasT instr)).
Proof.
  intros Hu. rewrite decoder_table by done. apply (firstRow_ok (fun f => fnOk (fn wasT' f))); [done|].
  assert (Hbits : forall hi lo, 0 <= hi - lo < 8 -> 0 <= bits instr hi lo < 256).
  { intros hi lo Hh. unfold bits. apply (is_u_land_r 8); [|done]. unfold is_u. rewrite Z.ones_equiv.
    pose proof (Z.pow_le_mono_r 2 (hi - lo + 1) 8). pose proof (Z.pow_pos_nonneg 2 (hi - lo + 1)). lia. }
  assert (Hif : forall (b : bool) x, 0 <= x < 256 -> 0 <= (if b then x else 0) < 256) by (intros []; lia).
  unfold acceptedTable. rewrite !Forall_app. split_and!; [|destruct wasT| | | | | |]; repeat constructor; cbn [choose]; unfold undefined, ls1, ls2; cbv zeta;
    repeat match goal with |- fnOk (fn _ (if ?b then _ else _)) => destruct b end; cbn [fnOk];
    try lia; try done; try (apply Hbits; lia); try (apply mode_small; apply Hif; lia);
    repeat match goal with |- context [if ?b then _ else _] => destruct b end; by vm_compute.
Qed.

Lemma sgn_of_u32 x : - 2 ^ 31 <= x < 2 ^ 31 -> sgn 32 (u32 x) = x.
Proof.
  intros Hx. unfold sgn, wrap. rewrite Z.mod_mod by done. change (32 - 1) with 31.
  destruct (Z.ltb_spec (x mod 2 ^ 32) (2 ^ 31)); zdiv_lia.
Qed.

Lemma decompress_compress address functionAt f :
  layout address functionAt -> fnOk f -> cpuPrvDecompressExecFn functionAt (cpuPrvCompressExecFn address f) = f.
Proof.
  intros [Hr Ha] Hf. unfold cpuPrvDecompressExecFn, cpuPrvCompressExecFn. rewrite sgn_of_u32; [by apply Ha|].
  specialize (Hr f Hf). lia.
Qed.

(** The function for an instruction word or halfword. *)
Definition decodeOf (sz instr : Z) : outcome FnPtr := if sz =? 4 then decodeArm (u32 instr) else decodeThumb (u16 instr).

Lemma translated_word t : is_u 16 t -> is_u 32 (translateThumb t).
Proof.
  intros Ht. change (is_u 16 t) with (0 <= t < 65536) in Ht.
  assert (0 <= t / 256 < 256 /\ 0 <= t mod 256 < 256) as [H1 H2] by zdiv_lia.
  assert (forallb (fun hi => forallb (fun lo =>
    let i := translateThumb (Z.of_nat hi * 256 + Z.of_nat lo) in (0 <=? i) && (i <? 2 ^ 32)) (seq 0 256)) (seq 0 256) = true) as Hall
    by (vm_compute; reflexivity).
  pose proof (forallb_grid (fun hi lo => let i := translateThumb (hi * 256 + lo) in (0 <=? i) && (i <? 2 ^ 32)) 256 256 Hall _ _ H1 H2) as H.
  cbv beta zeta in H. rewrite (Z.mul_comm _ 256), <- Z.div_mod in H by done. unfold is_u. lia.
Qed.

Lemma decodeOf_ret sz instr : exists f, decodeOf sz instr = Ret f /\ fnOk f.
Proof.
  unfold decodeOf, decodeArm, decodeThumb, Thumb.cpuDecodeThumb. destruct (sz =? 4).
  - eexists. split; [reflexivity|]. apply decoder_fnOk, wrap_is_u. lia.
  - pose proof (wrap_is_u 16 instr ltac:(lia)) as Hu.
    pose proof (thumbOk_all (u16 instr) Hu) as Hok. unfold thumbOk in Hok.
    apply andb_true_iff in Hok as [_ Hd]. destruct (nz (translateThumb (u16 instr))).
    + eexists. split; [reflexivity|]. by apply decoder_fnOk, translated_word.
    + cbn [orb] in Hd. destruct (cpuPrvDecoderThumb (u16 instr)); try discriminate Hd. eexists. by split.
Qed.

(** The two decoders as the cache sees them. *)
Definition decodeCode (address : FnPtr -> Z) (sz instr : Z) : Z :=
  if sz =? 4 then cpuDecodeArm address instr else cpuDecodeThumb address instr.

Lemma decodeCode_fn address functionAt sz instr f :
  layout address functionAt -> decodeOf sz instr = Ret f -> fnOk f ->
  cpuPrvDecompressExecFn functionAt (decodeCode address sz instr) = f.
Proof.
  intros Hl. unfold decodeCode, decodeOf, cpuDecodeArm, cpuDecodeThumb.
  destruct (sz =? 4); intros -> Hf; by apply decompress_compress.
Qed.

Lemma decode_codeOk address functionAt instr :
  layout address functionAt -> codeOk (cpuDecodeArm address instr) /\ codeOk (cpuDecodeThumb address instr).
Proof.
  intros [Hr _]. unfold cpuDecodeArm, cpuDecodeThumb.
  destruct (decodeOf_ret 4 instr) as (f & Ef & Hf), (decodeOf_ret 2 instr) as (f' & Ef' & Hf').
  cbn [decodeOf Z.eqb Pos.eqb] in Ef, Ef'. rewrite Ef, Ef'. split; (eexists; split; [|reflexivity]; by apply Hr).
Qed.

(** ** The cache through an instruction *)

Section Frame.
Context {W : Type} `{PhysMem W} `{InstrMem W}.
Implicit Types m : ArmCP15 W ICache.

Definition sameCache m m' : Prop := m'.(icache) = m.(icache).

Lemma withCpu_cache m f : post (sameCache m) (withCpu m f).
Proof. unfold withCpu. by destruct (f (cpu m)). Qed.

Lemma memOpEx_cache size m buf va w p fp : post (fun x => sameCache m (snd x)) (cpuPrvMemOpEx size m buf va w p fp).
Proof.
  unfold cpuPrvMemOpEx. destruct (_ && _); [done|]. apply post_bind.
  destruct (mmuTranslate _ _ _ _) as [[r mm]| | |]; cbn [post]; try done.
  destruct (negb _); [by destruct fp|]. apply post_bind.
  destruct (mem_access _ _ _ _ _) as [[[ok v] w']| | |]; cbn [post]; done.
Qed.

Lemma handle_cache m a i fsr : post (sameCache m) (cpuPrvHandleMemErr m a i fsr).
Proof.
  unfold cpuPrvHandleMemErr. eapply post_impl; [|apply withCpu_cache]. unfold sameCache. intros m' ->. by destruct m.
Qed.

(** An access, its abort, and what follows it. *)
Lemma memOpOrAbort_cache {S} (inj : ArmCP15 W ICache -> S) (P : S -> Prop) m size m0 buf va w p k :
  sameCache m m0 -> (forall m', sameCache m m' -> P (inj m')) -> (forall v m', sameCache m m' -> post P (k v m')) ->
  post P (memOpOrAbortIn inj size m0 buf va w p k).
Proof.
  intros Hm Hinj Hk. unfold memOpOrAbortIn. apply post_bind.
  pose proof (memOpEx_cache size m0 buf va w p true) as Hc. unfold cpuPrvMemOp.
  destruct (cpuPrvMemOpEx _ _ _ _ _ _ _) as [[[fsr|v] m1]| | |]; cbn [post snd] in *; try done.
  - apply post_bind. eapply post_impl; [|apply handle_cache]. intros m2 E. apply Hinj. unfold sameCache in *. congruence.
  - apply Hk. unfold sameCache in *. congruence.
Qed.

Lemma setReg_cache m r v : (setReg m r v).(icache) = m.(icache).
Proof. by destruct m. Qed.

Ltac cache_step :=
  first
    [ match goal with |- post (sameCache _) (withCpu ?m _) => eapply post_impl; [|apply withCpu_cache] end
    | match goal with |- post _ (memOpOrAbortIn _ _ _ _ _ _ _ _) => eapply memOpOrAbort_cache; [eassumption || reflexivity|..] end
    | match goal with |- post _ (if ?b then _ else _) => destruct b end
    | match goal with |- post _ (match ?x with _ => _ end) => destruct x end
    | match goal with |- post _ (writeBack _ _ _ _ _ _) => unfold writeBack end
    | progress intros
    | progress cbn [post] ].
Ltac cache_done := unfold sameCache in *; first [exact Logic.I|repeat match goal with |- context [if ?b then _ else _] => destruct b end; rewrite ?setReg_cache; congruence].

Lemma swb_cache wasT tag m i p : post (sameCache m) (execFn_swb wasT tag m i p).
Proof. unfold execFn_swb, memOpOrAbort. cbv zeta. repeat cache_step; cache_done. Qed.

Lemma load_store_1_cache wasT mode pc b a im n m i p : post (sameCache m) (execFn_load_store_1 wasT mode pc b a im n m i p).
Proof. unfold execFn_load_store_1, memOpOrAbort. cbv zeta. repeat cache_step; cache_done. Qed.

Lemma thumb_ldr_cache m i p : post (sameCache m) (CpuMem.execFn_thumb_3_ldr m i p).
Proof. unfold CpuMem.execFn_thumb_3_ldr, memOpOrAbort. cbv zeta. repeat cache_step; cache_done. Qed.

Lemma headpatch_cache f m sys : post (sameCache m) (callHeadpatch f m sys).
Proof. by destruct f, m as [[]]. Qed.

Lemma onLoadPc_cache (pd : Patches) off m :
  post (fun r => sameCache m (snd r)) (patchDispatchOnLoadPcFromR12 callHeadpatch pd off m).
Proof.
  unfold patchDispatchOnLoadPcFromR12. cbv zeta. repeat case_match; try done.
  all: apply post_bind; try (eapply post_impl; [|apply headpatch_cache]; intros m' E); cbn [post]; repeat case_match; done.
Qed.

Lemma load_store_2_cache wasT mode s d b a im n (pd : Patches) m i p :
  post (fun r => sameCache m (snd r)) (execFn_load_store_2 wasT mode s d b a im n pd m i p).
Proof.
  unfold execFn_load_store_2. cbv zeta. destruct (condFails _ _); [done|].
  assert (G : forall pd' m' reg ea inc, sameCache m m' ->
    post (fun r : Patches * ArmCP15 W ICache => sameCache m (snd r)) (m0 ← writeBack b a reg ea inc m'; Ret (pd', m0)))
    by (intros; unfold writeBack; destruct a; cbn [mbind outcome_bind post snd]; cache_done).
  repeat match goal with |- post _ (if ?b then _ else _) => destruct b end.
  all: eapply memOpOrAbort_cache; [reflexivity|done|]; intros v m1 E1; try (apply G; cache_done).
  all: try (apply G; destruct m1; exact E1).
  apply post_bind. apply (post_impl (fun r : Patches * ArmCP15 W ICache => sameCache m1 (snd r))).
  - intros [pd' m2] E. apply G. unfold sameCache in *. cbn [snd] in E. destruct m2. cbn in *. congruence.
  - destruct (negb _); [done|]. destruct d; [apply onLoadPc_cache|done].
Qed.

Lemma multiLoop_cache wasT mode isLoad user copy i p base idxs : forall m ea pc,
  post (fun r => match r with inl (m', _, _) => sameCache m m' | inr m' => sameCache m m' end)
    (multiLoop wasT mode isLoad user copy i p base idxs m ea pc).
Proof.
  induction idxs as [|idx idxs IH]; intros m ea pc; cbn [multiLoop]; [done|]. cbv zeta.
  destruct (negb _); [apply IH|]. apply post_bind. unfold cpuPrvMemOp.
  match goal with |- post _ (cpuPrvMemOpEx ?a ?b ?c ?d ?e ?f ?g) => pose proof (memOpEx_cache a b c d e f g) as Hc end.
  destruct (cpuPrvMemOpEx _ _ _ _ _ _ _) as [[[fsr|v] m1]| | |]; cbn [post snd] in *; try done.
  - apply post_bind. eapply post_impl; [|apply handle_cache]. intros m2 E. cbn [post].
    unfold sameCache in *. destruct (Z.testbit _ _); destruct m2; cbn in *; congruence.
  - assert (G : forall m' ea pc, sameCache m m' ->
      post (fun r => match r with inl (m', _, _) => sameCache m m' | inr m' => sameCache m m' end)
        (multiLoop wasT mode isLoad user copy i p base idxs m' ea pc)).
    { intros m' ea' pc' E. eapply post_impl; [|apply IH]. unfold sameCache in *. intros [[[m2 ?] ?]|m2]; congruence. }
    destruct (negb isLoad); [by apply G|]. destruct (_ && _); [by apply G|]. apply G. destruct m1. exact Hc.
Qed.

Lemma load_store_multi_cache wasT mode isLoad sBit m i p : post (sameCache m) (execFn_load_store_multi wasT mode isLoad sBit m i p).
Proof.
  unfold execFn_load_store_multi. cbv zeta. destruct (condFails _ _); [done|]. apply post_bind.
  eapply post_impl; [|apply multiLoop_cache]. intros [[[m' ea] pc]|m'] E; [|done].
  assert (E' : sameCache m (if tst mode ARM_MODE_4_WBK then setReg m' ((armInstr wasT i .>> 16) .& 0x0f) ea else m')) by (destruct (tst _ _); cache_done).
  destruct (_ && _); [|done]. eapply post_impl; [|apply withCpu_cache]. unfold sameCache in *. intros; congruence.
Qed.

Lemma printString_cache fuel : forall m addr, post (sameCache m) (printString fuel m addr).
Proof.
  induction fuel as [|fuel IH]; intros m addr; [done|]. cbn [printString]. apply post_bind. unfold cpuPrvMemOp.
  pose proof (memOpEx_cache 1 m 0 addr false true true) as Hc.
  destruct (cpuPrvMemOpEx _ _ _ _ _ _ _) as [[[fsr|v] m1]| | |]; cbn [post snd] in *; try done.
  destruct (nz v); [|done]. eapply post_impl; [|apply IH]. unfold sameCache in *. intros; congruence.
Qed.

Lemma swi_cache wasT m i : post (sameCache m) (execFn_swi wasT m i).
Proof.
  unfold execFn_swi. cbv zeta. destruct (condFails _ _); [done|].
  destruct (_ =? _); [|apply withCpu_cache]. destruct (_ =? _); [apply printString_cache|].
  destruct (_ =? _); [|apply withCpu_cache]. apply post_bind. eapply post_impl; [|apply memOpEx_cache]. by intros [r m'] E.
Qed.

(** ** Coprocessors may only invalidate *)

(** What a coprocessor's function leaves of the cache. *)
Definition coprocKeeps (P : ICache -> Prop) (cp : ArmCoprocessor (ArmCP15 W ICache)) : Prop :=
  (forall f m a b c d e g h, cp.(regXfer) = Some f -> P m.(icache) -> post (fun r => P (snd r).(icache)) (f m a b c d e g h)) /\
  (forall f m a b c d e g, cp.(dataProcessing) = Some f -> P m.(icache) -> post (fun r => P (snd r).(icache)) (f m a b c d e g)) /\
  (forall f m a b c d e g h i, cp.(memAccess) = Some f -> P m.(icache) -> post (fun r => P (snd r).(icache)) (f m a b c d e g h i)) /\
  (forall f m a b c d e, cp.(twoRegF) = Some f -> P m.(icache) -> post (fun r => P (snd r).(icache)) (f m a b c d e)).

Lemma coprocCall_keeps (P : ICache -> Prop) wasT m i p f :
  P m.(icache) -> (forall r, f = Some r -> post (fun r => P (snd r).(icache)) r) ->
  post (fun m' => P m'.(icache)) (coprocCall wasT m i p f).
Proof.
  intros Hm Hf. unfold coprocCall. cbv zeta.
  assert (Hinv : forall m, P m.(icache) -> post (fun m' => P m'.(icache)) (withCpu m (fun c => execFn_invalid wasT c i p))).
  { intros m0 Hm0. eapply post_impl; [|apply withCpu_cache]. unfold sameCache. by intros m' ->. }
  destruct f as [r|]; [|by apply Hinv]. specialize (Hf r eq_refl).
  destruct r as [[ok m1]| | |]; cbn [mbind outcome_bind post snd] in *; try done. destruct (negb ok); [by apply Hinv|done].
Qed.

Lemma cp_mem2reg_keeps (P : ICache -> Prop) coproc wasT two m i p :
  (forall n, coprocKeeps P (coproc n)) -> P m.(icache) ->
  post (fun m' => P m'.(icache)) (execFn_cp_mem2reg coproc wasT two m i p).
Proof.
  intros Hcp Hm. unfold execFn_cp_mem2reg. destruct (condFails _ _); [done|].
  destruct (cpuPrvArmAdrMode_5 i) as [[[mode before] after] v8]. apply coprocCall_keeps; [done|].
  destruct (Hcp ((i .>> 8) .& 0x0F)) as (_ & _ & H3 & H4). intros r. destruct (negb _); [done|].
  destruct (tst _ _).
  - destruct (twoRegF _) as [f|] eqn:E; [|done]. intros [= <-]. by eapply H4.
  - destruct (memAccess _) as [f|] eqn:E; [|done]. intros [= <-]. by eapply H3.
Qed.

Lemma cp_dp_keeps (P : ICache -> Prop) coproc wasT two m i p :
  (forall n, coprocKeeps P (coproc n)) -> P m.(icache) ->
  post (fun m' => P m'.(icache)) (execFn_cp_dp coproc wasT two m i p).
Proof.
  intros Hcp Hm. unfold execFn_cp_dp. destruct (condFails _ _); [done|]. apply coprocCall_keeps; [done|].
  destruct (Hcp ((i .>> 8) .& 0x0F)) as (H1 & H2 & _). intros r. destruct (negb _); [done|].
  destruct (tst _ _).
  - destruct (regXfer _) as [f|] eqn:E; [|done]. intros [= <-]. by eapply H1.
  - destruct (dataProcessing _) as [f|] eqn:E; [|done]. intros [= <-]. by eapply H2.
Qed.
End Frame.

Lemma invalLines_keeps (P : ICache -> Prop) fuel : (forall ic va, P ic -> P (icInvalAddr ic va)) ->
  forall ic line stop, P ic -> post P (invalLines fuel ic line stop).
Proof.
  intros Hinv. induction fuel as [|fuel IH]; intros ic line stop Hic; cbn [invalLines]; destruct (_ <? _); try done.
  apply IH. by apply Hinv.
Qed.

(** ** The cycle *)

Section Cycle.
Context {W : Type} `{PhysMem W} `{InstrMem W}.
Context (coproc : Z -> ArmCoprocessor (ArmCP15 W ICache)).
Context (paceFn : ExecFn -> Machine W -> bool -> outcome (Machine W)).
Context (cpuPrvCyclePace paceSave : Machine W -> outcome (Machine W)).
Context (address : FnPtr -> Z) (functionAt : Z -> FnPtr).
Context (callTail : TailpatchF -> Patches * ArmCP15 W ICache -> Z -> list Z -> outcome (Patches * ArmCP15 W ICache)).
Implicit Types s : Machine W.

Abbreviation execPtr := (execPtr coproc paceFn).
Abbreviation cycleFetched := (cycleFetched coproc paceFn address functionAt).
Abbreviation cpuStep := (cpuStep coproc paceFn cpuPrvCyclePace paceSave address functionAt callTail).
Abbreviation cycleLoop := (cycleLoop coproc paceFn cpuPrvCyclePace paceSave address functionAt callTail).
Abbreviation cpuCycle := (cpuCycle coproc paceFn cpuPrvCyclePace paceSave address functionAt callTail).
Abbreviation checkInterrupts := (checkInterrupts paceSave).

Definition cache_inv s : Prop := icache_wf (cpuDecodeArm address) (cpuDecodeThumb address) s.(core).(icache).

(** The cycle without decoded entries: each instruction is decoded when it is
    executed. *)
Definition directCycle (sz : Z) s : outcome (Machine W) :=
  let privileged := negb (s.(core).(cpu).(M) =? ARM_SR_MODE_USR) in
  let pc := s.(core).(cpu).(regs).[REG_NO_PC] in
  let m := { s.(core) with cpu ::= fun c => { c with curInstrPC := pc } } in
  '(r, ic, mm) ← icacheFetch (cpuDecodeArm address) (cpuDecodeThumb address) sz m.(icache) m.(mmu) pc;
  let m := { m with icache := ic; mmu := mm } in
  match r with
  | inl fsr => onCore { s with core := m } (fun m => cpuPrvHandleMemErr m pc true fsr)
  | inr (instr, _) =>
      f ← decodeOf sz instr;
      let m := { m with cpu ::= fun c => { c with regs ::= fun r => r.[REG_NO_PC <- u32 (pc + sz)] } } in
      execPtr f { s with core := m } instr privileged
  end.

Section Keeps.
Hypothesis (Hcoproc : forall n, coprocKeeps (icache_wf (cpuDecodeArm address) (cpuDecodeThumb address)) (coproc n)).
Hypothesis (Hpace : forall f s p, cache_inv s -> post cache_inv (paceFn f s p)).

Lemma onCore_keeps s f :
  post (fun m => icache_wf (cpuDecodeArm address) (cpuDecodeThumb address) m.(icache)) (f s.(core)) -> post cache_inv (onCore s f).
Proof. unfold onCore, cache_inv. by destruct (f (core s)), s. Qed.

Lemma onCore_same s f : cache_inv s -> post (sameCache s.(core)) (f s.(core)) -> post cache_inv (onCore s f).
Proof.
  intros Hs Hf. apply onCore_keeps. eapply post_impl; [|exact Hf]. unfold sameCache, cache_inv in *. by intros m ->.
Qed.

Lemma onCpu_same s f : cache_inv s -> post cache_inv (onCpu s f).
Proof. intros Hs. apply onCore_same; [done|]. apply withCpu_cache. Qed.

Lemma set_cache (m : ArmCP15 W ICache) ic mm : ({ m with icache := ic; mmu := mm }).(icache) = ic.
Proof. by destruct m. Qed.

Lemma memcpy_keeps s p : cache_inv s -> post cache_inv (execFn_peephole_ADC_memcpy s p).
Proof.
  intros Hs. unfold execFn_peephole_ADC_memcpy. cbv zeta. apply post_bind. unfold icacheInvalRange.
  eapply post_impl; [|apply (invalLines_keeps (icache_wf (cpuDecodeArm address) (cpuDecodeThumb address))); [|exact Hs]].
  2: { intros ic va [H1 H2]. split; [by apply icInvalAddr_ok|by apply icInvalAddr_rev]. }
  intros ic Hic. apply post_bind. destruct (memcpy_armToArm _ _ _ _ _ _) as [[[res scr] mm]| | |]; cbn [post]; try done.
  apply post_bind. apply (post_impl (fun m => m.(icache) = ic)).
  - intros m E. unfold cache_inv. by destruct s; cbn in *; subst.
  - set (m0 := { core s with icache := ic; mmu := mm }).
    assert (E0 : m0.(icache) = ic) by apply set_cache. clearbody m0.
    destruct (negb _); [eapply post_impl; [|apply (handle_cache m0)]|eapply post_impl; [|apply (withCpu_cache m0)]];
      intros m ->; exact E0.
Qed.

Lemma execFn_keeps wasT f s i p : cache_inv s -> post cache_inv (execFn coproc paceFn wasT f s i p).
Proof.
  intros Hs. destruct f; cbn [execFn];
    try match goal with
    | |- post _ (onCpu _ _) => by apply onCpu_same
    | |- post _ (paceFn _ _ _) => by apply Hpace
    | |- post _ (Ret _) => exact Hs
    end.
  - apply onCore_keeps. by apply cp_mem2reg_keeps.
  - apply onCore_keeps. by apply cp_dp_keeps.
  - by apply memcpy_keeps.
  - apply onCore_same; [done|apply swb_cache].
  - apply onCore_same; [done|apply load_store_1_cache].
  - apply post_bind. eapply post_impl; [|apply load_store_2_cache]. intros [pd m] E. unfold cache_inv, sameCache in *.
    cbn [snd] in E. by destruct s; cbn in *; rewrite E.
  - apply onCore_same; [done|apply load_store_multi_cache].
  - apply onCore_same; [done|apply swi_cache].
Qed.

Lemma execPtr_keeps f s i p : cache_inv s -> post cache_inv (execPtr f s i p).
Proof.
  intros Hs. destruct f as [wasT f|f]; [by apply execFn_keeps|].
  destruct f; cbn [CpuRun.execPtr execThumbFn]; try by apply onCpu_same. apply onCore_same; [done|apply thumb_ldr_cache].
Qed.

Lemma cycle_direct sz s :
  layout address functionAt -> sz = 2 \/ sz = 4 -> is_u 32 s.(core).(cpu).(regs).[REG_NO_PC] -> cache_inv s ->
  cycleFetched sz s = directCycle sz s /\ post cache_inv (directCycle sz s).
Proof.
  intros Hl Hsz Hpc Hs. unfold CpuRun.cycleFetched, directCycle. cbv zeta.
  set (pc := aget _ REG_NO_PC) in *.
  set (m := { core s with cpu ::= fun c => { c with curInstrPC := pc } }).
  assert (Em : m.(icache) = s.(core).(icache)) by (unfold m; by destruct (core s)). clearbody m. rewrite Em.
  destruct (icacheFetch _ _ sz _ _ pc) as [[[r ic] mm]| | |] eqn:E; try done. cbn [mbind outcome_bind].
  destruct Hs as [Hok Hrev].
  destruct (fetch_keeps (cpuDecodeArm address) (cpuDecodeThumb address)
    (fun i => proj1 (decode_codeOk address functionAt i Hl)) (fun i => proj2 (decode_codeOk address functionAt i Hl))
    sz _ _ _ _ Hsz Hpc Hok E) as (Hcode & Hic & Hrev').
  assert (Hinv : forall m' : ArmCP15 W ICache, m'.(icache) = ic -> icache_wf (cpuDecodeArm address) (cpuDecodeThumb address) m'.(icache))
    by (intros m' ->; split; auto).
  destruct r as [fsr|[instr code]].
  - split; [done|]. apply onCore_keeps. eapply post_impl; [|apply handle_cache]. unfold sameCache. intros m' E'. apply Hinv.
    rewrite E'. by destruct s, m.
  - destruct (decodeOf_ret sz instr) as (f & Ef & Hf). rewrite Ef. cbn [mbind outcome_bind].
    specialize (Hcode instr code eq_refl).
    assert (cpuPrvDecompressExecFn functionAt code = f) as ->.
    { subst code. apply (decodeCode_fn address functionAt sz instr f Hl Ef Hf). }
    split; [done|]. apply execPtr_keeps. unfold cache_inv. apply Hinv. by destruct s, m.
Qed.
End Keeps.

(** ** The loop *)

Lemma step_cycles s : post (fun x => x.1 = 1 \/ x.1 = 10) (cpuStep s).
Proof.
  unfold CpuRun.cpuStep. apply post_bind. destruct (CpuRun.checkInterrupts _ _) as [s1| | |]; cbn [post]; try done.
  cbv zeta. apply post_bind. destruct (patchOnBeforeExecute _ _ _) as [[pd m]| | |]; cbn [post]; try done.
  destruct (modePace _); [|destruct (T _)]; apply post_bind;
    match goal with |- post _ ?x => destruct x end; cbn; auto.
Qed.

(** More fuel than cycles changes nothing. *)
Lemma loop_fuel cycles : cycles + 10 <= 2 ^ 32 -> forall fuel fuel' s acc,
  0 <= acc -> Z.max 0 (cycles - acc) < Z.of_nat fuel -> Z.max 0 (cycles - acc) < Z.of_nat fuel' ->
  cycleLoop fuel s cycles acc = cycleLoop fuel' s cycles acc.
Proof.
  intros Hc. induction fuel as [|fuel IH]; intros [|fuel'] s acc Hacc Hf Hf'; cbn [CpuRun.cycleLoop];
    destruct (Z.ltb_spec acc cycles) as [Hlt|Hge]; try lia; cbn [andb]; try done.
  destruct (negb _); [|done]. pose proof (step_cycles s) as Hs.
  destruct (cpuStep s) as [[n s']| | |]; try done. cbn [mbind outcome_bind post fst] in *.
  rewrite wrap_small by (unfold is_u; lia). apply IH; lia.
Qed.

Definition loop_post (cycles acc : Z) (s : Machine W) (x : Z * Machine W) : Prop :=
  (x.1 < cycles -> x.2.(core).(cpu).(sleeping) = true) /\
  if (acc <? cycles) && negb s.(core).(cpu).(sleeping) then acc < x.1 <= cycles + 9 else x = (acc, s).

Lemma loop_counts cycles : cycles + 10 <= 2 ^ 32 -> forall fuel s acc,
  0 <= acc -> post (loop_post cycles acc s) (cycleLoop fuel s cycles acc).
Proof.
  intros Hc. induction fuel as [|fuel IH]; intros s acc Hacc; [done|]. cbn [CpuRun.cycleLoop]. unfold loop_post.
  destruct (Z.ltb_spec acc cycles) as [Hlt|Hge]; cbn [andb]; [|cbn [post fst]; split; [lia|done]].
  destruct (sleeping _) eqn:Esl; cbn [negb]; [by cbn [post fst snd]|].
  apply post_bind. eapply post_impl; [|apply step_cycles]. intros [n s'] Hn. cbn [fst] in Hn.
  rewrite wrap_small by (unfold is_u; lia). eapply post_impl; [|apply IH; lia].
  intros [k s2] [H1 H2]. cbn [fst snd] in *. split; [done|].
  destruct (Z.ltb_spec (acc + n) cycles); cbn [andb] in H2; [|injection H2 as -> ->; lia].
  destruct (negb _); [lia|]. injection H2 as -> ->. lia.
Qed.

End Cycle.

(** C11. Cached decoding is transparent to execution: one cycle of the emulator,
    which takes the address of the function to run from the instruction cache,
    has the same outcome - results, aborts and failures - as fetching the
    instruction and decoding it anew, in ARM and in Thumb state, and every
    instruction keeps the cache in the state that this needs. *)
Theorem cached_cycle_exact {W} `{PhysMem W} `{InstrMem W} (coproc : Z -> ArmCoprocessor (ArmCP15 W ICache))
  (paceFn : ExecFn -> Machine W -> bool -> outcome (Machine W)) (address : FnPtr -> Z) (functionAt : Z -> FnPtr)
  (sz : Z) (s : Machine W)
  (Hlayout : layout address functionAt)
  (Hcoproc : forall n, coprocKeeps (icache_wf (cpuDecodeArm address) (cpuDecodeThumb address)) (coproc n))
  (Hpace : forall f s p, cache_inv address s -> post (cache_inv address) (paceFn f s p))
  (Hsz : sz = 2 \/ sz = 4) (Hpc : is_u 32 s.(core).(cpu).(regs).[REG_NO_PC]) (Hs : cache_inv address s) :
  cycleFetched coproc paceFn address functionAt sz s = directCycle coproc paceFn address sz s /\
  post (cache_inv address) (cycleFetched coproc paceFn address functionAt sz s).
Proof.
  destruct (cycle_direct coproc paceFn address functionAt Hcoproc Hpace sz s Hlayout Hsz Hpc Hs) as [E Hpost].
  by rewrite E.
Qed.

(** C34. [cpuCycle] runs for the cycles it is asked for: it ends by itself - more
    turns than cycles change nothing -, it reports fewer cycles only when the
    CPU went to sleep, it exceeds them by at most the nine of a PACE step, and
    it returns at once, without a cycle, when the CPU sleeps or none is asked
    for. *)
Theorem cpu_cycle_counts {W} `{PhysMem W} `{InstrMem W} (coproc : Z -> ArmCoprocessor (ArmCP15 W ICache))
  (paceFn : ExecFn -> Machine W -> bool -> outcome (Machine W)) (cyclePace paceSave : Machine W -> outcome (Machine W))
  (address : FnPtr -> Z) (functionAt : Z -> FnPtr)
  (callTail : TailpatchF -> Patches * ArmCP15 W ICache -> Z -> list Z -> outcome (Patches * ArmCP15 W ICache))
  (s : Machine W) (cycles : Z) (more : nat) (Hc : 0 <= cycles <= 2 ^ 32 - 10) :
  let run := cpuCycle coproc paceFn cyclePace paceSave address functionAt callTail s cycles in
  cycleLoop coproc paceFn cyclePace paceSave address functionAt callTail (S (Z.to_nat cycles) + more) s cycles 0 = run /\
  post (fun x => (x.1 < cycles -> x.2.(core).(cpu).(sleeping) = true) /\
    if (0 <? cycles) && negb s.(core).(cpu).(sleeping) then 0 < x.1 <= cycles + 9 else x = (0, s)) run.
Proof.
  cbv zeta. unfold cpuCycle. split; [apply loop_fuel; lia|]. apply loop_counts; lia.
Qed.

(** ** Interrupts *)

(** The interrupt that is taken before the next instruction. *)
Definition dueInterrupt (c : ArmCpu) (injected : bool) : option ArmException :=
  if injected then None
  else if nz c.(waitingFiqs) && negb c.(F_) then Some ExcFiq
  else if nz c.(waitingIrqs) && negb c.(I_) then Some ExcIrq
  else None.

Lemma checkInterrupts_due {W} `{PhysMem W} (paceSave : Machine W -> outcome (Machine W)) (s : Machine W) :
  let c := s.(core).(cpu) in
  nz c.(waitingEventsTotal) = nz c.(waitingIrqs) || nz c.(waitingFiqs) -> s.(modePace) = false ->
  checkInterrupts paceSave s =
    match dueInterrupt c s.(isInjectedCall) with
    | Some e => onCpu s (fun c => takeException c e (c.(regs).[REG_NO_PC] + 4))
    | None => Ret s
    end.
Proof.
  intros c Ht Hp. unfold checkInterrupts, dueInterrupt, interrupt. fold c. rewrite Ht, Hp. cbn [mbind outcome_bind].
  destruct (isInjectedCall s); rewrite ?andb_false_r; [by destruct (_ || _)|]. cbn [negb]. rewrite !andb_true_r.
  destruct (nz (waitingFiqs c)) eqn:Ef; rewrite ?orb_true_r, ?orb_false_r; cbn [andb].
  - destruct (negb (F_ c)); [done|]. by destruct (_ && _).
  - destruct (nz (waitingIrqs c)); cbn [andb]; [by destruct (negb (I_ c))|done].
Qed.

Lemma onCpu_ret {W} `{PhysMem W} (s : Machine W) f c' :
  f s.(core).(cpu) = Ret c' -> onCpu s f = Ret { s with core ::= fun m => { m with cpu := c' } }.
Proof. intros E. unfold onCpu, onCore, withCpu. rewrite E. by destruct s. Qed.

(** C12. Interrupts are precise. Between two instructions, outside the PACE mode,
    a waiting FIQ that is not masked is taken, else a waiting IRQ that is not
    masked, and during an injected call none is; the exception is entered from
    the instruction about to be executed, nothing but the CPU's registers
    changes, and the handler's return to LR - 4 resumes at that instruction with
    the status and every register of every mode, but the handler's LR, as they
    were. *)
Theorem interrupt_precise {W} `{PhysMem W} (paceSave : Machine W -> outcome (Machine W)) (s : Machine W) :
  let c := s.(core).(cpu) in
  forall (Hwf : cpu_wf c) (Hpc : is_u 32 c.(regs).[15]) (Hpace : s.(modePace) = false)
    (Htotal : nz c.(waitingEventsTotal) = nz c.(waitingIrqs) || nz c.(waitingFiqs)),
  match dueInterrupt c s.(isInjectedCall) with
  | None => checkInterrupts paceSave s = Ret s
  | Some e => exists c1 c2,
      checkInterrupts paceSave s = Ret { s with core ::= fun m => { m with cpu := c1 } } /\
      entered c c1 e (c.(regs).[15] + 4) /\
      restoreSPSR c1 (u32 (modeReg c1 (excMode e) 14 - 4)) = Ret c2 /\
      c2.(regs).[15] = c.(regs).[15] /\ cpuPrvMaterializeCPSR c2 = cpuPrvMaterializeCPSR c /\
      (forall m r, m ∈ modes -> 0 <= r < 15 -> ~ (bankOf m = bankOf (excMode e) /\ r = 14) ->
        modeReg c2 m r = modeReg c m r)
  end.
Proof.
  intros c Hwf Hpc Hpace Htotal. pose proof (checkInterrupts_due paceSave s Htotal Hpace) as E. fold c in E.
  destruct (dueInterrupt c (isInjectedCall s)) as [e|]; [|done].
  destruct (takeException_entered c e (c.(regs).[15] + 4) Hwf) as (c1 & E1 & En).
  destruct (exception_return c e (c.(regs).[15] + 4) c.(regs).[15] Hwf) as (c1' & c2 & E1' & E2 & Ecpsr & _ & Epc & Eregs).
  rewrite E1 in E1'. injection E1' as <-. exists c1, c2.
  assert (u32 (modeReg c1 (excMode e) 14 - 4) = c.(regs).[15]) as ->.
  { rewrite (en_lr _ _ _ _ En). unfold wrap. rewrite Zminus_mod_idemp_l, Z.add_simpl_r. by apply Z.mod_small. }
  split; [|done]. rewrite E. by apply onCpu_ret.
Qed.

(** ** A concrete layout *)

Fixpoint packBits (bs : list bool) : Z := match bs with [] => 0 | b :: bs => Z.b2z b + 2 * packBits bs end.

(** A constructor's number, its argument and its flags. *)
Definition parts (f : ExecFn) : Z * Z * list bool :=
  match f with
  | fn_invalid => (0, 0, [])
  | fn_noop => (1, 0, [])
  | fn_b2thumb x => (2, 0, [x])
  | fn_cp_mem2reg x => (3, 0, [x])
  | fn_cp_dp x => (4, 0, [x])
  | fn_paceEnter => (5, 0, [])
  | fn_paceResume => (6, 0, [])
  | fn_paceReturnFromCallout => (7, 0, [])
  | fn_udivmod => (8, 0, [])
  | fn_sdivmod => (9, 0, [])
  | fn_udiv10 => (10, 0, [])
  | fn_sdiv10 => (11, 0, [])
  | fn_memcpy => (12, 0, [])
  | fn_swb a => (13, a, [])
  | fn_mult a x => (14, a, [x])
  | fn_load_store_1 a x y z u v => (15, a, [x; y; z; u; v])
  | fn_psr2reg x => (16, 0, [x])
  | fn_reg2psr x y => (17, 0, [x; y])
  | fn_dspadd a => (18, a, [])
  | fn_softbreak => (19, 0, [])
  | fn_dspmul a => (20, a, [])
  | fn_clz => (21, 0, [])
  | fn_bl_reg x => (22, 0, [x])
  | fn_dproc a x y z => (23, a, [x; y; z])
  | fn_load_store_2 a x y z u v w => (24, a, [x; y; z; u; v; w])
  | fn_load_store_multi a x y => (25, a, [x; y])
  | fn_bl x => (26, 0, [x])
  | fn_swi => (27, 0, [])
  end.

Definition build (idx a m : Z) : ExecFn :=
  let b k := Z.testbit m k in
  match idx with
  | 1 => fn_noop
  | 2 => fn_b2thumb (b 0)
  | 3 => fn_cp_mem2reg (b 0)
  | 4 => fn_cp_dp (b 0)
  | 5 => fn_paceEnter
  | 6 => fn_paceResume
  | 7 => fn_paceReturnFromCallout
  | 8 => fn_udivmod
  | 9 => fn_sdivmod
  | 10 => fn_udiv10
  | 11 => fn_sdiv10
  | 12 => fn_memcpy
  | 13 => fn_swb a
  | 14 => fn_mult a (b 0)
  | 15 => fn_load_store_1 a (b 0) (b 1) (b 2) (b 3) (b 4)
  | 16 => fn_psr2reg (b 0)
  | 17 => fn_reg2psr (b 0) (b 1)
  | 18 => fn_dspadd a
  | 19 => fn_softbreak
  | 20 => fn_dspmul a
  | 21 => fn_clz
  | 22 => fn_bl_reg (b 0)
  | 23 => fn_dproc a (b 0) (b 1) (b 2)
  | 24 => fn_load_store_2 a (b 0) (b 1) (b 2) (b 3) (b 4) (b 5)
  | 25 => fn_load_store_multi a (b 0) (b 1)
  | 26 => fn_bl (b 0)
  | 27 => fn_swi
  | _ => fn_invalid
  end.

Definition thumbNo (f : ThumbExec) : Z :=
  match f with
  | Thumb.execFn_thumb_3_ldr => -1
  | execFn_thumb_4_add x y => -2 - packBits [x; y]
  | execFn_thumb_3_mov x y => -6 - packBits [x; y]
  | execFn_thumb_bl_x x y => -10 - packBits [x; y]
  | execFn_thumb_load_addr x => -14 - packBits [x]
  | execFn_thumb_bl_x_prefix => -16
  | execFn_thumb_bl_suffix => -17
  | execFn_thumb_blx_suffix => -18
  end.

Definition allThumb : list ThumbExec :=
  [Thumb.execFn_thumb_3_ldr; execFn_thumb_bl_x_prefix; execFn_thumb_bl_suffix; execFn_thumb_blx_suffix;
   execFn_thumb_load_addr false; execFn_thumb_load_addr true] ++
  flat_map (fun x => flat_map (fun y => [execFn_thumb_4_add x y; execFn_thumb_3_mov x y; execFn_thumb_bl_x x y]) [false; true]) [false; true].

Definition demo_address (f : FnPtr) : Z :=
  match f with
  | fn wasT g => let '(idx, a, bs) := parts g in Z.b2z wasT + 2 * (idx + 32 * (a + 256 * packBits bs))
  | fnThumb t => thumbNo t
  end.

Definition demo_function (n : Z) : FnPtr :=
  if n <? 0 then
    match List.find (fun t => thumbNo t =? n) allThumb with Some t => fnThumb t | None => fn false fn_invalid end
  else fn (n mod 2 =? 1) (build (n / 2 mod 32) (n / 64 mod 256) (n / 16384)).

Lemma packed (w : bool) idx a m :
  0 <= idx < 32 -> 0 <= a < 256 -> 0 <= m -> let n := Z.b2z w + 2 * (idx + 32 * (a + 256 * m)) in
  0 <= n /\ (n mod 2 =? 1) = w /\ n / 2 mod 32 = idx /\ n / 64 mod 256 = a /\ n / 16384 = m.
Proof.
  intros Hi Ha Hm n. assert (0 <= Z.b2z w < 2) by (destruct w; cbn; lia). unfold n.
  split; [lia|]. split; [|zdiv_lia]. assert ((Z.b2z w + 2 * (idx + 32 * (a + 256 * m))) mod 2 = Z.b2z w) as -> by zdiv_lia.
  by destruct w.
Qed.

Lemma demo_layout : layout demo_address demo_function.
Proof.
  assert (Hp : forall g w, fnOk (fn w g) ->
    - 2 ^ 29 <= demo_address (fn w g) < 2 ^ 29 /\ demo_function (demo_address (fn w g)) = fn w g).
  { intros g w Hok. unfold demo_address. destruct (parts g) as [[idx a] bs] eqn:E.
    assert (0 <= idx < 32 /\ 0 <= a < 256 /\ 0 <= packBits bs < 64) as (H1 & H2 & H3).
    { destruct g; cbn [fnOk] in Hok; injection E as <- <- <-;
        repeat match goal with b : bool |- _ => destruct b end; cbn [packBits Z.b2z]; lia. }
    destruct (packed w idx a (packBits bs) H1 H2 ltac:(lia)) as (Hn & E1 & E2 & E3 & E4). split.
    - destruct w; cbn [Z.b2z]; lia.
    - unfold demo_function. assert ((Z.b2z w + 2 * (idx + 32 * (a + 256 * packBits bs)) <? 0) = false) as -> by (by apply Z.ltb_ge).
      rewrite E1, E2, E3, E4. f_equal. destruct g; injection E as <- <- <-; try reflexivity;
        repeat match goal with b : bool |- _ => destruct b end; reflexivity. }
  split; intros [w g|t] Hok.
  - by apply Hp.
  - destruct t; repeat match goal with b : bool |- _ => destruct b end; by vm_compute.
  - by apply Hp.
  - destruct t; repeat match goal with b : bool |- _ => destruct b end; by vm_compute.
Qed.

(** ** A machine whose memory is full of ADD r0, r0, #1 *)

#[local] Instance demo_mem : PhysMem unit := {| mem_access w _ _ _ _ := Ret (true, 0xc1e, w) |}.
#[local] Instance demo_instr : InstrMem unit :=
  {| mem_fetch w _ sz := Ret (true, wrap (8 * sz) (0xE2800001 * ((2 ^ 256 - 1) / (2 ^ 32 - 1))), w) |}.

Definition demo_cpu : ArmCpu := { cpu_reset with regs ::= fun r => r.[REG_NO_PC <- 0x8000] }.

Definition demo_core (c : ArmCpu) : ArmCP15 unit ICache :=
  mkArmCP15 c (mmuSetDomainCfg (mmuSetTTP (mmuInit tt true) 0x4000) 3) icacheInit 0x78 0x4000 0 0 0 0 0 0 0 true false.

Definition demo_run (c : ArmCpu) : Machine unit := mkMachine (demo_core c) initPatchDispatch false false [].

Definition demo_coproc (n : Z) : ArmCoprocessor (ArmCP15 unit ICache) := noCoprocessor.
Definition demo_pace (f : ExecFn) (s : Machine unit) (p : bool) : outcome (Machine unit) := Ret s.
Definition demo_tail (t : TailpatchF) (x : Patches * ArmCP15 unit ICache) (syscall : Z) (r : list Z) := Ret x.

Lemma demo_inv c : cache_inv demo_address (demo_run c).
Proof. split; [by apply icInval_ok|apply icacheInit_rev]. Qed.

Lemma cached_cycle_exact_witness :
  cycleFetched demo_coproc demo_pace demo_address demo_function 4 (demo_run demo_cpu) =
    directCycle demo_coproc demo_pace demo_address 4 (demo_run demo_cpu) /\
  match cycleFetched demo_coproc demo_pace demo_address demo_function 4 (demo_run demo_cpu) with
  | Ret s => getReg s.(core) 0 = 1 /\ getReg s.(core) 15 = 0x8004
  | _ => False
  end.
Proof.
  split; [|by vm_compute].
  apply (cached_cycle_exact demo_coproc demo_pace demo_address demo_function 4 (demo_run demo_cpu)).
  - apply demo_layout.
  - intros n. by split_and!.
  - intros f s p Hs. exact Hs.
  - by right.
  - by vm_compute.
  - apply demo_inv.
Defined.

(** Three cycles; the second and third use the decoded entries. *)
Lemma cpu_cycle_counts_witness :
  let run := cpuCycle demo_coproc demo_pace (fun s => Ret s) (fun s => Ret s) demo_address demo_function demo_tail (demo_run demo_cpu) 3 in
  post (fun x => (x.1 < 3 -> x.2.(core).(cpu).(sleeping) = true) /\
    if (0 <? 3) && negb (demo_run demo_cpu).(core).(cpu).(sleeping) then 0 < x.1 <= 3 + 9 else x = (0, demo_run demo_cpu)) run /\
  match run with Ret (n, s) => n = 3 /\ getReg s.(core) 0 = 3 | _ => False end.
Proof.
  intros run. split; [|by vm_compute].
  refine (proj2 (cpu_cycle_counts demo_coproc demo_pace (fun s => Ret s) (fun s => Ret s) demo_address demo_function demo_tail
    (demo_run demo_cpu) 3 0 _)). lia.
Defined.

(** A CPU with an IRQ waiting, not masked. *)
Definition demo_waiting : ArmCpu := { demo_cpu with waitingIrqs := 1; waitingEventsTotal := 1; I_ := false }.

Lemma interrupt_precise_witness :
  exists c1 c2,
    checkInterrupts (fun s => Ret s) (demo_run demo_waiting) =
      Ret { demo_run demo_waiting with core ::= fun m => { m with cpu := c1 } } /\
    entered demo_waiting c1 ExcIrq (demo_waiting.(regs).[15] + 4) /\
    restoreSPSR c1 (u32 (modeReg c1 (excMode ExcIrq) 14 - 4)) = Ret c2 /\
    c2.(regs).[15] = demo_waiting.(regs).[15] /\ cpuPrvMaterializeCPSR c2 = cpuPrvMaterializeCPSR demo_waiting /\
    (forall m r, m ∈ modes -> 0 <= r < 15 -> ~ (bankOf m = bankOf (excMode ExcIrq) /\ r = 14) ->
      modeReg c2 m r = modeReg demo_waiting m r).
Proof.
  assert (Hwf : cpu_wf demo_waiting) by (split; [done|done|by vm_compute; set_solver|by exists 0]).
  exact (interrupt_precise (fun s => Ret s) (demo_run demo_waiting) Hwf ltac:(by vm_compute) eq_refl eq_refl).
Defined.
