(* ===== verification/Peephole.v ===== *)
(** * Replaced routines (peephole.c)

    The pass over a ROM that replaces the first word of library routines by one
    instruction, and the proof that the replacements of the divisions by ten
    compute what the replaced code computes. *)

From S2P Require Import Prelude Interfaces CpuSoc Mmu Cp15 Cpu CpuAlu Thumb Patch CpuMem ICache Memcpy CpuDecode CpuRun.

Definition sig_adc_udivmod_first : list Z := [
  0xE3A02000; 0xE070C1A1; 0x3A000020; 0xE070C421; 0x3A00000F; 0xE1A00400; 0xE38224FF;
  0xE070C221; 0x3A000017; 0xE070C421; 0x3A000009; 0xE1A00400; 0xE38228FF; 0xE070C421;
  0x21A00400; 0x23822CFF; 0xE070C221; 0x3A00000E; 0xE270C000].

Definition sig_adc_udivmod_second : list Z := [
  0x21A00420; 0xE070C3A1; 0x20411380; 0xE0A22002; 0xE070C321; 0x20411300; 0xE0A22002;
  0xE070C2A1; 0x20411280; 0xE0A22002; 0xE070C221; 0x20411200; 0xE0A22002; 0xE070C1A1;
  0x20411180; 0xE0A22002; 0xE070C121; 0x20411100; 0xE0A22002; 0xE070C0A1; 0x20411080;
  0xE0A22002; 0xE070C001; 0x20411000; 0xE0B22002; 0x2AFFFFE5; 0xE1A00002; 0xE12FFF1E].

Definition sig_adc_sdivmod_first : list Z := [
  0xE2102480; 0x42600000; 0xE0323041; 0x22611000; 0xE070C1A1; 0x3A000020; 0xE070C421; 0x3A00000F;
  0xE1A00400; 0xE38224FF; 0xE070C221; 0x3A000017; 0xE070C421; 0x3A000009; 0xE1A00400; 0xE38228FF;
  0xE070C421; 0x21A00400; 0x23822CFF; 0xE070C221; 0x3A00000E; 0xE270C000].

Definition sig_adc_sdivmod_second : list Z := [
  0x21A00420; 0xE070C3A1; 0x20411380; 0xE0A22002; 0xE070C321; 0x20411300; 0xE0A22002; 0xE070C2A1;
  0x20411280; 0xE0A22002; 0xE070C221; 0x20411200; 0xE0A22002; 0xE070C1A1; 0x20411180; 0xE0A22002;
  0xE070C121; 0x20411100; 0xE0A22002; 0xE070C0A1; 0x20411080; 0xE0A22002; 0xE070C001; 0x20411000;
  0xE0B22002; 0x2AFFFFE5; 0xE0320FC3; 0xE0800FA3; 0x22611000; 0xE12FFF1E].

Definition sig_adc_udiv10 : list Z := [
  0xE240100A; 0xE0400120; 0xE0800220; 0xE0800420; 0xE0800820; 0xE1A001A0; 0xE0802100; 0xE0511082;
  0x52800001; 0x4281100A; 0xE12FFF1E].

Definition sig_adc_sdiv10 : list Z := [
  0xE1B03000; 0x42600000; 0xE240100A; 0xE0400120; 0xE0800220; 0xE0800420; 0xE0800820; 0xE1A001A0;
  0xE0802100; 0xE0511082; 0x52800001; 0x4281100A; 0xE1B03003; 0x42600000; 0x42611000; 0xE12FFF1E].

Definition sig_adc_memcpy : list Z := [
  0xE92D4010; 0xE2522020; 0x3A000005; 0x28B15018; 0x28A05018; 0x28B15018; 0x28A05018;
  0x22522020; 0x2AFFFFF9; 0xE1B0CE02; 0x28B15018; 0x28A05018; 0x48B10018; 0x48A00018;
  0xE8BD4010; 0xE1B0CF02; 0x24913004; 0x24803004; 0x012FFF1E; 0xE1B02F82; 0x44D12001;
  0x24D13001; 0x24D1C001; 0x44C02001; 0x24C03001; 0x24C0C001; 0xE12FFF1E].

(** ** The pass *)

(** [sizeof] *)
Definition sizeof (sig : list Z) : Z := 4 * Z.of_nat (length sig).

(** [memcmp(code, sig, sizeof(sig)) == 0]; comparing past the end of the code is
    undefined behaviour. *)
Definition memcmpEq (code sig : list Z) : outcome bool :=
  if (length code <? length sig)%nat then Undef else Ret (bool_decide (take (length sig) code = sig)).

Definition readWord (code : list Z) (i : nat) : outcome Z :=
  match code !! i with Some w => Ret w | None => Undef end.

(** A routine in two parts with a [BCS] of any target between them. *)
Definition optimizeAtSplit (first second : list Z) (instr : Z) (code : list Z) (size : Z) : outcome (list Z) :=
  if size <? sizeof first + sizeof second + 4 then Ret code else
  e ← memcmpEq code first;
  if negb e then Ret code else
  w ← readWord code (length first);
  if negb (w .>> 24 =? 0x2a) then Ret code else
  e ← memcmpEq (drop (length first + 1) code) second;
  if negb e then Ret code else Ret (code.[0 <- instr]).

Definition optimizeAtWhole (sig : list Z) (instr : Z) (code : list Z) (size : Z) : outcome (list Z) :=
  if size <? sizeof sig then Ret code else
  e ← memcmpEq code sig;
  if negb e then Ret code else Ret (code.[0 <- instr]).

Definition optimizeAt_ADC_udivmod :=
  optimizeAtSplit sig_adc_udivmod_first sig_adc_udivmod_second INSTR_PEEPHOLE_ADS_UDIVMOD.
Definition optimizeAt_ADC_sdivmod :=
  optimizeAtSplit sig_adc_sdivmod_first sig_adc_sdivmod_second INSTR_PEEPHOLE_ADS_SDIVMOD.
Definition optimizeAt_ADC_udiv10 := optimizeAtWhole sig_adc_udiv10 INSTR_PEEPHOLE_ADS_UDIV10.
Definition optimizeAt_ADC_sdiv10 := optimizeAtWhole sig_adc_sdiv10 INSTR_PEEPHOLE_ADS_SDIV10.
Definition optimizeAt_ADC_memcpy := optimizeAtWhole sig_adc_memcpy INSTR_PEEPHOLE_ADS_MEMCPY.

(** The body of the loop. *)
Definition optimizeAt (code : list Z) (size : Z) : outcome (list Z) :=
  code ← optimizeAt_ADC_udivmod code size;
  code ← optimizeAt_ADC_sdivmod code size;
  code ← optimizeAt_ADC_udiv10 code size;
  code ← optimizeAt_ADC_sdiv10 code size;
  optimizeAt_ADC_memcpy code size.

(** The loop; [code] is the rest of the array from the pointer on, and the
    words behind the pointer are the result's first ones. *)
Fixpoint peepholeLoop (fuel : nat) (code : list Z) (size : Z) : outcome (list Z) :=
  match fuel with
  | O => Hang
  | S fuel =>
      if size <=? 0 then Ret code else
      code ← optimizeAt code size;
      match code with
      | [] => Undef
      | w :: rest => rest ← peepholeLoop fuel rest (size - 4); Ret (w :: rest)
      end
  end.

Definition peepholeOptimize (code : list Z) (size : Z) : outcome (list Z) :=
  let size := size .&~ 3 in
  peepholeLoop (S (Z.to_nat (size / 4))) code size.

(** ** What the pass does

    The patterns: a word, or any conditional branch. *)

Inductive Pattern := word (w : Z) | anyBCS.

Definition patMatches (p : Pattern) (w : Z) : bool :=
  match p with word v => w =? v | anyBCS => w / 2 ^ 24 =? 0x2a end.

(** The routine is at the head of the code. *)
Fixpoint routineAt (ps : list Pattern) (code : list Z) : bool :=
  match ps, code with
  | [], _ => true
  | p :: ps, w :: code => patMatches p w && routineAt ps code
  | _ :: _, [] => false
  end.

Definition routines : list (list Pattern * Z) := [
  (map word sig_adc_udivmod_first ++ anyBCS :: map word sig_adc_udivmod_second, INSTR_PEEPHOLE_ADS_UDIVMOD);
  (map word sig_adc_sdivmod_first ++ anyBCS :: map word sig_adc_sdivmod_second, INSTR_PEEPHOLE_ADS_SDIVMOD);
  (map word sig_adc_udiv10, INSTR_PEEPHOLE_ADS_UDIV10);
  (map word sig_adc_sdiv10, INSTR_PEEPHOLE_ADS_SDIV10);
  (map word sig_adc_memcpy, INSTR_PEEPHOLE_ADS_MEMCPY)].

(** The instruction that replaces the routine at the head of the code. *)
Fixpoint replacementIn (rs : list (list Pattern * Z)) (code : list Z) : option Z :=
  match rs with
  | [] => None
  | (ps, i) :: rs => if routineAt ps code then Some i else replacementIn rs code
  end.

Definition replacement := replacementIn routines.

(** The code after the pass: word by word, from the original code. *)
Fixpoint optimized (code : list Z) : list Z :=
  match code with
  | [] => []
  | w :: rest => default w (replacement code) :: optimized rest
  end.

Lemma routineAt_short ps code : (length code < length ps)%nat -> routineAt ps code = false.
Proof.
  revert code. induction ps as [|p ps IH]; intros [|w code] Hl; cbn in *; try lia; try done.
  by rewrite IH, andb_false_r by lia.
Qed.

Lemma routineAt_app ps qs code :
  (length ps <= length code)%nat -> routineAt (ps ++ qs) code = routineAt ps code && routineAt qs (drop (length ps) code).
Proof.
  revert code. induction ps as [|p ps IH]; intros [|w code] Hl; cbn in *; try lia; try done.
  by rewrite IH, andb_assoc by lia.
Qed.

Lemma routineAt_words sig code :
  (length sig <= length code)%nat -> routineAt (map word sig) code = bool_decide (take (length sig) code = sig).
Proof.
  revert code. induction sig as [|v sig IH]; intros [|w code] Hl; cbn in *; try lia; try done.
  rewrite IH by lia. apply eq_true_iff_eq. rewrite andb_true_iff, Z.eqb_eq, !bool_decide_eq_true.
  split; [by intros [-> ->]|by intros [= -> ->]].
Qed.

Lemma memcmpEq_exact sig code :
  (length sig <= length code)%nat -> memcmpEq code sig = Ret (routineAt (map word sig) code).
Proof.
  intros Hl. unfold memcmpEq. rewrite routineAt_words by done. by destruct (Nat.ltb_spec (length code) (length sig)); [lia|].
Qed.

(** One optimizer. *)
Definition replaced (ps : list Pattern) (instr : Z) (code : list Z) : list Z :=
  if routineAt ps code then code.[0 <- instr] else code.

Lemma whole_exact sig instr code size :
  size = sizeof code -> optimizeAtWhole sig instr code size = Ret (replaced (map word sig) instr code).
Proof.
  intros ->. unfold optimizeAtWhole, replaced, sizeof. destruct (Z.ltb_spec (4 * Z.of_nat (length code)) (4 * Z.of_nat (length sig))).
  - by rewrite routineAt_short by (rewrite length_map; lia).
  - rewrite memcmpEq_exact by lia. cbn. by destruct (routineAt _ _).
Qed.

Lemma split_exact first second instr code size :
  size = sizeof code -> optimizeAtSplit first second instr code size =
  Ret (replaced (map word first ++ anyBCS :: map word second) instr code).
Proof.
  intros ->. unfold optimizeAtSplit, replaced, sizeof.
  destruct (Z.ltb_spec (4 * Z.of_nat (length code)) (4 * Z.of_nat (length first) + 4 * Z.of_nat (length second) + 4)).
  - by rewrite routineAt_short by (rewrite length_app; cbn; rewrite !length_map; lia).
  - rewrite routineAt_app by (rewrite length_map; lia). rewrite length_map, (memcmpEq_exact first) by lia. cbn [mbind outcome_bind].
    destruct (routineAt (map word first) code); [|done]. cbn [negb andb]. unfold readWord.
    destruct (code !! length first) as [w|] eqn:E; [|apply lookup_ge_None in E; lia].
    rewrite (drop_S _ _ _ E). cbn [mbind outcome_bind routineAt patMatches]. rewrite shiftr_div by done.
    destruct (w / 2 ^ 24 =? 0x2a); [|done]. cbn [negb andb].
    rewrite memcmpEq_exact by (rewrite length_drop; lia). cbn [mbind outcome_bind].
    rewrite Nat.add_1_r. by destruct (routineAt _ _).
Qed.

Lemma sizeof_replaced ps instr code : sizeof (replaced ps instr code) = sizeof code.
Proof. unfold sizeof, replaced. destruct (routineAt ps code); [by rewrite length_aset|done]. Qed.

Lemma optimizeAt_exact w rest :
  optimizeAt (w :: rest) (sizeof (w :: rest)) = Ret (default w (replacement (w :: rest)) :: rest).
Proof.
  unfold optimizeAt, optimizeAt_ADC_udivmod, optimizeAt_ADC_sdivmod, optimizeAt_ADC_udiv10, optimizeAt_ADC_sdiv10,
    optimizeAt_ADC_memcpy.
  do 2 (rewrite split_exact by (by rewrite ?sizeof_replaced); cbn [mbind outcome_bind]).
  do 3 (rewrite whole_exact by (by rewrite ?sizeof_replaced); cbn [mbind outcome_bind]). f_equal.
  unfold replacement, routines. cbn [replacementIn]. unfold replaced.
  destruct (routineAt (map word sig_adc_udivmod_first ++ _) (w :: rest)); [reflexivity|].
  destruct (routineAt (map word sig_adc_sdivmod_first ++ _) (w :: rest)); [reflexivity|].
  destruct (routineAt (map word sig_adc_udiv10) (w :: rest)); [reflexivity|].
  destruct (routineAt (map word sig_adc_sdiv10) (w :: rest)); [reflexivity|].
  by destruct (routineAt (map word sig_adc_memcpy) (w :: rest)).
Qed.

Lemma loop_exact fuel code :
  (length code < fuel)%nat -> peepholeLoop fuel code (sizeof code) = Ret (optimized code).
Proof.
  revert code. induction fuel as [|fuel IH]; intros code Hl; [lia|]. destruct code as [|w rest]; [done|].
  cbn [peepholeLoop]. destruct (Z.leb_spec (sizeof (w :: rest)) 0) as [Hs|_]; [unfold sizeof in Hs; cbn in Hs; lia|].
  rewrite optimizeAt_exact. cbn [mbind outcome_bind]. cbn [length] in Hl.
  replace (sizeof (w :: rest) - 4) with (sizeof rest) by (unfold sizeof; cbn [length]; lia).
  rewrite IH by lia. done.
Qed.

(** The pass over an array of code returns, and changes exactly the words at
    which one of the five routines begins, to that routine's instruction: the
    words already replaced and the shortened rest of the array hide no routine
    and fake none, and no comparison reads past the array. *)
Theorem peephole_exact code size :
  0 <= size -> Z.of_nat (length code) = size / 4 -> peepholeOptimize code size = Ret (optimized code).
Proof.
  intros H0 Hl. unfold peepholeOptimize.
  replace (size .&~ 3) with (sizeof code).
  - apply loop_exact. unfold sizeof. rewrite Z.mul_comm, Z.div_mul by done. lia.
  - change 3 with (Z.ones 2). rewrite Z.ldiff_ones_r, Z.shiftl_mul_pow2, shiftr_div by done. change (2 ^ 2) with 4. unfold sizeof. lia.
Qed.

Lemma peephole_exact_witness :
  let code := sig_adc_udiv10 ++ [0; 1] ++ sig_adc_udiv10 ++ [2] in
  peepholeOptimize code 100 = Ret (optimized code) /\
  optimized code = INSTR_PEEPHOLE_ADS_UDIV10 :: drop 1 sig_adc_udiv10 ++ [0; 1] ++ INSTR_PEEPHOLE_ADS_UDIV10 :: drop 1 sig_adc_udiv10 ++ [2].
Proof. intros code. split; [by apply peephole_exact|by vm_compute]. Defined.

(** ** The replaced code, executed

    Running a routine: the words are fetched from an array at [base]. *)

Section Routine.
Context {W : Type} `{PhysMem W} `{InstrMem W}.
Context (coproc : Z -> ArmCoprocessor (ArmCP15 W ICache)).
Context (paceFn : ExecFn -> Machine W -> bool -> outcome (Machine W)).

Definition setCpu (s : Machine W) (c : ArmCpu) : Machine W := { s with core ::= fun m => { m with cpu := c } }.

(** What [cpuPrvCycleArm] does to the program counter before it executes. *)
Definition fetched (c : ArmCpu) : ArmCpu :=
  { c with curInstrPC := c.(regs).[REG_NO_PC]; regs ::= fun r => r.[REG_NO_PC <- u32 (c.(regs).[REG_NO_PC] + 4)] }.

Definition armWord (s : Machine W) (w : Z) : outcome (Machine W) :=
  execPtr coproc paceFn (fn false (cpuPrvDecoderArm false w)) (setCpu s (fetched s.(core).(cpu))) w
    (negb (s.(core).(cpu).(M) =? ARM_SR_MODE_USR)).

(** The word at the program counter. *)
Definition codeAt (base : Z) (code : list Z) (c : ArmCpu) : outcome Z :=
  readWord code (Z.to_nat ((c.(regs).[REG_NO_PC] - base) / 4)).

(** [n] instructions. *)
Fixpoint runCode (n : nat) (base : Z) (code : list Z) (s : Machine W) : outcome (Machine W) :=
  match n with
  | O => Ret s
  | S n => w ← codeAt base code s.(core).(cpu); s ← armWord s w; runCode n base code s
  end.

(** The same on the CPU alone, for functions that touch nothing else. *)
Definition cpuFn (f : ExecFn) (c : ArmCpu) (w : Z) (privileged : bool) : outcome ArmCpu :=
  match f with
  | fn_dproc op setFlags srcPc destPc => execFn_dproc false op setFlags srcPc destPc c w privileged
  | fn_bl_reg link => execFn_bl_reg false link c w privileged
  | fn_udiv10 => execFn_peephole_ADC_udiv10 c
  | fn_sdiv10 => execFn_peephole_ADC_sdiv10 c
  | _ => Undef
  end.

Definition cpuWord (c : ArmCpu) (w : Z) : outcome ArmCpu :=
  cpuFn (cpuPrvDecoderArm false w) (fetched c) w (negb (c.(M) =? ARM_SR_MODE_USR)).

Fixpoint cpuCode (n : nat) (base : Z) (code : list Z) (c : ArmCpu) : outcome ArmCpu :=
  match n with
  | O => Ret c
  | S n => w ← codeAt base code c; c ← cpuWord c w; cpuCode n base code c
  end.

Lemma onCpu_set s c f c' : f c = Ret c' -> onCpu (setCpu s c) f = Ret (setCpu s c').
Proof.
  intros Hf. destruct s as [[] ? ? ? ?]. unfold onCpu, onCore, withCpu.
  change (f (Cp15.cpu (core (setCpu _ c)))) with (f c). by rewrite Hf.
Qed.

Lemma armWord_cpu s w c : cpuWord s.(core).(cpu) w = Ret c -> armWord s w = Ret (setCpu s c).
Proof.
  unfold cpuWord, armWord. cbn [execPtr]. destruct (cpuPrvDecoderArm false w); try discriminate; intros Hc; apply onCpu_set, Hc.
Qed.

Lemma runCode_cpu n base code s c : cpuCode n base code s.(core).(cpu) = Ret c -> runCode n base code s = Ret (setCpu s c).
Proof.
  revert s. induction n as [|n IH]; intros s; cbn [cpuCode runCode].
  - intros [= <-]. by destruct s as [[] ? ? ? ?].
  - destruct (codeAt base code _) as [w| | |]; cbn [mbind outcome_bind]; try done.
    destruct (cpuWord _ w) as [c'| | |] eqn:E; cbn [mbind outcome_bind]; try done. intros Hn.
    rewrite (armWord_cpu _ _ _ E). cbn [mbind outcome_bind].
    rewrite (IH (setCpu s c')); [by destruct s as [[] ? ? ? ?]|]. by destruct s as [[] ? ? ? ?].
Qed.

(** States that differ only in what a called function may leave in any state:
    r2, r3, the condition flags, and the address of the last instruction. *)
Definition result (s : Machine W) : Machine W :=
  setCpu s { s.(core).(cpu) with flags := 0; curInstrPC := 0; regs ::= fun r => r.[2 <- 0].[3 <- 0] }.
End Routine.
Arguments result {W}.
Arguments setCpu {W}.

(** *** Single instructions *)

(** The CPU with these registers and flags. *)
Definition at_ (c : ArmCpu) (rs : list Z) (fl ip : Z) : ArmCpu := { c with regs := rs; flags := fl; curInstrPC := ip }.

Definition plain (op : DpOp) (a b : Z) : Z :=
  match op with SUB => u32 (a - b) | RSB => u32 (b - a) | ADD => u32 (a + b) | _ => b end.

Lemma plain_step op srcPc c w privileged :
  In op [SUB; RSB; ADD; MOV] -> regs_ok c -> is_u 32 w -> condFails c w = false ->
  execFn_dproc false (opNo op) false srcPc false c w privileged =
  Ret { c with regs ::= fun r =>
    r.[bits w 15 12 <- plain op (getRegT false srcPc c (bits w 19 16)) (fst (shifterOperand false c w))] }.
Proof.
  intros Hop Hr Hw Hc. unfold execFn_dproc. cbn [armInstr]. rewrite Hc, shifter_exact by done.
  destruct (shifterOperand false c w) as [b co]. cbn [fst].
  change (w .>> 16 .& 15) with (bits w 19 16). change (w .>> 12 .& 15) with (bits w 15 12).
  destruct Hop as [<-|[<-|[<-|[<-|[]]]]]; reflexivity.
Qed.

Lemma skipped_step op setFlags srcPc destPc c w privileged :
  condFails c w = true -> execFn_dproc false op setFlags srcPc destPc c w privileged = Ret c.
Proof. intros Hc. unfold execFn_dproc. cbn [armInstr]. by rewrite Hc. Qed.

(** Whether an instruction with MI, PL or AL is skipped, from the flags. *)
Lemma condFails_at c w N Zr C V :
  c.(flags) = flagsWord N Zr C V -> is_u 32 w -> In (w / 2 ^ 28) [4; 5; 14] ->
  condFails c w = match w / 2 ^ 28 with 4 => negb N | 5 => N | _ => false end.
Proof.
  intros Hf [H0 H1] Hin. unfold condFails. rewrite Hf, (shiftr_div w) by done.
  rewrite conditions_exact by zdiv_lia. destruct Hin as [<-|[<-|[<-|[]]]]; [done|apply negb_involutive|done].
Qed.

(** The operands that occur in the routines. *)
Lemma operand_imm c w v :
  Z.testbit w 25 = true -> bits w 11 8 = 0 -> bits w 7 0 = v -> fst (shifterOperand false c w) = v.
Proof.
  intros H1 H2 <-. unfold shifterOperand. rewrite H1, H2. cbn [shiftRef fst Z.mul Z.eqb].
  change (0 mod 32) with 0. rewrite Z.div_1_r, Z.mod_1_r. cbn. lia.
Qed.

Lemma operand_reg c w m n :
  Z.testbit w 25 = false -> Z.testbit w 4 = false -> bits w 3 0 = m -> m <> 15 -> bits w 11 7 = n -> 
  fst (shifterOperand false c w) =
  match bits w 6 5, n with 0, 0 => c.(regs).[m] | 0, Z.pos _ => u32 (c.(regs).[m] * 2 ^ n) | 1, Z.pos _ => c.(regs).[m] / 2 ^ n
                        | _, _ => fst (shifterOperand false c w) end.
Proof.
  intros H1 H2 <- H3 <-. unfold shifterOperand. rewrite H1, H2. unfold cpuPrvGetReg, REG_NO_PC.
  rewrite (proj2 (Z.eqb_neq (bits w 3 0) 15)) by done. 
  destruct (bits w 6 5) as [|[]|]; try reflexivity; by destruct (bits w 11 7).
Qed.

(** A register file by its first four registers and the program counter. *)
Definition file (xs : list Z) (a0 a1 a2 a3 pc : Z) : list Z := [a0; a1; a2; a3] ++ take 11 xs ++ [pc].

Lemma file_get xs a0 a1 a2 a3 pc i :
  length xs = 11%nat -> 0 <= i < 16 ->
  (file xs a0 a1 a2 a3 pc).[i] = match i with 0 => a0 | 1 => a1 | 2 => a2 | 3 => a3 | 15 => pc | _ => xs.[i - 4] end.
Proof.
  intros Hl. do 11 (destruct xs as [|? xs]; [discriminate|]). destruct xs; [|discriminate].
  revert i. apply (bit_index_cases _ 16). by forall_list.
Qed.

Lemma file_set xs a0 a1 a2 a3 pc v :
  length xs = 11%nat ->
  (file xs a0 a1 a2 a3 pc).[0 <- v] = file xs v a1 a2 a3 pc /\ (file xs a0 a1 a2 a3 pc).[1 <- v] = file xs a0 v a2 a3 pc /\
  (file xs a0 a1 a2 a3 pc).[2 <- v] = file xs a0 a1 v a3 pc /\ (file xs a0 a1 a2 a3 pc).[3 <- v] = file xs a0 a1 a2 v pc /\
  (file xs a0 a1 a2 a3 pc).[15 <- v] = file xs a0 a1 a2 a3 v.
Proof. intros Hl. do 11 (destruct xs as [|? xs]; [discriminate|]). by destruct xs. Qed.

Definition wide4 (a0 a1 a2 a3 : Z) : Prop := Forall (is_u 32) [a0; a1; a2; a3].

Ltac wide :=
  unfold wide4; do 4 (apply Forall_cons_2; [first [assumption | by apply wrap_is_u | unfold is_u; lia]|]); apply Forall_nil_2.

(** One instruction of a routine at [base], the [k]th word, on such a file. *)
Section Step.
Context (base : Z) (code : list Z) (c : ArmCpu) (xs : list Z).
Context (Hbase : 0 <= base) (Hfit : base + 4 * Z.of_nat (length code) < 2 ^ 32).
Context (Hxs : length xs = 11%nat) (Hwide : Forall (is_u 32) xs) (Hwf : cpu_wf c).

Abbreviation pcAt k := (base + 4 * k) (only parsing).
Abbreviation st a0 a1 a2 a3 k fl ip := (at_ c (file xs a0 a1 a2 a3 (pcAt k)) fl ip).

Lemma file_ok a0 a1 a2 a3 k fl ip :
  wide4 a0 a1 a2 a3 -> 0 <= k <= Z.of_nat (length code) -> regs_ok (st a0 a1 a2 a3 k fl ip).
Proof.
  intros H4 Hk. unfold regs_ok. cbn [at_ regs]. unfold file. rewrite take_ge by lia.
  apply Forall_app_2; [done|]. apply Forall_app_2; [done|]. constructor; [unfold is_u; lia|constructor].
Qed.

Lemma at_wf a0 a1 a2 a3 k N Zr C V ip : cpu_wf (st a0 a1 a2 a3 k (flagsWord N Zr C V) ip).
Proof.
  destruct Hwf as [_ H2 H3 _]. split; [|exact H2|exact H3|].
  - change (length (file xs a0 a1 a2 a3 (pcAt k)) = 16%nat). unfold file. rewrite !length_app, length_take, Hxs. done.
  - exists (8 * Z.b2z N + 4 * Z.b2z Zr + 2 * Z.b2z C + Z.b2z V). split; [by destruct N, Zr, C, V|].
    change (flagsWord N Zr C V = (8 * Z.b2z N + 4 * Z.b2z Zr + 2 * Z.b2z C + Z.b2z V) .<< 28). by destruct N, Zr, C, V.
Qed.

Lemma run_step n w a0 a1 a2 a3 k fl ip r :
  0 <= k < Z.of_nat (length code) -> code !! Z.to_nat k = Some w ->
  cpuFn (cpuPrvDecoderArm false w) (st a0 a1 a2 a3 (k + 1) fl (pcAt k)) w (negb (c.(M) =? ARM_SR_MODE_USR)) = Ret r ->
  cpuCode (S n) base code (st a0 a1 a2 a3 k fl ip) = cpuCode n base code r.
Proof.
  intros Hk Hw Hr. cbn [cpuCode]. unfold codeAt.
  assert (E : (st a0 a1 a2 a3 k fl ip).(regs).[REG_NO_PC] = pcAt k) by (by apply (file_get xs a0 a1 a2 a3 _ 15)).
  rewrite E. replace ((pcAt k - base) / 4) with k by zdiv_lia. unfold readWord. rewrite Hw. cbn [mbind outcome_bind].
  unfold cpuWord. replace (fetched _) with (st a0 a1 a2 a3 (k + 1) fl (pcAt k)).
  - change (M (st a0 a1 a2 a3 k fl ip)) with (M c). by rewrite Hr.
  - unfold fetched. rewrite E, wrap_small by (unfold is_u; lia). destruct c. cbv beta. unfold at_. cbn -[file aset aget Z.add Z.mul].
    f_equal. change REG_NO_PC with 15. rewrite (proj2 (proj2 (proj2 (proj2 (file_set xs a0 a1 a2 a3 (pcAt k) (pcAt k + 4) Hxs))))).
    f_equal. lia.
Qed.

Definition skipsAt (N : bool) (w : Z) : bool := match w / 2 ^ 28 with 4 => negb N | 5 => N | _ => false end.

(** A data-processing instruction that leaves the flags alone. *)
Lemma run_plain n w op a0 a1 a2 a3 k N Zr C V ip :
  0 <= k < Z.of_nat (length code) -> code !! Z.to_nat k = Some w ->
  wide4 a0 a1 a2 a3 -> is_u 32 w -> In (w / 2 ^ 28) [4; 5; 14] ->
  In op [SUB; RSB; ADD; MOV] -> cpuPrvDecoderArm false w = fn_dproc (opNo op) false false false ->
  cpuCode (S n) base code (st a0 a1 a2 a3 k (flagsWord N Zr C V) ip) =
  let rs := file xs a0 a1 a2 a3 (pcAt (k + 1)) in
  cpuCode n base code (at_ c (if skipsAt N w then rs else
    rs.[bits w 15 12 <- plain op rs.[bits w 19 16] (fst (shifterOperand false (at_ c rs (flagsWord N Zr C V) (pcAt k)) w))])
    (flagsWord N Zr C V) (pcAt k)).
Proof.
  intros Hk Hw H4 Hw32 Hc Hop Hd. cbv zeta. apply (run_step n w); [done|done|]. rewrite Hd. cbn [cpuFn].
  pose proof (condFails_at (st a0 a1 a2 a3 (k + 1) (flagsWord N Zr C V) (pcAt k)) w N Zr C V eq_refl Hw32 Hc) as E.
  change (match w / 2 ^ 28 with 4 => negb N | 5 => N | _ => false end) with (skipsAt N w) in E.
  destruct (skipsAt N w); [by apply skipped_step|].
  rewrite plain_step by (done || apply file_ok; (done || lia)). reflexivity.
Qed.

Lemma at_regs c' rs fl ip : (at_ c' rs fl ip).(regs) = rs.
Proof. reflexivity. Qed.

(** The same with the value computed. *)
Lemma run_to n w op b0 b1 b2 b3 v a0 a1 a2 a3 k N Zr C V ip :
  0 <= k < Z.of_nat (length code) -> code !! Z.to_nat k = Some w ->
  wide4 a0 a1 a2 a3 -> is_u 32 w -> In (w / 2 ^ 28) [4; 5; 14] ->
  In op [SUB; RSB; ADD; MOV] -> cpuPrvDecoderArm false w = fn_dproc (opNo op) false false false ->
  skipsAt N w = false ->
  (let rs := file xs a0 a1 a2 a3 (pcAt (k + 1)) in
   plain op rs.[bits w 19 16] (fst (shifterOperand false (at_ c rs (flagsWord N Zr C V) (pcAt k)) w))) = v ->
  (file xs a0 a1 a2 a3 (pcAt (k + 1))).[bits w 15 12 <- v] = file xs b0 b1 b2 b3 (pcAt (k + 1)) ->
  cpuCode (S n) base code (st a0 a1 a2 a3 k (flagsWord N Zr C V) ip) =
  cpuCode n base code (st b0 b1 b2 b3 (k + 1) (flagsWord N Zr C V) (pcAt k)).
Proof.
  intros ? ? ? ? ? ? ? Hs <- Hf. erewrite run_plain by done. cbv zeta. rewrite Hs. cbv zeta in Hf. by rewrite Hf.
Qed.

Lemma run_skip n w op a0 a1 a2 a3 k N Zr C V ip :
  0 <= k < Z.of_nat (length code) -> code !! Z.to_nat k = Some w ->
  wide4 a0 a1 a2 a3 -> is_u 32 w -> In (w / 2 ^ 28) [4; 5; 14] ->
  In op [SUB; RSB; ADD; MOV] -> cpuPrvDecoderArm false w = fn_dproc (opNo op) false false false ->
  skipsAt N w = true ->
  cpuCode (S n) base code (st a0 a1 a2 a3 k (flagsWord N Zr C V) ip) =
  cpuCode n base code (st a0 a1 a2 a3 (k + 1) (flagsWord N Zr C V) (pcAt k)).
Proof. intros ? ? ? ? ? ? ? Hs. erewrite run_plain by done. cbv zeta. by rewrite Hs. Qed.

(** One that sets them. *)
Lemma run_flags n w op a0 a1 a2 a3 k N Zr C V ip :
  0 <= k < Z.of_nat (length code) -> code !! Z.to_nat k = Some w ->
  wide4 a0 a1 a2 a3 -> is_u 32 w -> w / 2 ^ 28 = 14 -> In op [SUB; MOV] ->
  cpuPrvDecoderArm false w = fn_dproc (opNo op) true false false ->
  let rs := file xs a0 a1 a2 a3 (pcAt (k + 1)) in
  let v := plain op rs.[bits w 19 16] (fst (shifterOperand false (at_ c rs (flagsWord N Zr C V) (pcAt k)) w)) in
  exists Zr' C' V',
  cpuCode (S n) base code (st a0 a1 a2 a3 k (flagsWord N Zr C V) ip) =
  cpuCode n base code (at_ c (rs.[bits w 15 12 <- v]) (flagsWord (Z.testbit v 31) Zr' C' V') (pcAt k)).
Proof.
  intros Hk Hw H4 Hw32 Hc Hop Hd. cbv zeta.
  pose proof (condFails_at (st a0 a1 a2 a3 (k + 1) (flagsWord N Zr C V) (pcAt k)) w N Zr C V eq_refl Hw32
    ltac:(rewrite Hc; cbn; auto)) as E. rewrite Hc in E.
  assert (Hr : regs_ok (st a0 a1 a2 a3 (k + 1) (flagsWord N Zr C V) (pcAt k))) by (apply file_ok; (done || lia)).
  pose proof (dproc_step false op false (st a0 a1 a2 a3 (k + 1) (flagsWord N Zr C V) (pcAt k)) w (negb (c.(M) =? ARM_SR_MODE_USR))
    (at_wf a0 a1 a2 a3 (k + 1) N Zr C V (pcAt k)) Hr Hw32 E) as Hs.
  pose proof (shifter_is_u false (st a0 a1 a2 a3 (k + 1) (flagsWord N Zr C V) (pcAt k)) w Hr) as Hb.
  rewrite shifter_exact in Hb by done. unfold dpResult in Hs. cbn [armInstr] in Hs.
  destruct (shifterOperand false _ w) as [b co] eqn:Eo. cbn [fst] in *.
  destruct Hop as [<-|[<-|[]]]; cbn [dpRef compares] in Hs.
  - rewrite sub_exact in Hs by (done || by apply getRegT_is_u). do 3 eexists. apply (run_step n w); [done|done|].
    rewrite Hd. exact Hs.
  - do 3 eexists. apply (run_step n w); [done|done|]. rewrite Hd. exact Hs.
Qed.

(** The return. *)
Lemma run_bx n a0 a1 a2 a3 k N Zr C V ip :
  0 <= k < Z.of_nat (length code) -> code !! Z.to_nat k = Some 0xE12FFF1E ->
  cpuCode (S n) base code (st a0 a1 a2 a3 k (flagsWord N Zr C V) ip) =
  cpuCode n base code (cpuPrvSetPC (st a0 a1 a2 a3 (k + 1) (flagsWord N Zr C V) (pcAt k)) xs.[10]).
Proof.
  intros Hk Hw. apply (run_step n 0xE12FFF1E); [done|done|].
  change (cpuPrvDecoderArm false 0xE12FFF1E) with (fn_bl_reg false). cbn [cpuFn]. unfold execFn_bl_reg. cbn [armInstr].
  rewrite (condFails_at _ _ N Zr C V) by (reflexivity || by split || (right; right; left; reflexivity)).
  change (0xE12FFF1E / 2 ^ 28) with 14. cbv iota zeta. do 2 f_equal.
  by apply (file_get xs a0 a1 a2 a3 _ 14).
Qed.

Ltac value :=
  cbv zeta;
  first [erewrite operand_imm by (reflexivity || by vm_compute)
        | erewrite operand_reg by (reflexivity || by vm_compute)];
  rewrite ?at_regs;
  repeat match goal with |- context [bits ?w ?h ?l] => let v := eval vm_compute in (bits w h l) in change (bits w h l) with v end;
  rewrite !(file_get xs) by (done || lia); cbv iota; unfold plain.

Ltac word_side :=
  match goal with
  | |- In (_ / _) _ => repeat first [left; reflexivity | right]
  | |- In _ _ => cbn; tauto
  | |- _ => idtac
  end.

(** RSBMI rd, rd, #0 *)
Lemma run_neg0 n a0 a1 a2 a3 k N Zr C V ip :
  0 <= k < Z.of_nat (length code) -> code !! Z.to_nat k = Some 0x42600000 -> wide4 a0 a1 a2 a3 ->
  cpuCode (S n) base code (st a0 a1 a2 a3 k (flagsWord N Zr C V) ip) =
  cpuCode n base code (st (if N then u32 (0 - a0) else a0) a1 a2 a3 (k + 1) (flagsWord N Zr C V) (pcAt k)).
Proof.
  intros. destruct N.
  - apply (run_to n 0x42600000 RSB _ _ _ _ (u32 (0 - a0))); try done; try word_side; try (by apply (file_set xs)).
  - apply (run_skip n 0x42600000 RSB); try done; word_side.
Qed.

Lemma run_neg1 n a0 a1 a2 a3 k N Zr C V ip :
  0 <= k < Z.of_nat (length code) -> code !! Z.to_nat k = Some 0x42611000 -> wide4 a0 a1 a2 a3 ->
  cpuCode (S n) base code (st a0 a1 a2 a3 k (flagsWord N Zr C V) ip) =
  cpuCode n base code (st a0 (if N then u32 (0 - a1) else a1) a2 a3 (k + 1) (flagsWord N Zr C V) (pcAt k)).
Proof.
  intros. destruct N.
  - apply (run_to n 0x42611000 RSB _ _ _ _ (u32 (0 - a1))); try done; try word_side; try (by apply (file_set xs)).
  - apply (run_skip n 0x42611000 RSB); try done; word_side.
Qed.

(** MOVS r3, w3 *)
Lemma run_movs n w v a0 a1 a2 a3 k N Zr C V ip :
  0 <= k < Z.of_nat (length code) -> code !! Z.to_nat k = Some w -> wide4 a0 a1 a2 a3 ->
  (w = 0xE1B03000 /\ v = a0 \/ w = 0xE1B03003 /\ v = a3) ->
  exists Zr' C' V',
  cpuCode (S n) base code (st a0 a1 a2 a3 k (flagsWord N Zr C V) ip) =
  cpuCode n base code (st a0 a1 a2 v (k + 1) (flagsWord (Z.testbit v 31) Zr' C' V') (pcAt k)).
Proof.
  intros Hk Hw H4 [[-> ->]|[-> ->]];
    edestruct (run_flags n _ MOV a0 a1 a2 a3 k N Zr C V ip Hk Hw H4) as (Z' & C' & V' & E);
    [by split|reflexivity|cbn; tauto|by vm_compute| |by split|reflexivity|cbn; tauto|by vm_compute|];
    exists Z', C', V'; (etransitivity; [exact E|]).
  - set (v := plain _ _ _). replace v with a0 by (symmetry; subst v; value; reflexivity). do 2 f_equal. all: by apply (file_set xs).
  - set (v := plain _ _ _). replace v with a3 by (symmetry; subst v; value; reflexivity). do 2 f_equal. all: by apply (file_set xs).
Qed.

(** The ten words both routines share. *)
Definition body10 : list Z := take 10 sig_adc_udiv10.

Section Body.
Context (k : Z) (Hk : 0 <= k) (Hlen : k + 10 <= Z.of_nat (length code)).
Context (Hbody : forall i w, body10 !! i = Some w -> code !! (Z.to_nat k + i)%nat = Some w).

Lemma body_at i w : 0 <= i < 10 -> body10 !! Z.to_nat i = Some w -> code !! Z.to_nat (k + i) = Some w.
Proof. intros Hi Hw. rewrite Z2Nat.inj_add by lia. by apply Hbody. Qed.

(** The quotient by shifts is ten times too small by less than twenty. *)
Lemma quotient_bounds n q0 q1 q2 q3 q :
  is_u 32 n -> q0 = n - n / 4 -> q1 = q0 + q0 / 16 -> q2 = q1 + q1 / 256 -> q3 = q2 + q2 / 65536 -> q = q3 / 8 ->
  (0 <= q0 < 2 ^ 32 /\ 0 <= q1 < 2 ^ 32 /\ 0 <= q2 < 2 ^ 32 /\ 0 <= q3 < 2 ^ 32) /\ 0 <= q /\ 0 <= n - 10 * q < 20.
Proof. unfold is_u. intros. zdiv_lia. Qed.


Ltac arith v :=
  repeat match goal with |- context [2 ^ ?n] => let v := eval vm_compute in (2 ^ n) in change (2 ^ n) with v end;
  rewrite ?(wrap_small _ (_ * _)) by (unfold is_u; lia);
  first [reflexivity | lia | transitivity (u32 v); [f_equal; lia|apply wrap_small; unfold is_u; lia] | idtac].

(** One word of the body. *)
Ltac body_step i j op b0 b1 b2 b3 v :=
  etransitivity; [eapply (run_to _ _ op b0 b1 b2 b3 v _ _ _ _ (k + i));
    [lia|apply (body_at i); [lia|reflexivity]|wide|by split|word_side|word_side|by vm_compute|try reflexivity|value; arith v|try (by apply (file_set xs))]|replace (k + i + 1) with (k + j) by lia].

Lemma quotient_steps m n a1 a2 a3 N Zr C V ip q0 q1 q2 q3 q :
  wide4 n a1 a2 a3 ->
  q0 = n - n / 4 -> q1 = q0 + q0 / 16 -> q2 = q1 + q1 / 256 -> q3 = q2 + q2 / 65536 -> q = q3 / 8 ->
  cpuCode (7 + m) base code (st n a1 a2 a3 k (flagsWord N Zr C V) ip) =
  cpuCode m base code (st q (u32 (n - 10)) (q + q * 4) a3 (k + 7) (flagsWord N Zr C V) (pcAt (k + 6))).
Proof.
  intros H4 E0 E1 E2 E3 Eq. assert (Hn : is_u 32 n) by (by inversion H4).
  assert (H2 : is_u 32 a1 /\ is_u 32 a2 /\ is_u 32 a3) by (unfold wide4 in H4; rewrite !Forall_cons in H4; tauto). destruct H2 as (? & ? & ?).
  destruct (quotient_bounds n q0 q1 q2 q3 q Hn E0 E1 E2 E3 Eq) as ((B0 & B1 & B2 & B3) & Bq & B).
  assert (Hn' : 0 <= n < 2 ^ 32) by done. replace (pcAt k) with (pcAt (k + 0)) by lia. cbn [Nat.add].
  body_step 0 1 SUB n (u32 (n - 10)) a2 a3 (u32 (n - 10)).
  body_step 1 2 SUB q0 (u32 (n - 10)) a2 a3 q0.
  body_step 2 3 ADD q1 (u32 (n - 10)) a2 a3 q1.
  body_step 3 4 ADD q2 (u32 (n - 10)) a2 a3 q2.
  body_step 4 5 ADD q3 (u32 (n - 10)) a2 a3 q3.
  body_step 5 6 MOV q (u32 (n - 10)) a2 a3 q.
  body_step 6 7 ADD q (u32 (n - 10)) (q + q * 4) a3 (q + q * 4).
  replace (k + 7 - 1) with (k + 6) by lia. reflexivity.
Qed.

(** The remainder, corrected if the quotient was one too small. *)
Lemma div10_body m n a1 a2 a3 N Zr C V ip :
  wide4 n a1 a2 a3 ->
  exists r2 N' Zr' C' V', is_u 32 r2 /\
    cpuCode (10 + m) base code (st n a1 a2 a3 k (flagsWord N Zr C V) ip) =
    cpuCode m base code (st (n / 10) (n mod 10) r2 a3 (k + 10) (flagsWord N' Zr' C' V') (pcAt (k + 9))).
Proof.
  intros H4. assert (Hn : is_u 32 n) by (by inversion H4).
  assert (H3 : is_u 32 a3) by (unfold wide4 in H4; rewrite !Forall_cons in H4; tauto).
  change (10 + m)%nat with (7 + (3 + m))%nat.
  rewrite (quotient_steps (3 + m) n a1 a2 a3 N Zr C V ip _ _ _ _ _ H4 eq_refl eq_refl eq_refl eq_refl eq_refl).
  destruct (quotient_bounds n _ _ _ _ _ Hn eq_refl eq_refl eq_refl eq_refl eq_refl) as (_ & Bq & B).
  set (q := _ / 8) in *. clearbody q. assert (Hn' : 0 <= n < 2 ^ 32) by done.
  assert (Hr : is_u 32 (q + q * 4)) by (unfold is_u; lia).
  assert (W4 : wide4 q (u32 (n - 10)) (q + q * 4) a3) by wide.
  destruct (run_flags (2 + m) 0xE0511082 SUB q (u32 (n - 10)) (q + q * 4) a3 (k + 7) N Zr C V (pcAt (k + 6))
    ltac:(lia) (body_at 7 _ ltac:(lia) eq_refl) W4 ltac:(by split) eq_refl ltac:(cbn; tauto) ltac:(by vm_compute))
    as (Z1 & C1 & V1 & E).
  cbv zeta in E. set (v := plain _ _ _) in E.
  assert (Ev : v = u32 (n - 10 - 10 * q)).
  { subst v. value. change (2 ^ 1) with 2. rewrite (wrap_small _ (_ * 2)) by (unfold is_u; lia).
    unfold wrap. rewrite Zminus_mod_idemp_l. f_equal. lia. }
  change (bits 0xE0511082 15 12) with 1 in E. rewrite (proj1 (proj2 (file_set xs _ _ _ _ _ _ Hxs))) in E.
  replace (k + 7 + 1) with (k + 8) in E by lia. rewrite Ev in E. clear v Ev.
  assert (Ed : n / 10 = q + (n - 10 * q) / 10 /\ n mod 10 = (n - 10 * q) mod 10).
  { replace n with (n - 10 * q + q * 10) at 1 3 by lia. rewrite Z.div_add, Z.mod_add by done. lia. }
  destruct Ed as [-> ->]. exists (q + q * 4).
  assert (Hs : Z.testbit (u32 (n - 10 - 10 * q)) 31 = (n - 10 * q <? 10)).
  { rewrite testbit31 by (by apply wrap_is_u). unfold wrap. apply eq_true_iff_eq. rewrite Z.leb_le, Z.ltb_lt. zdiv_lia. }
  rewrite Hs in E. exists (n - 10 * q <? 10), Z1, C1, V1. split; [done|]. etransitivity; [exact E|]. clear E.
  destruct (Z.ltb_spec (n - 10 * q) 10) as [Hlt|Hge].
  - rewrite (Z.div_small (n - 10 * q)), (Z.mod_small (n - 10 * q)) by lia. rewrite Z.add_0_r.
    etransitivity; [eapply (run_skip _ _ ADD _ _ _ _ (k + 8)); 
      [lia|apply (body_at 8); [lia|reflexivity]|wide|by split|word_side|word_side|by vm_compute|reflexivity]|replace (k + 8 + 1) with (k + 9) by lia].
    body_step 9 10 ADD q (n - 10 * q) (q + q * 4) a3 (n - 10 * q).
    { unfold wrap. rewrite Zplus_mod_idemp_l. rewrite Z.mod_small; lia. }
    reflexivity.
  - replace ((n - 10 * q) / 10) with 1 by zdiv_lia. replace ((n - 10 * q) mod 10) with (n - 10 - 10 * q) by zdiv_lia.
    rewrite (wrap_small 32 (n - 10 - 10 * q)) by (unfold is_u; lia).
    body_step 8 9 ADD (q + 1) (n - 10 - 10 * q) (q + q * 4) a3 (q + 1).
    etransitivity; [eapply (run_skip _ _ ADD _ _ _ _ (k + 9));
      [lia|apply (body_at 9); [lia|reflexivity]|wide|by split|word_side|word_side|by vm_compute|reflexivity]|].
    by replace (k + 9 + 1) with (k + 10) by lia.
Qed.
End Body.
End Step.

Lemma udiv10_run base c xs n a1 a2 a3 N Zr C V ip :
  0 <= base -> base + 4 * 11 < 2 ^ 32 -> length xs = 11%nat -> Forall (is_u 32) xs -> cpu_wf c -> wide4 n a1 a2 a3 ->
  exists r2 fl ip',
  cpuCode 11 base sig_adc_udiv10 (at_ c (file xs n a1 a2 a3 (base + 4 * 0)) (flagsWord N Zr C V) ip) =
  Ret (cpuPrvSetPC (at_ c (file xs (n / 10) (n mod 10) r2 a3 (base + 4 * 11)) fl ip') xs.[10]).
Proof.
  intros Hb Hf Hxs Hw Hwf H4.
  destruct (div10_body base sig_adc_udiv10 c xs Hb ltac:(cbn; lia) Hxs Hw Hwf 0 ltac:(lia) ltac:(cbn; lia)
    ltac:(intros i w; do 10 (destruct i as [|i]; [by intros [= <-]|]); done) 1 n a1 a2 a3 N Zr C V ip H4)
    as (r2 & N' & Z' & C' & V' & _ & E).
  do 3 eexists. etransitivity; [exact E|]. etransitivity; [eapply run_bx; first [done | cbn; lia]|].
  reflexivity.
Qed.

Lemma sgn_parts n :
  is_u 32 n ->
  let a := if Z.testbit n 31 then u32 (0 - n) else n in
  is_u 32 a /\ u32 (Z.quot (sgn 32 n) 10) = (if Z.testbit n 31 then u32 (0 - a / 10) else a / 10) /\
  u32 (Z.rem (sgn 32 n) 10) = (if Z.testbit n 31 then u32 (0 - a mod 10) else a mod 10).
Proof.
  intros Hn. cbv zeta. rewrite testbit31, sgn_u32 by done. assert (Hn' : 0 <= n < 2 ^ 32) by done.
  destruct (Z.leb_spec (2 ^ 31) n), (Z.ltb_spec n (2 ^ 31)); try lia.
  - assert (E : u32 (0 - n) = 2 ^ 32 - n) by (unfold wrap; zdiv_lia). rewrite E.
    replace (n - 2 ^ 32) with (- (2 ^ 32 - n)) by lia. rewrite Z.quot_opp_l, Z.rem_opp_l by done.
    rewrite Z.quot_div_nonneg, Z.rem_mod_nonneg by lia. split; [unfold is_u; lia|done].
  - rewrite Z.quot_div_nonneg, Z.rem_mod_nonneg by lia. split; [done|].
    split; apply wrap_small; unfold is_u; zdiv_lia.
Qed.

Lemma sdiv10_run base c xs n a1 a2 a3 N Zr C V ip :
  0 <= base -> base + 4 * 16 < 2 ^ 32 -> length xs = 11%nat -> Forall (is_u 32) xs -> cpu_wf c -> wide4 n a1 a2 a3 ->
  exists r2 fl ip',
  cpuCode 16 base sig_adc_sdiv10 (at_ c (file xs n a1 a2 a3 (base + 4 * 0)) (flagsWord N Zr C V) ip) =
  Ret (cpuPrvSetPC (at_ c (file xs (u32 (Z.quot (sgn 32 n) 10)) (u32 (Z.rem (sgn 32 n) 10)) r2 n (base + 4 * 16)) fl ip') xs.[10]).
Proof.
  intros Hb Hf Hxs Hw Hwf H4. assert (Hn : is_u 32 n) by (by inversion H4).
  assert (H12 : is_u 32 a1 /\ is_u 32 a2) by (unfold wide4 in H4; rewrite !Forall_cons in H4; tauto). destruct H12.
  destruct (sgn_parts n Hn) as (Ha & Eq & Er). set (a := if Z.testbit n 31 then _ else _) in *.
  assert (Hl : base + 4 * Z.of_nat (length sig_adc_sdiv10) < 2 ^ 32) by (cbn; lia).
  destruct (run_movs base sig_adc_sdiv10 c xs Hb Hl Hxs Hw Hwf 15 0xE1B03000 n n a1 a2 a3 0 N Zr C V ip
    ltac:(cbn; lia) eq_refl H4 (or_introl (conj eq_refl eq_refl))) as (Z1 & C1 & V1 & E1).
  assert (W1 : wide4 n a1 a2 n) by (unfold wide4 in *; rewrite !Forall_cons in *; tauto).
  pose proof (run_neg0 base sig_adc_sdiv10 c xs Hb Hl Hxs Hw Hwf 14 n a1 a2 n 1 (Z.testbit n 31) Z1 C1 V1 (base + 4 * 0)
    ltac:(cbn; lia) eq_refl W1) as E2. fold a in E2.
  assert (W2 : wide4 a a1 a2 n) by (unfold wide4 in *; rewrite !Forall_cons in *; tauto).
  destruct (div10_body base sig_adc_sdiv10 c xs Hb Hl Hxs Hw Hwf 2 ltac:(lia) ltac:(cbn; lia)
    ltac:(intros i w; do 10 (destruct i as [|i]; [by intros [= <-]|]); done) 4 a a1 a2 n (Z.testbit n 31) Z1 C1 V1 (base + 4 * 1) W2)
    as (r2 & N3 & Z3 & C3 & V3 & Hr2 & E3).
  assert (Ha' : 0 <= a < 2 ^ 32) by done.
  assert (W3 : forall x y, is_u 32 x -> is_u 32 y -> wide4 x y r2 n) by (intros; wide).
  assert (Wq : is_u 32 (a / 10) /\ is_u 32 (a mod 10)) by (unfold is_u; split; zdiv_lia). destruct Wq as [Wq Wr].
  destruct (run_movs base sig_adc_sdiv10 c xs Hb Hl Hxs Hw Hwf 3 0xE1B03003 n (a / 10) (a mod 10) r2 n 12 N3 Z3 C3 V3 (base + 4 * 11)
    ltac:(cbn; lia) eq_refl (W3 (a / 10) (a mod 10) Wq Wr) (or_intror (conj eq_refl eq_refl))) as (Z4 & C4 & V4 & E4).
  pose proof (run_neg0 base sig_adc_sdiv10 c xs Hb Hl Hxs Hw Hwf 2 (a / 10) (a mod 10) r2 n 13 (Z.testbit n 31) Z4 C4 V4 (base + 4 * 12)
    ltac:(cbn; lia) eq_refl (W3 (a / 10) (a mod 10) Wq Wr)) as E5. rewrite <- Eq in E5.
  pose proof (run_neg1 base sig_adc_sdiv10 c xs Hb Hl Hxs Hw Hwf 1 (u32 (Z.quot (sgn 32 n) 10)) (a mod 10) r2 n 14 (Z.testbit n 31) Z4 C4 V4 (base + 4 * 13)
    ltac:(cbn; lia) eq_refl (W3 _ _ (wrap_is_u 32 _ ltac:(lia)) Wr)) as E6. rewrite <- Er in E6.
  change (0 + 1) with 1 in E1. change (1 + 1) with 2 in E2. change (2 + 10) with 12 in E3. change (2 + 9) with 11 in E3.
  change (12 + 1) with 13 in E4. change (13 + 1) with 14 in E5. change (14 + 1) with 15 in E6.
  change (10 + 4)%nat with 14%nat in E3.
  do 3 eexists. rewrite E1, E2, E3, E4, E5, E6.
  rewrite (run_bx base sig_adc_sdiv10 c xs Hb Hl Hxs Hwf 0 _ _ _ _ 15) by (reflexivity || (cbn; lia)). reflexivity.
Qed.

(** Every register file is one by its first registers. *)
Lemma file_intro rs :
  length rs = 16%nat -> Forall (is_u 32) rs ->
  exists xs, length xs = 11%nat /\ Forall (is_u 32) xs /\ wide4 rs.[0] rs.[1] rs.[2] rs.[3] /\
    rs = file xs rs.[0] rs.[1] rs.[2] rs.[3] rs.[15] /\ xs.[10] = rs.[14].
Proof.
  intros Hl Hw. do 16 (destruct rs as [|? rs]; [discriminate|]). destruct rs; [|discriminate].
  rewrite !Forall_cons in Hw. exists [z3; z4; z5; z6; z7; z8; z9; z10; z11; z12; z13].
  split; [done|]. split; [|split; [|done]]; unfold wide4; rewrite ?Forall_cons; cbn; tauto.
Qed.

Lemma at_same c : at_ c c.(regs) c.(flags) c.(curInstrPC) = c.
Proof. by destruct c. Qed.

Lemma result_agree {W} `{PhysMem W} `{InstrMem W} (s : Machine W) xs q r a2 a3 b2 b3 pc pc' fl fl' ip ip' lr :
  length xs = 11%nat ->
  result (setCpu s (cpuPrvSetPC (at_ s.(core).(cpu) (file xs q r a2 a3 pc) fl ip) lr)) =
  result (setCpu s (cpuPrvSetPC (at_ s.(core).(cpu) (file xs q r b2 b3 pc') fl' ip') lr)).
Proof.
  intros Hl. do 11 (destruct xs as [|? xs]; [discriminate|]). destruct xs; [|discriminate].
  by destruct s as [[[] ? ? ?] ? ? ? ?].
Qed.

Lemma replacement_state c xs n a1 a2 a3 pc q r :
  c.(regs) = file xs n a1 a2 a3 pc -> length xs = 11%nat -> 
  returnPair (fetched c) q r = cpuPrvSetPC (at_ c (file xs (u32 q) (u32 r) a2 a3 (u32 (pc + 4))) c.(flags) pc) xs.[10].
Proof.
  intros Hc Hl. unfold returnPair, fetched. destruct c. cbn in Hc. subst.
  do 11 (destruct xs as [|? xs]; [discriminate|]). by destruct xs.
Qed.

Lemma fetched_r0 c : (fetched c).(regs).[0] = c.(regs).[0].
Proof. unfold fetched. destruct c. by apply aget_aset_ne. Qed.

(** C21. The replacements of the divisions by ten are sound: from any state at
    which the routine starts, the instruction that replaces it ends in the
    state its eleven (sixteen) instructions end in, executed one by one: the
    quotient in r0 and the remainder in r1 (rounding towards zero for the signed
    one, the most negative number included), at the caller, in the caller's
    instruction set, and everything else unchanged but r2, r3 and the condition
    flags, which a called function may change. *)
Theorem division_replaced {W} `{PhysMem W} `{InstrMem W} coproc paceFn (s : Machine W) :
  let c := s.(core).(cpu) in
  let pc := c.(regs).[REG_NO_PC] in
  cpu_wf c -> regs_ok c -> pc + 64 < 2 ^ 32 ->
  (exists s1 s2, runCode coproc paceFn 11 pc sig_adc_udiv10 s = Ret s1 /\
     armWord coproc paceFn s INSTR_PEEPHOLE_ADS_UDIV10 = Ret s2 /\ result s1 = result s2) /\
  (exists s1 s2, runCode coproc paceFn 16 pc sig_adc_sdiv10 s = Ret s1 /\
     armWord coproc paceFn s INSTR_PEEPHOLE_ADS_SDIV10 = Ret s2 /\ result s1 = result s2).
Proof.
  intros c pc Hwf Hr Hpc. destruct (file_intro c.(regs) (cw_regs _ Hwf) Hr) as (xs & Hl & Hw & H4 & E & Elr).
  set (n := c.(regs).[0]) in *. set (a1 := c.(regs).[1]) in *. set (a2 := c.(regs).[2]) in *. set (a3 := c.(regs).[3]) in *.
  change c.(regs).[15] with pc in E. assert (Hn : is_u 32 n) by (by inversion H4). assert (Hp : 0 <= pc) by (by apply reg_is_u).
  assert (Ec : c = at_ c (file xs n a1 a2 a3 (pc + 4 * 0)) (flagsWord (psr c ARM_SR_N) (psr c ARM_SR_Z) (psr c ARM_SR_C) (psr c ARM_SR_V)) c.(curInstrPC)).
  { rewrite <- (flags_word c Hwf), Z.mul_0_r, Z.add_0_r, <- E. symmetry. apply at_same. }
  assert (Hq : u32 (n / 10) = n / 10 /\ u32 (n mod 10) = n mod 10).
  { destruct Hn. split; apply wrap_small; unfold is_u; zdiv_lia. } destruct Hq as [Hq Hm].
  split.
  - destruct (udiv10_run pc c xs n a1 a2 a3 (psr c ARM_SR_N) (psr c ARM_SR_Z) (psr c ARM_SR_C) (psr c ARM_SR_V) c.(curInstrPC)
      Hp ltac:(lia) Hl Hw Hwf H4) as (r2 & fl & ip & E1). rewrite <- Ec in E1.
    do 2 eexists. split; [by apply runCode_cpu|]. split.
    + apply armWord_cpu. unfold cpuWord. change (cpuPrvDecoderArm false INSTR_PEEPHOLE_ADS_UDIV10) with fn_udiv10.
      cbn [cpuFn]. unfold execFn_peephole_ADC_udiv10. by rewrite fetched_r0.
    + fold c n. rewrite (replacement_state _ _ _ _ _ _ _ _ _ E Hl), Hq, Hm. by apply result_agree.
  - destruct (sdiv10_run pc c xs n a1 a2 a3 (psr c ARM_SR_N) (psr c ARM_SR_Z) (psr c ARM_SR_C) (psr c ARM_SR_V) c.(curInstrPC)
      Hp ltac:(lia) Hl Hw Hwf H4) as (r2 & fl & ip & E1). rewrite <- Ec in E1.
    do 2 eexists. split; [by apply runCode_cpu|]. split.
    + apply armWord_cpu. unfold cpuWord. change (cpuPrvDecoderArm false INSTR_PEEPHOLE_ADS_SDIV10) with fn_sdiv10.
      cbn [cpuFn]. unfold execFn_peephole_ADC_sdiv10. by rewrite fetched_r0.
    + fold c n. rewrite (replacement_state _ _ _ _ _ _ _ _ _ E Hl). by apply result_agree.
Qed.

#[local] Instance routine_mem : PhysMem unit := {| mem_access w _ _ _ _ := Ret (true, 0, w) |}.
#[local] Instance routine_instr : InstrMem unit := {| mem_fetch w _ sz := Ret (true, 0, w) |}.

(** At 0x8000, with the most negative number in r0 and a Thumb caller. *)
Definition demo_caller : ArmCpu :=
  { cpu_reset with regs ::= fun r => r.[0 <- 0x80000000].[14 <- 0x9001].[REG_NO_PC <- 0x8000] }.
Definition demo_routine : Machine unit :=
  mkMachine (mkArmCP15 demo_caller (mmuInit tt true) icacheInit 0 0 0 0 0 0 0 0 0 false false) initPatchDispatch false false [].

Lemma division_replaced_witness :
  let s := demo_routine in
  let pc := s.(core).(cpu).(regs).[REG_NO_PC] in
  let cp (_ : Z) := noCoprocessor in
  let pace (_ : ExecFn) (s : Machine unit) (_ : bool) := Ret s in
  ((exists s1 s2, runCode cp pace 11 pc sig_adc_udiv10 s = Ret s1 /\
     armWord cp pace s INSTR_PEEPHOLE_ADS_UDIV10 = Ret s2 /\ result s1 = result s2) /\
   (exists s1 s2, runCode cp pace 16 pc sig_adc_sdiv10 s = Ret s1 /\
     armWord cp pace s INSTR_PEEPHOLE_ADS_SDIV10 = Ret s2 /\ result s1 = result s2)) /\
  match runCode cp pace 16 pc sig_adc_sdiv10 s with
  | Ret s => s.(core).(cpu).(regs).[0] = 2 ^ 32 - 214748364 /\ s.(core).(cpu).(regs).[1] = 2 ^ 32 - 8 /\
             s.(core).(cpu).(regs).[15] = 0x9000 /\ s.(core).(cpu).(T) = true
  | _ => False
  end.
Proof.
  intros s pc cp pace. split; [|by vm_compute]. apply (division_replaced cp pace s).
  - split; [done|done|by vm_compute; set_solver|by exists 0].
  - unfold regs_ok. do 16 (apply Forall_cons_2; [by vm_compute|]). apply Forall_nil_2.
  - by vm_compute.
Defined.
