(* ===== verification/Wmmx.v ===== *)
(** * The Wireless MMX coprocessor (pxa270_WMMX.c)

    Sixteen 64-bit registers seen as lanes of 8, 16 or 32 bits, and operations on
    the lanes with their flags, as coprocessors 0 and 1 of the PXA270.

    The C code keeps intermediate results in [uint_fast16_t], [int_fast32_t] and
    [long], whose widths the platform chooses: they are the parameters [fast16],
    [fast32] and [longBits] (all 64 on Linux, all 32 in the web build). A shift by a
    width or more and an overflow of a signed type are undefined. *)

From S2P Require Import Prelude Interfaces CpuSoc Mmu Cp15 Cpu Thumb CpuAlu Patch CpuMem.

(** ** Registers *)

(** The lanes of [union REG64] on a little-endian host. *)
Definition lane (w r i : Z) : Z := wrap w (r .>> (w * i)).
Definition slane (w r i : Z) : Z := sgn w (lane w r i).
Definition setLane (w r i v : Z) : Z := (r .&~ (Z.ones w .<< (w * i))) .| (wrap w v .<< (w * i)).

Record Pxa270wmmx := mkWmmx {
  wR : list Z;      (* union REG64[16] *)
  wCGR : list Z;    (* uint32_t[4] *)
  wCASF : Z;        (* uint32_t: N, Z, C and V of every lane *)
  wCon : Z;         (* uint8_t *)
  wCSSF : Z         (* uint8_t: lanes that saturated *)
}.

Definition wmmx_reset : Pxa270wmmx := mkWmmx (replicate 16 0) (replicate 4 0) 0 0 0.

Definition pxa270wmmxPrvDataRegsChanged (wmmx : Pxa270wmmx) : Pxa270wmmx := { wmmx with wCon ::= fun c => c .| 2 }.
Definition pxa270wmmxPrvControlRegsChanged (wmmx : Pxa270wmmx) : Pxa270wmmx := { wmmx with wCon ::= fun c => c .| 1 }.
Definition bothChanged (wmmx : Pxa270wmmx) : Pxa270wmmx :=
  pxa270wmmxPrvDataRegsChanged (pxa270wmmxPrvControlRegsChanged wmmx).

Definition setWR (wmmx : Pxa270wmmx) (CRd v : Z) : Pxa270wmmx := { wmmx with wR ::= fun r => r.[CRd <- v] }.

Definition pxa270wmmxPrvSetFlagsForLogical64 (wmmx : Pxa270wmmx) (val : Z) : Pxa270wmmx :=
  pxa270wmmxPrvControlRegsChanged
    { wmmx with wCASF := (if nz (val .>> 63) then 0x80000000 else 0) .| (if nz val then 0 else 0x40000000) }.

(** ** Loops over lanes *)

(** What one turn of a loop does to its lane: the value, the flags N, Z, C and V
    as four bits, and whether it saturated. *)
Abbreviation LaneResult := (Z * Z * bool)%type.

Definition lanes (w : Z) : list Z := seqZ 0 (64 / w).

(** The flags of lane [i] in [wCASF], its bit in [wCSSF]. *)
Definition laneFlags (w i nzcv : Z) : Z := nzcv .<< (w / 2 * i + (w / 2 - 4)).
Definition laneSat (w i : Z) (sat : bool) : Z := if sat then 1 .<< (w / 8 * i) else 0.

(** The loops that write [wR[CRd]] lane by lane while they read the operands. *)
Definition inPlace (w : Z) (kernel : Z -> Z -> outcome LaneResult) (wmmx : Pxa270wmmx) (CRd CRn CRm : Z)
  : outcome Pxa270wmmx :=
  forM (lanes w) (fun wmmx i =>
    '(v, nzcv, sat) ← kernel (lane w wmmx.(wR).[CRn] i) (lane w wmmx.(wR).[CRm] i);
    Ret { wmmx with wR ::= (fun r => r.[CRd <- setLane w r.[CRd] i v]);
                    wCASF ::= (fun f => f .| laneFlags w i nzcv);
                    wCSSF ::= (fun f => f .| laneSat w i sat) }) wmmx.

(** The loops that collect the lanes in a local variable. *)
Definition viaRet (w : Z) (kernel : Z -> LaneResult) (wmmx : Pxa270wmmx) (CRd : Z) : Pxa270wmmx :=
  let '(ret, wmmx) :=
    fold_left (fun '(ret, wmmx) i =>
      let '(v, nzcv, sat) := kernel i in
      (setLane w ret i v, { wmmx with wCASF ::= (fun f => f .| laneFlags w i nzcv);
                                      wCSSF ::= (fun f => f .| laneSat w i sat) }))
      (lanes w) (0, wmmx) in
  setWR wmmx CRd ret.

Definition clearFlags (wmmx : Pxa270wmmx) : Pxa270wmmx := { wmmx with wCASF := 0 }.

(** A lane without flags; the flags of a lane, unsigned. *)
Definition plain (v : Z) : LaneResult := (v, 0, false).
Definition flagged (v n z : Z) : LaneResult := (v, (if nz n then 8 else 0) .| (if nz z then 0 else 4), false).

(** ** Data processing *)

Section Widths.
Context (fast16 fast32 longBits : Z).

Abbreviation answer := (outcome (bool * Pxa270wmmx)).
Definition done_ (wmmx : Pxa270wmmx) : outcome (bool * Pxa270wmmx) := Ret (true, wmmx).
Definition refused (wmmx : Pxa270wmmx) : outcome (bool * Pxa270wmmx) := Ret (false, wmmx).

(** Bytes from [CRn] on both sides: [CRm] is not used. *)
Definition pxa270wmmxPrvAlign (wmmx : Pxa270wmmx) (CRd CRn CRm by_ : Z) : Pxa270wmmx :=
  let src := wmmx.(wR).[CRn] in
  let ret := fold_left (fun ret i => setLane 8 ret i (if i <? 8 - by_ then lane 8 src (i + by_) else lane 8 src (i - 8 + by_)))
               (lanes 8) 0 in
  pxa270wmmxPrvDataRegsChanged (setWR wmmx CRd ret).

Definition wLogical (wmmx : Pxa270wmmx) (CRd v : Z) : Pxa270wmmx :=
  pxa270wmmxPrvSetFlagsForLogical64 (pxa270wmmxPrvDataRegsChanged (setWR wmmx CRd v)) v.

(** [WAVG2]: only the zero flag. *)
Definition avgKernel (op1 a b : Z) : outcome LaneResult :=
  let t := (a + b + (op1 .& 1)) / 2 in Ret (t, if nz t then 0 else 4, false).

Definition pxa270wmmxPrvDataProcessingMisc (wmmx : Pxa270wmmx) (op1 CRd CRn CRm : Z) : answer :=
  let n := wmmx.(wR).[CRn] in
  let m := wmmx.(wR).[CRm] in
  match op1 with
  | 0 => done_ (wLogical wmmx CRd (n .| m))
  | 1 => done_ (wLogical wmmx CRd (n .^ m))
  | 2 => done_ (wLogical wmmx CRd (n .& m))
  | 3 => done_ (wLogical wmmx CRd (n .&~ m))
  | 8 | 9 => wmmx ← inPlace 8 (avgKernel op1) (clearFlags wmmx) CRd CRn CRm; done_ (bothChanged wmmx)
  | 12 | 13 => wmmx ← inPlace 16 (avgKernel op1) (clearFlags wmmx) CRd CRn CRm; done_ (bothChanged wmmx)
  | _ => refused wmmx
  end.

Definition pxa270wmmxPrvDataProcessingAlign (wmmx : Pxa270wmmx) (op1 CRd CRn CRm : Z) : answer :=
  if (0 <=? op1) && (op1 <? 8) then done_ (pxa270wmmxPrvAlign wmmx CRd CRn CRm (op1 .& 7))
  else if (8 <=? op1) && (op1 <? 12) then done_ (pxa270wmmxPrvAlign wmmx CRd CRn CRm (wmmx.(wCGR).[op1 .& 3] .& 7))
  else refused wmmx.

(** Shifts of an [int] and of an unsigned type of [w] bits. *)
Definition intShr (v by_ : Z) : outcome Z := if (0 <=? by_) && (by_ <? 32) then Ret (v .>> by_) else Undef.
Definition intShl (v by_ : Z) : outcome Z :=
  if (0 <=? by_) && (by_ <? 32) && (v .<< by_ <? 2 ^ 31) then Ret (v .<< by_) else Undef.
Definition uShr (w v by_ : Z) : outcome Z := if (0 <=? by_) && (by_ <? w) then Ret (v .>> by_) else Undef.
Definition uShl (w v by_ : Z) : outcome Z := if (0 <=? by_) && (by_ <? w) then Ret (wrap w (v .<< by_)) else Undef.

Inductive ShiftKind := WSRA | WSLL | WSRL | WROR.

(** A lane of 16 bits is an [int] when it is shifted; [tf16] holds the result. *)
Definition shift16 (k : ShiftKind) (by_ a : Z) : outcome LaneResult :=
  e ← match k with
      | WSRA => intShr (sgn 16 a) by_
      | WSLL => intShl a by_
      | WSRL => intShr a by_
      | WROR => if nz by_ then r ← intShr a by_; l ← intShl a (16 - by_); Ret (r .| l) else Ret a
      end;
  let tf16 := wrap fast16 e in
  Ret (flagged tf16 (tf16 .& 0x8000) tf16).

Definition shift32 (k : ShiftKind) (by_ a : Z) : outcome LaneResult :=
  e ← match k with
      | WSRA => intShr (sgn 32 a) by_
      | WSLL => uShl 32 a by_
      | WSRL => uShr 32 a by_
      | WROR => if nz by_ then r ← uShr 32 a by_; l ← uShl 32 a (32 - by_); Ret (r .| l) else Ret a
      end;
  let tf32 := wrap fast32 e in
  Ret (flagged tf32 (tf32 .& 0x80000000) tf32).

Definition shift64 (k : ShiftKind) (by_ a : Z) : outcome Z :=
  e ← match k with
      | WSRA => uShr 64 (sgn 64 a) by_
      | WSLL => uShl 64 a by_
      | WSRL => uShr 64 a by_
      | WROR => if nz by_ then r ← uShr 64 a by_; l ← uShl 64 a (64 - by_); Ret (r .| l) else Ret a
      end;
  Ret (wrap 64 e).

(** The bits of [op1]: the kind below, the lane size above. *)
Definition pxa270wmmxPrvDataProcessingShift (wmmx : Pxa270wmmx) (cp1 : bool) (op1 CRd CRn CRm : Z) : answer :=
  let k := match op1 .& 3 with 0 => WSRA | 1 => WSLL | 2 => WSRL | _ => WROR end in
  if op1 .>> 2 =? 0 then refused wmmx else
  if cp1 && (4 <=? CRm) then refused wmmx else
  let by_ := if cp1 then u8 wmmx.(wCGR).[CRm] else lane 8 wmmx.(wR).[CRm] 0 in
  match op1 .>> 2 with
  | 1 => wmmx ← inPlace 16 (fun a _ => shift16 k by_ a) (clearFlags wmmx) CRd CRn CRm; done_ (bothChanged wmmx)
  | 2 => wmmx ← inPlace 32 (fun a _ => shift32 k by_ a) (clearFlags wmmx) CRd CRn CRm; done_ (bothChanged wmmx)
  | _ => v ← shift64 k by_ wmmx.(wR).[CRn];
         done_ (pxa270wmmxPrvDataRegsChanged (pxa270wmmxPrvSetFlagsForLogical64 (setWR wmmx CRd v) v))
  end.

Definition compareKernel (test : Z -> Z -> bool) (w a b : Z) : outcome LaneResult :=
  Ret (if test a b then (Z.ones w, 8, false) else (0, 4, false)).

Definition gtu (a b : Z) : bool := b <? a.
Definition gts (w a b : Z) : bool := sgn w b <? sgn w a.

Definition wCompare (test : Z -> Z -> Z -> bool) (w : Z) (wmmx : Pxa270wmmx) (CRd CRn CRm : Z) : answer :=
  wmmx ← inPlace w (compareKernel (test w) w) (clearFlags wmmx) CRd CRn CRm; done_ (bothChanged wmmx).

Definition pxa270wmmxPrvDataProcessingCompare (wmmx : Pxa270wmmx) (op1 CRd CRn CRm : Z) : answer :=
  match op1 with
  | 0 => wCompare (fun _ => Z.eqb) 8 wmmx CRd CRn CRm
  | 4 => wCompare (fun _ => Z.eqb) 16 wmmx CRd CRn CRm
  | 8 => wCompare (fun _ => Z.eqb) 32 wmmx CRd CRn CRm
  | 1 => wCompare (fun _ => gtu) 8 wmmx CRd CRn CRm
  | 5 => wCompare (fun _ => gtu) 16 wmmx CRd CRn CRm
  | 9 => wCompare (fun _ => gtu) 32 wmmx CRd CRn CRm
  | 3 => wCompare gts 8 wmmx CRd CRn CRm
  | 7 => wCompare gts 16 wmmx CRd CRn CRm
  | 11 => wCompare gts 32 wmmx CRd CRn CRm
  | _ => refused wmmx
  end.

(** The lane of [2 * w] bits that is packed into lane [i]. *)
Definition packSource (w : Z) (wmmx : Pxa270wmmx) (CRn CRm i : Z) : Z :=
  let half := 32 / w in
  slane (2 * w) wmmx.(wR).[if i <? half then CRn else CRm] (i mod half).

(** The sign tests are with 0x80, 0x8000 and, for words, 0x800000. *)
Definition packSign (w : Z) : Z := if w =? 32 then 0x800000 else 1 .<< (w - 1).

Definition packUS (w ts : Z) : LaneResult :=
  if ts <? 0 then (0, 4, true)
  else if Z.ones w <? ts then (Z.ones w, 8, true)
  else flagged ts (ts .& packSign w) ts.

Definition packSS (w ts : Z) : LaneResult :=
  if ts <? - 2 ^ (w - 1) then (- 2 ^ (w - 1), 8, true)
  else if 2 ^ (w - 1) - 1 <? ts then (2 ^ (w - 1) - 1, 0, true)
  else (ts, (if ts <? 0 then 8 else 0) .| (if nz ts then 0 else 4), false).

Definition wPack (pack : Z -> Z -> LaneResult) (w : Z) (wmmx : Pxa270wmmx) (CRd CRn CRm : Z) : answer :=
  let wmmx := clearFlags wmmx in
  done_ (bothChanged (viaRet w (fun i => pack w (packSource w wmmx CRn CRm i)) wmmx CRd)).

Definition pxa270wmmxPrvDataProcessingPack (wmmx : Pxa270wmmx) (op1 CRd CRn CRm : Z) : answer :=
  match op1 with
  | 5 => wPack packUS 8 wmmx CRd CRn CRm
  | 9 => wPack packUS 16 wmmx CRd CRn CRm
  | 13 => wPack packUS 32 wmmx CRd CRn CRm
  | 7 => wPack packSS 8 wmmx CRd CRn CRm
  | 11 => wPack packSS 16 wmmx CRd CRn CRm
  | 15 => wPack packSS 32 wmmx CRd CRn CRm
  | _ => refused wmmx
  end.

(** Into lanes of [w] bits: extended from the half [hi] of [CRn], or interleaved
    from the halves of [CRn] and [CRm]. *)
Definition unpackES (w : Z) (hi : bool) (wmmx : Pxa270wmmx) (CRn CRm i : Z) : LaneResult :=
  let ts := slane (w / 2) wmmx.(wR).[CRn] (i + (if hi then 64 / w else 0)) in
  (ts, (if nz ts then 0 else 4) .| (if ts <? 0 then 8 else 0), false).

Definition unpackEU (w : Z) (hi : bool) (wmmx : Pxa270wmmx) (CRn CRm i : Z) : LaneResult :=
  let t := lane (w / 2) wmmx.(wR).[CRn] (i + (if hi then 64 / w else 0)) in (t, if nz t then 0 else 4, false).

Definition unpackI (w : Z) (hi : bool) (wmmx : Pxa270wmmx) (CRn CRm i : Z) : LaneResult :=
  let t := lane w wmmx.(wR).[if nz (i .& 1) then CRm else CRn] (i / 2 + (if hi then 32 / w else 0)) in
  flagged t (t .& (1 .<< (w - 1))) t.

Definition wUnpack (unpack : Z -> bool -> Pxa270wmmx -> Z -> Z -> Z -> LaneResult) (w : Z) (hi : bool)
    (wmmx : Pxa270wmmx) (CRd CRn CRm : Z) : answer :=
  let wmmx := clearFlags wmmx in
  done_ (bothChanged (viaRet w (unpack w hi wmmx CRn CRm) wmmx CRd)).

Definition pxa270wmmxPrvDataProcessingUnpack (wmmx : Pxa270wmmx) (hi : bool) (op1 CRd CRn CRm : Z) : answer :=
  match op1 with
  | 2 => wUnpack unpackES 16 hi wmmx CRd CRn CRm
  | 6 => wUnpack unpackES 32 hi wmmx CRd CRn CRm
  | 10 => wUnpack unpackES 64 hi wmmx CRd CRn CRm
  | 0 => wUnpack unpackEU 16 hi wmmx CRd CRn CRm
  | 4 => wUnpack unpackEU 32 hi wmmx CRd CRn CRm
  | 8 => wUnpack unpackEU 64 hi wmmx CRd CRn CRm
  | 1 => wUnpack unpackI 8 hi wmmx CRd CRn CRm
  | 5 => wUnpack unpackI 16 hi wmmx CRd CRn CRm
  | 9 => wUnpack unpackI 32 hi wmmx CRd CRn CRm
  | _ => refused wmmx
  end.

(** A result of a signed type of [w] bits. *)
Definition inSigned (w x : Z) : outcome Z := if (- 2 ^ (w - 1) <=? x) && (x <? 2 ^ (w - 1)) then Ret x else Undef.

(** [uint16_t] operands are multiplied as [int]. *)
Definition mulL (a b : Z) : outcome LaneResult := p ← inSigned 32 (a * b); Ret (plain p).
Definition mulUM (a b : Z) : outcome LaneResult := Ret (plain (wrap fast32 (a * b) .>> 16)).
Definition mulSM (a b : Z) : outcome LaneResult := Ret (plain ((sgn 16 a * sgn 16 b) .>> 16)).
Definition maddU (a b : Z) : outcome LaneResult :=
  Ret (plain (wrap fast32 (lane 16 a 0 * lane 16 b 0 + lane 16 a 1 * lane 16 b 1))).
Definition maddS (a b : Z) : outcome LaneResult :=
  s ← inSigned fast32 (slane 16 a 0 * slane 16 b 0 + slane 16 a 1 * slane 16 b 1); Ret (plain s).

Definition wMac (f : Z -> Z -> Z) (sum : Z) (wmmx : Pxa270wmmx) (CRd CRn CRm : Z) : answer :=
  let sum := fold_left (fun sum i => u64 (sum + f (lane 16 wmmx.(wR).[CRn] i) (lane 16 wmmx.(wR).[CRm] i))) (lanes 16) sum in
  done_ (pxa270wmmxPrvDataRegsChanged (setWR wmmx CRd sum)).

Definition wMul (w : Z) (kernel : Z -> Z -> outcome LaneResult) (wmmx : Pxa270wmmx) (CRd CRn CRm : Z) : answer :=
  wmmx ← inPlace w kernel wmmx CRd CRn CRm; done_ (pxa270wmmxPrvDataRegsChanged wmmx).

Definition macU (a b : Z) : Z := wrap fast32 (a * b).
Definition macS (a b : Z) : Z := sgn 16 a * sgn 16 b.

Definition pxa270wmmxPrvDataProcessingMultiply (wmmx : Pxa270wmmx) (op1 CRd CRn CRm : Z) : answer :=
  let acc := wmmx.(wR).[CRd] in
  match op1 with
  | 0 | 2 => wMul 16 mulL wmmx CRd CRn CRm
  | 1 => wMul 16 mulUM wmmx CRd CRn CRm
  | 3 => wMul 16 mulSM wmmx CRd CRn CRm
  | 5 => wMac macU 0 wmmx CRd CRn CRm
  | 4 => wMac macU acc wmmx CRd CRn CRm
  | 7 => wMac macS 0 wmmx CRd CRn CRm
  | 6 => wMac macS acc wmmx CRd CRn CRm
  | 8 => wMul 32 maddU wmmx CRd CRn CRm
  | 10 => wMul 32 maddS wmmx CRd CRn CRm
  | _ => refused wmmx
  end.

(** The difference is a byte for half-words too, and the absolute value is that
    of a signed byte. *)
Definition sadByte (a b : Z) : Z := let t := u8 (a - b) in if tst t 0x80 then u8 (- t) else t.
Definition sadHalf (a b : Z) : Z := let t := u8 (a - b) in if tst t 0x8000 then u8 (- t) else t.

Definition wSad (w : Z) (f : Z -> Z -> Z) (sum : Z) (wmmx : Pxa270wmmx) (CRd CRn CRm : Z) : answer :=
  let sum := fold_left (fun sum i => wrap fast32 (sum + f (lane w wmmx.(wR).[CRn] i) (lane w wmmx.(wR).[CRm] i))) (lanes w) sum in
  done_ (pxa270wmmxPrvDataRegsChanged (setWR wmmx CRd (setLane 32 (setLane 32 wmmx.(wR).[CRd] 1 0) 0 sum))).

Definition pxa270wmmxPrvDataProcessingDifference (wmmx : Pxa270wmmx) (op1 CRd CRn CRm : Z) : answer :=
  let acc := lane 32 wmmx.(wR).[CRd] 0 in
  match op1 with
  | 1 => wSad 8 sadByte 0 wmmx CRd CRn CRm
  | 0 => wSad 8 sadByte acc wmmx CRd CRn CRm
  | 5 => wSad 16 sadHalf 0 wmmx CRd CRn CRm
  | 4 => wSad 16 sadHalf acc wmmx CRd CRn CRm
  | _ => refused wmmx
  end.

Definition choose (better : Z -> Z -> bool) (a b : Z) : outcome LaneResult := Ret (plain (if better a b then a else b)).

Definition pxa270wmmxPrvDataProcessingMinMax (wmmx : Pxa270wmmx) (op1 CRd CRn CRm : Z) : answer :=
  match op1 with
  | 0 => wMul 8 (choose gtu) wmmx CRd CRn CRm
  | 4 => wMul 16 (choose gtu) wmmx CRd CRn CRm
  | 8 => wMul 32 (choose gtu) wmmx CRd CRn CRm
  | 2 => wMul 8 (choose (gts 8)) wmmx CRd CRn CRm
  | 6 => wMul 16 (choose (gts 16)) wmmx CRd CRn CRm
  | 10 => wMul 32 (choose (gts 32)) wmmx CRd CRn CRm
  | 1 => wMul 8 (choose Z.ltb) wmmx CRd CRn CRm
  | 5 => wMul 16 (choose Z.ltb) wmmx CRd CRn CRm
  | 9 => wMul 32 (choose Z.ltb) wmmx CRd CRn CRm
  | 3 => wMul 8 (choose (fun a b => sgn 8 a <? sgn 8 b)) wmmx CRd CRn CRm
  | 7 => wMul 16 (choose (fun a b => sgn 16 a <? sgn 16 b)) wmmx CRd CRn CRm
  | 11 => wMul 32 (choose (fun a b => sgn 32 a <? sgn 32 b)) wmmx CRd CRn CRm
  | _ => refused wmmx
  end.

Definition wAcc (w : Z) (wmmx : Pxa270wmmx) (CRd CRn : Z) : answer :=
  done_ (pxa270wmmxPrvDataRegsChanged (setWR wmmx CRd
    (fold_left (fun sum i => u64 (sum + lane w wmmx.(wR).[CRn] i)) (lanes w) 0))).

Definition pxa270wmmxPrvDataProcessingAccumulate (wmmx : Pxa270wmmx) (op1 CRd CRn CRm : Z) : answer :=
  match op1 with
  | 0 => wAcc 8 wmmx CRd CRn
  | 4 => wAcc 16 wmmx CRd CRn
  | 8 => wAcc 32 wmmx CRd CRn
  | _ => refused wmmx
  end.

Definition pxa270wmmxPrvDataProcessingShuffle (wmmx : Pxa270wmmx) (op1 CRd CRn CRm : Z) : answer :=
  let which := u8 (u8 (op1 .<< 4) + CRm) in
  let wmmx := clearFlags wmmx in
  done_ (bothChanged (viaRet 16 (fun i =>
    let t := lane 16 wmmx.(wR).[CRn] ((which .>> (2 * i)) .& 3) in flagged t (t .& 0x8000) t) wmmx CRd)).

(** ** Addition and subtraction

    [s] is the exact sum or difference of the signed lanes. *)

Definition sumFlags (sub : bool) (w s : Z) : Z :=
  let top := (s .>> (w - 1)) .& 3 in
  (if sgn w s <? 0 then 8 else 0) .| (if sgn w s =? 0 then 4 else 0) .|
  (if Bool.eqb (tst s (1 .<< w)) sub then 0 else 2) .|
  (if nz top && negb (top =? 3) then 1 else 0).

Inductive SaturationKind := Wrapping | UnsignedSat | SignedSat.

(** The saturated word is 0xffffff. *)
Definition unsignedTop (w : Z) : Z := if w =? 32 then 0xffffff else Z.ones w.

(** The least word is written [-0x80000000l], which is positive where [long] has 32
    bits. *)
Definition signedBottom (w : Z) : Z := if (w =? 32) && (longBits =? 32) then 2 ^ 31 else - 2 ^ (w - 1).

Definition sumLane (k : SaturationKind) (sub : bool) (w s : Z) : LaneResult :=
  let usual := (s, sumFlags sub w s, false) in
  match k with
  | Wrapping => usual
  | UnsignedSat => if nz (s .>> w) then (unsignedTop w, 8, true) else usual
  | SignedSat =>
      if 2 ^ (w - 1) - 1 <? s then (2 ^ (w - 1) - 1, 0, true)
      else if s <? signedBottom w then (- 2 ^ (w - 1), 8, true)
      else usual
  end.

Definition sumKernel (k : SaturationKind) (sub : bool) (w a b : Z) : outcome LaneResult :=
  Ret (sumLane k sub w (if sub then sgn w a - sgn w b else sgn w a + sgn w b)).

Definition wSum (k : SaturationKind) (sub : bool) (w : Z) (wmmx : Pxa270wmmx) (CRd CRn CRm : Z) : answer :=
  wmmx ← inPlace w (sumKernel k sub w) wmmx CRd CRn CRm; done_ (bothChanged wmmx).

(** The two functions differ in the operator and the carry. *)
Definition additive (sub : bool) (wmmx : Pxa270wmmx) (op1 CRd CRn CRm : Z) : answer :=
  let wmmx := clearFlags wmmx in
  match op1 with
  | 0 => wSum Wrapping sub 8 wmmx CRd CRn CRm
  | 4 => wSum Wrapping sub 16 wmmx CRd CRn CRm
  | 8 => wSum Wrapping sub 32 wmmx CRd CRn CRm
  | 1 => wSum UnsignedSat sub 8 wmmx CRd CRn CRm
  | 5 => wSum UnsignedSat sub 16 wmmx CRd CRn CRm
  | 9 => wSum UnsignedSat sub 32 wmmx CRd CRn CRm
  | 3 => wSum SignedSat sub 8 wmmx CRd CRn CRm
  | 7 => wSum SignedSat sub 16 wmmx CRd CRn CRm
  | 11 => wSum SignedSat sub 32 wmmx CRd CRn CRm
  | _ => refused wmmx
  end.

Definition pxa270wmmxPrvDataProcessingAddition := additive false.
Definition pxa270wmmxPrvDataProcessingSubtraction := additive true.

Definition pxa270wmmxPrvDataProcessing0 (wmmx : Pxa270wmmx) (two : bool) (op1 CRd CRn CRm op2 : Z) : answer :=
  if two then refused wmmx else
  match op2 with
  | 0 => pxa270wmmxPrvDataProcessingMisc wmmx op1 CRd CRn CRm
  | 1 => pxa270wmmxPrvDataProcessingAlign wmmx op1 CRd CRn CRm
  | 2 => pxa270wmmxPrvDataProcessingShift wmmx false op1 CRd CRn CRm
  | 3 => pxa270wmmxPrvDataProcessingCompare wmmx op1 CRd CRn CRm
  | 4 => pxa270wmmxPrvDataProcessingPack wmmx op1 CRd CRn CRm
  | 6 => pxa270wmmxPrvDataProcessingUnpack wmmx false op1 CRd CRn CRm
  | 7 => pxa270wmmxPrvDataProcessingUnpack wmmx true op1 CRd CRn CRm
  | _ => refused wmmx
  end.

Definition pxa270wmmxPrvDataProcessing1 (wmmx : Pxa270wmmx) (two : bool) (op1 CRd CRn CRm op2 : Z) : answer :=
  if two then refused wmmx else
  match op2 with
  | 0 => pxa270wmmxPrvDataProcessingMultiply wmmx op1 CRd CRn CRm
  | 1 => pxa270wmmxPrvDataProcessingDifference wmmx op1 CRd CRn CRm
  | 2 => pxa270wmmxPrvDataProcessingShift wmmx true op1 CRd CRn CRm
  | 3 => pxa270wmmxPrvDataProcessingMinMax wmmx op1 CRd CRn CRm
  | 4 => pxa270wmmxPrvDataProcessingAddition wmmx op1 CRd CRn CRm
  | 5 => pxa270wmmxPrvDataProcessingSubtraction wmmx op1 CRd CRn CRm
  | 6 => pxa270wmmxPrvDataProcessingAccumulate wmmx op1 CRd CRn CRm
  | 7 => pxa270wmmxPrvDataProcessingShuffle wmmx op1 CRd CRn CRm
  | _ => refused wmmx
  end.
End Widths.

(** ** Transfers to and from the CPU *)

Definition pxa270wmmxPrvSetCoreReg (cpu : ArmCpu) (reg val : Z) : outcome ArmCpu :=
  if reg =? 15 then
    cpuSetRegOrPSR cpu ARM_REG_NUM_CPSR ((val .& 0xf0000000) .| (cpuGetRegOrPSR cpu ARM_REG_NUM_CPSR .& 0x0fffffff))
  else cpuSetRegOrPSR cpu reg val.

Abbreviation regAnswer := (outcome (bool * (Pxa270wmmx * ArmCpu))).

Definition WCID := 0x69051000.

(** The control registers by number: reading, and writing. *)
Definition controlReg (wmmx : Pxa270wmmx) (reg : Z) : option Z :=
  match reg with
  | 0 => Some WCID
  | 1 => Some wmmx.(wCon)
  | 2 => Some wmmx.(wCSSF)
  | 3 => Some wmmx.(wCASF)
  | 8 | 9 | 10 | 11 => Some wmmx.(wCGR).[reg - 8]
  | _ => None
  end.

Definition setControlReg (wmmx : Pxa270wmmx) (reg val : Z) : option Pxa270wmmx :=
  match reg with
  | 1 => Some { wmmx with wCon := val .& 3 }
  | 2 => Some { wmmx with wCSSF := val .& 0xff }
  | 3 => Some { wmmx with wCASF := val }
  | 8 | 9 | 10 | 11 => Some { wmmx with wCGR ::= fun c => c.[reg - 8 <- val] }
  | _ => None
  end.

Definition pxa270wmmxPrvRegXferTmcrTmrc (wmmx : Pxa270wmmx) (cpu : ArmCpu) (read : bool) (op1 Rx CRn : Z) : regAnswer :=
  if read then
    match controlReg wmmx CRn with
    | Some val => cpu ← pxa270wmmxPrvSetCoreReg cpu Rx val; Ret (true, (wmmx, cpu))
    | None => Ret (false, (wmmx, cpu))
    end
  else
    match setControlReg wmmx CRn 0 with
    | Some wmmx => Ret (true, (wmmx, cpu))
    | None => Ret (false, (wmmx, cpu))
    end.

(** The accumulator is an [int64_t]. *)
Definition accumulate (wmmx : Pxa270wmmx) (wRd v : Z) : outcome Pxa270wmmx :=
  s ← inSigned 64 (sgn 64 wmmx.(wR).[wRd] + v); Ret (setWR wmmx wRd (u64 s)).

Definition pxa270wmmxPrvRegXferTmia (wmmx : Pxa270wmmx) (cpu : ArmCpu) (op2 wRd Rs Rm : Z) : regAnswer :=
  let vM := cpuGetRegOrPSR cpu Rm in
  let vS := cpuGetRegOrPSR cpu Rs in
  match op2 with
  | 0 => wmmx ← accumulate wmmx wRd (sgn 32 vM * sgn 32 vS); Ret (true, (wmmx, cpu))
  | 8 => wmmx ← accumulate wmmx wRd (sgn 16 vM * sgn 16 vS + sgn 16 (vM .>> 16) * sgn 16 (vS .>> 16)); Ret (true, (wmmx, cpu))
  | 12 | 13 | 14 | 15 =>
      let vS := if tst op2 1 then vS .>> 16 else vS in
      let vM := if tst op2 2 then vM .>> 16 else vM in
      wmmx ← accumulate wmmx wRd (sgn 16 vM * sgn 16 vS); Ret (true, (wmmx, cpu))
  | _ => Ret (false, (wmmx, cpu))
  end.

(** The flags of all lanes combined into the CPU's, by [|] and by [&]. *)
Definition combineFlags (op : Z -> Z -> Z) (wmmx : Pxa270wmmx) (cpu : ArmCpu) (op1 Rd : Z) : regAnswer :=
  let step v k := u32 (op v (v .<< k)) in
  let finish val := cpu ← pxa270wmmxPrvSetCoreReg cpu Rd (val .& 0xf0000000); Ret (true, (wmmx, cpu)) in
  match op1 with
  | 0 => finish (step (step (step wmmx.(wCASF) 4) 8) 16)
  | 2 => finish (step (step wmmx.(wCASF) 8) 16)
  | 4 => finish (step wmmx.(wCASF) 16)
  | _ => Ret (false, (wmmx, cpu))
  end.

Definition pxa270wmmxPrvRegXferTorc := combineFlags Z.lor.
Definition pxa270wmmxPrvRegXferTandc := combineFlags Z.land.

Definition pxa270wmmxPrvRegXferTextrc (wmmx : Pxa270wmmx) (cpu : ArmCpu) (op1 Rd imm3 : Z) : regAnswer :=
  let finish sh := cpu ← pxa270wmmxPrvSetCoreReg cpu Rd (u32 ((wmmx.(wCASF) .>> sh) .<< 28)); Ret (true, (wmmx, cpu)) in
  match op1 with
  | 0 => finish (imm3 * 4)
  | 2 => finish ((imm3 .& 3) * 8 + 4)
  | 4 => finish ((imm3 .& 1) * 16 + 12)
  | _ => Ret (false, (wmmx, cpu))
  end.

Definition pxa270wmmxPrvRegXferTextrm (wmmx : Pxa270wmmx) (cpu : ArmCpu) (op1 Rd wRn : Z) (sext : bool) (imm3 : Z) : regAnswer :=
  let r := wmmx.(wR).[wRn] in
  let finish val := cpu ← pxa270wmmxPrvSetCoreReg cpu Rd (u32 val); Ret (true, (wmmx, cpu)) in
  match op1 with
  | 0 => finish (if sext then slane 8 r imm3 else lane 8 r imm3)
  | 2 => finish (if sext then slane 16 r (imm3 .& 3) else lane 16 r (imm3 .& 3))
  | 4 => finish (lane 32 r (imm3 .& 1))
  | _ => Ret (false, (wmmx, cpu))
  end.

Definition pxa270wmmxPrvRegXferTbcst (wmmx : Pxa270wmmx) (cpu : ArmCpu) (op1 wRd Rn : Z) : regAnswer :=
  let v := cpuGetRegOrPSR cpu Rn in
  let fill w := fold_left (fun r i => setLane w r i v) (lanes w) wmmx.(wR).[wRd] in
  let finish r := Ret (true, (pxa270wmmxPrvDataRegsChanged (setWR wmmx wRd r), cpu)) in
  match op1 with
  | 0 => finish (fill 8)
  | 2 => finish (fill 16)
  | 4 => finish (fill 32)
  | _ => Ret (false, (wmmx, cpu))
  end.

Definition pxa270wmmxPrvRegXferTinsr (wmmx : Pxa270wmmx) (cpu : ArmCpu) (op1 wRd Rn at_ : Z) : regAnswer :=
  let v := cpuGetRegOrPSR cpu Rn in
  let r := wmmx.(wR).[wRd] in
  let finish r := Ret (true, (pxa270wmmxPrvDataRegsChanged (setWR wmmx wRd r), cpu)) in
  match op1 with
  | 0 => finish (setLane 8 r (at_ .& 7) v)
  | 2 => finish (setLane 16 r (at_ .& 3) v)
  | 4 => finish (setLane 32 r (at_ .& 1) v)
  | _ => Ret (false, (wmmx, cpu))
  end.

Definition pxa270wmmxPrvRegXferTmovmsk (wmmx : Pxa270wmmx) (cpu : ArmCpu) (op1 Rd wRn : Z) : regAnswer :=
  let mask w := fold_left (fun val i => if slane w wmmx.(wR).[wRn] i <? 0 then val .| (1 .<< i) else val) (lanes w) 0 in
  let finish val := cpu ← pxa270wmmxPrvSetCoreReg cpu Rd val; Ret (true, (wmmx, cpu)) in
  match op1 with
  | 0 => finish (mask 8)
  | 2 => finish (mask 16)
  | 4 => finish (mask 32)
  | _ => Ret (false, (wmmx, cpu))
  end.

(** The part of [pxa270wmmxPrvRegXfer] that follows its first [switch]. *)
Definition regXferRest (wmmx : Pxa270wmmx) (cp1 : bool) (cpu : ArmCpu) (read : bool) (op1 Rx CRn CRm op2 : Z) : regAnswer :=
  let no : regAnswer := Ret (false, (wmmx, cpu)) in
  if read then
    match op2 with
    | 1 => if nz CRm then no
           else if cp1 then pxa270wmmxPrvRegXferTandc wmmx cpu op1 Rx
           else pxa270wmmxPrvRegXferTmovmsk wmmx cpu op1 Rx CRn
    | 2 => if negb cp1 || nz CRm then no else pxa270wmmxPrvRegXferTorc wmmx cpu op1 Rx
    | 3 => if tst op1 1 then no
           else if negb cp1 then pxa270wmmxPrvRegXferTextrm wmmx cpu op1 Rx CRn (tst CRm 8) (CRm .& 7)
           else if tst CRm 8 then no
           else pxa270wmmxPrvRegXferTextrc wmmx cpu op1 Rx CRm
    | _ => no
    end
  else if cp1 then no
  else
    match op1 with
    | 2 => if nz CRm then no else pxa270wmmxPrvRegXferTbcst wmmx cpu op1 CRn Rx
    | 3 => if tst CRm 8 then no else pxa270wmmxPrvRegXferTinsr wmmx cpu op1 CRn Rx CRm
    | _ => no
    end.

(** The default of the first [switch] returns; [None] is control that goes on. *)
Definition regXferFirst (wmmx : Pxa270wmmx) (cp1 : bool) (cpu : ArmCpu) (read : bool) (op1 Rx CRn CRm op2 : Z)
  : option (outcome (bool * (Pxa270wmmx * ArmCpu))) :=
  let no : regAnswer := Ret (false, (wmmx, cpu)) in
  match op1 with
  | 0 => Some (if nz op2 || negb cp1 || nz CRm || tst CRn 4 then no
               else pxa270wmmxPrvRegXferTmcrTmrc wmmx cpu read op1 Rx CRn)
  | 1 => Some (if read then no else pxa270wmmxPrvRegXferTmia wmmx cpu CRn (op2 + (if cp1 then 8 else 0)) Rx CRm)
  | _ => Some no
  end.

Definition pxa270wmmxPrvRegXfer (wmmx : Pxa270wmmx) (cp1 : bool) (cpu : ArmCpu) (two read : bool) (op1 Rx CRn CRm op2 : Z)
  : regAnswer :=
  if two then Ret (false, (wmmx, cpu)) else
  match regXferFirst wmmx cp1 cpu read op1 Rx CRn CRm op2 with
  | Some r => r
  | None => regXferRest wmmx cp1 cpu read op1 Rx CRn CRm op2
  end.

(** The instruction is done, and refused. *)
Definition pxa270wmmxPrvTwoReg (wmmx : Pxa270wmmx) (cp1 : bool) (cpu : ArmCpu) (read : bool) (op RdLo RdHi wR_ : Z) : regAnswer :=
  if cp1 || nz op then Ret (false, (wmmx, cpu)) else
  if read then
    cpu ← pxa270wmmxPrvSetCoreReg cpu RdLo (lane 32 wmmx.(wR).[wR_] 0);
    cpu ← pxa270wmmxPrvSetCoreReg cpu RdHi (lane 32 wmmx.(wR).[wR_] 1);
    Ret (false, (wmmx, cpu))
  else
    let r := setLane 32 wmmx.(wR).[wR_] 0 (cpuGetRegOrPSR cpu RdLo) in
    let r := setLane 32 r 1 (cpuGetRegOrPSR cpu RdHi) in
    Ret (false, (pxa270wmmxPrvDataRegsChanged (setWR wmmx wR_ r), cpu)).

(** ** Memory *)

Section Memory.
Context {W I : Type} `{PhysMem W} `{ICachePort I}.

Abbreviation machine := (Pxa270wmmx * ArmCP15 W I)%type.

(** A transfer of [sz] bytes between memory and a lane of a register. *)
Definition laneXfer (s : Pxa270wmmx * ArmCP15 W I) (store : bool) (ea sz wR_ i : Z)
  : outcome (bool * (Pxa270wmmx * ArmCP15 W I)) :=
  let '(wmmx, m) := s in
  '(r, m) ← cpuMemOpExternal m (lane (8 * sz) wmmx.(wR).[wR_] i) ea sz store;
  match r with
  | inl _ => Ret (false, (wmmx, m))
  | inr v => Ret (true, (if store then wmmx else setWR wmmx wR_ (setLane (8 * sz) wmmx.(wR).[wR_] i v), m))
  end.

Definition loaded (store : bool) (f : Pxa270wmmx -> Pxa270wmmx) (s : Pxa270wmmx * ArmCP15 W I) : Pxa270wmmx * ArmCP15 W I :=
  if store then s else (pxa270wmmxPrvDataRegsChanged (f s.1), s.2).

(** The lanes above the first become zero. *)
Definition clearAbove (w wR_ : Z) (wmmx : Pxa270wmmx) : Pxa270wmmx :=
  setWR wmmx wR_ (fold_left (fun r i => setLane w r i 0) (seqZ 1 (64 / w - 1)) wmmx.(wR).[wR_]).

Definition pxa270wmmxPrvMemAccessDataD (s : machine) (store : bool) (ea wR_ : Z) : outcome (bool * machine) :=
  '(ok, s) ← laneXfer s store ea 4 wR_ 0;
  if negb ok then Ret (false, s) else
  '(ok, s) ← laneXfer s store (u32 (ea + 4)) 4 wR_ 1;
  if negb ok then Ret (false, s) else Ret (true, loaded store (fun w => w) s).

Definition pxa270wmmxPrvMemAccessDataW (s : machine) (store : bool) (ea wR_ : Z) : outcome (bool * machine) :=
  '(ok, s) ← laneXfer s store ea 4 wR_ 0;
  if negb ok then Ret (false, s) else Ret (true, loaded store (clearAbove 32 wR_) s).

Definition pxa270wmmxPrvMemAccessDataH (s : machine) (store : bool) (ea wR_ : Z) : outcome (bool * machine) :=
  '(ok, s) ← laneXfer s store ea 2 wR_ 0;
  if negb ok then Ret (false, s) else Ret (true, loaded store (clearAbove 16 wR_) s).

Definition pxa270wmmxPrvMemAccessDataB (s : machine) (store : bool) (ea wR_ : Z) : outcome (bool * machine) :=
  '(ok, s) ← laneXfer s store ea 1 wR_ 0;
  if negb ok then Ret (false, s) else Ret (true, loaded store (clearAbove 8 wR_) s).

(** The control registers count as changed when they are stored. *)
Definition pxa270wmmxPrvMemAccessControl (s : machine) (store : bool) (addr reg : Z) : outcome (bool * machine) :=
  let '(wmmx, m) := s in
  if store then
    match controlReg wmmx reg with
    | None => Ret (false, s)
    | Some val =>
        let wmmx := pxa270wmmxPrvControlRegsChanged wmmx in
        '(r, m) ← cpuMemOpExternal m val addr 4 true;
        Ret (match r with inl _ => false | inr _ => true end, (wmmx, m))
    end
  else
    '(r, m) ← cpuMemOpExternal m 0 addr 4 false;
    match r with
    | inl _ => Ret (false, (wmmx, m))
    | inr val =>
        match setControlReg wmmx reg val with
        | Some wmmx => Ret (true, (wmmx, m))
        | None => Ret (false, (wmmx, m))
        end
    end.

Definition bumpBase (s : machine) (addrReg v : Z) : outcome machine :=
  m ← withCpu s.2 (fun c => pxa270wmmxPrvSetCoreReg c addrReg v); Ret (s.1, m).

Definition pxa270wmmxPrvMemAccess (s : machine) (cp1 two N store : bool) (wR_ addrReg addBefore addAfter : Z)
  : outcome (bool * machine) :=
  let ea := cpuGetRegOrPSR s.2.(cpu) addrReg in
  if negb two then
    let scale := if cp1 then 4 else 1 in
    let at_ := u32 (ea + addBefore * scale) in
    '(ok, s) ← (if cp1 then if N then pxa270wmmxPrvMemAccessDataD s store at_ wR_ else pxa270wmmxPrvMemAccessDataW s store at_ wR_
                else if N then pxa270wmmxPrvMemAccessDataH s store at_ wR_ else pxa270wmmxPrvMemAccessDataB s store at_ wR_);
    if negb ok then Ret (false, s) else
    s ← (if nz addAfter then bumpBase s addrReg (u32 (at_ - addBefore * scale + addAfter * scale)) else Ret s);
    Ret (true, (pxa270wmmxPrvDataRegsChanged s.1, s.2))
  else if cp1 || N then Ret (false, s) else
  '(ok, s) ← pxa270wmmxPrvMemAccessControl s store (u32 (ea + addBefore * 4)) wR_;
  if negb ok then Ret (false, s) else
  s ← (if nz addAfter then bumpBase s addrReg (u32 (ea + addAfter * 4)) else Ret s);
  Ret (true, s).

(** ** The two coprocessors *)

Definition onRegs (f : Pxa270wmmx -> ArmCpu -> outcome (bool * (Pxa270wmmx * ArmCpu))) (s : machine) : outcome (bool * machine) :=
  '(ok, (wmmx, c)) ← f s.1 s.2.(cpu); Ret (ok, (wmmx, { s.2 with cpu := c })).

Definition onData (f : Pxa270wmmx -> outcome (bool * Pxa270wmmx)) (s : machine) : outcome (bool * machine) :=
  '(ok, wmmx) ← f s.1; Ret (ok, (wmmx, s.2)).

Definition pxa270wmmxInit (fast16 fast32 longBits : Z) (n : Z) : ArmCoprocessor machine :=
  let cp1 := n =? 1 in
  {| regXfer := Some (fun s two MRC op1 Rx CRn CRm op2 =>
       onRegs (fun wmmx c => pxa270wmmxPrvRegXfer wmmx cp1 c two MRC op1 Rx CRn CRm op2) s);
     dataProcessing := Some (fun s two op1 CRd CRn CRm op2 =>
       onData (fun wmmx => (if cp1 then pxa270wmmxPrvDataProcessing1 fast16 fast32 longBits
                            else pxa270wmmxPrvDataProcessing0 fast16 fast32) wmmx two op1 CRd CRn CRm op2) s);
     memAccess := Some (fun s two N store CRd addrReg addBefore addAfter _ =>
       pxa270wmmxPrvMemAccess s cp1 two N store CRd addrReg addBefore addAfter);
     twoRegF := Some (fun s MRRC op Rd Rn CRm =>
       onRegs (fun wmmx c => pxa270wmmxPrvTwoReg wmmx cp1 c MRRC op Rd Rn CRm) s) |}.
End Memory.
