(* ===== verification/WmmxLanes.v ===== *)
(** * Packed operations, lane by lane

    What the loops of pxa270_WMMX.c leave in the registers and flags, and the
    packed operations against their definitions on the lanes. *)

From S2P Require Import Prelude Interfaces CpuSoc Mmu Cp15 Cpu CpuMem Wmmx.

(** ** Lanes *)

Lemma testbit_lane w r i k : 0 <= w -> 0 <= i -> 0 <= k -> Z.testbit (lane w r i) k = (k <? w) && Z.testbit r (w * i + k).
Proof.
  intros Hw Hi Hk. unfold lane. rewrite testbit_wrap, Z.shiftr_spec by done. do 2 f_equal. lia.
Qed.

Lemma testbit_setLane w r i v k :
  0 < w -> 0 <= i -> 0 <= k ->
  Z.testbit (setLane w r i v) k = if (w * i <=? k) && (k <? w * i + w) then Z.testbit v (k - w * i) else Z.testbit r k.
Proof.
  intros Hw Hi Hk. unfold setLane. rewrite Z.lor_spec, Z.ldiff_spec, !Z.shiftl_spec by done.
  destruct (Z.leb_spec (w * i) k); cbn.
  - rewrite testbit_wrap, Z.testbit_ones_nonneg by lia. destruct (Z.ltb_spec k (w * i + w)), (Z.ltb_spec (k - w * i) w); try lia; cbn.
    + by rewrite andb_false_r.
    + by rewrite andb_true_r, orb_false_r.
  - rewrite (Z.testbit_neg_r (Z.ones w)), (Z.testbit_neg_r (wrap w v)) by lia. by rewrite andb_true_r, orb_false_r.
Qed.

Lemma lane_setLane w r i v : 0 < w -> 0 <= i -> lane w (setLane w r i v) i = wrap w v.
Proof.
  intros Hw Hi. apply Z.bits_inj'. intros k Hk. rewrite testbit_lane, testbit_setLane, testbit_wrap by lia.
  destruct (Z.ltb_spec k w); cbn; [|done]. rewrite (proj2 (Z.leb_le _ _)), (proj2 (Z.ltb_lt _ _)) by lia. cbn. f_equal. lia.
Qed.

Lemma lane_setLane_ne w r i v j : 0 < w -> 0 <= i -> 0 <= j -> i <> j -> lane w (setLane w r i v) j = lane w r j.
Proof.
  intros Hw Hi Hj Hne. apply Z.bits_inj'. intros k Hk. rewrite !testbit_lane, testbit_setLane by nia.
  destruct (Z.ltb_spec k w); cbn; [|done]. destruct (Z.leb_spec (w * i) (w * j + k)), (Z.ltb_spec (w * j + k) (w * i + w)); try done.
  exfalso. nia.
Qed.

Lemma setLane_u64 w r i v : 0 < w -> 0 <= i -> w * i + w <= 64 -> is_u 64 r -> is_u 64 (setLane w r i v).
Proof.
  intros Hw Hi Hb Hr. assert (wrap 64 (setLane w r i v) = setLane w r i v) as <-; [|by apply wrap_is_u].
  apply Z.bits_inj'. intros k Hk. rewrite testbit_wrap, testbit_setLane by lia. destruct (Z.ltb_spec k 64); [done|].
  rewrite (proj2 (Z.ltb_ge _ _)) by lia. rewrite andb_false_r. cbn. rewrite <- (wrap_small 64 r Hr), testbit_wrap by lia.
  by rewrite (proj2 (Z.ltb_ge _ _)).
Qed.

(** The lane sizes. *)
Definition is_lane (w : Z) : Prop := w = 8 \/ w = 16 \/ w = 32 \/ w = 64.

Lemma lanes_in w i : 0 < w -> i ∈ lanes w <-> 0 <= i < 64 / w.
Proof. intros. unfold lanes. rewrite elem_of_seqZ. lia. Qed.

Lemma lanes_nodup w : NoDup (lanes w).
Proof. apply NoDup_seqZ. Qed.

(** A register is its lanes. *)
Lemma lanes_ext w r r' :
  is_lane w -> is_u 64 r -> is_u 64 r' -> (forall i, i ∈ lanes w -> lane w r i = lane w r' i) -> r = r'.
Proof.
  intros Hw Hr Hr' Hl. rewrite <- (wrap_small 64 r Hr), <- (wrap_small 64 r' Hr'). apply Z.bits_inj'. intros k Hk.
  rewrite !testbit_wrap by lia. destruct (Z.ltb_spec k 64); [|done]. cbn.
  assert (Hpos : 0 < w) by (destruct Hw as [->|[->|[->| ->]]]; lia).
  pose proof (Z.div_mod k w ltac:(lia)) as Hdm. pose proof (Z.mod_pos_bound k w Hpos).
  assert (Hi : 0 <= k / w < 64 / w).
  { split; [by apply Z.div_pos|]. destruct Hw as [->|[->|[->| ->]]]; apply Z.div_lt_upper_bound; vm_compute (64 / _); lia. }
  specialize (Hl (k / w) (proj2 (lanes_in w _ Hpos) Hi)). apply (f_equal (fun z => Z.testbit z (k mod w))) in Hl.
  rewrite !testbit_lane in Hl by lia. rewrite (proj2 (Z.ltb_lt _ _)) in Hl by lia. cbn in Hl. by rewrite <- Hdm in Hl.
Qed.

(** ** What a loop leaves *)

Definition valueOf (x : LaneResult) : Z := x.1.1.
Definition flagsOf (x : LaneResult) : Z := x.1.2.
Definition satOf (x : LaneResult) : bool := x.2.

Definition laneValues (w : Z) (f : Z -> LaneResult) (l : list Z) (r : Z) : Z :=
  fold_left (fun r i => setLane w r i (valueOf (f i))) l r.
Definition orAll (g : Z -> Z) (l : list Z) (x : Z) : Z := fold_left (fun x i => x .| g i) l x.

Definition packed (w : Z) (f : Z -> LaneResult) (l : list Z) (s : Pxa270wmmx) (CRd r : Z) : Pxa270wmmx :=
  {| wR := s.(wR).[CRd <- laneValues w f l r];
     wCGR := s.(wCGR);
     wCASF := orAll (fun i => laneFlags w i (flagsOf (f i))) l s.(wCASF);
     wCon := s.(wCon);
     wCSSF := orAll (fun i => laneSat w i (satOf (f i))) l s.(wCSSF) |}.

Lemma laneValues_lane w f l r j :
  0 < w -> NoDup l -> (forall i, i ∈ l -> 0 <= i) -> 0 <= j ->
  lane w (laneValues w f l r) j = if decide (j ∈ l) then wrap w (valueOf (f j)) else lane w r j.
Proof.
  intros Hw. revert r. induction l as [|i l IH]; intros r Hnd Hpos Hj; [done|]. apply NoDup_cons in Hnd as [Hni Hnd].
  cbn. fold (laneValues w f l (setLane w r i (valueOf (f i)))). rewrite IH by (try done; intros; apply Hpos; set_solver). destruct (decide (j ∈ l)) as [Hin|Hout].
  - by rewrite decide_True by set_solver.
  - destruct (decide (j = i)) as [->|Hne].
    + rewrite decide_True by set_solver. apply lane_setLane; [done|]. apply Hpos. set_solver.
    + rewrite decide_False by set_solver. apply lane_setLane_ne; [done| |done|done]. apply Hpos. set_solver.
Qed.

Lemma laneValues_u64 w f l r :
  0 < w -> (forall i, i ∈ l -> 0 <= i /\ w * i + w <= 64) -> is_u 64 r -> is_u 64 (laneValues w f l r).
Proof.
  intros Hw. revert r. induction l as [|i l IH]; intros r Hl Hr; [done|]. cbn. apply IH; [intros; apply Hl; set_solver|].
  destruct (Hl i ltac:(set_solver)). by apply setLane_u64.
Qed.

Lemma orAll_testbit g l x k : Z.testbit (orAll g l x) k = Z.testbit x k || existsb (fun i => Z.testbit (g i) k) l.
Proof.
  revert x. induction l as [|i l IH]; intros x; cbn; [by rewrite orb_false_r|]. fold (orAll g l (x .| g i)). rewrite IH, Z.lor_spec.
  by rewrite orb_assoc.
Qed.

Lemma aset_twice {A} (l : list A) i x y : l.[i <- x].[i <- y] = l.[i <- y].
Proof. unfold aset. apply list_insert_insert_eq. Qed.

Lemma inPlace_run w kernel f s CRd CRn CRm :
  0 < w -> 0 <= CRd < Z.of_nat (length s.(wR)) -> 0 <= CRn -> 0 <= CRm ->
  (forall i, i ∈ lanes w -> kernel (lane w s.(wR).[CRn] i) (lane w s.(wR).[CRm] i) = Ret (f i)) ->
  inPlace w kernel s CRd CRn CRm = Ret (packed w f (lanes w) s CRd s.(wR).[CRd]).
Proof.
  intros Hw Hd Hn Hm. unfold inPlace. assert (Hnd := lanes_nodup w).
  assert (Hpos : forall i, i ∈ lanes w -> 0 <= i) by (intros i Hi; apply lanes_in in Hi; lia). revert Hnd Hpos.
  generalize (lanes w) as l. intros l. revert s Hd. induction l as [|i l IH]; intros s Hd Hnd Hpos Hk.
  - cbn. destruct s as [r c a n t]. unfold packed. cbn in *. do 2 f_equal. unfold aset, aget. symmetry. apply aset_same.
  - apply NoDup_cons in Hnd as [Hni Hnd]. cbn [forM]. rewrite (Hk i) by set_solver. cbn [mbind outcome_bind].
    destruct (f i) as [[v nzcv] sat] eqn:Ef. cbn [mbind outcome_bind].
    set (s1 := {| wR := s.(wR).[CRd <- setLane w s.(wR).[CRd] i v]; wCGR := s.(wCGR); wCASF := s.(wCASF) .| laneFlags w i nzcv;
                  wCon := s.(wCon); wCSSF := s.(wCSSF) .| laneSat w i sat |}).
    transitivity (forM l (fun wmmx i => '(v, nzcv, sat) ← kernel (lane w wmmx.(wR).[CRn] i) (lane w wmmx.(wR).[CRm] i);
      Ret { wmmx with wR ::= (fun r => r.[CRd <- setLane w r.[CRd] i v]); wCASF ::= (fun f => f .| laneFlags w i nzcv);
                      wCSSF ::= (fun f => f .| laneSat w i sat) }) s1); [by destruct s|].
    assert (Hlane : forall X j, 0 <= X -> j ∈ l -> lane w s1.(wR).[X] j = lane w s.(wR).[X] j).
    { intros X j HX Hj. assert (i <> j) by set_solver. assert (0 <= i) by (apply Hpos; set_solver). assert (0 <= j) by (apply Hpos; set_solver).
      destruct (Z.eq_dec X CRd) as [->|Hne].
      - unfold s1. cbn [wR]. rewrite aget_aset_eq by lia. by apply lane_setLane_ne.
      - unfold s1. cbn [wR]. by rewrite aget_aset_ne by lia. }
    rewrite IH; [|unfold s1; cbn [wR]; unfold aset; by rewrite length_insert|done|intros; apply Hpos; set_solver|].
    2:{ intros j Hj. rewrite !Hlane by done. apply Hk. set_solver. }
    f_equal. unfold packed, s1. cbn [wR wCGR wCASF wCon wCSSF]. rewrite aset_twice, aget_aset_eq by lia.
    unfold laneValues, orAll. cbn [fold_left]. rewrite Ef. done.
Qed.

Lemma viaRet_run w f s CRd : viaRet w f s CRd = packed w f (lanes w) s CRd 0.
Proof.
  unfold viaRet, packed, laneValues, orAll. generalize (lanes w) as l. intros l.
  cut (forall ret s, fold_left (fun '(ret, wmmx) i => let '(v, nzcv, sat) := f i in
      (setLane w ret i v, { wmmx with wCASF ::= (fun f => f .| laneFlags w i nzcv); wCSSF ::= (fun f => f .| laneSat w i sat) })) l (ret, s) =
    (laneValues w f l ret, {| wR := s.(wR); wCGR := s.(wCGR); wCASF := orAll (fun i => laneFlags w i (flagsOf (f i))) l s.(wCASF);
       wCon := s.(wCon); wCSSF := orAll (fun i => laneSat w i (satOf (f i))) l s.(wCSSF) |})).
  { intros E. rewrite E. by destruct s. }
  induction l as [|i l IH]; intros ret t; [by destruct t|]. cbn [fold_left]. unfold laneValues, orAll. cbn [fold_left].
  destruct (f i) as [[v nzcv] sat]. rewrite IH. by destruct t.
Qed.

(** ** Flags *)

(** N, Z, C and V of lane [i]. *)
Definition nzcvOf (w F i : Z) : Z := wrap 4 (F .>> (w / 2 * i + (w / 2 - 4))).

Lemma laneFlags_testbit w f j k : 0 <= k -> Z.testbit (laneFlags w j f) k = Z.testbit f (k - (w / 2 * j + (w / 2 - 4))).
Proof. intros. unfold laneFlags. by rewrite Z.shiftl_spec. Qed.

Lemma testbit_outside w x k : is_u w x -> 0 <= w -> k < 0 \/ w <= k -> Z.testbit x k = false.
Proof.
  intros Hx Hw [Hk|Hk]; [by apply Z.testbit_neg_r|]. rewrite <- (wrap_small w x Hx), testbit_wrap by done.
  by rewrite (proj2 (Z.ltb_ge _ _)).
Qed.

Lemma existsb_only (g : Z -> bool) l i :
  i ∈ l -> (forall j, j ∈ l -> j <> i -> g j = false) -> existsb g l = g i.
Proof.
  intros Hi Hg. destruct (g i) eqn:E.
  - apply existsb_exists. exists i. split; [by apply list_elem_of_In|done].
  - apply not_true_is_false. intros (j & Hj%list_elem_of_In & Ej)%existsb_exists. destruct (Z.eq_dec j i) as [->|Hne]; [congruence|].
    rewrite Hg in Ej; done.
Qed.

Lemma half_lane w : is_lane w -> 4 <= w / 2 /\ 0 < w /\ 1 <= w / 8.
Proof. intros [->|[->|[->| ->]]]; vm_compute; done. Qed.

Lemma packed_nzcv w f F i :
  is_lane w -> F = 0 -> i ∈ lanes w -> (forall j, j ∈ lanes w -> is_u 4 (flagsOf (f j))) ->
  nzcvOf w (orAll (fun i => laneFlags w i (flagsOf (f i))) (lanes w) F) i = flagsOf (f i).
Proof.
  intros Hw -> Hi Hf. destruct (half_lane w Hw) as (H4 & Hpos & _). pose proof (proj1 (lanes_in w i Hpos) Hi) as Hir.
  unfold nzcvOf. rewrite <- (wrap_small 4 (flagsOf (f i))) by auto. apply Z.bits_inj'. intros k Hk. rewrite !testbit_wrap by lia.
  destruct (Z.ltb_spec k 4); [|done]. cbn [andb]. rewrite Z.shiftr_spec, orAll_testbit, Z.bits_0, orb_false_l by lia.
  rewrite (existsb_only _ _ i Hi).
  - rewrite laneFlags_testbit by nia. f_equal. lia.
  - intros j Hj Hne. pose proof (proj1 (lanes_in w j Hpos) Hj). rewrite laneFlags_testbit by nia.
    apply (testbit_outside 4); [auto|lia|]. destruct (Z.lt_ge_cases i j); [left|right]; nia.
Qed.

Lemma packed_sat w f F i :
  is_lane w -> i ∈ lanes w ->
  Z.testbit (orAll (fun i => laneSat w i (satOf (f i))) (lanes w) F) (w / 8 * i) = Z.testbit F (w / 8 * i) || satOf (f i).
Proof.
  intros Hw Hi. destruct (half_lane w Hw) as (_ & Hpos & H1). pose proof (proj1 (lanes_in w i Hpos) Hi) as Hir.
  rewrite orAll_testbit, (existsb_only _ _ i Hi); unfold laneSat.
  - destruct (satOf (f i)); [|by rewrite Z.bits_0]. rewrite Z.shiftl_spec, Z.sub_diag by nia. done.
  - intros j Hj Hne. pose proof (proj1 (lanes_in w j Hpos) Hj). destruct (satOf (f j)); [|by rewrite Z.bits_0].
    rewrite Z.shiftl_spec by nia. apply (testbit_outside 1); [done|lia|]. destruct (Z.lt_ge_cases i j); [left|right]; nia.
Qed.

(** ** Well-formed registers *)

Record wmmx_wf (s : Pxa270wmmx) : Prop := {
  ww_R : length s.(wR) = 16%nat /\ Forall (is_u 64) s.(wR);
  ww_CGR : length s.(wCGR) = 4%nat /\ Forall (is_u 32) s.(wCGR);
  ww_CASF : is_u 32 s.(wCASF);
  ww_CON : is_u 2 s.(wCon);
  ww_CSSF : is_u 8 s.(wCSSF)
}.

Lemma wR_u64 s r : wmmx_wf s -> 0 <= r < 16 -> is_u 64 s.(wR).[r].
Proof. intros [[Hl Hr] _ _ _ _] Hb. apply (Forall_aget _ _ r Hr). lia. Qed.

Lemma orAll_is_u w g l x : 0 <= w -> is_u w x -> (forall i, i ∈ l -> is_u w (g i)) -> is_u w (orAll g l x).
Proof.
  intros Hw. revert x. induction l as [|i l IH]; intros x Hx Hg; [done|]. cbn. apply IH; [|intros; apply Hg; set_solver].
  apply is_u_lor; [done|apply Hg; set_solver|done].
Qed.

Lemma shiftl_is_u n x p w : is_u n x -> 0 <= p -> p + n <= w -> 0 <= n -> is_u w (x .<< p).
Proof.
  intros [H1 H2] Hp Hw Hn. rewrite Z.shiftl_mul_pow2 by done. split; [nia|]. eapply Z.lt_le_trans; [apply Z.mul_lt_mono_pos_r; [lia|done]|].
  rewrite <- Z.pow_add_r by lia. apply Z.pow_le_mono_r; lia.
Qed.

Lemma lane_span w i : is_lane w -> i ∈ lanes w -> 0 <= i /\ w * i + w <= 64 /\ w / 2 * i + (w / 2 - 4) + 4 <= 32 /\ w / 8 * i + 1 <= 8.
Proof.
  intros Hw Hi. destruct (half_lane w Hw) as (_ & Hpos & _). apply lanes_in in Hi; [|done].
  destruct Hw as [->|[->|[->| ->]]]; vm_compute (_ / _) in *; lia.
Qed.

(** The registers after a loop; the flags are those of the lanes when they were
    cleared before. *)
Lemma packed_wf w f s CRd r :
  is_lane w -> wmmx_wf s -> is_u 64 r -> (forall j, j ∈ lanes w -> is_u 4 (flagsOf (f j))) -> wmmx_wf (packed w f (lanes w) s CRd r).
Proof.
  intros Hw [[H1 H2] H3 H4 H5 H6] Hr Hf. destruct (half_lane w Hw) as (Hh & Hpos & H8). split; cbn [packed wR wCGR wCASF wCon wCSSF].
  - rewrite length_aset. split; [done|]. apply Forall_aset; [done|].
    apply laneValues_u64; [done| |done]. intros i Hi. by destruct (lane_span w i Hw Hi) as (? & ? & _).
  - done.
  - apply orAll_is_u; [lia|done|]. intros i Hi. destruct (lane_span w i Hw Hi) as (? & _ & ? & _). unfold laneFlags.
    apply (shiftl_is_u 4); [auto|nia|lia|lia].
  - done.
  - apply orAll_is_u; [lia|done|]. intros i Hi. destruct (lane_span w i Hw Hi) as (? & _ & _ & ?). unfold laneSat.
    destruct (satOf (f i)); [|done]. apply (shiftl_is_u 1); [done|nia|lia|lia].
Qed.

Lemma clearFlags_wf s : wmmx_wf s -> wmmx_wf (clearFlags s).
Proof. intros [? ? ? ? ?]. destruct s. by split. Qed.

Lemma changed_wf s : wmmx_wf s -> wmmx_wf (bothChanged s).
Proof.
  intros [? ? ? ? ?]. destruct s. split; try done. cbn. apply is_u_lor; [|done|lia]. by apply is_u_lor.
Qed.

Lemma changed_eq s : (bothChanged s).(wR) = s.(wR) /\ (bothChanged s).(wCASF) = s.(wCASF) /\ (bothChanged s).(wCSSF) = s.(wCSSF).
Proof. by destruct s. Qed.

Lemma clearFlags_eq s : (clearFlags s).(wR) = s.(wR) /\ (clearFlags s).(wCASF) = 0 /\ (clearFlags s).(wCSSF) = s.(wCSSF).
Proof. by destruct s. Qed.

(** What an instruction on lanes that sets the flags did. *)
Record lanewise (w : Z) (f : Z -> LaneResult) (s s' : Pxa270wmmx) (CRd : Z) : Prop := {
  lw_wf : wmmx_wf s';
  lw_value i : i ∈ lanes w -> lane w s'.(wR).[CRd] i = wrap w (valueOf (f i));
  lw_nzcv i : i ∈ lanes w -> nzcvOf w s'.(wCASF) i = flagsOf (f i);
  lw_sat i : i ∈ lanes w -> Z.testbit s'.(wCSSF) (w / 8 * i) = Z.testbit s.(wCSSF) (w / 8 * i) || satOf (f i);
  lw_other r : 0 <= r < 16 -> r <> CRd -> s'.(wR).[r] = s.(wR).[r];
  lw_unsaturated : (forall i, i ∈ lanes w -> satOf (f i) = false) -> s'.(wCSSF) = s.(wCSSF)
}.

Lemma orAll_zero g l x : (forall i, i ∈ l -> g i = 0) -> orAll g l x = x.
Proof.
  revert x. induction l as [|i l IH]; intros x Hg; [done|]. cbn. rewrite (Hg i), Z.lor_0_r by set_solver. apply IH. intros; apply Hg; set_solver.
Qed.

Lemma packed_lanewise w f s CRd r :
  is_lane w -> wmmx_wf s -> 0 <= CRd < 16 -> is_u 64 r -> (forall j, j ∈ lanes w -> is_u 4 (flagsOf (f j))) ->
  lanewise w f s (bothChanged (packed w f (lanes w) (clearFlags s) CRd r)) CRd.
Proof.
  intros Hw Hs Hd Hr Hf. destruct (half_lane w Hw) as (_ & Hpos & _).
  destruct (changed_eq (packed w f (lanes w) (clearFlags s) CRd r)) as (E1 & E2 & E3). destruct (clearFlags_eq s) as (C1 & C2 & C3).
  pose proof (clearFlags_wf s Hs) as Hc. pose proof (proj1 (ww_R _ Hc)) as Hlen.
  split; rewrite ?E1, ?E2, ?E3; unfold packed; cbn [wR wCASF wCSSF].
  - apply changed_wf. by apply packed_wf.
  - intros i Hi. pose proof (proj1 (lanes_in w i Hpos) Hi). rewrite aget_aset_eq by lia.
    rewrite laneValues_lane; [|done|apply lanes_nodup|intros j Hj; apply lanes_in in Hj; [lia|done]|lia]. by rewrite decide_True.
  - intros i Hi. by apply packed_nzcv.
  - intros i Hi. rewrite C3. by apply packed_sat.
  - intros q Hq Hne. rewrite aget_aset_ne by lia. by rewrite C1.
  - intros Hsat. rewrite orAll_zero; [done|]. intros i Hi. unfold laneSat. by rewrite Hsat.
Qed.

Lemma inPlace_lanewise w kernel f s CRd CRn CRm :
  is_lane w -> wmmx_wf s -> 0 <= CRd < 16 -> 0 <= CRn < 16 -> 0 <= CRm < 16 ->
  (forall i, i ∈ lanes w -> kernel (lane w s.(wR).[CRn] i) (lane w s.(wR).[CRm] i) = Ret (f i) /\ is_u 4 (flagsOf (f i))) ->
  exists s', inPlace w kernel (clearFlags s) CRd CRn CRm = Ret s' /\ lanewise w f s (bothChanged s') CRd.
Proof.
  intros Hw Hs Hd Hn Hm Hk. destruct (half_lane w Hw) as (_ & Hpos & _). destruct (clearFlags_eq s) as (C1 & C2 & C3).
  pose proof (clearFlags_wf s Hs) as Hc. pose proof (proj1 (ww_R _ Hc)) as Hlen. eexists. split.
  - apply (inPlace_run w kernel f); [done|lia|lia|lia|]. intros i Hi. rewrite C1. by apply Hk.
  - apply packed_lanewise; [done|done|done|by apply wR_u64|]. intros j Hj. by apply Hk.
Qed.

(** ** Addition and subtraction *)

Definition inLane (w x : Z) : bool := (- 2 ^ (w - 1) <=? x) && (x <? 2 ^ (w - 1)).
Definition clampLane (w x : Z) : Z := Z.max (- 2 ^ (w - 1)) (Z.min (2 ^ (w - 1) - 1) x).

Lemma sgn_in w x : 1 <= w -> inLane w x = true -> sgn w x = x.
Proof. unfold inLane. intros Hw Hx. apply sgn_exact; lia. Qed.

Lemma sgn_inLane w x : 1 <= w -> inLane w (sgn w x) = true.
Proof.
  intros Hw. assert (E : 2 ^ w = 2 * 2 ^ (w - 1)) by (rewrite <- Z.pow_succ_r by lia; f_equal; lia).
  pose proof (wrap_is_u w x ltac:(lia)) as [H1 H2]. unfold sgn, inLane. destruct (Z.ltb_spec (wrap w x) (2 ^ (w - 1))); lia.
Qed.

(** The flags of an exact sum of two lanes. *)
Definition sumOf (sub : bool) (x y : Z) : Z := if sub then x - y else x + y.

Lemma sum_top w s :
  1 <= w -> - 2 ^ w <= s < 2 ^ w ->
  (let top := (s .>> (w - 1)) .& 3 in nz top && negb (top =? 3)) = negb (inLane w s).
Proof.
  intros Hw Hs. assert (E : 2 ^ w = 2 * 2 ^ (w - 1)) by (rewrite <- Z.pow_succ_r by lia; f_equal; lia).
  cbv zeta. rewrite Z.shiftr_div_pow2 by lia. set (P := 2 ^ (w - 1)) in *. assert (HP0 : 0 < P) by (apply Z.pow_pos_nonneg; lia).
  assert (Hq : s / P = -2 /\ s < - P \/ s / P = -1 /\ - P <= s < 0 \/ s / P = 0 /\ 0 <= s < P \/ s / P = 1 /\ P <= s).
  { destruct (Z.lt_ge_cases s (- P)); [left|destruct (Z.lt_ge_cases s 0); [right; left|destruct (Z.lt_ge_cases s P); right; right; [left|right]]].
    - split; [|lia]. symmetry. apply (Z.div_unique s P (-2) (s + 2 * P)); lia.
    - split; [|lia]. symmetry. apply (Z.div_unique s P (-1) (s + P)); lia.
    - split; [|lia]. apply Z.div_small. lia.
    - split; [|lia]. symmetry. apply (Z.div_unique s P 1 (s - P)); lia. }
  unfold inLane. fold P. destruct Hq as [[-> H]|[[-> H]|[[-> H]|[-> H]]]]; cbn -[Z.leb Z.ltb];
    [rewrite (proj2 (Z.leb_gt _ _)) by lia|rewrite (proj2 (Z.leb_le _ _)), (proj2 (Z.ltb_lt _ _)) by lia
    |rewrite (proj2 (Z.leb_le _ _)), (proj2 (Z.ltb_lt _ _)) by lia|rewrite (proj2 (Z.leb_le _ _)), (proj2 (Z.ltb_ge _ _)) by lia]; done.
Qed.

(** N, Z and V of the four bits; C is left out. *)
Definition flagN (f : Z) : bool := Z.testbit f 3.
Definition flagZ (f : Z) : bool := Z.testbit f 2.
Definition flagV (f : Z) : bool := Z.testbit f 0.

Lemma sumFlags_exact sub w s :
  1 <= w -> - 2 ^ w <= s < 2 ^ w ->
  is_u 4 (sumFlags sub w s) /\ flagN (sumFlags sub w s) = (sgn w s <? 0) /\ flagZ (sumFlags sub w s) = (sgn w s =? 0) /\
  flagV (sumFlags sub w s) = negb (inLane w s).
Proof.
  intros Hw Hs. pose proof (sum_top w s Hw Hs) as Ht. cbv zeta in Ht. unfold sumFlags. rewrite Ht.
  destruct (sgn w s <? 0), (sgn w s =? 0), (Bool.eqb _ _), (negb (inLane w s)); vm_compute; by split_and!.
Qed.

Definition sumResult (k : SaturationKind) (w x : Z) : Z :=
  match k with Wrapping => sgn w x | _ => clampLane w x end.

Lemma sumLane_exact longBits k sub w a b :
  2 <= w -> k = Wrapping \/ k = SignedSat /\ (w = 32 -> longBits <> 32) ->
  let x := sumOf sub (sgn w a) (sgn w b) in
  let r := sumLane longBits k sub w x in
  is_u 4 (flagsOf r) /\ sgn w (valueOf r) = sumResult k w x /\
  flagN (flagsOf r) = (sumResult k w x <? 0) /\ flagZ (flagsOf r) = (sumResult k w x =? 0) /\
  flagV (flagsOf r) = (match k with Wrapping => negb (inLane w x) | _ => false end) /\
  satOf r = (match k with Wrapping => false | _ => negb (inLane w x) end).
Proof.
  intros Hw2 Hk x r. assert (Hw : 1 <= w) by lia. assert (E : 2 ^ w = 2 * 2 ^ (w - 1)) by (rewrite <- Z.pow_succ_r by lia; f_equal; lia).
  assert (HP : 0 < 2 ^ (w - 1)) by (apply Z.pow_pos_nonneg; lia).
  assert (Hx : - 2 ^ w <= x < 2 ^ w).
  { pose proof (sgn_inLane w a Hw) as Ha. pose proof (sgn_inLane w b Hw) as Hb. unfold inLane in Ha, Hb. unfold x, sumOf. destruct sub; lia. }
  destruct (sumFlags_exact sub w x Hw Hx) as (F1 & F2 & F3 & F4).
  destruct Hk as [->|[-> Hlong]]; [split_and!; (exact F1 || exact F2 || exact F3 || exact F4 || done)|].
  assert (Hbot : signedBottom longBits w = - 2 ^ (w - 1)).
  { unfold signedBottom. destruct (Z.eqb_spec w 32) as [Ew|]; [|done]. specialize (Hlong Ew). by rewrite (proj2 (Z.eqb_neq _ _) Hlong). }
  unfold r, sumLane, sumResult. rewrite Hbot. destruct (Z.ltb_spec (2 ^ (w - 1) - 1) x) as [H1|H1]; [|destruct (Z.ltb_spec x (- 2 ^ (w - 1))) as [H2|H2]].
  - assert (Ec : clampLane w x = 2 ^ (w - 1) - 1) by (unfold clampLane; lia). assert (Ei : inLane w x = false) by (unfold inLane; lia).
    rewrite Ec, Ei. cbn [flagsOf valueOf satOf fst snd]. rewrite sgn_in by (unfold inLane; lia).
    assert (1 < 2 ^ (w - 1)) by (apply Z.pow_gt_1; lia).
    split_and!; try done.
    + by rewrite (proj2 (Z.ltb_ge _ _)) by lia.
    + by rewrite (proj2 (Z.eqb_neq _ _)) by lia.
  - assert (Ec : clampLane w x = - 2 ^ (w - 1)) by (unfold clampLane; lia). assert (Ei : inLane w x = false) by (unfold inLane; lia).
    rewrite Ec, Ei. cbn [flagsOf valueOf satOf fst snd]. rewrite sgn_in by (unfold inLane; lia). split_and!; try done.
    + by rewrite (proj2 (Z.ltb_lt _ _)) by lia.
    + by rewrite (proj2 (Z.eqb_neq _ _)) by lia.
  - assert (Ec : clampLane w x = x) by (unfold clampLane; lia). assert (Ei : inLane w x = true) by (unfold inLane; lia).
    rewrite Ec, Ei. cbn [flagsOf valueOf satOf fst snd]. rewrite F2, F3, F4, (sgn_in w x Hw Ei), Ei. by split_and!.
Qed.

(** The opcodes: the lane size, and the saturation. *)
Definition sizeCode (w : Z) : Z := if w =? 8 then 0 else if w =? 16 then 4 else if w =? 32 then 8 else 12.
Definition satCode (k : SaturationKind) : Z := match k with Wrapping => 0 | UnsignedSat => 1 | SignedSat => 3 end.

Lemma additive_code longBits sub k w s CRd CRn CRm :
  w = 8 \/ w = 16 \/ w = 32 ->
  additive longBits sub s (sizeCode w + satCode k) CRd CRn CRm = wSum longBits k sub w (clearFlags s) CRd CRn CRm.
Proof. intros [->|[->| ->]]; by destruct k. Qed.

Lemma forM_kernel_sum longBits k sub w s CRn CRm i :
  sumKernel longBits k sub w (lane w s.(wR).[CRn] i) (lane w s.(wR).[CRm] i) =
  Ret (sumLane longBits k sub w (sumOf sub (slane w s.(wR).[CRn] i) (slane w s.(wR).[CRm] i))).
Proof. unfold sumKernel, sumOf, slane. by destruct sub. Qed.

(** Packed addition and subtraction ([WADD], [WSUB], [WADDSS], [WSUBSS]). For
    lanes of 8, 16 and 32 bits every lane of the destination is the sum or
    difference of the operands' lanes, wrapped around or clamped to the signed
    range; its N and Z flags are those of the result and V tells of the overflow
    when it wraps; the saturation flags collect the lanes that were clamped. No
    other data register changes, and the destination may be one of the operands.
    Clamped words need a [long] of more than 32 bits. *)
Theorem packed_sum_exact (fast16 fast32 longBits : Z) (sub : bool) (k : SaturationKind) (w : Z) (s : Pxa270wmmx) (CRd CRn CRm : Z)
    (Hw : w = 8 \/ w = 16 \/ w = 32) (Hk : k = Wrapping \/ k = SignedSat /\ (w = 32 -> longBits <> 32))
    (Hs : wmmx_wf s) (Hd : 0 <= CRd < 16) (Hn : 0 <= CRn < 16) (Hm : 0 <= CRm < 16) :
  let x i := sumOf sub (slane w s.(wR).[CRn] i) (slane w s.(wR).[CRm] i) in
  let y i := sumResult k w (x i) in
  exists s', pxa270wmmxPrvDataProcessing1 fast16 fast32 longBits s false (sizeCode w + satCode k) CRd CRn CRm (if sub then 5 else 4)
      = Ret (true, s') /\ wmmx_wf s' /\
    (forall i, 0 <= i < 64 / w ->
       slane w s'.(wR).[CRd] i = y i /\
       flagN (nzcvOf w s'.(wCASF) i) = (y i <? 0) /\ flagZ (nzcvOf w s'.(wCASF) i) = (y i =? 0) /\
       flagV (nzcvOf w s'.(wCASF) i) = (match k with Wrapping => negb (inLane w (x i)) | _ => false end) /\
       Z.testbit s'.(wCSSF) (w / 8 * i) =
         Z.testbit s.(wCSSF) (w / 8 * i) || match k with Wrapping => false | _ => negb (inLane w (x i)) end) /\
    (forall r, 0 <= r < 16 -> r <> CRd -> s'.(wR).[r] = s.(wR).[r]).
Proof.
  intros x y. assert (Hlane : is_lane w) by (destruct Hw as [->|[->| ->]]; unfold is_lane; tauto).
  destruct (half_lane w Hlane) as (Hh & Hpos & _). assert (Hw2 : 2 <= w) by (destruct Hw as [->|[->| ->]]; lia).
  pose proof (fun i => sumLane_exact longBits k sub w (lane w s.(wR).[CRn] i) (lane w s.(wR).[CRm] i) Hw2 Hk) as Hsum. cbv zeta in Hsum.
  destruct (inPlace_lanewise w (sumKernel longBits k sub w) (fun i => sumLane longBits k sub w (x i)) s CRd CRn CRm Hlane Hs Hd Hn Hm)
    as (s1 & E & [L1 L2 L3 L4 L5 _]).
  { intros i Hi. split; [apply forM_kernel_sum|apply Hsum]. }
  exists (bothChanged s1). split; [|split; [done|split; [|done]]].
  - transitivity (additive longBits sub s (sizeCode w + satCode k) CRd CRn CRm); [by destruct sub|].
    rewrite additive_code by done. unfold wSum. by rewrite E.
  - intros i Hi%(lanes_in w); [|done]. destruct (Hsum i) as (S1 & S2 & S3 & S4 & S5 & S6).
    rewrite L3, L4 by done. unfold slane. rewrite L2, sgn_wrap by done.
    split_and!; [exact S2|exact S3|exact S4|exact S5|f_equal; exact S6].
Qed.

Definition demo_wmmx : Pxa270wmmx :=
  {| wR := [0x807f01ff00807f02; 0x80010180007f0102] ++ replicate 14 0; wCGR := [3; 0; 0; 0]; wCASF := 0; wCon := 0; wCSSF := 0 |}.

Lemma demo_wmmx_wf : wmmx_wf demo_wmmx.
Proof.
  split; [split; [done|cbn; forall_list; is_u_lit]|split; [done|cbn; forall_list; is_u_lit]|is_u_lit..].
Qed.

Lemma packed_sum_exact_witness :
  exists s', pxa270wmmxPrvDataProcessing1 64 64 64 demo_wmmx false 3 0 0 1 4 = Ret (true, s') /\
    slane 8 s'.(wR).[0] 7 = -128 /\ slane 8 s'.(wR).[0] 1 = 127 /\ slane 8 s'.(wR).[0] 0 = 4.
Proof.
  destruct (packed_sum_exact 64 64 64 false SignedSat 8 demo_wmmx 0 0 1) as (s' & E & _ & L & _);
    [tauto|right; split; [done|lia]|exact demo_wmmx_wf|lia|lia|lia|].
  exists s'. split; [exact E|].
  rewrite (proj1 (L 7 ltac:(change (64 / 8) with 8; lia))), (proj1 (L 1 ltac:(change (64 / 8) with 8; lia))), (proj1 (L 0 ltac:(change (64 / 8) with 8; lia))).
  split_and!; vm_compute; reflexivity.
Defined.

(** The sums are of signed lanes where the unsigned ones are meant: 0x80 + 0x10
    saturates, and 0x10 - 0x20 goes to the top. A saturated word loses its high
    byte. *)
Lemma unsigned_saturation_wrong longBits :
  valueOf (sumLane longBits UnsignedSat false 8 (sgn 8 0x80 + sgn 8 0x10)) = 0xff /\
  valueOf (sumLane longBits UnsignedSat true 8 (sgn 8 0x10 - sgn 8 0x20)) = 0xff /\
  valueOf (sumLane longBits UnsignedSat false 32 (sgn 32 0xffffffff + sgn 32 0)) = 0x00ffffff.
Proof. split_and!; vm_compute; reflexivity. Qed.

(** Where [long] has 32 bits every clamped sum of words that does not exceed the
    top becomes the bottom. *)
Lemma word_saturation_long32 : valueOf (sumLane 32 SignedSat false 32 (1 + 1)) = - 2 ^ 31.
Proof. done. Qed.

(** The carry of 0xff + 0x00 as bytes. *)
Lemma carry_of_signed_sum : Z.testbit (sumFlags false 8 (sgn 8 0xff + sgn 8 0)) 1 = true.
Proof. done. Qed.

(** ** Unpacking and packing *)

(** A value that fits is packed unchanged. *)
Definition fits (signed : bool) (w x : Z) : Prop := if signed then inLane w x = true else is_u w x.

Definition packOf (signed : bool) := if signed then packSS else packUS.
Definition unpackOf (signed : bool) := if signed then unpackES else unpackEU.

(** An instruction that goes through a local variable. *)
Lemma viaRet_lanewise w f s CRd :
  is_lane w -> wmmx_wf s -> 0 <= CRd < 16 -> (forall j, j ∈ lanes w -> is_u 4 (flagsOf (f j))) ->
  lanewise w f s (bothChanged (viaRet w f (clearFlags s) CRd)) CRd.
Proof. intros. rewrite viaRet_run. by apply packed_lanewise. Qed.

Lemma flagged_flags v n z : is_u 4 (flagsOf (flagged v n z)).
Proof. unfold flagged, flagsOf. cbn. destruct (nz n), (nz z); by vm_compute. Qed.

Lemma unpack_flags signed w hi s CRn CRm i : is_u 4 (flagsOf (unpackOf signed w hi s CRn CRm i)).
Proof.
  destruct signed; cbn; unfold unpackES, unpackEU, flagsOf; cbn; [destruct (nz _), (_ <? 0)|destruct (nz _)]; by vm_compute.
Qed.

Lemma pack_flags signed w x : is_u 4 (flagsOf (packOf signed w x)).
Proof.
  destruct signed; cbn; unfold packSS, packUS; repeat (case_match; [by vm_compute|]); [|apply flagged_flags].
  unfold flagsOf. cbn. destruct (x <? 0), (nz x); by vm_compute.
Qed.

Lemma pack_fits signed w x : 1 <= w -> fits signed w x -> valueOf (packOf signed w x) = x /\ satOf (packOf signed w x) = false.
Proof.
  intros Hw Hx. destruct signed; cbn in *.
  - unfold inLane in Hx. unfold packSS. by rewrite (proj2 (Z.ltb_ge _ _)), (proj2 (Z.ltb_ge _ _)) by lia.
  - unfold is_u in Hx. unfold packUS. by rewrite Z.ones_equiv, (proj2 (Z.ltb_ge _ _)), (proj2 (Z.ltb_ge _ _)) by lia.
Qed.

(** The half of the register that is unpacked. *)
Definition unpackedLane (signed : bool) (w : Z) (hi : bool) (r i : Z) : Z :=
  let j := i + (if hi then 32 / w else 0) in if signed then slane w r j else lane w r j.

Lemma unpack_value signed w hi s CRn CRm i :
  w = 8 \/ w = 16 \/ w = 32 ->
  valueOf (unpackOf signed (2 * w) hi s CRn CRm i) = unpackedLane signed w hi s.(wR).[CRn] i.
Proof. intros [->|[->| ->]]; by destruct signed. Qed.

Lemma lane_fits (signed : bool) w r i : 1 <= w -> fits signed w (if signed then slane w r i else lane w r i).
Proof. intros Hw. destruct signed; [by apply sgn_inLane|apply wrap_is_u; lia]. Qed.

Lemma wrap_slane w r i : 0 <= w -> wrap w (slane w r i) = lane w r i.
Proof. intros Hw. unfold slane. rewrite wrap_sgn by done. apply wrap_small, wrap_is_u. lia. Qed.

(** What fits a lane fits one of twice its size. *)
Lemma fits_double signed w x : 1 <= w -> fits signed w x -> sgn (2 * w) (wrap (2 * w) x) = x.
Proof.
  intros Hw Hx. rewrite sgn_wrap. apply sgn_in; [lia|]. assert (2 ^ w <= 2 ^ (2 * w - 1)) by (apply Z.pow_le_mono_r; lia).
  assert (E : 2 ^ w = 2 * 2 ^ (w - 1)) by (rewrite <- Z.pow_succ_r by lia; f_equal; lia). unfold inLane.
  destruct signed; cbn in Hx; [unfold inLane in Hx|unfold is_u in Hx]; lia.
Qed.

Lemma unpack_code fast16 fast32 (signed : bool) w (hi : bool) s CRd CRn CRm :
  w = 8 \/ w = 16 \/ w = 32 ->
  pxa270wmmxPrvDataProcessing0 fast16 fast32 s false (sizeCode w + (if signed then 2 else 0)) CRd CRn CRm (if hi then 7 else 6) =
  Ret (true, bothChanged (viaRet (2 * w) (unpackOf signed (2 * w) hi (clearFlags s) CRn CRm) (clearFlags s) CRd)).
Proof. intros [->|[->| ->]]; by destruct signed, hi. Qed.

Lemma pack_code fast16 fast32 (signed : bool) w s CRd CRn CRm :
  w = 8 \/ w = 16 \/ w = 32 ->
  pxa270wmmxPrvDataProcessing0 fast16 fast32 s false (sizeCode w + (if signed then 7 else 5)) CRd CRn CRm 4 =
  Ret (true, bothChanged (viaRet w (fun i => packOf signed w (packSource w (clearFlags s) CRn CRm i)) (clearFlags s) CRd)).
Proof. intros [->|[->| ->]]; by destruct signed. Qed.

Lemma unpacked_lanes fast16 fast32 (signed : bool) w (hi : bool) s CRd CRn CRm :
  w = 8 \/ w = 16 \/ w = 32 -> wmmx_wf s -> 0 <= CRd < 16 ->
  exists s', pxa270wmmxPrvDataProcessing0 fast16 fast32 s false (sizeCode w + (if signed then 2 else 0)) CRd CRn CRm (if hi then 7 else 6)
      = Ret (true, s') /\ wmmx_wf s' /\ s'.(wCSSF) = s.(wCSSF) /\
    (forall i, 0 <= i < 32 / w -> slane (2 * w) s'.(wR).[CRd] i = unpackedLane signed w hi s.(wR).[CRn] i) /\
    (forall r, 0 <= r < 16 -> r <> CRd -> s'.(wR).[r] = s.(wR).[r]).
Proof.
  intros Hw Hs Hd. rewrite unpack_code by done. eexists. split; [done|].
  assert (Hlane : is_lane (2 * w)) by (destruct Hw as [->|[->| ->]]; unfold is_lane; tauto).
  assert (H1 : 1 <= w) by (destruct Hw as [->|[->| ->]]; lia).
  destruct (viaRet_lanewise (2 * w) (unpackOf signed (2 * w) hi (clearFlags s) CRn CRm) s CRd Hlane Hs Hd
    ltac:(intros; apply unpack_flags)) as [L1 L2 L3 L4 L5 L6].
  split; [done|]. split; [apply L6; intros; by destruct signed|]. split; [|done].
  intros i Hi. assert (Hil : i ∈ lanes (2 * w)).
  { apply lanes_in; [lia|]. replace (64 / (2 * w)) with (32 / w); [done|]. by destruct Hw as [->|[->| ->]]. }
  unfold slane. rewrite L2 by done. rewrite unpack_value by done. destruct (clearFlags_eq s) as (-> & _ & _).
  apply (fits_double signed); [done|]. apply lane_fits. lia.
Qed.

(** Unpacking and packing are inverse. The two halves of a register, unpacked
    with or without sign into two other registers, and packed with the saturation
    of the same kind, give the register back, for lanes of 8, 16 and 32 bits; the
    saturation flags do not change. *)
Theorem pack_unpack_roundtrip (fast16 fast32 : Z) (signed : bool) (w : Z) (s : Pxa270wmmx) (src lo hi dst CRm CRm' : Z)
    (Hw : w = 8 \/ w = 16 \/ w = 32) (Hs : wmmx_wf s) (Hsrc : 0 <= src < 16) (Hlo : 0 <= lo < 16) (Hhi : 0 <= hi < 16)
    (Hdst : 0 <= dst < 16) (Hne : lo <> src) (Hne' : hi <> lo) :
  exists s1 s2 s3,
    pxa270wmmxPrvDataProcessing0 fast16 fast32 s false (sizeCode w + (if signed then 2 else 0)) lo src CRm 6 = Ret (true, s1) /\
    pxa270wmmxPrvDataProcessing0 fast16 fast32 s1 false (sizeCode w + (if signed then 2 else 0)) hi src CRm' 7 = Ret (true, s2) /\
    pxa270wmmxPrvDataProcessing0 fast16 fast32 s2 false (sizeCode w + (if signed then 7 else 5)) dst lo hi 4 = Ret (true, s3) /\
    s3.(wR).[dst] = s.(wR).[src] /\ s3.(wCSSF) = s.(wCSSF).
Proof.
  assert (Hlane : is_lane w) by (destruct Hw as [->|[->| ->]]; unfold is_lane; tauto).
  assert (H1 : 1 <= w) by (destruct Hw as [->|[->| ->]]; lia).
  destruct (unpacked_lanes fast16 fast32 signed w false s lo src CRm Hw Hs Hlo) as (s1 & E1 & W1 & C1 & V1 & O1).
  destruct (unpacked_lanes fast16 fast32 signed w true s1 hi src CRm' Hw W1 Hhi) as (s2 & E2 & W2 & C2 & V2 & O2).
  rewrite (O1 src Hsrc ltac:(done)) in V2. exists s1, s2. eexists. split; [exact E1|]. split; [exact E2|].
  split; [by apply pack_code|].
  assert (Hv : forall i, i ∈ lanes w -> packSource w (clearFlags s2) lo hi i = (if signed then slane w s.(wR).[src] i else lane w s.(wR).[src] i)).
  { intros i Hi. apply lanes_in in Hi; [|lia]. unfold packSource. destruct (clearFlags_eq s2) as (-> & _ & _). assert (0 < 32 / w) by (by destruct Hw as [->|[->| ->]]).
    assert (64 / w = 2 * (32 / w)) by (by destruct Hw as [->|[->| ->]]).
    destruct (Z.ltb_spec i (32 / w)).
    - rewrite Z.mod_small by lia. rewrite (O2 lo) by (done || lia). rewrite V1 by lia. unfold unpackedLane. by rewrite Z.add_0_r.
    - replace (i mod (32 / w)) with (i - 32 / w) by (apply (Z.mod_unique i (32 / w) 1); lia). rewrite V2 by lia. unfold unpackedLane.
      by replace (i - 32 / w + 32 / w) with i by lia. }
  assert (Hp : forall i, i ∈ lanes w -> let x := packSource w (clearFlags s2) lo hi i in valueOf (packOf signed w x) = x /\ satOf (packOf signed w x) = false).
  { intros i Hi. cbv zeta. rewrite Hv by done. apply pack_fits; [done|]. by apply lane_fits. }
  destruct (viaRet_lanewise w (fun i => packOf signed w (packSource w (clearFlags s2) lo hi i)) s2 dst Hlane W2 Hdst
    ltac:(intros; apply pack_flags)) as [L1 L2 L3 L4 L5 L6].
  split; [|rewrite L6; [congruence|]; intros i Hi; by apply Hp].
  apply (lanes_ext w); [done|by apply wR_u64|by apply wR_u64|]. intros i Hi. rewrite L2 by done. rewrite (proj1 (Hp i Hi)), Hv by done.
  destruct signed; [|apply wrap_small, wrap_is_u; lia]. apply wrap_slane. lia.
Qed.

Lemma pack_unpack_roundtrip_witness :
  exists s1 s2 s3,
    pxa270wmmxPrvDataProcessing0 64 64 demo_wmmx false 2 2 0 0 6 = Ret (true, s1) /\
    pxa270wmmxPrvDataProcessing0 64 64 s1 false 2 3 0 0 7 = Ret (true, s2) /\
    pxa270wmmxPrvDataProcessing0 64 64 s2 false 7 4 2 3 4 = Ret (true, s3) /\
    s3.(wR).[4] = 0x807f01ff00807f02 /\ s3.(wCSSF) = 0.
Proof.
  apply (pack_unpack_roundtrip 64 64 true 8 demo_wmmx 0 2 3 4 0 0); [tauto|exact demo_wmmx_wf|lia..].
Defined.

(** ** Shifts *)

Definition kindCode (k : ShiftKind) : Z := match k with WSRA => 0 | WSLL => 1 | WSRL => 2 | WROR => 3 end.

(** The shift of a lane, wrapped around to its width. *)
Definition shiftRef (k : ShiftKind) (w by_ a : Z) : Z :=
  wrap w (match k with
          | WSRA => sgn w a .>> by_
          | WSLL => a .<< by_
          | WSRL => a .>> by_
          | WROR => (a .>> by_) .| (a .<< (w - by_))
          end).

Lemma wrap_lor w x y : 0 <= w -> wrap w (x .| y) = wrap w x .| wrap w y.
Proof.
  intros Hw. apply Z.bits_inj'. intros k Hk. rewrite Z.lor_spec, !testbit_wrap, Z.lor_spec by done. by destruct (k <? w).
Qed.

Lemma wrap_shiftl w x n : 0 <= w <= n -> wrap w (x .<< n) = 0.
Proof.
  intros Hw. apply Z.bits_inj'. intros k Hk. rewrite testbit_wrap, Z.shiftl_spec, Z.bits_0 by lia.
  destruct (Z.ltb_spec k w); [|done]. rewrite Z.testbit_neg_r by lia. done.
Qed.

Lemma wrap_le w w' x : 0 <= w <= w' -> wrap w (wrap w' x) = wrap w x.
Proof.
  intros Hw. apply Z.bits_inj'. intros k Hk. rewrite !testbit_wrap by lia. destruct (Z.ltb_spec k w); [|done].
  by rewrite (proj2 (Z.ltb_lt _ _)) by lia.
Qed.

(** A rotation of something is something. *)
Lemma rotate_zero w by_ a :
  0 < by_ < w -> is_u w a -> wrap w ((a .>> by_) .| (a .<< (w - by_))) = 0 -> a = 0.
Proof.
  intros Hb Ha E. apply Z.bits_inj'. intros j Hj. rewrite Z.bits_0. destruct (Z.lt_ge_cases j w) as [Hjw|Hjw]; [|apply (testbit_outside w); [done|lia|by right]].
  assert (Hbit : forall k, 0 <= k < w -> Z.testbit ((a .>> by_) .| (a .<< (w - by_))) k = false).
  { intros k Hk. apply (f_equal (fun z => Z.testbit z k)) in E. rewrite testbit_wrap, Z.bits_0 in E by lia. by rewrite (proj2 (Z.ltb_lt _ _)) in E by lia. }
  destruct (Z.lt_ge_cases j by_) as [H1|H1].
  - specialize (Hbit (j + (w - by_)) ltac:(lia)). rewrite Z.lor_spec, Z.shiftl_spec in Hbit by lia.
    apply orb_false_iff in Hbit as [_ Hbit]. by replace (j + (w - by_) - (w - by_)) with j in Hbit by lia.
  - specialize (Hbit (j - by_) ltac:(lia)). rewrite Z.lor_spec, Z.shiftr_spec in Hbit by lia.
    apply orb_false_iff in Hbit as [Hbit _]. by replace (j - by_ + by_) with j in Hbit by lia.
Qed.

(** An intermediate result [e], kept in [W] bits, that stands for a lane [v]. *)
Definition shows (w W : Z) (zero : Prop) (v e : Z) : Prop := wrap w e = v /\ (zero -> v = 0 -> wrap W e = 0).

Lemma shifted_flags w W zero v e :
  1 <= w <= W -> shows w W zero v e ->
  let r := flagged (wrap W e) (wrap W e .& 2 ^ (w - 1)) (wrap W e) in
  wrap w (valueOf r) = v /\ is_u 4 (flagsOf r) /\ flagN (flagsOf r) = Z.testbit v (w - 1) /\ (zero -> flagZ (flagsOf r) = (v =? 0)).
Proof.
  intros Hw [Hv Hz] r. assert (E1 : wrap w (valueOf r) = v) by (cbn; by rewrite wrap_le by lia). split; [done|].
  split; [apply flagged_flags|].
  assert (E2 : nz (wrap W e .& 2 ^ (w - 1)) = Z.testbit v (w - 1)).
  { change (nz (wrap W e .& 2 ^ (w - 1))) with (tst (wrap W e) (2 ^ (w - 1))). rewrite tst_bit by lia.
    rewrite <- Hv, !testbit_wrap by lia. by rewrite !(proj2 (Z.ltb_lt _ _)) by lia. }
  unfold r, flagged, flagN, flagZ, flagsOf. cbn [fst snd]. rewrite E2.
  split; [destruct (Z.testbit v (w - 1)), (nz (wrap W e)); vm_compute; reflexivity|].
  intros Hzero. assert (E3 : nz (wrap W e) = negb (v =? 0)).
  { unfold nz. f_equal. destruct (Z.eqb_spec v 0) as [Hv0|Hv0]; [by rewrite Hz|].
    apply Z.eqb_neq. intros E0. apply Hv0. rewrite <- Hv, <- (wrap_le w W) by lia. by rewrite E0. }
  rewrite E3. destruct (Z.testbit v (w - 1)), (v =? 0); vm_compute; reflexivity.
Qed.

Lemma intShr_ret v by_ : 0 <= by_ < 32 -> intShr v by_ = Ret (v .>> by_).
Proof. intros. unfold intShr. by rewrite (proj2 (Z.leb_le _ _)), (proj2 (Z.ltb_lt _ _)) by lia. Qed.

Lemma intShl_ret v by_ : is_u 16 v -> 0 <= by_ <= 15 -> intShl v by_ = Ret (v .<< by_).
Proof.
  intros Hv Hb. destruct (shiftl_is_u 16 v by_ 31 Hv ltac:(lia) ltac:(lia) ltac:(lia)). unfold intShl.
  by rewrite (proj2 (Z.leb_le _ _)), (proj2 (Z.ltb_lt _ _)), (proj2 (Z.ltb_lt _ _)) by lia.
Qed.

Lemma uShr_ret w v by_ : 0 <= by_ < w -> uShr w v by_ = Ret (v .>> by_).
Proof. intros. unfold uShr. by rewrite (proj2 (Z.leb_le _ _)), (proj2 (Z.ltb_lt _ _)) by lia. Qed.

Lemma uShl_ret w v by_ : 0 <= by_ < w -> uShl w v by_ = Ret (wrap w (v .<< by_)).
Proof. intros. unfold uShl. by rewrite (proj2 (Z.leb_le _ _)), (proj2 (Z.ltb_lt _ _)) by lia. Qed.

Lemma shiftRef_0 w a : 0 < w -> is_u w a -> shiftRef WROR w 0 a = a.
Proof.
  intros Hw Ha. unfold shiftRef. rewrite wrap_lor, Z.shiftr_0_r, Z.sub_0_r, wrap_shiftl, Z.lor_0_r by lia. by apply wrap_small.
Qed.

Lemma sra_zero w by_ a : 1 <= w -> 0 <= by_ -> wrap w (sgn w a .>> by_) = 0 -> sgn w a .>> by_ = 0.
Proof.
  intros Hw Hb E. rewrite <- (sgn_in w (sgn w a .>> by_)) by (try lia; pose proof (sgn_inLane w a Hw) as Hi; unfold inLane in *;
    rewrite Z.shiftr_div_pow2 by lia; assert (0 < 2 ^ by_) by (apply Z.pow_pos_nonneg; lia); pose proof (Z.div_mod (sgn w a) (2 ^ by_) ltac:(lia));
    pose proof (Z.mod_pos_bound (sgn w a) (2 ^ by_) ltac:(lia)); nia).
  rewrite <- sgn_wrap, E. unfold sgn. change (wrap w 0) with 0. 
  assert (0 < 2 ^ (w - 1)) by (apply Z.pow_pos_nonneg; lia). by rewrite (proj2 (Z.ltb_lt _ _)) by lia.
Qed.

Lemma shift16_exact fast16 k by_ a :
  16 <= fast16 -> is_u 16 a -> 0 <= by_ < 16 ->
  exists e, shift16 fast16 k by_ a = Ret (flagged (wrap fast16 e) (wrap fast16 e .& 2 ^ (16 - 1)) (wrap fast16 e)) /\
    shows 16 fast16 (k <> WSLL \/ fast16 = 16) (shiftRef k 16 by_ a) e.
Proof.
  intros HW Ha Hb. destruct k; unfold shift16, shows.
  - rewrite intShr_ret by lia. eexists. split; [done|]. split; [done|]. intros _ E%sra_zero; [by rewrite E|lia|lia].
  - rewrite intShl_ret by (done || lia). eexists. split; [done|]. split; [done|]. by intros [?| ->].
  - rewrite intShr_ret by lia. eexists. split; [done|]. split; [done|]. intros _ E. unfold shiftRef in E.
    rewrite wrap_small in E by (apply is_u_shiftr; [done|lia]). by rewrite E.
  - unfold nz. destruct (Z.eqb_spec by_ 0) as [->|Hne]; cbn [negb].
    + exists a. rewrite shiftRef_0 by (done || lia). split; [done|]. split; [by apply wrap_small|]. by intros _ ->.
    + rewrite intShr_ret, intShl_ret by (done || lia). eexists. split; [done|]. split; [done|].
      intros _ E%rotate_zero; [|lia|done]. subst a. by rewrite Z.shiftr_0_l, Z.shiftl_0_l.
Qed.

Lemma shift32_exact fast32 k by_ a :
  32 <= fast32 -> is_u 32 a -> 0 <= by_ < 32 ->
  exists e, shift32 fast32 k by_ a = Ret (flagged (wrap fast32 e) (wrap fast32 e .& 2 ^ (32 - 1)) (wrap fast32 e)) /\
    shows 32 fast32 True (shiftRef k 32 by_ a) e.
Proof.
  intros HW Ha Hb. destruct k; unfold shift32, shows.
  - rewrite intShr_ret by lia. eexists. split; [done|]. split; [done|]. intros _ E%sra_zero; [by rewrite E|lia|lia].
  - rewrite uShl_ret by lia. eexists. split; [done|]. split; [by rewrite wrap_idemp|]. intros _ E. unfold shiftRef in E. by rewrite E.
  - rewrite uShr_ret by lia. eexists. split; [done|]. split; [done|]. intros _ E. unfold shiftRef in E.
    rewrite wrap_small in E by (apply is_u_shiftr; [done|lia]). by rewrite E.
  - unfold nz. destruct (Z.eqb_spec by_ 0) as [->|Hne]; cbn [negb].
    + exists a. rewrite shiftRef_0 by (done || lia). split; [done|]. split; [by apply wrap_small|]. by intros _ ->.
    + rewrite uShr_ret, uShl_ret by lia. eexists. split; [done|]. unfold shiftRef. rewrite wrap_lor, wrap_idemp, <- wrap_lor by lia. split; [done|].
      intros _ E%rotate_zero; [|lia|done]. subst a. by rewrite Z.shiftr_0_l, Z.shiftl_0_l.
Qed.

Lemma shift64_exact k by_ a : is_u 64 a -> 0 <= by_ < 64 -> shift64 k by_ a = Ret (shiftRef k 64 by_ a).
Proof.
  intros Ha Hb. destruct k; unfold shift64.
  - by rewrite uShr_ret by lia.
  - rewrite uShl_ret by lia. cbn [mbind outcome_bind]. by rewrite wrap_idemp.
  - by rewrite uShr_ret by lia.
  - unfold nz. destruct (Z.eqb_spec by_ 0) as [->|Hne]; cbn [negb].
    + cbn [mbind outcome_bind]. rewrite shiftRef_0 by (done || lia). by rewrite wrap_small.
    + rewrite uShr_ret, uShl_ret by lia. cbn [mbind outcome_bind]. unfold shiftRef. by rewrite wrap_lor, wrap_idemp, <- wrap_lor by lia.
Qed.

Lemma shift_undef fast16 fast32 k by_ a :
  (32 <= by_ -> shift16 fast16 k by_ a = Undef /\ shift32 fast32 k by_ a = Undef) /\ (64 <= by_ -> shift64 k by_ a = Undef).
Proof.
  assert (Hr : forall v, 32 <= by_ -> intShr v by_ = Undef) by (intros; unfold intShr; by rewrite (proj2 (Z.ltb_ge by_ 32)), andb_false_r by lia).
  assert (Hl : forall v, 32 <= by_ -> intShl v by_ = Undef) by (intros; unfold intShl; by rewrite (proj2 (Z.ltb_ge by_ 32)), andb_false_r by lia).
  assert (Hu : forall w v, w <= by_ -> uShr w v by_ = Undef) by (intros; unfold uShr; by rewrite (proj2 (Z.ltb_ge by_ w)), andb_false_r by lia).
  assert (Hs : forall w v, w <= by_ -> uShl w v by_ = Undef) by (intros; unfold uShl; by rewrite (proj2 (Z.ltb_ge by_ w)), andb_false_r by lia).
  assert (Hz : 32 <= by_ -> nz by_ = true) by (intros; unfold nz; by rewrite (proj2 (Z.eqb_neq _ _)) by lia).
  split; intros Hb; [split|]; destruct k; unfold shift16, shift32, shift64; rewrite ?Hz, ?Hr, ?Hl, ?Hu, ?Hs by lia; done.
Qed.

Lemma inPlace_undef w kernel s CRd CRn CRm :
  0 < 64 / w -> (forall a b, kernel a b = Undef) -> inPlace w kernel s CRd CRn CRm = Undef.
Proof.
  intros Hw Hk. unfold inPlace. destruct (lanes w) as [|i l] eqn:El; [|cbn [forM]; by rewrite Hk].
  unfold lanes in El. rewrite seqZ_cons in El by lia. done.
Qed.

Definition shiftAmount (s : Pxa270wmmx) (cp1 : bool) (CRm : Z) : Z := if cp1 then u8 s.(wCGR).[CRm] else lane 8 s.(wR).[CRm] 0.

Lemma shift_code fast16 fast32 k w s (cp1 : bool) CRd CRn CRm :
  w = 16 \/ w = 32 \/ w = 64 -> (cp1 = true -> CRm < 4) ->
  let b := shiftAmount s cp1 CRm in
  pxa270wmmxPrvDataProcessingShift fast16 fast32 s cp1 (sizeCode w + kindCode k) CRd CRn CRm =
    if w =? 64 then v ← shift64 k b s.(wR).[CRn]; Ret (true, pxa270wmmxPrvDataRegsChanged (pxa270wmmxPrvSetFlagsForLogical64 (setWR s CRd v) v))
    else s' ← inPlace w (fun a _ => if w =? 16 then shift16 fast16 k b a else shift32 fast32 k b a) (clearFlags s) CRd CRn CRm;
         Ret (true, bothChanged s').
Proof.
  intros Hw Hc b. assert (Hg : cp1 && (4 <=? CRm) = false) by (destruct cp1; [|done]; cbn; specialize (Hc eq_refl); lia).
  unfold pxa270wmmxPrvDataProcessingShift. rewrite Hg. fold (shiftAmount s cp1 CRm).
  destruct Hw as [->|[->| ->]]; destruct k; cbn -[inPlace shift16 shift32 shift64 shiftAmount]; done.
Qed.

(** The whole register and its flags. *)
Lemma logical64 s CRd v :
  wmmx_wf s -> 0 <= CRd < 16 -> is_u 64 v ->
  let s' := pxa270wmmxPrvDataRegsChanged (pxa270wmmxPrvSetFlagsForLogical64 (setWR s CRd v) v) in
  wmmx_wf s' /\ lane 64 s'.(wR).[CRd] 0 = v /\ flagN (nzcvOf 64 s'.(wCASF) 0) = Z.testbit v 63 /\
  flagZ (nzcvOf 64 s'.(wCASF) 0) = (v =? 0) /\ (forall r, 0 <= r < 16 -> r <> CRd -> s'.(wR).[r] = s.(wR).[r]).
Proof.
  intros [[Hl HF] H2 H3 H4 H5] Hd Hv s'. set (F := (if nz (v .>> 63) then 0x80000000 else 0) .| (if nz v then 0 else 0x40000000)).
  assert (E : s' = mkWmmx s.(wR).[CRd <- v] s.(wCGR) F (s.(wCon) .| 1 .| 2) s.(wCSSF)) by (by destruct s). rewrite E. cbn [wR wCASF].
  assert (Etop : nz (v .>> 63) = Z.testbit v 63).
  { destruct (Z.testbit v 63) eqn:Et.
    - unfold nz. destruct (Z.eqb_spec (v .>> 63) 0) as [E0|]; [|done]. apply (f_equal (fun z => Z.testbit z 0)) in E0.
      rewrite Z.shiftr_spec, Z.bits_0, Z.add_0_l, Et in E0 by lia. done.
    - unfold nz. rewrite (proj2 (Z.eqb_eq _ _)); [done|]. apply Z.bits_inj'. intros k Hk. rewrite Z.shiftr_spec, Z.bits_0 by done.
      destruct (Z.eq_dec k 0) as [->|]; [done|]. apply (testbit_outside 64); [done|lia|lia]. }
  split; [split; cbn [wR wCGR wCASF wCon wCSSF]; try done|].
  - rewrite length_aset. split; [done|]. by apply Forall_aset.
  - unfold F. destruct (nz _), (nz _); is_u_lit.
  - apply is_u_lor; [|done|lia]. by apply is_u_lor.
  - rewrite aget_aset_eq by lia. split; [unfold lane; rewrite Z.shiftr_0_r; by apply wrap_small|]. unfold F. rewrite Etop.
    split; [destruct (Z.testbit v 63), (nz v); vm_compute; reflexivity|].
    split; [unfold nz; destruct (Z.testbit v 63), (v =? 0); vm_compute; reflexivity|]. intros r Hr Hne. by rewrite aget_aset_ne by lia.
Qed.

(** C28. Packed shifts ([WSRA], [WSLL], [WSRL], [WROR]), and the bounds of what is
    defined. Below the lane's width the shift is that of every lane, with the N flag
    of its result, and the Z flag too, unless a left shift of half-words keeps its
    carry in a [uint_fast16_t] that is wider than 16 bits. The amount comes from a
    data register or from a control register. From 32 on (64 for double words), which
    the guest can ask for, the C code is undefined. *)
Theorem packed_shift_exact (fast16 fast32 : Z) (k : ShiftKind) (w : Z) (s : Pxa270wmmx) (cp1 : bool) (CRd CRn CRm : Z)
    (Hw : w = 16 \/ w = 32 \/ w = 64) (H16 : 16 <= fast16) (H32 : 32 <= fast32) (Hs : wmmx_wf s)
    (Hd : 0 <= CRd < 16) (Hn : 0 <= CRn < 16) (Hm : 0 <= CRm < (if cp1 then 4 else 16)) :
  let b := shiftAmount s cp1 CRm in
  let y i := shiftRef k w b (lane w s.(wR).[CRn] i) in
  let run := pxa270wmmxPrvDataProcessingShift fast16 fast32 s cp1 (sizeCode w + kindCode k) CRd CRn CRm in
  (b < w ->
     exists s', run = Ret (true, s') /\ wmmx_wf s' /\
       (forall i, 0 <= i < 64 / w ->
          lane w s'.(wR).[CRd] i = y i /\ flagN (nzcvOf w s'.(wCASF) i) = Z.testbit (y i) (w - 1) /\
          (k <> WSLL \/ w <> 16 \/ fast16 = 16 -> flagZ (nzcvOf w s'.(wCASF) i) = (y i =? 0))) /\
       (forall r, 0 <= r < 16 -> r <> CRd -> s'.(wR).[r] = s.(wR).[r])) /\
  (Z.max 32 w <= b -> run = Undef).
Proof.
  intros b y run. assert (Hlane : is_lane w) by (destruct Hw as [->|[->| ->]]; unfold is_lane; tauto).
  destruct (half_lane w Hlane) as (_ & Hpos & _).
  assert (Hb : 0 <= b) by (unfold b, shiftAmount; destruct cp1; apply wrap_is_u; lia).
  assert (Erun := shift_code fast16 fast32 k w s cp1 CRd CRn CRm Hw ltac:(intros ->; lia)). cbv zeta in Erun. fold b run in Erun.
  rewrite Erun. clear Erun run. destruct (Z.eqb_spec w 64) as [->|H64]; (split; [intros Hlt|intros Hge]).
  - rewrite (shift64_exact k b _ (wR_u64 s CRn Hs Hn)) by lia. cbn [mbind outcome_bind].
    assert (Hy : y 0 = shiftRef k 64 b s.(wR).[CRn]).
    { unfold y, lane. rewrite Z.shiftr_0_r. by rewrite (wrap_small 64 _ (wR_u64 s CRn Hs Hn)). }
    destruct (logical64 s CRd (shiftRef k 64 b s.(wR).[CRn]) Hs Hd ltac:(apply wrap_is_u; lia)) as (L1 & L2 & L3 & L4 & L5).
    eexists. split; [done|]. split; [exact L1|]. split; [|exact L5]. intros i Hi. assert (i = 0) as -> by (change (64 / 64) with 1 in Hi; lia).
    rewrite Hy. split; [exact L2|]. split; [exact L3|]. intros _. exact L4.
  - rewrite (proj2 (shift_undef fast16 fast32 k b _)) by lia. done.
  - assert (Hw' : w = 16 \/ w = 32) by (destruct Hw as [?|[?|?]]; tauto).
    assert (Hk : forall a, is_u w a -> exists r, (if w =? 16 then shift16 fast16 k b a else shift32 fast32 k b a) = Ret r /\
      wrap w (valueOf r) = shiftRef k w b a /\ is_u 4 (flagsOf r) /\ flagN (flagsOf r) = Z.testbit (shiftRef k w b a) (w - 1) /\
      (k <> WSLL \/ w <> 16 \/ fast16 = 16 -> flagZ (flagsOf r) = (shiftRef k w b a =? 0))).
    { intros a Ha. destruct Hw' as [->| ->]; cbn [Z.eqb Pos.eqb].
      - destruct (shift16_exact fast16 k b a H16 Ha ltac:(lia)) as (e & E & Hsh). eexists. split; [exact E|].
        destruct (shifted_flags 16 fast16 _ _ e ltac:(lia) Hsh) as (F1 & F2 & F3 & F4). split_and!; try done. intros Hz. apply F4. tauto.
      - destruct (shift32_exact fast32 k b a H32 Ha ltac:(lia)) as (e & E & Hsh). eexists. split; [exact E|].
        destruct (shifted_flags 32 fast32 _ _ e ltac:(lia) Hsh) as (F1 & F2 & F3 & F4). split_and!; try done. intros _. by apply F4. }
    set (run a := if w =? 16 then shift16 fast16 k b a else shift32 fast32 k b a) in *.
    set (f i := match run (lane w s.(wR).[CRn] i) with Ret r => r | _ => (0, 0, false) end).
    assert (Hf : forall i, run (lane w s.(wR).[CRn] i) = Ret (f i) /\ wrap w (valueOf (f i)) = y i /\ is_u 4 (flagsOf (f i)) /\
      flagN (flagsOf (f i)) = Z.testbit (y i) (w - 1) /\ (k <> WSLL \/ w <> 16 \/ fast16 = 16 -> flagZ (flagsOf (f i)) = (y i =? 0))).
    { intros i. destruct (Hk (lane w s.(wR).[CRn] i) ltac:(apply wrap_is_u; lia)) as (r & E & R). unfold f, run. rewrite E. done. }
    destruct (inPlace_lanewise w (fun a _ => run a) f s CRd CRn CRm Hlane Hs Hd Hn ltac:(destruct cp1; lia)) as (s1 & E & [L1 L2 L3 L4 L5 _]).
    { intros i _. destruct (Hf i) as (F1 & _ & F2 & _). done. }
    exists (bothChanged s1). change (inPlace w (fun a _ => if w =? 16 then _ else _)) with (inPlace w (fun a _ => run a)).
    rewrite E. split; [done|]. split; [done|]. split; [|done]. intros i Hi%(lanes_in w); [|done]. destruct (Hf i) as (_ & F1 & _ & F2 & F3).
    rewrite L2, L3 by done. done.
  - rewrite inPlace_undef; [done|by destruct Hw as [->|[->| ->]]|]. intros a _. destruct (shift_undef fast16 fast32 k b a) as [Hu _].
    destruct (Hu ltac:(lia)) as [-> ->]. by destruct (w =? 16).
Qed.

Lemma packed_shift_exact_witness :
  let y i := shiftRef WSRA 16 3 (lane 16 demo_wmmx.(wR).[0] i) in
  exists s', pxa270wmmxPrvDataProcessingShift 64 64 demo_wmmx true 4 2 0 0 = Ret (true, s') /\
    lane 16 s'.(wR).[2] 3 = y 3 /\ flagN (nzcvOf 16 s'.(wCASF) 3) = true /\ y 3 = 0xf00f.
Proof.
  destruct (packed_shift_exact 64 64 WSRA 16 demo_wmmx true 2 0 0 ltac:(tauto) ltac:(lia) ltac:(lia) demo_wmmx_wf ltac:(lia) ltac:(lia) ltac:(lia))
    as [Hdef _].
  destruct (Hdef ltac:(vm_compute; reflexivity)) as (s' & E & _ & L & _). exists s'. split; [exact E|].
  destruct (L 3 ltac:(change (64 / 16) with 4; lia)) as (L1 & L2 & _). split; [exact L1|]. split; [rewrite L2; vm_compute; reflexivity|].
  vm_compute. reflexivity.
Defined.

(** The zero flag a left shift misses: 0x8000 shifted by one is zero. *)
Lemma left_shift_misses_zero : shift16 64 WSLL 1 0x8000 = Ret (0x10000, 0, false) /\ wrap 16 0x10000 = 0.
Proof. done. Qed.

(** ** Transfers *)

(** The first [switch] returns on every path: of the transfers only [TMCR], [TMRC]
    and [TMIA] are ever accepted. *)
Lemma transfers_refused wmmx cp1 cpu two read op1 Rx CRn CRm op2 :
  op1 <> 0 -> op1 <> 1 -> pxa270wmmxPrvRegXfer wmmx cp1 cpu two read op1 Rx CRn CRm op2 = Ret (false, (wmmx, cpu)).
Proof.
  intros H0 H1. unfold pxa270wmmxPrvRegXfer. destruct two; [done|].
  assert (regXferFirst wmmx cp1 cpu read op1 Rx CRn CRm op2 = Some (Ret (false, (wmmx, cpu)))) as ->; [|done].
  unfold regXferFirst. by destruct op1 as [|[?|?|]|?].
Qed.

(** [TMCR] never reads its register: the control register becomes zero. *)
Lemma tmcr_writes_zero wmmx cpu Rx i :
  length wmmx.(wCGR) = 4%nat -> 0 <= i < 4 ->
  exists wmmx', pxa270wmmxPrvRegXfer wmmx true cpu false false 0 Rx (8 + i) 0 0 = Ret (true, (wmmx', cpu)) /\ wmmx'.(wCGR).[i] = 0.
Proof.
  intros Hl Hi. assert (i = 0 \/ i = 1 \/ i = 2 \/ i = 3) as [->|[->|[->| ->]]] by lia;
    (eexists; split; [reflexivity|]; destruct wmmx; cbn [Wmmx.wCGR] in *; cbn; by rewrite aget_aset_eq by lia).
Qed.

(** [TMCRR] does its work and is refused, and the CPU raises an undefined
    instruction. *)
Lemma two_register_refused wmmx cp1 cpu op RdLo RdHi r :
  exists s, pxa270wmmxPrvTwoReg wmmx cp1 cpu false op RdLo RdHi r = Ret (false, s).
Proof. unfold pxa270wmmxPrvTwoReg. destruct (_ || _); by eexists. Qed.
