(* ===== verification/Dsp.v ===== *)
(** * The DSP coprocessor (pxa255_DSP.c)

    A 40-bit accumulator with multiply-accumulate instructions, coprocessor 0 of the
    PXA255. *)

From S2P Require Import Prelude Interfaces CpuSoc Mmu Cp15 Cpu CpuMem.

Record Pxa255dsp := mkDsp { acc0 : Z (* uint64_t *) }.

Definition pxa255dspPrvAccess (dsp : Pxa255dsp) (cpu : ArmCpu) (MRRC : bool) (op RdLo RdHi acc : Z) : bool * (Pxa255dsp * ArmCpu) :=
  if nz acc || nz op then (false, (dsp, cpu)) else
  if MRRC then
    let cpu := cpuSetReg cpu RdLo (u32 dsp.(acc0)) in
    let cpu := cpuSetReg cpu RdHi ((dsp.(acc0) .>> 32) .& 0xff) in
    (true, (dsp, cpu))
  else
    (true, (mkDsp (((cpuGetRegExternal cpu RdHi .& 0xff) .<< 32) .| cpuGetRegExternal cpu RdLo), cpu)).

(** The sum of products an instruction adds, [None] for no instruction. *)
Definition dspProduct (opcode_3 Vs Vm : Z) : option Z :=
  match opcode_3 .>> 2 with
  | 0 => Some (sgn 32 Vm * sgn 32 Vs)
  | 2 => Some (sgn 16 Vm * sgn 16 Vs + sgn 16 (Vm .>> 16) * sgn 16 (Vs .>> 16))
  | 3 =>
      let Vm := if tst opcode_3 2 then Vm .>> 16 else Vm in
      let Vs := if tst opcode_3 1 then Vs .>> 16 else Vs in
      Some (sgn 16 Vm * sgn 16 Vs + sgn 16 Vm * sgn 16 Vs)
  | _ => None
  end.

Definition pxa255dspPrvOp (dsp : Pxa255dsp) (cpu : ArmCpu) (two MRC : bool) (op1 Rs opcode_3 Rm acc : Z) : bool * Pxa255dsp :=
  if negb (op1 =? 1) || two || MRC || nz acc then (false, dsp) else
  match dspProduct opcode_3 (cpuGetRegExternal cpu Rs) (cpuGetRegExternal cpu Rm) with
  | None => (false, dsp)
  | Some p => (true, mkDsp (u64 (dsp.(acc0) + p) .& 0xFFFFFFFFFF))
  end.

Definition pxa255dspInit {W I : Type} : Pxa255dsp * ArmCoprocessor (Pxa255dsp * ArmCP15 W I) :=
  (mkDsp 0,
   {| regXfer := Some (fun s two MRC op1 Rx CRn CRm op2 =>
        let '(ok, dsp) := pxa255dspPrvOp s.1 s.2.(cpu) two MRC op1 Rx CRn CRm op2 in Ret (ok, (dsp, s.2)));
      dataProcessing := None;
      memAccess := None;
      twoRegF := Some (fun s MRRC op RdLo RdHi acc =>
        let '(ok, (dsp, c)) := pxa255dspPrvAccess s.1 s.2.(cpu) MRRC op RdLo RdHi acc in Ret (ok, (dsp, { s.2 with cpu := c }))) |}).

(** ** Accumulation *)

Definition dsp_wf (dsp : Pxa255dsp) : Prop := is_u 40 dsp.(acc0).

Lemma ones40 x : x .& 0xFFFFFFFFFF = wrap 40 x.
Proof. change 0xFFFFFFFFFF with (Z.ones 40). by rewrite Z.land_ones. Qed.

Lemma op_adds dsp cpu op1 Rs opcode_3 Rm p :
  dspProduct opcode_3 (cpuGetRegExternal cpu Rs) (cpuGetRegExternal cpu Rm) = Some p -> op1 = 1 ->
  pxa255dspPrvOp dsp cpu false false op1 Rs opcode_3 Rm 0 = (true, mkDsp (wrap 40 (dsp.(acc0) + p))).
Proof.
  intros Hp ->. unfold pxa255dspPrvOp. cbn [Z.eqb negb orb nz Pos.eqb]. rewrite Hp, ones40. do 2 f_equal.
  unfold wrap. rewrite <- Znumtheory.Zmod_div_mod; [done|done|done|]. by exists (2 ^ 24).
Qed.

(** A sequence of multiply-accumulates: opcode and operand registers. *)
Abbreviation Mac := (Z * Z * Z)%type.

Definition macProduct (cpu : ArmCpu) (m : Mac) : option Z :=
  let '(opcode_3, Rs, Rm) := m in dspProduct opcode_3 (cpuGetRegExternal cpu Rs) (cpuGetRegExternal cpu Rm).

Fixpoint runMacs (dsp : Pxa255dsp) (cpu : ArmCpu) (ms : list Mac) : bool * Pxa255dsp :=
  match ms with
  | [] => (true, dsp)
  | (opcode_3, Rs, Rm) :: ms =>
      let '(ok, dsp) := pxa255dspPrvOp dsp cpu false false 1 Rs opcode_3 Rm 0 in
      if ok then runMacs dsp cpu ms else (false, dsp)
  end.

Definition sumZ (l : list Z) : Z := foldr Z.add 0 l.

Lemma runMacs_exact cpu ms ps : Forall2 (fun m p => macProduct cpu m = Some p) ms ps ->
  forall dsp, dsp_wf dsp -> runMacs dsp cpu ms = (true, mkDsp (wrap 40 (dsp.(acc0) + sumZ ps))).
Proof.
  induction 1 as [|[[op Rs] Rm] p ms ps Hp _ IH]; intros dsp Hd.
  - cbn. rewrite Z.add_0_r, wrap_small by done. by destruct dsp.
  - cbn [runMacs]. rewrite (op_adds dsp cpu 1 Rs op Rm p Hp eq_refl). rewrite IH by (apply wrap_is_u; lia). do 2 f_equal. cbn [acc0 sumZ foldr].
    unfold wrap. rewrite Zplus_mod_idemp_l. f_equal. unfold sumZ. lia.
Qed.

(** The accumulator as the guest reads it. *)
Lemma read_back dsp cpu RdLo RdHi :
  dsp_wf dsp -> length cpu.(regs) = 16%nat -> 0 <= RdLo < 15 -> 0 <= RdHi < 15 -> RdLo <> RdHi ->
  exists cpu', pxa255dspPrvAccess dsp cpu true 0 RdLo RdHi 0 = (true, (dsp, cpu')) /\
    cpuGetRegExternal cpu' RdLo = dsp.(acc0) mod 2 ^ 32 /\ cpuGetRegExternal cpu' RdHi = dsp.(acc0) / 2 ^ 32.
Proof.
  intros Hd Hl H1 H2 Hne. eexists. split; [done|]. unfold cpuSetReg, cpuPrvSetReg, cpuGetRegExternal, REG_NO_PC.
  rewrite !(proj2 (Z.eqb_neq _ 15)) by lia. destruct cpu. cbn in *. rewrite aget_aset_ne, !aget_aset_eq by (rewrite ?length_aset; lia).
  split; [done|]. change 255 with (Z.ones 8). rewrite Z.land_ones, Z.shiftr_div_pow2 by lia. apply Z.mod_small. unfold dsp_wf, is_u in Hd.
  split; [apply Z.div_pos; lia|]. apply Z.div_lt_upper_bound; lia.
Qed.

(** Multiply-accumulate is exact. Any sequence of [MIA] and [MIAPH]
    instructions leaves in the 40-bit accumulator what it held plus the sum of the
    signed products, modulo 2^40; a sum that fits 40 signed bits is read back whole,
    whatever the intermediate sums did. *)
Theorem dsp_accumulates (dsp : Pxa255dsp) (cpu : ArmCpu) (ms : list (Z * Z * Z)) (ps : list Z) (RdLo RdHi : Z)
    (Hdsp : dsp_wf dsp) (Hms : Forall2 (fun m p => macProduct cpu m = Some p) ms ps) (Hregs : length cpu.(regs) = 16%nat)
    (Hlo : 0 <= RdLo < 15) (Hhi : 0 <= RdHi < 15) (Hne : RdLo <> RdHi)
    (Hfit : - 2 ^ 39 <= sgn 40 dsp.(acc0) + sumZ ps < 2 ^ 39) :
  exists dsp' cpu', runMacs dsp cpu ms = (true, dsp') /\ dsp_wf dsp' /\
    pxa255dspPrvAccess dsp' cpu true 0 RdLo RdHi 0 = (true, (dsp', cpu')) /\
    sgn 40 (cpuGetRegExternal cpu' RdHi * 2 ^ 32 + cpuGetRegExternal cpu' RdLo) = sgn 40 dsp.(acc0) + sumZ ps.
Proof.
  rewrite (runMacs_exact cpu ms ps Hms dsp Hdsp). set (dsp' := mkDsp _).
  assert (Hd' : dsp_wf dsp') by (apply wrap_is_u; lia).
  destruct (read_back dsp' cpu RdLo RdHi Hd' Hregs Hlo Hhi Hne) as (cpu' & E & E1 & E2). exists dsp', cpu'. split; [done|]. split; [done|].
  split; [exact E|]. rewrite E1, E2. pose proof (Z.div_mod dsp'.(acc0) (2 ^ 32) ltac:(lia)) as Hdm. rewrite Z.mul_comm, <- Hdm.
  rewrite <- (sgn_exact 40 (sgn 40 dsp.(acc0) + sumZ ps)) by (done || lia). unfold dsp'. cbn [acc0]. rewrite sgn_wrap.
  rewrite <- (sgn_wrap 40 (dsp.(acc0) + sumZ ps)), <- (sgn_wrap 40 (sgn 40 dsp.(acc0) + sumZ ps)). f_equal. unfold sgn.
  rewrite (wrap_small 40 dsp.(acc0)) by done. destruct (_ <? _); [done|]. unfold wrap.
  replace (dsp.(acc0) - 2 ^ 40 + sumZ ps) with (dsp.(acc0) + sumZ ps + -1 * 2 ^ 40) by lia. by rewrite Z_mod_plus_full.
Qed.

Definition demo_dsp_cpu : ArmCpu := { cpu_reset with regs ::= fun r => r.[1 <- 0xffffffff].[2 <- 1000] }.

Lemma dsp_accumulates_witness :
  exists dsp' cpu', runMacs (mkDsp 5) demo_dsp_cpu [(0, 1, 2); (8, 1, 2)] = (true, dsp') /\ dsp_wf dsp' /\
    pxa255dspPrvAccess dsp' demo_dsp_cpu true 0 3 4 0 = (true, (dsp', cpu')) /\
    sgn 40 (cpuGetRegExternal cpu' 4 * 2 ^ 32 + cpuGetRegExternal cpu' 3) = -1995.
Proof.
  apply (dsp_accumulates (mkDsp 5) demo_dsp_cpu [(0, 1, 2); (8, 1, 2)] [-1000; -1000] 3 4); try lia.
  - by vm_compute.
  - repeat constructor.
  - done.
  - by vm_compute.
Defined.

(** [MIAxy] adds its product twice. *)
Lemma miaxy_doubles : dspProduct 12 3 5 = Some 30.
Proof. done. Qed.
