(* ===== verification/Queue.v ===== *)
(** * Bounded queues (queue.h, audio_queue.cpp)

    The ring buffer behind the pen, key and audio queues, and the proof that it
    is a bounded queue that forgets its oldest items. *)

From S2P Require Import Prelude.

Record Queue (A : Type) := mkQueue {
  items : list A;
  size : Z;
  next : Z
}.
Arguments mkQueue {A}.
Arguments items {A}.
Arguments size {A}.
Arguments next {A}.

Section Queue.
Context {A : Type} `{!Inhabited A}.

Definition capacityOf (q : Queue A) : Z := Z.of_nat (length q.(items)).

Definition newQueue (capacity : nat) : Queue A := mkQueue (replicate capacity inhabitant) 0 0.

(** A queue of capacity 0 divides by zero. *)
Definition Push (q : Queue A) (item : A) : outcome (Queue A) :=
  if capacityOf q =? 0 then Undef else
  Ret (mkQueue q.(items).[q.(next) <- item]
         (if q.(size) <? capacityOf q then q.(size) + 1 else q.(size))
         ((q.(next) + 1) mod capacityOf q)).

Definition frontIndex (q : Queue A) : Z := (q.(next) + capacityOf q - q.(size)) mod capacityOf q.

Definition Pop (q : Queue A) : outcome (A * Queue A) :=
  if capacityOf q =? 0 then Undef else
  Ret (q.(items).[frontIndex q], if 0 <? q.(size) then { q with size := q.(size) - 1 } else q).

Definition Peek (q : Queue A) : outcome A :=
  if capacityOf q =? 0 then Undef else Ret q.(items).[frontIndex q].

Definition GetSize (q : Queue A) : Z := q.(size).

Definition Clear (q : Queue A) : Queue A := { q with size := 0 }.

(** ** What it holds *)

(** Oldest first. *)
Definition contents (q : Queue A) : list A :=
  (fun k => q.(items).[(q.(next) + capacityOf q - q.(size) + Z.of_nat k) mod capacityOf q]) <$> seq 0 (Z.to_nat q.(size)).

Record queue_ok (q : Queue A) : Prop := {
  qk_capacity : 0 < capacityOf q;
  qk_next : 0 <= q.(next) < capacityOf q;
  qk_size : 0 <= q.(size) <= capacityOf q
}.

Lemma queue_contents_length q : length (contents q) = Z.to_nat q.(size).
Proof. unfold contents. by rewrite length_fmap, length_seq. Qed.

Lemma newQueue_ok n : (0 < n)%nat -> queue_ok (newQueue n) /\ contents (newQueue n) = [].
Proof. intros Hn. split; [|done]. split; unfold capacityOf, newQueue; cbn; rewrite length_replicate; lia. Qed.

(** The [k]th slot from the front. *)
Lemma contents_lookup q k :
  (k < Z.to_nat q.(size))%nat ->
  contents q !! k = Some q.(items).[(q.(next) + capacityOf q - q.(size) + Z.of_nat k) mod capacityOf q].
Proof. intros Hk. unfold contents. by rewrite list_lookup_fmap, lookup_seq_lt. Qed.

Lemma contents_ext q l :
  length l = Z.to_nat q.(size) ->
  (forall k, (k < length l)%nat -> l !! k = Some q.(items).[(q.(next) + capacityOf q - q.(size) + Z.of_nat k) mod capacityOf q]) ->
  contents q = l.
Proof.
  intros Hl H. apply list_eq. intros k. destruct (decide (k < length l)%nat).
  - by rewrite H, contents_lookup by lia.
  - rewrite !lookup_ge_None_2; [done|lia|rewrite queue_contents_length; lia].
Qed.

Lemma queue_push_exact q x :
  queue_ok q ->
  exists q', Push q x = Ret q' /\ queue_ok q' /\ capacityOf q' = capacityOf q /\
    contents q' = drop (length (contents q) + 1 - Z.to_nat (capacityOf q)) (contents q ++ [x]).
Proof.
  intros [Hc Hn Hs]. unfold Push. destruct (Z.eqb_spec (capacityOf q) 0); [lia|].
  set (q' := mkQueue _ _ _). assert (Ec : capacityOf q' = capacityOf q) by (unfold capacityOf; cbn; by rewrite length_aset).
  assert (Hn' : q'.(next) = (q.(next) + 1) mod capacityOf q) by done.
  pose proof (Z.mod_pos_bound (q.(next) + 1) (capacityOf q) Hc).
  exists q'. split; [done|]. split; [split; rewrite Ec; [done|by rewrite Hn'|cbn; destruct (Z.ltb_spec q.(size) (capacityOf q)); lia]|].
  split; [done|]. rewrite queue_contents_length.
  assert (Hsz : q'.(size) = Z.min (q.(size) + 1) (capacityOf q)) by (cbn; destruct (Z.ltb_spec q.(size) (capacityOf q)); lia).
  apply contents_ext.
  - rewrite length_drop, length_app, queue_contents_length. cbn [length]. lia.
  - intros k Hk. rewrite length_drop, length_app, queue_contents_length in Hk. cbn [length] in Hk.
    rewrite lookup_drop. set (j := (Z.to_nat (size q) + 1 - Z.to_nat (capacityOf q) + k)%nat) in *.
    assert (Hjk : (j = Z.to_nat q.(size) + 1 - Z.to_nat (capacityOf q) + k)%nat) by done. clearbody j.
    assert (Hj : (j < Z.to_nat q.(size) + 1)%nat) by lia. rewrite Ec, Hsz, Hn'. cbn [items q'].
    assert (E : ((q.(next) + 1) mod capacityOf q + capacityOf q - Z.min (q.(size) + 1) (capacityOf q) + Z.of_nat k) mod capacityOf q
            = (q.(next) + capacityOf q - q.(size) + Z.of_nat j) mod capacityOf q).
    { replace ((q.(next) + 1) mod capacityOf q + capacityOf q - Z.min (q.(size) + 1) (capacityOf q) + Z.of_nat k)
        with (q.(next) + capacityOf q - q.(size) + Z.of_nat j + (- ((q.(next) + 1) / capacityOf q)) * capacityOf q).
      - by rewrite Z.mod_add by lia.
      - pose proof (Z.div_mod (q.(next) + 1) (capacityOf q) ltac:(lia)). lia. }
    rewrite E. destruct (decide (j < Z.to_nat q.(size))%nat) as [Hlt|Hge].
    + rewrite lookup_app_l by (rewrite queue_contents_length; lia). rewrite contents_lookup by lia. f_equal.
      rewrite aget_aset_ne; [done|lia|by apply Z.mod_pos_bound|]. intros Heq.
      assert (Hd : (q.(next) - (q.(next) + capacityOf q - q.(size) + Z.of_nat j)) mod capacityOf q = 0).
      { rewrite Zminus_mod, <- Heq, (Z.mod_small q.(next)), Z.sub_diag by lia. done. }
      assert (Hr : - capacityOf q < q.(size) - capacityOf q - Z.of_nat j < 0) by (clear - Hs Hjk Hlt Hc; lia).
      apply Z.mod_divide in Hd as [z Hz]; [|lia].
      replace (q.(next) - _) with (q.(size) - capacityOf q - Z.of_nat j) in Hz by ring. rewrite Hz in Hr. revert Hr Hc. clear. generalize (capacityOf q). intros c Hr Hc.
      pose proof (Z.mul_le_mono_nonneg_r z (-1) c). pose proof (Z.mul_nonneg_nonneg z c). lia.
    + rewrite lookup_app_r by (rewrite queue_contents_length; lia). rewrite queue_contents_length.
      replace (j - Z.to_nat q.(size))%nat with 0%nat by lia. cbn [lookup list_lookup]. f_equal.
      replace (q.(next) + capacityOf q - q.(size) + Z.of_nat j) with (q.(next) + 1 * capacityOf q) by lia.
      rewrite Z.mod_add, Z.mod_small by lia. by rewrite aget_aset_eq by done.
Qed.

Lemma queue_pop_exact q x rest :
  queue_ok q -> contents q = x :: rest ->
  Peek q = Ret x /\ exists q', Pop q = Ret (x, q') /\ queue_ok q' /\ capacityOf q' = capacityOf q /\ contents q' = rest.
Proof.
  intros [Hc Hn Hs] Hx. assert (Hsz : Z.to_nat q.(size) = S (length rest)) by (by rewrite <- queue_contents_length, Hx).
  pose proof (contents_lookup q 0 ltac:(lia)) as E0. rewrite Hx in E0. cbn in E0. injection E0 as E0.
  replace (_ - size q + 0) with (q.(next) + capacityOf q - q.(size)) in E0 by lia. fold (frontIndex q) in E0.
  unfold Peek, Pop. destruct (Z.eqb_spec (capacityOf q) 0); [lia|]. rewrite <- E0. split; [done|].
  destruct (Z.ltb_spec 0 q.(size)); [|lia]. set (q' := { q with size := q.(size) - 1 }).
  assert (Eq : capacityOf q' = capacityOf q /\ q'.(next) = q.(next) /\ q'.(size) = q.(size) - 1 /\ q'.(items) = q.(items)) by (by destruct q).
  destruct Eq as (E1 & E2 & E3 & E4). exists q'. split; [done|]. split; [split; rewrite ?E1, ?E2, ?E3; lia|]. split; [done|].
  apply contents_ext; [lia|]. intros k Hk. rewrite E1, E2, E3, E4.
  pose proof (contents_lookup q (S k) ltac:(lia)) as Hk1. rewrite Hx in Hk1. cbn [lookup list_lookup] in Hk1. unfold lookup in *. rewrite Hk1.
  do 3 f_equal. lia.
Qed.
End Queue.

(** ** The audio queue: the loop of [audioQueuePopChunk]; it ends with the
    queue or with [count]. *)
Definition AudioQueue := Queue Z.

Definition audioQueueCreate (capacity : nat) : AudioQueue := newQueue capacity.
Definition audioQueuePush (q : AudioQueue) (sample : Z) : outcome AudioQueue := Push q sample.
Definition audioQueuePendingSamples (q : AudioQueue) : Z := GetSize q.
Definition audioQueueClear (q : AudioQueue) : AudioQueue := Clear q.

Fixpoint audioQueuePopChunk (q : AudioQueue) (count : nat) : outcome (list Z * AudioQueue) :=
  match count with
  | O => Ret ([], q)
  | S count =>
      if 0 <? GetSize q then
        '(x, q) ← Pop q;
        '(xs, q) ← audioQueuePopChunk q count;
        Ret (x :: xs, q)
      else Ret ([], q)
  end.

Lemma popChunk_exact q count :
  queue_ok q ->
  exists q', audioQueuePopChunk q count = Ret (take count (contents q), q') /\ queue_ok q' /\
    capacityOf q' = capacityOf q /\ contents q' = drop count (contents q).
Proof.
  revert q. induction count as [|count IH]; intros q Hq; [by exists q|]. cbn [audioQueuePopChunk]. unfold GetSize.
  pose proof (queue_contents_length q) as Hl. pose proof Hq as [Hc Hn Hs].
  destruct (contents q) as [|x rest] eqn:Ex; cbn [length] in Hl.
  - assert ((0 <? q.(size)) = false) as -> by (apply Z.ltb_ge; lia). exists q. by rewrite Ex.
  - assert ((0 <? q.(size)) = true) as -> by (apply Z.ltb_lt; lia).
    destruct (queue_pop_exact q x rest Hq Ex) as (_ & q1 & E1 & Hq1 & Ec & Er). rewrite E1. cbn [mbind outcome_bind].
    destruct (IH q1 Hq1) as (q2 & E2 & Hq2 & Ec2 & Er2). rewrite E2. cbn [mbind outcome_bind].
    exists q2. rewrite Er in *. cbn [take drop]. split; [done|]. split; [done|]. by rewrite Ec2, Ec.
Qed.

(** The ring buffer is a bounded first-in-first-out queue. Pushing appends,
    and when the buffer is full the oldest item is lost; popping and peeking give
    the oldest; a chunk of the audio queue is its first [count] samples, or all
    of them if there are fewer, and they are removed. No index leaves the
    buffer. *)
Theorem queue_keeps_newest (q : AudioQueue) (Hq : queue_ok q) :
  (forall x, exists q', audioQueuePush q x = Ret q' /\ queue_ok q' /\ capacityOf q' = capacityOf q /\
     contents q' = drop (length (contents q) + 1 - Z.to_nat (capacityOf q)) (contents q ++ [x])) /\
  (forall x rest, contents q = x :: rest -> Peek q = Ret x /\
     exists q', Pop q = Ret (x, q') /\ queue_ok q' /\ capacityOf q' = capacityOf q /\ contents q' = rest) /\
  (forall count, exists q', audioQueuePopChunk q count = Ret (take count (contents q), q') /\ queue_ok q' /\
     capacityOf q' = capacityOf q /\ contents q' = drop count (contents q)).
Proof.
  split; [intros x; by apply queue_push_exact|]. split; [intros x rest; by apply queue_pop_exact|]. intros count. by apply popChunk_exact.
Qed.

Definition demo_queue : AudioQueue := mkQueue [1; 2; 3; 4] 4 1.

Lemma queue_keeps_newest_witness :
  contents demo_queue = [2; 3; 4; 1] /\
  (exists q', audioQueuePush demo_queue 9 = Ret q' /\ contents q' = [3; 4; 1; 9]) /\
  exists q', audioQueuePopChunk demo_queue 3 = Ret ([2; 3; 4], q') /\ contents q' = [1].
Proof.
  split; [by vm_compute|].
  destruct (queue_keeps_newest demo_queue) as (H1 & _ & H3); [by split|]. split.
  - destruct (H1 9) as (q' & E & _ & _ & Ec). by exists q'.
  - destruct (H3 3%nat) as (q' & E & _ & _ & Ec). by exists q'.
Defined.
