(* ===== verification/Scheduler.v ===== *)
(** * The scheduler (scheduler.h)

    Eight tasks with their periods, and the queue of the scheduled ones: a
    linked list inside an array, indexed by task, ordered by the time of the
    next update. *)

From Stdlib Require Import Sorted.
From S2P Require Import Prelude.

Definition SCHEDULER_TASK_MAX := 7.
Definition SCHEDULER_TASK_NONE := 0xff.
Definition one_sec := 1000000000.

Record Task := mkTask {
  batchedTicks : Z;   (* uint32_t *)
  period : Z;         (* uint64_t, nanoseconds, as are the times *)
  lastUpdate : Z;
  dueTime : Z         (* nextUpdate *)
}.

Definition task0 : Task := mkTask 0 0 0 0.
#[export] Instance task_inhabited : Inhabited Task := populate task0.

Record Scheduler := mkScheduler {
  tasks : list Task;        (* [SCHEDULER_TASK_MAX + 1] *)
  queueBuffer : list Z;     (* uint32_t[SCHEDULER_TASK_MAX + 2]; queue points to its second entry *)
  accTime : Z;
  nextUpdate : Z
}.

Definition queueAt (s : Scheduler) (idx : Z) : Z := s.(queueBuffer).[idx + 1].
Definition setQueue (s : Scheduler) (idx n : Z) : Scheduler := { s with queueBuffer ::= fun q => q.[idx + 1 <- n] }.
Definition taskAt (s : Scheduler) (t : Z) : Task := s.(tasks).[t].
Definition setTask (s : Scheduler) (t : Z) (task : Task) : Scheduler := { s with tasks ::= fun l => l.[t <- task] }.

(** The constructor. *)
Definition newScheduler : Scheduler :=
  mkScheduler (replicate 8 task0) (replicate 9 SCHEDULER_TASK_NONE) 0 one_sec.

Definition UpdateNextUpdate (s : Scheduler) : Scheduler :=
  { s with nextUpdate := if queueAt s (-1) <=? SCHEDULER_TASK_MAX then (taskAt s (queueAt s (-1))).(dueTime)
                         else u64 (s.(accTime) + one_sec) }.

(** The walk that moves [taskType] to its place; [before] is what followed it.
    [fuel] bounds the steps: the queue has one entry for every task. *)
Fixpoint relink (fuel : nat) (s : Scheduler) (taskType due before idx : Z) (inserted deleted : bool)
  : outcome Scheduler :=
  match fuel with
  | O => Hang
  | S fuel =>
      let found := queueAt s idx =? taskType in
      let s := if found then setQueue s idx before else s in
      let nextTaskType := queueAt s idx in
      let deleted := deleted || found in
      if found && inserted then Ret s else
      let insert := negb inserted &&
        ((SCHEDULER_TASK_MAX <? nextTaskType) || (due <? (taskAt s nextTaskType).(dueTime))) in
      let s := if insert then setQueue (setQueue s idx taskType) taskType nextTaskType else s in
      let inserted := inserted || insert in
      if insert && deleted then Ret s else
      if nextTaskType <=? SCHEDULER_TASK_MAX then relink fuel s taskType due before nextTaskType inserted deleted
      else Ret s
  end.

(** The walk that takes [taskType] out of the queue. *)
Fixpoint unlink (fuel : nat) (s : Scheduler) (taskType idx : Z) : outcome Scheduler :=
  match fuel with
  | O => Hang
  | S fuel =>
      if SCHEDULER_TASK_MAX <? idx then Ret s else
      let nextTaskType := queueAt s idx in
      if nextTaskType =? taskType then Ret (setQueue s idx (queueAt s nextTaskType))
      else unlink fuel s taskType nextTaskType
  end.

Definition queueFuel : nat := 10.

Definition UnscheduleTask (s : Scheduler) (taskType : Z) : outcome Scheduler :=
  let s := setTask s taskType { taskAt s taskType with batchedTicks := 0 } in
  s ← unlink queueFuel s taskType (-1);
  Ret (UpdateNextUpdate s).

(** A period of 0 divides by zero. *)
Definition RescheduleTaskImpl (atLeast : bool) (s : Scheduler) (taskType batchTicks : Z) : outcome Scheduler :=
  if batchTicks =? 0 then UnscheduleTask s taskType else
  let task := taskAt s taskType in
  if (task.(period) =? 0) && (atLeast || (task.(batchedTicks) =? 0)) then Undef else
  let accumulatedTicks := u64 (s.(accTime) - task.(lastUpdate)) / task.(period) in
  let batchTicks := if atLeast && (batchTicks <? accumulatedTicks) then u32 accumulatedTicks else batchTicks in
  let last :=
    if task.(batchedTicks) =? 0
    then u64 (u64 (s.(accTime) - task.(dueTime)) / task.(period) * task.(period) + task.(dueTime))
    else task.(lastUpdate) in
  let due := u64 (last + batchTicks * task.(period)) in
  let s := setTask s taskType (mkTask batchTicks task.(period) last due) in
  s ← relink queueFuel s taskType due (queueAt s taskType) (-1) false false;
  Ret (UpdateNextUpdate s).

Definition RescheduleTask := RescheduleTaskImpl false.
Definition RescheduleTaskAtLeast := RescheduleTaskImpl true.

Definition ScheduleTask (s : Scheduler) (taskType period batchTicks : Z) : outcome Scheduler :=
  let task := taskAt s taskType in
  RescheduleTask (setTask s taskType (mkTask 0 period s.(accTime) task.(dueTime))) taskType batchTicks.

(** [cyclesPerSecond] is not 0. *)
Definition CyclesToNextUpdate (s : Scheduler) (cyclesPerSecond : Z) : Z :=
  u64 (u64 (u64 (s.(nextUpdate) - s.(accTime)) * cyclesPerSecond) / one_sec + 1).

(** [Advance]'s loop, over the delegate's state [W]; [DispatchTicks] may call
    the scheduler. *)
Section Advance.
Context {W : Type} (DispatchTicks : W -> Scheduler -> Z -> Z -> outcome (Z * W * Scheduler)).

(** One turn of the loop; [None] is its end. *)
Definition dispatchHead (w : W) (s : Scheduler) : outcome (option (W * Scheduler)) :=
  let taskType := queueAt s (-1) in
  if SCHEDULER_TASK_MAX <? taskType then Ret None else
  if s.(accTime) <? (taskAt s taskType).(dueTime) then Ret None else
  '(batchTicks, w, s) ← DispatchTicks w s taskType (taskAt s taskType).(batchedTicks);
  let task := taskAt s taskType in
  let last := u64 (task.(lastUpdate) + task.(batchedTicks) * task.(period)) in
  s ← RescheduleTaskImpl false (setTask s taskType { task with lastUpdate := last }) taskType batchTicks;
  Ret (Some (w, s)).

Fixpoint dispatchLoop (fuel : nat) (w : W) (s : Scheduler) : outcome (W * Scheduler) :=
  match fuel with
  | O => Hang
  | S fuel =>
      r ← dispatchHead w s;
      match r with
      | None => Ret (w, s)
      | Some (w, s) => dispatchLoop fuel w s
      end
  end.

Definition Advance (fuel : nat) (w : W) (s : Scheduler) (cycles cyclesPerSecond : Z) : outcome (W * Scheduler) :=
  let s := { s with accTime ::= fun t => u64 (t + u64 (cycles * one_sec) / cyclesPerSecond) } in
  if s.(accTime) <? s.(nextUpdate) then Ret (w, s) else
  '(w, s) ← dispatchLoop fuel w s;
  Ret (w, UpdateNextUpdate s).
End Advance.

(** ** The queue as a list *)

(** From [n], the links [q] visit [l] and end; they lead through [l] to [e]. *)
Fixpoint links (q : Z -> Z) (n : Z) (l : list Z) : Prop :=
  match l with
  | [] => SCHEDULER_TASK_MAX < n
  | t :: l => n = t /\ links q (q t) l
  end.

Fixpoint seg (q : Z -> Z) (n : Z) (l : list Z) (e : Z) : Prop :=
  match l with
  | [] => n = e
  | t :: l => n = t /\ seg q (q t) l e
  end.

Lemma links_ext q q' n l : (forall u, u ∈ l -> q u = q' u) -> links q n l -> links q' n l.
Proof.
  revert n. induction l as [|t l IH]; intros n Hq; [done|]. cbn. intros [-> Hl]. split; [done|].
  rewrite <- Hq by set_solver. apply IH; [set_solver|done].
Qed.

Lemma seg_ext q q' n l e : (forall u, u ∈ l -> q u = q' u) -> seg q n l e -> seg q' n l e.
Proof.
  revert n. induction l as [|t l IH]; intros n Hq; [done|]. cbn. intros [-> Hl]. split; [done|].
  rewrite <- Hq by set_solver. apply IH; [set_solver|done].
Qed.

Lemma links_app q n l1 l2 : links q n (l1 ++ l2) <-> exists e, seg q n l1 e /\ links q e l2.
Proof.
  revert n. induction l1 as [|t l1 IH]; intros n; cbn.
  - split; [by exists n|]. by intros (e & -> & H).
  - rewrite IH. split; [intros (H & e & H1 & H2)|intros (e & (H & H1) & H2)]; eauto.
Qed.

Lemma seg_snoc_links q n l1 t l2 : links q n (l1 ++ t :: l2) -> seg q n l1 t /\ links q (q t) l2.
Proof. rewrite links_app. cbn. intros (e & H1 & -> & H2). done. Qed.

Definition is_task (t : Z) : Prop := 0 <= t <= SCHEDULER_TASK_MAX.
Definition is_slot (i : Z) : Prop := -1 <= i <= SCHEDULER_TASK_MAX.

Lemma task_slot t : is_task t -> is_slot t.
Proof. unfold is_task, is_slot. lia. Qed.

(** The place of [t], due at [due], in a list ordered by [f]. *)
Fixpoint place (t due : Z) (f : Z -> Z) (l : list Z) : list Z :=
  match l with
  | [] => [t]
  | u :: r => if due <? f u then t :: u :: r else u :: place t due f r
  end.

Definition without (t : Z) (l : list Z) : list Z := filter (fun u => u <> t) l.

(** Only the links differ. *)
Record same_tasks (s s' : Scheduler) : Prop := mkSame {
  st_tasks : s'.(tasks) = s.(tasks);
  st_time : s'.(accTime) = s.(accTime);
  st_next : s'.(nextUpdate) = s.(nextUpdate);
  st_len : length s'.(queueBuffer) = length s.(queueBuffer)
}.

#[export] Instance same_tasks_preorder : PreOrder same_tasks.
Proof. split; [done|]. intros ??? [] []. split; congruence. Qed.

Lemma same_due s s' u : same_tasks s s' -> taskAt s' u = taskAt s u.
Proof. intros []. unfold taskAt. congruence. Qed.

Lemma setQueue_same s i n : same_tasks s (setQueue s i n).
Proof. destruct s. split; try done. apply length_aset. Qed.

Lemma queueAt_set s i j n :
  length s.(queueBuffer) = 9%nat -> is_slot i -> is_slot j ->
  queueAt (setQueue s i n) j = if j =? i then n else queueAt s j.
Proof.
  unfold is_slot, SCHEDULER_TASK_MAX. intros Hl Hi Hj. destruct s. unfold queueAt, setQueue. cbn in *.
  rewrite aget_aset by lia. rewrite (Z.eqb_sym j i). by destruct (Z.eqb_spec (i + 1) (j + 1)), (Z.eqb_spec i j); try lia.
Qed.

Section Relink.
Variables (t due before : Z).
Hypothesis (Ht : is_task t).

Lemma without_notin l : t ∉ l -> without t l = l.
Proof.
  unfold without. induction l as [|u l IH]; intros H; [done|].
  rewrite filter_cons_True by set_solver. f_equal. apply IH. set_solver.
Qed.

Lemma head_not_found q idx l : Forall is_task l -> t ∉ l -> links q (q idx) l -> (q idx =? t) = false.
Proof.
  intros Hl Hn. destruct l as [|u l]; cbn; intros H; apply Z.eqb_neq.
  - unfold is_task in Ht. lia.
  - destruct H as [-> _]. set_solver.
Qed.
Definition wf_at (s : Scheduler) (idx : Z) (l : list Z) : Prop :=
  length s.(queueBuffer) = 9%nat /\ is_slot idx /\ Forall is_task l /\ NoDup (idx :: l) /\ t <> idx.

Lemma wf_at_tail s idx u l : wf_at s idx (u :: l) -> u <> t -> wf_at s u l.
Proof.
  intros (H1 & H2 & H3 & H4 & H5) Hu. apply Forall_cons in H3 as [Hu1 H3]. apply NoDup_cons in H4 as [_ H4].
  split_and!; try done. by apply task_slot.
Qed.

Lemma wf_at_same s s' idx l : wf_at s idx l -> same_tasks s s' -> wf_at s' idx l.
Proof. intros (H1 & H2) [_ _ _ Hl]. split; [congruence|done]. Qed.

Ltac qset := rewrite ?queueAt_set by (assumption || (by apply task_slot) || (rewrite ?st_len by apply setQueue_same; assumption) || lia).

(** Taken out already, still to be placed. *)
Lemma relink_place l : forall fuel s idx,
  wf_at s idx l -> t ∉ l -> (length l < fuel)%nat -> links (queueAt s) (queueAt s idx) l ->
  exists s', relink fuel s t due before idx false true = Ret s' /\ same_tasks s s' /\
    links (queueAt s') (queueAt s' idx) (place t due (fun u => (taskAt s u).(dueTime)) l) /\
    forall j, is_slot j -> j ∉ idx :: t :: l -> queueAt s' j = queueAt s j.
Proof.
  induction l as [|u l IH]; intros [|fuel] s idx Hwf Hn Hf Hlinks; try (exfalso; cbn in Hf; lia).
  - cbn [relink]. pose proof Hwf as (Hlen & Hidx & _ & _ & Hne). cbn in Hlinks.
    assert ((queueAt s idx =? t) = false) as -> by (apply Z.eqb_neq; unfold is_task in Ht; lia). cbn [orb andb negb].
    assert ((SCHEDULER_TASK_MAX <? queueAt s idx) = true) as -> by (by apply Z.ltb_lt). cbn [orb andb].
    eexists. split; [done|]. split; [by etransitivity; apply setQueue_same|].
    pose proof (task_slot _ Ht).
    assert (length (setQueue s idx t).(queueBuffer) = 9%nat) by (rewrite (st_len _ _ (setQueue_same s idx t)); done).
    split; cbn [links place].
    + rewrite !queueAt_set by done. rewrite Z.eqb_refl. destruct (Z.eqb_spec idx t); [congruence|]. by rewrite Z.eqb_refl.
    + intros j Hj Hjn. rewrite !queueAt_set by done. destruct (Z.eqb_spec j t), (Z.eqb_spec j idx); set_solver.
  - cbn [relink]. pose proof Hwf as (Hlen & Hidx & HF & HND & Hne). pose proof HF as [Hu HF']%Forall_cons.
    rewrite (head_not_found _ _ _ HF Hn Hlinks). cbn [orb andb negb]. cbn in Hlinks. destruct Hlinks as [Eu Hlinks]. rewrite Eu.
    assert ((SCHEDULER_TASK_MAX <? u) = false) as -> by (apply Z.ltb_ge; unfold is_task in Hu; lia). cbn [orb andb place].
    pose proof (task_slot _ Ht). pose proof (task_slot _ Hu).
    assert (Hnil : u <> idx) by (intros ->; apply NoDup_cons in HND as [HND _]; set_solver).
    assert (Hut : u <> t) by set_solver.
    destruct (due <? _) eqn:Edue; cbn [orb andb].
    + eexists. split; [done|]. split; [by etransitivity; apply setQueue_same|].
      assert (length (setQueue s idx t).(queueBuffer) = 9%nat) by (rewrite (st_len _ _ (setQueue_same s idx t)); done).
      split.
      * cbn [links]. rewrite !queueAt_set by done. rewrite Z.eqb_refl. destruct (Z.eqb_spec idx t); [congruence|].
        rewrite Z.eqb_refl. split; [done|]. destruct (Z.eqb_spec u t); [congruence|]. destruct (Z.eqb_spec u idx); [congruence|].
        split; [done|]. eapply links_ext, Hlinks. intros v Hv.
        assert (is_task v) by (rewrite Forall_forall in HF'; auto). pose proof (task_slot v).
        rewrite !queueAt_set by auto. destruct (Z.eqb_spec v t); [set_solver|]. destruct (Z.eqb_spec v idx) as [->|]; [|done].
        apply NoDup_cons in HND as [HND _]. set_solver.
      * intros j Hj Hjn. rewrite !queueAt_set by done. destruct (Z.eqb_spec j t), (Z.eqb_spec j idx); set_solver.
    + assert ((u <=? SCHEDULER_TASK_MAX) = true) as -> by (apply Z.leb_le; unfold is_task in Hu; lia).
      destruct (IH fuel s u) as (s' & E & Hsame & Hl & Hfr); [by eapply wf_at_tail|set_solver|cbn in Hf; lia|done|].
      exists s'. split; [done|]. split; [done|]. split.
      * cbn [links]. split; [|done]. rewrite Hfr by (done || (intros [->|[->|Hin]%elem_of_cons]%elem_of_cons; try congruence; apply NoDup_cons in HND as [HND _]; set_solver)). done.
      * intros j Hj Hjn. apply Hfr; set_solver.
Qed.
(** Placed already; [t] is not further on. *)
Lemma relink_absent l : forall fuel s idx,
  wf_at s idx l -> t ∉ l -> (length l < fuel)%nat -> links (queueAt s) (queueAt s idx) l ->
  relink fuel s t due before idx true false = Ret s.
Proof.
  induction l as [|u l IH]; intros [|fuel] s idx Hwf Hn Hf Hlinks; try (exfalso; cbn in Hf; lia); cbn [relink];
    pose proof Hwf as (_ & _ & HF & _); rewrite (head_not_found _ _ _ HF Hn Hlinks); cbn [orb andb negb]; cbn in Hlinks.
  - by assert ((queueAt s idx <=? SCHEDULER_TASK_MAX) = false) as -> by (by apply Z.leb_gt).
  - destruct Hlinks as [-> Hlinks]. destruct (u <=? SCHEDULER_TASK_MAX); [|done].
    apply IH; [eapply wf_at_tail; [done|set_solver]|set_solver|cbn in Hf; lia|done].
Qed.

(** Placed already; [t] is further on and is taken out there. *)
Lemma relink_remove l1 l2 : forall fuel s idx,
  wf_at s idx (l1 ++ l2) -> t ∉ l1 ++ l2 -> (length l1 < fuel)%nat ->
  seg (queueAt s) (queueAt s idx) l1 t -> links (queueAt s) before l2 ->
  exists s', relink fuel s t due before idx true false = Ret s' /\ same_tasks s s' /\
    links (queueAt s') (queueAt s' idx) (l1 ++ l2) /\
    forall j, is_slot j -> j ∉ idx :: l1 -> queueAt s' j = queueAt s j.
Proof.
  induction l1 as [|u l1 IH]; intros [|fuel] s idx Hwf Hn Hf Hseg Hlinks; try (exfalso; cbn in Hf; lia);
    cbn [relink]; cbn in Hseg; pose proof Hwf as (Hlen & Hidx & HF & HND & Hne).
  - rewrite Hseg, Z.eqb_refl. cbn [orb andb]. eexists. split; [done|]. split; [apply setQueue_same|]. cbn [app] in *. split.
    + rewrite queueAt_set, Z.eqb_refl by done. eapply links_ext, Hlinks. intros v Hv.
      assert (is_task v) by (rewrite Forall_forall in HF; auto). pose proof (task_slot v).
      rewrite queueAt_set by auto. destruct (Z.eqb_spec v idx) as [->|]; [|done].
      apply NoDup_cons in HND as [HND _]. done.
    + intros j Hj Hjn. rewrite queueAt_set by done. destruct (Z.eqb_spec j idx); set_solver.
  - destruct Hseg as [Eu Hseg]. rewrite Eu. pose proof HF as [Hu HF']%Forall_cons.
    assert ((u =? t) = false) as -> by (apply Z.eqb_neq; set_solver). cbn [orb andb negb]. rewrite Eu.
    assert ((u <=? SCHEDULER_TASK_MAX) = true) as -> by (apply Z.leb_le; unfold is_task in Hu; lia).
    destruct (IH fuel s u) as (s' & E & Hsame & Hl & Hfr); [eapply wf_at_tail; [done|set_solver]|set_solver|cbn in Hf; lia|done..|].
    exists s'. split; [done|]. split; [done|]. split.
    + cbn [links app]. split; [|done].
      rewrite Hfr; [done|done|]. apply NoDup_cons in HND as [HND _]. set_solver.
    + intros j Hj Hjn. apply Hfr; set_solver.
Qed.

(** [t] linked in between [idx] and what follows. *)
Lemma insert_links s idx u l :
  wf_at s idx (u :: l) -> u <> t -> queueAt s idx = u -> t ∉ l ->
  let s2 := setQueue (setQueue s idx t) t u in
  same_tasks s s2 /\ queueAt s2 idx = t /\ queueAt s2 t = u /\
  forall j, is_slot j -> j <> idx -> j <> t -> queueAt s2 j = queueAt s j.
Proof.
  intros (Hlen & Hidx & HF & HND & Hne) Hu Eu Hn s2. pose proof (task_slot _ Ht).
  assert (length (setQueue s idx t).(queueBuffer) = 9%nat) by (rewrite (st_len _ _ (setQueue_same s idx t)); done).
  split; [by etransitivity; apply setQueue_same|]. subst s2. split_and!.
  - rewrite !queueAt_set by done. rewrite Z.eqb_refl. by destruct (Z.eqb_spec idx t); [congruence|].
  - by rewrite queueAt_set, Z.eqb_refl by done.
  - intros j Hj H1 H2. rewrite !queueAt_set by done. by destruct (Z.eqb_spec j t), (Z.eqb_spec j idx).
Qed.

(** The walk goes on past [u], behind which the place of [t] is known to be. *)
Lemma relink_behind l fuel s idx u :
  wf_at s idx (u :: l) -> u <> t -> queueAt s idx = u -> (length l < fuel)%nat ->
  links (queueAt s) (queueAt s u) l -> before = queueAt s t ->
  exists s', relink fuel (setQueue (setQueue s idx t) t u) t due before u true false = Ret s' /\ same_tasks s s' /\
    links (queueAt s') (queueAt s' idx) (t :: u :: without t l) /\
    forall j, is_slot j -> j ∉ idx :: t :: u :: l -> queueAt s' j = queueAt s j.
Proof.
  intros Hwf Hut Eu Hf Hlinks Hb. pose proof Hwf as (Hlen & Hidx & HF & HND & Hne).
  pose proof HF as [Hu HF']%Forall_cons. rewrite Forall_forall in HF'.
  set (s2 := setQueue _ t u).
  assert (same_tasks s s2 /\ queueAt s2 idx = t /\ queueAt s2 t = u /\
    forall j, is_slot j -> j <> idx -> j <> t -> queueAt s2 j = queueAt s j) as (Hsame & Q1 & Q2 & Q3).
  { apply (insert_links s idx u []); try done; [|set_solver].
    split_and!; try done; [by apply Forall_cons|]. apply NoDup_cons in HND as [HND1 HND2]. 
    apply NoDup_cons. split; [set_solver|]. apply NoDup_singleton. }
  assert (Hni : idx ∉ u :: l) by (by apply NoDup_cons in HND as [? _]).
  destruct (decide (t ∈ l)) as [Hin|Hnin].
  - apply list_elem_of_split in Hin as (l1 & l2 & ->).
    assert (Hnd : NoDup (u :: l1 ++ t :: l2)) by (by apply NoDup_cons in HND as [_ ?]).
    assert (t ∉ l1 ++ l2) as Hn12.
    { apply NoDup_cons in Hnd as [_ Hnd]. apply NoDup_app in Hnd as (_ & Hd & Hnd). apply NoDup_cons in Hnd as [Hnd _].
      intros [?|?]%elem_of_app; [|done]. eapply Hd; [done|]. set_solver. }
    apply seg_snoc_links in Hlinks as [Hseg Hl2]. rewrite <- Hb in Hl2.
    destruct (relink_remove l1 l2 fuel s2 u) as (s' & E & Hs' & Hl & Hfr).
    + apply (wf_at_same s); [|done]. split_and!; try done; [by apply task_slot| |].
      * apply Forall_forall. intros v Hv. apply HF'. set_solver.
      * rewrite <- (NoDup_Permutation_proper _ _ (Permutation_middle (u :: l1) l2 t)) in Hnd. by apply NoDup_cons in Hnd as [_ ?].
    + done.
    + rewrite length_app in Hf. cbn in Hf. lia.
    + rewrite Q3 by (by apply task_slot || set_solver). eapply seg_ext, Hseg. intros v Hv. symmetry.
      apply Q3; [apply task_slot, HF'; set_solver|set_solver..].
    + eapply links_ext, Hl2. intros v Hv. symmetry. apply Q3; [apply task_slot, HF'; set_solver|set_solver..].
    + exists s'. split; [done|]. split; [by etransitivity|]. split.
      * assert (Hi : idx ∉ u :: l1) by (intros Hin; apply Hni; rewrite elem_of_cons, elem_of_app in *; tauto).
        assert (Htu : t ∉ u :: l1) by (intros [?|?]%elem_of_cons; [congruence|apply Hn12, elem_of_app; by left]).
        cbn [links]. rewrite (Hfr idx), (Hfr t), Q1, Q2 by (done || by apply task_slot).
        split; [done|]. split; [done|]. unfold without. rewrite filter_app, filter_cons_False by (intros H; by apply H).
        fold (without t l1) (without t l2). rewrite !without_notin by set_solver. done.
      * intros j Hj Hjn. rewrite Hfr by (done || set_solver). apply Q3; set_solver.
  - rewrite without_notin by done.
    rewrite (relink_absent l fuel s2 u); [..|done|lia|].
    + exists s2. split; [done|]. split; [done|]. split; [|intros j Hj Hjn; apply Q3; set_solver].
      cbn [links]. rewrite Q1, Q2. split; [done|]. split; [done|].
      rewrite Q3 by (by apply task_slot || set_solver). eapply links_ext, Hlinks. intros v Hv. symmetry.
      apply Q3; [apply task_slot, HF'; done|set_solver..].
    + apply (wf_at_same s); [|done]. by eapply wf_at_tail.
    + rewrite Q3 by (by apply task_slot || set_solver). eapply links_ext, Hlinks. intros v Hv. symmetry.
      apply Q3; [apply task_slot, HF'; done|set_solver..].
Qed.

(** The walk from the start. *)
Lemma relink_exact l : forall fuel s idx,
  wf_at s idx l -> (S (length l) < fuel)%nat -> links (queueAt s) (queueAt s idx) l -> before = queueAt s t ->
  exists s', relink fuel s t due before idx false false = Ret s' /\ same_tasks s s' /\
    links (queueAt s') (queueAt s' idx) (place t due (fun u => (taskAt s u).(dueTime)) (without t l)) /\
    forall j, is_slot j -> j ∉ idx :: t :: l -> queueAt s' j = queueAt s j.
Proof.
  induction l as [|u l IH]; intros [|fuel] s idx Hwf Hf Hlinks Hb; try (exfalso; cbn in Hf; lia).
  - destruct (relink_place [] (S fuel) s idx) as (s' & E & H); [done|set_solver|cbn; lia|done|].
    exists s'. split; [|done]. rewrite <- E. cbn [relink]. cbn in Hlinks.
    assert ((queueAt s idx =? t) = false) as -> by (apply Z.eqb_neq; unfold is_task in Ht; lia). cbn [orb andb negb].
    assert ((SCHEDULER_TASK_MAX <? queueAt s idx) = true) as -> by (by apply Z.ltb_lt). cbn [orb andb].
    by assert ((queueAt s idx <=? SCHEDULER_TASK_MAX) = false) as -> by (by apply Z.leb_gt).
  - pose proof Hwf as (Hlen & Hidx & HF & HND & Hne). pose proof HF as [Hu HF']%Forall_cons.
    cbn [links] in Hlinks. destruct Hlinks as [Eu Hlinks].
    assert (Hni : idx ∉ u :: l) by (by apply NoDup_cons in HND as [? _]).
    destruct (decide (u = t)) as [->|Hut].
    + assert (Htl : t ∉ l) by (apply NoDup_cons in HND as [_ HND]; by apply NoDup_cons in HND as [? _]).
      assert (Hlinks1 : links (queueAt (setQueue s idx before)) before l).
      { rewrite Hb at 2. eapply links_ext, Hlinks. intros v Hv. rewrite Forall_forall in HF'.
        rewrite queueAt_set by (done || apply task_slot, HF', Hv). destruct (Z.eqb_spec v idx); [set_solver|done]. }
      assert (Q : queueAt (setQueue s idx before) idx = before) by (by rewrite queueAt_set, Z.eqb_refl by done).
      destruct (relink_place l (S fuel) (setQueue s idx before) idx) as (s' & E & Hs' & Hl & Hfr).
      * eapply wf_at_same, setQueue_same. split_and!; try done. apply NoDup_cons. split; [set_solver|].
        apply NoDup_cons in HND as [_ HND]. by apply NoDup_cons in HND as [_ ?].
      * done.
      * cbn in Hf. lia.
      * by rewrite Q.
      * exists s'. split; [|split; [|split]].
        -- rewrite <- E. cbn [relink]. rewrite Eu, Z.eqb_refl, Q. cbn [orb andb negb].
           rewrite <- Q in Hlinks1 at 2. pose proof (head_not_found _ _ _ HF' Htl Hlinks1) as Hnf. rewrite Q in Hnf. rewrite Hnf. rewrite !Q. by cbn [orb andb negb].
        -- etransitivity; [apply setQueue_same|done].
        -- unfold without. rewrite filter_cons_False by (intros H; by apply H). fold (without t l). rewrite without_notin by done.
           replace (place t due (fun u => (taskAt s u).(dueTime)) l) with (place t due (fun u => (taskAt (setQueue s idx before) u).(dueTime)) l); [done|].
           by destruct s.
        -- intros j Hj Hjn. rewrite Hfr by (done || set_solver). rewrite queueAt_set by done. destruct (Z.eqb_spec j idx); set_solver.
    + cbn [relink]. rewrite Eu. assert ((u =? t) = false) as -> by (by apply Z.eqb_neq). cbn [orb andb negb]. rewrite Eu.
      assert ((SCHEDULER_TASK_MAX <? u) = false) as -> by (apply Z.ltb_ge; unfold is_task in Hu; lia).
      assert ((u <=? SCHEDULER_TASK_MAX) = true) as -> by (apply Z.leb_le; unfold is_task in Hu; lia). cbn [orb].
      unfold without. rewrite filter_cons_True by done. fold (without t l). cbn [place].
      destruct (due <? _) eqn:Edue; cbn [orb andb].
      * destruct (relink_behind l fuel s idx u) as (s' & E & Hs' & Hl & Hfr); try done; [cbn in Hf; lia|].
        exists s'. split_and!; try done.
      * destruct (IH fuel s u) as (s' & E & Hs' & Hl & Hfr); [by eapply wf_at_tail|cbn in Hf; lia|done..|].
        exists s'. split; [done|]. split; [done|]. split.
        -- cbn [links]. split; [|done]. rewrite Hfr; [done|done|]. set_solver.
        -- intros j Hj Hjn. apply Hfr; set_solver.
Qed.
End Relink.

(** ** The state between operations *)

Lemma unlink_exact t l : is_task t -> forall fuel s idx,
  wf_at t s idx l -> (S (length l) < fuel)%nat -> links (queueAt s) (queueAt s idx) l ->
  exists s', unlink fuel s t idx = Ret s' /\ same_tasks s s' /\ links (queueAt s') (queueAt s' idx) (without t l) /\
    forall j, is_slot j -> j ∉ idx :: l -> queueAt s' j = queueAt s j.
Proof.
  intros Ht. induction l as [|u l IH]; intros [|fuel] s idx Hwf Hf Hlinks; try (exfalso; cbn in Hf; lia); cbn [unlink];
    pose proof Hwf as (Hlen & Hidx & HF & HND & Hne);
    (assert ((SCHEDULER_TASK_MAX <? idx) = false) as -> by (apply Z.ltb_ge; unfold is_slot in Hidx; lia)); cbn [links] in Hlinks.
  - assert ((queueAt s idx =? t) = false) as -> by (apply Z.eqb_neq; unfold is_task in Ht; lia).
    destruct fuel; [cbn in Hf; lia|]. cbn [unlink].
    assert ((SCHEDULER_TASK_MAX <? queueAt s idx) = true) as -> by (by apply Z.ltb_lt). by exists s.
  - destruct Hlinks as [Eu Hlinks]. rewrite Eu. apply Forall_cons in HF as [Hu HF].
    assert (Hni : idx ∉ u :: l) by (by apply NoDup_cons in HND as [? _]).
    apply NoDup_cons in HND as [_ HND]. apply NoDup_cons in HND as [Hul HND]. rewrite Forall_forall in HF.
    destruct (Z.eqb_spec u t) as [->|Hut].
    + eexists. split; [done|]. split; [apply setQueue_same|]. split.
      * unfold without. rewrite filter_cons_False by (intros H; by apply H). fold (without t l). rewrite without_notin by done.
        rewrite queueAt_set, Z.eqb_refl by done. eapply links_ext, Hlinks. intros v Hv.
        rewrite queueAt_set by (done || apply task_slot, HF, Hv). destruct (Z.eqb_spec v idx); [set_solver|done].
      * intros j Hj Hjn. rewrite queueAt_set by done. destruct (Z.eqb_spec j idx); set_solver.
    + destruct (IH fuel s u) as (s' & E & Hs' & Hl & Hfr); [by eapply wf_at_tail|cbn in Hf; lia|done|].
      exists s'. split; [done|]. split; [done|]. split; [|intros j Hj Hjn; apply Hfr; set_solver].
      unfold without. rewrite filter_cons_True by done. cbn [links]. split; [|done]. rewrite Hfr; [done|done|]. set_solver.
Qed.

(** A scheduled task is due [batchedTicks] periods after its last update, which
    is past. *)
Definition task_ok (s : Scheduler) (u : Z) : Prop :=
  let k := taskAt s u in
  0 < k.(batchedTicks) < 2 ^ 32 /\ 0 < k.(period) /\ 0 <= k.(lastUpdate) <= s.(accTime) /\
  k.(dueTime) = k.(lastUpdate) + k.(batchedTicks) * k.(period) /\ k.(dueTime) < 2 ^ 64.

Definition by_due (s : Scheduler) (u v : Z) : Prop := (taskAt s u).(dueTime) <= (taskAt s v).(dueTime).

(** The queue holds [l], ordered. *)
Record queue_wf (s : Scheduler) (l : list Z) : Prop := mkQueueWf {
  qw_tasks : length s.(tasks) = 8%nat;
  qw_len : length s.(queueBuffer) = 9%nat;
  qw_links : links (queueAt s) (queueAt s (-1)) l;
  qw_is : Forall is_task l;
  qw_nodup : NoDup l;
  qw_sorted : StronglySorted (by_due s) l
}.

Record sched_wf (s : Scheduler) (l : list Z) : Prop := mkSchedWf {
  sw_queue : queue_wf s l;
  sw_in u : u ∈ l -> task_ok s u;
  sw_out u : is_task u -> u ∉ l -> (taskAt s u).(batchedTicks) = 0
}.

Lemma taskAt_set s t k u :
  length s.(tasks) = 8%nat -> is_task t -> is_task u ->
  taskAt (setTask s t k) u = if u =? t then k else taskAt s u.
Proof.
  unfold is_task, SCHEDULER_TASK_MAX. intros Hl Ht Hu. destruct s. unfold taskAt, setTask. cbn in *.
  rewrite aget_aset by lia. by rewrite Z.eqb_sym.
Qed.

Lemma elem_without t l u : u ∈ without t l <-> u <> t /\ u ∈ l.
Proof. unfold without. by rewrite list_elem_of_filter. Qed.

Lemma elem_place t due f l u : u ∈ place t due f l <-> u = t \/ u ∈ l.
Proof.
  induction l as [|v l IH]; cbn; [set_solver|]. destruct (due <? f v); [set_solver|].
  rewrite elem_of_cons, IH, elem_of_cons. tauto.
Qed.

Lemma without_sorted R t l : StronglySorted R l -> StronglySorted R (without t l).
Proof.
  unfold without. induction 1 as [|v l Hl IH Hv]; [constructor|].
  destruct (decide (v <> t)) as [Hne|Hne]; [rewrite filter_cons_True by done|by rewrite filter_cons_False by tauto].
  constructor; [done|]. rewrite Forall_forall in *. intros w Hw. apply Hv. by apply list_elem_of_filter in Hw as [_ ?].
Qed.

Lemma without_nodup t l : NoDup l -> NoDup (without t l).
Proof. apply NoDup_filter. Qed.

Lemma place_nodup t due f l : t ∉ l -> NoDup l -> NoDup (place t due f l).
Proof.
  intros Ht. induction 1 as [|v l Hv Hl IH]; cbn; [apply NoDup_singleton|].
  destruct (due <? f v); [by repeat (apply NoDup_cons; split; [set_solver|])|].
  apply NoDup_cons. split; [|apply IH; set_solver]. rewrite elem_place. set_solver.
Qed.

Lemma place_sorted (f : Z -> Z) t due l :
  f t = due -> StronglySorted (fun u v => f u <= f v) l ->
  StronglySorted (fun u v => f u <= f v) (place t due f l).
Proof.
  intros Ef. induction 1 as [|v l Hl IH Hv]; cbn; [repeat constructor|].
  destruct (Z.ltb_spec due (f v)).
  - constructor; [by constructor|]. apply Forall_cons. split; [lia|].
    eapply Forall_impl; [exact Hv|]. cbn. lia.
  - constructor; [done|]. rewrite Forall_forall in *. intros w [->|Hw]%elem_place; [lia|auto].
Qed.

Lemma length_le_8 l : Forall is_task l -> NoDup l -> (length l <= 8)%nat.
Proof.
  intros HF HN. assert (l ⊆ map Z.of_nat (seq 0 8)) as Hsub.
  { intros u Hu. rewrite Forall_forall in HF. apply HF in Hu. unfold is_task, SCHEDULER_TASK_MAX in Hu.
    apply list_elem_of_fmap. exists (Z.to_nat u). split; [lia|]. apply elem_of_seq. lia. }
  apply (NoDup_incl_length (l := l) (l' := map Z.of_nat (seq 0 8))).
  - clear -HN. induction HN as [|x l Hx Hl IH]; [constructor|]. constructor; [|done]. by rewrite <- list_elem_of_In.
  - intros u Hu. apply list_elem_of_In, Hsub, list_elem_of_In, Hu.
Qed.

Lemma sorted_ext (f g : Z -> Z) l :
  (forall u, u ∈ l -> f u = g u) ->
  StronglySorted (fun u v => f u <= f v) l -> StronglySorted (fun u v => g u <= g v) l.
Proof.
  intros E. induction 1 as [|v l Hl IH Hv]; [constructor|]. constructor; [apply IH; set_solver|].
  rewrite Forall_forall in *. intros w Hw. rewrite <- !E by set_solver. auto.
Qed.

Definition dueOf (s : Scheduler) (u : Z) : Z := (taskAt s u).(dueTime).

(** Task [t] changed to [k] and the links with it: what an operation does to the
    state, as the list [l'] sees it. *)
Record moved (s s' : Scheduler) (t : Z) (k : Task) (l' : list Z) : Prop := mkMoved {
  mv_queue : queue_wf s' l';
  mv_task u : is_task u -> taskAt s' u = if u =? t then k else taskAt s u;
  mv_time : s'.(accTime) = s.(accTime);
  mv_next : s'.(nextUpdate) = if bool_decide (l' = []) then u64 (s.(accTime) + one_sec) else dueOf s' (default 0 (head l'))
}.

Lemma setTask_links s t k idx : queueAt (setTask s t k) idx = queueAt s idx.
Proof. by destruct s. Qed.

Lemma next_of_head s l :
  queue_wf s l ->
  queue_wf (UpdateNextUpdate s) l /\ (forall u, taskAt (UpdateNextUpdate s) u = taskAt s u) /\
  (UpdateNextUpdate s).(accTime) = s.(accTime) /\
  (UpdateNextUpdate s).(nextUpdate) =
    if bool_decide (l = []) then u64 (s.(accTime) + one_sec) else dueOf (UpdateNextUpdate s) (default 0 (head l)).
Proof.
  intros [H1 H2 H3 H4 H5 H6]. unfold UpdateNextUpdate, dueOf. split_and!; [by destruct s|by destruct s|by destruct s|].
  destruct l as [|u l]; cbn [links] in H3.
  - rewrite bool_decide_eq_true_2 by done. assert ((queueAt s (-1) <=? SCHEDULER_TASK_MAX) = false) as -> by (by apply Z.leb_gt).
    by destruct s.
  - destruct H3 as [Eu _]. rewrite bool_decide_eq_false_2 by done. rewrite Eu.
    apply Forall_cons in H4 as [Hu _]. assert ((u <=? SCHEDULER_TASK_MAX) = true) as -> by (apply Z.leb_le; unfold is_task in Hu; lia).
    by destruct s.
Qed.

Lemma start_wf s l t k : queue_wf s l -> is_task t -> wf_at t (setTask s t k) (-1) l.
Proof.
  intros [H1 H2 H3 H4 H5 H6] Ht. split_and!; [by destruct s| |done| |unfold is_task in Ht; lia].
  - unfold is_slot, SCHEDULER_TASK_MAX. lia.
  - apply NoDup_cons. split; [|done]. rewrite Forall_forall in H4. intros Hin%H4. unfold is_task in Hin. lia.
Qed.

Lemma start_links s l t k :
  queue_wf s l -> links (queueAt (setTask s t k)) (queueAt (setTask s t k) (-1)) l.
Proof.
  intros [H1 H2 H3 H4 H5 H6]. rewrite setTask_links. eapply links_ext; [|exact H3].
  intros. symmetry. apply setTask_links.
Qed.

Lemma queue_fuel s l : queue_wf s l -> (S (length l) < queueFuel)%nat.
Proof. intros [H1 H2 H3 H4 H5 H6]. pose proof (length_le_8 l H4 H5). unfold queueFuel. lia. Qed.

Lemma others_sorted s l t k :
  queue_wf s l -> is_task t ->
  StronglySorted (fun u v => dueOf (setTask s t k) u <= dueOf (setTask s t k) v) (without t l).
Proof.
  intros [H1 H2 H3 H4 H5 H6] Ht. apply (sorted_ext (dueOf s)); [|by apply without_sorted].
  intros u [Hne Hu]%elem_without. unfold dueOf. rewrite Forall_forall in H4.
  rewrite taskAt_set by auto. by destruct (Z.eqb_spec u t).
Qed.

Lemma moved_intro s l t k l' s' :
  queue_wf s l -> is_task t -> same_tasks (setTask s t k) s' ->
  links (queueAt s') (queueAt s' (-1)) l' -> Forall is_task l' -> NoDup l' ->
  StronglySorted (fun u v => dueOf (setTask s t k) u <= dueOf (setTask s t k) v) l' ->
  moved s (UpdateNextUpdate s') t k l'.
Proof.
  intros [H1 H2 H3 H4 H5 H6] Ht Hs' L1 L2 L3 L4.
  assert (Htask : forall u, is_task u -> taskAt s' u = if u =? t then k else taskAt s u).
  { intros u Hu. rewrite (same_due _ _ u Hs'). by apply taskAt_set. }
  assert (queue_wf s' l') as Hq.
  { pose proof Hs' as [T1 T2 T3 T4]. split; try done.
    - rewrite T1. destruct s. cbn in *. by rewrite length_aset.
    - rewrite T4. by destruct s.
    - apply (sorted_ext (dueOf (setTask s t k))); [|done]. intros u Hu. unfold dueOf. by rewrite (same_due _ _ u Hs'). }
  destruct (next_of_head s' _ Hq) as (N1 & N2 & N3 & N4). destruct Hs' as [T1 T2 T3 T4].
  split; [done| | |].
  - intros u Hu. rewrite N2. auto.
  - rewrite N3, T2. by destruct s.
  - rewrite N4, T2. by destruct s.
Qed.

Lemma relinked s l t k :
  queue_wf s l -> is_task t ->
  let s1 := setTask s t k in
  exists s', relink queueFuel s1 t k.(dueTime) (queueAt s1 t) (-1) false false = Ret s' /\
    moved s (UpdateNextUpdate s') t k (place t k.(dueTime) (dueOf s1) (without t l)).
Proof.
  intros Hq Ht s1.
  destruct (relink_exact t k.(dueTime) (queueAt s1 t) Ht l queueFuel s1 (-1)) as (s' & E & Hs' & Hl & _);
    [by apply start_wf|by eapply queue_fuel|by apply start_links|done|].
  exists s'. split; [done|]. pose proof Hq as [_ _ _ H4 H5 _]. eapply moved_intro; try done.
  - rewrite Forall_forall in *. intros u [->|Hu]%elem_place; [done|]. apply H4. by apply elem_without in Hu as [_ ?].
  - apply place_nodup; [rewrite elem_without; tauto|by apply without_nodup].
  - apply place_sorted; [|by apply others_sorted]. unfold dueOf, s1. pose proof Hq.(qw_tasks _ _).
    by rewrite taskAt_set, Z.eqb_refl by done.
Qed.

Lemma unscheduled s l t :
  queue_wf s l -> is_task t ->
  exists s', UnscheduleTask s t = Ret s' /\ moved s s' t { taskAt s t with batchedTicks := 0 } (without t l).
Proof.
  intros Hq Ht. unfold UnscheduleTask. set (k := { taskAt s t with batchedTicks := 0 }).
  destruct (unlink_exact t l Ht queueFuel (setTask s t k) (-1)) as (s' & E & Hs' & Hl & _);
    [by apply start_wf|by eapply queue_fuel|by apply start_links|].
  rewrite E. cbn [mbind outcome_bind]. eexists. split; [done|]. pose proof Hq as [_ _ _ H4 H5 _].
  eapply moved_intro; try done; [|by apply without_nodup|by apply others_sorted].
  rewrite Forall_forall in *. intros u Hu. apply H4. by apply elem_without in Hu as [_ ?].
Qed.

(** ** Operations on a well-formed state *)

(** Well-formed but for task [t], which an operation is about to set. *)
Record wf_but (s : Scheduler) (l : list Z) (t : Z) : Prop := mkWfBut {
  wb_queue : queue_wf s l;
  wb_in u : u ∈ l -> u <> t -> task_ok s u;
  wb_out u : is_task u -> u <> t -> u ∉ l -> (taskAt s u).(batchedTicks) = 0
}.

Lemma wf_wf_but s l t : sched_wf s l -> wf_but s l t.
Proof. intros [H1 H2 H3]. split; auto. Qed.

Lemma place_ext t due f g l : (forall u, u ∈ l -> f u = g u) -> place t due f l = place t due g l.
Proof.
  induction l as [|v l IH]; intros E; [done|]. cbn. rewrite <- E by set_solver. destruct (due <? f v); [done|].
  f_equal. apply IH. set_solver.
Qed.

Lemma moved_wf s s' t k l l' :
  wf_but s l t -> is_task t -> moved s s' t k l' -> (forall u, u <> t -> u ∈ l' <-> u ∈ l) ->
  (t ∈ l' -> task_ok s' t) -> (t ∉ l' -> k.(batchedTicks) = 0) -> sched_wf s' l'.
Proof.
  intros [Hq Hin Hout] Ht [Mq Mt Ma _] Hl Hk1 Hk0. split; [done| |].
  - intros u Hu. destruct (decide (u = t)) as [->|Hne]; [auto|].
    assert (is_task u) by (pose proof Mq.(qw_is _ _) as HF; rewrite Forall_forall in HF; auto).
    unfold task_ok. rewrite Mt, Ma by done. assert ((u =? t) = false) as -> by (by apply Z.eqb_neq).
    apply Hin; [by apply Hl|done].
  - intros u Hu Hn. rewrite Mt by done. destruct (Z.eqb_spec u t) as [->|Hne]; [auto|]. apply Hout; [done|done|].
    by rewrite <- Hl.
Qed.

Lemma unschedule_wf s l t :
  wf_but s l t -> is_task t ->
  exists s', UnscheduleTask s t = Ret s' /\ sched_wf s' (without t l) /\
    moved s s' t { taskAt s t with batchedTicks := 0 } (without t l).
Proof.
  intros H Ht. destruct (unscheduled s l t H.(wb_queue _ _ _) Ht) as (s' & E & M). exists s'. split; [done|]. split; [|done].
  eapply moved_wf; try done.
  - intros u Hu. rewrite elem_without. tauto.
  - rewrite elem_without. tauto.
Qed.

(** The new values of a rescheduled task. *)
Definition newLast (s : Scheduler) (k : Task) : Z :=
  if k.(batchedTicks) =? 0 then s.(accTime) - (s.(accTime) - k.(dueTime)) mod k.(period) else k.(lastUpdate).
Definition newBatch (atLeast : bool) (s : Scheduler) (k : Task) (b : Z) : Z :=
  if atLeast then Z.max b ((s.(accTime) - k.(lastUpdate)) / k.(period)) else b.
Definition rescheduled (atLeast : bool) (s : Scheduler) (k : Task) (b : Z) : Task :=
  let b' := newBatch atLeast s k b in
  mkTask b' k.(period) (newLast s k) (newLast s k + b' * k.(period)).

(** The times of a task that is rescheduled: past, and close enough. *)
Record can_reschedule (atLeast : bool) (s : Scheduler) (k : Task) (b : Z) : Prop := mkCan {
  cr_b : 0 < b < 2 ^ 32;
  cr_period : 0 < k.(period);
  cr_acc : is_u 64 s.(accTime);
  cr_last : 0 <= k.(lastUpdate) <= s.(accTime);
  cr_due : k.(batchedTicks) = 0 -> 0 <= k.(dueTime) <= s.(accTime);
  cr_new : newBatch atLeast s k b < 2 ^ 32 /\ (rescheduled atLeast s k b).(dueTime) < 2 ^ 64
}.

Lemma reschedule_wf atLeast s l t b :
  wf_but s l t -> is_task t -> can_reschedule atLeast s (taskAt s t) b ->
  let k := rescheduled atLeast s (taskAt s t) b in
  let l' := place t k.(dueTime) (dueOf s) (without t l) in
  exists s', RescheduleTaskImpl atLeast s t b = Ret s' /\ sched_wf s' l' /\ moved s s' t k l'.
Proof.
  intros H Ht [[Hb1 Hb2] Hp [Ha1 Ha2] [Hl1 Hl2] Hd [Hn1 Hn2]] k l'.
  unfold RescheduleTaskImpl. set (k0 := taskAt s t) in *.
  assert ((b =? 0) = false) as -> by (apply Z.eqb_neq; lia).
  assert ((k0.(period) =? 0) = false) as -> by (apply Z.eqb_neq; lia). cbn [andb].
  assert (Elapsed : u64 (s.(accTime) - k0.(lastUpdate)) = s.(accTime) - k0.(lastUpdate)) by (apply wrap_small; unfold is_u; lia).
  rewrite Elapsed.
  assert (Hq : 0 <= (s.(accTime) - k0.(lastUpdate)) / k0.(period)) by (apply Z.div_pos; lia).
  assert (Eb : (if atLeast && (b <? (s.(accTime) - k0.(lastUpdate)) / k0.(period))
                then u32 ((s.(accTime) - k0.(lastUpdate)) / k0.(period)) else b) = newBatch atLeast s k0 b).
  { unfold newBatch in *. destruct atLeast; cbn [andb]; [|done].
    destruct (Z.ltb_spec b ((s.(accTime) - k0.(lastUpdate)) / k0.(period))); [|lia].
    rewrite wrap_small by (unfold is_u; lia). lia. }
  assert (El : (if k0.(batchedTicks) =? 0
      then u64 (u64 (s.(accTime) - k0.(dueTime)) / k0.(period) * k0.(period) + k0.(dueTime)) else k0.(lastUpdate)) = newLast s k0).
  { unfold newLast. destruct (Z.eqb_spec k0.(batchedTicks) 0) as [E0|]; [|done]. specialize (Hd E0).
    rewrite (wrap_small 64 (_ - _)) by (unfold is_u; lia).
    pose proof (Z.div_mod (s.(accTime) - k0.(dueTime)) k0.(period) ltac:(lia)).
    pose proof (Z.mod_pos_bound (s.(accTime) - k0.(dueTime)) k0.(period) Hp).
    pose proof (Z.div_pos (s.(accTime) - k0.(dueTime)) k0.(period) ltac:(lia) Hp).
    rewrite wrap_small; unfold is_u; nia. }
  assert (Hlast : 0 <= newLast s k0 <= s.(accTime)).
  { unfold newLast in *. destruct (Z.eqb_spec k0.(batchedTicks) 0) as [E0|]; [|lia]. specialize (Hd E0).
    pose proof (Z.mod_pos_bound (s.(accTime) - k0.(dueTime)) k0.(period) Hp).
    pose proof (Z.mod_le (s.(accTime) - k0.(dueTime)) k0.(period) ltac:(lia) Hp). lia. }
  assert (Hb' : 0 < newBatch atLeast s k0 b) by (unfold newBatch in *; destruct atLeast; lia).
  rewrite El, Eb. unfold rescheduled in Hn2. cbn in Hn2.
  rewrite (wrap_small 64 (newLast s k0 + _)) by (unfold is_u; nia).
  destruct (relinked s l t k H.(wb_queue _ _ _) Ht) as (s' & E & M). cbv zeta in E.
  change (mkTask (newBatch atLeast s k0 b) k0.(period) (newLast s k0) (newLast s k0 + newBatch atLeast s k0 b * k0.(period))) with k.
  rewrite setTask_links in E. change (newLast s k0 + newBatch atLeast s k0 b * k0.(period)) with k.(dueTime).
  rewrite setTask_links, E. cbn [mbind outcome_bind]. eexists. split; [done|].
  assert (El' : place t k.(dueTime) (dueOf (setTask s t k)) (without t l) = l').
  { apply place_ext. intros u [Hne Hu]%elem_without. unfold dueOf. pose proof H.(wb_queue _ _ _) as [Q1 _ _ Q4 _ _].
    rewrite Forall_forall in Q4. rewrite taskAt_set by auto. by destruct (Z.eqb_spec u t). }
  rewrite El' in M. split; [|done]. eapply moved_wf; try done.
  - intros u Hu. unfold l'. rewrite elem_place, elem_without. tauto.
  - intros _. unfold task_ok. rewrite (mv_task _ _ _ _ _ M), (mv_time _ _ _ _ _ M), Z.eqb_refl by done. unfold k, rescheduled. cbn. lia.
  - intros Hn. exfalso. apply Hn. unfold l'. rewrite elem_place. by left.
Qed.
