(* ===== verification/SchedAdvance.v ===== *)
(** * Advancing the scheduler

    The loop of [Scheduler::Advance] against a delegate that may call the
    scheduler itself: it ends, it serves the earliest task, and the ticks it
    delivers are those of the time that passed. *)

From Stdlib Require Import Sorted.
From S2P Require Import Prelude Scheduler.

Definition lastOf (s : Scheduler) (u : Z) : Z := (taskAt s u).(lastUpdate).

Definition all_tasks : list Z := [0; 1; 2; 3; 4; 5; 6; 7].

Lemma all_tasks_in u : u ∈ all_tasks <-> is_task u.
Proof.
  unfold is_task, SCHEDULER_TASK_MAX. split.
  - intros H. repeat (apply elem_of_cons in H as [->|H]; [lia|]). by apply elem_of_nil in H.
  - intros H. unfold all_tasks. rewrite !elem_of_cons. lia.
Qed.

(** The time, summed over the tasks, that has not been served. *)
Definition pending (s : Scheduler) : Z :=
  foldr (fun u a => Z.max 0 (s.(accTime) - lastOf s u) + a) 0 all_tasks.

Lemma sum_le (f g : Z -> Z) l :
  (forall u, u ∈ l -> f u <= g u) -> foldr (fun u a => f u + a) 0 l <= foldr (fun u a => g u + a) 0 l.
Proof. induction l as [|v l IH]; intros H; cbn; [done|]. pose proof (H v ltac:(set_solver)). pose proof (IH ltac:(set_solver)). lia. Qed.

Lemma sum_lt (f g : Z -> Z) l t :
  (forall u, u ∈ l -> f u <= g u) -> t ∈ l -> f t < g t ->
  foldr (fun u a => f u + a) 0 l < foldr (fun u a => g u + a) 0 l.
Proof.
  induction l as [|v l IH]; intros H Ht Hlt; cbn; [by apply elem_of_nil in Ht|].
  apply elem_of_cons in Ht as [->|Ht].
  - pose proof (sum_le f g l ltac:(set_solver)). lia.
  - pose proof (H v ltac:(set_solver)). pose proof (IH ltac:(set_solver) Ht Hlt). lia.
Qed.

Lemma pending_nonneg s : 0 <= pending s.
Proof.
  unfold pending. induction all_tasks as [|u l IH]; cbn; [done|]. lia.
Qed.

Section Delegate.
Context {W : Type} (DispatchTicks : W -> Scheduler -> Z -> Z -> outcome (Z * W * Scheduler)).

(** What the delegate's state keeps up with the scheduler. *)
Context (I : W -> Scheduler -> Prop).

(** What a delegate may do to the scheduler while it serves [t]: reschedule the
    other tasks, and [t] itself as long as it remains due. *)
Record served (s s' : Scheduler) (l' : list Z) (t b : Z) : Prop := mkServed {
  sv_wf : sched_wf s' l';
  sv_time : s'.(accTime) = s.(accTime);
  sv_last u : is_task u -> lastOf s u <= lastOf s' u;
  sv_in : t ∈ l';
  sv_period : (taskAt s' t).(period) = (taskAt s t).(period);
  sv_now : lastOf s t < dueOf s' t <= s.(accTime);
  sv_ticks : 0 <= b < 2 ^ 32;
  sv_due : dueOf s' t + b * (taskAt s t).(period) < 2 ^ 64
}.

(** What a turn of the loop leaves of the task it served. *)
Definition servedTask (k : Task) (b : Z) : Task :=
  if b =? 0 then mkTask 0 k.(period) k.(dueTime) k.(dueTime)
  else mkTask b k.(period) k.(dueTime) (k.(dueTime) + b * k.(period)).

(** The state at the end of the turn. *)
Definition turnEnds (s s' : Scheduler) (t b : Z) : Prop :=
  s'.(accTime) = s.(accTime) /\
  forall u, is_task u -> taskAt s' u = if u =? t then servedTask (taskAt s t) b else taskAt s u.

(** No period exceeds [P]. *)
Definition periods_below (P : Z) (s : Scheduler) : Prop := forall u, is_task u -> (taskAt s u).(period) <= P.

(** At the time [A] and with periods up to [P], the delegate serves the earliest
    task and returns. *)
Definition delegate_ok (A P : Z) : Prop := forall w s t r,
  I w s -> sched_wf s (t :: r) -> s.(accTime) = A -> dueOf s t <= A -> periods_below P s ->
  exists b w' s' l', DispatchTicks w s t (taskAt s t).(batchedTicks) = Ret (b, w', s') /\
    served s s' l' t b /\ periods_below P s' /\ forall s'', turnEnds s' s'' t b -> I w' s''.

(** A task that has been served up to its due time. *)
Lemma setTask_last s l t :
  sched_wf s l -> is_task t ->
  wf_but (setTask s t { taskAt s t with lastUpdate := dueOf s t }) l t.
Proof.
  intros [Hq Hin Hout] Ht. set (k := { taskAt s t with lastUpdate := dueOf s t }).
  assert (Htask : forall u, is_task u -> taskAt (setTask s t k) u = if u =? t then k else taskAt s u)
    by (intros; by apply taskAt_set; [apply Hq| |]).
  pose proof Hq as [Q1 Q2 Q3 Q4 Q5 Q6].
  assert (forall u, u ∈ l -> is_task u) as Hl by (by rewrite Forall_forall in Q4).
  split.
  - split; [| |by apply start_links|done|done|].
    + destruct s. cbn in *. by rewrite length_aset.
    + by destruct s.
    + apply (sorted_ext (dueOf s)); [|done]. intros u Hu. unfold dueOf. rewrite Htask by auto.
      destruct (Z.eqb_spec u t) as [->|]; [|done]. unfold k. by destruct (taskAt s t).
  - intros u Hu Hne. unfold task_ok. rewrite Htask by auto. assert ((u =? t) = false) as -> by (by apply Z.eqb_neq).
    destruct (Hin u Hu) as (T1 & T2 & T3 & T4 & T5). by destruct s.
  - intros u Hu Hne Hn. rewrite Htask by done. assert ((u =? t) = false) as -> by (by apply Z.eqb_neq). auto.
Qed.

Lemma rescheduled_running s k b :
  k.(batchedTicks) <> 0 ->
  rescheduled false s k b = mkTask b k.(period) k.(lastUpdate) (k.(lastUpdate) + b * k.(period)).
Proof. intros H. unfold rescheduled, newLast, newBatch. by apply Z.eqb_neq in H as ->. Qed.

(** The end of a turn: the task is rescheduled from its due time. *)
Lemma finish_turn s s1 l1 t b :
  is_task t -> task_ok s t -> s.(accTime) < 2 ^ 64 -> dueOf s t <= s.(accTime) -> served s s1 l1 t b ->
  let k := { taskAt s1 t with lastUpdate := dueOf s1 t } in
  exists s' l', RescheduleTaskImpl false (setTask s1 t k) t b = Ret s' /\ sched_wf s' l' /\ turnEnds s1 s' t b.
Proof.
  intros Ht (T1 & T2 & T3 & T4 & T5) Hacc Hdue [S1 S2 S3 S4 Sp S5 S6 S7] k.
  pose proof (setTask_last s1 l1 t S1 Ht) as Hbut. fold k in Hbut.
  pose proof S1.(sw_queue _ _).(qw_tasks _ _) as Hlen.
  destruct (S1.(sw_in _ _) t S4) as (U1 & U2 & U3 & U4 & U5).
  assert (Hk : taskAt (setTask s1 t k) t = mkTask (taskAt s1 t).(batchedTicks) (taskAt s1 t).(period) (dueOf s1 t) (dueOf s1 t)).
  { rewrite taskAt_set, Z.eqb_refl by done. unfold k, dueOf. by destruct (taskAt s1 t). }
  assert (exists s' l', RescheduleTaskImpl false (setTask s1 t k) t b = Ret s' /\ sched_wf s' l' /\
    moved (setTask s1 t k) s' t (servedTask (taskAt s1 t) b) l') as (s' & l' & E & Hwf & M).
  { unfold servedTask. destruct (Z.eqb_spec b 0) as [->|Hb].
    - destruct (unschedule_wf _ _ _ Hbut Ht) as (s' & E & W' & M). exists s', (without t l1). split; [done|]. split; [done|].
      rewrite Hk in M. exact M.
    - destruct (reschedule_wf false _ _ t b Hbut Ht) as (s' & E & W' & M).
      + rewrite Hk. unfold dueOf, lastOf in *. split; cbn -[rescheduled]; try lia.
        * split; destruct s1; cbn in *; lia.
        * destruct s1; cbn in *. lia.
        * rewrite rescheduled_running by (cbn; lia). unfold newBatch. cbn. lia.
      + rewrite Hk, rescheduled_running in M, W' by (cbn; lia). eexists s', _. split; [done|]. split; [exact W'|exact M]. }
  exists s', l'. split; [done|]. split; [done|]. split.
  - rewrite (mv_time _ _ _ _ _ M). by destruct s1.
  - intros u Hu. rewrite (mv_task _ _ _ _ _ M) by done. destruct (u =? t) eqn:Eu; [done|]. by rewrite taskAt_set, Eu by done.
Qed.

(** One turn of the loop. *)
Lemma dispatch_step A P w s t r :
  delegate_ok A P -> A < 2 ^ 64 -> I w s -> sched_wf s (t :: r) -> s.(accTime) = A -> dueOf s t <= A -> periods_below P s ->
  exists b w' s1 l1 s' l',
    DispatchTicks w s t (taskAt s t).(batchedTicks) = Ret (b, w', s1) /\ served s s1 l1 t b /\
    dispatchHead DispatchTicks w s = Ret (Some (w', s')) /\ I w' s' /\ sched_wf s' l' /\ s'.(accTime) = A /\
    turnEnds s1 s' t b /\ periods_below P s' /\ pending s' < pending s.
Proof.
  intros Hdel HA HI Hwf Hacc Hdue HP. destruct (Hdel w s t r HI Hwf Hacc Hdue HP) as (b & w' & s1 & l1 & E & Hserved & HP1 & HI').
  pose proof Hwf as [Hq Hin Hout]. pose proof Hq as [_ _ Q3 Q4 _ _]. apply Forall_cons in Q4 as [Ht _].
  cbn [links] in Q3. destruct Q3 as [Eh _].
  pose proof (Hin t ltac:(set_solver)) as Hok. pose proof Hok as (T1 & T2 & T3 & T4 & T5).
  destruct (finish_turn s s1 l1 t b Ht Hok ltac:(lia) ltac:(lia) Hserved) as (s' & l' & E' & W' & Hend).
  exists b, w', s1, l1, s', l'. pose proof Hserved as [S1 S2 S3 S4 Sp S5 S6 S7]. pose proof Hend as [Ha Htasks].
  destruct (S1.(sw_in _ _) t S4) as (U1 & U2 & U3 & U4 & U5).
  split; [done|]. split; [done|]. split; [|split; [auto|split; [done|split; [congruence|split; [done|split]]]]].
  - unfold dispatchHead. rewrite Eh. assert ((SCHEDULER_TASK_MAX <? t) = false) as -> by (apply Z.ltb_ge; unfold is_task in Ht; lia).
    fold (dueOf s t). assert ((s.(accTime) <? dueOf s t) = false) as -> by (apply Z.ltb_ge; lia).
    rewrite E. cbn [mbind outcome_bind]. assert (u64 (lastUpdate (taskAt s1 t) + batchedTicks (taskAt s1 t) * period (taskAt s1 t)) = dueOf s1 t) as ->.
    { unfold dueOf. rewrite U4, wrap_small; [done|]. unfold is_u. rewrite <- U4. nia. }
    rewrite E'. done.
  - intros u Hu. rewrite Htasks by done. destruct (Z.eqb_spec u t) as [->|]; [|auto].
    specialize (HP1 t Ht). unfold servedTask. by destruct (b =? 0).
  - unfold pending. apply sum_lt with (t := t); [|by apply all_tasks_in|].
    + intros u Hu%all_tasks_in. specialize (S3 u Hu). unfold lastOf in *. rewrite Ha, S2, Htasks by done.
      destruct (Z.eqb_spec u t) as [->|]; [|lia]. unfold servedTask, dueOf in *. destruct (b =? 0); cbn; nia.
    + unfold lastOf in *. rewrite Ha, S2, Htasks, Z.eqb_refl by done. unfold servedTask, dueOf in *. destruct (b =? 0); cbn; nia.
Qed.

Definition turn (x y : W * Scheduler) : Prop := dispatchHead DispatchTicks x.1 x.2 = Ret (Some y).

(** The loop ends, after at most [pending s] turns, and nothing is due then. *)
Lemma loop_ends A P fuel : delegate_ok A P -> A < 2 ^ 64 -> forall w s l,
  I w s -> sched_wf s l -> s.(accTime) = A -> periods_below P s -> pending s < Z.of_nat fuel ->
  exists w' s' l', dispatchLoop DispatchTicks fuel w s = Ret (w', s') /\ rtc turn (w, s) (w', s') /\ I w' s' /\
    sched_wf s' l' /\ s'.(accTime) = A /\ periods_below P s' /\ forall u, u ∈ l' -> A < dueOf s' u.
Proof.
  intros Hdel HA. induction fuel as [|fuel IH]; intros w s l HI Hwf Hacc HP Hf; [pose proof (pending_nonneg s); lia|].
  cbn [dispatchLoop]. pose proof Hwf as [[Q1 Q2 Q3 Q4 Q5 Q6] Hin Hout].
  destruct l as [|t r]; cbn [links] in Q3.
  - unfold dispatchHead. assert ((SCHEDULER_TASK_MAX <? queueAt s (-1)) = true) as -> by (by apply Z.ltb_lt).
    cbn [mbind outcome_bind]. exists w, s, []. split_and!; try done. intros u Hu. by apply elem_of_nil in Hu.
  - destruct Q3 as [Eh Q3]. destruct (Z.lt_ge_cases A (dueOf s t)) as [Hlate|Hdue].
    + unfold dispatchHead. rewrite Eh. pose proof Q4 as [Ht _]%Forall_cons.
      assert ((SCHEDULER_TASK_MAX <? t) = false) as -> by (apply Z.ltb_ge; unfold is_task in Ht; lia).
      fold (dueOf s t). assert ((s.(accTime) <? dueOf s t) = true) as -> by (apply Z.ltb_lt; lia).
      cbn [mbind outcome_bind]. exists w, s, (t :: r). split_and!; try done.
      intros u [->|Hu]%elem_of_cons; [done|]. apply StronglySorted_inv in Q6 as [_ Q6]. rewrite Forall_forall in Q6.
      specialize (Q6 u Hu). unfold by_due, dueOf in *. lia.
    + destruct (dispatch_step A P w s t r Hdel HA HI Hwf Hacc Hdue HP)
        as (b & w1 & s1 & l1 & s2 & l2 & _ & _ & E & HI2 & Hwf2 & Hacc2 & _ & HP2 & Hlt).
      rewrite E. cbn [mbind outcome_bind]. destruct (IH w1 s2 l2 HI2 Hwf2 Hacc2 HP2 ltac:(lia)) as (w' & s' & l' & E' & Hrtc & H').
      exists w', s', l'. split; [done|]. split; [|done]. by eapply rtc_l.
Qed.
End Delegate.

(** ** A reschedule *)

(** What a request leaves of the task, and the queue. *)
Definition requested (atLeast : bool) (s : Scheduler) (t b : Z) : Task :=
  if b =? 0 then { taskAt s t with batchedTicks := 0 } else rescheduled atLeast s (taskAt s t) b.
Definition requestedQueue (atLeast : bool) (s : Scheduler) (t b : Z) (l : list Z) : list Z :=
  if b =? 0 then without t l
  else place t (requested atLeast s t b).(dueTime) (dueOf s) (without t l).

(** C22. [RescheduleTask], [RescheduleTaskAtLeast] and [UnscheduleTask] implement
    an ordered queue. On a well-formed scheduler the walk over the links ends; it
    leaves exactly the list with the task taken out and, when ticks are asked
    for, inserted before the first task that is due later; the task's new times
    are aligned to its period; no other task changes and [nextUpdate] is the due
    time of the first. *)
Theorem scheduler_reschedule_exact (atLeast : bool) (s : Scheduler) (l : list Z) (t b : Z)
  (Hwf : sched_wf s l) (Ht : is_task t) (Hb : b = 0 \/ can_reschedule atLeast s (taskAt s t) b) :
  exists s', RescheduleTaskImpl atLeast s t b = Ret s' /\
    sched_wf s' (requestedQueue atLeast s t b l) /\
    moved s s' t (requested atLeast s t b) (requestedQueue atLeast s t b l).
Proof.
  unfold requestedQueue, requested. destruct (Z.eqb_spec b 0) as [->|Hne].
  - destruct (unschedule_wf s l t (wf_wf_but _ _ _ Hwf) Ht) as (s' & E & Hwf' & M). by exists s'.
  - destruct Hb as [|Hb]; [done|].
    destruct (reschedule_wf atLeast s l t b (wf_wf_but _ _ _ Hwf) Ht Hb) as (s' & E & Hwf' & M). by exists s'.
Qed.

(** ** Time passes *)

Definition elapse (s : Scheduler) (d : Z) : Scheduler := { s with accTime ::= fun t => t + d }.

(** [nextUpdate] is the first due time. *)
Definition next_ok (s : Scheduler) (l : list Z) : Prop := forall t, head l = Some t -> s.(nextUpdate) = dueOf s t.

Lemma elapse_task s d u : taskAt (elapse s d) u = taskAt s u.
Proof. by destruct s. Qed.

Lemma elapse_wf s l d : 0 <= d -> sched_wf s l -> sched_wf (elapse s d) l.
Proof.
  intros Hd [[Q1 Q2 Q3 Q4 Q5 Q6] Hin Hout]. split.
  - by destruct s.
  - intros u Hu. destruct (Hin u Hu) as (T1 & T2 & T3 & T4 & T5). unfold task_ok. rewrite elapse_task.
    split_and!; try done; destruct s; cbn in *; lia.
  - intros u. rewrite elapse_task. auto.
Qed.

Section Advance.
Context {W : Type} (DispatchTicks : W -> Scheduler -> Z -> Z -> outcome (Z * W * Scheduler)).
Context (I : W -> Scheduler -> Prop).
Context (I_ext : forall w s s', s'.(accTime) = s.(accTime) -> (forall u, taskAt s' u = taskAt s u) -> I w s -> I w s').

(** The time after [Advance]. *)
Definition later (s : Scheduler) (cycles cyclesPerSecond : Z) : Z :=
  s.(accTime) + cycles * one_sec / cyclesPerSecond.

(** Nothing overflows. *)
Record can_advance (s : Scheduler) (cycles cyclesPerSecond : Z) : Prop := mkCanAdvance {
  ca_cycles : 0 <= cycles * one_sec < 2 ^ 64;
  ca_cps : 0 < cyclesPerSecond;
  ca_acc : 0 <= s.(accTime);
  ca_time : later s cycles cyclesPerSecond < 2 ^ 64
}.

Lemma advance_time s c cps :
  can_advance s c cps ->
  { s with accTime ::= fun t => u64 (t + u64 (c * one_sec) / cps) } = elapse s (c * one_sec / cps) /\
  0 <= c * one_sec / cps.
Proof.
  intros [[H1 H1'] H2 H3 H4]. unfold later in H4.
  assert (0 <= c * one_sec / cps) by (apply Z.div_pos; lia). split; [|done].
  destruct s as [ts q a n]. unfold elapse. cbn -[wrap one_sec Z.pow] in *. f_equal.
  rewrite (wrap_small 64 (c * one_sec)) by (unfold is_u; lia). apply wrap_small. unfold is_u. lia.
Qed.

(** [Advance] returns, and nothing that is due remains. *)
Lemma advance_ends P fuel w s l c cps :
  let A := later s c cps in
  can_advance s c cps -> delegate_ok DispatchTicks I A P -> I w (elapse s (c * one_sec / cps)) ->
  sched_wf s l -> next_ok s l -> periods_below P s ->
  pending (elapse s (c * one_sec / cps)) < Z.of_nat fuel ->
  exists w' s' s'' l', Advance DispatchTicks fuel w s c cps = Ret (w', s') /\
    rtc (turn DispatchTicks) (w, elapse s (c * one_sec / cps)) (w', s'') /\ (forall u, taskAt s' u = taskAt s'' u) /\
    I w' s' /\ periods_below P s' /\ sched_wf s' l' /\ next_ok s' l' /\ s'.(accTime) = A /\ forall u, u ∈ l' -> A < dueOf s' u.
Proof.
  intros A Hc Hd HI Hwf Hn HP Hf. destruct (advance_time s c cps Hc) as [E Hpos]. unfold Advance. rewrite E.
  set (s1 := elapse s _) in *. pose proof (elapse_wf s l _ Hpos Hwf) as Hwf1. fold s1 in Hwf1.
  assert (Ha : s1.(accTime) = A) by (by destruct s). destruct Hc as [_ _ _ HA].
  destruct (Z.ltb_spec s1.(accTime) s1.(nextUpdate)) as [Hlt|Hge].
  - exists w, s1, s1, l. assert (HP1 : periods_below P s1) by (intros u; unfold s1; rewrite elapse_task; auto).
    do 8 (split; [first [done|constructor]|]). intros u Hu. destruct l as [|t r]; [by apply elem_of_nil in Hu|].
    specialize (Hn t eq_refl). assert (s1.(nextUpdate) = dueOf s1 t) as Hn1 by (by destruct s).
    destruct Hwf1 as [[_ _ _ _ _ Q6] _ _]. apply StronglySorted_inv in Q6 as [_ Q6]. rewrite Forall_forall in Q6.
    apply elem_of_cons in Hu as [->|Hu]; [lia|]. specialize (Q6 u Hu). unfold by_due, dueOf in *. lia.
  - destruct (loop_ends DispatchTicks I A P fuel Hd HA w s1 l HI Hwf1 Ha) as (w' & s2 & l' & E2 & R & HI2 & Hwf2 & Ha2 & HP2 & Hlate).
    { intros u. unfold s1. rewrite elapse_task. auto. }
    { done. }
    rewrite E2. cbn [mbind outcome_bind]. destruct Hwf2 as [Hq Hin Hout].
    destruct (next_of_head s2 l' Hq) as (N1 & N2 & N3 & N4).
    exists w', (UpdateNextUpdate s2), s2, l'. split; [done|]. split; [done|]. split; [done|].
    split; [by apply (I_ext w' s2)|]. split; [intros u; rewrite N2; auto|].
    split; [|split; [|split; [congruence|]]].
    + split; [done| |].
      * intros u Hu. specialize (Hin u Hu). unfold task_ok in *. by rewrite N2, N3.
      * intros u. rewrite N2. auto.
    + intros t Ht. rewrite N4. destruct l'; [done|]. rewrite bool_decide_eq_false_2 by done. cbn in Ht |- *. by injection Ht as ->.
    + intros u Hu. unfold dueOf. rewrite N2. exact (Hlate u Hu).
Qed.
End Advance.

(** [Advance] ends and leaves nothing due. Whatever batch each dispatched
    task asks for next, and although a delegate may reschedule the tasks, its own
    included, while it runs, the loop terminates within a number of turns bounded by the
    time to serve; the scheduler is well-formed again, [nextUpdate] is the due
    time of the first task, and every scheduled task is due after the new time. *)
Theorem advance_serves_all {W} (DispatchTicks : W -> Scheduler -> Z -> Z -> outcome (Z * W * Scheduler))
  (P : Z) (fuel : nat) (w : W) (s : Scheduler) (l : list Z) (c cps : Z)
  (Hc : can_advance s c cps) (Hd : delegate_ok DispatchTicks (fun _ _ => True) (later s c cps) P)
  (Hwf : sched_wf s l) (Hn : next_ok s l) (HP : periods_below P s)
  (Hf : pending (elapse s (c * one_sec / cps)) < Z.of_nat fuel) :
  exists w' s' l', Advance DispatchTicks fuel w s c cps = Ret (w', s') /\
    sched_wf s' l' /\ next_ok s' l' /\ s'.(accTime) = later s c cps /\
    forall u, u ∈ l' -> later s c cps < dueOf s' u.
Proof.
  destruct (advance_ends DispatchTicks (fun _ _ => True) ltac:(done) P fuel w s l c cps Hc Hd ltac:(done) Hwf Hn HP Hf)
    as (w' & s' & s'' & l' & E & _ & _ & _ & _ & H'). by exists w', s', l'.
Qed.

(** ** The ticks delivered *)

Section Deliver.
Context {W : Type} (tick : W -> Z -> Z -> W) (next : W -> Z -> Z -> Z) (B : Z).
Hypothesis next_bound : forall w t n, 0 <= next w t n <= B.
Hypothesis B_bound : 0 <= B < 2 ^ 32.

(** A delegate that leaves the scheduler alone, with the log of its calls. *)
Definition logged (w : W * list (Z * Z)) (s : Scheduler) (t n : Z) : outcome (Z * (W * list (Z * Z)) * Scheduler) :=
  Ret (next w.1 t n, (tick w.1 t n, (t, n) :: w.2), s).

Definition delivered (log : list (Z * Z)) (u : Z) : Z :=
  foldr (fun e a => (if e.1 =? u then e.2 else 0) + a) 0 log.

Lemma logged_ok A P : 0 <= P -> A + B * P < 2 ^ 64 -> delegate_ok logged (fun _ _ => True) A P.
Proof.
  intros HP0 HA w s t r _ Hwf Hacc Hdue HP. pose proof (next_bound w.1 t (taskAt s t).(batchedTicks)) as Hb.
  eexists _, _, s, (t :: r). split; [done|]. split; [|done].
  pose proof Hwf as [[_ _ _ Q4 _ _] Hin _]. pose proof Q4 as [Ht _]%Forall_cons. specialize (HP t Ht).
  destruct (Hin t ltac:(set_solver)) as (T1 & T2 & T3 & T4 & T5). unfold dueOf, lastOf in *.
  split; unfold dueOf, lastOf; try done; try lia; try nia. set_solver.
Qed.

(** A turn hands a task exactly the ticks it moves its time by. *)
Lemma turn_delivers A P w s w1 s1 t r :
  0 <= P -> A + B * P < 2 ^ 64 -> A < 2 ^ 64 -> sched_wf s (t :: r) -> s.(accTime) = A -> dueOf s t <= A ->
  periods_below P s -> turn logged (w, s) (w1, s1) ->
  exists l1, sched_wf s1 l1 /\ s1.(accTime) = A /\ periods_below P s1 /\
    forall u, is_task u -> (taskAt s1 u).(period) = (taskAt s u).(period) /\
      lastOf s1 u - (taskAt s u).(period) * delivered w1.2 u = lastOf s u - (taskAt s u).(period) * delivered w.2 u.
Proof.
  intros HP0 HA HA' Hwf Hacc Hdue HP Hturn.
  destruct (dispatch_step logged _ A P w s t r (logged_ok A P HP0 HA) HA' Logic.I Hwf Hacc Hdue HP)
    as (b & w' & s0 & l0 & s' & l' & E & Hs & E1 & _ & Hwf' & Ha' & [_ Htasks] & HP' & _).
  unfold turn in Hturn. cbn [fst snd] in Hturn. rewrite E1 in Hturn. injection Hturn as <- <-.
  unfold logged in E. injection E as <- <- <-. exists l'. split_and!; try done.
  pose proof Hwf as [[_ _ _ Q4 _ _] Hin _]. pose proof Q4 as [Ht _]%Forall_cons.
  destruct (Hin t ltac:(set_solver)) as (T1 & T2 & T3 & T4 & _).
  intros u Hu. unfold lastOf. rewrite Htasks by done. cbn [snd delivered foldr fst].
  destruct (Z.eqb_spec u t) as [->|Hne].
  - rewrite Z.eqb_refl. unfold servedTask. fold (delivered w.2 t). destruct (_ =? 0); cbn; split; try done; lia.
  - assert ((t =? u) = false) as -> by (by apply Z.eqb_neq). fold (delivered w.2 u). split; [done|lia].
Qed.

Lemma turns_deliver A P x y :
  0 <= P -> A + B * P < 2 ^ 64 -> A < 2 ^ 64 -> rtc (turn logged) x y ->
  forall l, sched_wf x.2 l -> x.2.(accTime) = A -> periods_below P x.2 ->
  forall u, is_task u -> (taskAt y.2 u).(period) = (taskAt x.2 u).(period) /\
    lastOf y.2 u - (taskAt x.2 u).(period) * delivered y.1.2 u = lastOf x.2 u - (taskAt x.2 u).(period) * delivered x.1.2 u.
Proof.
  intros HP0 HA HA' Hr. induction Hr as [x|[w s] [w1 s1] y Hturn Hr IH]; intros l Hwf Hacc HP u Hu; [done|].
  cbn [fst snd] in *. pose proof Hturn as Hcopy. unfold turn, dispatchHead in Hcopy. cbn [fst snd] in Hcopy.
  pose proof Hwf as [[_ _ Q3 Q4 _ _] _ _]. destruct l as [|t r]; cbn [links] in Q3.
  { assert ((SCHEDULER_TASK_MAX <? queueAt s (-1)) = true) as Hx by (by apply Z.ltb_lt). by rewrite Hx in Hcopy. }
  destruct Q3 as [Eh _]. rewrite Eh in Hcopy. pose proof Q4 as [Ht _]%Forall_cons.
  assert ((SCHEDULER_TASK_MAX <? t) = false) as Hx by (apply Z.ltb_ge; unfold is_task in Ht; lia). rewrite Hx in Hcopy.
  destruct (Z.ltb_spec s.(accTime) (taskAt s t).(dueTime)) as [|Hdue]; [done|]. clear Hcopy.
  destruct (turn_delivers A P w s w1 s1 t r HP0 HA HA' Hwf Hacc ltac:(unfold dueOf; lia) HP Hturn)
    as (l1 & Hwf1 & Ha1 & HP1 & H1).
  destruct (H1 u Hu) as [Ep El]. destruct (IH l1 Hwf1 Ha1 HP1 u Hu) as [Ep' El']. rewrite Ep in *. split; [done|lia].
Qed.
End Deliver.

(** C20. The scheduler neither loses nor invents ticks. With delegates that leave
    the scheduler alone and ask for at most [B] ticks at a time, [Advance] over
    any stretch of time hands every task exactly the ticks by which its
    [lastUpdate] moves; for a task that remains scheduled the new [lastUpdate]
    is not past the new time and the next due time is after it, so a task served
    tick by tick has received the elapsed time divided by its period. *)
Theorem advance_ticks_exact {W} (tick : W -> Z -> Z -> W) (next : W -> Z -> Z -> Z) (B P : Z)
  (fuel : nat) (w : W) (s : Scheduler) (l : list Z) (c cps : Z)
  (Hnext : forall w t n, 0 <= next w t n <= B) (HB : 0 <= B < 2 ^ 32) (HP0 : 0 <= P)
  (HA : later s c cps + B * P < 2 ^ 64) (Hc : can_advance s c cps)
  (Hwf : sched_wf s l) (Hn : next_ok s l) (HP : periods_below P s)
  (Hf : pending (elapse s (c * one_sec / cps)) < Z.of_nat fuel) :
  exists w' log s' l', Advance (logged tick next) fuel (w, []) s c cps = Ret (w', log, s') /\ sched_wf s' l' /\
    (forall u, is_task u -> lastOf s' u = lastOf s u + (taskAt s u).(period) * delivered log u) /\
    (forall u, u ∈ l' -> lastOf s' u <= later s c cps < dueOf s' u /\
       ((taskAt s' u).(batchedTicks) = 1 ->
          delivered log u = (later s c cps - lastOf s u) / (taskAt s u).(period))).
Proof.
  destruct (advance_ends (logged tick next) (fun _ _ => True) ltac:(done) P fuel (w, []) s l c cps Hc
    (logged_ok tick next B Hnext HB _ _ HP0 HA) Logic.I Hwf Hn HP Hf) as ([w' log] & s' & s'' & l' & E & R & Es & _ & _ & Hwf' & _ & Ha & Hlate).
  destruct (advance_time s c cps Hc) as [_ Hpos]. pose proof (ca_time _ _ _ Hc) as HA'.
  assert (forall u, is_task u -> (taskAt s' u).(period) = (taskAt s u).(period) /\
    lastOf s' u = lastOf s u + (taskAt s u).(period) * delivered log u) as Hall.
  { intros u Hu. assert (periods_below P (elapse s (c * one_sec / cps))) as HP' by (intros v; rewrite elapse_task; auto).
    destruct (turns_deliver tick next B Hnext HB (later s c cps) P _ _ HP0 HA HA' R l
      (elapse_wf _ _ _ Hpos Hwf) ltac:(by destruct s) HP' u Hu) as [H1 H2].
    cbn [fst snd] in *. rewrite elapse_task in *. unfold lastOf in *. rewrite elapse_task in *. rewrite !Es. cbn [delivered foldr] in H2.
    split; [done|lia]. }
  exists w', log, s', l'. split; [done|]. split; [done|]. split; [intros u Hu; by apply Hall|].
  intros u Hu. pose proof Hwf' as [[_ _ _ Q4 _ _] Hin _]. rewrite Forall_forall in Q4.
  destruct (Hin u Hu) as (T1 & T2 & T3 & T4 & _). specialize (Hlate u Hu). rewrite Ha in T3. unfold lastOf, dueOf in *.
  split; [lia|]. intros E1. destruct (Hall u (Q4 u Hu)) as [Ep El]. rewrite Ep, E1 in *.
  apply Z.div_unique with (r := later s c cps - (taskAt s' u).(lastUpdate)); lia.
Qed.

(** ** A scheduler with two tasks *)

Definition demo_tasks (b : Z) : list Task :=
  [mkTask b 271 271 (271 + b * 271); task0; mkTask 1 1000 0 1000; task0; task0; task0; task0; task0].

Definition demo_scheduler : Scheduler := mkScheduler (demo_tasks 1) [0; 2; 255; 255; 255; 255; 255; 255; 255] 300 542.
Ltac each_member H := repeat (apply elem_of_cons in H as [->|H]; [done || (by vm_compute) || (exfalso; set_solver)|]); by apply elem_of_nil in H.
Ltac concrete_wf :=
  split; [split; [done|done|by cbn [links]|by repeat constructor|by apply (bool_decide_unpack _); vm_compute|by repeat constructor; vm_compute]
         |intros u Hu; each_member Hu
         |intros u Hu%all_tasks_in Hn; unfold all_tasks in Hu; each_member Hu].

Lemma demo_wf : sched_wf demo_scheduler [0; 2].
Proof. concrete_wf. Qed.

Lemma demo_periods : periods_below 1000 demo_scheduler.
Proof.
  intros u Hu%all_tasks_in. unfold all_tasks in Hu.
  repeat (apply elem_of_cons in Hu as [->|Hu]; [by vm_compute|]). by apply elem_of_nil in Hu.
Qed.

Lemma scheduler_reschedule_exact_witness :
  exists s', RescheduleTaskImpl false demo_scheduler 0 4 = Ret s' /\
    sched_wf s' (requestedQueue false demo_scheduler 0 4 [0; 2]) /\
    moved demo_scheduler s' 0 (requested false demo_scheduler 0 4) (requestedQueue false demo_scheduler 0 4 [0; 2]).
Proof.
  apply (scheduler_reschedule_exact false demo_scheduler [0; 2] 0 4 demo_wf).
  - by vm_compute.
  - right. split; by vm_compute.
Defined.

Lemma advance_serves_all_witness :
  exists w' s' l', Advance (logged (fun w _ n => w + n) (fun _ _ _ => 2)) 5000 (0, []) demo_scheduler 300 one_sec = Ret (w', s') /\
    sched_wf s' l' /\ next_ok s' l' /\ s'.(accTime) = later demo_scheduler 300 one_sec /\
    forall u, u ∈ l' -> later demo_scheduler 300 one_sec < dueOf s' u.
Proof.
  apply (advance_serves_all _ 1000 5000 (0, []) demo_scheduler [0; 2] 300 one_sec).
  - split; by vm_compute.
  - apply (logged_ok _ _ 2); [lia|lia|lia|by vm_compute].
  - exact demo_wf.
  - intros t [= <-]. by vm_compute.
  - exact demo_periods.
  - by vm_compute.
Defined.

Lemma advance_ticks_exact_witness :
  exists w' log s' l', Advance (logged (fun w _ n => w + n) (fun _ _ _ => 1)) 5000 (0, []) demo_scheduler 300 one_sec = Ret (w', log, s') /\
    sched_wf s' l' /\
    (forall u, is_task u -> lastOf s' u = lastOf demo_scheduler u + (taskAt demo_scheduler u).(period) * delivered log u) /\
    (forall u, u ∈ l' -> lastOf s' u <= later demo_scheduler 300 one_sec < dueOf s' u /\
       ((taskAt s' u).(batchedTicks) = 1 ->
          delivered log u = (later demo_scheduler 300 one_sec - lastOf demo_scheduler u) / (taskAt demo_scheduler u).(period))).
Proof.
  apply (advance_ticks_exact _ _ 1 1000 5000 0 demo_scheduler [0; 2] 300 one_sec); try lia.
  - by vm_compute.
  - split; by vm_compute.
  - exact demo_wf.
  - intros t [= <-]. by vm_compute.
  - exact demo_periods.
  - by vm_compute.
Defined.
