(* ===== verification/SocRun.v ===== *)
(** * The SoC's run loop (socPXA.cpp)

    The tasks of the scheduler and the loop that alternates the CPU and the
    scheduler. The OS timer, the real-time clock and the event queues are those
    of their files; the CPU and the other devices are parameters. *)

From S2P Require Import Prelude Interfaces CpuSoc Ic Timer Rtc Scheduler Queue.

Definition SCHEDULER_TASK_RTC := 1.
Definition SCHEDULER_TASK_LCD := 2.
Definition SCHEDULER_TASK_I2S := 3.
Definition SCHEDULER_TASK_PCM := 4.
Definition SCHEDULER_TASK_AUX_1 := 5.
Definition SCHEDULER_TASK_AUX_2 := 6.
Definition PCM_HZ_ENABLED := 44300.
Definition PCM_HZ_DISABLED := 44100 / 3.
Definition EVENT_QUEUE_CAPACITY := 64.

(** ** Requests to the scheduler

    The calls of [RescheduleTaskAtLeast] ([true]) and [RescheduleTask] while the
    CPU or a device runs, with task and ticks. None of the callers reads the
    scheduler, so they are collected, newest first, and made when the caller
    returns. *)
Abbreviation Request := (bool * Z * Z)%type.

(** The world of a device, as far as the run loop is concerned. *)
Class SocWorld (W : Type) `{IrqSink W} := {
  soc_asleep : W -> bool;
  soc_requests : W -> list Request;
  soc_ask : W -> Request -> W;
  soc_settle : W -> W;
  soc_irq_int w n b :
    soc_asleep (irq_int w n b) = soc_asleep w /\ soc_requests (irq_int w n b) = soc_requests w \/
    soc_asleep w = true /\ soc_asleep (irq_int w n b) = false /\
    soc_requests (irq_int w n b) = (true, SCHEDULER_TASK_TIMER, 1) :: soc_requests w;
  soc_ask_spec w r : soc_asleep (soc_ask w r) = soc_asleep w /\ soc_requests (soc_ask w r) = r :: soc_requests w;
  soc_settle_spec w : soc_asleep (soc_settle w) = soc_asleep w /\ soc_requests (soc_settle w) = []
}.

(** The requests, in the order they were made. *)
Fixpoint applyRequests (rs : list Request) (sch : Scheduler) : outcome Scheduler :=
  match rs with
  | [] => Ret sch
  | (atLeast, task, ticks) :: rs => sch ← applyRequests rs sch; RescheduleTaskImpl atLeast sch task ticks
  end.

(** ** Events *)

Record PenEvent := mkPenEvent { penDown : bool; penX : Z; penY : Z }.
Record KeyEvent := mkKeyEvent { keyDown : bool; key : Z }.
#[export] Instance penEvent_inhabited : Inhabited PenEvent := populate (mkPenEvent false (-1) (-1)).
#[export] Instance keyEvent_inhabited : Inhabited KeyEvent := populate (mkKeyEvent false 0).

(** ** The SoC *)

Record Soc (W R : Type) := mkSoc {
  world : W;              (* interrupt controller and power state *)
  tmr : PxaTimr W;
  rtc : PxaRtc W;
  rest : R;               (* the other devices and the CPU *)
  mouseDown : bool;
  enablePcmOutput : bool;
  pcmSuspended : bool;
  penEventQueue : Queue PenEvent;
  keyEventQueue : Queue KeyEvent
}.
Arguments mkSoc {W R}.
Arguments world {W R}.
Arguments tmr {W R}.
Arguments rtc {W R}.
Arguments rest {W R}.
Arguments mouseDown {W R}.
Arguments enablePcmOutput {W R}.
Arguments pcmSuspended {W R}.
Arguments penEventQueue {W R}.
Arguments keyEventQueue {W R}.

(** The CPU and the devices that are not modelled here. *)
Record Devices (W R : Type) := mkDevices {
  cpuCycle : Soc W R -> Z -> outcome (Z * Soc W R);
  pxaLcdTick : Soc W R -> outcome (Soc W R);
  socI2sPeriodic : Soc W R -> outcome (Soc W R);
  devicePcmPeriodic : Soc W R -> outcome (Soc W R);
  socDmaPeriodic : Soc W R -> outcome (Soc W R);
  socUartProcess : Z -> Soc W R -> outcome (Soc W R);
  socSspPeriodic : Z -> Soc W R -> outcome (Soc W R);
  devicePeriodic : Soc W R -> outcome (Soc W R);
  deviceTouch : Z -> Z -> Soc W R -> outcome (Soc W R);
  deviceKey : Z -> bool -> Soc W R -> outcome (Soc W R);
  keypadKeyEvt : Z -> bool -> Soc W R -> outcome (Soc W R);
  socDmaTaskRequired : Soc W R -> bool;
  deviceTaskRequired : Soc W R -> bool;
  socSspTaskRequired : Z -> Soc W R -> bool;
  socUartTaskRequired : Z -> Soc W R -> bool;
  dev : bool;                  (* the device exists *)
  hwUart : bool;
  ssp : Z -> bool;
  deviceI2sConnected : bool
}.
Arguments mkDevices {W R}.
Arguments cpuCycle {W R}.
Arguments pxaLcdTick {W R}.
Arguments socI2sPeriodic {W R}.
Arguments devicePcmPeriodic {W R}.
Arguments socDmaPeriodic {W R}.
Arguments socUartProcess {W R}.
Arguments socSspPeriodic {W R}.
Arguments devicePeriodic {W R}.
Arguments deviceTouch {W R}.
Arguments deviceKey {W R}.
Arguments keypadKeyEvt {W R}.
Arguments socDmaTaskRequired {W R}.
Arguments deviceTaskRequired {W R}.
Arguments socSspTaskRequired {W R}.
Arguments socUartTaskRequired {W R}.
Arguments dev {W R}.
Arguments hwUart {W R}.
Arguments ssp {W R}.
Arguments deviceI2sConnected {W R}.

Section Soc.
Context {W R : Type} `{SocWorld W}.

Definition socKeyDown (soc : Soc W R) (k : Z) : outcome (Soc W R) :=
  q ← Push soc.(keyEventQueue) (mkKeyEvent true k); Ret { soc with keyEventQueue := q }.
Definition socKeyUp (soc : Soc W R) (k : Z) : outcome (Soc W R) :=
  q ← Push soc.(keyEventQueue) (mkKeyEvent false k); Ret { soc with keyEventQueue := q }.
Definition socPenDown (soc : Soc W R) (x y : Z) : outcome (Soc W R) :=
  q ← Push soc.(penEventQueue) (mkPenEvent true x y); Ret { soc with penEventQueue := q }.
Definition socPenUp (soc : Soc W R) : outcome (Soc W R) :=
  q ← Push soc.(penEventQueue) (mkPenEvent false (-1) (-1)); Ret { soc with penEventQueue := q }.

Definition socPrvReschedule (w : W) (task : Z) : W :=
  if (task =? RESCHEDULE_TASK_DEVICE_TIER0) || (task =? RESCHEDULE_TASK_SSP) || (task =? RESCHEDULE_TASK_UART) ||
     (task =? RESCHEDULE_TASK_DMA)
  then soc_ask w (false, SCHEDULER_TASK_AUX_1, 1) else w.

(** The devices, with the one controller behind them. *)
Definition onTimer (soc : Soc W R) (f : PxaTimr W -> outcome (PxaTimr W)) : outcome (Soc W R) :=
  t ← f { soc.(tmr) with Timer.ic := soc.(world) }; Ret { soc with tmr := t; world := t.(Timer.ic) }.

Definition onRtc (soc : Soc W R) (f : PxaRtc W -> PxaRtc W) : Soc W R :=
  let t := f { soc.(rtc) with Rtc.ic := soc.(world) } in { soc with rtc := t; world := t.(Rtc.ic) }.

Context (D : Devices W R).

(** The serial ports by number. *)
Definition ffUart := 0.
Definition hwUart_ := 1.
Definition stUart := 2.
Definition btUart := 3.

(** The inner loop of the pen events: only the last of a run of positions
    counts. *)
Fixpoint skipPen (fuel : nat) (q : Queue PenEvent) (evt : PenEvent) : outcome (PenEvent * Queue PenEvent) :=
  match fuel with
  | O => Hang
  | S fuel =>
      if 0 <? GetSize q then
        p ← Peek q;
        if p.(penDown) then '(evt, q) ← Pop q; skipPen fuel q evt else Ret (evt, q)
      else Ret (evt, q)
  end.

Definition pumpPen (soc : Soc W R) : outcome (Soc W R) :=
  if 0 <? GetSize soc.(penEventQueue) then
    '(evt, q) ← Pop soc.(penEventQueue);
    '(evt, q) ← (if evt.(penDown) then skipPen (S (Z.to_nat (GetSize q))) q evt else Ret (evt, q));
    let soc := { soc with penEventQueue := q } in
    if evt.(penDown) || soc.(mouseDown) then D.(deviceTouch) evt.(penX) evt.(penY) { soc with mouseDown := evt.(penDown) }
    else Ret soc
  else Ret soc.

Definition pumpKey (soc : Soc W R) : outcome (Soc W R) :=
  if 0 <? GetSize soc.(keyEventQueue) then
    '(evt, q) ← Pop soc.(keyEventQueue);
    soc ← D.(deviceKey) evt.(key) evt.(keyDown) { soc with keyEventQueue := q };
    D.(keypadKeyEvt) evt.(key) evt.(keyDown) soc
  else Ret soc.

Definition socPumpEventQueues (soc : Soc W R) : outcome (Soc W R) := soc ← pumpPen soc; pumpKey soc.

Definition socCycleBatch0 (soc : Soc W R) : outcome (Soc W R) :=
  soc ← D.(socDmaPeriodic) soc;
  soc ← D.(socUartProcess) ffUart soc;
  soc ← (if D.(hwUart) then D.(socUartProcess) hwUart_ soc else Ret soc);
  soc ← D.(socUartProcess) stUart soc;
  soc ← D.(socUartProcess) btUart soc;
  soc ← forM [0; 1; 2] (fun soc i => if D.(ssp) i then D.(socSspPeriodic) i soc else Ret soc) soc;
  D.(devicePeriodic) soc.

Definition socPrvBatch0Required (soc : Soc W R) : bool :=
  if negb D.(dev) then true else
  D.(socDmaTaskRequired) soc || existsb (fun i => D.(ssp) i && D.(socSspTaskRequired) i soc) [0; 1; 2] || D.(deviceTaskRequired) soc ||
  (D.(socUartTaskRequired) ffUart soc || D.(socUartTaskRequired) stUart soc || D.(socUartTaskRequired) btUart soc) ||
  (D.(hwUart) && D.(socUartTaskRequired) hwUart_ soc).

(** The ticks the task asks for next. *)
Definition runTask (soc : Soc W R) (clientType batchedTicks : Z) : outcome (Z * Soc W R) :=
  match clientType with
  | 0 => soc ← onTimer soc (fun t => pxaTimrTick t batchedTicks);
         Ret (if soc_asleep soc.(world) then pxaTimrTicksToNextInterrupt soc.(tmr) else 1, soc)
  | 1 => Ret (1, onRtc soc pxaRtcTick)
  | 2 => soc ← D.(pxaLcdTick) soc; Ret (1, soc)
  | 3 => soc ← D.(socI2sPeriodic) soc; Ret (1, soc)
  | 4 => soc ← D.(devicePcmPeriodic) soc; Ret (if soc.(pcmSuspended) && soc.(enablePcmOutput) then 0 else 1, soc)
  | 5 => soc ← socCycleBatch0 soc; Ret (if socPrvBatch0Required soc then 1 else 0, soc)
  | 6 => soc ← socPumpEventQueues soc; Ret (1, soc)
  | _ => Abort
  end.

(** The scheduler after the requests made meanwhile. *)
Definition settled (soc : Soc W R) (sch : Scheduler) : outcome (Soc W R * Scheduler) :=
  sch ← applyRequests (soc_requests soc.(world)) sch; Ret ({ soc with world ::= soc_settle }, sch).

Definition DispatchTicks (soc : Soc W R) (sch : Scheduler) (clientType batchedTicks : Z)
  : outcome (Z * Soc W R * Scheduler) :=
  '(b, soc) ← runTask soc clientType batchedTicks;
  '(soc, sch) ← settled soc sch;
  Ret (b, soc, sch).

(** [fuelA] bounds the dispatches of one [Advance]. The CPU takes its number of
    cycles as a [uint32_t]. *)
Fixpoint socRunLoop (fuelA fuel : nat) (soc : Soc W R) (sch : Scheduler) (maxCycles cyclesPerSecond cycles : Z)
  : outcome (Z * Soc W R * Scheduler) :=
  match fuel with
  | O => Hang
  | S fuel =>
      if cycles <? maxCycles then
        let toAdvance := CyclesToNextUpdate sch cyclesPerSecond in
        let toAdvance := if maxCycles <? u64 (toAdvance + cycles) then u64 (maxCycles - cycles) else toAdvance in
        '(advanced, soc) ← (if soc_asleep soc.(world) then Ret (toAdvance, soc) else D.(cpuCycle) soc (u32 toAdvance));
        '(soc, sch) ← settled soc sch;
        '(soc, sch) ← Advance DispatchTicks fuelA soc sch advanced cyclesPerSecond;
        socRunLoop fuelA fuel soc sch maxCycles cyclesPerSecond (u64 (cycles + advanced))
      else Ret (cycles, soc, sch)
  end.

(** Every turn takes a cycle at least. *)
Definition socRun (fuelA : nat) (soc : Soc W R) (sch : Scheduler) (maxCycles cyclesPerSecond : Z)
  : outcome (Z * Soc W R * Scheduler) :=
  socRunLoop fuelA (S (Z.to_nat maxCycles)) soc sch maxCycles cyclesPerSecond 0.

Definition socSetupScheduler (sch : Scheduler) : outcome Scheduler :=
  sch ← ScheduleTask sch SCHEDULER_TASK_TIMER (one_sec / 3686400) 1;
  sch ← ScheduleTask sch SCHEDULER_TASK_RTC one_sec 1;
  sch ← ScheduleTask sch SCHEDULER_TASK_LCD (one_sec / (64 * 3 * 60)) 1;
  sch ← ScheduleTask sch SCHEDULER_TASK_AUX_1 (36 * one_sec / 3686400) 1;
  sch ← ScheduleTask sch SCHEDULER_TASK_PCM (one_sec / PCM_HZ_DISABLED) 1;
  sch ← (if D.(deviceI2sConnected) then ScheduleTask sch SCHEDULER_TASK_I2S (one_sec / 44100) 1 else Ret sch);
  ScheduleTask sch SCHEDULER_TASK_AUX_2 (one_sec / 30) 1.

Definition socSetPcmSuspended (soc : Soc W R) (sch : Scheduler) (suspended : bool) : outcome (Soc W R * Scheduler) :=
  if Bool.eqb soc.(pcmSuspended) suspended then Ret (soc, sch) else
  let soc := { soc with pcmSuspended := suspended } in
  sch ← (if soc.(enablePcmOutput) then RescheduleTask sch SCHEDULER_TASK_PCM (if suspended then 0 else 1) else Ret sch);
  Ret (soc, sch).

(** Clearing the audio queue is left out. *)
Definition socSetPcmOutputEnabled (soc : Soc W R) (sch : Scheduler) (enabled : bool) : outcome (Soc W R * Scheduler) :=
  if Bool.eqb enabled soc.(enablePcmOutput) then Ret (soc, sch) else
  let soc := { soc with enablePcmOutput := enabled } in
  sch ← ScheduleTask sch SCHEDULER_TASK_PCM (one_sec / (if enabled then PCM_HZ_ENABLED else PCM_HZ_DISABLED))
          (if soc.(pcmSuspended) then 0 else 1);
  Ret (soc, sch).
End Soc.
