(* ===== verification/SocClock.v ===== *)
(** * The guest's clock

    The run loop over the scheduler, the OS timer, the interrupt controller and
    the power state: it ends, and the timer keeps the emulated time whatever the
    guest sleeps and is woken by. *)

From Stdlib Require Import Sorted.
From S2P Require Import Prelude Interfaces CpuSoc Ic Timer Rtc Scheduler SchedAdvance Queue SocRun.

(** ** The interrupt controller and the power state as the world *)

Definition settleSoC (soc : CpuSoc.SoC) : CpuSoc.SoC := { soc with reschedules := [] }.
Definition askSoC (r : Request) (soc : CpuSoc.SoC) : CpuSoc.SoC := { soc with reschedules ::= cons r }.

Definition onEnv (f : CpuSoc.SoC -> CpuSoc.SoC) (ic : SocIc CpuSoc.SoC) : SocIc CpuSoc.SoC := { ic with ic_env ::= f }.

Lemma onEnv_wf f ic : ic_wf ic -> ic_wf (onEnv f ic).
Proof. intros [? ? ? ?]. destruct ic. by split. Qed.

Lemma cpu_irq_power (e : CpuSoc.SoC) fiq raise :
  (cpu_irq e fiq raise).(soc_sleeping) = e.(soc_sleeping) /\ (cpu_irq e fiq raise).(reschedules) = e.(reschedules).
Proof. by destruct e. Qed.

Lemma handle_changes_power (ic : SocIc CpuSoc.SoC) :
  (socIcPrvHandleChanges ic).(ic_env).(soc_sleeping) = ic.(ic_env).(soc_sleeping) /\
  (socIcPrvHandleChanges ic).(ic_env).(reschedules) = ic.(ic_env).(reschedules).
Proof.
  destruct ic as [e mr lr pr cr p wi wf g]. unfold socIcPrvHandleChanges; cbn [fold_left].
  set (nowIrq := _ || nz _). set (nowFiq := _ || tst _ _). clearbody nowIrq nowFiq.
  cbn -[cpu_irq]. destruct (Bool.eqb nowFiq wf), (Bool.eqb nowIrq wi); cbn -[cpu_irq]; rewrite ?(proj1 (cpu_irq_power _ _ _)), ?(proj2 (cpu_irq_power _ _ _));
    rewrite ?(proj1 (cpu_irq_power _ _ _)), ?(proj2 (cpu_irq_power _ _ _)); done.
Qed.

Lemma wakeup_power (e : CpuSoc.SoC) n :
  let e' := socWakeup e n in
  e'.(soc_sleeping) = e.(soc_sleeping) /\ e'.(reschedules) = e.(reschedules) \/
  e.(soc_sleeping) = true /\ e'.(soc_sleeping) = false /\ e'.(reschedules) = (true, SCHEDULER_TASK_TIMER, 1) :: e.(reschedules).
Proof. destruct e as [c [] l]; cbn; [right|left]; done. Qed.

Lemma int_power (ic : SocIc CpuSoc.SoC) n b :
  let e := ic.(ic_env) in
  let e' := (socIcInt ic n b).(ic_env) in
  e'.(soc_sleeping) = e.(soc_sleeping) /\ e'.(reschedules) = e.(reschedules) \/
  e.(soc_sleeping) = true /\ e'.(soc_sleeping) = false /\ e'.(reschedules) = (true, SCHEDULER_TASK_TIMER, 1) :: e.(reschedules).
Proof.
  cbv zeta. rewrite socIcInt_unfold.
  assert (H : let e' := (int_pre ic n b).(ic_env) in
    e'.(soc_sleeping) = ic.(ic_env).(soc_sleeping) /\ e'.(reschedules) = ic.(ic_env).(reschedules) \/
    ic.(ic_env).(soc_sleeping) = true /\ e'.(soc_sleeping) = false /\
    e'.(reschedules) = (true, SCHEDULER_TASK_TIMER, 1) :: ic.(ic_env).(reschedules)).
  { unfold int_pre. set (c := b && _). clearbody c. destruct ic as [e]; cbn -[socWakeup]. destruct c; [apply wakeup_power|by left]. }
  destruct (handle_changes_power (int_pre ic n b)) as [E1 E2]. destruct (negb _); [by rewrite E1, E2|done].
Qed.

#[export, program] Instance ic_soc_world : SocWorld (IcWorld CpuSoc.SoC) := {|
  soc_asleep w := (iw_ic w).(ic_env).(soc_sleeping);
  soc_requests w := (iw_ic w).(ic_env).(reschedules);
  soc_ask w r := mkIcWorld (onEnv (askSoC r) (iw_ic w)) (onEnv_wf _ _ (iw_wf w));
  soc_settle w := mkIcWorld (onEnv settleSoC (iw_ic w)) (onEnv_wf _ _ (iw_wf w))
|}.
Next Obligation.
  intros w n b. cbn. unfold iw_int. destruct (decide _); [apply int_power|by left].
Qed.
Next Obligation. by intros [[[? ? ?]] ?] r. Qed.
Next Obligation. by intros [[[? ? ?]] ?]. Qed.

(** ** Requests *)

Definition TIMER_PERIOD := one_sec / 3686400.

(** The scheduler as the SoC sets it up and uses it: the timer runs, the event
    queues are polled, the last task is not used. *)
Record soc_sched (sch : Scheduler) : Prop := {
  ss_timer : 0 < (taskAt sch 0).(batchedTicks) /\ (taskAt sch 0).(period) = TIMER_PERIOD;
  ss_near : sch.(accTime) < dueOf sch 0 + TIMER_PERIOD;
  ss_aux1 : (taskAt sch 5).(batchedTicks) <= 1 /\ 0 < (taskAt sch 5).(period) /\
    ((taskAt sch 5).(batchedTicks) = 0 -> lastOf sch 5 <= dueOf sch 5 <= sch.(accTime));
  ss_aux2 : (taskAt sch 6).(batchedTicks) = 1;
  ss_aux3 : (taskAt sch 7).(batchedTicks) = 0;
  ss_last u : is_task u -> 0 <= lastOf sch u;
  ss_time : 0 <= sch.(accTime) < 2 ^ 62;
  ss_periods : periods_below one_sec sch
}.

(** A request the devices and the CPU make, for at most [N] ticks of the timer. *)
Definition allowed (N : Z) (r : Request) : Prop :=
  (exists n, r = (true, SCHEDULER_TASK_TIMER, n) /\ 1 <= n <= N) \/ r = (false, SCHEDULER_TASK_AUX_1, 1).

(** The timer after a request for [n] ticks. *)
Definition askedTimer (sch : Scheduler) (n : Z) : Task :=
  let k := taskAt sch 0 in
  let b := Z.max n ((sch.(accTime) - k.(lastUpdate)) / TIMER_PERIOD) in
  mkTask b TIMER_PERIOD k.(lastUpdate) (k.(lastUpdate) + b * TIMER_PERIOD).

Lemma timer_lag sch l :
  sched_wf sch l -> soc_sched sch -> 0 ∈ l /\ 0 <= sch.(accTime) - lastOf sch 0 /\
  (sch.(accTime) - lastOf sch 0) / TIMER_PERIOD <= (taskAt sch 0).(batchedTicks) < 2 ^ 32 /\
  dueOf sch 0 = lastOf sch 0 + (taskAt sch 0).(batchedTicks) * TIMER_PERIOD.
Proof.
  intros [Hq Hin Hout] [[Hb Hp] Hn _ _ _ _ _ _].
  assert (H0 : 0 ∈ l) by (destruct (decide (0 ∈ l)) as [|Hx]; [done|]; specialize (Hout 0 ltac:(done) Hx); lia).
  destruct (Hin 0 H0) as (T1 & T2 & T3 & T4 & T5). rewrite Hp in *. unfold lastOf, dueOf in *. split; [done|]. split; [lia|].
  split; [|done]. split; [|lia]. apply Z.lt_succ_r. apply Z.div_lt_upper_bound; [done|]. nia.
Qed.

Lemma ask_timer sch l n :
  sched_wf sch l -> soc_sched sch -> 1 <= n < 2 ^ 32 ->
  exists sch' l', RescheduleTaskImpl true sch 0 n = Ret sch' /\ sched_wf sch' l' /\ next_ok sch' l' /\
    sch'.(accTime) = sch.(accTime) /\ soc_sched sch' /\
    forall u, is_task u -> taskAt sch' u = if u =? 0 then askedTimer sch n else taskAt sch u.
Proof.
  intros Hwf Hs Hn. destruct (timer_lag sch l Hwf Hs) as (H0 & Hlag & Hk & Hdue).
  pose proof Hs as [[Hb Hp] Hnear Ha1 Ha2 Ha3 Hl Ht HP].
  set (k := (sch.(accTime) - lastOf sch 0) / TIMER_PERIOD) in *.
  assert (Hk0 : 0 <= k) by (apply Z.div_pos; done || lia).
  assert (Hkp : k * TIMER_PERIOD <= sch.(accTime) - lastOf sch 0 < (k + 1) * TIMER_PERIOD).
  { pose proof (Z.div_mod (sch.(accTime) - lastOf sch 0) TIMER_PERIOD ltac:(done)).
    pose proof (Z.mod_pos_bound (sch.(accTime) - lastOf sch 0) TIMER_PERIOD ltac:(done)). fold k in H. lia. }
  assert (E : rescheduled true sch (taskAt sch 0) n = askedTimer sch n).
  { unfold rescheduled, newLast, newBatch, askedTimer. rewrite Hp. assert ((batchedTicks (taskAt sch 0) =? 0) = false) as -> by (apply Z.eqb_neq; lia). done. }
  destruct (reschedule_wf true sch l 0 n (wf_wf_but _ _ _ Hwf) ltac:(done)) as (sch' & E' & Hwf' & M).
  { destruct (sw_in _ _ Hwf 0 H0) as (T1 & T2 & T3 & T4 & T5). split; try done; try lia.
    - unfold is_u. lia.
    - rewrite E. unfold newBatch, askedTimer. rewrite Hp. cbn [dueTime]. fold (lastOf sch 0). fold k.
      change TIMER_PERIOD with 271 in *. unfold lastOf in *. lia. }
  rewrite E in *. exists sch', (place 0 (askedTimer sch n).(dueTime) (dueOf sch) (without 0 l)).
  split; [done|]. split; [done|].
  assert (Htasks : forall u, is_task u -> taskAt sch' u = if u =? 0 then askedTimer sch n else taskAt sch u) by exact (mv_task _ _ _ _ _ M).
  assert (Hacc : sch'.(accTime) = sch.(accTime)) by exact (mv_time _ _ _ _ _ M).
  assert (E0 : taskAt sch' 0 = askedTimer sch n) by (by rewrite Htasks).
  split; [|split; [done|split; [|done]]].
  - intros t Hh. rewrite (mv_next _ _ _ _ _ M). destruct (place _ _ _ _) as [|v r]; [done|]. rewrite bool_decide_eq_false_2 by done.
    cbn in Hh |- *. by injection Hh as ->.
  - split; unfold dueOf, lastOf, periods_below; rewrite ?E0, ?Hacc; try (rewrite !Htasks by done; done); unfold askedTimer; cbn [batchedTicks period dueTime lastUpdate]; fold (lastOf sch 0); fold k.
    + split; [lia|done].
    + nia.
    + intros u Hu. rewrite Htasks by done. destruct (u =? 0) eqn:Eu; [|by apply Hl]. cbn. by apply Hl.
    + done.
    + intros u Hu. rewrite Htasks by done. destruct (u =? 0) eqn:Eu; [done|]. by apply HP.
Qed.

(** The batch of the devices: running, the request changes nothing; stopped, it
    is started at the grid of its period. *)
Definition askedAux1 (sch : Scheduler) : Task :=
  let k := taskAt sch 5 in
  if k.(batchedTicks) =? 0 then
    let last := sch.(accTime) - (sch.(accTime) - k.(dueTime)) mod k.(period) in mkTask 1 k.(period) last (last + k.(period))
  else k.

Lemma ask_aux1 sch l :
  sched_wf sch l -> soc_sched sch ->
  exists sch' l', RescheduleTaskImpl false sch 5 1 = Ret sch' /\ sched_wf sch' l' /\ next_ok sch' l' /\
    sch'.(accTime) = sch.(accTime) /\ soc_sched sch' /\
    forall u, is_task u -> taskAt sch' u = if u =? 5 then askedAux1 sch else taskAt sch u.
Proof.
  intros Hwf Hs. pose proof Hs as [[Hb Hp] Hnear (A1 & A2 & A3) Ha2 Ha3 Hl Ht HP].
  pose proof (Hl 5 ltac:(done)) as Hl5. pose proof (HP 5 ltac:(done)) as HP5. unfold lastOf, dueOf in *.
  set (k := taskAt sch 5) in *. assert (Hone : one_sec = 1000000000) by done.
  assert (Hk : k.(batchedTicks) = 0 \/ k.(batchedTicks) = 1 /\ 5 ∈ l /\ task_ok sch 5).
  { destruct (decide (5 ∈ l)) as [Hin|Hout]; [right|left; by apply Hwf].
    pose proof (sw_in _ _ Hwf 5 Hin) as Hok. pose proof Hok as (T1 & _). fold k in T1. split; [lia|done]. }
  assert (Hlast : k.(batchedTicks) = 0 -> k.(lastUpdate) <= newLast sch k <= sch.(accTime)).
  { intros E0. unfold newLast. rewrite E0. cbn [Z.eqb]. specialize (A3 E0).
    pose proof (Z.mod_pos_bound (sch.(accTime) - k.(dueTime)) k.(period) A2).
    pose proof (Z.mod_le (sch.(accTime) - k.(dueTime)) k.(period) ltac:(lia) A2). lia. }
  assert (E : rescheduled false sch k 1 = askedAux1 sch).
  { unfold rescheduled, newBatch, askedAux1. fold k. rewrite Z.mul_1_l. unfold newLast.
    destruct (Z.eqb_spec k.(batchedTicks) 0) as [|Hne]; [done|]. destruct Hk as [|(E1 & _ & T)]; [done|].
    destruct T as (_ & _ & _ & T4 & _). fold k in T4. rewrite E1, Z.mul_1_l in T4. destruct k; cbn in *. by subst. }
  assert (Hnew : 0 <= newLast sch k <= sch.(accTime)).
  { destruct Hk as [E0|(E1 & _ & T)]; [specialize (Hlast E0); lia|]. unfold newLast. rewrite E1. cbn [Z.eqb].
    destruct T as (_ & _ & T3 & _). fold k in T3. lia. }
  destruct (reschedule_wf false sch l 5 1 (wf_wf_but _ _ _ Hwf) ltac:(done)) as (sch' & E' & Hwf' & M).
  { fold k. split; try done; try lia.
    - unfold is_u. lia.
    - destruct Hk as [E0|(_ & _ & (_ & _ & T3 & _))]; [specialize (A3 E0); lia|done].
    - unfold newBatch, rescheduled. cbn [dueTime]. unfold newBatch. lia. }
  fold k in E', Hwf', M. rewrite E in *. exists sch', (place 5 (askedAux1 sch).(dueTime) (dueOf sch) (without 5 l)).
  split; [done|]. split; [done|].
  assert (Htasks : forall u, is_task u -> taskAt sch' u = if u =? 5 then askedAux1 sch else taskAt sch u) by exact (mv_task _ _ _ _ _ M).
  assert (Hacc : sch'.(accTime) = sch.(accTime)) by exact (mv_time _ _ _ _ _ M).
  assert (E5 : taskAt sch' 5 = askedAux1 sch) by (by rewrite Htasks).
  assert (H1 : (askedAux1 sch).(batchedTicks) = 1 /\ (askedAux1 sch).(period) = k.(period) /\ (askedAux1 sch).(lastUpdate) = newLast sch k).
  { by rewrite <- E. }
  destruct H1 as (B1 & B2 & B3). split; [|split; [done|split; [|done]]].
  - intros t Hh. rewrite (mv_next _ _ _ _ _ M). destruct (place _ _ _ _) as [|v r]; [done|]. rewrite bool_decide_eq_false_2 by done.
    cbn in Hh |- *. by injection Hh as ->.
  - split; unfold dueOf, lastOf, periods_below; rewrite ?E5, ?B1, ?B2, ?Hacc; try (rewrite !Htasks by done; done); try done.
    + intros u Hu. rewrite Htasks by done. destruct (u =? 5); [lia|by apply Hl].
    + intros u Hu. rewrite Htasks by done. destruct (u =? 5) eqn:Eu; [lia|by apply HP].
Qed.

(** What requests leave of the scheduler. *)
Record asked (sch sch' : Scheduler) : Prop := {
  ak_time : sch'.(accTime) = sch.(accTime);
  ak_sched : soc_sched sch';
  ak_other u : is_task u -> u <> 0 -> u <> 5 -> taskAt sch' u = taskAt sch u;
  ak_timer : lastOf sch' 0 = lastOf sch 0;
  ak_aux1 : lastOf sch 5 <= lastOf sch' 5 /\ ((taskAt sch 5).(batchedTicks) <> 0 -> taskAt sch' 5 = taskAt sch 5)
}.

(** The timer runs tick by tick, or a tick is due. *)
Definition promptTimer (sch : Scheduler) : Prop := (taskAt sch 0).(batchedTicks) = 1 \/ dueOf sch 0 <= sch.(accTime).

Lemma asked_timer_prompt sch l :
  sched_wf sch l -> soc_sched sch ->
  (askedTimer sch 1).(batchedTicks) = 1 \/ (askedTimer sch 1).(dueTime) <= sch.(accTime).
Proof.
  intros Hwf Hs. destruct (timer_lag sch l Hwf Hs) as (_ & Hlag & _ & _). unfold askedTimer. cbn [batchedTicks dueTime].
  fold (lastOf sch 0). pose proof (Z.div_mod (sch.(accTime) - lastOf sch 0) TIMER_PERIOD ltac:(done)).
  pose proof (Z.mod_pos_bound (sch.(accTime) - lastOf sch 0) TIMER_PERIOD ltac:(done)). lia.
Qed.

(** A due timer is not moved by a request for a tick. *)
Lemma asked_timer_due sch l :
  sched_wf sch l -> soc_sched sch -> dueOf sch 0 <= sch.(accTime) -> askedTimer sch 1 = taskAt sch 0.
Proof.
  intros Hwf Hs Hd. destruct (timer_lag sch l Hwf Hs) as (_ & Hlag & Hk & Hdue). pose proof Hs as [[Hb Hp] _ _ _ _ _ _ _].
  unfold askedTimer. fold (lastOf sch 0). set (k := (_ - _) / TIMER_PERIOD) in *.
  assert (k = (taskAt sch 0).(batchedTicks)) as ->.
  { apply Z.le_antisymm; [lia|]. apply Z.div_le_lower_bound; [done|]. lia. }
  rewrite Z.max_r by lia. rewrite <- Hdue. unfold lastOf, dueOf in *. destruct (taskAt sch 0); cbn in *. by subst.
Qed.

Lemma ask_all N rs : Forall (allowed N) rs -> 1 <= N < 2 ^ 32 -> forall sch l,
  sched_wf sch l -> soc_sched sch ->
  exists sch' l', applyRequests rs sch = Ret sch' /\ sched_wf sch' l' /\ asked sch sch' /\
    (next_ok sch l -> next_ok sch' l') /\
    (N = 1 -> dueOf sch 0 <= sch.(accTime) -> taskAt sch' 0 = taskAt sch 0) /\
    (N = 1 -> In (true, SCHEDULER_TASK_TIMER, 1) rs \/ promptTimer sch -> promptTimer sch').
Proof.
  intros Hrs HN sch l Hwf Hs. induction Hrs as [|r rs Hr Hrs IH].
  { exists sch, l. split; [done|]. split; [done|]. split; [by split|]. split; [done|]. split; [done|]. intros _ [[]|]; done. }
  destruct IH as (s1 & l1 & E1 & Hwf1 & [A1 A2 A3 A4 A5] & Hn1 & Hdue1 & Hp1).
  destruct Hr as [(n & -> & Hn)| ->]; cbn [applyRequests]; rewrite E1; cbn [mbind outcome_bind].
  - destruct (ask_timer s1 l1 n Hwf1 A2 ltac:(lia)) as (s2 & l2 & E2 & Hwf2 & Hn2 & B1 & B2 & B3).
    assert (E0 : taskAt s2 0 = askedTimer s1 n) by (by rewrite B3).
    exists s2, l2. split; [done|]. split; [done|]. split; [|split; [done|split]].
    + split; [congruence|done| | |].
      * intros u Hu H0 H5. rewrite B3 by done. apply Z.eqb_neq in H0 as E. rewrite E. auto.
      * unfold lastOf in *. rewrite E0. done.
      * unfold lastOf in *. by rewrite B3.
    + intros -> Hd. assert (n = 1) as -> by lia. specialize (Hdue1 eq_refl Hd). rewrite E0, (asked_timer_due s1 l1); [done|done|done|].
      unfold dueOf in *. rewrite Hdue1. lia.
    + intros -> _. assert (n = 1) as -> by lia. unfold promptTimer, dueOf. rewrite E0, B1. by eapply asked_timer_prompt.
  - destruct (ask_aux1 s1 l1 Hwf1 A2) as (s2 & l2 & E2 & Hwf2 & Hn2 & B1 & B2 & B3).
    assert (E0 : taskAt s2 0 = taskAt s1 0) by (by rewrite B3). assert (E5 : taskAt s2 5 = askedAux1 s1) by (by rewrite B3).
    exists s2, l2. split; [done|]. split; [done|]. split; [|split; [done|split]].
    + split; [congruence|done| | |].
      * intros u Hu H0 H5. rewrite B3 by done. apply Z.eqb_neq in H5 as E. rewrite E. auto.
      * unfold lastOf in *. by rewrite E0.
      * destruct A5 as [A5 A5']. unfold lastOf in *. rewrite E5. unfold askedAux1.
        destruct (Z.eqb_spec (taskAt s1 5).(batchedTicks) 0) as [Hz|]; [|done]. split.
        -- cbn [lastUpdate]. destruct A2 as [_ _ (C1 & C2 & C3) _ _ _ _ _]. specialize (C3 Hz). unfold lastOf, dueOf in C3.
           pose proof (Z.mod_le (s1.(accTime) - (taskAt s1 5).(dueTime)) (taskAt s1 5).(period) ltac:(lia) C2). lia.
        -- intros Hne. rewrite (A5' Hne) in Hz. done.
    + intros -> Hd. rewrite E0. auto.
    + intros -> [[Hin|Hin]|Hp]; [done| |]; unfold promptTimer, dueOf in *; rewrite E0, B1; apply Hp1; auto.
Qed.

(** ** The SoC *)

Lemma ticks_to_next_range {W} `{IrqSink W} (t : PxaTimr W) : timr_wf t -> 1 <= pxaTimrTicksToNextInterrupt t < 2 ^ 32.
Proof.
  intros Hw. pose proof (ticks_loop_spec t [0; 1; 2; 3] 0xffffffff Hw ltac:(forall_list; lia)) as Hl. cbv zeta in Hl.
  unfold pxaTimrTicksToNextInterrupt. destruct Hl as [[-> _]|(H1 & _ & [->|(i & _ & _ & _ & H2)])]; lia.
Qed.

Lemma tick_ret {W} `{IrqSink W} (t : PxaTimr W) n :
  timr_wf t -> t.(OWER) = 0 ->
  exists t', pxaTimrTick t n = Ret t' /\ timr_wf t' /\ t'.(OWER) = 0 /\ t'.(OSCR) = u32 (t.(OSCR) + n) /\
    t'.(Timer.ic) = raiseLower t.(Timer.ic) t'.(OSSR).
Proof.
  intros Hw Ho. assert (E : exists c, pxaTimrTick t n = advanced t c n).
  { destruct (Z.eq_dec n 1) as [->|]; [eexists; by apply tick_single|eexists; by apply tick_multi]. }
  destruct E as [c E]. rewrite E. pose proof (advanced_wf t c n) as Hwf. unfold advanced in *. rewrite Ho, andb_false_r in *.
  eexists. split; [done|]. split; [by apply Hwf|]. by destruct t.
Qed.

Section Quiet.
Context {W : Type} `{SocWorld W}.

(** A world after interrupts and requests of the devices: who wakes the SoC asks
    for a tick of the timer. *)
Definition wquiet (w w' : W) : Prop :=
  exists new, soc_requests w' = new ++ soc_requests w /\ Forall (allowed 1) new /\
    (soc_asleep w' = true -> soc_asleep w = true) /\
    (soc_asleep w = true -> soc_asleep w' = false -> In (true, SCHEDULER_TASK_TIMER, 1) new).

#[export] Instance wquiet_preorder : PreOrder wquiet.
Proof.
  split.
  - intros w. exists []. split; [done|]. split; [constructor|]. split; [done|]. congruence.
  - intros w1 w2 w3 (n1 & E1 & F1 & A1 & B1) (n2 & E2 & F2 & A2 & B2). exists (n2 ++ n1).
    split; [by rewrite E2, E1, app_assoc|]. split; [by apply Forall_app_2|]. split; [auto|]. intros H1 H3. apply in_or_app.
    destruct (soc_asleep w2) eqn:E; [left; auto|right; auto].
Qed.

Lemma irq_quiet w n b : wquiet w (irq_int w n b).
Proof.
  destruct (soc_irq_int w n b) as [[E1 E2]|(E1 & E2 & E3)].
  - exists []. rewrite E1, E2. split; [done|]. split; [constructor|]. split; [done|]. congruence.
  - exists [(true, SCHEDULER_TASK_TIMER, 1)]. rewrite E2, E3. split; [done|]. split; [|split; [done|by left]].
    apply Forall_cons_2; [|apply Forall_nil_2]. left. exists 1. split; [done|lia].
Qed.

Lemma reschedule_quiet w task : wquiet w (socPrvReschedule w task).
Proof.
  unfold socPrvReschedule. destruct (_ || _); [|reflexivity]. destruct (soc_ask_spec w (false, SCHEDULER_TASK_AUX_1, 1)) as [E1 E2].
  exists [(false, SCHEDULER_TASK_AUX_1, 1)]. rewrite E1, E2. split; [done|]. split; [apply Forall_cons_2; [by right|apply Forall_nil_2]|]. split; [done|]. congruence.
Qed.

Context {R : Type}.

Definition soc_ok (soc : Soc W R) : Prop :=
  timr_wf soc.(tmr) /\ soc.(tmr).(OWER) = 0 /\ queue_ok soc.(penEventQueue) /\ queue_ok soc.(keyEventQueue).

(** What a device does to the SoC: it may raise interrupts and ask the scheduler,
    and it leaves the timer's counter and the watchdog alone. *)
Record quiet (soc soc' : Soc W R) : Prop := {
  qt_ok : soc_ok soc';
  qt_counter : soc'.(tmr).(OSCR) = soc.(tmr).(OSCR);
  qt_world : wquiet soc.(world) soc'.(world)
}.

Definition quietly (f : Soc W R -> outcome (Soc W R)) : Prop :=
  forall soc, soc_ok soc -> exists soc', f soc = Ret soc' /\ quiet soc soc'.

Lemma quiet_refl soc : soc_ok soc -> quiet soc soc.
Proof. by split. Qed.

Lemma quiet_trans s1 s2 s3 : quiet s1 s2 -> quiet s2 s3 -> quiet s1 s3.
Proof. intros [A1 A2 A3] [B1 B2 B3]. split; [done|congruence|by transitivity (world s2)]. Qed.

Lemma quietly_bind f g : quietly f -> quietly g -> quietly (fun s => s ← f s; g s).
Proof.
  intros Hf Hg s Hs. destruct (Hf s Hs) as (s1 & E1 & Q1). rewrite E1. cbn [mbind outcome_bind].
  destruct (Hg s1 (qt_ok _ _ Q1)) as (s2 & E2 & Q2). exists s2. split; [done|]. by eapply quiet_trans.
Qed.

Lemma quietly_ret : quietly (fun s => Ret s).
Proof. intros s Hs. exists s. split; [done|by apply quiet_refl]. Qed.

Lemma quietly_if (b : bool) f g : quietly f -> quietly g -> quietly (fun s => if b then f s else g s).
Proof. by destruct b. Qed.

Lemma quietly_forM {A} (l : list A) f : (forall a, quietly (fun s => f s a)) -> quietly (fun s => forM l f s).
Proof.
  intros Hf. induction l as [|a l IH]; [apply quietly_ret|]. apply (quietly_bind (fun s => f s a) (fun s => forM l f s)); auto.
Qed.

(** What the run loop relies on. The CPU takes at least a cycle, overshoots by
    nine at most, and is awake at the end unless it was the guest that put it to
    sleep. *)
Record devices_ok (D : Devices W R) : Prop := {
  dk_cpu soc c : soc_ok soc -> soc_asleep soc.(world) = false -> 1 <= c < 2 ^ 32 ->
    exists n soc', D.(cpuCycle) soc c = Ret (n, soc') /\ 1 <= n <= c + 9 /\ soc_ok soc' /\
      soc'.(tmr).(OSCR) = soc.(tmr).(OSCR) /\
      exists new, soc_requests soc'.(world) = new ++ soc_requests soc.(world) /\ Forall (allowed (2 ^ 32 - 1)) new /\
        (soc_asleep soc'.(world) = false -> Forall (allowed 1) new);
  dk_lcd : quietly D.(pxaLcdTick);
  dk_i2s : quietly D.(socI2sPeriodic);
  dk_pcm : quietly D.(devicePcmPeriodic);
  dk_dma : quietly D.(socDmaPeriodic);
  dk_uart i : quietly (D.(socUartProcess) i);
  dk_ssp i : quietly (D.(socSspPeriodic) i);
  dk_device : quietly D.(devicePeriodic);
  dk_touch x y : quietly (D.(deviceTouch) x y);
  dk_key k down : quietly (D.(deviceKey) k down);
  dk_keypad k down : quietly (D.(keypadKeyEvt) k down)
}.

Context (D : Devices W R) (HD : devices_ok D).

Lemma batch0_quiet : quietly (socCycleBatch0 D).
Proof.
  destruct HD. unfold socCycleBatch0.
  apply quietly_bind; [done|]. apply quietly_bind; [done|]. apply (quietly_bind (fun s => if D.(hwUart) then _ else _)).
  { by apply quietly_if; [|apply quietly_ret]. }
  apply quietly_bind; [done|]. apply quietly_bind; [done|]. apply quietly_bind; [|done].
  apply quietly_forM. intros i. apply quietly_if; [done|apply quietly_ret].
Qed.

(** The pen queue is drained of positions and never found empty. *)
Lemma skipPen_ok fuel q evt :
  queue_ok q -> (Z.to_nat q.(size) < fuel)%nat -> exists evt' q', skipPen fuel q evt = Ret (evt', q') /\ queue_ok q'.
Proof.
  revert q evt. induction fuel as [|fuel IH]; intros q evt Hq Hf; [lia|]. cbn [skipPen]. unfold GetSize.
  destruct (Z.ltb_spec 0 q.(size)); [|by exists evt, q].
  destruct (contents q) as [|x rest] eqn:Ex; [pose proof (queue_contents_length q) as Hl; rewrite Ex in Hl; cbn in Hl; lia|].
  destruct (queue_pop_exact q x rest Hq Ex) as (Ep & q1 & E1 & Hq1 & _ & Er). rewrite Ep. cbn [mbind outcome_bind].
  destruct (penDown x); [|by exists evt, q]. rewrite E1. cbn [mbind outcome_bind]. apply IH; [done|].
  pose proof (queue_contents_length q1) as L1. pose proof (queue_contents_length q) as L. rewrite Er in L1. rewrite Ex in L. cbn [length] in L. lia.
Qed.

Lemma pumpPen_quiet : quietly (pumpPen D).
Proof.
  intros soc Hok. pose proof Hok as (H1 & H2 & H3 & H4). unfold pumpPen, GetSize. destruct (Z.ltb_spec 0 soc.(penEventQueue).(size)); [|exists soc; split; [done|by apply quiet_refl]].
  destruct (contents soc.(penEventQueue)) as [|x rest] eqn:Ex.
  { pose proof (queue_contents_length soc.(penEventQueue)) as Hl. rewrite Ex in Hl. cbn in Hl. lia. }
  destruct (queue_pop_exact _ x rest H3 Ex) as (_ & q1 & E1 & Hq1 & _ & Er). rewrite E1. cbn [mbind outcome_bind].
  assert (E2 : exists evt q2, (if penDown x then skipPen (S (Z.to_nat q1.(size))) q1 x else Ret (x, q1)) = Ret (evt, q2) /\ queue_ok q2).
  { destruct (penDown x); [apply skipPen_ok; [done|lia]|by exists x, q1]. }
  destruct E2 as (evt & q2 & E2 & Hq2). rewrite E2. cbn [mbind outcome_bind].
  set (s1 := { soc with penEventQueue := q2 }). assert (Q1 : quiet soc s1) by (by destruct soc).
  change (mouseDown { soc with penEventQueue := q2 }) with (mouseDown s1). 
  destruct (penDown evt || _); [|by exists s1].
  set (s2 := { s1 with mouseDown := penDown evt }). assert (Q2 : quiet soc s2) by (by destruct soc).
  destruct (dk_touch D HD (penX evt) (penY evt) s2 (qt_ok _ _ Q2)) as (s3 & E3 & Q3). exists s3. split; [exact E3|].
  by eapply quiet_trans.
Qed.

Lemma pumpKey_quiet : quietly (pumpKey D).
Proof.
  intros soc Hok. pose proof Hok as (H1 & H2 & H3 & H4). unfold pumpKey, GetSize. destruct (Z.ltb_spec 0 soc.(keyEventQueue).(size)); [|exists soc; split; [done|by apply quiet_refl]].
  destruct (contents soc.(keyEventQueue)) as [|x rest] eqn:Ex.
  { pose proof (queue_contents_length soc.(keyEventQueue)) as Hl. rewrite Ex in Hl. cbn in Hl. lia. }
  destruct (queue_pop_exact _ x rest H4 Ex) as (_ & q1 & E1 & Hq1 & _ & Er). rewrite E1. cbn [mbind outcome_bind].
  set (s1 := { soc with keyEventQueue := q1 }). assert (Q1 : quiet soc s1) by (by destruct soc).
  destruct (dk_key D HD (key x) (keyDown x) s1 (qt_ok _ _ Q1)) as (s2 & E2 & Q2).
  destruct (dk_keypad D HD (key x) (keyDown x) s2 (qt_ok _ _ Q2)) as (s3 & E3 & Q3). exists s3. rewrite E2. cbn [mbind outcome_bind].
  split; [exact E3|]. eapply quiet_trans; [exact Q1|]. by eapply quiet_trans.
Qed.
End Quiet.

(** ** One task *)

Section Run.
Context {W R : Type} `{SocWorld W} (D : Devices W R) (HD : devices_ok D).

Lemma onTimer_ok (soc : Soc W R) n :
  soc_ok soc ->
  exists soc', onTimer soc (fun t => pxaTimrTick t n) = Ret soc' /\ soc_ok soc' /\ wquiet soc.(world) soc'.(world) /\
    soc'.(tmr).(OSCR) = u32 (soc.(tmr).(OSCR) + n).
Proof.
  intros (H1 & H2 & H3 & H4). unfold onTimer. set (t := { soc.(tmr) with Timer.ic := soc.(world) }).
  assert (Ht : timr_wf t /\ t.(OWER) = 0 /\ t.(OSCR) = soc.(tmr).(OSCR) /\ t.(Timer.ic) = soc.(world)).
  { destruct H1 as [? ? ? ?]. unfold t. destruct soc as [w tm ? ? ? ? ? ? ?]. by destruct tm. }
  destruct Ht as (T1 & T2 & T3 & T4). destruct (tick_ret t n T1 T2) as (t' & E & U1 & U2 & U3 & U4).
  rewrite E. cbn [mbind outcome_bind]. set (soc' := { soc with tmr := t'; world := t'.(Timer.ic) }).
  assert (E' : soc'.(tmr) = t' /\ soc'.(world) = t'.(Timer.ic) /\ soc'.(penEventQueue) = soc.(penEventQueue) /\
    soc'.(keyEventQueue) = soc.(keyEventQueue)) by (by destruct soc).
  destruct E' as (E1 & E2 & E3 & E4). exists soc'. split; [done|]. unfold soc_ok. rewrite E1, E2, E3, E4, U3, T3, U4, T4.
  split; [done|]. split; [|done]. unfold raiseLower.
  do 3 (etransitivity; [|apply irq_quiet]). apply irq_quiet.
Qed.

Lemma onRtc_ok (soc : Soc W R) :
  soc_ok soc -> quiet soc (onRtc soc pxaRtcTick).
Proof.
  intros Hok. destruct soc as [w tm rt re md en pc pe ke]. unfold onRtc. cbn [SocRun.rtc SocRun.world].
  set (t := { rt with Rtc.ic := w }). assert (E : wquiet w (pxaRtcTick t).(Rtc.ic)).
  { unfold pxaRtcTick, pxaRtcPrvUpdate. set (t1 := { t with RCNR ::= _ }). assert (E1 : t1.(Rtc.ic) = w) by (subst t1 t; by destruct rt).
    set (t2 := if negb _ then _ else _). assert (E2 : t2.(Rtc.ic) = w).
    { rewrite <- E1. unfold t2. clearbody t1. destruct t1. cbn. repeat (match goal with |- context [if ?b then _ else _] => destruct b end; cbn); done. }
    clearbody t2. rewrite <- E2. destruct t2. cbn -[tst]. etransitivity; apply irq_quiet. }
  by split.
Qed.

Lemma runTask_ok (soc : Soc W R) t n :
  soc_ok soc -> 0 <= t <= 6 -> 0 < n ->
  exists b soc', runTask D soc t n = Ret (b, soc') /\ soc_ok soc' /\ wquiet soc.(world) soc'.(world) /\
    soc'.(tmr).(OSCR) = (if t =? 0 then u32 (soc.(tmr).(OSCR) + n) else soc.(tmr).(OSCR)) /\
    0 <= b < 2 ^ 32 /\ (t = 0 -> 1 <= b /\ (soc_asleep soc'.(world) = false -> b = 1)) /\
    (t <> 0 -> b <= 1) /\ (t = 6 -> b = 1).
Proof.
  intros Hok Ht Hn. assert (t = 0 \/ 1 <= t <= 6) as [->|Ht'] by lia.
  - unfold runTask. destruct (onTimer_ok soc n Hok) as (s1 & E1 & Hok1 & Hw & Hc). rewrite E1. cbn [mbind outcome_bind].
    pose proof (ticks_to_next_range s1.(tmr) (proj1 Hok1)). do 2 eexists. split; [done|].
    split; [done|]. split; [done|]. split; [done|]. destruct (soc_asleep s1.(world)); split_and!; try lia; done.
  - assert (Hq : exists b f, (forall s, runTask D s t n = (s' ← f s; Ret (b s', s'))) /\ quietly f /\
      forall s, 0 <= b s <= 1 /\ (t = 6 -> b s = 1)).
    { assert (t = 1 \/ t = 2 \/ t = 3 \/ t = 4 \/ t = 5 \/ t = 6) as [->|[->|[->|[->|[->| ->]]]]] by lia.
      - exists (fun _ => 1), (fun s => Ret (onRtc s pxaRtcTick)). split; [done|]. split; [|split; done || lia].
        intros s Hs. eexists. split; [done|]. by apply onRtc_ok.
      - exists (fun _ => 1), D.(pxaLcdTick). split; [done|]. split; [apply HD|split; done || lia].
      - exists (fun _ => 1), D.(socI2sPeriodic). split; [done|]. split; [apply HD|split; done || lia].
      - exists (fun s => if s.(pcmSuspended) && s.(enablePcmOutput) then 0 else 1), D.(devicePcmPeriodic). split; [done|].
        split; [apply HD|]. intros s. destruct (_ && _); split; done || lia.
      - exists (fun s => if socPrvBatch0Required D s then 1 else 0), (socCycleBatch0 D). split; [done|].
        split; [by apply batch0_quiet|]. intros s. destruct (socPrvBatch0Required D s); split; done || lia.
      - exists (fun _ => 1), (socPumpEventQueues D). split; [done|]. split; [|split; done || lia].
        apply quietly_bind; [by apply pumpPen_quiet|by apply pumpKey_quiet]. }
    destruct Hq as (b & f & Ef & Qf & Hb). rewrite Ef. destruct (Qf soc Hok) as (s1 & E1 & [Q1 Q2 Q3]). rewrite E1. cbn [mbind outcome_bind].
    exists (b s1), s1. destruct (Hb s1) as [Hb1 Hb2]. assert ((t =? 0) = false) as -> by (apply Z.eqb_neq; lia).
    split; [done|]. split; [done|]. split; [done|]. split; [done|]. split; [lia|]. split; [lia|]. split; [lia|done].
Qed.

(** ** The delegate of the scheduler *)

(** The guest's counter, but for the timer ticks the scheduler has not
    delivered. *)
Definition clockOffset (soc : Soc W R) (sch : Scheduler) : Z := u32 (soc.(tmr).(OSCR) - lastOf sch 0 / TIMER_PERIOD).

(** The SoC and its scheduler between tasks. *)
Record in_step (c0 : Z) (soc : Soc W R) (sch : Scheduler) : Prop := {
  is_ok : soc_ok soc;
  is_settled : soc_requests soc.(world) = [];
  is_sched : soc_sched sch;
  is_prompt : soc_asleep soc.(world) = false -> promptTimer sch;
  is_clock : clockOffset soc sch = c0
}.

Lemma in_step_ext c0 soc s s' :
  s'.(accTime) = s.(accTime) -> (forall u, taskAt s' u = taskAt s u) -> in_step c0 soc s -> in_step c0 soc s'.
Proof.
  intros Ha Ht [H1 H2 [S1 S2 S3 S4 S5 S6 S7 S8] H4 H5]. split; try done.
  - split; unfold dueOf, lastOf, periods_below in *; try (intros ?); rewrite ?Ht, ?Ha; auto.
  - unfold promptTimer, dueOf in *. by rewrite Ht, Ha.
  - rewrite <- H5. unfold clockOffset, lastOf. by rewrite Ht.
Qed.

Lemma settle_ok (soc : Soc W R) :
  soc_ok soc -> let soc' := { soc with world ::= soc_settle } in
  soc_ok soc' /\ soc_requests soc'.(world) = [] /\ soc_asleep soc'.(world) = soc_asleep soc.(world) /\
  soc'.(tmr) = soc.(tmr).
Proof. intros Hok. destruct soc as [w]. cbn in *. destruct (soc_settle_spec w) as [-> ->]. done. Qed.

(** The turn of a task that no request moved. *)
Lemma turn_in_step c0 soc soc' sch sch' sch2 l l' t b :
  in_step c0 soc sch -> soc_ok soc' -> soc_requests soc'.(world) = [] -> sched_wf sch l -> sched_wf sch' l' -> asked sch sch' ->
  t ∈ l -> dueOf sch t <= sch.(accTime) -> taskAt sch' t = taskAt sch t ->
  soc'.(tmr).(OSCR) = (if t =? 0 then u32 (soc.(tmr).(OSCR) + (taskAt sch t).(batchedTicks)) else soc.(tmr).(OSCR)) ->
  (t = 0 -> 1 <= b /\ (soc_asleep soc'.(world) = false -> b = 1)) -> (t <> 0 -> 0 <= b <= 1) -> (t = 6 -> b = 1) ->
  (soc_asleep soc'.(world) = false -> promptTimer sch') ->
  turnEnds sch' sch2 t b -> in_step c0 soc' sch2.
Proof.
  intros [I1 I2 I3 I4 I5] Hok Hset Hwf Hwf' [K1 K2 K3 K4 K5] Hin Hdue Htt Hc Hb0 Hb1 Hb6 Hp [Ha Htasks].
  destruct (timer_lag sch l Hwf I3) as (_ & _ & _ & Hd0). pose proof (sw_in _ _ Hwf t Hin) as (T1 & T2 & T3 & T4 & T5).
  assert (Hst : is_task t) by (destruct Hwf as [[_ _ _ Q _ _] _ _]; rewrite Forall_forall in Q; auto).
  assert (Et : taskAt sch2 t = servedTask (taskAt sch t) b) by (rewrite Htasks, Z.eqb_refl, Htt by done; done).
  assert (Eo : forall u, is_task u -> u <> t -> taskAt sch2 u = taskAt sch' u).
  { intros u Hu Hne. rewrite Htasks by done. by apply Z.eqb_neq in Hne as ->. }
  pose proof K2 as [S1 S2 S3 S4 S5 S6 S7 S8]. assert (Hnz : forall k, servedTask k b = (if b =? 0 then mkTask 0 k.(period) k.(dueTime) k.(dueTime) else mkTask b k.(period) k.(dueTime) (k.(dueTime) + b * k.(period)))) by done.
  unfold dueOf, lastOf in *. split; try done.
  - split; unfold dueOf, lastOf, periods_below; rewrite ?Ha, ?K1.
    + destruct (Z.eq_dec t 0) as [->|Hne]; [|by rewrite Eo]. rewrite Et, Hnz. destruct (Hb0 eq_refl) as [Hb _].
      assert ((b =? 0) = false) as -> by (apply Z.eqb_neq; lia). cbn. split; [lia|]. apply I3.
    + destruct (Z.eq_dec t 0) as [->|Hne]; [|rewrite Eo by done; congruence]. rewrite Et, Hnz. destruct (Hb0 eq_refl) as [Hb _].
      assert ((b =? 0) = false) as -> by (apply Z.eqb_neq; lia). cbn [dueTime].
      destruct I3 as [[_ Ep] Hn _ _ _ _ _ _]. rewrite Ep. unfold dueOf in Hn. assert (0 < TIMER_PERIOD) by done. nia.
    + destruct (Z.eq_dec t 5) as [->|Hne]; [|rewrite Eo, <- K1 by done; exact S3]. rewrite Et, Hnz. specialize (Hb1 ltac:(done)).
      destruct (Z.eqb_spec b 0); cbn [batchedTicks period lastUpdate dueTime]; split_and!; lia.
    + destruct (Z.eq_dec t 6) as [->|Hne]; [|by rewrite Eo]. rewrite Et, Hnz, (Hb6 eq_refl). done.
    + destruct (Z.eq_dec t 7) as [->|Hne]; [|by rewrite Eo]. rewrite Htt in S5. lia.
    + intros u Hu. destruct (Z.eq_dec u t) as [->|Hne]; [|rewrite Eo by done; auto]. rewrite Et, Hnz. destruct (b =? 0); cbn; nia.
    + rewrite <- K1. done.
    + intros u Hu. destruct (Z.eq_dec u t) as [->|Hne]; [|rewrite Eo by done; by apply S8]. rewrite Et, Hnz.
      destruct I3 as [_ _ _ _ _ _ _ HP]. specialize (HP t Hst). by destruct (b =? 0).
  - intros Haw. unfold promptTimer, dueOf in *. rewrite Ha, K1. destruct (Z.eq_dec t 0) as [->|Hne].
    + left. rewrite Et, Hnz. destruct (Hb0 eq_refl) as [Hb Hb']. rewrite (Hb' Haw). done.
    + rewrite Eo by done. rewrite <- K1. auto.
  - rewrite <- I5. unfold clockOffset, lastOf. rewrite Hc. destruct (Z.eq_dec t 0) as [->|Hne].
    + rewrite Et, Hnz. replace (lastUpdate (if b =? 0 then _ else _)) with (dueTime (taskAt sch 0)) by (by destruct (b =? 0)).
      rewrite Hd0, Z.div_add by done. cbn [Z.eqb]. unfold wrap. rewrite Zminus_mod_idemp_l. f_equal. lia.
    + rewrite Eo by done. rewrite K4. apply Z.eqb_neq in Hne as ->. done.
Qed.

Lemma dispatch_delegate c0 A : A < 2 ^ 62 -> delegate_ok (DispatchTicks D) (in_step c0) A one_sec.
Proof.
  intros HA soc sch t r HI Hwf Hacc Hdue HP. pose proof HI as [I1 I2 I3 I4 I5].
  assert (Hin : t ∈ t :: r) by set_solver. pose proof (sw_in _ _ Hwf t Hin) as (T1 & T2 & T3 & T4 & T5).
  assert (Hst : is_task t) by (destruct Hwf as [[_ _ _ Q _ _] _ _]; by apply Forall_cons in Q as [? _]).
  assert (Ht6 : 0 <= t <= 6).
  { unfold is_task, SCHEDULER_TASK_MAX in Hst. destruct (Z.eq_dec t 7) as [->|]; [|lia]. destruct I3 as [_ _ _ _ S5 _ _ _]. lia. }
  destruct (runTask_ok soc t (taskAt sch t).(batchedTicks) I1 Ht6 ltac:(lia)) as (b & s1 & E1 & Hok1 & (new & N1 & N2 & N3 & N4) & Hc & B1 & B2 & B3 & B4).
  rewrite I2, app_nil_r in N1.
  destruct (ask_all 1 new N2 ltac:(lia) sch (t :: r) Hwf I3) as (sch' & l' & E2 & Hwf' & K & _ & Hd & Hp).
  destruct (settle_ok s1 Hok1) as (Hok2 & Hr2 & Ha2 & Ht2). set (s2 := { s1 with world ::= soc_settle }) in *.
  assert (Htt : taskAt sch' t = taskAt sch t).
  { destruct (Z.eq_dec t 0) as [->|Hn0]; [apply Hd; [done|unfold dueOf in *; lia]|].
    destruct (Z.eq_dec t 5) as [->|H5]; [apply (ak_aux1 _ _ K); lia|]. by apply (ak_other _ _ K). }
  exists b, s2, sch', l'. split; [|split; [|split]].
  - unfold DispatchTicks. rewrite E1. cbn [mbind outcome_bind]. unfold settled. rewrite N1, E2. done.
  - unfold dueOf, lastOf in *. split; unfold dueOf, lastOf; rewrite ?Htt; try done.
    + by rewrite (ak_time _ _ K).
    + intros u Hu. destruct (Z.eq_dec u 0) as [->|Hn0]; [pose proof (ak_timer _ _ K) as X; unfold lastOf in X; lia|].
      destruct (Z.eq_dec u 5) as [->|H5]; [apply (ak_aux1 _ _ K)|]. by rewrite (ak_other _ _ K).
    + destruct (decide (t ∈ l')) as [|Hx]; [done|]. pose proof (sw_out _ _ Hwf' t Hst Hx) as X. rewrite Htt in X. lia.
    + split; [nia|lia].
    + destruct (Z.eq_dec t 0) as [->|Hn0].
      * destruct I3 as [[_ ->] _ _ _ _ _ _ _]. change TIMER_PERIOD with 271. lia.
      * specialize (B3 Hn0). specialize (HP t Hst). change one_sec with 1000000000 in HP. nia.
  - apply K.
  - intros sch2 Hend. assert (Hc2 : s2.(tmr).(OSCR) = (if t =? 0 then u32 (soc.(tmr).(OSCR) + (taskAt sch t).(batchedTicks)) else soc.(tmr).(OSCR)))
      by (by rewrite Ht2).
    apply (turn_in_step c0 soc s2 sch sch' sch2 (t :: r) l' t b); try done; try lia.
    + rewrite Ha2. done.
    + rewrite Ha2. intros Haw. apply Hp; [done|]. destruct (soc_asleep soc.(world)) eqn:Eas; [left; by apply N4|right; auto].
Qed.
End Run.

(** ** The loop *)

Lemma sum_bound (f : Z -> Z) B l : (forall u, u ∈ l -> f u <= B) -> foldr (fun u a => f u + a) 0 l <= B * Z.of_nat (length l).
Proof.
  induction l as [|v l IH]; intros Hf; cbn [foldr length]; [lia|]. pose proof (Hf v ltac:(set_solver)).
  pose proof (IH ltac:(set_solver)). lia.
Qed.

Lemma pending_bound sch : 0 <= sch.(accTime) -> (forall u, is_task u -> 0 <= lastOf sch u) -> pending sch <= 8 * sch.(accTime).
Proof.
  intros Ha Hl. unfold pending. pose proof (sum_bound (fun u => Z.max 0 (sch.(accTime) - lastOf sch u)) sch.(accTime) all_tasks) as Hs.
  change (Z.of_nat (length all_tasks)) with 8 in Hs. rewrite Z.mul_comm in Hs. apply Hs.
  intros u Hu%all_tasks_in. specialize (Hl u Hu). lia.
Qed.

(** The cycles of a turn, for the time [d] to the next task: the time they take
    passes the task by [k] cycles at most. *)
Lemma cycles_time d cps n k :
  0 < d -> 40000000 <= cps -> 0 <= n <= d * cps / one_sec + k -> 0 <= k <= 10 ->
  0 <= n * one_sec / cps <= d + 250 /\ n * one_sec / cps <= 25 * n /\
  n * one_sec - cps < n * one_sec / cps * cps <= n * one_sec.
Proof.
  intros Hd Hc Hn Hk. change one_sec with 1000000000 in *.
  pose proof (Z.mul_div_le (d * cps) 1000000000 ltac:(lia)).
  pose proof (Z.div_mod (n * 1000000000) cps ltac:(lia)). pose proof (Z.mod_pos_bound (n * 1000000000) cps ltac:(lia)).
  assert (0 <= n * 1000000000 / cps) by (apply Z.div_pos; lia).
  split; [split; [done|]|split; [|lia]].
  - apply Z.lt_succ_r, Z.div_lt_upper_bound; [lia|]. nia.
  - apply Z.lt_succ_r, Z.div_lt_upper_bound; [lia|]. nia.
Qed.

Section Loop.
Context {W R : Type} `{SocWorld W} (D : Devices W R) (HD : devices_ok D).

(** Between the turns of the loop: nothing is due. *)
Record soc_ready (c0 : Z) (soc : Soc W R) (sch : Scheduler) (l : list Z) : Prop := {
  rd_step : in_step c0 soc sch;
  rd_wf : sched_wf sch l;
  rd_next : next_ok sch l;
  rd_late u : u ∈ l -> sch.(accTime) < dueOf sch u
}.

(** The next task is at most a second away, since the event queues are polled. *)
Lemma ready_next c0 (soc : Soc W R) sch l :
  soc_ready c0 soc sch l ->
  0 < sch.(nextUpdate) - sch.(accTime) <= one_sec /\ sch.(nextUpdate) <= dueOf sch 0.
Proof.
  intros [I Hwf Hnext Hlate]. destruct (timer_lag sch l Hwf (is_sched _ _ _ I)) as (H0in & _).
  destruct (is_sched _ _ _ I) as [_ _ _ S6 _ _ _ SP].
  assert (H6 : 6 ∈ l) by (destruct (decide (6 ∈ l)) as [|Hx]; [done|]; pose proof (sw_out _ _ Hwf 6 ltac:(done) Hx); lia).
  destruct l as [|h r]; [by apply elem_of_nil in H6|]. rewrite (Hnext h eq_refl).
  pose proof (Hlate h ltac:(set_solver)). pose proof Hwf as [[_ _ _ _ _ Q6] _ _]. apply StronglySorted_inv in Q6 as [_ Q6].
  rewrite Forall_forall in Q6.
  assert (Hmin : forall u, u ∈ h :: r -> dueOf sch h <= dueOf sch u).
  { intros u [->|Hu]%elem_of_cons; [done|]. by apply (Q6 u). }
  destruct (sw_in _ _ Hwf 6 H6) as (T1 & T2 & T3 & T4 & T5). specialize (SP 6 ltac:(done)). specialize (Hmin 6 H6) as H6'.
  rewrite S6 in T4. unfold dueOf in *. split; [lia|]. by apply Hmin.
Qed.

(** The CPU's part of a turn, and the requests made in it. *)
Lemma cpu_turn c0 (soc : Soc W R) sch l c :
  soc_ready c0 soc sch l -> 1 <= c < 2 ^ 32 ->
  exists n soc1 soc2 sch2 l2,
    (if soc_asleep soc.(world) then Ret (c, soc) else D.(cpuCycle) soc c) = Ret (n, soc1) /\ 1 <= n <= c + 9 /\
    settled soc1 sch = Ret (soc2, sch2) /\ sched_wf sch2 l2 /\ next_ok sch2 l2 /\ asked sch sch2 /\
    soc_ok soc2 /\ soc_requests soc2.(world) = [] /\ (soc_asleep soc2.(world) = false -> promptTimer sch2) /\
    soc2.(tmr).(OSCR) = soc.(tmr).(OSCR) /\ dueOf sch 0 <= dueOf sch2 0.
Proof.
  intros [[I1 I2 I3 I4 I5] Hwf Hnext Hlate] Hc. destruct (timer_lag sch l Hwf I3) as (H0in & Hlag & Hk & Hdue).
  pose proof (Hlate 0 H0in) as Hl0. destruct (soc_asleep soc.(world)) eqn:Eas.
  - destruct (settle_ok soc I1) as (S1 & S2 & S3 & S4). do 3 eexists. exists sch, l. split; [done|]. split; [lia|].
    split; [unfold settled; rewrite I2; done|]. split; [done|]. split; [done|]. split; [by split|]. split; [done|]. split; [done|].
    split; [rewrite S3, Eas; done|]. split; [by rewrite S4|lia].
  - destruct (dk_cpu D HD soc c I1 Eas Hc) as (n & s1 & E1 & Hn & Hok & Ho & new & N1 & N2 & N3). rewrite I2, app_nil_r in N1.
    destruct (ask_all (2 ^ 32 - 1) new N2 ltac:(lia) sch l Hwf I3) as (s' & l' & E2 & Hwf' & K & Hn' & _ & _).
    destruct (settle_ok s1 Hok) as (S1 & S2 & S3 & S4). do 3 eexists. exists s', l'. split; [done|]. split; [lia|].
    split; [unfold settled; rewrite N1, E2; done|]. split; [done|]. split; [auto|]. split; [done|]. split; [done|]. split; [done|].
    split; [|split; [by rewrite S4|]].
    + rewrite S3. intros Haw. destruct (ask_all 1 new (N3 Haw) ltac:(lia) sch l Hwf I3) as (s3 & l3 & E3 & _ & _ & _ & _ & Hp).
      rewrite E2 in E3. injection E3 as <-. apply Hp; [done|]. right. auto.
    + destruct (I4 eq_refl) as [Hb|Hx]; [|lia]. destruct (timer_lag s' l' Hwf' (ak_sched _ _ K)) as (_ & _ & _ & Hdue').
      rewrite Hdue, Hdue', (ak_timer _ _ K), Hb. destruct (ak_sched _ _ K) as [[Hb' _] _ _ _ _ _ _ _].
      assert (0 < TIMER_PERIOD) by done. nia.
Qed.

(** Time passes. *)
Lemma elapse_in_step c0 (soc soc2 : Soc W R) sch sch2 d :
  in_step c0 soc sch -> asked sch sch2 -> soc_ok soc2 -> soc_requests soc2.(world) = [] ->
  (soc_asleep soc2.(world) = false -> promptTimer sch2) -> soc2.(tmr).(OSCR) = soc.(tmr).(OSCR) ->
  0 <= d -> sch2.(accTime) + d < 2 ^ 62 -> sch2.(accTime) + d < dueOf sch2 0 + TIMER_PERIOD ->
  in_step c0 soc2 (elapse sch2 d).
Proof.
  intros I [K1 [S1 S2 S3 S4 S5 S6 S7 S8] K3 K4 K5] Hok Hr Hp Ho Hd HA Hnear.
  assert (Ha : (elapse sch2 d).(accTime) = sch2.(accTime) + d) by (by destruct sch2). split; try done.
  - split; unfold dueOf, lastOf, periods_below in *; try (intros u Hu); rewrite ?elapse_task, ?Ha; try done; try lia; auto.
  - intros Haw. specialize (Hp Haw). unfold promptTimer, dueOf in *. rewrite elapse_task, Ha. lia.
  - rewrite <- (is_clock _ _ _ I). unfold clockOffset, lastOf in *. by rewrite Ho, elapse_task, K4.
Qed.

(** What the loop's turns have in common. *)
Definition ran (cps : Z) (sch sch' : Scheduler) (n : Z) : Prop :=
  n * one_sec - n * cps <= (sch'.(accTime) - sch.(accTime)) * cps <= n * one_sec /\
  0 <= sch'.(accTime) - sch.(accTime) <= 25 * n.

Lemma ran_turn cps sch sch1 sch2 n m d :
  0 < cps -> 1 <= n -> 0 <= d <= 25 * n -> n * one_sec - cps < d * cps <= n * one_sec ->
  sch1.(accTime) = sch.(accTime) + d -> ran cps sch1 sch2 m -> ran cps sch sch2 (n + m).
Proof.
  intros Hc Hn Hd Ht Ha [[R1 R2] R3]. unfold ran. rewrite Ha in *. set (e := sch2.(accTime)) in *. set (a := sch.(accTime)) in *.
  clearbody e a. replace ((e - a) * cps) with ((e - (a + d)) * cps + d * cps) by ring.
  rewrite !Z.mul_add_distr_r. pose proof (Z.mul_le_mono_nonneg_r 1 n cps ltac:(lia) Hn).
  generalize dependent ((e - (a + d)) * cps). generalize dependent (d * cps). generalize dependent (n * cps). generalize (m * cps).
  intros. split; lia.
Qed.

Lemma run_loop c0 cps maxCycles fuelA :
  40000000 <= cps <= 4000000000 -> maxCycles < 2 ^ 62 -> 8 * 2 ^ 62 < Z.of_nat fuelA ->
  forall fuel soc sch l cycles,
  soc_ready c0 soc sch l -> 0 <= cycles -> Z.max 0 (maxCycles - cycles) < Z.of_nat fuel ->
  sch.(accTime) + 25 * (maxCycles + 9 - cycles) < 2 ^ 62 ->
  exists n soc' sch' l',
    socRunLoop D fuelA fuel soc sch maxCycles cps cycles = Ret (cycles + n, soc', sch') /\ 0 <= n /\
    soc_ready c0 soc' sch' l' /\ (cycles < maxCycles -> maxCycles <= cycles + n <= maxCycles + 9) /\
    (maxCycles <= cycles -> n = 0) /\ ran cps sch sch' n.
Proof.
  intros Hcps Hmax HfA. induction fuel as [|fuel IH]; intros soc sch l cycles Hrd Hcy Hf HA; [lia|].
  cbn [socRunLoop]. destruct (Z.ltb_spec cycles maxCycles) as [Hlt|Hge].
  2:{ exists 0, soc, sch, l. rewrite Z.add_0_r. unfold ran. split; [done|]. split; [lia|]. split; [done|]. lia. }
  destruct (ready_next c0 soc sch l Hrd) as [Hd Hd0]. set (d := sch.(nextUpdate) - sch.(accTime)) in *.
  pose proof (is_sched _ _ _ (rd_step _ _ _ _ Hrd)) as Hss. pose proof (ss_time _ Hss) as Htime.
  assert (Hone : one_sec = 1000000000) by done.
  assert (Hq : 0 <= d * cps / one_sec <= cps).
  { split; [apply Z.div_pos; lia|]. apply Z.div_le_upper_bound; [lia|]. nia. }
  assert (Ec : CyclesToNextUpdate sch cps = d * cps / one_sec + 1).
  { unfold CyclesToNextUpdate. fold d. rewrite (wrap_small 64 d) by (unfold is_u; lia).
    rewrite (wrap_small 64 (d * cps)) by (unfold is_u; nia). apply wrap_small. unfold is_u. lia. }
  rewrite Ec. set (toA := if _ <? _ then _ else _).
  assert (HtoA : 1 <= toA <= d * cps / one_sec + 1 /\ cycles + toA <= maxCycles).
  { unfold toA. rewrite (wrap_small 64 (_ + cycles)) by (unfold is_u; lia).
    rewrite (wrap_small 64 (maxCycles - cycles)) by (unfold is_u; lia).
    destruct (Z.ltb_spec maxCycles (d * cps / one_sec + 1 + cycles)); lia. }
  clearbody toA. rewrite (wrap_small 32 toA) by (unfold is_u; lia).
  destruct (cpu_turn c0 soc sch l toA Hrd ltac:(lia))
    as (n & s1 & s2 & sch2 & l2 & E1 & Hn & E2 & Hwf2 & Hnext2 & K & Hok2 & Hr2 & Hp2 & Ho2 & Hd2).
  rewrite E1. cbn [mbind outcome_bind]. rewrite E2. cbn [mbind outcome_bind].
  destruct (cycles_time d cps n 10 ltac:(lia) ltac:(lia) ltac:(lia) ltac:(lia)) as (Ht1 & Ht2 & Ht3).
  set (dt := n * one_sec / cps) in *. pose proof (ak_time _ _ K) as Ha2. destruct Hd as [Hd1 Hd3].
  assert (Hnear : sch2.(accTime) + dt < dueOf sch2 0 + TIMER_PERIOD) by (change TIMER_PERIOD with 271; lia).
  assert (Hcan : can_advance sch2 n cps) by (split; unfold later; fold dt; rewrite ?Ha2; lia).
  assert (Hi2 : in_step c0 s2 (elapse sch2 dt)) by (apply (elapse_in_step c0 soc s2 sch sch2); try done; try lia; by apply Hrd).
  destruct (advance_ends (DispatchTicks D) (in_step c0) (in_step_ext c0) one_sec fuelA s2 sch2 l2 n cps Hcan)
    as (s3 & sch3 & sch3' & l3 & E3 & _ & _ & Hi3 & _ & Hwf3 & Hnext3 & Ha3 & Hlate3); try done.
  { apply dispatch_delegate; [done|]. unfold later. fold dt. lia. }
  { apply (ss_periods _ (ak_sched _ _ K)). }
  { eapply Z.le_lt_trans; [apply pending_bound|].
    - apply (ss_time _ (is_sched _ _ _ Hi2)).
    - apply (ss_last _ (is_sched _ _ _ Hi2)).
    - pose proof (ss_time _ (is_sched _ _ _ Hi2)). fold dt. lia. }
  rewrite E3. cbn [mbind outcome_bind]. rewrite (wrap_small 64 (cycles + n)) by (unfold is_u; lia).
  assert (Hrd3 : soc_ready c0 s3 sch3 l3) by (split; [done|done|done|intros u Hu; rewrite Ha3; by apply Hlate3]).
  unfold later in Ha3. fold dt in Ha3. rewrite <- Ha2 in HA.
  destruct (IH s3 sch3 l3 (cycles + n) Hrd3 ltac:(lia) ltac:(lia) ltac:(lia)) as (m & s4 & sch4 & l4 & E4 & Hm & Hrd4 & Hlow & Hz & Hran).
  exists (n + m), s4, sch4, l4. rewrite E4, Z.add_assoc. split; [done|]. split; [lia|]. split; [done|].
  split; [intros _; destruct (Z.lt_ge_cases (cycles + n) maxCycles) as [Hx|Hx]; [specialize (Hlow Hx); lia|specialize (Hz Hx); lia]|].
  split; [lia|]. apply (ran_turn cps sch sch3 sch4 n m dt); try done; lia.
Qed.
End Loop.

(** Awake, the timer runs tick by tick. *)
Lemma ready_awake {W R} `{SocWorld W} c0 (soc : Soc W R) sch l :
  soc_ready c0 soc sch l -> soc_asleep soc.(world) = false -> lastOf sch 0 <= sch.(accTime) < lastOf sch 0 + TIMER_PERIOD.
Proof.
  intros [[I1 I2 I3 I4 I5] Hwf _ Hlate] Haw. destruct (timer_lag sch l Hwf I3) as (H0in & Hlag & _ & Hdue).
  specialize (Hlate 0 H0in). destruct (I4 Haw) as [Hb|]; [rewrite Hb in Hdue; lia|lia].
Qed.

(** C19. The run loop ends and the guest's clock keeps the emulated time. From a
    SoC with nothing due, [socRun] returns; it runs at least the cycles asked for
    and at most nine more, the emulated time advances by the time these take, but
    for a nanosecond per turn at most, and the OS timer's counter follows the time
    the scheduler has served, in periods of 271 ns: whatever the guest sleeps, is
    woken by interrupts of the timer, the real-time clock or a device, and has its
    tasks started and stopped, no tick is lost or delivered twice. While the CPU is
    awake, the counter lags behind the time by less than a period. Nothing is due at
    the end, so the theorem applies to the next run. For CPU speeds from 40 MHz to
    4 GHz and some 140 years of emulated time. *)
Theorem soc_run_keeps_time {W R} `{SocWorld W} (D : Devices W R) (HD : devices_ok D) c0 cps maxCycles fuelA
    (soc : Soc W R) sch l
    (Hcps : 40000000 <= cps <= 4000000000) (Hmax : 0 < maxCycles) (Hready : soc_ready c0 soc sch l)
    (Htime : sch.(accTime) + 25 * (maxCycles + 9) < 2 ^ 62) (Hfuel : 8 * 2 ^ 62 < Z.of_nat fuelA) :
  exists cycles soc' sch' l',
    socRun D fuelA soc sch maxCycles cps = Ret (cycles, soc', sch') /\ soc_ready c0 soc' sch' l' /\
    maxCycles <= cycles <= maxCycles + 9 /\
    cycles * one_sec - cycles * cps <= (sch'.(accTime) - sch.(accTime)) * cps <= cycles * one_sec /\
    u32 (soc'.(tmr).(OSCR) - lastOf sch' 0 / TIMER_PERIOD) = u32 (soc.(tmr).(OSCR) - lastOf sch 0 / TIMER_PERIOD) /\
    (soc_asleep soc'.(world) = false -> lastOf sch' 0 <= sch'.(accTime) < lastOf sch' 0 + TIMER_PERIOD).
Proof.
  pose proof (ss_time _ (is_sched _ _ _ (rd_step _ _ _ _ Hready))) as Hacc.
  destruct (run_loop D HD c0 cps maxCycles fuelA Hcps ltac:(lia) Hfuel (S (Z.to_nat maxCycles)) soc sch l 0 Hready
    ltac:(lia) ltac:(lia) ltac:(lia)) as (n & s' & sch' & l' & E & Hn & Hrd & Hlow & _ & [Hr _]).
  exists n, s', sch', l'. split; [exact E|]. split; [done|]. split; [by apply Hlow|]. split; [done|].
  split; [|by eapply ready_awake].
  pose proof (is_clock _ _ _ (rd_step _ _ _ _ Hrd)) as C. by rewrite <- (is_clock _ _ _ (rd_step _ _ _ _ Hready)) in C.
Qed.

(** ** A SoC *)

Definition quietDevices : Devices (IcWorld CpuSoc.SoC) unit := {|
  cpuCycle soc c := Ret (c, soc);
  pxaLcdTick soc := Ret soc;
  socI2sPeriodic soc := Ret soc;
  devicePcmPeriodic soc := Ret soc;
  socDmaPeriodic soc := Ret soc;
  socUartProcess _ soc := Ret soc;
  socSspPeriodic _ soc := Ret soc;
  devicePeriodic soc := Ret soc;
  deviceTouch _ _ soc := Ret soc;
  deviceKey _ _ soc := Ret soc;
  keypadKeyEvt _ _ soc := Ret soc;
  socDmaTaskRequired _ := false;
  deviceTaskRequired _ := false;
  socSspTaskRequired _ _ := false;
  socUartTaskRequired _ _ := false;
  dev := true;
  hwUart := true;
  ssp _ := false;
  deviceI2sConnected := true
|}.

Lemma quietDevices_ok : devices_ok quietDevices.
Proof.
  split; try (intros; apply quietly_ret). intros soc c Hok Haw Hc. exists c, soc. split; [done|]. split; [lia|].
  split; [done|]. split; [done|]. exists []. by repeat split.
Qed.

(** The scheduler as it is set up. *)
Definition setupScheduler : Scheduler := Eval vm_compute in
  match socSetupScheduler quietDevices newScheduler with Ret sch => sch | _ => newScheduler end.

Definition setupQueue := [0; 5; 3; 4; 2; 6; 1].

Lemma setup_ret : socSetupScheduler quietDevices newScheduler = Ret setupScheduler.
Proof. by vm_compute. Qed.

Lemma setup_wf : sched_wf setupScheduler setupQueue.
Proof. concrete_wf. Qed.

Ltac each_task u Hu :=
  apply all_tasks_in in Hu; unfold all_tasks in Hu;
  repeat (apply elem_of_cons in Hu as [->|Hu]; [by vm_compute|]); by apply elem_of_nil in Hu.

Lemma setup_sched : soc_sched setupScheduler.
Proof.
  split.
  - by vm_compute.
  - by vm_compute.
  - split; [done|]. split; [done|]. by vm_compute.
  - done.
  - done.
  - intros u Hu. each_task u Hu.
  - by vm_compute.
  - intros u Hu. each_task u Hu.
Qed.

Definition resetIc : SocIc CpuSoc.SoC := socIcInit soc_reset 0.

(** A SoC that sleeps, with a match of the timer ahead. *)
Definition asleepIc : SocIc CpuSoc.SoC := { resetIc with ic_env ::= fun e => { e with soc_sleeping := true } }.

Lemma asleepIc_wf : ic_wf asleepIc.
Proof.
  split; (split; [done|]); [..|apply Forall_replicate; is_u_lit]; cbn; forall_list; is_u_lit.
Qed.

Definition demo_world : IcWorld CpuSoc.SoC := mkIcWorld asleepIc asleepIc_wf.

Definition demo_timer_at (osmr : Z) : PxaTimr (IcWorld CpuSoc.SoC) := mkPxaTimr demo_world [osmr; 0; 0; 0] 0 1 0 0.

Definition demo_soc : Soc (IcWorld CpuSoc.SoC) unit :=
  mkSoc demo_world (demo_timer_at 40) (pxaRtcInit demo_world) () false false true (newQueue 64) (newQueue 64).

Lemma demo_timer_at_wf osmr : is_u 32 osmr -> timr_wf (demo_timer_at osmr).
Proof. intros Ho. constructor; cbn; [|is_u_lit..]. split; [done|]. forall_list; (exact Ho || is_u_lit). Qed.

Lemma demo_soc_ready : soc_ready 0 demo_soc setupScheduler setupQueue.
Proof.
  split.
  - split; [|done|exact setup_sched|by left|done].
    split; [by apply demo_timer_at_wf|]. split; [done|]. split; apply newQueue_ok; lia.
  - exact setup_wf.
  - by intros t [= <-].
  - intros u Hu. each_member Hu.
Qed.

Definition ample (_ : unit) : nat := Z.to_nat (2 ^ 66).

Lemma soc_run_keeps_time_witness :
  exists cycles soc' sch' l',
    socRun quietDevices (ample ()) demo_soc setupScheduler 1000000 100000000 = Ret (cycles, soc', sch') /\
    soc_ready 0 soc' sch' l' /\
    1000000 <= cycles <= 1000000 + 9 /\
    cycles * one_sec - cycles * 100000000 <= (sch'.(accTime) - setupScheduler.(accTime)) * 100000000 <= cycles * one_sec /\
    u32 (soc'.(tmr).(OSCR) - lastOf sch' 0 / TIMER_PERIOD) =
      u32 (demo_soc.(tmr).(OSCR) - lastOf setupScheduler 0 / TIMER_PERIOD) /\
    (soc_asleep soc'.(world) = false -> lastOf sch' 0 <= sch'.(accTime) < lastOf sch' 0 + TIMER_PERIOD).
Proof.
  apply (soc_run_keeps_time quietDevices quietDevices_ok 0 100000000 1000000 (ample ()) demo_soc setupScheduler setupQueue).
  - lia.
  - lia.
  - exact demo_soc_ready.
  - by vm_compute.
  - unfold ample. rewrite Z2Nat.id; by vm_compute.
Defined.

(** ** Where the clock and the tasks go wrong *)

(** At 3 MHz a cycle takes 333 ns and the scheduler can be two ticks past the
    sleeping timer's deadline when it serves it. If the tick wakes the CPU,
    [socWakeup] raises the task's batch to the ticks that have gone by, the
    scheduler takes them for served, but the timer was only told of the batch it
    had: the guest's clock loses the difference. *)
Definition lateScheduler : Scheduler := Eval vm_compute in
  match ScheduleTask newScheduler SCHEDULER_TASK_TIMER TIMER_PERIOD 40 with
  | Ret sch => elapse sch (40 * 271 + 300) | _ => newScheduler end.

Definition sleepingScheduler : Scheduler := Eval vm_compute in
  match ScheduleTask newScheduler SCHEDULER_TASK_TIMER TIMER_PERIOD 40 with Ret sch => sch | _ => newScheduler end.

Definition listeningIc : SocIc CpuSoc.SoC := { asleepIc with ICMR := [2 ^ PXA_I_TIMR0; 0] }.

Lemma listeningIc_wf : ic_wf listeningIc.
Proof.
  split; (split; [done|]); [..|apply Forall_replicate; is_u_lit]; cbn; forall_list; is_u_lit.
Qed.

Definition listening_world : IcWorld CpuSoc.SoC := mkIcWorld listeningIc listeningIc_wf.

Definition listening_soc : Soc (IcWorld CpuSoc.SoC) unit :=
  mkSoc listening_world (mkPxaTimr listening_world [40; 0; 0; 0] 0 1 0 0) (pxaRtcInit listening_world) ()
    false false true (newQueue 64) (newQueue 64).

(** Awake or not, the ticks the scheduler has served, the ticks the guest sees. *)
Definition clocks (r : outcome (Soc (IcWorld CpuSoc.SoC) unit * Scheduler)) : option (bool * Z * Z) :=
  match r with Ret (soc, sch) => Some (soc_asleep soc.(world), lastOf sch 0 / TIMER_PERIOD, soc.(tmr).(OSCR)) | _ => None end.

Lemma slow_wakeup_loses_tick :
  clocks (Advance (DispatchTicks quietDevices) 50 listening_soc lateScheduler 0 3000000) = Some (false, 41, 40).
Proof. by vm_compute. Qed.

(** A wake-up outside [socRun] makes the timer overdue, and the time to the next
    update wraps around. *)
Lemma overdue_update_wraps :
  match RescheduleTaskImpl true (elapse sleepingScheduler (20 * 271 + 100)) SCHEDULER_TASK_TIMER 1 with
  | Ret sch => CyclesToNextUpdate sch 100000000
  | _ => 0
  end = 18446744064.
Proof. by vm_compute. Qed.

(** Without output the PCM task runs even when suspended, but switching the output
    off in suspension stops it, and resuming does not start it. *)
Lemma pcm_task_stays_stopped :
  let soc := { demo_soc with enablePcmOutput := true; pcmSuspended := true } in
  ( '(soc, sch) ← socSetPcmOutputEnabled soc setupScheduler false;
    '(soc, sch) ← socSetPcmSuspended soc sch false;
    Ret (batchedTicks (taskAt sch SCHEDULER_TASK_PCM))) = Ret 0.
Proof. by vm_compute. Qed.
