(* ===== verification/Gpio.v ===== *)
(** * The GPIO controller (pxa_GPIO.c)

    Four banks of 32 pins. A pin's level is its latch when it is an output and
    its input otherwise; changes of a level are reported to the pin's listener
    and latched as edges, which drive three interrupt lines.

    A listener may itself drive pins (the keypad does): it is an interaction
    [script], and a nested [socGpioSetState] runs with less [fuel]; running out
    of it ([Hang]) is the unbounded recursion of the C code. *)

From stdpp Require Import relations.
From S2P Require Import Prelude Interfaces.

Definition PXA_GPIO_BASE := 0x40E00000.

Record SocGpio (W CB : Type) := mkSocGpio {
  ic : W;
  socRev : Z;          (* uint8_t *)
  nGpios : Z;          (* uint8_t *)
  latches : list Z;    (* uint32_t[4] *)
  inputs : list Z;     (* uint32_t[4] *)
  levels : list Z;     (* uint32_t[4] *)
  dirs : list Z;       (* uint32_t[4]: 1 = output *)
  riseDet : list Z;    (* uint32_t[4] *)
  fallDet : list Z;    (* uint32_t[4] *)
  detStatus : list Z;  (* uint32_t[4] *)
  AFRs : list Z;       (* uint32_t[8] *)
  notifF : list (option CB);   (* [121], with its user data *)
  dirNotifF : option CB
}.
Arguments mkSocGpio {W CB}.
Arguments ic {W CB}.
Arguments socRev {W CB}.
Arguments nGpios {W CB}.
Arguments latches {W CB}.
Arguments inputs {W CB}.
Arguments levels {W CB}.
Arguments dirs {W CB}.
Arguments riseDet {W CB}.
Arguments fallDet {W CB}.
Arguments detStatus {W CB}.
Arguments AFRs {W CB}.
Arguments notifF {W CB}.
Arguments dirNotifF {W CB}.

(** What a listener does: it changes the rest of the SoC, and may drive pins,
    looking at the controller as it finds it after each. *)
Inductive script (W CB : Type) :=
| Stop (w : W)
| SetPin (gpioNum : Z) (on : bool) (k : SocGpio W CB -> script W CB).
Arguments Stop {W CB}.
Arguments SetPin {W CB}.

(** [enum SocGpioState] *)
Inductive SocGpioState :=
| SocGpioStateLow | SocGpioStateHigh | SocGpioStateHiZ
| SocGpioStateAFR (n : Z) (* SocGpioStateAFR0 + n *)
| SocGpioStateNoSuchGpio.

Section Operations.
Context {W CB : Type} `{IrqSink W}.
Context (call : CB -> Z -> bool -> bool -> SocGpio W CB -> script W CB).
Context (callDirs : CB -> SocGpio W CB -> script W CB).

Definition socGpioInit (w : W) (rev : Z) : SocGpio W CB :=
  mkSocGpio w rev (match rev with 0 => 85 | 1 => 90 | 2 => 121 | _ => 0 end)
    [0; 0; 0; 0] [0; 0; 0; 0] [0; 0; 0; 0] [0; 0; 0; 0] [0; 0; 0; 0] [0; 0; 0; 0] [0; 0; 0; 0]
    [0; 0; 0; 0; 0; 0; 0; 0] (replicate 121 None) None.

(** A listener's script, given how it sets pins. *)
Fixpoint runScript (setState : SocGpio W CB -> Z -> bool -> outcome (SocGpio W CB))
    (s : script W CB) (gpio : SocGpio W CB) : outcome (SocGpio W CB) :=
  match s with
  | Stop w => Ret { gpio with ic := w }
  | SetPin n on k => gpio ← setState gpio n on; runScript setState (k gpio) gpio
  end.

(** One turn of the notification loop; a pin past the end of [notifF] is
    outside the array. *)
Definition notifyBit (setState : SocGpio W CB -> Z -> bool -> outcome (SocGpio W CB))
    (which oldVal newVal : Z) (gpio : SocGpio W CB) (bit : Z) : outcome (SocGpio W CB) :=
  if negb (Z.testbit (newVal .^ oldVal) bit) then Ret gpio else
  let num := 32 * which + bit in
  if Z.of_nat (length gpio.(notifF)) <=? num then Undef else
  match gpio.(notifF).[num] with
  | Some f => runScript setState (call f num (Z.testbit oldVal bit) (Z.testbit newVal bit) gpio) gpio
  | None => Ret gpio
  end.

(** The bits from the most significant down. *)
Definition bits_down : list Z := (λ k, 31 - Z.of_nat k) <$> seq 0 32.

Definition pinValue (gpio : SocGpio W CB) (which : Z) : Z :=
  let val := gpio.(dirs).[which] in
  (gpio.(latches).[which] .& val) .| (gpio.(inputs).[which] .&~ val).

Definition socGpioPrvRecalcValues (setState : SocGpio W CB -> Z -> bool -> outcome (SocGpio W CB))
    (gpio : SocGpio W CB) (which : Z) : outcome (SocGpio W CB) :=
  let oldVal := gpio.(levels).[which] in
  if 4 <=? which then Hang (* "gpio overflow. halt" *) else
  let newVal := pinValue gpio which in
  gpio ← forM bits_down (notifyBit setState which oldVal newVal) gpio;
  let gpio := { gpio with levels ::= fun l => l.[which <- newVal] } in
  Ret (if negb (newVal =? oldVal) then
    let wentHi := newVal .&~ oldVal in
    let wentLo := oldVal .&~ newVal in
    { gpio with detStatus ::= fun d =>
        d.[which <- d.[which] .| ((wentHi .& gpio.(riseDet).[which])
                                  .| (wentLo .& gpio.(fallDet).[which]))] }
  else gpio).

Definition socGpioPrvRecalcIntrs (gpio : SocGpio W CB) : SocGpio W CB :=
  let d := gpio.(detStatus) in
  let gpio := { gpio with ic ::= fun w =>
    irq_int w PXA_I_GPIO_all (nz d.[3] || nz d.[2] || nz d.[1] || nz (d.[0] .&~ 3)) } in
  let gpio := { gpio with ic ::= fun w => irq_int w PXA_I_GPIO_1 (tst d.[0] 2) } in
  { gpio with ic ::= fun w => irq_int w PXA_I_GPIO_0 (tst d.[0] 1) }.

Fixpoint socGpioSetState (fuel : nat) (gpio : SocGpio W CB) (gpioNum : Z) (on : bool)
  : outcome (SocGpio W CB) :=
  match fuel with
  | O => Hang
  | S fuel =>
      let set := gpioNum .>> 5 in
      let v := 1 .<< (gpioNum .& 0x1F) in
      if gpio.(nGpios) <=? gpioNum then Ret gpio else
      let gpio := { gpio with inputs ::= fun p =>
        p.[set <- if on then p.[set] .| v else p.[set] .&~ v] } in
      gpio ← socGpioPrvRecalcValues (socGpioSetState fuel) gpio set;
      Ret (socGpioPrvRecalcIntrs gpio)
  end.

Definition socGpioGetState (gpio : SocGpio W CB) (gpioNum : Z) : SocGpioState :=
  let sSet := gpioNum .>> 5 in
  let bSet := gpioNum .>> 4 in
  let bShift := (gpioNum .& 0x0F) * 2 in
  let sV := 1 .<< (gpioNum .& 0x1F) in
  let bV := 3 .<< bShift in
  if gpio.(nGpios) <=? gpioNum then SocGpioStateNoSuchGpio else
  let afr := (gpio.(AFRs).[bSet] .& bV) .>> bShift in
  if (if (gpio.(socRev) =? 1) && (85 <? gpioNum) then negb (afr =? 1) else negb (afr =? 0))
  then SocGpioStateAFR afr else
  if tst gpio.(dirs).[sSet] sV then
    if tst gpio.(latches).[sSet] sV then SocGpioStateHigh else SocGpioStateLow
  else SocGpioStateHiZ.

Definition socGpioSetNotif (gpio : SocGpio W CB) (gpioNum : Z) (f : CB) : SocGpio W CB :=
  if gpio.(nGpios) <=? gpioNum then gpio
  else { gpio with notifF ::= fun l => l.[gpioNum <- Some f] }.

Definition socGpioSetDirsChangedNotif (gpio : SocGpio W CB) (f : CB) : SocGpio W CB :=
  { gpio with dirNotifF := Some f }.

(** The register file: which array a word offset belongs to, and which bank.
    The fourth bank's registers lie 61 words after their group. *)
Definition bankOf (pa first : Z) : option Z :=
  if (first <=? pa) && (pa <=? first + 2) then Some (pa - first)
  else if pa =? first + 64 then Some 3 else None.

(** The label [recalc:] and on. *)
Definition writeRecalc (fuel : nat) (gpio : SocGpio W CB) (which : Z) (dirsChanged : bool)
  : outcome (SocGpio W CB) :=
  gpio ← socGpioPrvRecalcValues (socGpioSetState fuel) gpio which;
  gpio ← match gpio.(dirNotifF) with
         | Some f => if dirsChanged
                     then runScript (socGpioSetState fuel) (callDirs f gpio) gpio
                     else Ret gpio
         | None => Ret gpio
         end;
  Ret (socGpioPrvRecalcIntrs gpio).

Definition socGpioWriteReg (fuel : nat) (gpio : SocGpio W CB) (pa val : Z)
  : outcome (SocGpio W CB) :=
  let recalc := writeRecalc fuel in
  match bankOf pa 3 with
  | Some i => recalc { gpio with dirs ::= fun r => r.[i <- val] } i true
  | None =>
  match bankOf pa 6 with
  | Some i => recalc { gpio with latches ::= fun r => r.[i <- r.[i] .| val] } i false
  | None =>
  match bankOf pa 9 with
  | Some i => recalc { gpio with latches ::= fun r => r.[i <- r.[i] .&~ val] } i false
  | None =>
  match bankOf pa 12 with
  | Some i => Ret { gpio with riseDet ::= fun r => r.[i <- val] }
  | None =>
  match bankOf pa 15 with
  | Some i => Ret { gpio with fallDet ::= fun r => r.[i <- val] }
  | None =>
  match bankOf pa 18 with
  | Some i =>
      Ret (socGpioPrvRecalcIntrs { gpio with detStatus ::= fun r => r.[i <- r.[i] .&~ val] })
  | None =>
      if (21 <=? pa) && (pa <=? 27) then
        recalc { gpio with AFRs ::= fun r => r.[pa - 21 <- val] } ((pa - 21) / 2) false
      else if pa =? 29 then Undef (* AFRs[8] *)
      else Ret gpio
  end end end end end end.

Definition socGpioReadReg (gpio : SocGpio W CB) (pa : Z) : Z :=
  match bankOf pa 0, bankOf pa 3, bankOf pa 12, bankOf pa 15, bankOf pa 18 with
  | Some i, _, _, _, _ => gpio.(levels).[i]
  | _, Some i, _, _, _ => gpio.(dirs).[i]
  | _, _, Some i, _, _ => gpio.(riseDet).[i]
  | _, _, _, Some i, _ => gpio.(fallDet).[i]
  | _, _, _, _, Some i => gpio.(detStatus).[i]
  | _, _, _, _, _ => if (21 <=? pa) && (pa <=? 28) then gpio.(AFRs).[pa - 21] else 0
  end.

Definition socGpioPrvMemAccessF (fuel : nat) (gpio : SocGpio W CB) (pa size : Z) (write : bool)
    (buf : Z) : outcome (access (SocGpio W CB)) :=
  let paOfst := pa .& 3 in
  let pa := u32 (pa - PXA_GPIO_BASE) .>> 2 in
  if write then
    if negb (size =? 4) then Ret (false, buf, gpio) else
    gpio ← socGpioWriteReg fuel gpio pa buf;
    Ret (true, buf, gpio)
  else
    let val := socGpioReadReg gpio pa .>> (8 * paOfst) in
    Ret (true,
      (if size =? 4 then val else if size =? 2 then u16 val else if size =? 1 then u8 val else buf),
      gpio).

End Operations.

(** ** Invariant *)

(** One bit of a four-bank array, by pin number. *)
Definition pin (regs : list Z) (n : Z) : bool := Z.testbit regs.[n / 32] (n mod 32).

Definition bank4 (regs : list Z) : Prop := length regs = 4%nat /\ Forall (is_u 32) regs.

Record gpio_wf {W CB} (g : SocGpio W CB) : Prop := {
  wf_latches : bank4 g.(latches);
  wf_inputs : bank4 g.(inputs);
  wf_levels : bank4 g.(levels);
  wf_dirs : bank4 g.(dirs);
  wf_rise : bank4 g.(riseDet);
  wf_fall : bank4 g.(fallDet);
  wf_det : bank4 g.(detStatus);
  wf_afrs : length g.(AFRs) = 8%nat;
  wf_notif : length g.(notifF) = 121%nat;
  wf_ngpios : g.(nGpios) <= 121;
  (* no pin past 120 is driven *)
  wf_top : is_u 25 g.(dirs).[3] /\ is_u 25 g.(inputs).[3]
}.

(** The levels are what the pins are driven to. *)
Definition levels_current {W CB} (g : SocGpio W CB) : Prop :=
  forall i, 0 <= i < 4 -> g.(levels).[i] = pinValue g i.

(** The interrupt lines are those of the latched edges. *)
Definition gpio_lines {W CB} `{IrqSink W} (g : SocGpio W CB) : Prop :=
  irq_pending g.(ic) PXA_I_GPIO_0 = pin g.(detStatus) 0 /\
  irq_pending g.(ic) PXA_I_GPIO_1 = pin g.(detStatus) 1 /\
  (irq_pending g.(ic) PXA_I_GPIO_all = true <->
   exists n, 2 <= n < 128 /\ pin g.(detStatus) n = true).

(** Listeners that do not drive pins. *)
Definition quiet {W CB} (call : CB -> Z -> bool -> bool -> SocGpio W CB -> script W CB)
    (callDirs : CB -> SocGpio W CB -> script W CB) : Prop :=
  (forall f n o v g, exists w, call f n o v g = Stop w) /\
  (forall f g, exists w, callDirs f g = Stop w).

Lemma bank4_aset regs i v : bank4 regs -> is_u 32 v -> bank4 (aset regs i v).
Proof. intros [Hl Hf] Hv. split; [by rewrite length_aset|by apply Forall_aset]. Qed.

Lemma bank4_is_u regs i : bank4 regs -> 0 <= i < 4 -> is_u 32 regs.[i].
Proof. intros [Hl Hf] Hi. apply Forall_aget; [done|lia]. Qed.

#[export] Hint Resolve bank4_aset bank4_is_u : uarm.

Lemma bits_down_spec b : b ∈ bits_down <-> 0 <= b < 32.
Proof.
  unfold bits_down. rewrite list_elem_of_fmap. setoid_rewrite elem_of_seq. split.
  - intros (k & -> & Hk). lia.
  - intros Hb. exists (Z.to_nat (31 - b)). lia.
Qed.

Lemma pin_index n : 0 <= n < 128 -> 0 <= n / 32 < 4 /\ 0 <= n mod 32 < 32.
Proof. intros. split; zdiv_lia. Qed.

Section Lemmas.
Context {W CB : Type} `{IrqSink W}.
Context (call : CB -> Z -> bool -> bool -> SocGpio W CB -> script W CB).
Context (callDirs : CB -> SocGpio W CB -> script W CB).
Context (Hquiet : quiet call callDirs).
Implicit Types g : SocGpio W CB.

(** Notifying quiet listeners changes only the world. *)
Lemma notify_quiet setState which old new g bits :
  (forall b, b ∈ bits -> Z.testbit (new .^ old) b = true ->
     32 * which + b < Z.of_nat (length g.(notifF))) ->
  exists w, forM bits (notifyBit call setState which old new) g = Ret { g with ic := w }.
Proof.
  revert g. induction bits as [|b bits IH]; intros g Hb.
  { exists g.(ic). by destruct g. }
  assert (exists w, notifyBit call setState which old new g b = Ret { g with ic := w }) as [w E].
  { unfold notifyBit. destruct (Z.testbit (new .^ old) b) eqn:Eb; cbn [negb].
    2:{ exists g.(ic). by destruct g. }
    specialize (Hb b ltac:(by left) Eb). destruct (Z.leb_spec (Z.of_nat (length (notifF g))) (32 * which + b)); [lia|].
    destruct (notifF g).[32 * which + b] as [f|]; [|exists g.(ic); by destruct g].
    destruct (proj1 Hquiet f (32 * which + b) (Z.testbit old b) (Z.testbit new b) g) as [w ->].
    by exists w. }
  cbn [forM]. rewrite E. cbn [mbind outcome_bind].
  destruct (IH { g with ic := w }) as [w' E'].
  { intros b' Hb' Ht. destruct g; cbn in *. apply Hb; [by right|done]. }
  exists w'. rewrite E'. by destruct g.
Qed.

(** Edges latched when a bank goes from [old] to [new]. *)
Definition edges (old new rise fall : Z) : Z :=
  ((new .&~ old) .& rise) .| ((old .&~ new) .& fall).

Lemma edges_none v rise fall : edges v v rise fall = 0.
Proof. unfold edges. by rewrite Z.ldiff_diag, !Z.land_0_l. Qed.

Definition recalculated g (w : W) (which : Z) : SocGpio W CB :=
  let old := g.(levels).[which] in
  let new := pinValue g which in
  { g with ic := w;
           levels ::= fun l => l.[which <- new];
           detStatus ::= fun d =>
             d.[which <- d.[which] .| edges old new g.(riseDet).[which] g.(fallDet).[which]] }.

Lemma recalc_quiet setState g which :
  0 <= which < 4 ->
  (forall b, 0 <= b < 32 -> Z.testbit (pinValue g which .^ g.(levels).[which]) b = true ->
     32 * which + b < Z.of_nat (length g.(notifF))) ->
  exists w, socGpioPrvRecalcValues call setState g which = Ret (recalculated g w which).
Proof.
  intros Hi Hb. unfold socGpioPrvRecalcValues. destruct (Z.leb_spec 4 which); [lia|].
  destruct (notify_quiet setState which g.(levels).[which] (pinValue g which) g bits_down) as [w ->].
  { intros b Hd. apply Hb. by apply bits_down_spec. }
  exists w. cbn [mbind outcome_bind]. f_equal. unfold recalculated.
  destruct (Z.eqb_spec (pinValue g which) g.(levels).[which]) as [E|]; cbn [negb];
    [|by destruct g].
  rewrite E, edges_none. destruct g; cbn. by rewrite Z.lor_0_r, !aset_same.
Qed.

Lemma pinValue_top g : gpio_wf g -> is_u 25 (pinValue g 3).
Proof.
  intros []. unfold pinValue. destruct wf_top0.
  apply is_u_lor; [by apply is_u_land_r|by apply is_u_ldiff|lia].
Qed.

Lemma pinValue_is_u g i : gpio_wf g -> 0 <= i < 4 -> is_u 32 (pinValue g i).
Proof.
  intros [] Hi. unfold pinValue.
  apply is_u_lor; [apply is_u_land_l|apply is_u_ldiff|]; eauto with uarm; lia.
Qed.

(** With the old levels in range, no listener past the array is called. *)
Lemma no_overrun g which b :
  gpio_wf g -> 0 <= which < 4 -> (which = 3 -> is_u 25 g.(levels).[3]) -> 0 <= b < 32 ->
  Z.testbit (pinValue g which .^ g.(levels).[which]) b = true ->
  32 * which + b < Z.of_nat (length g.(notifF)).
Proof.
  intros Hw Hi Htop Hb Ht. rewrite (wf_notif _ Hw).
  destruct (Z.eq_dec which 3) as [->|]; [|lia].
  destruct (Z.lt_ge_cases b 25); [lia|]. rewrite Z.lxor_spec in Ht.
  rewrite (testbit_above 25 (pinValue g 3)), (testbit_above 25 g.(levels).[3]) in Ht;
    [done|by apply Htop|lia|by apply pinValue_top|lia].
Qed.

Lemma edges_is_u old new rise fall :
  is_u 32 old -> is_u 32 new -> is_u 32 (edges old new rise fall).
Proof.
  intros. unfold edges. apply is_u_lor; [| |lia]; apply is_u_land_l; try lia; by apply is_u_ldiff.
Qed.

Lemma recalculated_wf g w which :
  gpio_wf g -> 0 <= which < 4 -> gpio_wf (recalculated g w which).
Proof.
  intros Hw Hi. pose proof (pinValue_is_u g which Hw Hi) as Hp. destruct Hw as [].
  pose proof (bank4_is_u _ which wf_levels0 Hi) as Hl.
  pose proof (bank4_is_u _ which wf_det0 Hi) as Hd.
  unfold recalculated. set (pv := pinValue g which) in *. clearbody pv.
  pose proof (edges_is_u _ pv (riseDet g).[which] (fallDet g).[which] Hl Hp) as He.
  destruct g; constructor; cbn in *; try done; apply bank4_aset; try done.
  apply is_u_lor; (done || lia).
Qed.

Lemma intrs_lines g : bank4 g.(detStatus) -> gpio_lines (socGpioPrvRecalcIntrs g).
Proof.
  intros Hd. assert (forall i, 0 <= i < 4 -> is_u 32 g.(detStatus).[i]) as Hu
    by (intros; by apply bank4_is_u).
  unfold gpio_lines, socGpioPrvRecalcIntrs, pin, PXA_I_GPIO_0, PXA_I_GPIO_1, PXA_I_GPIO_all.
  destruct g as [w sr ng la inp le di ri fa d af nf dn]; cbn in *.
  rewrite !irq_pending_int by lia. cbn [Z.eqb Pos.eqb].
  change (tst d.[0] 1) with (tst d.[0] (2 ^ 0)). change (tst d.[0] 2) with (tst d.[0] (2 ^ 1)).
  rewrite !tst_bit by lia. split; [done|]. split; [done|].
  rewrite !orb_true_iff, !(nz_exists 32) by (try apply is_u_ldiff; (lia || apply Hu; lia)).
  split.
  - intros [[[(j & Hj & E)|(j & Hj & E)]|(j & Hj & E)]|(j & Hj & E)];
      [exists (96 + j)|exists (64 + j)|exists (32 + j)|exists j].
    1-3: split; [lia|].
    1: replace ((96 + j) / 32) with 3 by zdiv_lia; replace ((96 + j) mod 32) with j by zdiv_lia; done.
    1: replace ((64 + j) / 32) with 2 by zdiv_lia; replace ((64 + j) mod 32) with j by zdiv_lia; done.
    1: replace ((32 + j) / 32) with 1 by zdiv_lia; replace ((32 + j) mod 32) with j by zdiv_lia; done.
    rewrite Z.ldiff_spec in E. apply andb_true_iff in E as [E E3].
    assert (2 <= j).
    { destruct (Z.eq_dec j 0) as [->|]; [done|]. destruct (Z.eq_dec j 1) as [->|]; [done|lia]. }
    split; [lia|]. rewrite Z.div_small, Z.mod_small by lia. done.
  - intros (n & Hn & E). destruct (pin_index n ltac:(lia)) as [Hi Hj].
    assert (n / 32 = 0 \/ n / 32 = 1 \/ n / 32 = 2 \/ n / 32 = 3) as [Ei|[Ei|[Ei|Ei]]] by lia;
      rewrite Ei in E.
    + right. exists (n mod 32). split; [done|]. rewrite Z.ldiff_spec, E. cbn.
      assert (2 <= n mod 32) by zdiv_lia. change 3 with (Z.ones 2).
      rewrite Z.testbit_ones_nonneg by lia. destruct (Z.ltb_spec (n mod 32) 2); (done || lia).
    + left. right. eauto.
    + left. left. right. eauto.
    + left. left. left. eauto.
Qed.

Lemma recalculated_levels g w which :
  gpio_wf g -> 0 <= which < 4 ->
  (forall i, 0 <= i < 4 -> i <> which -> g.(levels).[i] = pinValue g i) ->
  levels_current (recalculated g w which).
Proof.
  intros Hw Hi Hother i Hi'. pose proof (wf_levels _ Hw) as [Hl _].
  assert (forall j, pinValue (recalculated g w which) j = pinValue g j) as -> by by destruct g.
  assert ((recalculated g w which).(levels) = aset g.(levels) which (pinValue g which)) as ->
    by by destruct g.
  rewrite aget_aset by lia. destruct (Z.eqb_spec which i) as [->|]; auto.
Qed.

Definition gpio_inv g : Prop := gpio_wf g /\ levels_current g /\ gpio_lines g.

Lemma intrs_wf g : gpio_wf g -> gpio_wf (socGpioPrvRecalcIntrs g).
Proof. intros []. destruct g; by constructor. Qed.

Lemma intrs_levels g : levels_current g -> levels_current (socGpioPrvRecalcIntrs g).
Proof. intros Hl i Hi. specialize (Hl i Hi). by destruct g. Qed.

Lemma intrs_inv g : gpio_wf g -> levels_current g -> gpio_inv (socGpioPrvRecalcIntrs g).
Proof.
  intros Hw Hl. split; [by apply intrs_wf|]. split; [by apply intrs_levels|].
  apply intrs_lines, Hw.
Qed.

(** Recalculating a bank after its latches, inputs or directions changed. *)
Lemma recalc_inv setState g which :
  gpio_wf g -> 0 <= which < 4 ->
  (which = 3 -> is_u 25 g.(levels).[3]) ->
  (forall i, 0 <= i < 4 -> i <> which -> g.(levels).[i] = pinValue g i) ->
  exists w, socGpioPrvRecalcValues call setState g which = Ret (recalculated g w which) /\
    gpio_wf (recalculated g w which) /\ levels_current (recalculated g w which).
Proof.
  intros Hw Hi Htop Hother.
  destruct (recalc_quiet setState g which Hi) as [w E].
  { intros b Hb Ht. by apply no_overrun. }
  exists w. split; [done|]. split; [by apply recalculated_wf|by apply recalculated_levels].
Qed.

Lemma current_top g : gpio_wf g -> levels_current g -> is_u 25 g.(levels).[3].
Proof. intros Hw Hl. rewrite Hl by lia. by apply pinValue_top. Qed.

Lemma one_is_u n w : 0 <= n < w -> is_u w (1 .<< n).
Proof. intros. rewrite Z.shiftl_1_l. split; [apply Z.pow_nonneg|apply Z.pow_lt_mono_r]; lia. Qed.

(** The state a pin change recalculates from. *)
Definition withInput g (n : Z) (on : bool) : SocGpio W CB :=
  let set := n .>> 5 in
  let v := 1 .<< (n .& 0x1F) in
  { g with inputs ::= fun p => p.[set <- if on then p.[set] .| v else p.[set] .&~ v] }.

Lemma pin_position n : n .>> 5 = n / 32 /\ n .& 0x1F = n mod 32.
Proof. split; [by rewrite Z.shiftr_div_pow2|exact (land_low 5 n ltac:(lia))]. Qed.

Lemma withInput_wf g n on : gpio_wf g -> 0 <= n < g.(nGpios) -> gpio_wf (withInput g n on).
Proof.
  intros Hw Hn. unfold withInput. destruct (pin_position n) as [-> ->].
  pose proof (wf_ngpios _ Hw). destruct (pin_index n ltac:(lia)) as [Hi Hj].
  pose proof (one_is_u (n mod 32) 32 Hj) as Hone.
  destruct Hw as []. pose proof (bank4_is_u _ (n / 32) wf_inputs0 Hi) as Hin.
  assert (n / 32 = 3 -> is_u 25 (1 .<< (n mod 32))) as H25.
  { intros E. apply one_is_u. zdiv_lia. }
  destruct g; constructor; cbn in *; try done.
  - apply bank4_aset; [done|]. destruct on; [apply is_u_lor|apply is_u_ldiff]; (done || lia).
  - split; [apply wf_top0|]. destruct wf_inputs0 as [Hl _]. rewrite aget_aset by lia.
    destruct (Z.eqb_spec (n / 32) 3) as [E|]; [|apply wf_top0]. rewrite E.
    destruct on; [apply is_u_lor|apply is_u_ldiff]; (apply wf_top0 || lia || auto).
Qed.

Lemma withInput_value g n on i :
  gpio_wf g -> 0 <= n < g.(nGpios) -> 0 <= i < 4 -> forall j, 0 <= j < 32 ->
  Z.testbit (pinValue (withInput g n on) i) j =
  if (32 * i + j =? n) && negb (Z.testbit g.(dirs).[i] j) then on
  else Z.testbit (pinValue g i) j.
Proof.
  intros Hw Hn Hi j Hj. unfold withInput, pinValue. destruct (pin_position n) as [-> ->].
  pose proof (wf_ngpios _ Hw). destruct (pin_index n ltac:(lia)) as [Hni Hnj].
  pose proof (wf_inputs _ Hw) as [Hl _].
  destruct g as [w sr ng la inp le di]; cbn in *. rewrite !Z.lor_spec, !Z.land_spec, !Z.ldiff_spec.
  rewrite aget_aset by lia.
  destruct (Z.eqb_spec (n / 32) i) as [E|].
  - assert ((32 * i + j =? n) = (n mod 32 =? j)) as ->.
    { apply eq_true_iff_eq. rewrite !Z.eqb_eq. zdiv_lia. }
    rewrite E. destruct on; rewrite ?Z.lor_spec, ?Z.ldiff_spec, testbit_1_shiftl by lia;
      destruct (n mod 32 =? j), (Z.testbit di.[i] j), (Z.testbit inp.[i] j), (Z.testbit la.[i] j);
      done.
  - assert ((32 * i + j =? n) = false) as ->; [|done]. apply Z.eqb_neq. intros E. zdiv_lia.
Qed.

Lemma withInput_other g n on i :
  gpio_wf g -> 0 <= n < g.(nGpios) -> 0 <= i -> i <> n .>> 5 ->
  pinValue (withInput g n on) i = pinValue g i.
Proof.
  intros Hw Hn Hi Hne. destruct (pin_position n) as [E1 E2]. rewrite E1 in Hne.
  unfold withInput, pinValue. rewrite E1.
  destruct g; cbn. rewrite aget_aset_ne; [done| |lia|done]. zdiv_lia.
Qed.

Lemma setState_spec fuel g n on :
  gpio_inv g -> 0 <= n < g.(nGpios) ->
  exists w, socGpioSetState call (S fuel) g n on =
      Ret (socGpioPrvRecalcIntrs (recalculated (withInput g n on) w (n .>> 5))) /\
    gpio_inv (socGpioPrvRecalcIntrs (recalculated (withInput g n on) w (n .>> 5))).
Proof.
  intros (Hw & Hl & _) Hn. pose proof (wf_ngpios _ Hw).
  assert (0 <= n .>> 5 < 4) as Hi.
  { destruct (pin_position n) as [-> _]. apply pin_index. lia. }
  assert (forall i, (withInput g n on).(levels).[i] = g.(levels).[i]) as Elev by (intros; by destruct g).
  destruct (recalc_inv (socGpioSetState call fuel) (withInput g n on) (n .>> 5))
    as (w & E & Hw' & Hl').
  - by apply withInput_wf.
  - done.
  - intros _. rewrite Elev. by apply current_top.
  - intros i Hi' Hne. rewrite Elev, withInput_other by (done || lia). by apply Hl.
  - exists w. split; [|by apply intrs_inv].
    cbn [socGpioSetState]. destruct (Z.leb_spec g.(nGpios) n); [lia|].
    fold (withInput g n on). by rewrite E.
Qed.

(** ** Register writes *)

Lemma bankOf_range pa first i : bankOf pa first = Some i -> 0 <= i < 4.
Proof.
  unfold bankOf. destruct (Z.leb_spec first pa), (Z.leb_spec pa (first + 2)); cbn [andb];
    try (by intros [= <-]; lia); destruct (_ =? _); by intros [= <-].
Qed.

(** The tail every recalculating write shares. *)
Lemma write_recalc fuel g which (dirsChanged : bool) :
  gpio_wf g -> 0 <= which < 4 -> (which = 3 -> is_u 25 g.(levels).[3]) ->
  (forall i, 0 <= i < 4 -> i <> which -> g.(levels).[i] = pinValue g i) ->
  exists g', writeRecalc call callDirs fuel g which dirsChanged = Ret g' /\ gpio_inv g'.
Proof.
  intros Hw Hi Htop Hother. unfold writeRecalc.
  destruct (recalc_inv (socGpioSetState call fuel) g which Hw Hi Htop Hother) as (w & -> & Hw' & Hl').
  set (g1 := recalculated g w which) in *. clearbody g1. cbn [mbind outcome_bind].
  assert (forall w, gpio_inv (socGpioPrvRecalcIntrs { g1 with ic := w })) as Hworld.
  { intros w'. apply intrs_inv.
    - destruct Hw'; destruct g1; by constructor.
    - intros i Hi'. specialize (Hl' i Hi'). by destruct g1. }
  destruct g1.(dirNotifF) as [f|]; [destruct dirsChanged|]; cbn [mbind outcome_bind].
  - destruct (proj2 Hquiet f g1) as [w' ->]. cbn. eexists. split; [done|]. apply Hworld.
  - eexists. split; [done|]. by apply intrs_inv.
  - eexists. split; [done|]. by apply intrs_inv.
Qed.

Lemma write_inv fuel g pa val :
  gpio_inv g -> is_u 32 val -> pa <> 29 -> (bankOf pa 3 = Some 3 -> is_u 25 val) ->
  exists g', socGpioWriteReg call callDirs fuel g pa val = Ret g' /\ gpio_inv g'.
Proof.
  intros (Hw & Hl & Hi) Hv Hpa Htop. unfold socGpioWriteReg.
  pose proof (current_top g Hw Hl) as Hlt.
  destruct (bankOf pa 3) as [i|] eqn:E3.
  { pose proof (bankOf_range _ _ _ E3). apply write_recalc; [|done|by intros _; destruct g|].
    - destruct Hw. destruct wf_dirs0 as [Hld Hfd]. destruct g; constructor; cbn in *; try done.
      + apply bank4_aset; [by split|done].
      + split; [|apply wf_top0]. rewrite aget_aset by lia.
        destruct (Z.eqb_spec i 3) as [->|]; [by apply Htop|apply wf_top0].
    - intros j Hj Hne. specialize (Hl j Hj). destruct g; unfold pinValue in *; cbn in *.
      by rewrite aget_aset_ne by lia. }
  destruct (bankOf pa 6) as [i|] eqn:E6.
  { pose proof (bankOf_range _ _ _ E6). apply write_recalc; [|done|by intros _; destruct g|].
    - destruct Hw. pose proof (bank4_is_u _ i wf_latches0 ltac:(done)).
      destruct g; constructor; cbn in *; try done.
      apply bank4_aset; [done|]. apply is_u_lor; (done || lia).
    - intros j Hj Hne. specialize (Hl j Hj). destruct g; unfold pinValue in *; cbn in *.
      by rewrite aget_aset_ne by lia. }
  destruct (bankOf pa 9) as [i|] eqn:E9.
  { pose proof (bankOf_range _ _ _ E9). apply write_recalc; [|done|by intros _; destruct g|].
    - destruct Hw. pose proof (bank4_is_u _ i wf_latches0 ltac:(done)).
      destruct g; constructor; cbn in *; try done.
      apply bank4_aset; [done|]. apply is_u_ldiff; (done || lia).
    - intros j Hj Hne. specialize (Hl j Hj). destruct g; unfold pinValue in *; cbn in *.
      by rewrite aget_aset_ne by lia. }
  destruct (bankOf pa 12) as [i|] eqn:E12.
  { eexists. split; [done|]. split; [|split].
    - destruct Hw; destruct g; constructor; cbn in *; try done. by apply bank4_aset.
    - intros j Hj. specialize (Hl j Hj). by destruct g.
    - by destruct g. }
  destruct (bankOf pa 15) as [i|] eqn:E15.
  { eexists. split; [done|]. split; [|split].
    - destruct Hw; destruct g; constructor; cbn in *; try done. by apply bank4_aset.
    - intros j Hj. specialize (Hl j Hj). by destruct g.
    - by destruct g. }
  destruct (bankOf pa 18) as [i|] eqn:E18.
  { pose proof (bankOf_range _ _ _ E18). eexists. split; [done|]. apply intrs_inv.
    - destruct Hw. pose proof (bank4_is_u _ i wf_det0 ltac:(done)).
      destruct g; constructor; cbn in *; try done.
      apply bank4_aset; [done|]. apply is_u_ldiff; (done || lia).
    - intros j Hj. specialize (Hl j Hj). by destruct g. }
  destruct ((21 <=? pa) && (pa <=? 27)) eqn:Ea.
  { apply andb_true_iff in Ea. rewrite !Z.leb_le in Ea.
    apply write_recalc; [|zdiv_lia|by intros _; destruct g|].
    - destruct Hw; destruct g; constructor; cbn in *; try done. by rewrite length_aset.
    - intros j Hj Hne. specialize (Hl j Hj). by destruct g. }
  destruct (Z.eqb_spec pa 29); [done|]. by exists g.
Qed.

(** What can happen to the controller: a pin is driven from outside, the CPU
    writes or reads a register, a listener is registered, and the rest of the
    SoC moves on without touching the three lines. *)
Inductive gpio_step g : SocGpio W CB -> Prop :=
| gpio_step_pin fuel n on g' :
    0 <= n -> socGpioSetState call (S fuel) g n on = Ret g' -> gpio_step g g'
| gpio_step_write fuel pa val g' :
    is_u 32 val -> (bankOf pa 3 = Some 3 -> is_u 25 val) ->
    socGpioWriteReg call callDirs fuel g pa val = Ret g' -> gpio_step g g'
| gpio_step_notif n f : 0 <= n -> gpio_step g (socGpioSetNotif g n f)
| gpio_step_dirs f : gpio_step g (socGpioSetDirsChangedNotif g f)
| gpio_step_world w :
    irq_pending w PXA_I_GPIO_0 = irq_pending g.(ic) PXA_I_GPIO_0 ->
    irq_pending w PXA_I_GPIO_1 = irq_pending g.(ic) PXA_I_GPIO_1 ->
    irq_pending w PXA_I_GPIO_all = irq_pending g.(ic) PXA_I_GPIO_all ->
    gpio_step g { g with ic := w }.

Lemma gpio_step_inv g g' : gpio_step g g' -> gpio_inv g -> gpio_inv g'.
Proof.
  intros Hstep Hinv. pose proof Hinv as (Hw & Hl & Hi).
  destruct Hstep as [fuel n on g' Hn E|fuel pa val g' Hv Ht E|n f Hn|f|w E0 E1 Ea].
  - destruct (Z.lt_ge_cases n g.(nGpios)).
    + destruct (setState_spec fuel g n on Hinv) as (w & E' & Hinv'); [done|].
      rewrite E' in E. by injection E as <-.
    + cbn in E. destruct (Z.leb_spec g.(nGpios) n); [by injection E as <-|lia].
  - destruct (Z.eq_dec pa 29) as [->|Hne]; [done|].
    destruct (write_inv fuel g pa val Hinv Hv Hne Ht) as (g1 & E' & Hinv').
    rewrite E' in E. by injection E as <-.
  - unfold socGpioSetNotif. destruct (_ <=? n); [done|]. split; [|split].
    + destruct Hw; destruct g; constructor; cbn in *; try done. by rewrite length_aset.
    + intros j Hj. specialize (Hl j Hj). by destruct g.
    + by destruct g.
  - split; [|split].
    + destruct Hw; destruct g; by constructor.
    + intros j Hj. specialize (Hl j Hj). by destruct g.
    + by destruct g.
  - split; [|split].
    + destruct Hw; destruct g; by constructor.
    + intros j Hj. specialize (Hl j Hj). by destruct g.
    + unfold gpio_lines in *. destruct g; cbn in *. by rewrite E0, E1, Ea.
Qed.

Lemma gpio_init_inv (w : W) rev :
  irq_pending w PXA_I_GPIO_0 = false -> irq_pending w PXA_I_GPIO_1 = false ->
  irq_pending w PXA_I_GPIO_all = false -> gpio_inv (socGpioInit (CB := CB) w rev).
Proof.
  intros E0 E1 Ea. assert (bank4 [0; 0; 0; 0]) as Hb by (split; [done|]; forall_list; is_u_lit).
  split; [|split].
  - constructor; try done. cbn.
    destruct rev as [|[rev|[rev|rev|]|]|rev]; lia.
  - intros i Hi. assert (i = 0 \/ i = 1 \/ i = 2 \/ i = 3) as [->|[->|[->| ->]]] by lia; reflexivity.
  - unfold gpio_lines; cbn. rewrite E0, E1, Ea. split; [done|]. split; [done|].
    split; [done|]. intros (n & Hn & E). unfold pin in E. exfalso.
    destruct (pin_index n ltac:(lia)) as [Hi _].
    assert (n / 32 = 0 \/ n / 32 = 1 \/ n / 32 = 2 \/ n / 32 = 3) as [F|[F|[F|F]]] by lia;
      rewrite F in E; change (Z.testbit 0 (n mod 32) = true) in E; by rewrite Z.testbit_0_l in E.
Qed.

Lemma gpio_run_inv g0 g : rtc gpio_step g0 g -> gpio_inv g0 -> gpio_inv g.
Proof. induction 1; eauto using gpio_step_inv. Qed.

End Lemmas.

(** C39. Driving a pin: [socGpioSetState] returns, sets the level of that pin (if it
    is an input) and of no other, latches exactly the edge that was armed on
    it, and leaves the three interrupt lines equal to the latched edges. The
    functions that are told about the pins are taken not to drive pins ([quiet]).
    The keypad of keys.c drives those of its matrix; the device of this repository
    has no matrix. *)
Theorem gpio_set_pin_exact {W CB : Type} `{IrqSink W}
    (call : CB -> Z -> bool -> bool -> SocGpio W CB -> script W CB)
    (callDirs : CB -> SocGpio W CB -> script W CB)
    (g : SocGpio W CB) (fuel : nat) (n : Z) (on : bool)
    (Hquiet : quiet call callDirs) (Hinv : gpio_inv g) (Hn : 0 <= n < g.(nGpios)) :
  exists g', socGpioSetState call (S fuel) g n on = Ret g' /\ gpio_inv g' /\
    forall m, 0 <= m < 121 ->
      let changed := (m =? n) && negb (pin g.(dirs) m) in
      pin g'.(levels) m = (if changed then on else pin g.(levels) m) /\
      pin g'.(detStatus) m =
        pin g.(detStatus) m ||
        (changed && ((on && negb (pin g.(levels) m) && pin g.(riseDet) m) ||
                     (negb on && pin g.(levels) m && pin g.(fallDet) m))).
Proof.
  destruct (setState_spec call callDirs Hquiet fuel g n on Hinv Hn) as (w & E & Hinv').
  eexists. split; [exact E|]. split; [exact Hinv'|]. clear E Hinv'.
  intros m Hm. destruct Hinv as (Hw & Hl & _). destruct (pin_position n) as [E1 _]. rewrite E1.
  pose proof (wf_ngpios _ Hw). destruct (pin_index m ltac:(lia)) as [Hmi Hmj].
  destruct (pin_index n ltac:(lia)) as [Hni _].
  pose proof (withInput_value g n on (m / 32) Hw Hn Hmi (m mod 32) Hmj) as Hv.
  replace (32 * (m / 32) + m mod 32) with m in Hv by zdiv_lia.
  pose proof (Hl (m / 32) Hmi) as Hlm. rewrite <- Hlm in Hv.
  fold (pin g.(dirs) m) (pin g.(levels) m) in Hv.
  pose proof (wf_levels _ Hw) as [Ll _]. pose proof (wf_det _ Hw) as [Ld _].
  cbv zeta. set (pv := pinValue (withInput g n on) (n / 32)).
  set (g' := socGpioPrvRecalcIntrs _).
  assert (g'.(levels) = aset g.(levels) (n / 32) pv) as EL by by destruct g.
  assert (g'.(detStatus) = aset g.(detStatus) (n / 32) (g.(detStatus).[n / 32] .|
    edges g.(levels).[n / 32] pv g.(riseDet).[n / 32] g.(fallDet).[n / 32])) as ED by by destruct g.
  clearbody g'. rewrite EL, ED.
  assert (n / 32 = m / 32 -> Z.testbit pv (m mod 32) =
    if (m =? n) && negb (pin g.(dirs) m) then on else pin g.(levels) m) as Hpv
    by (intros Ei; subst pv; by rewrite Ei).
  clearbody pv.
  assert (forall l v, pin (aset l (n / 32) v) m = Z.testbit (aset l (n / 32) v).[m / 32] (m mod 32))
    as Epin by done.
  rewrite !Epin, !aget_aset by lia.
  destruct (Z.eqb_spec (n / 32) (m / 32)) as [Ei|Hne].
  - rewrite Z.lor_spec. unfold edges. rewrite Z.lor_spec, !Z.land_spec, !Z.ldiff_spec.
    rewrite Hpv by done. rewrite Ei.
    fold (pin g.(detStatus) m) (pin g.(levels) m) (pin g.(riseDet) m) (pin g.(fallDet) m).
    split; [done|]. destruct ((m =? n) && negb (pin g.(dirs) m)); cbn [andb];
      destruct (pin g.(detStatus) m), (pin g.(levels) m), (pin g.(riseDet) m),
        (pin g.(fallDet) m), on; done.
  - assert ((m =? n) = false) as -> by (apply Z.eqb_neq; congruence).
    cbn [andb]. by rewrite orb_false_r.
Qed.

(** In every run from reset, with listeners that do not drive pins themselves:
    every pin reads as its latch if it is an output and as its input
    otherwise, the interrupt lines are the latched edges, and every register
    write to a pin that exists returns. *)
Theorem gpio_run_consistent {W CB : Type} `{IrqSink W}
    (call : CB -> Z -> bool -> bool -> SocGpio W CB -> script W CB)
    (callDirs : CB -> SocGpio W CB -> script W CB) (w : W) (rev : Z) (g : SocGpio W CB)
    (Hquiet : quiet call callDirs)
    (Hreset : irq_pending w PXA_I_GPIO_0 = false /\ irq_pending w PXA_I_GPIO_1 = false /\
              irq_pending w PXA_I_GPIO_all = false)
    (Hrun : rtc (gpio_step call callDirs) (socGpioInit w rev) g) :
  (forall i, 0 <= i < 4 -> g.(levels).[i] = pinValue g i) /\ gpio_lines g /\
  forall fuel pa val, is_u 32 val -> pa <> 29 -> (bankOf pa 3 = Some 3 -> is_u 25 val) ->
    exists g', socGpioWriteReg call callDirs fuel g pa val = Ret g'.
Proof.
  destruct Hreset as (E0 & E1 & Ea).
  pose proof (gpio_run_inv call callDirs Hquiet _ _ Hrun (gpio_init_inv w rev E0 E1 Ea)) as Hinv.
  split; [apply Hinv|]. split; [apply Hinv|]. intros fuel pa val Hv Hne Ht.
  destruct (write_inv call callDirs Hquiet fuel g pa val Hinv Hv Hne Ht) as (g' & E & _). by exists g'.
Qed.

(** ** Concrete listeners: none do anything, or pin 5's listener mirrors it to pin 6 *)

Definition call_none (f : unit) (n : Z) (o v : bool) (g : SocGpio lines unit) : script lines unit :=
  Stop g.(ic).
Definition dirs_none (f : unit) (g : SocGpio lines unit) : script lines unit := Stop g.(ic).

Lemma quiet_none : quiet call_none dirs_none.
Proof. split; intros; by eexists. Qed.

Definition demo_gpio : SocGpio lines unit := socGpioInit idle 2.

Lemma gpio_set_pin_exact_witness :
  exists g', socGpioSetState call_none 1 { demo_gpio with riseDet := [0x20; 0; 0; 0] } 5 true = Ret g' /\
    pin g'.(levels) 5 = true /\ pin g'.(detStatus) 5 = true /\ pin g'.(levels) 6 = false.
Proof.
  destruct (gpio_set_pin_exact call_none dirs_none { demo_gpio with riseDet := [0x20; 0; 0; 0] } 0 5 true)
    as (g' & E & _ & Hm).
  - exact quiet_none.
  - destruct (gpio_init_inv (CB := unit) idle 2) as (Hw & Hl & Hi); [done..|].
    split; [|split; [exact Hl|exact Hi]].
    destruct Hw; constructor; cbn in *; try done. split; [done|]. forall_list; is_u_lit.
  - cbn. lia.
  - exists g'. split; [exact E|].
    split; [apply (Hm 5); lia|]. split; [apply (Hm 5); lia|apply (Hm 6); lia].
Defined.

Lemma gpio_run_consistent_witness :
  exists g, socGpioSetState call_none 1 demo_gpio 40 true = Ret g /\
    g.(levels).[1] = 0x100 /\ g.(levels).[1] = pinValue g 1.
Proof.
  eexists. split; [vm_compute; reflexivity|]. split; [reflexivity|].
  apply (gpio_run_consistent call_none dirs_none idle 2); [exact quiet_none|done| |lia].
  apply rtc_once. eapply (gpio_step_pin call_none dirs_none _ 0 40 true); [lia|].
  vm_compute; reflexivity.
Defined.
