(* ===== verification/Dma.v ===== *)
(** * The DMA controller (pxa_DMA.c)

    32 channels that copy items between addresses of the physical memory map,
    driven by register writes, by descriptors in memory and by the request
    lines of devices. The accesses a channel makes may reach devices that
    raise or lower request lines while it runs; [DmaMem] reports those calls
    and they are applied before the channel goes on. A channel that accesses
    the DMA controller's own registers is outside the model. *)

From S2P Require Import Prelude Interfaces.

Definition PXA_DMA_BASE := 0x40000000.
Definition REG_DAR := 0.
Definition REG_SAR := 1.
Definition REG_TAR := 2.
Definition REG_CR := 3.
Definition REG_CSR := 4.

(** [memAccess] on the memory behind the controller, with the calls of
    [socDmaExternalReq] the access made, in order. *)
Class DmaMem (W : Type) := {
  dma_mem : W -> Z -> Z -> bool -> Z -> outcome (access W * list (Z * bool))
}.

Record PxaDmaChannel := mkPxaDmaChannel {
  DAR : Z;   (* uint32_t: descriptor address *)
  SAR : Z;   (* uint32_t: source address *)
  TAR : Z;   (* uint32_t: target address *)
  CR : Z;    (* uint32_t: command *)
  CSR : Z;   (* uint32_t: control and status *)
  dsAddrWriten : bool;
  dtAddrWriten : bool;
  dcmdAddrWritten : bool
}.
#[export] Instance channel_inhabited : Inhabited PxaDmaChannel :=
  populate (mkPxaDmaChannel 0 0 0 0 0 false false false).

Record SocDma (W : Type) := mkSocDma {
  soc : W;                        (* ic, mem and reschedule *)
  dalgn : Z;
  dpcsr : Z;
  DINT : Z;                       (* uint32_t *)
  channels : list PxaDmaChannel;  (* [32] *)
  CMR : list Z                    (* uint8_t[75] *)
}.
Arguments mkSocDma {W}.
Arguments soc {W}.
Arguments dalgn {W}.
Arguments dpcsr {W}.
Arguments DINT {W}.
Arguments channels {W}.
Arguments CMR {W}.

Section Operations.
Context {W : Type} `{!IrqSink W} `{!ReschedSink W} `{!DmaMem W}.

Definition socDmaInit (w : W) : SocDma W :=
  mkSocDma w 0 0 0 (replicate 32 (mkPxaDmaChannel 0 0 0 0 8 false false false))
    (replicate 75 0).

(** [*ch = f( *ch)] *)
Definition updCh (dma : SocDma W) (channel : Z) (f : PxaDmaChannel -> PxaDmaChannel) : SocDma W :=
  { dma with channels ::= fun l => l.[channel <- f l.[channel]] }.

Definition socDmaPrvChannelIrqRecalc (dma : SocDma W) (channel : Z) : SocDma W :=
  let csr := dma.(channels).[channel].(CSR) in
  let v := 1 .<< channel in
  let dint := dma.(DINT) .&~ v in
  let dint := if tst csr 0x20000000 && tst csr 0x8 then dint .| v else dint in
  let dint := if tst csr 4 then dint .| v else dint in
  let dint := if tst csr 2 then dint .| v else dint in
  let dint := if tst csr 1 then dint .| v else dint in
  { dma with DINT := dint; soc ::= fun w => irq_int w PXA_I_DMA (nz dint) }.

Definition socDmaPrvChannelStop (dma : SocDma W) (channel : Z) : SocDma W :=
  updCh dma channel (fun ch =>
    { ch with dsAddrWriten := false; dtAddrWriten := false; dcmdAddrWritten := false;
              CSR ::= fun c => (c .&~ 0x80000000) .| 0x08 }).

Definition socDmaPrvChannelRunningByCsrVal (csr : Z) : bool := csr .& 0x80000008 =? 0x80000000.

Definition socDmaPrvChannelRunning (dma : SocDma W) (channel : Z) : bool :=
  socDmaPrvChannelRunningByCsrVal dma.(channels).[channel].(CSR).

Definition socDmaExternalReq (dma : SocDma W) (chNum : Z) (requested : bool) : SocDma W :=
  let cfg := dma.(CMR).[chNum] in
  if tst cfg 0x80 then
    let ch := cfg .& 0x1f in
    if negb requested then updCh dma ch (fun c => { c with CSR ::= fun r => r .&~ 0x100 })
    else if negb (tst dma.(channels).[ch].(CSR) 0x100)
    then updCh dma ch (fun c => { c with CSR ::= fun r => r .| 0x100 }) else dma
  else dma.

(** [memAccess], and the request lines it moved. *)
Definition dmaAccess (dma : SocDma W) (addr size : Z) (write : bool) (buf : Z)
  : outcome (access (SocDma W)) :=
  '(ok, v, w, reqs) ← dma_mem dma.(soc) addr size write buf;
  Ret (ok, v, fold_left (λ d '(n, r), socDmaExternalReq d n r) reqs { dma with soc := w }).

Definition socDmaPrvChannelDescrFetch (dma : SocDma W) (channel : Z) : outcome (SocDma W) :=
  let ch := dma.(channels).[channel] in
  let dar := ch.(DAR) .&~ 0x0f in
  let dar := if tst ch.(DAR) 2 && tst ch.(CSR) 0x0400 then u32 (dar + 32) else dar in
  let error (dma : SocDma W) : outcome (SocDma W) :=
    Ret (socDmaPrvChannelStop (updCh dma channel (fun c => { c with CSR ::= fun r => r .| 1 }))
           channel) in
  '(ok, nextD, dma) ← dmaAccess dma (u32 (dar + 0)) 4 false 0;
  if negb ok then error dma else
  '(ok, nextS, dma) ← dmaAccess dma (u32 (dar + 4)) 4 false 0;
  if negb ok then error dma else
  '(ok, nextT, dma) ← dmaAccess dma (u32 (dar + 8)) 4 false 0;
  if negb ok then error dma else
  '(ok, nextC, dma) ← dmaAccess dma (u32 (dar + 12)) 4 false 0;
  if negb ok then error dma else
  Ret (updCh dma channel (fun c =>
    { c with DAR := nextD; SAR := nextS .&~ 0x03; TAR := nextT .&~ 0x03; CR := nextC;
             CSR ::= fun r => if tst nextC 0x00400000 then r .| 2 else r })).

(** The boolean is the C result: the interrupt needs updating. *)
Definition socDmaPrvChannelCheckForEnd (dma : SocDma W) (channel : Z)
  : outcome (bool * SocDma W) :=
  let ch := dma.(channels).[channel] in
  if negb (socDmaPrvChannelRunning dma channel) then Ret (false, dma) else
  if tst ch.(CR) 0x1fff then Ret (false, dma) else
  let dma := if tst ch.(CR) 0x00200000
             then updCh dma channel (fun c => { c with CSR ::= fun r => r .| 4 }) else dma in
  if tst dma.(channels).[channel].(CSR) 0x40000000 then
    Ret (true, socDmaPrvChannelStop dma channel)
  else if tst ch.(DAR) 1 then Ret (true, socDmaPrvChannelStop dma channel)
  else dma ← socDmaPrvChannelDescrFetch dma channel; Ret (true, dma).

(** The transfers of a burst; [true] when a bus error ended it. *)
Fixpoint burstLoop (n : nat) (dma : SocDma W) (channel each : Z) : outcome (bool * SocDma W) :=
  match n with
  | O => Ret (false, dma)
  | S n =>
      let ch := dma.(channels).[channel] in
      let src := ch.(SAR) in
      let dst := ch.(TAR) in
      let error (dma : SocDma W) : outcome (bool * SocDma W) :=
        Ret (true, socDmaPrvChannelStop
          (updCh dma channel (fun c => { c with CSR ::= fun r => r .| 1 })) channel) in
      '(ok, t, dma) ← dmaAccess dma src each false 0;
      if negb ok then error dma else
      '(ok, _t, dma) ← dmaAccess dma dst each true t;
      if negb ok then error dma else
      burstLoop n (updCh dma channel (fun c =>
        { c with SAR ::= fun a => if tst c.(CR) 0x80000000 then u32 (a + each) else a;
                 TAR ::= fun a => if tst c.(CR) 0x40000000 then u32 (a + each) else a;
                 CR ::= fun r => u32 (r - each) })) channel each
  end.

Definition socDmaPrvChannelDoBurst (dma : SocDma W) (channel : Z) : outcome (bool * SocDma W) :=
  let ch := dma.(channels).[channel] in
  let width := (ch.(CR) .>> 14) .& 3 in
  let each := 1 .<< (width - 1) in
  let num := 4 .<< ((ch.(CR) .>> 16) .& 3) in
  if width =? 0 then Hang (* "DMA is on but WIDTH is misprogrammed" *) else
  let num := if (ch.(CR) .& 0x1fff) <? num then ch.(CR) .& 0x1fff else num in
  if nz (num mod each) then Hang (* "cannot xfer ... Halting" *) else
  '(failed, dma) ← burstLoop (Z.to_nat (num / each)) dma channel each;
  if negb failed then socDmaPrvChannelCheckForEnd dma channel else Ret (true, dma).

(** The [do ... while] over bursts; out of [fuel] stands for its not ending. *)
Fixpoint burstsLoop (fuel : nat) (dma : SocDma W) (channel : Z) (justOne irqUpdate : bool)
  : outcome (bool * SocDma W) :=
  match fuel with
  | O => Hang
  | S fuel =>
      '(upd, dma) ← socDmaPrvChannelDoBurst dma channel;
      let irqUpdate := irqUpdate || upd in
      if tst dma.(channels).[channel].(CR) 0x1fff && negb justOne
      then burstsLoop fuel dma channel justOne irqUpdate
      else Ret (irqUpdate, dma)
  end.

Definition socDmaPrvChannelActIfNeeded (fuel : nat) (dma : SocDma W) (channel : Z)
  : outcome (SocDma W) :=
  if negb (socDmaPrvChannelRunning dma channel) then Ret dma else
  '(irqUpdate, dma) ← socDmaPrvChannelCheckForEnd dma channel;
  '(irqUpdate, dma) ←
    (if socDmaPrvChannelRunning dma channel then
       let ch := dma.(channels).[channel] in
       let noFlow := negb (tst ch.(CR) 0x30000000) in
       let doWork := tst ch.(CSR) 0x100 || noFlow in
       let justOne := negb noFlow in
       if doWork then burstsLoop fuel dma channel justOne irqUpdate else Ret (irqUpdate, dma)
     else Ret (irqUpdate, dma));
  Ret (if negb irqUpdate then dma else socDmaPrvChannelIrqRecalc dma channel).

Definition socDmaPrvChannelMaybeStart (dma : SocDma W) (channel prevCsrVal : Z)
  : outcome (SocDma W) :=
  if socDmaPrvChannelRunning dma channel && negb (socDmaPrvChannelRunningByCsrVal prevCsrVal) then
    let dma := { dma with soc ::= fun w => reschedule w RESCHEDULE_TASK_DMA } in
    let dma := updCh dma channel (fun c => { c with CSR ::= fun r => r .&~ 0x100 }) in
    if negb (tst dma.(channels).[channel].(CSR) 0x40000000) then
      let dma := updCh dma channel (fun c => { c with CR ::= fun r => r .&~ 0x1fff }) in
      socDmaPrvChannelDescrFetch dma channel
    else Ret dma
  else Ret dma.

(** The value a write of [val] gives the control and status register. *)
Definition csrNewVal (prevCsr val : Z) : Z :=
  let newVal := ((prevCsr .& 0x0000031f) .| (val .& 0xfcc00400)) .&~ (val .& 0x00000217) in
  let newVal := if tst val 0x02000000 then newVal .| 0x0400
                else if tst val 0x01000000 then newVal .&~ 0x0400 else newVal in
  if tst newVal 0x00400000 then (newVal .&~ 0x80000000) .| (prevCsr .& 0x80000000) else newVal.

Definition socDmaPrvChannelRegWrite (dma : SocDma W) (channel reg val : Z) : outcome (SocDma W) :=
  let ch := dma.(channels).[channel] in
  let prevCsr := ch.(CSR) in
  let noFetch := tst ch.(CSR) 0x40000000 in
  let finish (dma : SocDma W) (checkForStart maybeStart : bool) : outcome (SocDma W) :=
    let ch := dma.(channels).[channel] in
    if maybeStart ||
       (checkForStart && ch.(dsAddrWriten) && ch.(dtAddrWriten) && ch.(dcmdAddrWritten)) then
      let dma := updCh dma channel (fun c => { c with CSR ::= fun r => r .&~ 0x08 }) in
      socDmaPrvChannelMaybeStart dma channel prevCsr
    else Ret dma in
  if reg =? REG_DAR then
    finish (updCh dma channel (fun c => { c with DAR := val })) false (nz val && negb noFetch)
  else if reg =? REG_SAR then
    finish (updCh dma channel (fun c => { c with dsAddrWriten := true; SAR := val .&~ 0x03 }))
      noFetch false
  else if reg =? REG_TAR then
    finish (updCh dma channel (fun c => { c with dtAddrWriten := true; TAR := val .&~ 0x03 }))
      noFetch false
  else if reg =? REG_CR then
    finish (updCh dma channel (fun c => { c with dcmdAddrWritten := true; CR := val }))
      noFetch false
  else
    let newVal := csrNewVal prevCsr val in
    let dma := updCh dma channel (fun c => { c with CSR := newVal }) in
    dma ← socDmaPrvChannelMaybeStart dma channel prevCsr;
    let dma := if negb (tst newVal 0x80000000) && tst prevCsr 0x80000000
               then socDmaPrvChannelStop dma channel else dma in
    Ret (socDmaPrvChannelIrqRecalc dma channel).

Definition socDmaPrvChannelRegRead (dma : SocDma W) (channel reg : Z) : option Z :=
  let ch := dma.(channels).[channel] in
  match reg with
  | 0 => Some ch.(DAR)
  | 1 => Some ch.(SAR)
  | 2 => Some ch.(TAR)
  | 3 => Some ch.(CR)
  | 4 => Some ch.(CSR)
  | _ => None
  end.

Definition socDmaPeriodic (fuel : nat) (dma : SocDma W) : outcome (SocDma W) :=
  forM (Z.of_nat <$> seq 0 32) (socDmaPrvChannelActIfNeeded fuel) dma.

(** The second [pa == 0x28] of the source can never be reached. *)
Definition socDmaPrvMemAccessF (dma : SocDma W) (pa size : Z) (write : bool) (buf : Z)
  : outcome (access (SocDma W)) :=
  if negb (size =? 4) then Ret (false, buf, dma) else
  let pa := u32 (pa - PXA_DMA_BASE) .>> 2 in
  let fail : outcome (access (SocDma W)) := Ret (false, buf, dma) in
  if write then
    let val := buf in
    let regWrite set reg : outcome (access (SocDma W)) :=
      dma ← socDmaPrvChannelRegWrite dma set reg val; Ret (true, buf, dma) in
    let cmr i : outcome (access (SocDma W)) := if 75 <=? i then fail
                 else Ret (true, buf, { dma with CMR ::= fun r => r.[i <- u8 val] }) in
    match pa .>> 6 with
    | 0 =>
        if pa =? 0x28 then Ret (true, buf, { dma with dalgn := val }) else
        if pa =? 0x3c then Ret (true, buf, dma) else
        if 32 <=? pa then fail else regWrite pa REG_CSR
    | 17 => cmr (pa - 1088 + 64 - 64)
    | 1 => cmr (pa - 64)
    | 2 | 3 =>
        let pa := pa - 128 in
        if 32 <=? pa .>> 2 then fail else regWrite (pa .>> 2) (pa .& 3)
    | _ => fail
    end
  else
    let regRead set reg : outcome (access (SocDma W)) :=
      match socDmaPrvChannelRegRead dma set reg with
      | Some v => Ret (true, v, dma)
      | None => fail
      end in
    let cmr i : outcome (access (SocDma W)) := if 75 <=? i then fail else Ret (true, dma.(CMR).[i], dma) in
    match pa .>> 6 with
    | 0 =>
        if pa =? 0x28 then Ret (true, dma.(dalgn), dma) else
        if pa =? 0x3c then Ret (true, dma.(DINT), dma) else
        if 32 <=? pa then fail else regRead pa REG_CSR
    | 17 => cmr (pa - 1088 + 64 - 64)
    | 1 => cmr (pa - 64)
    | 2 | 3 =>
        let pa := pa - 128 in
        if 32 <=? pa .>> 2 then fail else regRead (pa .>> 2) (pa .& 3)
    | _ => fail
    end.

Definition socDmaTaskRequired (dma : SocDma W) : bool :=
  existsb (socDmaPrvChannelRunning dma) (Z.of_nat <$> seq 0 32).

End Operations.

(** ** The command register while a transfer counts its length down *)

Lemma cr_len cr : cr .& 0x1fff = cr mod 8192.
Proof. exact (land_low 13 cr ltac:(done)). Qed.

Lemma cr_count cr k :
  is_u 32 cr -> 0 <= k <= cr .& 0x1fff ->
  u32 (cr - k) = cr - k /\ is_u 32 (cr - k) /\ (cr - k) .& 0x1fff = (cr .& 0x1fff) - k /\
  (cr - k) / 2 ^ 13 = cr / 2 ^ 13.
Proof.
  rewrite !cr_len. intros [H0 H1] Hk.
  assert (is_u 32 (cr - k)) as Hu by (split; zdiv_lia).
  split; [by apply wrap_small|]. split; [done|]. change (2 ^ 13) with 8192. split; zdiv_lia.
Qed.

Lemma low_clear_mask m : m = 2 ^ 13 * (m / 2 ^ 13) -> forall i, 0 <= i < 13 -> Z.testbit m i = false.
Proof. intros Hm i Hi. rewrite Hm, Z.mul_comm, <- Z.shiftl_mul_pow2 by done. apply Z.shiftl_spec_low. lia. Qed.

Lemma cr_flags cr cr' m :
  cr / 2 ^ 13 = cr' / 2 ^ 13 -> m = 2 ^ 13 * (m / 2 ^ 13) -> tst cr m = tst cr' m.
Proof.
  intros E Hm. unfold tst. erewrite (land_same_high cr cr' m 13); [done|done|exact E|].
  by apply low_clear_mask.
Qed.

Lemma cr_shift cr cr' k :
  cr / 2 ^ 13 = cr' / 2 ^ 13 -> 13 <= k -> cr .>> k = cr' .>> k.
Proof.
  intros E Hk. replace k with (13 + (k - 13)) by lia.
  rewrite <- !Z.shiftr_shiftr by lia. rewrite !(shiftr_div _ 13) by done. by rewrite E.
Qed.

(** ** The interrupt line *)
Section Recalc.
Context {W : Type} `{!IrqSink W}.

Definition dmaIrqOf (csr : Z) : bool :=
  (tst csr 0x20000000 && tst csr 0x8) || tst csr 7.

Lemma recalc_DINT (dma : SocDma W) channel i :
  0 <= channel < 32 -> 0 <= i ->
  Z.testbit (socDmaPrvChannelIrqRecalc dma channel).(DINT) i =
    if i =? channel then dmaIrqOf dma.(channels).[channel].(CSR) else Z.testbit dma.(DINT) i.
Proof.
  intros Hc Hi. destruct dma as [w a p d l m]. unfold dmaIrqOf. cbn. set (csr := _.(CSR)).
  replace (tst csr 7) with (tst csr 4 || tst csr 2 || tst csr 1).
  - destruct (Z.eqb_spec i channel) as [->|Hne];
      destruct (tst csr 0x20000000), (tst csr 8), (tst csr 4), (tst csr 2), (tst csr 1); cbn [andb orb];
      rewrite ?Z.lor_spec, Z.ldiff_spec, testbit_1_shiftl by lia;
      (rewrite Z.eqb_refl || assert ((channel =? i) = false) as -> by (apply Z.eqb_neq; lia)); btauto.
  - change 7 with (Z.lor (Z.lor 4 2) 1). unfold tst.
    rewrite !Z.land_lor_distr_r. apply eq_true_iff_eq.
    rewrite !orb_true_iff, !negb_true_iff, !Z.eqb_neq, !Z.lor_eq_0_iff.
    destruct (Z.eq_dec (csr .& 4) 0), (Z.eq_dec (csr .& 2) 0), (Z.eq_dec (csr .& 1) 0); tauto.
Qed.

Lemma recalc_channels (dma : SocDma W) channel :
  (socDmaPrvChannelIrqRecalc dma channel).(channels) = dma.(channels).
Proof. by destruct dma. Qed.

Lemma recalc_soc (dma : SocDma W) channel :
  (socDmaPrvChannelIrqRecalc dma channel).(soc) =
    irq_int dma.(soc) PXA_I_DMA (nz (socDmaPrvChannelIrqRecalc dma channel).(DINT)).
Proof. by destruct dma. Qed.
End Recalc.

(** ** Transfers over plain memory

    Memory whose accesses succeed, change nothing when they read, and move no
    request line. *)
Section PlainMemory.
Context {W : Type} `{!IrqSink W} `{!ReschedSink W} `{!DmaMem W}.
Variables (rd : W -> Z -> Z) (wr : W -> Z -> Z -> W) (each : Z).
Hypothesis dma_read : forall w a b, dma_mem w a each false b = Ret (true, rd w a, w, []).
Hypothesis dma_write : forall w a v, dma_mem w a each true v = Ret (true, v, wr w a v, []).

(** What a transfer is for: item after item, from the source address to the
    target address, each advancing if its increment bit says so. *)
Fixpoint copyItems (n : nat) (si di : bool) (s d : Z) (w : W) : W :=
  match n with
  | O => w
  | S n => copyItems n si di (if si then u32 (s + each) else s) (if di then u32 (d + each) else d)
             (wr w d (rd w s))
  end.

Definition advance (n : Z) (c : PxaDmaChannel) : PxaDmaChannel :=
  { c with SAR := (if tst c.(CR) 0x80000000 then u32 (c.(SAR) + n) else c.(SAR));
           TAR := (if tst c.(CR) 0x40000000 then u32 (c.(TAR) + n) else c.(TAR));
           CR := c.(CR) - n }.

Definition moved (n : nat) (dma : SocDma W) (channel : Z) : SocDma W :=
  let c := dma.(channels).[channel] in
  updCh { dma with soc := copyItems n (tst c.(CR) 0x80000000) (tst c.(CR) 0x40000000)
                            c.(SAR) c.(TAR) dma.(soc) }
    channel (advance (Z.of_nat n * each)).

(** Addresses and command are 32-bit values. *)
Definition channel_u32 (c : PxaDmaChannel) : Prop :=
  is_u 32 c.(SAR) /\ is_u 32 c.(TAR) /\ is_u 32 c.(CR).

Lemma with_soc_channels (dma : SocDma W) w : { dma with soc := w }.(channels) = dma.(channels).
Proof. by destruct dma. Qed.

Lemma with_soc_soc (dma : SocDma W) w : { dma with soc := w }.(soc) = w.
Proof. by destruct dma. Qed.

Lemma with_soc_twice (dma : SocDma W) w w' :
  { { dma with soc := w } with soc := w' } = { dma with soc := w' }.
Proof. by destruct dma. Qed.

Lemma updCh_soc (dma : SocDma W) channel f : (updCh dma channel f).(soc) = dma.(soc).
Proof. by destruct dma. Qed.

Lemma updCh_at (dma : SocDma W) channel f :
  0 <= channel < 32 -> length dma.(channels) = 32%nat ->
  (updCh dma channel f).(channels).[channel] = f dma.(channels).[channel].
Proof. destruct dma. cbn. intros. apply aget_aset_eq. lia. Qed.

Lemma updCh_length (dma : SocDma W) channel f :
  length (updCh dma channel f).(channels) = length dma.(channels).
Proof. destruct dma. apply length_aset. Qed.

Lemma updCh_twice (dma : SocDma W) channel f g w :
  0 <= channel < 32 -> length dma.(channels) = 32%nat ->
  updCh { updCh dma channel f with soc := w } channel g =
  updCh { dma with soc := w } channel (fun c => g (f c)).
Proof.
  destruct dma as [? ? ? ? l ?]. cbn. intros Hc Hl. unfold updCh. cbn. f_equal.
  rewrite aget_aset_eq by lia. unfold aset. apply list_insert_insert_eq.
Qed.

Lemma updCh_updCh (dma : SocDma W) channel f g :
  0 <= channel < 32 -> length dma.(channels) = 32%nat ->
  updCh (updCh dma channel f) channel g = updCh dma channel (fun c => g (f c)).
Proof.
  intros Hc Hl. pose proof (updCh_twice dma channel f g dma.(soc) Hc Hl) as E. by destruct dma.
Qed.

Lemma updCh_ext (dma : SocDma W) channel f g :
  f dma.(channels).[channel] = g dma.(channels).[channel] ->
  updCh dma channel f = updCh dma channel g.
Proof. destruct dma. cbn. intros E. unfold updCh. cbn. by rewrite E. Qed.

Lemma updCh_id (dma : SocDma W) channel f :
  f dma.(channels).[channel] = dma.(channels).[channel] -> updCh dma channel f = dma.
Proof. destruct dma. cbn. intros E. unfold updCh. cbn. by rewrite E, aset_same. Qed.

Lemma advance_0 c : channel_u32 c -> advance 0 c = c.
Proof.
  destruct c as [a s t r]. intros (Hs & Ht & _). unfold advance. cbn in *.
  rewrite !Z.add_0_r, Z.sub_0_r, !wrap_small by done. by destruct (tst _ _), (tst _ _).
Qed.

Lemma advance_flags n c m :
  is_u 32 c.(CR) -> 0 <= n <= c.(CR) .& 0x1fff -> m = 2 ^ 13 * (m / 2 ^ 13) ->
  tst (advance n c).(CR) m = tst c.(CR) m.
Proof. intros Hu Hn Hm. destruct c. apply cr_flags; [|done]. by apply cr_count. Qed.

Lemma advance_u32 n c :
  channel_u32 c -> 0 <= n <= c.(CR) .& 0x1fff -> channel_u32 (advance n c).
Proof.
  destruct c. intros (Hs & Ht & Hc) Hn. unfold channel_u32, advance. cbn in *.
  split; [auto with uarm|]. split; [auto with uarm|]. by apply cr_count.
Qed.

Lemma advance_advance n m c :
  channel_u32 c -> 0 <= n -> 0 <= m -> n + m <= c.(CR) .& 0x1fff ->
  advance m (advance n c) = advance (n + m) c.
Proof.
  intros (Hs & Ht & Hc) Hn Hm Hl. destruct c as [a s t r q x y z].
  pose proof (advance_flags n (mkPxaDmaChannel a s t r q x y z)) as F.
  cbn [CR] in *. specialize (fun m H => F m Hc ltac:(lia) H).
  unfold advance in *. cbn in *. rewrite !F by reflexivity.
  destruct (tst r 0x80000000), (tst r 0x40000000); rewrite ?u32_add_assoc; f_equal; lia.
Qed.

Definition len (c : PxaDmaChannel) : Z := c.(CR) .& 0x1fff.

Definition ready (dma : SocDma W) (channel : Z) : Prop :=
  0 <= channel < 32 /\ length dma.(channels) = 32%nat /\ channel_u32 dma.(channels).[channel].

Definition moveItem (dma : SocDma W) (channel : Z) : SocDma W :=
  let c := dma.(channels).[channel] in
  updCh { dma with soc := wr dma.(soc) c.(TAR) (rd dma.(soc) c.(SAR)) } channel (advance each).

Lemma len_advance n c :
  channel_u32 c -> 0 <= n <= len c -> len (advance n c) = len c - n.
Proof. destruct c. intros (_ & _ & Hc) Hn. by destruct (cr_count CR0 n Hc Hn) as (_ & _ & E & _). Qed.

Lemma updCh_advance_ready n (dma : SocDma W) channel w :
  ready dma channel -> 0 <= n <= len dma.(channels).[channel] ->
  ready (updCh { dma with soc := w } channel (advance n)) channel /\
  (updCh { dma with soc := w } channel (advance n)).(channels).[channel] =
    advance n dma.(channels).[channel].
Proof.
  intros (Hch & Hl & Hu) Hn.
  assert ((updCh { dma with soc := w } channel (advance n)).(channels).[channel] =
    advance n dma.(channels).[channel]) as E
    by (rewrite updCh_at by (by rewrite ?with_soc_channels); by rewrite with_soc_channels).
  split; [|done]. split; [done|]. rewrite updCh_length, with_soc_channels. split; [done|].
  rewrite E. by apply advance_u32.
Qed.

Lemma moved_0 (dma : SocDma W) channel : ready dma channel -> moved 0 dma channel = dma.
Proof.
  intros (_ & _ & Hc). destruct dma as [w a p d l m]. unfold moved. cbn [Z.of_nat Z.mul].
  apply updCh_id. by apply advance_0.
Qed.

Lemma moved_S n (dma : SocDma W) channel :
  ready dma channel -> 0 <= each -> Z.of_nat (S n) * each <= len dma.(channels).[channel] ->
  moved n (moveItem dma channel) channel = moved (S n) dma channel.
Proof.
  intros Hr He Hn. unfold moveItem. set (c := dma.(channels).[channel]) in *.
  destruct (updCh_advance_ready each dma channel (wr dma.(soc) c.(TAR) (rd dma.(soc) c.(SAR))) Hr)
    as [_ Ec]; [fold c; lia|]. destruct Hr as (Hch & Hl & Hu).
  unfold moved. rewrite Ec, updCh_soc. fold c. unfold len in Hn.
  rewrite updCh_twice by (by rewrite ?with_soc_channels).
  rewrite !advance_flags by (done || apply Hu || lia).
  rewrite with_soc_twice, with_soc_soc. cbn [copyItems].
  replace (advance each c).(SAR) with (if tst c.(CR) 0x80000000 then u32 (c.(SAR) + each) else c.(SAR))
    by (by destruct c).
  replace (advance each c).(TAR) with (if tst c.(CR) 0x40000000 then u32 (c.(TAR) + each) else c.(TAR))
    by (by destruct c).
  apply updCh_ext. rewrite with_soc_channels. fold c.
  rewrite advance_advance by (done || lia). f_equal. lia.
Qed.

Lemma moved_add n m (dma : SocDma W) channel :
  ready dma channel -> 0 <= each -> Z.of_nat (n + m) * each <= len dma.(channels).[channel] ->
  moved m (moved n dma channel) channel = moved (n + m) dma channel.
Proof.
  revert dma. induction n as [|n IH]; intros dma Hr He Hn.
  { by rewrite moved_0. }
  destruct (updCh_advance_ready each dma channel
    (wr dma.(soc) dma.(channels).[channel].(TAR) (rd dma.(soc) dma.(channels).[channel].(SAR))) Hr)
    as [Hr' Ec]; [lia|].
  rewrite <- moved_S by (done || lia). rewrite IH.
  - cbn [Nat.add]. apply moved_S; done.
  - done.
  - done.
  - unfold moveItem. rewrite Ec, len_advance by (apply Hr || lia). lia.
Qed.

Lemma burstLoop_plain n : forall (dma : SocDma W) channel,
  ready dma channel -> 0 <= each -> Z.of_nat n * each <= len dma.(channels).[channel] ->
  burstLoop n dma channel each = Ret (false, moved n dma channel).
Proof.
  induction n as [|n IH]; intros dma channel Hr He Hn.
  { by rewrite moved_0. }
  destruct (updCh_advance_ready each dma channel
    (wr dma.(soc) dma.(channels).[channel].(TAR) (rd dma.(soc) dma.(channels).[channel].(SAR))) Hr)
    as [Hr' Ec]; [lia|].
  rewrite <- moved_S by (done || lia).
  cbn [burstLoop]. unfold dmaAccess. rewrite dma_read. cbn [mbind outcome_bind fold_left negb].
  rewrite dma_write. cbn [mbind outcome_bind fold_left negb].
  rewrite with_soc_twice, with_soc_soc, (updCh_ext _ _ _ (advance each)).
  - apply IH; [done|done|]. unfold moveItem. rewrite Ec, len_advance by (apply Hr || lia). lia.
  - rewrite with_soc_channels. destruct Hr as (_ & _ & Hu). set (c := _.[channel]) in *.
    destruct (cr_count c.(CR) each) as (Ew & _); [apply Hu|unfold len in Hn; lia|].
    destruct c. unfold advance. cbn in *. by rewrite Ew.
Qed.

(** ** Bursts *)

Definition finish (c : PxaDmaChannel) : PxaDmaChannel :=
  { c with dsAddrWriten := false; dtAddrWriten := false; dcmdAddrWritten := false;
           CSR := ((if tst c.(CR) 0x00200000 then c.(CSR) .| 4 else c.(CSR)) .&~ 0x80000000) .| 0x08 }.

(** A channel without descriptors is done when its length is zero. *)
Lemma checkForEnd_noFetch (dma : SocDma W) channel :
  ready dma channel -> let c := dma.(channels).[channel] in
  tst c.(CSR) 0x40000000 = true -> socDmaPrvChannelRunningByCsrVal c.(CSR) = true -> len c = 0 ->
  socDmaPrvChannelCheckForEnd dma channel = Ret (true, updCh dma channel finish).
Proof.
  intros (Hch & Hl & Hu) c Hnf Hrun Hlen. unfold socDmaPrvChannelCheckForEnd, socDmaPrvChannelRunning.
  fold c. rewrite Hrun. cbn [negb]. unfold tst at 1. unfold len in Hlen. rewrite Hlen. cbn [Z.eqb negb].
  destruct (tst c.(CR) 0x00200000) eqn:Ecr.
  - rewrite updCh_at by done. fold c. unfold socDmaPrvChannelStop. rewrite updCh_updCh by done.
    replace (tst _ 0x40000000) with true; [|].
    + do 2 f_equal. apply updCh_ext. fold c. destruct c. unfold finish. cbn in *. by rewrite Ecr.
    + destruct c. cbn in *. symmetry. change 0x40000000 with (2 ^ 30) in *.
      rewrite tst_bit in * by done. by rewrite Z.lor_spec, Hnf.
  - fold c. rewrite Hnf. unfold socDmaPrvChannelStop. do 2 f_equal. apply updCh_ext. fold c.
    destruct c. unfold finish. cbn in *. by rewrite Ecr.
Qed.

Lemma checkForEnd_busy (dma : SocDma W) channel :
  len dma.(channels).[channel] <> 0 -> socDmaPrvChannelCheckForEnd dma channel = Ret (false, dma).
Proof.
  intros Hl. unfold socDmaPrvChannelCheckForEnd. destruct (socDmaPrvChannelRunning _ _); [|done].
  cbn [negb]. unfold tst at 1. unfold len in Hl. by apply Z.eqb_neq in Hl as ->.
Qed.

(** A programmed width: 1, 2 or 4 bytes. *)
Definition widthOf (c : PxaDmaChannel) : Z := (c.(CR) .>> 14) .& 3.

Lemma width_sizes c :
  0 < widthOf c -> each = 1 .<< (widthOf c - 1) -> each = 1 \/ each = 2 \/ each = 4.
Proof.
  intros Hw He. assert (widthOf c <= 3).
  { unfold widthOf. change 3 with (2 ^ 2 - 1) at 1. rewrite land_low by done. zdiv_lia. }
  assert (widthOf c = 1 \/ widthOf c = 2 \/ widthOf c = 3) as [E|[E|E]] by lia;
    rewrite E in He; cbn in He; tauto.
Qed.

Lemma widthOf_advance n c :
  channel_u32 c -> 0 <= n <= len c -> widthOf (advance n c) = widthOf c.
Proof.
  destruct c. intros (_ & _ & Hc) Hn. unfold widthOf, advance. cbn in *.
  rewrite (cr_shift (CR0 - n) CR0) by (done || by apply cr_count). done.
Qed.

Lemma burst_size c k :
  each = 1 \/ each = 2 \/ each = 4 ->
  0 <= k <= 3 -> 0 < len c -> each * (len c / each) = len c ->
  let num := 4 .<< k in
  let num := if len c <? num then len c else num in
  0 < num <= len c /\ num mod each = 0.
Proof.
  intros each_width Hk Hl Hd. cbn zeta.
  assert (4 .<< k = 4 \/ 4 .<< k = 8 \/ 4 .<< k = 16 \/ 4 .<< k = 32) as Hs.
  { assert (k = 0 \/ k = 1 \/ k = 2 \/ k = 3) as [->|[->|[->| ->]]] by lia; cbn; tauto. }
  assert (len c mod each = 0) as Hm by (rewrite <- Hd, Z.mul_comm; apply Z_mod_mult).
  destruct (Z.ltb_spec (len c) (4 .<< k)); (split; [lia|]); [done|].
  destruct each_width as [E|[E|E]], Hs as [E'|[E'|[E'|E']]]; by rewrite E, E'.
Qed.

(** A burst moves some of the items that are left, and checks for the end. *)
Lemma doBurst_plain (dma : SocDma W) channel :
  ready dma channel -> let c := dma.(channels).[channel] in
  0 < widthOf c -> each = 1 .<< (widthOf c - 1) -> 0 < len c -> each * (len c / each) = len c ->
  exists n, (0 < n)%nat /\ Z.of_nat n * each <= len c /\
    socDmaPrvChannelDoBurst dma channel = socDmaPrvChannelCheckForEnd (moved n dma channel) channel.
Proof.
  intros Hr c Hw He Hl Hd.
  assert (0 <= (c.(CR) .>> 16) .& 3 <= 3) as Hk.
  { change 3 with (2 ^ 2 - 1). rewrite land_low by done. zdiv_lia. }
  destruct (burst_size c _ (width_sizes c Hw He) Hk Hl Hd) as [Hn Hmod]. unfold len in *.
  unfold socDmaPrvChannelDoBurst. fold c. change ((c.(CR) .>> 14) .& 3) with (widthOf c).
  assert ((widthOf c =? 0) = false) as -> by (apply Z.eqb_neq; lia). rewrite <- He.
  set (num := if _ <? _ then _ else _) in *. cbn zeta. rewrite Hmod. cbn [nz Z.eqb negb].
  exists (Z.to_nat (num / each)).
  assert (0 < each) by (destruct (width_sizes c Hw He) as [E|[E|E]]; lia).
  assert (0 < num / each /\ num / each * each <= c.(CR) .& 0x1fff) as [H1 H2] .
  { apply Z_div_exact_full_2 in Hmod; [|lia]. clearbody num. nia. }
  split; [lia|]. split; [lia|]. rewrite burstLoop_plain; [done|done|lia|].
  fold c. unfold len. lia.
Qed.

Lemma finish_len c : len (finish c) = len c.
Proof. by destruct c. Qed.

Lemma moved_channel n (dma : SocDma W) channel :
  ready dma channel -> 0 <= Z.of_nat n * each <= len dma.(channels).[channel] ->
  ready (moved n dma channel) channel /\
  (moved n dma channel).(channels).[channel] = advance (Z.of_nat n * each) dma.(channels).[channel].
Proof. apply updCh_advance_ready. Qed.

Lemma advance_CSR n c : (advance n c).(CSR) = c.(CSR).
Proof. by destruct c. Qed.

Lemma finish_stopped c : socDmaPrvChannelRunningByCsrVal (finish c).(CSR) = false.
Proof.
  destruct c as [a s t r q x y z]. unfold socDmaPrvChannelRunningByCsrVal, finish. cbn.
  apply Z.eqb_neq. intros E. apply (f_equal (fun v => Z.testbit v 3)) in E. revert E.
  rewrite Z.land_spec, Z.lor_spec. change (Z.testbit 0x80000008 3) with true.
  change (Z.testbit 8 3) with true. change (Z.testbit 0x80000000 3) with false.
  by rewrite orb_true_r.
Qed.

Lemma finish_irq c :
  dmaIrqOf (finish c).(CSR) = tst c.(CR) 0x00200000 || tst c.(CSR) 0x20000000 || tst c.(CSR) 7.
Proof.
  destruct c as [a s t r q x y z]. unfold finish, dmaIrqOf. cbn.
  assert (forall v, tst (v .&~ 0x80000000 .| 8) 0x20000000 = tst v 0x20000000) as E29.
  { intros v. change 0x20000000 with (2 ^ 29). rewrite !tst_bit by done.
    rewrite Z.lor_spec, Z.ldiff_spec. change (Z.testbit 0x80000000 29) with false.
    change (Z.testbit 8 29) with false. btauto. }
  assert (forall v, tst (v .&~ 0x80000000 .| 8) 7 = tst v 7) as E7.
  { intros v. unfold tst. do 2 f_equal. bits_ext i Hi.
    rewrite ?Z.land_spec, ?Z.lor_spec, ?Z.ldiff_spec.
    destruct (Z.eq_dec i 3) as [->|]; [change (Z.testbit 7 3) with false; btauto|].
    destruct (Z.eq_dec i 31) as [->|]; [change (Z.testbit 7 31) with false; btauto|].
    change 8 with (1 .<< 3). change 0x80000000 with (1 .<< 31).
    rewrite !testbit_1_shiftl by lia.
    assert ((3 =? i) = false) as -> by (apply Z.eqb_neq; lia).
    assert ((31 =? i) = false) as -> by (apply Z.eqb_neq; lia). btauto. }
  assert (forall v, tst (v .&~ 0x80000000 .| 8) 8 = true) as E3.
  { intros v. change 8 with (2 ^ 3) at 2. rewrite tst_bit, Z.lor_spec by done.
    change (Z.testbit 8 3) with true. apply orb_true_r. }
  rewrite E29, E7, E3. destruct (tst r 0x200000).
  - rewrite andb_true_r. replace (tst (q .| 4) 7) with true; [by rewrite orb_true_r|].
    symmetry. apply tst_exists. exists 2. rewrite Z.lor_spec. change (Z.testbit 4 2) with true.
    rewrite orb_true_r. done.
  - by rewrite andb_true_r.
Qed.

(** Without flow control and descriptors, bursts follow until all is moved. *)
Lemma burstsLoop_plain fuel : forall (dma : SocDma W) channel irq,
  ready dma channel -> let c := dma.(channels).[channel] in
  tst c.(CSR) 0x40000000 = true -> socDmaPrvChannelRunningByCsrVal c.(CSR) = true ->
  0 < widthOf c -> each = 1 .<< (widthOf c - 1) -> 0 < len c -> each * (len c / each) = len c ->
  len c <= Z.of_nat fuel ->
  burstsLoop fuel dma channel false irq =
    Ret (true, updCh (moved (Z.to_nat (len c / each)) dma channel) channel finish).
Proof.
  induction fuel as [|fuel IH]; intros dma channel irq Hr c Hnf Hrun Hw He Hl Hd Hf; [lia|].
  pose proof (width_sizes c Hw He) as Hes.
  destruct (doBurst_plain dma channel Hr Hw He Hl Hd) as (n & Hn & Hle & E). fold c in Hle.
  destruct (moved_channel n dma channel Hr) as [Hr' Ec]; [fold c; lia|]. fold c in Ec.
  cbn [burstsLoop]. rewrite E. destruct (decide (Z.of_nat n * each = len c)) as [Hend|Hmore].
  - rewrite checkForEnd_noFetch; rewrite ?Ec, ?advance_CSR; [|done..|rewrite len_advance by (apply Hr || lia); lia].
    cbn [mbind outcome_bind]. rewrite updCh_at, Ec by apply Hr'. unfold tst at 1.
    change (_ .& 0x1fff) with (len (finish (advance (Z.of_nat n * each) c))).
    rewrite finish_len, len_advance by (apply Hr || lia). rewrite Hend, Z.sub_diag. cbn [Z.eqb negb andb].
    rewrite orb_true_r. replace (Z.to_nat (len c / each)) with n by nia. done.
  - rewrite checkForEnd_busy by (rewrite Ec, len_advance by (apply Hr || lia); lia).
    cbn [mbind outcome_bind]. rewrite Ec. unfold tst at 1.
    change (_ .& 0x1fff) with (len (advance (Z.of_nat n * each) c)).
    rewrite len_advance by (apply Hr || lia).
    assert ((len c - Z.of_nat n * each =? 0) = false) as -> by (apply Z.eqb_neq; lia). cbn [negb andb].
    rewrite IH; rewrite ?Ec, ?advance_CSR, ?len_advance, ?widthOf_advance by (apply Hr || lia);
      try done; try lia.
    + rewrite moved_add; [|done|lia|fold c].
      * do 5 f_equal. replace (len c - Z.of_nat n * each) with (len c + (- Z.of_nat n) * each) by lia.
        rewrite Z.div_add by lia. enough (Z.of_nat n <= len c / each) by lia.
        apply Z.div_le_lower_bound; lia.
      * replace (len c - Z.of_nat n * each) with (len c + (- Z.of_nat n) * each) by lia.
        rewrite Z.div_add by lia. assert (Z.of_nat n <= len c / each) by (apply Z.div_le_lower_bound; lia).
        nia.
    + replace (len c - Z.of_nat n * each) with (len c + (- Z.of_nat n) * each) by lia.
      rewrite Z.div_add by lia. nia.
Qed.

(** C25. A channel that needs neither descriptors nor a request copies its whole
    length in one call, item by item in order from source to target, and then
    stops: the addresses have advanced as the increment bits say, the length
    is zero, the other channels are untouched, and the interrupt line is up
    if an end or stop interrupt was asked for. *)
Theorem dma_transfer_copies (dma : SocDma W) (channel : Z) (fuel : nat)
    (Hr : ready dma channel) :
  let c := dma.(channels).[channel] in
  forall (Hrun : socDmaPrvChannelRunning dma channel = true)
    (Hnofetch : tst c.(CSR) 0x40000000 = true) (Hnoflow : tst c.(CR) 0x30000000 = false)
    (Hwidth : 0 < widthOf c) (Heach : each = 1 .<< (widthOf c - 1))
    (Hlen : 0 < len c) (Hitems : each * (len c / each) = len c) (Hfuel : len c <= Z.of_nat fuel),
  exists dma',
    socDmaPrvChannelActIfNeeded fuel dma channel = Ret dma' /\
    dma'.(soc) = irq_int (copyItems (Z.to_nat (len c / each)) (tst c.(CR) 0x80000000)
                            (tst c.(CR) 0x40000000) c.(SAR) c.(TAR) dma.(soc))
                   PXA_I_DMA (nz dma'.(DINT)) /\
    let c' := dma'.(channels).[channel] in
    c'.(SAR) = (if tst c.(CR) 0x80000000 then u32 (c.(SAR) + len c) else c.(SAR)) /\
    c'.(TAR) = (if tst c.(CR) 0x40000000 then u32 (c.(TAR) + len c) else c.(TAR)) /\
    len c' = 0 /\ socDmaPrvChannelRunning dma' channel = false /\
    (Z.testbit dma'.(DINT) channel = tst c.(CR) 0x00200000 || tst c.(CSR) 0x20000000 || tst c.(CSR) 7) /\
    forall i, 0 <= i < 32 -> i <> channel ->
      dma'.(channels).[i] = dma.(channels).[i] /\ Z.testbit dma'.(DINT) i = Z.testbit dma.(DINT) i.
Proof.
  intros c Hrun Hnofetch Hnoflow Hwidth Heach Hlen Hitems Hfuel.
  pose proof (width_sizes c Hwidth Heach) as Hes.
  assert (0 <= len c / each) as Hq by (apply Z.div_pos; lia).
  destruct (moved_channel (Z.to_nat (len c / each)) dma channel Hr) as [Hr' Ec]; [fold c; nia|].
  fold c in Ec. rewrite Z2Nat.id, (Z.mul_comm _ each), Hitems in Ec by done.
  unfold socDmaPrvChannelActIfNeeded. rewrite Hrun, checkForEnd_busy by (fold c; lia).
  cbn [negb mbind outcome_bind]. rewrite Hrun. cbn zeta. fold c. rewrite Hnoflow. cbn [negb].
  rewrite orb_true_r, burstsLoop_plain by done. cbn [mbind outcome_bind negb]. fold c.
  eexists. split; [done|].
  set (m := moved _ dma channel) in *.
  assert (len (advance (len c) c) = 0) as Hl0 by (rewrite len_advance by (apply Hr || lia); lia).
  assert (forall x, x = 2 ^ 13 * (x / 2 ^ 13) -> tst (advance (len c) c).(CR) x = tst c.(CR) x) as Hfl
    by (intros; apply advance_flags; (done || apply Hr || unfold len in *; lia)).
  destruct Hr as (Hch & Hl & Hu), Hr' as (_ & Hl' & _).
  split.
  { rewrite recalc_soc, updCh_soc. unfold m, moved. by rewrite updCh_soc, with_soc_soc. }
  unfold socDmaPrvChannelRunning. rewrite recalc_channels, updCh_at, Ec by done.
  split; [|split; [|split; [|split; [|split]]]].
  - by destruct c.
  - by destruct c.
  - by rewrite finish_len.
  - apply finish_stopped.
  - rewrite recalc_DINT, Z.eqb_refl, updCh_at, Ec, finish_irq by (done || lia).
    by rewrite Hfl, advance_CSR.
  - intros i Hi Hne. rewrite recalc_DINT by lia. apply Z.eqb_neq in Hne as Hb. rewrite Hb.
    unfold m. destruct dma as [w a p d l cm]. cbn in *. split; [|done].
    by rewrite !aget_aset_ne by lia.
Qed.

End PlainMemory.

(** ** Bus errors *)
Section BusError.
Context {W : Type} `{!IrqSink W} `{!ReschedSink W} `{!DmaMem W}.
Implicit Types dma : SocDma W.

Lemma burst_error dma channel each :
  ready dma channel -> let c := dma.(channels).[channel] in
  0 < widthOf c -> each = 1 .<< (widthOf c - 1) -> 0 < len c -> each * (len c / each) = len c ->
  (forall b, exists v, dma_mem dma.(soc) c.(SAR) each false b = Ret (false, v, dma.(soc), [])) ->
  exists dma', socDmaPrvChannelDoBurst dma channel = Ret (true, dma') /\ dma'.(soc) = dma.(soc) /\
    ready dma' channel /\ let c' := dma'.(channels).[channel] in
    c'.(SAR) = c.(SAR) /\ c'.(CR) = c.(CR).
Proof.
  intros Hr c Hw He Hl Hd Hbad.
  assert (0 <= (c.(CR) .>> 16) .& 3 <= 3) as Hk.
  { change 3 with (2 ^ 2 - 1). rewrite land_low by done. zdiv_lia. }
  destruct (burst_size each c _ (width_sizes each c Hw He) Hk Hl Hd) as [Hn Hmod]. unfold len in *.
  unfold socDmaPrvChannelDoBurst. fold c. change ((c.(CR) .>> 14) .& 3) with (widthOf c).
  assert ((widthOf c =? 0) = false) as -> by (apply Z.eqb_neq; lia). rewrite <- He.
  set (num := if _ <? _ then _ else _) in *. cbn zeta. rewrite Hmod. cbn [nz Z.eqb negb].
  assert (0 < each) by (destruct (width_sizes each c Hw He) as [E|[E|E]]; lia).
  assert (0 < num / each) as H1.
  { apply Z_div_exact_full_2 in Hmod; [|lia]. clearbody num. nia. }
  destruct (Z.to_nat (num / each)) as [|n] eqn:En; [lia|]. cbn [burstLoop].
  unfold dmaAccess. fold c. destruct (Hbad 0) as [v ->]. cbn [mbind outcome_bind fold_left negb].
  eexists. split; [done|]. unfold socDmaPrvChannelStop. destruct Hr as (Hch & Hlen & Hu).
  assert ({ dma with soc := dma.(soc) } = dma) as -> by (by destruct dma).
  rewrite updCh_updCh by done. split; [apply updCh_soc|]. unfold ready.
  rewrite updCh_length, updCh_at by done. fold c. fold c in Hu. by destruct c.
Qed.

(** A bus error in a transfer without flow control is never left: the
    channel is stopped and its error bit set, but the length is not cleared,
    so the burst loop retries the failing access for ever. *)
Theorem dma_bus_error_loops dma (channel each : Z) (fuel : nat) :
  ready dma channel -> let c := dma.(channels).[channel] in
  socDmaPrvChannelRunning dma channel = true -> tst c.(CR) 0x30000000 = false ->
  0 < widthOf c -> each = 1 .<< (widthOf c - 1) -> 0 < len c -> each * (len c / each) = len c ->
  (forall b, exists v, dma_mem dma.(soc) c.(SAR) each false b = Ret (false, v, dma.(soc), [])) ->
  socDmaPrvChannelActIfNeeded fuel dma channel = Hang.
Proof.
  intros Hr c Hrun Hflow Hw He Hl Hd Hbad. unfold socDmaPrvChannelActIfNeeded.
  rewrite Hrun, checkForEnd_busy by (fold c; lia). cbn [negb mbind outcome_bind]. rewrite Hrun.
  cbn zeta. fold c. rewrite Hflow. cbn [negb]. rewrite orb_true_r.
  enough (forall irq, burstsLoop fuel dma channel false irq = Hang) as -> by done.
  clear Hflow Hrun. subst c. revert dma Hr Hw He Hl Hd Hbad.
  induction fuel as [|fuel IH]; intros dma Hr Hw He Hl Hd Hbad irq; [done|]. cbn [burstsLoop].
  destruct (burst_error dma channel each Hr Hw He Hl Hd Hbad) as (dma' & -> & Es & Hr' & Ea & Ec).
  cbn [mbind outcome_bind]. rewrite Ec. unfold len in Hl, Hd. unfold tst at 1.
  assert ((dma.(channels).[channel].(CR) .& 0x1fff =? 0) = false) as -> by (apply Z.eqb_neq; lia).
  cbn [negb andb]. apply IH; unfold widthOf, len; rewrite ?Ec, ?Ea, ?Es; done.
Qed.
End BusError.

(** ** A concrete memory *)

Record DmaWorld := mkDmaWorld { dw_irqs : lines; dw_mem : gmap Z Z }.

#[export, program] Instance dma_world_irq : IrqSink DmaWorld := {|
  irq_int w n b := { w with dw_irqs ::= fun l => irq_int l n b };
  irq_pending w n := irq_pending w.(dw_irqs) n
|}.
Next Obligation. by destruct w. Qed.

#[export, program] Instance dma_world_resched : ReschedSink DmaWorld := {| reschedule w _ := w |}.
Next Obligation. done. Qed.

(** Word-wide cells at every address. *)
#[export] Instance dma_world_mem : DmaMem DmaWorld := {|
  dma_mem w a size write buf :=
    if write then Ret (true, buf, { w with dw_mem ::= <[a := buf]> }, [])
    else Ret (true, default 0 (w.(dw_mem) !! a), w, [])
|}.

(** A bus on which nothing answers. *)
Definition empty_bus : DmaMem DmaWorld :=
  {| dma_mem w a size write buf := Ret (false, buf, w, []) |}.

(** Channel 2 moves three words from 0x100 to 0x200 and asks for the end interrupt. *)
Definition demo_channel : PxaDmaChannel :=
  mkPxaDmaChannel 0 0x100 0x200 0xc020c00c 0xc0000000 true true true.

Definition demo_dma {W} (w : W) : SocDma W :=
  mkSocDma w 0 0 0 (replicate 32 (mkPxaDmaChannel 0 0 0 0 8 false false false)).[2 <- demo_channel]
    (replicate 75 0).

Definition demo_world : DmaWorld :=
  mkDmaWorld idle (<[0x100 := 11]> (<[0x104 := 22]> (<[0x108 := 33]> ∅))).

Lemma dma_transfer_copies_witness :
  exists dma', socDmaPrvChannelActIfNeeded 12 (demo_dma demo_world) 2 = Ret dma' /\
    Z.testbit dma'.(DINT) 2 = true /\ dma'.(soc).(dw_mem) !! 0x208 = Some 33.
Proof.
  destruct (dma_transfer_copies (DmaMem0 := dma_world_mem) (fun w a => default 0 (w.(dw_mem) !! a))
    (fun w a v => { w with dw_mem ::= <[a := v]> }) 4 (fun w a b => eq_refl) (fun w a v => eq_refl)
    (demo_dma demo_world) 2 12) as (dma' & E & Es & _ & _ & _ & _ & Ei & _).
  - split; [lia|]. split; [done|]. repeat split; vm_compute; congruence.
  - done.
  - done.
  - done.
  - done.
  - done.
  - done.
  - done.
  - vm_compute. congruence.
  - exists dma'. split; [exact E|]. split; [exact Ei|]. rewrite Es. by vm_compute.
Defined.

Lemma dma_bus_error_loops_witness :
  socDmaPrvChannelActIfNeeded (DmaMem0 := empty_bus) 100 (demo_dma demo_world) 2 = Hang.
Proof.
  apply (dma_bus_error_loops (DmaMem0 := empty_bus) _ 2 4); try reflexivity.
  - split; [lia|]. split; [done|]. repeat split; vm_compute; congruence.
  - intros b. exists b. reflexivity.
Defined.
