(* ===== verification/Uart.v ===== *)
(** * The serial ports (pxa_UART.c)

    A 16550-style UART with 64-entry FIFOs. The two host functions that stand
    for the line ([readF], [writeF]) act on the world behind the port; [None]
    is the default function, which reads nothing and drops what is written. *)

From S2P Require Import Prelude Interfaces.

Definition UART_FIFO_DEPTH := 64.
Definition UART_FIFO_EMPTY := 0xFF.

Definition UART_CHAR_BREAK := 0x800.
Definition UART_CHAR_FRAME_ERR := 0x400.
Definition UART_CHAR_PAR_ERR := 0x200.
Definition UART_CHAR_NONE := 0x100.

Record UartFifo := mkUartFifo {
  read : Z;      (* uint8_t *)
  write : Z;     (* uint8_t *)
  buf : list Z   (* uint16_t[UART_FIFO_DEPTH] *)
}.

Record SocUart (W : Type) := mkSocUart {
  ic : W;                             (* ic, reschedule and the host's line *)
  baseAddr : Z;
  readF : option (W -> Z * W);
  writeF : option (W -> Z -> W);
  TX : UartFifo;
  RX : UartFifo;
  transmitShift : Z;                  (* uint16_t *)
  transmitHolding : Z;                (* uint16_t *)
  receiveHolding : Z;                 (* uint16_t *)
  irq : Z;                            (* 5 bits *)
  cyclesSinceRecv : Z;                (* 3 bits *)
  IER : Z;
  IIR : Z;
  FCR : Z;
  LCR : Z;
  LSR : Z;
  MCR : Z;
  MSR : Z;
  SPR : Z;
  DLL : Z;
  DLH : Z;
  ISR : Z
}.
Arguments mkSocUart {W}.
Arguments ic {W}. Arguments baseAddr {W}. Arguments readF {W}. Arguments writeF {W}.
Arguments TX {W}. Arguments RX {W}. Arguments transmitShift {W}. Arguments transmitHolding {W}.
Arguments receiveHolding {W}. Arguments irq {W}. Arguments cyclesSinceRecv {W}.
Arguments IER {W}. Arguments IIR {W}. Arguments FCR {W}. Arguments LCR {W}. Arguments LSR {W}.
Arguments MCR {W}. Arguments MSR {W}. Arguments SPR {W}. Arguments DLL {W}. Arguments DLH {W}.
Arguments ISR {W}.

Definition UART_IER_DMAE := 0x80.
Definition UART_IER_UUE := 0x40.
Definition UART_IER_NRZE := 0x20.
Definition UART_IER_RLSE := 0x04.
Definition UART_IER_TIE := 0x02.
Definition UART_IER_RAVIE := 0x01.
Definition UART_IIR_FIFOES := 0xC0.
Definition UART_IIR_RECV_ERR := 0x06.
Definition UART_IIR_RECV_DATA := 0x04.
Definition UART_IIR_RCV_TIMEOUT := 0x0C.
Definition UART_IIR_SEND_DATA := 0x02.
Definition UART_IIR_NOINT := 0x01.
Definition UART_FCR_ITL_MASK := 0xC0.
Definition UART_FCR_RESETTF := 0x04.
Definition UART_FCR_RESETRF := 0x02.
Definition UART_FCR_TRFIFOE := 0x01.
Definition UART_LCR_DLAB := 0x80.
Definition UART_LCR_SB := 0x40.
Definition UART_LSR_FIFOE := 0x80.
Definition UART_LSR_TEMT := 0x40.
Definition UART_LSR_TDRQ := 0x20.
Definition UART_LSR_BI := 0x10.
Definition UART_LSR_FE := 0x08.
Definition UART_LSR_PE := 0x04.
Definition UART_LSR_OE := 0x02.
Definition UART_LSR_DR := 0x01.
Definition UART_MCR_LOOP := 0x10.
Definition UART_MCR_OUT2 := 0x08.
Definition UART_MSR_CTS := 0x10.

(** ** The FIFO *)

Definition socUartPrvFifoUsed (fifo : UartFifo) : Z :=
  if fifo.(read) =? UART_FIFO_EMPTY then 0 else
  let v := u8 (fifo.(write) + UART_FIFO_DEPTH - fifo.(read)) in
  if UART_FIFO_DEPTH <? v then v - UART_FIFO_DEPTH else v.

Definition socUartPrvFifoFlush (fifo : UartFifo) : UartFifo :=
  { fifo with read := UART_FIFO_EMPTY; write := UART_FIFO_EMPTY }.

Definition socUartPrvFifoPut (fifo : UartFifo) (val : Z) : bool * UartFifo :=
  if fifo.(read) =? UART_FIFO_EMPTY then
    (true, { fifo with read := 0; write := 1; buf ::= fun b => b.[0 <- u16 val] })
  else if negb (fifo.(read) =? fifo.(write)) then
    let w := fifo.(write) in
    let next := u8 (w + 1) in
    (true, { fifo with buf ::= fun b => b.[w <- u16 val];
                       write := (if next =? UART_FIFO_DEPTH then 0 else next) })
  else (false, fifo).

Definition socUartPrvFifoGet (fifo : UartFifo) : Z * UartFifo :=
  if fifo.(read) =? UART_FIFO_EMPTY then (0xFFFF, fifo) else
  let ret := fifo.(buf).[fifo.(read)] in
  let next := u8 (fifo.(read) + 1) in
  let next := if next =? UART_FIFO_DEPTH then 0 else next in
  (ret, if next =? fifo.(write)
        then { fifo with read := UART_FIFO_EMPTY; write := UART_FIFO_EMPTY }
        else { fifo with read := next }).

Definition socUartPrvFifoPeekNth (fifo : UartFifo) (n : Z) : Z :=
  if fifo.(read) =? UART_FIFO_EMPTY then 0xFFFF else
  let n := u8 (n + fifo.(read)) in
  let n := if UART_FIFO_DEPTH <=? n then n - UART_FIFO_DEPTH else n in
  fifo.(buf).[n].

Definition socUartPrvFifoPeek (fifo : UartFifo) : Z := socUartPrvFifoPeekNth fifo 0.

(** ** The port *)
Section Operations.
Context {W : Type} `{!IrqSink W} `{!ReschedSink W}.
Implicit Types uart : SocUart W.

Definition socUartPrvIrq uart (raise : bool) : SocUart W :=
  { uart with ic ::= fun w => irq_int w uart.(irq)
      (negb (tst uart.(MCR) UART_MCR_LOOP) && tst uart.(MCR) UART_MCR_OUT2 && raise) }.

Definition socUartPrvGetchar uart : Z * SocUart W :=
  match uart.(readF) with
  | None => (UART_CHAR_NONE, uart)
  | Some f => let '(c, w) := f uart.(ic) in (u16 c, { uart with ic := w })
  end.

Definition socUartPrvPutchar uart (chr : Z) : SocUart W :=
  match uart.(writeF) with
  | None => uart
  | Some f => { uart with ic := f uart.(ic) chr }
  end.

Definition socUartSetFuncs uart (rf : option (W -> Z * W)) (wf : option (W -> Z -> W)) : SocUart W :=
  { uart with readF := rf; writeF := wf }.

Definition socUartPrvRecalcCharBits uart (c : Z) : SocUart W :=
  let uart := if tst c UART_CHAR_BREAK then { uart with LSR ::= fun l => l .| UART_LSR_BI } else uart in
  let uart := if tst c UART_CHAR_FRAME_ERR then { uart with LSR ::= fun l => l .| UART_LSR_FE } else uart in
  if tst c UART_CHAR_PAR_ERR then { uart with LSR ::= fun l => l .| UART_LSR_PE } else uart.

(** The receive FIFO trigger: [v] characters reach the level FCR asks for. *)
Definition fifoTrigger (fcr v : Z) : bool :=
  let l := fcr .& UART_FCR_ITL_MASK in
  if l =? 0 then 1 <=? v else if l =? 0x40 then 8 <=? v
  else if l =? 0x80 then 16 <=? v else if l =? 0xC0 then 32 <=? v else nz v.

(** [uart->IIR |= code; errorSet = true] *)
Definition setCause uart (code : Z) : SocUart W := { uart with IIR ::= fun i => i .| code }.

Definition recalcFifo uart : SocUart W * bool :=
  let errs := existsb (fun v => nz (socUartPrvFifoPeekNth uart.(RX) v .>> 8)
                                && tst uart.(IER) UART_IER_RLSE)
                (Z.of_nat <$> seq 0 (Z.to_nat (socUartPrvFifoUsed uart.(RX)))) in
  let uart := if errs then setCause { uart with LSR ::= fun l => l .| UART_LSR_FIFOE } UART_IIR_RECV_ERR
              else uart in
  let errorSet := errs in
  let v := socUartPrvFifoUsed uart.(RX) in
  let uart := if nz v then socUartPrvRecalcCharBits uart (socUartPrvFifoPeek uart.(RX)) else uart in
  let '(uart, errorSet) :=
    if fifoTrigger uart.(FCR) v && tst uart.(IER) UART_IER_RAVIE && negb errorSet
    then (setCause uart UART_IIR_RECV_DATA, true) else (uart, errorSet) in
  if nz (socUartPrvFifoUsed uart.(RX)) && (4 <=? uart.(cyclesSinceRecv))
     && tst uart.(IER) UART_IER_RAVIE && negb errorSet
  then (setCause uart UART_IIR_RCV_TIMEOUT, true) else (uart, errorSet).

Definition recalcPolled uart : SocUart W * bool :=
  let c := uart.(receiveHolding) in
  if tst uart.(LSR) UART_LSR_DR then
    let uart := socUartPrvRecalcCharBits uart c in
    if nz (c .>> 8) && tst uart.(IER) UART_IER_RLSE then (setCause uart UART_IIR_RECV_ERR, true)
    else if tst uart.(IER) UART_IER_RAVIE then (setCause uart UART_IIR_RECV_DATA, true)
    else (uart, false)
  else (uart, false).

Definition socUartPrvRecalc uart : SocUart W :=
  let uart := { uart with LSR ::= fun l => l .&~ UART_LSR_FIFOE } in
  let uart := { uart with IIR ::= fun i => i .& UART_IIR_FIFOES } in
  let uart := { uart with LSR ::= fun l => l .&~ (UART_LSR_BI .| UART_LSR_FE .| UART_LSR_PE) } in
  let '(uart, errorSet) := if tst uart.(FCR) UART_FCR_TRFIFOE then recalcFifo uart
                           else recalcPolled uart in
  let '(uart, errorSet) :=
    if tst uart.(LSR) UART_LSR_TDRQ && negb errorSet && tst uart.(IER) UART_IER_TIE
    then (setCause uart UART_IIR_SEND_DATA, true) else (uart, errorSet) in
  let uart := if errorSet then uart else setCause uart UART_IIR_NOINT in
  socUartPrvIrq uart errorSet.

Definition socUartPrvSendChar uart (v : Z) : SocUart W :=
  if tst uart.(LSR) UART_LSR_TEMT then
    let uart := { uart with transmitShift := u16 v; LSR ::= fun l => l .&~ UART_LSR_TEMT } in
    { uart with ic ::= fun w => reschedule w RESCHEDULE_TASK_UART }
  else if tst uart.(FCR) UART_FCR_TRFIFOE then
    let uart := { uart with TX ::= fun f => snd (socUartPrvFifoPut f v) } in
    if UART_FIFO_DEPTH / 2 <? socUartPrvFifoUsed uart.(TX)
    then { uart with LSR ::= fun l => l .&~ UART_LSR_TDRQ } else uart
  else if tst uart.(LSR) UART_LSR_TDRQ then
    { uart with transmitHolding := u16 v; LSR ::= fun l => l .&~ UART_LSR_TDRQ }
  else uart.

Definition writeIER uart (val : Z) : outcome (SocUart W) :=
  let t := uart.(IER) .^ val in
  if tst t UART_IER_DMAE then Abort (* "DMA mode cannot be enabled" *) else
  let uart := if tst t UART_IER_UUE && tst val UART_IER_UUE
              then { uart with LSR := UART_LSR_TEMT .| UART_LSR_TDRQ; MSR := UART_MSR_CTS } else uart in
  Ret { uart with IER ::= fun i => i .^ t }.

Definition writeFCR uart (val : Z) : SocUart W :=
  let t := uart.(FCR) .^ val in
  let uart :=
    if tst t UART_FCR_TRFIFOE then
      if tst val UART_FCR_TRFIFOE then
        let uart := if tst val UART_FCR_RESETRF
                    then { uart with RX ::= socUartPrvFifoFlush } else uart in
        let uart := if tst val UART_FCR_RESETTF
                    then { uart with TX ::= socUartPrvFifoFlush; LSR := UART_LSR_TEMT .| UART_LSR_TDRQ }
                    else uart in
        { uart with IIR := UART_IIR_FIFOES .| UART_IIR_NOINT }
      else { uart with TX ::= socUartPrvFifoFlush; RX ::= socUartPrvFifoFlush;
                       LSR := UART_LSR_TEMT .| UART_LSR_TDRQ; IIR := UART_IIR_NOINT }
    else uart in
  { uart with FCR := val }.

Definition writeLCR uart (val : Z) : SocUart W :=
  let t := uart.(LCR) .^ val in
  let uart := if tst t UART_LCR_SB && negb (tst val UART_LCR_SB)
              then socUartPrvSendChar uart UART_CHAR_BREAK else uart in
  { uart with LCR := val }.

(** A read of the receive register: the value, and whether to recompute. *)
Definition readRBR uart : Z * SocUart W * bool :=
  if negb (tst uart.(LSR) UART_LSR_DR) then (0, uart, false)
  else if tst uart.(FCR) UART_FCR_TRFIFOE then
    let '(c, f) := socUartPrvFifoGet uart.(RX) in
    let uart := { uart with RX := f } in
    (u8 c, if nz (socUartPrvFifoUsed f) then uart else { uart with LSR ::= fun l => l .&~ UART_LSR_DR },
     true)
  else (u8 uart.(receiveHolding), { uart with LSR ::= fun l => l .&~ UART_LSR_DR }, false).

Definition socUartPrvMemAccessF uart (pa size : Z) (wr : bool) (b : Z) : outcome (access (SocUart W)) :=
  let DLAB := tst uart.(LCR) UART_LCR_DLAB in
  if negb (size =? 4) && negb (size =? 1) then Ret (true, b, uart) else
  let pa := u32 (pa - uart.(baseAddr)) .>> 2 in
  if wr then
    let val := u8 b in
    let done uart : outcome (access (SocUart W)) := Ret (true, b, socUartPrvRecalc uart) in
    match pa with
    | 0 => if DLAB then Ret (true, b, { uart with DLL := val }) else done (socUartPrvSendChar uart val)
    | 1 => if DLAB then Ret (true, b, { uart with DLH := val })
           else uart ← writeIER uart val; done uart
    | 2 => done (writeFCR uart val)
    | 3 => done (writeLCR uart val)
    | 4 => done { uart with MCR := val }
    | 7 => done { uart with SPR := val }
    | 8 => done { uart with ISR := val }
    | _ => done uart
    end
  else
    match pa with
    | 0 => if DLAB then Ret (true, uart.(DLL), uart) else
           let '(val, uart, recalc) := readRBR uart in
           Ret (true, val, if (recalc : bool) then socUartPrvRecalc uart else uart)
    | 1 => Ret (true, if DLAB then uart.(DLH) else uart.(IER), uart)
    | 2 => Ret (true, uart.(IIR), uart)
    | 3 => Ret (true, uart.(LCR), uart)
    | 4 => Ret (true, uart.(MCR), uart)
    | 5 => Ret (true, uart.(LSR), uart)
    | 6 => Ret (true, uart.(MSR), uart)
    | 7 => Ret (true, uart.(SPR), uart)
    | 8 => Ret (true, uart.(ISR), uart)
    | _ => Ret (true, 0, uart)
    end.

Definition fifoInit : UartFifo := socUartPrvFifoFlush (mkUartFifo 0 0 (replicate 64 0)).

Definition socUartInit (w : W) (base irqNum : Z) : SocUart W :=
  mkSocUart w base None None fifoInit fifoInit 0 0 0 (wrap 5 irqNum) 0
    (UART_IER_UUE .| UART_IER_NRZE) UART_IIR_NOINT 0 0 (UART_LSR_TEMT .| UART_LSR_TDRQ) 0
    UART_MSR_CTS 0 0 0 0.

Definition processSend uart : SocUart W :=
  if negb (tst uart.(LSR) UART_LSR_TEMT) then
    let uart := socUartPrvPutchar uart uart.(transmitShift) in
    if tst uart.(FCR) UART_FCR_TRFIFOE then
      let t := socUartPrvFifoUsed uart.(TX) in
      if nz t then
        let '(c, f) := socUartPrvFifoGet uart.(TX) in
        let uart := { uart with transmitShift := c; TX := f } in
        if t - 1 <=? UART_FIFO_DEPTH / 2
        then { uart with LSR ::= fun l => l .| UART_LSR_TDRQ } else uart
      else { uart with LSR ::= fun l => l .| UART_LSR_TEMT }
    else if tst uart.(LSR) UART_LSR_TDRQ then { uart with LSR ::= fun l => l .| UART_LSR_TEMT }
    else { uart with transmitShift := uart.(transmitHolding); LSR ::= fun l => l .| UART_LSR_TDRQ }
  else uart.

Definition processReceive uart : SocUart W :=
  let '(v, uart) := socUartPrvGetchar uart in
  if negb (v =? UART_CHAR_NONE) then
    let uart := { uart with cyclesSinceRecv := 0; LSR ::= fun l => l .| UART_LSR_DR } in
    if tst uart.(FCR) UART_FCR_TRFIFOE then
      let '(ok, f) := socUartPrvFifoPut uart.(RX) v in
      if negb ok then { uart with LSR ::= fun l => l .| UART_LSR_OE } else { uart with RX := f }
    else if tst uart.(LSR) UART_LSR_DR then { uart with LSR ::= fun l => l .| UART_LSR_OE }
    else { uart with receiveHolding := v }
  else if uart.(cyclesSinceRecv) <=? 4 then { uart with cyclesSinceRecv ::= Z.succ } else uart.

Definition socUartProcess uart : SocUart W :=
  socUartPrvRecalc (processReceive (processSend uart)).

Definition socUartTaskRequired uart : bool := uart.(LSR) .& UART_LSR_TEMT =? 0.

End Operations.

(** ** The FIFO is a bounded queue *)

Record fifo_wf (f : UartFifo) : Prop := {
  fwf_len : length f.(buf) = 64%nat;
  fwf_buf : Forall (is_u 16) f.(buf);
  fwf_idx : (f.(read) = UART_FIFO_EMPTY /\ f.(write) = UART_FIFO_EMPTY) \/
            (0 <= f.(read) < 64 /\ 0 <= f.(write) < 64)
}.

(** [u] entries from index [r] on, around the end of the buffer. *)
Definition ring (r : Z) (u : nat) (b : list Z) : list Z :=
  (fun k => b.[(r + Z.of_nat k) mod 64]) <$> seq 0 u.

Definition contents (f : UartFifo) : list Z :=
  ring f.(read) (Z.to_nat (socUartPrvFifoUsed f)) f.(buf).

Lemma ring_snoc r u b : ring r (S u) b = ring r u b ++ [b.[(r + Z.of_nat u) mod 64]].
Proof. unfold ring. by rewrite seq_S, fmap_app. Qed.

Lemma ring_mod r r' u b : r mod 64 = r' mod 64 -> ring r u b = ring r' u b.
Proof.
  intros E. unfold ring. apply list_fmap_ext. intros k x _. f_equal.
  rewrite <- Zplus_mod_idemp_l, E, Zplus_mod_idemp_l. done.
Qed.

Lemma ring_cons r u b : ring r (S u) b = b.[r mod 64] :: ring (r + 1) u b.
Proof.
  unfold ring. cbn [seq fmap list_fmap]. f_equal; [by rewrite Z.add_0_r|].
  rewrite <- seq_shift, <- list_fmap_compose. apply list_fmap_ext. intros k x _. cbn.
  do 2 f_equal. lia.
Qed.

(** Writing just behind the last entry leaves the entries alone. *)
Lemma ring_aset r u b x :
  length b = 64%nat -> (u < 64)%nat ->
  ring r u (aset b ((r + Z.of_nat u) mod 64) x) = ring r u b.
Proof.
  intros Hl Hu. unfold ring. apply list_fmap_ext. intros i k Hk. apply lookup_seq in Hk as [-> Hk].
  pose proof (Z.mod_pos_bound (r + Z.of_nat u) 64 ltac:(done)).
  pose proof (Z.mod_pos_bound (r + Z.of_nat (0 + i)) 64 ltac:(done)).
  apply aget_aset_ne; [lia|lia|zdiv_lia].
Qed.

Lemma ring_length r u b : length (ring r u b) = u.
Proof. unfold ring. by rewrite length_fmap, length_seq. Qed.

Lemma ring_lookup r u b k :
  (k < u)%nat -> ring r u b !! k = Some b.[(r + Z.of_nat k) mod 64].
Proof. intros Hk. unfold ring. by rewrite list_lookup_fmap, lookup_seq_lt. Qed.

Lemma used_nonempty f :
  0 <= f.(read) < 64 -> 0 <= f.(write) < 64 ->
  let d := (f.(write) - f.(read)) mod 64 in
  socUartPrvFifoUsed f = if d =? 0 then 64 else d.
Proof.
  destruct f as [r w b]. intros Hr Hw d. cbn in *. subst d. unfold socUartPrvFifoUsed. cbn [read write].
  unfold UART_FIFO_EMPTY, UART_FIFO_DEPTH. assert ((r =? 0xFF) = false) as -> by (apply Z.eqb_neq; lia).
  assert (u8 (w + 64 - r) = w + 64 - r) as -> by (apply wrap_small; split; cbn; lia).
  destruct (Z.ltb_spec 64 (w + 64 - r)), (Z.eqb_spec ((w - r) mod 64) 0); zdiv_lia.
Qed.

Lemma used_bounds f : fifo_wf f -> 0 <= socUartPrvFifoUsed f <= 64.
Proof.
  intros [Hl _ [[Er Ew]|[Hr Hw]]].
  - unfold socUartPrvFifoUsed. rewrite Er. done.
  - rewrite used_nonempty by done. destruct (Z.eqb_spec ((f.(write) - f.(read)) mod 64) 0); [lia|].
    pose proof (Z.mod_pos_bound (f.(write) - f.(read)) 64 ltac:(done)). lia.
Qed.

Lemma contents_length f : fifo_wf f -> Z.of_nat (length (contents f)) = socUartPrvFifoUsed f.
Proof. intros Hf. unfold contents. rewrite ring_length. pose proof (used_bounds f Hf). lia. Qed.

Lemma contents_u16 f : fifo_wf f -> Forall (is_u 16) (contents f).
Proof.
  intros Hf. unfold contents, ring. apply Forall_fmap, Forall_forall. intros k _. cbn.
  apply Forall_aget; [apply Hf|]. destruct Hf as [-> _ _].
  pose proof (Z.mod_pos_bound (f.(read) + Z.of_nat k) 64 ltac:(done)). lia.
Qed.

Lemma flush_spec f : fifo_wf f -> fifo_wf (socUartPrvFifoFlush f) /\ contents (socUartPrvFifoFlush f) = [].
Proof. destruct f as [r w b]. intros [Hl Hb _]. split; [split; [done|done|by left]|done]. Qed.

Lemma put_spec f v :
  fifo_wf f ->
  let '(ok, f') := socUartPrvFifoPut f v in
  fifo_wf f' /\ ok = (Z.of_nat (length (contents f)) <? 64) /\
  contents f' = if ok then contents f ++ [u16 v] else contents f.
Proof.
  intros Hf. pose proof (contents_length f Hf) as Hlen. pose proof (used_bounds f Hf) as Hu.
  pose proof Hf as [Hl Hb [[Er Ew]|[Hr Hw]]]; rewrite Hlen.
  - unfold socUartPrvFifoPut. rewrite Er. cbn [Z.eqb Pos.eqb UART_FIFO_EMPTY].
    destruct f as [r w b]. cbn in *. subst r w. split; [split; cbn|split].
    + by rewrite length_aset.
    + apply Forall_aset; [done|by apply wrap_is_u].
    + right. lia.
    + done.
    + change [u16 v] with [u16 v]. transitivity (ring 0 1 (b.[0 <- u16 v])); [done|].
      rewrite (ring_snoc 0 0). change ((0 + Z.of_nat 0) mod 64) with 0.
      by rewrite aget_aset_eq by lia.
  - pose proof (used_nonempty f Hr Hw) as Eu. unfold socUartPrvFifoPut.
    destruct f as [r w b]. cbn [read write buf] in *.
    assert ((r =? UART_FIFO_EMPTY) = false) as -> by (apply Z.eqb_neq; unfold UART_FIFO_EMPTY; lia).
    destruct (Z.eqb_spec r w) as [->|Hne]; cbn [negb].
    + split; [done|]. rewrite Z.sub_diag in Eu. cbn in Eu. by rewrite Eu.
    + assert (u8 (w + 1) = w + 1) as -> by (apply wrap_small; split; cbn; lia).
      assert ((w - r) mod 64 <> 0) as Hz by zdiv_lia. apply Z.eqb_neq in Hz. rewrite Hz in Eu.
      set (w' := if w + 1 =? _ then 0 else w + 1).
      assert (0 <= w' < 64 /\ (w' - r) mod 64 = (w + 1 - r) mod 64) as [Hw' Ew'].
      { subst w'. unfold UART_FIFO_DEPTH. destruct (Z.eqb_spec (w + 1) 64); split; try lia; zdiv_lia. }
      pose proof (used_nonempty (mkUartFifo r w' (b.[w <- u16 v])) Hr Hw') as Eu'. cbn [read write] in Eu'.
      cbn. split; [split; cbn|split].
      * by rewrite length_aset.
      * apply Forall_aset; [done|by apply wrap_is_u].
      * right. lia.
      * symmetry. apply Z.ltb_lt. rewrite Eu. apply Z.mod_pos_bound. done.
      * unfold contents. cbn [read buf]. rewrite Eu', Eu, Ew'. apply Z.eqb_neq in Hz.
        set (u := (w - r) mod 64) in *.
        assert ((if (w + 1 - r) mod 64 =? 0 then 64 else (w + 1 - r) mod 64) = u + 1) as ->.
        { subst u. destruct (Z.eqb_spec ((w + 1 - r) mod 64) 0); zdiv_lia. }
        assert (0 <= u < 64) by (by apply Z.mod_pos_bound).
        replace (Z.to_nat (u + 1)) with (S (Z.to_nat u)) by lia.
        assert (w = (r + Z.of_nat (Z.to_nat u)) mod 64) as Ei by (subst u; rewrite Z2Nat.id by lia; zdiv_lia).
        rewrite ring_snoc. rewrite <- Ei. rewrite aget_aset_eq by lia.
        rewrite Ei at 1. by rewrite ring_aset by lia.
Qed.

Lemma get_spec f :
  fifo_wf f ->
  let '(c, f') := socUartPrvFifoGet f in
  fifo_wf f' /\
  match contents f with
  | [] => c = 0xFFFF /\ f' = f
  | x :: rest => c = x /\ contents f' = rest
  end.
Proof.
  intros Hf. pose proof (used_bounds f Hf) as Hu.
  pose proof Hf as [Hl Hb [[Er Ew]|[Hr Hw]]]; unfold socUartPrvFifoGet.
  - rewrite Er. cbn [Z.eqb Pos.eqb UART_FIFO_EMPTY]. split; [done|].
    unfold contents, socUartPrvFifoUsed. rewrite Er. done.
  - pose proof (used_nonempty f Hr Hw) as Eu.
    destruct f as [r w b]. cbn [read write buf] in *.
    assert ((r =? UART_FIFO_EMPTY) = false) as -> by (apply Z.eqb_neq; unfold UART_FIFO_EMPTY; lia).
    assert (u8 (r + 1) = r + 1) as -> by (apply wrap_small; split; cbn; lia).
    set (r' := if r + 1 =? _ then 0 else r + 1).
    assert (0 <= r' < 64 /\ r' = (r + 1) mod 64) as [Hr' Er'].
    { subst r'. unfold UART_FIFO_DEPTH. destruct (Z.eqb_spec (r + 1) 64); zdiv_lia. }
    set (u := (w - r) mod 64) in *. assert (0 <= u < 64) by (by apply Z.mod_pos_bound).
    assert (contents (mkUartFifo r w b) =
      b.[r] :: ring r' (Z.to_nat (socUartPrvFifoUsed (mkUartFifo r w b) - 1)) b) as ->.
    { unfold contents. cbn [read buf]. rewrite (ring_mod r' (r + 1)) by (subst r'; zdiv_lia || (rewrite Er'; by rewrite Zmod_mod)).
      rewrite Eu. replace (Z.to_nat _) with (S (Z.to_nat ((if u =? 0 then 64 else u) - 1))).
      - rewrite ring_cons. by rewrite Z.mod_small by lia.
      - destruct (Z.eqb_spec u 0); lia. }
    cbn [fst snd]. destruct (Z.eqb_spec r' w) as [Hw0|Hne].
    + split; [split; cbn; [done|done|by left]|]. split; [done|]. rewrite Eu.
      replace (Z.to_nat _) with O; [done|]. subst u. destruct (Z.eqb_spec ((w - r) mod 64) 0); zdiv_lia.
    + split; [split; cbn; [done|done|by right]|]. split; [done|].
      unfold contents. cbn [read buf]. pose proof (used_nonempty (mkUartFifo r' w b) Hr' Hw) as Eu'.
      cbn [read write] in Eu'. cbn. rewrite Eu, Eu'. f_equal.
      f_equal. subst u. destruct (Z.eqb_spec ((w - r) mod 64) 0), (Z.eqb_spec ((w - r') mod 64) 0); zdiv_lia.
Qed.

Lemma peek_spec f n :
  fifo_wf f -> 0 <= n ->
  (contents f = [] -> socUartPrvFifoPeekNth f n = 0xFFFF) /\
  (n < Z.of_nat (length (contents f)) -> contents f !! Z.to_nat n = Some (socUartPrvFifoPeekNth f n)).
Proof.
  intros Hf Hn. pose proof (used_bounds f Hf) as Hu. pose proof (contents_length f Hf) as Hlen.
  pose proof Hf as [Hl Hb [[Er Ew]|[Hr Hw]]]; unfold socUartPrvFifoPeekNth.
  - rewrite Er. split; [done|]. rewrite Hlen. unfold socUartPrvFifoUsed. rewrite Er. cbn. lia.
  - pose proof (used_nonempty f Hr Hw) as Eu.
    assert ((f.(read) =? UART_FIFO_EMPTY) = false) as -> by (apply Z.eqb_neq; unfold UART_FIFO_EMPTY; lia).
    split.
    + intros E. rewrite E in Hlen. cbn in Hlen, Eu. exfalso.
      destruct (Z.eqb_spec ((f.(write) - f.(read)) mod 64) 0); lia.
    + intros Hlt. assert (n < 64) by lia. unfold contents.
      rewrite ring_lookup by lia. rewrite Z2Nat.id by done.
      assert (u8 (n + f.(read)) = n + f.(read)) as -> by (apply wrap_small; split; cbn; lia).
      do 2 f_equal. unfold UART_FIFO_DEPTH. destruct (Z.leb_spec 64 (n + f.(read))); zdiv_lia.
Qed.

(** Each FIFO behaves as a queue of at most 64 16-bit characters: what is
    put in comes out in order, a put fails exactly when 64 are waiting and
    then changes nothing, an empty FIFO reads 0xFFFF, and the [n]-th entry can
    be looked at. *)
Theorem uart_fifo_is_queue (f : UartFifo) (v n : Z) (Hf : fifo_wf f) (Hn : 0 <= n) :
  (socUartPrvFifoUsed f = Z.of_nat (length (contents f)) /\ socUartPrvFifoUsed f <= 64) /\
  (let '(ok, f') := socUartPrvFifoPut f v in
   fifo_wf f' /\ ok = (Z.of_nat (length (contents f)) <? 64) /\
   contents f' = if ok then contents f ++ [u16 v] else contents f) /\
  (let '(c, f') := socUartPrvFifoGet f in
   fifo_wf f' /\
   match contents f with
   | [] => c = 0xFFFF /\ f' = f
   | x :: rest => c = x /\ contents f' = rest
   end) /\
  (n < Z.of_nat (length (contents f)) -> contents f !! Z.to_nat n = Some (socUartPrvFifoPeekNth f n)) /\
  contents (socUartPrvFifoFlush f) = [].
Proof.
  split; [rewrite contents_length by done; split; [done|by apply used_bounds]|].
  split; [by apply put_spec|]. split; [by apply get_spec|]. split; [by apply peek_spec|].
  by apply flush_spec.
Qed.

Lemma fifoInit_wf : fifo_wf fifoInit.
Proof.
  split; [done| |by left]. apply Forall_replicate. is_u_lit.
Qed.

Definition demo_fifo : UartFifo :=
  snd (socUartPrvFifoPut (snd (socUartPrvFifoPut fifoInit 0x41)) 0x142).

Lemma demo_fifo_wf : fifo_wf demo_fifo.
Proof. split; [done| |right; vm_compute; done]. forall_list; is_u_lit. Qed.

Lemma uart_fifo_is_queue_witness :
  contents demo_fifo = [0x41; 0x142] /\ contents demo_fifo !! 1%nat = Some 0x142 /\
  contents (snd (socUartPrvFifoGet demo_fifo)) = [0x142].
Proof.
  destruct (uart_fifo_is_queue demo_fifo 7 1 demo_fifo_wf) as (_ & _ & Hg & Hp & _); [done|].
  assert (contents demo_fifo = [0x41; 0x142]) as Ec by reflexivity.
  split; [exact Ec|]. split; [apply Hp; rewrite Ec; reflexivity|].
  rewrite Ec in Hg. exact (proj2 (proj2 Hg)).
Defined.

#[local] Arguments contents : simpl never.
#[local] Arguments Nat.ltb : simpl never.
#[local] Arguments socUartPrvFifoPut : simpl never.
#[local] Arguments socUartPrvFifoGet : simpl never.
#[local] Arguments socUartPrvFifoUsed : simpl never.
#[local] Arguments socUartPrvFifoPeekNth : simpl never.

(** ** What the other parts of the port leave alone *)
Section Frame.
Context {W : Type} `{!IrqSink W} `{!ReschedSink W}.
Variable out : W -> list Z.
Implicit Types uart u : SocUart W.

(** The transmitter and the output are as they were. *)
Record tx_same u u' : Prop := {
  ts_TX : u'.(TX) = u.(TX);
  ts_FCR : u'.(FCR) = u.(FCR);
  ts_LCR : u'.(LCR) = u.(LCR);
  ts_base : u'.(baseAddr) = u.(baseAddr);
  ts_shift : u'.(transmitShift) = u.(transmitShift);
  ts_readF : u'.(readF) = u.(readF);
  ts_writeF : u'.(writeF) = u.(writeF);
  ts_TEMT : Z.testbit u'.(LSR) 6 = Z.testbit u.(LSR) 6;
  ts_out : out u'.(ic) = out u.(ic)
}.

#[export] Instance tx_same_preorder : PreOrder tx_same.
Proof.
  split; [by split|]. intros a b c [] []. split; congruence.
Qed.

Lemma tx_same_if (b : bool) u u' : tx_same u u' -> tx_same u (if b then u' else u).
Proof. by destruct b. Qed.

(** Setting or clearing other line-status bits. *)
Lemma tx_same_lor u m : Z.testbit m 6 = false -> tx_same u { u with LSR ::= fun l => l .| m }.
Proof. intros Hm. destruct u. split; try done. cbn. by rewrite Z.lor_spec, Hm, orb_false_r. Qed.

Lemma tx_same_clear u m : Z.testbit m 6 = false -> tx_same u { u with LSR ::= fun l => l .&~ m }.
Proof. intros Hm. destruct u. split; try done. cbn. rewrite Z.ldiff_spec, Hm. btauto. Qed.

Lemma tx_same_cause u c : tx_same u (setCause u c).
Proof. by destruct u. Qed.

Lemma tx_same_charBits u c : tx_same u (socUartPrvRecalcCharBits u c).
Proof.
  unfold socUartPrvRecalcCharBits. cbn zeta.
  set (u1 := if tst c UART_CHAR_BREAK then _ else u).
  assert (tx_same u u1) as H1 by (by apply tx_same_if, tx_same_lor).
  set (u2 := if tst c UART_CHAR_FRAME_ERR then _ else u1).
  assert (tx_same u1 u2) as H2 by (by apply tx_same_if, tx_same_lor).
  etrans; [exact H1|]. etrans; [exact H2|]. by apply tx_same_if, tx_same_lor.
Qed.

Hypothesis out_irq : forall w n b, out (irq_int w n b) = out w.

Lemma tx_same_irq u raise : tx_same u (socUartPrvIrq u raise).
Proof. destruct u. split; try done. cbn. apply out_irq. Qed.

Lemma tx_same_recalcFifo u : tx_same u (fst (recalcFifo u)).
Proof.
  unfold recalcFifo. cbn zeta. set (errs := existsb _ _).
  set (u1 := if errs then _ else u).
  assert (tx_same u u1) as H1.
  { apply tx_same_if. etrans; [apply (tx_same_lor u UART_LSR_FIFOE); reflexivity|]. apply tx_same_cause. }
  set (u2 := if nz _ then _ else u1).
  assert (tx_same u u2) as H2 by (etrans; [exact H1|]; apply tx_same_if, tx_same_charBits).
  clearbody u2. destruct (fifoTrigger _ _ && _ && _);
    destruct (nz _ && _ && _ && _); cbn [fst]; try done;
    (etrans; [exact H2|]); try apply tx_same_cause.
  etrans; apply tx_same_cause.
Qed.

Lemma tx_same_recalcPolled u : tx_same u (fst (recalcPolled u)).
Proof.
  unfold recalcPolled. destruct (tst (LSR u) _); [|done].
  pose proof (tx_same_charBits u (receiveHolding u)) as H. set (u1 := socUartPrvRecalcCharBits _ _) in *.
  clearbody u1. destruct (nz _ && _); [cbn [fst]; etrans; [exact H|apply tx_same_cause]|].
  destruct (tst _ _); cbn [fst]; [etrans; [exact H|apply tx_same_cause]|done].
Qed.

Lemma tx_same_recalc u : tx_same u (socUartPrvRecalc u).
Proof.
  unfold socUartPrvRecalc. cbn zeta.
  set (u1 := { u with LSR ::= _ }). assert (tx_same u u1) as H1 by (by apply tx_same_clear).
  set (u2 := { u1 with IIR ::= _ }). assert (tx_same u u2) as H2 by (etrans; [exact H1|by destruct u1]).
  set (u3 := { u2 with LSR ::= _ }). assert (tx_same u u3) as H3 by (etrans; [exact H2|by apply tx_same_clear]).
  clearbody u3. set (r := if tst _ _ then recalcFifo u3 else recalcPolled u3).
  assert (tx_same u (fst r)) as H4.
  { etrans; [exact H3|]. subst r. destruct (tst _ _); [apply tx_same_recalcFifo|apply tx_same_recalcPolled]. }
  clearbody r. destruct r as [u4 e]. cbn [fst] in H4.
  destruct (tst (LSR u4) _ && negb e && _).
  - etrans; [etrans; [exact H4|apply tx_same_cause]|apply tx_same_irq].
  - etrans; [|apply tx_same_irq]. destruct e; [done|]. etrans; [exact H4|apply tx_same_cause].
Qed.
(** ** Transmission *)

(** The characters on their way out: the shift register and the FIFO. *)
Definition txq u : list Z :=
  if Z.testbit u.(LSR) 6 then [] else u.(transmitShift) :: contents u.(TX).

(** The host functions of the line: what is written is appended to the output,
    reading does not touch it. *)
Definition line_ok u : Prop :=
  (exists f, u.(writeF) = Some f /\ forall w c, out (f w c) = out w ++ [c]) /\
  (forall f w, u.(readF) = Some f -> out (snd (f w)) = out w).

(** FIFO mode, the data register selected, and an idle shift register only
    when the FIFO is empty. *)
Record tx_ready u : Prop := {
  tr_fifo : tst u.(FCR) UART_FCR_TRFIFOE = true;
  tr_dlab : tst u.(LCR) UART_LCR_DLAB = false;
  tr_wf : fifo_wf u.(TX);
  tr_idle : Z.testbit u.(LSR) 6 = true -> contents u.(TX) = [];
  tr_line : line_ok u
}.

Lemma tx_same_ready u u' : tx_same u u' -> tx_ready u -> tx_ready u' /\ txq u' = txq u.
Proof.
  intros [E1 E2 E3 E4 E5 E6 E7 E8 E9] [H1 H2 H3 H4 H5]. unfold txq. rewrite E1, E5, E8.
  split; [split|done]; rewrite ?E1, ?E2, ?E3, ?E8; try done. unfold line_ok. by rewrite E6, E7.
Qed.

Lemma TEMT_bit l : tst l UART_LSR_TEMT = Z.testbit l 6.
Proof. exact (tst_bit l 6 ltac:(done)). Qed.

Hypothesis out_resched : forall w t, out (reschedule w t) = out w.

Lemma txq_length u : tx_ready u -> (length (txq u) <= 65)%nat.
Proof.
  intros Hu. unfold txq. destruct (Z.testbit _ _); cbn; [lia|].
  pose proof (contents_length _ (tr_wf u Hu)). pose proof (used_bounds _ (tr_wf u Hu)). lia.
Qed.

Lemma sendChar_spec u v :
  tx_ready u -> is_u 16 v ->
  tx_ready (socUartPrvSendChar u v) /\
  txq (socUartPrvSendChar u v) = txq u ++ (if (length (txq u) <? 65)%nat then [v] else []) /\
  out (socUartPrvSendChar u v).(ic) = out u.(ic) /\
  (socUartPrvSendChar u v).(baseAddr) = u.(baseAddr).
Proof.
  intros Hu Hv. pose proof (txq_length u Hu) as Hq. destruct Hu as [H1 H2 H3 H4 H5].
  unfold socUartPrvSendChar. rewrite TEMT_bit. unfold txq in Hq |- *.
  destruct (Z.testbit u.(LSR) 6) eqn:Et.
  - specialize (H4 eq_refl). destruct u. cbn in *. rewrite (wrap_small 16 v Hv).
    rewrite Z.ldiff_spec, Et. change (Z.testbit UART_LSR_TEMT 6) with true. cbn. rewrite H4.
    split; [by split|].
    split; [done|]. split; [apply out_resched|done].
  - rewrite H1. pose proof (put_spec u.(TX) v H3) as Hp.
    destruct (socUartPrvFifoPut u.(TX) v) as [ok f] eqn:Ep. destruct Hp as (Hwf & -> & Ec).
    rewrite (wrap_small 16 v Hv) in Ec.
    set (u1 := { u with TX ::= _ }). set (u2 := if _ <? _ then _ else u1).
    assert (tx_same u1 u2) as Hs by (by apply tx_same_if, tx_same_clear).
    assert (tx_ready u1) as Hr.
    { subst u1. destruct u. cbn in *. split; cbn; rewrite ?Ep; try done. congruence. }
    destruct (tx_same_ready _ _ Hs Hr) as [Hr2 Eq]. unfold txq in Eq. split; [done|].
    rewrite Eq. destruct Hs. rewrite ts_base0, ts_out0. subst u1. destruct u. cbn in *.
    rewrite Et, Ep. cbn [snd]. rewrite Ec. cbn [app]. split; [|done]. f_equal.
    destruct (Z.ltb_spec (Z.of_nat (length (contents TX0))) 64),
      (Nat.ltb_spec (S (length (contents TX0))) 65); try lia; by rewrite ?app_nil_r.
Qed.

Lemma get_after_head f c rest :
  fifo_wf f -> contents f = c :: rest ->
  exists f', socUartPrvFifoGet f = (c, f') /\ fifo_wf f' /\ contents f' = rest.
Proof.
  intros Hf E. pose proof (get_spec f Hf) as Hg. destruct (socUartPrvFifoGet f) as [c' f'].
  rewrite E in Hg. destruct Hg as (Hw & -> & E'). by exists f'.
Qed.

Lemma processSend_spec u :
  tx_ready u ->
  tx_ready (processSend u) /\ txq (processSend u) = tl (txq u) /\
  out (processSend u).(ic) = out u.(ic) ++ firstn 1 (txq u) /\
  (processSend u).(baseAddr) = u.(baseAddr).
Proof.
  intros Hu. pose proof Hu as [H1 H2 H3 H4 H5]. unfold processSend. rewrite TEMT_bit. unfold txq.
  destruct (Z.testbit u.(LSR) 6) eqn:Et; cbn [negb].
  { rewrite Et. cbn. by rewrite app_nil_r. }
  destruct H5 as [(f & Ef & Hf) Hrd]. cbn zeta. unfold socUartPrvPutchar. rewrite Ef.
  pose proof (contents_length _ H3) as Hlen. destruct u. cbn in H1, H2, H3, Ef, Et, Hrd, Hlen |- *. subst writeF0.
  rewrite H1. destruct (contents TX0) as [|c rest] eqn:Ec; cbn in Hlen; rewrite <- Hlen.
  - change (nz (Z.of_nat 0)) with false. cbn. rewrite Z.lor_spec, Et. cbn. split; [|split; [done|split; [apply Hf|done]]].
    split; cbn; try done. split; [by exists f|done].
  - destruct (get_after_head _ _ _ H3 Ec) as (g & -> & Hg & Eg).
    assert (nz (Z.of_nat (S (length rest))) = true) as -> by done.
    match goal with |- context [if (?a <=? ?b) then _ else ?x] =>
      set (u1 := x); set (u2 := if a <=? b then _ else u1) end.
    assert (tx_same u1 u2) as Hs by (by apply tx_same_if, (tx_same_lor u1)).
    assert (tx_ready u1) as Hr.
    { subst u1. split; cbn; try done; [by rewrite Et|]. split; [by exists f|done]. }
    destruct (tx_same_ready _ _ Hs Hr) as [Hr2 Eq]. unfold txq in Eq. split; [done|].
    rewrite Eq. destruct Hs. rewrite ts_base0, ts_out0. subst u1. cbn. rewrite Et, Eg.
    split; [done|]. split; [apply Hf|done].
Qed.

Lemma tx_same_receive u : tx_ready u -> tx_same u (processReceive u).
Proof.
  intros [H1 H2 H3 H4 [_ Hrd]]. unfold processReceive, socUartPrvGetchar.
  set (r := match u.(readF) with Some _ => _ | None => _ end).
  assert (tx_same u (snd r)) as H.
  { subst r. destruct u. cbn in *. destruct readF0 as [f|]; [|done]. specialize (Hrd f ic0 eq_refl).
    destruct (f ic0) as [c w]. by split. }
  clearbody r. destruct r as [v u1]. cbn [snd] in H. etrans; [exact H|]. clear H.
  destruct (negb (v =? _)); [|destruct (_ <=? _); [by destruct u1|done]].
  cbn zeta. set (u2 := { u1 with cyclesSinceRecv := 0; LSR ::= fun l => l .| UART_LSR_DR }).
  assert (tx_same u1 u2) as H.
  { destruct u1. split; try done. cbn. rewrite Z.lor_spec. change (Z.testbit UART_LSR_DR 6) with false. btauto. }
  etrans; [exact H|]. clearbody u2. clear H.
  destruct (tst u2.(FCR) UART_FCR_TRFIFOE).
  - destruct (socUartPrvFifoPut _ _) as [ok f]. destruct ok; cbn [negb]; [by destruct u2|by apply tx_same_lor].
  - destruct (tst u2.(LSR) UART_LSR_DR); [by apply tx_same_lor|by destruct u2].
Qed.

(** What happens to a port in FIFO mode: the guest writes a character to the
    data register, reads a register, or the port is run for one character
    time. [sent] collects the characters the port took; it takes one unless 65
    are waiting. *)
Inductive uart_trace : SocUart W -> list Z -> SocUart W -> Prop :=
| trace_refl u : uart_trace u [] u
| trace_send u sent u' u'' v :
    uart_trace u sent u' -> is_u 8 v ->
    socUartPrvMemAccessF u' u'.(baseAddr) 1 true v = Ret (true, v, u'') ->
    uart_trace u (sent ++ if (length (txq u') <? 65)%nat then [v] else []) u''
| trace_read u sent u' u'' pa size b ok val :
    uart_trace u sent u' -> socUartPrvMemAccessF u' pa size false b = Ret (ok, val, u'') ->
    uart_trace u sent u''
| trace_tick u sent u' : uart_trace u sent u' -> uart_trace u sent (socUartProcess u').

Lemma tx_same_read u pa size b ok val u' :
  socUartPrvMemAccessF u pa size false b = Ret (ok, val, u') -> tx_same u u'.
Proof.
  unfold socUartPrvMemAccessF. destruct (negb (size =? 4) && _); [by intros [= _ _ <-]|].
  set (r := u32 _ .>> 2). clearbody r.
  assert (forall o v : Z, Ret (true, v, u) = Ret (ok, o, u') -> tx_same u u') as Hid
    by (by intros o v [= _ _ <-]).
  enough (forall v u1 rc, readRBR u = (v, u1, rc) ->
    tx_same u (if (rc : bool) then socUartPrvRecalc u1 else u1)) as Hr.
  { destruct (decide (r = 0)) as [->|Hne].
    - destruct (tst u.(LCR) UART_LCR_DLAB); [by apply Hid|].
      destruct (readRBR u) as [[v u1] rc] eqn:E. intros [= _ _ <-]. by eapply Hr.
    - clear Hr. repeat (case_match; try done; try (by apply Hid)). }
  intros v u1 rc. unfold readRBR. destruct (negb _); [by intros [= _ <- <-]|].
  destruct (tst u.(FCR) _).
  - destruct (socUartPrvFifoGet _) as [c f]. intros [= _ <- <-]. etrans; [|apply tx_same_recalc].
    destruct (nz _); [by destruct u|].
    destruct u. split; try done. cbn. rewrite Z.ldiff_spec. apply andb_true_r.
  - intros [= _ <- <-]. by apply tx_same_clear.
Qed.

Lemma send_access u v u' :
  tx_ready u -> is_u 8 v ->
  socUartPrvMemAccessF u u.(baseAddr) 1 true v = Ret (true, v, u') ->
  u' = socUartPrvRecalc (socUartPrvSendChar u v).
Proof.
  intros Hu Hv. unfold socUartPrvMemAccessF. rewrite Z.sub_diag, (tr_dlab u Hu), (wrap_small 8 v Hv).
  change (negb (1 =? 4) && negb (1 =? 1)) with false. change (u32 0 .>> 2) with 0. cbv iota zeta beta.
  intros H. by apply access_inj in H as (_ & _ & <-).
Qed.

(** Nothing is lost or reordered on the way out: in any mix of character
    writes, register reads and character times, the characters put on the
    line followed by those still waiting are, in order, the characters that
    were put out or waiting before followed by those the port took; each
    character time puts out the first one waiting, and at most 65 wait. *)
Theorem uart_tx_in_order u sent u' (Hu : tx_ready u) (Hrun : uart_trace u sent u') :
  out u'.(ic) ++ txq u' = out u.(ic) ++ txq u ++ sent /\
  (length (txq u') <= 65)%nat /\
  out (socUartProcess u').(ic) = out u'.(ic) ++ firstn 1 (txq u') /\
  txq (socUartProcess u') = tl (txq u').
Proof.
  assert (forall x, tx_ready x -> tx_ready (socUartProcess x) /\
    out (socUartProcess x).(ic) = out x.(ic) ++ firstn 1 (txq x) /\
    txq (socUartProcess x) = tl (txq x)) as Htick.
  { intros x Hx. destruct (processSend_spec x Hx) as (Hr & Eq & Eo & _). unfold socUartProcess.
    assert (tx_same (processSend x) (socUartPrvRecalc (processReceive (processSend x)))) as Hs
      by (etrans; [by apply tx_same_receive|apply tx_same_recalc]).
    destruct (tx_same_ready _ _ Hs Hr) as [Hr' Eq']. split; [done|].
    by rewrite (ts_out _ _ Hs), Eo, Eq', Eq. }
  enough (tx_ready u' /\ out u'.(ic) ++ txq u' = out u.(ic) ++ txq u ++ sent) as [Hr E].
  { split; [done|]. split; [by apply txq_length|]. by apply Htick. }
  induction Hrun as [u|u sent u' u'' v Hrun IH Hv Ha|u sent u' u'' pa size b ok val Hrun IH Ha|u sent u' Hrun IH].
  - by rewrite app_nil_r.
  - destruct (IH Hu) as [Hr E]. rewrite (send_access _ _ _ Hr Hv Ha).
    destruct (sendChar_spec u' v Hr) as (Hr1 & Eq & Eo & _); [eapply is_u_le; [exact Hv|lia]|].
    destruct (tx_same_ready _ _ (tx_same_recalc (socUartPrvSendChar u' v)) Hr1) as [Hr2 Eq2].
    split; [done|]. rewrite (ts_out _ _ (tx_same_recalc _)), Eo, Eq2, Eq.
    by rewrite !app_assoc, E, <- !app_assoc.
  - destruct (IH Hu) as [Hr E]. pose proof (tx_same_read _ _ _ _ _ _ _ Ha) as Hs.
    destruct (tx_same_ready _ _ Hs Hr) as [Hr2 Eq2]. split; [done|]. by rewrite (ts_out _ _ Hs), Eq2.
  - destruct (IH Hu) as [Hr E]. destruct (Htick u' Hr) as (Hr2 & Eo & Eq). split; [done|].
    rewrite Eo, Eq, <- E, <- app_assoc. f_equal. by destruct (txq u').
Qed.

End Frame.

(** ** The interrupt line *)
Section Interrupts.
Context {W : Type} `{!IrqSink W} `{!ReschedSink W}.
Implicit Types u : SocUart W.

(** The interrupt a port reports: the first of receive error, receive data,
    receive time-out and transmit request that is enabled and present. *)
Definition uartCause u : option Z :=
  let rlse := tst u.(IER) UART_IER_RLSE in
  let ravie := tst u.(IER) UART_IER_RAVIE in
  let tx := if tst u.(IER) UART_IER_TIE && tst u.(LSR) UART_LSR_TDRQ
            then Some UART_IIR_SEND_DATA else None in
  if tst u.(FCR) UART_FCR_TRFIFOE then
    let q := contents u.(RX) in
    if rlse && existsb (fun c => nz (c .>> 8)) q then Some UART_IIR_RECV_ERR
    else if ravie && fifoTrigger u.(FCR) (Z.of_nat (length q)) then Some UART_IIR_RECV_DATA
    else if ravie && negb (Nat.eqb (length q) 0) && (4 <=? u.(cyclesSinceRecv)) then Some UART_IIR_RCV_TIMEOUT
    else tx
  else if tst u.(LSR) UART_LSR_DR && rlse && nz (u.(receiveHolding) .>> 8) then Some UART_IIR_RECV_ERR
  else if tst u.(LSR) UART_LSR_DR && ravie then Some UART_IIR_RECV_DATA
  else tx.

(** [l'] has the data-ready and transmit-request bits of [l]. *)
Definition lsr_same (l l' : Z) : Prop :=
  tst l' UART_LSR_TDRQ = tst l UART_LSR_TDRQ /\ tst l' UART_LSR_DR = tst l UART_LSR_DR.

#[export] Instance lsr_same_preorder : PreOrder lsr_same.
Proof. split; [by split|]. intros a b c [] []. split; congruence. Qed.

Lemma lsr_same_bits l l' :
  Z.testbit l' 5 = Z.testbit l 5 -> Z.testbit l' 0 = Z.testbit l 0 -> lsr_same l l'.
Proof.
  intros E5 E0. unfold lsr_same, UART_LSR_TDRQ, UART_LSR_DR.
  change 0x20 with (2 ^ 5). change (tst l' 1) with (tst l' (2 ^ 0)). change (tst l 1) with (tst l (2 ^ 0)).
  by rewrite !tst_bit by done.
Qed.

Lemma lsr_same_lor l m :
  Z.testbit m 5 = false -> Z.testbit m 0 = false -> lsr_same l (l .| m).
Proof. intros H5 H0. apply lsr_same_bits; by rewrite Z.lor_spec, ?H5, ?H0, orb_false_r. Qed.

Lemma lsr_same_clear l m :
  Z.testbit m 5 = false -> Z.testbit m 0 = false -> lsr_same l (l .&~ m).
Proof. intros H5 H0. apply lsr_same_bits; by rewrite Z.ldiff_spec, ?H5, ?H0, andb_true_r. Qed.

Lemma charBits_frame u c :
  exists l, socUartPrvRecalcCharBits u c = { u with LSR := l } /\ lsr_same u.(LSR) l.
Proof.
  unfold socUartPrvRecalcCharBits. cbn zeta.
  destruct (tst c UART_CHAR_BREAK), (tst c UART_CHAR_FRAME_ERR), (tst c UART_CHAR_PAR_ERR); destruct u;
    eexists; (split; [reflexivity|]); cbn;
    repeat (etrans; [|apply lsr_same_lor; reflexivity]); reflexivity.
Qed.

(** The FIFO scan of the code looks at the waiting characters. *)
Lemma fifo_errs f (b : bool) :
  fifo_wf f ->
  existsb (fun v => nz (socUartPrvFifoPeekNth f v .>> 8) && b)
    (Z.of_nat <$> seq 0 (Z.to_nat (socUartPrvFifoUsed f))) =
  b && existsb (fun c => nz (c .>> 8)) (contents f).
Proof.
  intros Hf. pose proof (contents_length f Hf) as Hl. rewrite <- Hl, Nat2Z.id.
  apply eq_true_iff_eq. rewrite andb_true_iff, !existsb_exists. split.
  - intros (v & Hv & Hc). apply andb_true_iff in Hc as [Hc ->]. split; [done|].
    apply list_elem_of_In, list_elem_of_fmap in Hv as (k & -> & Hk). apply elem_of_seq in Hk.
    destruct (peek_spec f (Z.of_nat k) Hf) as [_ Hp]; [lia|]. specialize (Hp ltac:(lia)).
    eexists. split; [|exact Hc]. apply list_elem_of_In. by eapply list_elem_of_lookup_2.
  - intros (-> & c & Hin & Hc). apply list_elem_of_In, list_elem_of_lookup in Hin as (k & Hk).
    pose proof (lookup_lt_Some _ _ _ Hk) as Hlt.
    exists (Z.of_nat k). split; [apply list_elem_of_In, list_elem_of_fmap; exists k; rewrite elem_of_seq; split; [done|lia]|].
    destruct (peek_spec f (Z.of_nat k) Hf) as [_ Hp]; [lia|]. specialize (Hp ltac:(lia)).
    rewrite Nat2Z.id, Hk in Hp. injection Hp as <-. by rewrite Hc.
Qed.

Definition orCause (c : option Z) (i : Z) : Z := match c with Some x => i .| x | None => i end.

Definition fifoCause u : option Z :=
  let q := contents u.(RX) in
  let ravie := tst u.(IER) UART_IER_RAVIE in
  if tst u.(IER) UART_IER_RLSE && existsb (fun c => nz (c .>> 8)) q then Some UART_IIR_RECV_ERR
  else if ravie && fifoTrigger u.(FCR) (Z.of_nat (length q)) then Some UART_IIR_RECV_DATA
  else if ravie && negb (Nat.eqb (length q) 0) && (4 <=? u.(cyclesSinceRecv)) then Some UART_IIR_RCV_TIMEOUT
  else None.

Definition polledCause u : option Z :=
  if tst u.(LSR) UART_LSR_DR && tst u.(IER) UART_IER_RLSE && nz (u.(receiveHolding) .>> 8)
  then Some UART_IIR_RECV_ERR
  else if tst u.(LSR) UART_LSR_DR && tst u.(IER) UART_IER_RAVIE then Some UART_IIR_RECV_DATA
  else None.

Lemma recalcFifo_spec u :
  fifo_wf u.(RX) ->
  exists l, recalcFifo u =
    ({ u with LSR := l; IIR ::= orCause (fifoCause u) }, bool_decide (is_Some (fifoCause u))) /\
    lsr_same u.(LSR) l.
Proof.
  intros Hf. unfold recalcFifo, fifoCause. cbn zeta. rewrite fifo_errs by done.
  assert (forall q : list Z, nz (Z.of_nat (length q)) = negb (Nat.eqb (length q) 0)) as Enz by (by intros []).
  pose proof (contents_length _ Hf) as Hlen.
  assert (forall (u1 : SocUart W) v c, exists l,
    (if nz v then socUartPrvRecalcCharBits u1 c else u1) = { u1 with LSR := l } /\ lsr_same u1.(LSR) l)
    as Hbits.
  { intros u1 v c. destruct (nz _); [apply charBits_frame|]. exists u1.(LSR). by destruct u1. }
  destruct (tst u.(IER) UART_IER_RLSE && existsb _ _) eqn:Ee.
  - set (u1 := setCause _ UART_IIR_RECV_ERR).
    destruct (Hbits u1 (socUartPrvFifoUsed u1.(RX)) (socUartPrvFifoPeek u1.(RX))) as (l & -> & Hl).
    cbn [negb]. rewrite !andb_false_r. exists l. subst u1. split; [by destruct u|].
    etrans; [|exact Hl]. destruct u. cbn. by apply lsr_same_lor.
  - destruct (Hbits u (socUartPrvFifoUsed u.(RX)) (socUartPrvFifoPeek u.(RX))) as (l & -> & Hl).
    exists l. split; [|done]. clear Hl Hbits. destruct u. cbn in *. rewrite !andb_true_r, <- Hlen.
    destruct (tst IER0 UART_IER_RAVIE) eqn:Er, (fifoTrigger _ _); cbn;
      rewrite ?Er, ?andb_false_r; cbn; try done.
    rewrite <- Hlen, Enz, !andb_true_r. by destruct (negb _ && _).
Qed.

Lemma recalcPolled_spec u :
  exists l, recalcPolled u =
    ({ u with LSR := l; IIR ::= orCause (polledCause u) }, bool_decide (is_Some (polledCause u))) /\
    lsr_same u.(LSR) l.
Proof.
  unfold recalcPolled, polledCause. cbn zeta. destruct (tst u.(LSR) UART_LSR_DR) eqn:Ed; cbn [andb].
  - destruct (charBits_frame u u.(receiveHolding)) as (l & El & Hl). rewrite El. exists l. split; [|done].
    clear El Hl. destruct u. cbn. destruct (nz _), (tst IER0 UART_IER_RLSE), (tst IER0 UART_IER_RAVIE); done.
  - exists u.(LSR). split; [by destruct u|done].
Qed.

(** After every recomputation the interrupt identification register shows
    the first interrupt in the priority order that is enabled and present, or
    none, and the interrupt line is up exactly when there is one and the modem
    control register lets it out. *)
Theorem uart_irq_exact u (Hf : fifo_wf u.(RX)) :
  (socUartPrvRecalc u).(IIR) = (u.(IIR) .& UART_IIR_FIFOES) .| default UART_IIR_NOINT (uartCause u) /\
  (socUartPrvRecalc u).(ic) =
    irq_int u.(ic) u.(irq) (negb (tst u.(MCR) UART_MCR_LOOP) && tst u.(MCR) UART_MCR_OUT2
                            && bool_decide (is_Some (uartCause u))).
Proof.
  set (l0 := (u.(LSR) .&~ UART_LSR_FIFOE) .&~ (UART_LSR_BI .| UART_LSR_FE .| UART_LSR_PE)).
  assert (lsr_same u.(LSR) l0) as H0 by (etrans; apply lsr_same_clear; reflexivity).
  unfold socUartPrvRecalc. cbn zeta.
  set (u3 := { _ with LSR ::= fun l => l .&~ (UART_LSR_BI .| UART_LSR_FE .| UART_LSR_PE) }).
  assert (u3 = { u with LSR := l0; IIR ::= fun i => i .& UART_IIR_FIFOES }) as E3 by (by destruct u).
  clearbody u3.
  assert (exists l c, (if tst u3.(FCR) UART_FCR_TRFIFOE then recalcFifo u3 else recalcPolled u3) =
    ({ u3 with LSR := l; IIR ::= orCause c }, bool_decide (is_Some c)) /\ lsr_same l0 l /\
    c = if tst u.(FCR) UART_FCR_TRFIFOE then fifoCause u else polledCause u) as (l & c & Er & Hl & Hc).
  { assert (u3.(LSR) = l0) as El by (rewrite E3; by destruct u).
    replace u3.(FCR) with u.(FCR) by (rewrite E3; by destruct u). destruct (tst u.(FCR) _).
    - destruct (recalcFifo_spec u3) as (l & Er & Hl); [rewrite E3; by destruct u|].
      rewrite El in Hl. exists l, (fifoCause u3). split; [done|]. split; [done|]. rewrite E3. by destruct u.
    - destruct (recalcPolled_spec u3) as (l & Er & Hl). rewrite El in Hl.
      exists l, (polledCause u3). split; [done|]. split; [done|]. unfold polledCause.
      destruct H0 as [_ H0]. rewrite El, H0. rewrite E3. by destruct u. }
  rewrite Er. clear Er. rewrite E3. clear E3. assert (tst l UART_LSR_TDRQ = tst u.(LSR) UART_LSR_TDRQ) as Et.
  { destruct Hl as [-> _]. apply H0. }
  assert (uartCause u = match c with Some x => Some x | None =>
    if tst u.(IER) UART_IER_TIE && tst u.(LSR) UART_LSR_TDRQ then Some UART_IIR_SEND_DATA else None end) as ->.
  { rewrite Hc. unfold uartCause, fifoCause, polledCause. cbn zeta. repeat case_match; congruence. }
  clear Hc Hl H0 Hf. destruct u. cbn in *. rewrite Et.
  destruct c as [x|].
  - change (bool_decide (is_Some (Some x))) with true. cbn. by rewrite andb_false_r.
  - change (bool_decide (is_Some None)) with false. cbn. rewrite andb_true_r.
    by destruct (tst LSR0 _), (tst IER0 UART_IER_TIE).
Qed.

(** In polled mode every received character is lost: the data-ready bit is
    set before it is tested, so the port reports an overrun and keeps the old
    contents of the holding register. *)
Theorem uart_polled_receive_overruns u f c w'
    (Hmode : tst u.(FCR) UART_FCR_TRFIFOE = false) (Hread : u.(readF) = Some f)
    (Hchar : f u.(ic) = (c, w')) (Hc : u16 c <> UART_CHAR_NONE) :
  (processReceive u).(receiveHolding) = u.(receiveHolding) /\
  tst (processReceive u).(LSR) UART_LSR_OE = true.
Proof.
  unfold processReceive, socUartPrvGetchar. rewrite Hread, Hchar. apply Z.eqb_neq in Hc. rewrite Hc.
  destruct u. cbn in *. rewrite Hmode.
  assert (tst (LSR0 .| UART_LSR_DR) UART_LSR_DR = true) as ->
    by (apply tst_exists; exists 0; by rewrite Z.lor_spec, orb_true_r).
  cbn. split; [done|]. apply tst_exists. exists 1. by rewrite Z.lor_spec, orb_true_r.
Qed.
End Interrupts.

(** ** A concrete port: the FFUART, with its output collected *)

Record UartWorld := mkUartWorld { uw_irqs : lines; uw_out : list Z; uw_in : list Z }.

#[export, program] Instance uart_world_irq : IrqSink UartWorld := {|
  irq_int w n b := { w with uw_irqs ::= fun l => irq_int l n b };
  irq_pending w n := irq_pending w.(uw_irqs) n
|}.
Next Obligation. by destruct w. Qed.

#[export, program] Instance uart_world_resched : ReschedSink UartWorld := {| reschedule w _ := w |}.
Next Obligation. done. Qed.

Lemma uw_out_irq (w : UartWorld) n b : uw_out (irq_int w n b) = uw_out w.
Proof. by destruct w. Qed.

Lemma uw_out_resched (w : UartWorld) t : uw_out (reschedule w t) = uw_out w.
Proof. done. Qed.

Definition world_write (w : UartWorld) (c : Z) : UartWorld := { w with uw_out ::= fun o => o ++ [c] }.
Definition world_read (w : UartWorld) : Z * UartWorld :=
  match w.(uw_in) with
  | [] => (UART_CHAR_NONE, w)
  | c :: rest => (c, { w with uw_in := rest })
  end.

Definition demo_port : SocUart UartWorld :=
  writeFCR (socUartSetFuncs (socUartInit (mkUartWorld idle [] [0x55]) 0x40100000 PXA_I_FFUART)
    (Some world_read) (Some world_write)) 1.

Lemma demo_port_ready : tx_ready uw_out demo_port.
Proof.
  split; [done|done| |done|].
  - split; [done| |by left]. apply Forall_replicate. is_u_lit.
  - split; [exists world_write; split; [done|by intros []]|].
    intros f w [= <-]. unfold world_read. destruct w as [i o [|c r]]; done.
Qed.

Definition demo_send (u : SocUart UartWorld) (v : Z) : SocUart UartWorld :=
  socUartPrvRecalc (socUartPrvSendChar u v).

Lemma uart_tx_in_order_witness :
  let u := socUartProcess (demo_send (demo_send demo_port 0x41) 0x42) in
  uw_out u.(ic) = [0x41] /\ txq u = [0x42] /\ uw_out (socUartProcess u).(ic) = [0x41; 0x42].
Proof.
  destruct (uart_tx_in_order uw_out uw_out_irq uw_out_resched demo_port [0x41; 0x42]
    (socUartProcess (demo_send (demo_send demo_port 0x41) 0x42)) demo_port_ready) as (_ & _ & Ho & _).
  - apply trace_tick. apply (trace_send demo_port [0x41] (demo_send demo_port 0x41) _ 0x42).
    + apply (trace_send demo_port [] demo_port _ 0x41); [apply trace_refl|is_u_lit|vm_compute; reflexivity].
    + is_u_lit.
    + vm_compute. reflexivity.
  - split; [vm_compute; reflexivity|]. split; [vm_compute; reflexivity|].
    rewrite Ho. vm_compute. reflexivity.
Defined.

Lemma uart_irq_exact_witness :
  let u := { { demo_port with IER := 0x42 } with MCR := 0x08 } in
  (socUartPrvRecalc u).(IIR) = 0xC2 /\ irq_pending (socUartPrvRecalc u).(ic) PXA_I_FFUART = true.
Proof.
  intros u. destruct (uart_irq_exact u) as [Ei El].
  - exact fifoInit_wf.
  - split; [rewrite Ei; reflexivity|rewrite El; reflexivity].
Defined.

Lemma uart_polled_receive_overruns_witness :
  let u := { demo_port with FCR := 0 } in
  (processReceive u).(receiveHolding) = u.(receiveHolding) /\ tst (processReceive u).(LSR) UART_LSR_OE = true.
Proof.
  apply (uart_polled_receive_overruns { demo_port with FCR := 0 } world_read 0x55
    (mkUartWorld idle [] [])); try reflexivity. discriminate.
Defined.
