(* ===== verification/Nand.v ===== *)
(** * The NAND flash (nand.c, mmiodev_DirectNAND.c)

    A chip driven by command, address and data cycles: pages are programmed
    (bits can only be cleared) and read through a page buffer, blocks are
    erased. Pages the storage must write back are recorded in a bitmap of
    storage pages of 4224 bytes. *)

From S2P Require Import Prelude Bytes Interfaces.

Inductive K9nandState :=
| K9nandStateReset
| K9nandStateReadId
| K9nandStateProgramAddrRxing
| K9nandStateProgramDataRxing
| K9nandStateEraseAddrRxing
| K9nandStateReading
| K9nandStateStatusReading.

Inductive K9nandArea := K9nandAreaA | K9nandAreaB | K9nandAreaC.

#[export] Instance nand_state_eq : EqDecision K9nandState.
Proof. solve_decision. Defined.
#[export] Instance nand_area_eq : EqDecision K9nandArea.
Proof. solve_decision. Defined.

Definition NAND_FLAG_SAMSUNG_ADDRESSED_VIA_AREAS := 1.
Definition NAND_HAS_SECOND_READ_CMD := 2.

Record NandSpecs := mkNandSpecs {
  spec_bytesPerPage : Z;
  spec_blocksPerDevice : Z;
  spec_pagesPerBlockLg2 : Z;
  spec_flags : Z;
  spec_devIdLen : Z;
  spec_devId : list Z
}.

Record NAND (W : Type) := mkNAND {
  world : W;                                   (* reschedule and what the callbacks act on *)
  readyCbk : list (option (W -> bool -> outcome W));  (* [2] *)
  bytesPerPage : Z;                            (* uint32_t *)
  blocksPerDevice : Z;                         (* uint32_t *)
  areaSize : Z;                                (* uint16_t *)
  pagesPerBlockLg2 : Z;                        (* uint8_t *)
  deviceId : list Z;                           (* uint8_t[6] *)
  deviceIdLen : Z;
  byteAddrBytes : Z;
  pageAddrBytes : Z;
  flags : Z;
  state : K9nandState;
  area : K9nandArea;
  addrBytesRxed : Z;                           (* uint8_t *)
  addrBytes : list Z;                          (* uint8_t[8] *)
  pageNo : Z;                                  (* uint32_t *)
  pageOfst : Z;                                (* uint32_t *)
  busyCt : Z;                                  (* uint32_t *)
  pageBuf : list Z;                            (* bytesPerPage bytes *)
  data : list Z;                               (* the contents, as bytes *)
  dirtyPages : list Z;                         (* uint32_t words *)
  dirty : bool
}.
Arguments mkNAND {W}.
Arguments world {W}. Arguments readyCbk {W}. Arguments bytesPerPage {W}. Arguments blocksPerDevice {W}.
Arguments areaSize {W}. Arguments pagesPerBlockLg2 {W}. Arguments deviceId {W}. Arguments deviceIdLen {W}.
Arguments byteAddrBytes {W}. Arguments pageAddrBytes {W}. Arguments flags {W}. Arguments state {W}.
Arguments area {W}. Arguments addrBytesRxed {W}. Arguments addrBytes {W}. Arguments pageNo {W}.
Arguments pageOfst {W}. Arguments busyCt {W}. Arguments pageBuf {W}. Arguments data {W}.
Arguments dirtyPages {W}. Arguments dirty {W}.

(** The size of a storage page of the dirty bitmap. *)
Definition STORAGE_PAGE := 4224.

Section Operations.
Context {W : Type} `{!IrqSink W} `{!ReschedSink W}.
Implicit Types nand : NAND W.

Definition nandSecondReadyCbkSet nand (f : option (W -> bool -> outcome W)) : NAND W :=
  { nand with readyCbk ::= fun l => <[1%nat := f]> l }.

Definition nandPrvCallReadyCbks nand (ready : bool) : outcome (NAND W) :=
  forM nand.(readyCbk) (fun nand f =>
    match f with
    | Some f => w ← f nand.(world) ready; Ret { nand with world := w }
    | None => Ret nand
    end) nand.

Definition nandPrvBusy nand (count : Z) : outcome (NAND W) :=
  if nz nand.(busyCt) then Abort (* "NAND was already busy" *) else
  let nand := { nand with busyCt := count } in
  nand ← nandPrvCallReadyCbks nand false;
  Ret { nand with world ::= fun w => reschedule w RESCHEDULE_TASK_NAND }.

Definition nandPrvGetAddrValLE nand (startByte numBytes : Z) : Z :=
  fold_left (fun ret i => u32 (u32 (ret .<< 8) + nand.(addrBytes).[startByte + numBytes - 1 - i]))
    (Z.of_nat <$> seq 0 (Z.to_nat numBytes)) 0.

Definition nandPrvGetPageAddr nand (addrOfst : Z) : Z :=
  nandPrvGetAddrValLE nand addrOfst nand.(pageAddrBytes).

Definition nandPrvGetByteAddr nand : Z := nandPrvGetAddrValLE nand 0 nand.(byteAddrBytes).

(** [dirtyPages[p >> 5] |= 1u << (p & 0x1f)] *)
Definition markStorage nand (p : Z) : outcome (NAND W) :=
  if (p .>> 5) <? Z.of_nat (length nand.(dirtyPages)) then
    Ret { nand with dirtyPages ::= fun d => d.[p .>> 5 <- d.[p .>> 5] .| (1 .<< (p .& 0x1f))] }
  else Undef.

(** The result [false] is the C one: the address is not that of a block. *)
Definition nandPrvBlockErase nand : outcome (bool * NAND W) :=
  let addr := nandPrvGetPageAddr nand 0 in
  if nz (addr .& ((1 .<< nand.(pagesPerBlockLg2)) - 1)) then Ret (false, nand) else
  let start := u32 (addr * nand.(bytesPerPage)) in
  let n := u32 (nand.(bytesPerPage) .<< nand.(pagesPerBlockLg2)) in
  if negb (in_object nand.(data) start n) then Undef else
  let nand := { nand with data ::= fun d => poke d start (replicate (Z.to_nat n) 0xff) } in
  let first := start / STORAGE_PAGE in
  let last := u32 (start + n) / STORAGE_PAGE in
  nand ← forM ((fun k => first + Z.of_nat k) <$> seq 0 (Z.to_nat (last - first + 1)))
           markStorage nand;
  Ret (true, { nand with dirty := true }).

Definition nandPrvPageProgram nand : outcome (NAND W) :=
  let start := u32 (nand.(pageNo) * nand.(bytesPerPage)) in
  if negb (in_object nand.(data) start nand.(bytesPerPage)) then Undef else
  let nand := { nand with data ::= fun d =>
    poke d start (zip_with Z.land (peek d start nand.(bytesPerPage)) nand.(pageBuf)) } in
  nand ← markStorage nand (start / STORAGE_PAGE);
  Ret { nand with dirty := true }.

Definition nandPrvAcceptProgramData nand (val : Z) : NAND W :=
  if nand.(bytesPerPage) <=? nand.(pageOfst) then nand else
  { nand with pageBuf ::= fun b => b.[nand.(pageOfst) <- val]; pageOfst ::= fun o => u32 (o + 1) }.

(** States in which a chip takes a new command. *)
Definition acceptsCommand (s : K9nandState) : bool :=
  match s with
  | K9nandStateReset | K9nandStateReading | K9nandStateReadId | K9nandStateStatusReading => true
  | _ => false
  end.

Definition enter nand (s : K9nandState) : NAND W := { nand with state := s; addrBytesRxed := 0 }.

Definition leaveAreaB nand : NAND W :=
  if decide (nand.(area) = K9nandAreaB) then { nand with area := K9nandAreaA } else nand.

Definition addrLen nand : Z := nand.(byteAddrBytes) + nand.(pageAddrBytes).

(** Command 0xd0. *)
Definition confirmErase nand : outcome (bool * NAND W) :=
  let nand := leaveAreaB nand in
  if negb (bool_decide (nand.(state) = K9nandStateEraseAddrRxing)) || negb (nand.(addrBytesRxed) =? 2)
  then Ret (false, nand) else
  '(ok, nand) ← nandPrvBlockErase nand;
  if negb ok then Ret (false, nand) else
  nand ← nandPrvBusy nand 100;
  Ret (true, enter nand K9nandStateReset).

(** Command 0x10. *)
Definition confirmProgram nand : outcome (bool * NAND W) :=
  let nand := leaveAreaB nand in
  if negb (bool_decide (nand.(state) = K9nandStateProgramDataRxing)) then Ret (false, nand) else
  nand ← nandPrvPageProgram nand;
  nand ← nandPrvBusy nand 10;
  Ret (true, enter nand K9nandStateReset).

Definition nandCommand nand (val : Z) : outcome (bool * NAND W) :=
  let viaAreas := tst nand.(flags) NAND_FLAG_SAMSUNG_ADDRESSED_VIA_AREAS in
  let fail : outcome (bool * NAND W) := Ret (false, nand) in
  match val with
  | 0x00 => Ret (true, enter { nand with area := K9nandAreaA } K9nandStateReading)
  | 0x01 => if viaAreas then Ret (true, enter { nand with area := K9nandAreaB } K9nandStateReading)
            else fail
  | 0x30 => if tst nand.(flags) NAND_HAS_SECOND_READ_CMD && (nand.(addrBytesRxed) =? addrLen nand)
            then Ret (true, { nand with addrBytesRxed := 0xfe }) else fail
  | 0x50 => if viaAreas then Ret (true, enter { nand with area := K9nandAreaC } K9nandStateReading)
            else fail
  | 0x60 => if negb (acceptsCommand nand.(state)) then fail
            else Ret (true, enter nand K9nandStateEraseAddrRxing)
  | 0xd0 => confirmErase nand
  | 0x80 => if negb (acceptsCommand nand.(state)) then fail
            else Ret (true, enter nand K9nandStateProgramAddrRxing)
  | 0x10 => confirmProgram nand
  | 0x90 => if negb (acceptsCommand nand.(state)) then fail
            else Ret (true, enter nand K9nandStateReadId)
  | 0x70 => Ret (true, enter nand K9nandStateStatusReading)
  | 0xff => Ret (true, enter { nand with area := K9nandAreaA } K9nandStateReset)
  | _ => Hang (* "unknown command ... halt" *)
  end.

Definition pushAddr nand (val : Z) : NAND W :=
  { nand with addrBytes ::= fun a => a.[nand.(addrBytesRxed) <- val];
              addrBytesRxed ::= fun n => u8 (n + 1) }.

Definition nandAddress nand (val : Z) : outcome (bool * NAND W) :=
  let rxed := nand.(addrBytesRxed) in
  let accept nand : outcome (bool * NAND W) := Ret (true, pushAddr nand val) in
  match nand.(state) with
  | K9nandStateReadId => if 1 <=? rxed then Ret (false, nand) else accept nand
  | K9nandStateProgramAddrRxing => if addrLen nand <=? rxed then Ret (true, nand) else accept nand
  | K9nandStateEraseAddrRxing => if nand.(pageAddrBytes) <=? rxed then Ret (true, nand) else accept nand
  | K9nandStateReading =>
      if addrLen nand <=? rxed then Ret (true, nand) else
      nand ← (if rxed =? addrLen nand - 1 then nandPrvBusy nand 1 else Ret nand);
      accept nand
  | _ => Ret (false, nand)
  end.

(** The start of the area the next access is to; area B is for one access. *)
Definition areaStart nand : Z :=
  match nand.(area) with
  | K9nandAreaA => 0
  | K9nandAreaB => nand.(areaSize)
  | K9nandAreaC => 2 * nand.(areaSize)
  end.

Definition pagesOf nand : Z := u32 (nand.(blocksPerDevice) .<< nand.(pagesPerBlockLg2)).

Definition nandDataIn nand (val : Z) : outcome (bool * NAND W) :=
  match nand.(state) with
  | K9nandStateProgramAddrRxing =>
      if negb (nand.(addrBytesRxed) =? addrLen nand) then Ret (false, nand) else
      let nand := { nand with state := K9nandStateProgramDataRxing;
                              pageNo := nandPrvGetPageAddr nand nand.(byteAddrBytes) } in
      if pagesOf nand <=? nand.(pageNo) then Ret (false, nand) else
      let nand := { nand with pageBuf := replicate (Z.to_nat nand.(bytesPerPage)) 0xff } in
      let nand := leaveAreaB { nand with pageOfst := areaStart nand } in
      let nand := { nand with pageOfst ::= fun o => u32 (o + nandPrvGetByteAddr nand) } in
      Ret (true, nandPrvAcceptProgramData nand val)
  | K9nandStateProgramDataRxing => Ret (true, nandPrvAcceptProgramData nand val)
  | _ => Ret (false, nand)
  end.

Definition nandWrite nand (cle ale : bool) (val : Z) : outcome (bool * NAND W) :=
  if cle && negb ale then nandCommand nand val
  else if negb cle && ale then nandAddress nand val
  else if negb cle && negb ale then nandDataIn nand val
  else Ret (false, nand).

(** [memcpy(pageBuf, &data[pageNo * bytesPerPage], bytesPerPage)] *)
Definition loadPage nand : outcome (NAND W) :=
  let start := u32 (nand.(pageNo) * nand.(bytesPerPage)) in
  if in_object nand.(data) start nand.(bytesPerPage)
  then Ret { nand with pageBuf := peek nand.(data) start nand.(bytesPerPage) }
  else Undef.

(** The page access of the first read after the address; [None]: it fails. *)
Definition startReading nand : outcome (option (NAND W)) :=
  let nand := { nand with pageNo := nandPrvGetPageAddr nand nand.(byteAddrBytes);
                          addrBytesRxed := 0xff } in
  if pagesOf nand <=? nand.(pageNo) then Ret None else
  nand ← loadPage nand;
  let nand := leaveAreaB { nand with pageOfst := areaStart nand } in
  Ret (Some { nand with pageOfst ::= fun o => u32 (o + nandPrvGetByteAddr nand) }).

Definition nextByte nand : outcome (bool * Z * NAND W) :=
  nand ← (if nand.(pageOfst) =? nand.(bytesPerPage) then
            loadPage { nand with pageNo ::= fun p => u32 (p + 1);
                       pageOfst := if decide (nand.(area) = K9nandAreaC) then 2 * nand.(areaSize) else 0 }
          else Ret nand);
  if nand.(pageOfst) <? Z.of_nat (length nand.(pageBuf)) then
    Ret (true, nand.(pageBuf).[nand.(pageOfst)], { nand with pageOfst ::= fun o => u32 (o + 1) })
  else Undef.

(** A failing access leaves [*valP]; it is returned as [0]. *)
Definition nandRead nand (cle ale : bool) : outcome (bool * Z * NAND W) :=
  if cle || ale then Ret (false, 0, nand) else
  match nand.(state) with
  | K9nandStateReadId =>
      if negb (nand.(addrBytesRxed) =? 1) then Ret (false, 0, nand) else
      let i := nand.(addrBytes).[0] in
      if nand.(deviceIdLen) <=? i then Ret (false, 0, nand) else
      Ret (true, nand.(deviceId).[i], { nand with addrBytes ::= fun a => a.[0 <- u8 (i + 1)] })
  | K9nandStateStatusReading => Ret (true, if nz nand.(busyCt) then 0x00 else 0x40, nand)
  | K9nandStateReading =>
      let nand := if negb (tst nand.(flags) NAND_HAS_SECOND_READ_CMD) && (nand.(addrBytesRxed) =? addrLen nand)
                  then { nand with addrBytesRxed := 0xfe } else nand in
      if nand.(addrBytesRxed) =? 0xfe then
        r ← startReading nand;
        match r with
        | None => Ret (false, 0, { nand with pageNo := nandPrvGetPageAddr nand nand.(byteAddrBytes);
                                             addrBytesRxed := 0xff })
        | Some nand => nextByte nand
        end
      else if negb (nand.(addrBytesRxed) =? 0xff) then Ret (false, 0, nand)
      else nextByte nand
  | _ => Ret (false, 0, nand)
  end.

Definition nandPeriodic nand : outcome (NAND W) :=
  if nz nand.(busyCt) then
    let nand := { nand with busyCt ::= Z.pred } in
    if nz nand.(busyCt) then Ret nand else nandPrvCallReadyCbks nand true
  else Ret nand.

Definition nandTaskRequired nand : bool := 0 <? nand.(busyCt).
Definition nandIsReady nand : bool := negb (nz nand.(busyCt)).
Definition nandIsDirty nand : bool := nand.(dirty).
Definition nandSetDirty nand (isDirty : bool) : NAND W := { nand with dirty := isDirty }.
Definition nandGetData nand : list Z := nand.(data).
Definition nandGetDirtyPages nand : list Z := nand.(dirtyPages).

(** Without content the C function clears a null pointer. [Ret None]: the
    content has the wrong size. *)
Definition nandInit (w : W) (nandContent : option (list Z)) (specs : NandSpecs)
    (f : option (W -> bool -> outcome W)) : outcome (option (NAND W)) :=
  let bpp := specs.(spec_bytesPerPage) in
  if nz (bpp mod 528) then Abort (* "invalid NAND page size" *) else
  if nz (u32 (u32 (bpp .<< specs.(spec_pagesPerBlockLg2)) * specs.(spec_blocksPerDevice)) mod 4224)
  then Abort (* "invalid NAND size" *) else
  if 6 <? specs.(spec_devIdLen) then Abort (* "Device ID too long" *) else
  let nandPages := u32 (specs.(spec_blocksPerDevice) .<< specs.(spec_pagesPerBlockLg2)) in
  let nandSz := u32 (bpp * nandPages) in
  let t := Z.log2 (bpp - 1) in
  let t := if tst specs.(spec_flags) NAND_FLAG_SAMSUNG_ADDRESSED_VIA_AREAS then t - 1 else t in
  match nandContent with
  | None => Undef
  | Some content =>
      if negb (Z.of_nat (length content) =? nandSz) then Ret None else
      let words := nandSz / (528 * 8 * 32) in
      let words := if words * 528 * 8 * 32 <? nandSz then words + 1 else words in
      let nand := mkNAND w [f; None] bpp specs.(spec_blocksPerDevice) (u16 (1 .<< t))
        specs.(spec_pagesPerBlockLg2)
        (take (Z.to_nat specs.(spec_devIdLen)) specs.(spec_devId)
           ++ replicate (6 - Z.to_nat specs.(spec_devIdLen)) 0)
        specs.(spec_devIdLen) (u8 ((t + 7) / 8)) (u8 ((Z.log2 (nandPages - 1) + 7) / 8))
        specs.(spec_flags) K9nandStateReset K9nandAreaA 0 (replicate 8 0) 0 0 0
        (replicate (Z.to_nat bpp) 0) content (replicate (Z.to_nat words) 0) false in
      nand ← nandPrvBusy nand 1;
      Ret (Some nand)
  end.

End Operations.

(** ** Which storage pages are marked *)

Definition storageBit (d : list Z) (p : Z) : bool := Z.testbit d.[p .>> 5] (p .& 0x1f).

Lemma storageBit_mark d p q :
  0 <= p -> 0 <= q -> (p .>> 5) < Z.of_nat (length d) ->
  storageBit (d.[p .>> 5 <- d.[p .>> 5] .| (1 .<< (p .& 0x1f))]) q = (p =? q) || storageBit d q.
Proof.
  intros Hp Hq Hl. unfold storageBit. change 0x1f with (2 ^ 5 - 1). rewrite !land_low, !shiftr_div in * by done.
  by apply bitmap_mark.
Qed.

Section Storage.
Context {W : Type} `{!IrqSink W} `{!ReschedSink W}.
Implicit Types nand : NAND W.

(** The contents are tracked from one state to another: no page loses its
    mark, and the page of every byte that changed is marked. *)
Record tracked nand nand' : Prop := {
  trk_len : length nand'.(data) = length nand.(data);
  trk_words : length nand'.(dirtyPages) = length nand.(dirtyPages);
  trk_bits p : 0 <= p -> storageBit nand.(dirtyPages) p = true -> storageBit nand'.(dirtyPages) p = true;
  trk_dirty : nand.(dirty) = true -> nand'.(dirty) = true;
  trk_bytes i : 0 <= i < Z.of_nat (length nand.(data)) -> nand'.(data).[i] <> nand.(data).[i] ->
    nand'.(dirty) = true /\ storageBit nand'.(dirtyPages) (i / STORAGE_PAGE) = true
}.

#[export] Instance tracked_preorder : PreOrder tracked.
Proof.
  split; [by split|]. intros a b c [A1 A2 A3 A4 A5] [B1 B2 B3 B4 B5]. split.
  - congruence.
  - congruence.
  - auto.
  - auto.
  - intros i Hi Hne. destruct (decide (b.(data).[i] = a.(data).[i])) as [E|Hne'].
    + apply B5; [by rewrite A1|congruence].
    + destruct (A5 i Hi Hne') as [H1 H2]. split; [auto|].
      apply B3; [apply Z.div_pos; [lia|done]|done].
Qed.

(** What only concerns contents and marks. *)
Definition storage nand := (nand.(data), nand.(dirtyPages), nand.(dirty)).

Lemma tracked_storage nand nand' : storage nand' = storage nand -> tracked nand nand'.
Proof. unfold storage. intros [= E1 E2 E3]. split; by rewrite ?E1, ?E2, ?E3. Qed.

(** The geometry never changes. *)
Definition geometry nand :=
  (nand.(readyCbk), nand.(bytesPerPage), nand.(blocksPerDevice), nand.(areaSize),
   nand.(pagesPerBlockLg2), nand.(deviceId), nand.(deviceIdLen), nand.(byteAddrBytes),
   nand.(pageAddrBytes), nand.(flags)).

Lemma callReadyCbks_world nand ready nand' :
  nandPrvCallReadyCbks nand ready = Ret nand' -> exists w, nand' = { nand with world := w }.
Proof.
  intros H. refine (forM_inv (fun x => exists w, x = { nand with world := w }) _ _ _ _ _ _ H).
  - intros s f s' [w ->] _ E. destruct f as [f|]; [|injection E as <-; by exists w].
    destruct (f _ ready) as [w'| | |]; [|done..]. injection E as <-. exists w'. by destruct nand.
  - exists nand.(world). by destruct nand.
Qed.

Lemma busy_world nand n nand' :
  nandPrvBusy nand n = Ret nand' -> nand.(busyCt) = 0 /\ exists w, nand' = { nand with world := w; busyCt := n }.
Proof.
  unfold nandPrvBusy. destruct (nz nand.(busyCt)) eqn:Eb; [done|]. intros H.
  split; [apply negb_false_iff in Eb; by apply Z.eqb_eq|].
  destruct (nandPrvCallReadyCbks _ false) as [x| | |] eqn:E; [|done..].
  apply callReadyCbks_world in E as [w ->]. injection H as <-. eexists. by destruct nand.
Qed.

Lemma markStorage_spec nand p nand' :
  0 <= p -> markStorage nand p = Ret nand' ->
  nand' = { nand with dirtyPages := nand'.(dirtyPages) } /\
  length nand'.(dirtyPages) = length nand.(dirtyPages) /\
  forall q, 0 <= q -> storageBit nand'.(dirtyPages) q = (p =? q) || storageBit nand.(dirtyPages) q.
Proof.
  intros Hp. unfold markStorage. destruct (Z.ltb_spec (p .>> 5) (Z.of_nat (length nand.(dirtyPages)))); [|done].
  intros [= <-]. destruct nand. cbn in *. split; [done|]. split; [apply length_aset|].
  intros q Hq. by apply storageBit_mark.
Qed.

Lemma markRange_spec l : forall nand nand',
  Forall (fun p => 0 <= p) l -> forM l markStorage nand = Ret nand' ->
  nand' = { nand with dirtyPages := nand'.(dirtyPages) } /\
  length nand'.(dirtyPages) = length nand.(dirtyPages) /\
  forall q, 0 <= q -> storageBit nand'.(dirtyPages) q = bool_decide (q ∈ l) || storageBit nand.(dirtyPages) q.
Proof.
  induction l as [|p l IH]; intros nand nand' Hl.
  - intros [= <-]. split; [by destruct nand|]. split; [done|]. intros q _.
    by rewrite bool_decide_eq_false_2 by (apply not_elem_of_nil).
  - apply Forall_cons in Hl as [Hp Hl]. cbn [forM].
    destruct (markStorage nand p) as [n1| | |] eqn:E1; [|done..]. cbn [mbind outcome_bind]. intros E.
    apply markStorage_spec in E1 as (E1 & L1 & B1); [|done].
    apply IH in E as (E2 & L2 & B2); [|done].
    split; [rewrite E2, E1; by destruct nand|]. split; [congruence|].
    intros q Hq. rewrite B2, B1 by done. rewrite orb_assoc. f_equal. apply eq_true_iff_eq.
    rewrite orb_true_iff, !bool_decide_eq_true, Z.eqb_eq, elem_of_cons. split; intros [?|?]; auto.
Qed.

(** ** Well-formed chips

    The page size divides the storage page, the contents have the size of the
    device, and an address fits the bytes it is sent in. *)
Record nand_geometry nand : Prop := {
  ng_page : 0 < nand.(bytesPerPage) /\ STORAGE_PAGE mod nand.(bytesPerPage) = 0;
  ng_block : 0 <= nand.(pagesPerBlockLg2) /\ is_u 32 (nand.(bytesPerPage) .<< nand.(pagesPerBlockLg2));
  ng_size : Z.of_nat (length nand.(data)) = pagesOf nand * nand.(bytesPerPage);
  ng_addr : 0 <= nand.(byteAddrBytes) <= 4 /\ 0 <= nand.(pageAddrBytes) <= 4;
  ng_pages : pagesOf nand <= 2 ^ (8 * nand.(pageAddrBytes)) /\
             2 ^ (8 * nand.(pageAddrBytes)) * nand.(bytesPerPage) < 2 ^ 32
}.

Record nand_wf nand : Prop := {
  nw_geometry : nand_geometry nand;
  nw_addr : length nand.(addrBytes) = 8%nat /\ Forall byte_ok nand.(addrBytes);
  nw_rxed : 0 <= nand.(addrBytesRxed);
  nw_page : 0 <= nand.(pageNo) < 2 ^ (8 * nand.(pageAddrBytes))
}.

Lemma pagesOf_geometry nand nand' : geometry nand' = geometry nand -> pagesOf nand' = pagesOf nand.
Proof. unfold geometry, pagesOf. congruence. Qed.

Lemma nand_geometry_same nand nand' :
  geometry nand' = geometry nand -> length nand'.(data) = length nand.(data) ->
  nand_geometry nand -> nand_geometry nand'.
Proof.
  intros Eg El [H1 H2 H3 H4 H5]. pose proof (pagesOf_geometry _ _ Eg) as Ep.
  unfold geometry in Eg. injection Eg as E1 E2 E3 E4 E5 E6 E7 E8 E9 E10.
  split; rewrite ?E2, ?E5, ?E8, ?E9, ?El, ?Ep; done.
Qed.

Lemma fold_left_fmap {A B C} (f : A -> C -> A) (g : B -> C) (l : list B) a :
  fold_left (fun r i => f r (g i)) l a = fold_left f (g <$> l) a.
Proof. revert a. induction l as [|x l IH]; intros a; [done|]. cbn. apply IH. Qed.

(** An address of [n] bytes is their little-endian number. *)
Lemma addrVal_spec nand s n :
  length nand.(addrBytes) = 8%nat -> Forall byte_ok nand.(addrBytes) -> 0 <= s -> 0 <= n <= 4 -> s + n <= 8 ->
  nandPrvGetAddrValLE nand s n = le_combine (peek nand.(addrBytes) s n).
Proof.
  intros Hl Hb Hs Hn Hsn. unfold nandPrvGetAddrValLE. set (b := nand.(addrBytes)) in *.
  assert (in_object b s n = true) as Ho by (apply in_object_spec; lia).
  pose proof (length_peek b s n ltac:(lia) Ho) as Hlen.
  rewrite <- fold_be_combine by (auto with uarm || lia).
  rewrite (fold_left_fmap (fun r x => u32 (u32 (r .<< 8) + x)) (fun i => b.[s + n - 1 - i])).
  f_equal. rewrite peek_map by (done || lia). rewrite rev_alt. fold (reverse ((λ k : nat, b.[s + Z.of_nat k]) <$> seq 0 (Z.to_nat n))). apply list_eq. intros i.
  rewrite !list_lookup_fmap. destruct (decide (i < Z.to_nat n)%nat) as [Hi|Hi].
  - rewrite reverse_lookup by (rewrite length_fmap, length_seq; lia).
    rewrite list_lookup_fmap, length_fmap, length_seq, !lookup_seq_lt by lia. cbn. do 2 f_equal. lia.
  - rewrite !(proj2 (lookup_ge_None _ _)); try done;
      rewrite ?length_reverse, ?length_fmap, length_seq; lia.
Qed.

Lemma addrVal_bound nand s n :
  length nand.(addrBytes) = 8%nat -> Forall byte_ok nand.(addrBytes) -> 0 <= s -> 0 <= n <= 4 -> s + n <= 8 ->
  0 <= nandPrvGetAddrValLE nand s n < 2 ^ (8 * n).
Proof.
  intros Hl Hb Hs Hn Hsn. rewrite addrVal_spec by done.
  pose proof (le_combine_is_u (peek nand.(addrBytes) s n) (peek_bytes _ _ _ Hb)) as H.
  rewrite length_peek in H by (lia || by apply in_object_spec; lia).
  by rewrite Z2Nat.id in H by lia.
Qed.

(** ** Programming and erasing are tracked *)

(** Pages lie inside one storage page. *)
Lemma page_in_storage bpp p i :
  0 < bpp -> STORAGE_PAGE mod bpp = 0 -> 0 <= p -> p * bpp <= i < p * bpp + bpp ->
  i / STORAGE_PAGE = p * bpp / STORAGE_PAGE.
Proof.
  unfold STORAGE_PAGE. intros Hb Hm Hp Hi. apply Z_div_exact_full_2 in Hm; [|lia].
  set (q := 4224 / bpp) in *. assert (0 < q) by nia.
  assert (i / bpp = p) as E by (symmetry; apply Z.div_unique with (i - p * bpp); lia).
  rewrite Hm, <- !Z.div_div by lia. by rewrite E, Z.div_mul by lia.
Qed.

Lemma poke_changed d off bs i :
  0 <= i -> in_object d off (Z.of_nat (length bs)) = true -> (poke d off bs).[i] <> d.[i] ->
  off <= i < off + Z.of_nat (length bs).
Proof.
  intros Hi Ho. rewrite aget_poke by done.
  destruct (Z.leb_spec off i), (Z.ltb_spec i (off + Z.of_nat (length bs))); cbn; (done || lia).
Qed.

Lemma program_tracked nand nand' :
  nand_wf nand -> nandPrvPageProgram nand = Ret nand' ->
  tracked nand nand' /\ nand' = { nand with data := nand'.(data); dirtyPages := nand'.(dirtyPages); dirty := true }.
Proof.
  intros [[[Hb Hm] _ _ _ [Hp Hmax]] _ _ Hno]. unfold nandPrvPageProgram.
  assert (u32 (nand.(pageNo) * nand.(bytesPerPage)) = nand.(pageNo) * nand.(bytesPerPage)) as ->
    by (apply wrap_small; split; nia).
  destruct (in_object _ _ _) eqn:Ho; [|done]. cbn [negb].
  set (start := nand.(pageNo) * nand.(bytesPerPage)) in *. set (bs := zip_with Z.land (peek nand.(data) start nand.(bytesPerPage)) nand.(pageBuf)).
  set (n1 := { nand with data ::= _ }). destruct (markStorage n1 _) as [n2| | |] eqn:E; [|done..].
  cbn [mbind outcome_bind]. intros [= <-].
  apply markStorage_spec in E as (E & Hl & Hbits); [|apply Z.div_pos; [nia|done]].
  assert (n1 = { nand with data := poke nand.(data) start bs }) as E1 by (by destruct nand). clearbody n1. subst n1.
  rewrite E. clear E. destruct nand, n2. cbn in *. split; [|done]. split; cbn; try done.
  - apply length_poke.
  - intros p Hp0 Hbit. rewrite Hbits by done. by rewrite Hbit, orb_true_r.
  - intros i Hi Hne. split; [done|]. rewrite Hbits by (apply Z.div_pos; [lia|done]).
    assert (Z.of_nat (length bs) <= bytesPerPage0) as Hbs.
    { subst bs. rewrite length_zip_with. rewrite length_peek by (done || lia). lia. }
    assert (start <= i < start + Z.of_nat (length bs)) as Hr.
    { apply poke_changed with data0; [lia| |done]. apply in_object_spec in Ho. apply in_object_spec. lia. }
    rewrite (page_in_storage bytesPerPage0 pageNo0 i) by (done || lia). by rewrite Z.eqb_refl.
Qed.

Lemma erase_tracked nand ok nand' :
  nand_wf nand -> nandPrvBlockErase nand = Ret (ok, nand') ->
  tracked nand nand' /\ nand' = { nand with data := nand'.(data); dirtyPages := nand'.(dirtyPages);
                                             dirty := nand'.(dirty) }.
Proof.
  intros [[[Hb Hm] [Hk Hu] Hsz [Hba Hpa] [Hp Hmax]] [Hl8 Hby] _ Hno]. unfold nandPrvBlockErase.
  unfold nandPrvGetPageAddr.
  pose proof (addrVal_bound nand 0 nand.(pageAddrBytes) Hl8 Hby ltac:(lia) Hpa ltac:(lia)) as Ha.
  set (addr := nandPrvGetAddrValLE _ _ _) in *. clearbody addr.
  destruct (nz _); [intros [= <- <-]; split; [done|by destruct nand]|].
  assert (u32 (addr * nand.(bytesPerPage)) = addr * nand.(bytesPerPage)) as ->
    by (apply wrap_small; split; nia).
  rewrite (wrap_small 32 (_ .<< _)) by done.
  set (start := addr * nand.(bytesPerPage)) in *. set (n := nand.(bytesPerPage) .<< _) in *.
  destruct (in_object _ _ _) eqn:Ho; [|done]. cbn [negb]. cbn zeta.
  assert (start + n < 2 ^ 32) as Hend by (apply in_object_spec in Ho; nia).
  assert (0 <= n) as Hn by (destruct Hu; done). assert (0 <= start) as Hst by nia.
  rewrite (wrap_small 32 (start + n)) by (split; lia).
  set (bs := replicate (Z.to_nat n) 0xff). set (l := _ <$> seq 0 _).
  set (n1 := { nand with data ::= _ }). destruct (forM l markStorage n1) as [n2| | |] eqn:E; [|done..].
  cbn [mbind outcome_bind]. intros [= <- <-].
  assert (0 <= start / STORAGE_PAGE) as Hq by (apply Z.div_pos; [lia|done]).
  apply markRange_spec in E as (E & Hl & Hbits).
  2:{ subst l. apply Forall_fmap, Forall_forall. intros k _. cbn. lia. }
  assert (n1 = { nand with data := poke nand.(data) start bs }) as E1 by (by destruct nand). clearbody n1. subst n1.
  rewrite E. clear E. destruct nand, n2. cbn in *. split; [|done]. split; cbn; try done.
  - apply length_poke.
  - intros p Hp0 Hbit. rewrite Hbits by done. by rewrite Hbit, orb_true_r.
  - intros i Hi Hne. split; [done|]. rewrite Hbits by (apply Z.div_pos; [lia|done]).
    assert (start <= i < start + Z.of_nat (length bs)) as Hr.
    { apply poke_changed with data0; [lia| |done]. subst bs. rewrite length_replicate.
      rewrite Z2Nat.id by lia. done. }
    subst bs. rewrite length_replicate, Z2Nat.id in Hr by lia.
    assert (start / STORAGE_PAGE <= i / STORAGE_PAGE <= (start + n) / STORAGE_PAGE) as Hdiv
      by (split; apply Z.div_le_mono; (done || lia)).
    apply orb_true_iff. left. apply bool_decide_eq_true. subst l. apply list_elem_of_fmap.
    exists (Z.to_nat (i / STORAGE_PAGE - start / STORAGE_PAGE)). split; [lia|]. apply elem_of_seq. lia.
Qed.

(** ** One cycle *)

(** A step that keeps the chip well-formed and its contents tracked. *)
Definition good_step nand nand' : Prop :=
  (nand_wf nand -> nand_wf nand') /\ tracked nand nand' /\ geometry nand' = geometry nand.

#[export] Instance good_step_preorder : PreOrder good_step.
Proof.
  split; [by split|]. intros a b c (A1 & A2 & A3) (B1 & B2 & B3).
  split; [auto|]. split; [by etrans|congruence].
Qed.

(** The part of the state the well-formedness is about. *)
Definition addressing nand := (nand.(addrBytes), nand.(pageNo)).

Lemma good_step_same nand nand' :
  geometry nand' = geometry nand -> addressing nand' = addressing nand ->
  tracked nand nand' -> 0 <= nand'.(addrBytesRxed) \/ nand'.(addrBytesRxed) = nand.(addrBytesRxed) ->
  good_step nand nand'.
Proof.
  intros Eg Ea Ht Hr. split; [|done]. intros [Hg Ha Hx Hp].
  pose proof (nand_geometry_same nand nand' Eg (trk_len _ _ Ht) Hg) as Hg'.
  unfold geometry in Eg. injection Eg as _ _ _ _ _ _ _ _ E9 _. unfold addressing in Ea. injection Ea as Ea1 Ea2.
  split; [done|by rewrite Ea1| |by rewrite E9, Ea2]. destruct Hr as [Hr|Hr]; lia.
Qed.

Lemma good_step_quiet nand nand' :
  geometry nand' = geometry nand -> addressing nand' = addressing nand -> storage nand' = storage nand ->
  0 <= nand'.(addrBytesRxed) \/ nand'.(addrBytesRxed) = nand.(addrBytesRxed) ->
  good_step nand nand'.
Proof. intros Eg Ea Es. apply good_step_same; [done..|by apply tracked_storage]. Qed.

Lemma good_step_leaveAreaB nand : good_step nand (leaveAreaB nand).
Proof. unfold leaveAreaB. destruct (decide _); [|done]. destruct nand. by apply good_step_quiet; [..|right]. Qed.

Lemma good_step_enter nand s : good_step nand (enter nand s).
Proof. destruct nand. apply good_step_quiet; [done..|by left]. Qed.

Lemma good_step_area nand a : good_step nand { nand with area := a }.
Proof. destruct nand. apply good_step_quiet; [done..|by right]. Qed.

Lemma good_step_pageBuf nand b : good_step nand { nand with pageBuf := b }.
Proof. destruct nand. apply good_step_quiet; [done..|by right]. Qed.

Lemma good_step_pageOfst nand o : good_step nand { nand with pageOfst := o }.
Proof. destruct nand. apply good_step_quiet; [done..|by right]. Qed.

Lemma good_step_busy nand n nand' : nandPrvBusy nand n = Ret nand' -> good_step nand nand'.
Proof. intros [_ [w ->]]%busy_world. destruct nand. apply good_step_quiet; [done..|by right]. Qed.

Lemma good_step_program nand nand' :
  nand_wf nand -> nandPrvPageProgram nand = Ret nand' -> good_step nand nand'.
Proof.
  intros Hwf [Ht E]%program_tracked; [|done].
  apply good_step_same; [..|done|right]; rewrite E; by destruct nand.
Qed.

Lemma good_step_erase nand ok nand' :
  nand_wf nand -> nandPrvBlockErase nand = Ret (ok, nand') -> good_step nand nand'.
Proof.
  intros Hwf [Ht E]%erase_tracked; [|done].
  apply good_step_same; [..|done|right]; rewrite E; by destruct nand.
Qed.

Lemma confirmErase_good nand ok nand' :
  nand_wf nand -> confirmErase nand = Ret (ok, nand') -> good_step nand nand'.
Proof.
  intros Hwf. unfold confirmErase. cbn zeta. pose proof (good_step_leaveAreaB nand) as HB.
  pose proof (proj1 HB Hwf) as HwfB. set (n0 := leaveAreaB nand) in *. clearbody n0.
  destruct (_ || _); [by intros [= _ <-]|].
  destruct (nandPrvBlockErase n0) as [[k n1]| | |] eqn:E; [|done..].
  apply good_step_erase in E; [|done]. cbn [mbind outcome_bind].
  destruct k; cbn [negb]; [|by intros [= _ <-]; etrans].
  destruct (nandPrvBusy n1 100) as [n2| | |] eqn:E2; [|done..]. apply good_step_busy in E2.
  intros [= _ <-]. etrans; [exact HB|]. etrans; [exact E|]. etrans; [exact E2|]. apply good_step_enter.
Qed.

Lemma confirmProgram_good nand ok nand' :
  nand_wf nand -> confirmProgram nand = Ret (ok, nand') -> good_step nand nand'.
Proof.
  intros Hwf. unfold confirmProgram. cbn zeta. pose proof (good_step_leaveAreaB nand) as HB.
  pose proof (proj1 HB Hwf) as HwfB. set (n0 := leaveAreaB nand) in *. clearbody n0.
  destruct (negb _); [by intros [= _ <-]|].
  destruct (nandPrvPageProgram n0) as [n1| | |] eqn:E; [|done..].
  apply good_step_program in E; [|done]. cbn [mbind outcome_bind].
  destruct (nandPrvBusy n1 10) as [n2| | |] eqn:E2; [|done..]. apply good_step_busy in E2.
  intros [= _ <-]. etrans; [exact HB|]. etrans; [exact E|]. etrans; [exact E2|]. apply good_step_enter.
Qed.

Lemma command_good nand val ok nand' :
  nand_wf nand -> nandCommand nand val = Ret (ok, nand') -> good_step nand nand'.
Proof.
  intros Hwf.
  assert (forall x, Ret (false, nand) = Ret (x, nand') -> good_step nand nand') as Hfail by (by intros x [= _ <-]).
  assert (forall x s, Ret (true, enter nand s) = Ret (x, nand') -> good_step nand nand') as Henter
    by (intros x s [= _ <-]; apply good_step_enter).
  assert (forall x s a, Ret (true, enter { nand with area := a } s) = Ret (x, nand') -> good_step nand nand') as Harea
    by (intros x s a [= _ <-]; etrans; [apply good_step_area|apply good_step_enter]).
  assert (forall x v, 0 <= v -> Ret (true, { nand with addrBytesRxed := v }) = Ret (x, nand') -> good_step nand nand') as Hrxed
    by (intros x v Hv [= _ <-]; destruct nand; apply good_step_quiet; [done..|by left]).
  pose proof (confirmErase_good nand ok nand' Hwf) as Herase.
  pose proof (confirmProgram_good nand ok nand' Hwf) as Hprog.
  unfold nandCommand. cbn zeta.
  repeat (case_match; try discriminate;
    try first [exact Hprog|exact Herase|apply Hfail|apply Henter|apply Harea|apply Hrxed; done]).
Qed.

Lemma pushAddr_good nand val : byte_ok val -> good_step nand (pushAddr nand val).
Proof.
  intros Hv. split; [|split; [by apply tracked_storage; destruct nand|by destruct nand]].
  intros [Hg [Hl Hb] Hr Hp]. split.
  - eapply nand_geometry_same; [..|exact Hg]; by destruct nand.
  - destruct nand. cbn in *. rewrite length_aset. split; [done|]. by apply Forall_aset.
  - destruct nand. cbn. apply wrap_is_u. lia.
  - by destruct nand.
Qed.

Lemma address_good nand val ok nand' :
  byte_ok val -> nandAddress nand val = Ret (ok, nand') -> good_step nand nand'.
Proof.
  intros Hv. unfold nandAddress. cbn zeta. pose proof (fun n => pushAddr_good n val Hv) as Hpush.
  destruct nand.(state); try (by intros [= _ <-]);
    (destruct (_ <=? _); [by intros [= _ <-]|]); try (intros [= _ <-]; apply Hpush).
  destruct (_ =? _).
  - destruct (nandPrvBusy nand 1) as [n1| | |] eqn:E; [|done..]. cbn [mbind outcome_bind].
    apply good_step_busy in E. intros [= _ <-]. etrans; [exact E|apply Hpush].
  - intros [= _ <-]. apply Hpush.
Qed.

Lemma accept_good nand val : good_step nand (nandPrvAcceptProgramData nand val).
Proof.
  unfold nandPrvAcceptProgramData. destruct (_ <=? _); [done|].
  destruct nand. by apply good_step_quiet; [..|right].
Qed.

Lemma dataIn_good nand val ok nand' :
  nand_wf nand -> addrLen nand <= 8 -> nandDataIn nand val = Ret (ok, nand') -> good_step nand nand'.
Proof.
  intros Hwf Ha. unfold nandDataIn. destruct nand.(state); try (by intros [= _ <-]).
  - destruct (negb _); [by intros [= _ <-]|]. cbn zeta.
    set (n1 := { nand with state := _; pageNo := _ }).
    assert (good_step nand n1) as H1.
    { split; [|split; [by apply tracked_storage; destruct nand|by destruct nand]].
      intros [Hg [Hl Hb] Hr _]. pose proof Hg as [_ _ _ [Hba Hpa] _]. unfold addrLen in Ha. split.
      - eapply nand_geometry_same; [..|exact Hg]; by destruct nand.
      - by destruct nand.
      - by destruct nand.
      - pose proof (addrVal_bound nand nand.(byteAddrBytes) nand.(pageAddrBytes) Hl Hb) as Hv.
        specialize (Hv ltac:(lia) Hpa ltac:(lia)). by destruct nand. }
    clearbody n1. destruct (_ <=? _); [by intros [= _ <-]|].
    intros E. apply ret_pair_inj in E as [_ <-]. etrans; [exact H1|].
    etrans; [|apply accept_good].
    set (n3 := leaveAreaB _). assert (good_step n1 n3) as H3.
    { etrans; [|apply good_step_leaveAreaB]. etrans; [|apply good_step_pageOfst]. apply good_step_pageBuf. }
    etrans; [exact H3|]. apply good_step_pageOfst.
  - intros [= _ <-]. apply accept_good.
Qed.

(** C18. No write is lost by the storage: whatever write cycle the chip is given, if
    it returns, the chip is well-formed again, the storage page of every byte
    whose value changed is marked dirty, the contents are flagged dirty, and
    no page loses its mark. *)
Theorem nand_dirty_complete nand cle ale val ok nand'
    (Hwf : nand_wf nand) (Haddr : addrLen nand <= 8) (Hval : byte_ok val)
    (Hrun : nandWrite nand cle ale val = Ret (ok, nand')) :
  nand_wf nand' /\
  (forall p, 0 <= p -> storageBit nand.(dirtyPages) p = true -> storageBit nand'.(dirtyPages) p = true) /\
  forall i, 0 <= i < Z.of_nat (length nand.(data)) -> nand'.(data).[i] <> nand.(data).[i] ->
    nand'.(dirty) = true /\ storageBit nand'.(dirtyPages) (i / STORAGE_PAGE) = true.
Proof.
  assert (good_step nand nand') as (Hg & Ht & _).
  { unfold nandWrite in Hrun. destruct cle, ale; cbn in Hrun.
    - by injection Hrun as _ <-.
    - by eapply command_good.
    - by eapply address_good.
    - by eapply dataIn_good. }
  split; [auto|]. split; [apply Ht|apply Ht].
Qed.

End Storage.
