(* ===== verification/DirectNand.v ===== *)
(** * The NAND behind three addresses (mmiodev_DirectNAND.c), and its protocol

    The device decodes an address into a command, address or data cycle and
    aborts when the chip refuses one. The theorems follow whole sequences of
    cycles: programming a page and reading one back. *)

From S2P Require Import Prelude Bytes Interfaces Nand.

Record DirectNAND (W : Type) := mkDirectNAND {
  baseCleAddr : Z;
  baseAleAddr : Z;
  baseDataAddr : Z;
  maskBitsAddr : Z;
  rdyPinNo : Z;       (* int8_t; negative: no ready pin *)
  nand : NAND W       (* the GPIO controller is in its world *)
}.
Arguments mkDirectNAND {W}. Arguments baseCleAddr {W}. Arguments baseAleAddr {W}.
Arguments baseDataAddr {W}. Arguments maskBitsAddr {W}. Arguments rdyPinNo {W}. Arguments nand {W}.

Section Device.
Context {W : Type} `{!IrqSink W} `{!ReschedSink W} `{!GpioPort W}.

Definition directNandPrvReady (rdyPin : Z) (w : W) (ready : bool) : outcome W :=
  if 0 <=? rdyPin then gpio_set_state w rdyPin ready else Ret w.

Definition directNandPrvMemAccessF (dn : DirectNAND W) (pa size : Z) (write : bool) (buf : Z)
  : outcome (access (DirectNAND W)) :=
  if negb (size =? 1) then Ret (false, buf, dn) else
  let pa := pa .&~ dn.(maskBitsAddr) in
  let cle := pa =? dn.(baseCleAddr) in
  let ale := negb cle && (pa =? dn.(baseAleAddr)) in
  if negb cle && negb ale && negb (pa =? dn.(baseDataAddr)) then Ret (false, buf, dn) else
  if write then
    '(ok, n) ← nandWrite dn.(nand) cle ale buf;
    if negb ok then Abort (* "NAND ACCESS FAILS" *) else Ret (true, buf, { dn with nand := n })
  else
    '(ok, v, n) ← nandRead dn.(nand) cle ale;
    if negb ok then Abort else Ret (true, v, { dn with nand := n }).

Definition directNandInit (w : W) (cle ale dat mask rdyPin : Z) (specs : NandSpecs)
    (nandContent : option (list Z)) : outcome (DirectNAND W) :=
  let pin := sgn 8 rdyPin in
  n ← nandInit w nandContent specs (Some (directNandPrvReady pin));
  match n with
  | None => Abort (* "Cannot init underlying NAND" *)
  | Some n => Ret (mkDirectNAND cle ale dat mask pin n)
  end.

Definition directNandPeriodic (dn : DirectNAND W) : outcome (DirectNAND W) :=
  n ← nandPeriodic dn.(nand); Ret { dn with nand := n }.
Definition directNandTaskRequired (dn : DirectNAND W) : bool := nandTaskRequired dn.(nand).
Definition directNandGetNand (dn : DirectNAND W) : NAND W := dn.(nand).
End Device.

(** ** Sequences of cycles *)

Inductive nandCycle := Cmd (v : Z) | Addr (v : Z) | DataIn (v : Z).

Section Protocol.
Context {W : Type} `{!IrqSink W} `{!ReschedSink W}.
Implicit Types n : NAND W.

(** A write cycle of the device. *)
Definition cycle n (c : nandCycle) : outcome (NAND W) :=
  '(ok, n) ← match c with
             | Cmd v => nandWrite n true false v
             | Addr v => nandWrite n false true v
             | DataIn v => nandWrite n false false v
             end;
  if negb ok then Abort else Ret n.

Definition runCycles n (l : list nandCycle) : outcome (NAND W) := forM l cycle n.

(** [k] data reads. *)
Fixpoint readBytes (k : nat) n : outcome (list Z * NAND W) :=
  match k with
  | O => Ret ([], n)
  | S k =>
      '(ok, v, n) ← nandRead n false false;
      if negb ok then Abort else
      '(vs, n) ← readBytes k n;
      Ret (v :: vs, n)
  end.

Lemma runCycles_app n l l' : runCycles n (l ++ l') = n ← runCycles n l; runCycles n l'.
Proof.
  revert n. induction l as [|c l IH]; intros n; [done|]. cbn. destruct (cycle n c); [|done..]. apply IH.
Qed.

(** Callbacks that return. *)
Definition callbacks_return n : Prop :=
  forall f, Some f ∈ n.(readyCbk) -> forall w r, exists w', f w r = Ret w'.

Lemma busy_ret n k :
  callbacks_return n -> n.(busyCt) = 0 -> exists w, nandPrvBusy n k = Ret { n with world := w; busyCt := k }.
Proof.
  intros Hcb Hb. unfold nandPrvBusy. rewrite Hb. cbn [nz Z.eqb negb].
  assert (forall l x, (forall f, Some f ∈ l -> Some f ∈ n.(readyCbk)) ->
    exists w, forM l (fun m f => match f with
      | Some f => w ← f m.(world) false; Ret { m with world := w } | None => Ret m end) x
      = Ret { (x : NAND W) with world := w }) as Hall.
  { induction l as [|f l IH]; intros x Hl; cbn [forM].
    - exists x.(world). by destruct x.
    - assert (forall g, Some g ∈ l -> Some g ∈ n.(readyCbk)) as Hl' by (intros; apply Hl; by right).
      destruct f as [f|].
      + destruct (Hcb f ltac:(apply Hl; by left) x.(world) false) as [w ->]. cbn [mbind outcome_bind].
        destruct (IH { x with world := w } Hl') as [w' ->]. exists w'. by destruct x.
      + cbn [mbind outcome_bind]. by apply IH. }
  unfold nandPrvCallReadyCbks.
  destruct (Hall n.(readyCbk) { n with busyCt := k } ltac:(done)) as [w Hw].
  replace ({ n with busyCt := k }.(readyCbk)) with n.(readyCbk) by (by destruct n).
  rewrite Hw. cbn [mbind outcome_bind]. exists (reschedule w RESCHEDULE_TASK_NAND). by destruct n.
Qed.

(** [n] after [bs] have been shifted into the address from position [rxed] on. *)
Definition addressed n (bs : list Z) : NAND W :=
  { n with addrBytes ::= fun a => poke a n.(addrBytesRxed) bs;
           addrBytesRxed ::= fun r => r + Z.of_nat (length bs) }.

Lemma addressed_cons n b bs :
  length n.(addrBytes) = 8%nat -> 0 <= n.(addrBytesRxed) ->
  n.(addrBytesRxed) + Z.of_nat (length (b :: bs)) <= 8 ->
  addressed (pushAddr n b) bs = addressed n (b :: bs).
Proof.
  intros Hl H0 Hr. destruct n. cbn in *. unfold addressed, pushAddr. cbn.
  rewrite (wrap_small 8) by (split; cbn; lia). f_equal; [lia|].
  symmetry. apply poke_cons. apply in_object_spec. cbn [length]. lia.
Qed.

Lemma addressed_nil n : addressed n [] = n.
Proof. destruct n. unfold addressed. cbn. by rewrite Z.add_0_r. Qed.

Lemma address_program n bs :
  n.(state) = K9nandStateProgramAddrRxing -> length n.(addrBytes) = 8%nat -> 0 <= n.(addrBytesRxed) ->
  n.(addrBytesRxed) + Z.of_nat (length bs) <= addrLen n <= 8 ->
  runCycles n (Addr <$> bs) = Ret (addressed n bs).
Proof.
  revert n. induction bs as [|b bs IH]; intros n Hs Hl H0 Hle; [by rewrite addressed_nil|].
  cbn [length] in Hle. cbn [fmap list_fmap]. unfold runCycles. cbn [forM]. fold (runCycles (pushAddr n b)).
  assert (cycle n (Addr b) = Ret (pushAddr n b)) as ->.
  { unfold cycle, nandWrite. cbn [andb negb]. unfold nandAddress. rewrite Hs. cbn zeta.
    assert ((addrLen n <=? n.(addrBytesRxed)) = false) as -> by (apply Z.leb_gt; lia). done. }
  cbn [mbind outcome_bind].
  assert ((pushAddr n b).(addrBytesRxed) = n.(addrBytesRxed) + 1) as Er.
  { destruct n. cbn in *. apply wrap_small. split; cbn; lia. }
  rewrite <- addressed_cons by (cbn [length]; done || lia). apply IH.
  - by destruct n.
  - destruct n. cbn in *. by rewrite length_aset.
  - lia.
  - rewrite Er. replace (addrLen (pushAddr n b)) with (addrLen n) by (by destruct n). lia.
Qed.

(** While a read is addressed the chip may become busy. *)
Lemma address_reading n bs :
  callbacks_return n -> n.(busyCt) = 0 ->
  n.(state) = K9nandStateReading -> length n.(addrBytes) = 8%nat -> 0 <= n.(addrBytesRxed) ->
  n.(addrBytesRxed) + Z.of_nat (length bs) <= addrLen n <= 8 ->
  exists w k, runCycles n (Addr <$> bs) = Ret { addressed n bs with world := w; busyCt := k }.
Proof.
  revert n. induction bs as [|b bs IH]; intros n Hcb Hb Hs Hl H0 Hle.
  { exists n.(world), n.(busyCt). rewrite addressed_nil. by destruct n. }
  cbn [length] in Hle. cbn [fmap list_fmap]. unfold runCycles. cbn [forM].
  assert ((addrLen n <=? n.(addrBytesRxed)) = false) as Hlt by (apply Z.leb_gt; lia).
  destruct (Z.eqb_spec n.(addrBytesRxed) (addrLen n - 1)) as [Elast|Hmore].
  - assert (bs = []) as -> by (destruct bs; [done|cbn in Hle; lia]).
    destruct (busy_ret n 1 Hcb Hb) as [w Ew].
    exists w, 1. unfold cycle, nandWrite. cbn [andb negb]. unfold nandAddress. rewrite Hs. cbn zeta.
    rewrite Hlt, Elast, Z.eqb_refl, Ew. cbn [mbind outcome_bind negb fmap list_fmap].
    f_equal. rewrite <- (addressed_cons n b []) by (cbn [length]; done || lia). rewrite addressed_nil.
    by destruct n.
  - assert (cycle n (Addr b) = Ret (pushAddr n b)) as ->.
    { unfold cycle, nandWrite. cbn [andb negb]. unfold nandAddress. rewrite Hs. cbn zeta.
      rewrite Hlt. apply Z.eqb_neq in Hmore as ->. done. }
    cbn [mbind outcome_bind].
    assert ((pushAddr n b).(addrBytesRxed) = n.(addrBytesRxed) + 1) as Er.
    { destruct n. cbn in *. apply wrap_small. split; cbn; lia. }
    rewrite <- addressed_cons by (cbn [length]; done || lia). apply IH.
    + by destruct n.
    + by destruct n.
    + by destruct n.
    + destruct n. cbn in *. by rewrite length_aset.
    + lia.
    + rewrite Er. replace (addrLen (pushAddr n b)) with (addrLen n) by (by destruct n). lia.
Qed.

(** ** Programming a page *)

(** The address cycles of column [col] of page [page]. *)
Definition addrCycles n (col page : Z) : list Z :=
  le_split (Z.to_nat n.(byteAddrBytes)) col ++ le_split (Z.to_nat n.(pageAddrBytes)) page.

Lemma peek_poke_app a xs ys :
  (length xs + length ys <= length a)%nat ->
  peek (poke a 0 (xs ++ ys)) 0 (Z.of_nat (length xs)) = xs /\
  peek (poke a 0 (xs ++ ys)) (Z.of_nat (length xs)) (Z.of_nat (length ys)) = ys.
Proof.
  intros Hl. assert (in_object a 0 (Z.of_nat (length (xs ++ ys))) = true) as Ho
    by (apply in_object_spec; rewrite length_app; lia).
  assert (peek (poke a 0 (xs ++ ys)) 0 (Z.of_nat (length (xs ++ ys))) = xs ++ ys) as E
    by (by apply peek_poke_same).
  set (P := poke a 0 (xs ++ ys)) in *. clearbody P. clear Ho.
  unfold peek in *. change (Z.to_nat 0) with O in *. rewrite drop_0, !Nat2Z.id in *. rewrite length_app in E.
  split.
  - transitivity (take (length xs) (xs ++ ys)); [|apply take_app_length].
    rewrite <- E, take_take. f_equal. lia.
  - transitivity (drop (length xs) (xs ++ ys)); [|apply drop_app_length].
    by rewrite <- E, take_drop_commute.
Qed.

(** The chip reads back the address it was sent. *)
Lemma addr_values n col page :
  length n.(addrBytes) = 8%nat -> n.(addrBytesRxed) = 0 -> Forall byte_ok n.(addrBytes) ->
  0 <= n.(byteAddrBytes) <= 4 -> 0 <= n.(pageAddrBytes) <= 4 ->
  is_u (8 * n.(byteAddrBytes)) col -> is_u (8 * n.(pageAddrBytes)) page ->
  let n1 := addressed n (addrCycles n col page) in
  nandPrvGetByteAddr n1 = col /\ nandPrvGetPageAddr n1 n1.(byteAddrBytes) = page /\
  length n1.(addrBytes) = 8%nat.
Proof.
  intros Hl H0 Hb Hba Hpa Hc Hp n1. subst n1. unfold addrCycles.
  set (xs := le_split _ col). set (ys := le_split _ page).
  assert (length xs = Z.to_nat n.(byteAddrBytes) /\ length ys = Z.to_nat n.(pageAddrBytes)) as [Hx Hy]
    by (split; apply length_le_split).
  destruct (peek_poke_app n.(addrBytes) xs ys ltac:(lia)) as [E1 E2].
  unfold nandPrvGetByteAddr, nandPrvGetPageAddr.
  assert (Forall byte_ok (poke n.(addrBytes) 0 (xs ++ ys))) as Hbytes
    by (apply poke_bytes; [done|apply Forall_app; split; apply le_split_bytes]).
  assert ((addressed n (xs ++ ys)).(addrBytes) = poke n.(addrBytes) 0 (xs ++ ys)) as Ea
    by (destruct n; cbn in *; by subst).
  replace (addressed n (xs ++ ys)).(byteAddrBytes) with n.(byteAddrBytes) by (by destruct n).
  replace (addressed n (xs ++ ys)).(pageAddrBytes) with n.(pageAddrBytes) by (by destruct n).
  rewrite !addrVal_spec by (rewrite ?Ea, ?length_poke; done || lia). rewrite Ea.
  rewrite Hx, Hy, !Z2Nat.id in * by lia. rewrite E1, E2. split; [|split; [|by rewrite length_poke]].
  - apply le_roundtrip. by rewrite Z2Nat.id by lia.
  - apply le_roundtrip. by rewrite Z2Nat.id by lia.
Qed.

Lemma data_run n bs :
  n.(state) = K9nandStateProgramDataRxing -> 0 <= n.(pageOfst) -> is_u 32 n.(bytesPerPage) ->
  Z.of_nat (length n.(pageBuf)) = n.(bytesPerPage) ->
  n.(pageOfst) + Z.of_nat (length bs) <= n.(bytesPerPage) ->
  runCycles n (DataIn <$> bs) = Ret { n with pageBuf ::= fun p => poke p n.(pageOfst) bs;
                                           pageOfst ::= fun o => o + Z.of_nat (length bs) }.
Proof.
  revert n. induction bs as [|b bs IH]; intros n Hs H0 Hu Hl Hle.
  { destruct n. cbn. by rewrite Z.add_0_r. }
  cbn [length] in Hle. cbn [fmap list_fmap]. unfold runCycles. cbn [forM].
  assert (cycle n (DataIn b) = Ret (nandPrvAcceptProgramData n b)) as ->.
  { unfold cycle, nandWrite. cbn [andb negb]. unfold nandDataIn. by rewrite Hs. }
  cbn [mbind outcome_bind]. unfold nandPrvAcceptProgramData.
  assert ((n.(bytesPerPage) <=? n.(pageOfst)) = false) as -> by (apply Z.leb_gt; lia).
  destruct n. cbn in *. destruct Hu as [_ Hu].
  rewrite (wrap_small 32 (_ + 1)) by (split; lia).
  etrans; [apply IH; cbn; [done|lia|by split; lia|by rewrite length_aset|lia]|]. cbn.
  f_equal; f_equal; [lia|]. symmetry. apply poke_cons. apply in_object_spec. cbn [length]. lia.
Qed.

(** A page in the middle of being programmed. *)
Lemma confirm_program n :
  nand_geometry n -> 0 <= n.(pageNo) < pagesOf n -> callbacks_return n -> n.(busyCt) = 0 ->
  n.(state) = K9nandStateProgramDataRxing ->
  Z.of_nat (length n.(data)) <= 32 * STORAGE_PAGE * Z.of_nat (length n.(dirtyPages)) ->
  let start := n.(pageNo) * n.(bytesPerPage) in
  exists n', runCycles n [Cmd 0x10] = Ret n' /\ n'.(state) = K9nandStateReset /\ n'.(busyCt) = 10 /\
    n'.(data) = poke n.(data) start (zip_with Z.land (peek n.(data) start n.(bytesPerPage)) n.(pageBuf)) /\
    geometry n' = geometry n /\ n'.(addrBytes) = n.(addrBytes).
Proof.
  intros [[Hb Hm] _ Hsz _ [Hp Hmax]] Hpg Hcb Hbusy Hs Hw start.
  unfold runCycles. cbn [forM]. unfold cycle, nandWrite. cbn [andb negb]. unfold nandCommand. cbn zeta. cbv iota.
  unfold confirmProgram. cbn zeta. set (n0 := leaveAreaB n).
  assert (n0 = { n with area := n0.(area) }) as E0.
  { subst n0. unfold leaveAreaB. destruct (decide _); by destruct n. }
  clearbody n0. rewrite E0. set (a := n0.(area)). clearbody a. clear E0 n0.
  assert ({ n with area := a }.(state) = K9nandStateProgramDataRxing) as -> by (by destruct n).
  cbn [bool_decide negb]. unfold nandPrvPageProgram.
  assert (u32 ({ n with area := a }.(pageNo) * { n with area := a }.(bytesPerPage)) = start) as ->.
  { destruct n. cbn in *. subst start. apply wrap_small. split; nia. }
  assert (in_object { n with area := a }.(data) start { n with area := a }.(bytesPerPage) = true) as ->.
  { apply in_object_spec. destruct n. cbn in *. subst start. nia. }
  cbn [negb]. unfold markStorage.
  assert ((start / STORAGE_PAGE) .>> 5 < Z.of_nat (length n.(dirtyPages))) as Hword.
  { rewrite shiftr_div by done. rewrite Z.div_div by done. change (STORAGE_PAGE * 2 ^ 5) with (32 * STORAGE_PAGE).
    apply Z.div_lt_upper_bound; [done|]. subst start. unfold STORAGE_PAGE in *. nia. }
  set (d := poke n.(data) start (zip_with Z.land (peek n.(data) start n.(bytesPerPage)) n.(pageBuf))).
  set (n1 := { { n with area := a } with data ::= _ }).
  assert (n1 = { n with area := a; data := d }) as E1 by (by destruct n). clearbody n1. rewrite E1. clear E1 n1.
  assert ({ n with area := a; data := d }.(dirtyPages) = n.(dirtyPages)) as -> by (by destruct n).
  apply Z.ltb_lt in Hword as ->. cbn [mbind outcome_bind].
  set (n2 := { _ with dirty := true }).
  destruct (busy_ret n2 10) as [w Ew].
  { unfold callbacks_return in *. subst n2. by destruct n. }
  { subst n2. by destruct n. }
  rewrite Ew. cbn [mbind outcome_bind negb]. eexists. split; [done|]. subst n2. by destruct n.
Qed.

(** Programming a partly filled page buffer only touches the bytes that were
    sent: the others are 0xff. *)
Lemma program_merge d start bpp col bs :
  Forall byte_ok d -> 0 <= bpp -> in_object d start bpp = true -> 0 <= col ->
  col + Z.of_nat (length bs) <= bpp ->
  poke d start (zip_with Z.land (peek d start bpp) (poke (replicate (Z.to_nat bpp) 0xff) col bs)) =
  poke d (start + col) (zip_with Z.land (peek d (start + col) (Z.of_nat (length bs))) bs).
Proof.
  intros Hb Hbpp Ho Hc Hle. pose proof Ho as [Hs He]%in_object_spec.
  assert (in_object d (start + col) (Z.of_nat (length bs)) = true) as Ho' by (apply in_object_spec; lia).
  assert (in_object (replicate (Z.to_nat bpp) 0xff) col (Z.of_nat (length bs)) = true) as Hor
    by (apply in_object_spec; rewrite length_replicate; lia).
  set (xs := zip_with _ (peek d start bpp) _). set (ys := zip_with _ _ bs).
  assert (Z.of_nat (length xs) = bpp) as Hx.
  { subst xs. rewrite length_zip_with, length_peek, length_poke, length_replicate by done. lia. }
  assert (length ys = length bs) as Hy.
  { subst ys. rewrite length_zip_with, length_peek by (done || lia). lia. }
  apply aget_ext; rewrite !length_poke; [done|]. intros i Hi.
  rewrite !aget_poke by (lia || by rewrite ?Hx, ?Hy). rewrite Hx, Hy.
  destruct (Z.leb_spec start i), (Z.ltb_spec i (start + bpp)), (Z.leb_spec (start + col) i),
    (Z.ltb_spec i (start + col + Z.of_nat (length bs))); cbn [andb]; try lia; try done; subst xs ys.
  all: rewrite aget_zip_with, aget_peek, aget_poke by
    (rewrite ?length_peek, ?length_poke, ?length_replicate; done || lia).
  all: replace (start + (i - start)) with i by lia.
  all: destruct (Z.leb_spec col (i - start)), (Z.ltb_spec (i - start) (col + Z.of_nat (length bs)));
    cbn [andb]; try lia.
  - rewrite aget_zip_with, aget_peek by (rewrite ?length_peek; done || lia). f_equal; f_equal; lia.
  - rewrite aget_replicate by lia. change 0xff with (Z.ones 8). rewrite Z.land_ones by done.
    apply wrap_small. by apply Forall_aget.
  - rewrite aget_replicate by lia. change 0xff with (Z.ones 8). rewrite Z.land_ones by done.
    apply wrap_small. by apply Forall_aget.
Qed.

(** A chip waiting for a command, not busy, with a bitmap for all its pages. *)
Record nand_idle n : Prop := {
  ni_wf : nand_wf n;
  ni_len : addrLen n <= 8;
  ni_cb : callbacks_return n;
  ni_busy : n.(busyCt) = 0;
  ni_bytes : Forall byte_ok n.(data);
  ni_words : Z.of_nat (length n.(data)) <= 32 * STORAGE_PAGE * Z.of_nat (length n.(dirtyPages))
}.

(** The first data byte sets the page buffer up. *)
Lemma data_start n col page b bs :
  n.(state) = K9nandStateProgramAddrRxing -> n.(addrBytesRxed) = addrLen n -> n.(area) = K9nandAreaA ->
  nandPrvGetByteAddr n = col -> nandPrvGetPageAddr n n.(byteAddrBytes) = page -> page < pagesOf n ->
  is_u 32 col ->
  runCycles n (DataIn <$> b :: bs) =
  runCycles { n with state := K9nandStateProgramDataRxing; pageNo := page;
                     pageBuf := replicate (Z.to_nat n.(bytesPerPage)) 0xff; pageOfst := col }
    (DataIn <$> b :: bs).
Proof.
  intros Hs Hr Ha Hc Hp Hlt Hu. cbn [fmap list_fmap]. unfold runCycles. cbn [forM]. f_equal.
  unfold cycle, nandWrite. cbn [andb negb]. unfold nandDataIn. rewrite Hs, Hr, Z.eqb_refl, Hp. cbn [negb]. cbn zeta.
  assert ((pagesOf { n with state := K9nandStateProgramDataRxing; pageNo := page } <=?
           { n with state := K9nandStateProgramDataRxing; pageNo := page }.(pageNo)) = false) as ->.
  { apply Z.leb_gt. by destruct n. }
  destruct n. cbn in *. subst. unfold leaveAreaB, areaStart. cbn. rewrite Z.add_0_l.
  unfold nandPrvGetByteAddr, nandPrvGetAddrValLE in *. cbn in *. by rewrite wrap_small by done.
Qed.

(** Programming: the command, the address of column [col] of page [page],
    the bytes [bs] and the confirmation leave, at that place, each old byte
    ANDed with the byte sent, and change no other byte of the chip. *)
Theorem nand_program_ands n page col bs (Hidle : nand_idle n)
    (Hstate : acceptsCommand n.(state) = true) (Harea : n.(area) = K9nandAreaA)
    (Hpage : 0 <= page < pagesOf n) (Hcol : is_u (8 * n.(byteAddrBytes)) col)
    (Hbs : bs <> []) (Hfit : col + Z.of_nat (length bs) <= n.(bytesPerPage)) :
  let at_ := page * n.(bytesPerPage) + col in
  exists n', runCycles n (Cmd 0x80 :: (Addr <$> addrCycles n col page) ++ (DataIn <$> bs) ++ [Cmd 0x10]) = Ret n' /\
    n'.(data) = poke n.(data) at_ (zip_with Z.land (peek n.(data) at_ (Z.of_nat (length bs))) bs) /\
    n'.(state) = K9nandStateReset /\ n'.(busyCt) = 10 /\ geometry n' = geometry n.
Proof.
  intros at_. destruct Hidle as [[Hg [Hl8 Hby] _ Hpn] Hlen Hcb Hbusy Hbytes Hwords].
  pose proof Hg as [[Hb Hm] [Hk Hu] Hsz [Hba Hpa] [Hp Hmax]].
  change (?c :: ?l) with ([c] ++ l). rewrite runCycles_app.
  assert (runCycles n [Cmd 0x80] = Ret (enter n K9nandStateProgramAddrRxing)) as ->
    by (unfold runCycles, cycle, nandWrite, nandCommand; cbn; by rewrite Hstate).
  cbn [mbind outcome_bind]. rewrite runCycles_app. set (n0 := enter n K9nandStateProgramAddrRxing).
  assert (addrCycles n col page = addrCycles n0 col page) as -> by (by destruct n).
  assert (Z.of_nat (length (addrCycles n0 col page)) = addrLen n) as Hal.
  { unfold addrCycles, addrLen. rewrite length_app, !length_le_split. destruct n. cbn in *. lia. }
  assert (is_u (8 * n.(pageAddrBytes)) page) as Hpu by (split; lia).
  destruct (addr_values n0 col page) as (Ecol & Epage & _); [by destruct n..|].
  rewrite address_program; [|by destruct n|by destruct n|by destruct n|].
  2:{ rewrite Hal. destruct n. cbn in *. unfold addrLen in *. cbn in *. lia. }
  cbn [mbind outcome_bind]. rewrite runCycles_app. set (n1 := addressed n0 _) in *.
  set (n2 := { n1 with state := K9nandStateProgramDataRxing; pageNo := page;
                       pageBuf := replicate (Z.to_nat n.(bytesPerPage)) 0xff; pageOfst := col }).
  assert (runCycles n1 (DataIn <$> bs) = runCycles n2 (DataIn <$> bs)) as ->.
  { destruct bs as [|b bs]; [done|].
    replace n2 with { n1 with state := K9nandStateProgramDataRxing; pageNo := page;
      pageBuf := replicate (Z.to_nat n1.(bytesPerPage)) 0xff; pageOfst := col } by (subst n1 n2; by destruct n).
    apply data_start; [by destruct n| |by destruct n|exact Ecol|exact Epage|destruct n; apply Hpage|].
    - subst n1. transitivity (Z.of_nat (length (addrCycles n0 col page))); [by destruct n|].
      rewrite Hal. by destruct n.
    - eapply is_u_le; [exact Hcol|lia]. }
  assert (is_u 32 n.(bytesPerPage)) as Hbpp.
  { assert (1 <= 2 ^ (8 * n.(pageAddrBytes))) by (pose proof (Z.pow_pos_nonneg 2 (8 * n.(pageAddrBytes)) ltac:(done) ltac:(lia)); lia). split; nia. }
  rewrite (data_run n2) by (subst n2 n1; destruct n; cbn in *; rewrite ?length_replicate; (done || lia || apply Hcol)).
  cbn [mbind outcome_bind]. set (n3 := { n2 with pageBuf ::= _; pageOfst ::= _ }).
  assert (geometry n3 = geometry n) as Eg by (by destruct n).
  assert (n3.(data) = n.(data)) as Ed by (by destruct n).
  destruct (confirm_program n3) as (n' & Er & Es & Ebz & Edat & Eg' & _).
  - eapply nand_geometry_same; [exact Eg|by rewrite Ed|exact Hg].
  - rewrite (pagesOf_geometry _ _ Eg). by destruct n.
  - unfold callbacks_return. by destruct n.
  - by destruct n.
  - by destruct n.
  - by destruct n.
  - exists n'. split; [exact Er|]. split; [|split; [done|split; [done|congruence]]].
    rewrite Edat. transitivity (poke n.(data) (page * n.(bytesPerPage))
      (zip_with Z.land (peek n.(data) (page * n.(bytesPerPage)) n.(bytesPerPage))
         (poke (replicate (Z.to_nat n.(bytesPerPage)) 0xff) col bs))); [by destruct n|].
    apply program_merge; [done|lia| |apply Hcol|done]. apply in_object_spec. nia.
Qed.

(** ** Reading *)

(** The chip is reading and the next byte is the one at [pos]. *)
Record streaming n (pos : Z) : Prop := {
  st_state : n.(state) = K9nandStateReading;
  st_rxed : n.(addrBytesRxed) = 0xff;
  st_area : n.(area) = K9nandAreaA;
  st_len : addrLen n <= 8;
  st_page : 0 < n.(bytesPerPage) /\ 0 <= n.(pageNo);
  st_ofst : 0 <= n.(pageOfst) <= n.(bytesPerPage);
  st_small : Z.of_nat (length n.(data)) < 2 ^ 32;
  st_buf : in_object n.(data) (n.(pageNo) * n.(bytesPerPage)) n.(bytesPerPage) = true /\
           n.(pageBuf) = peek n.(data) (n.(pageNo) * n.(bytesPerPage)) n.(bytesPerPage);
  st_pos : pos = n.(pageNo) * n.(bytesPerPage) + n.(pageOfst);
  st_whole : Z.of_nat (length n.(data)) = pagesOf n * n.(bytesPerPage)
}.

Lemma nandRead_streaming n pos :
  streaming n pos -> nandRead n false false = nextByte n.
Proof.
  intros [Hs Hr Ha Hl _ _ _ _ _ _]. unfold nandRead. cbn [orb]. rewrite Hs, Hr.
  assert ((0xff =? addrLen n) = false) as -> by (apply Z.eqb_neq; lia). rewrite andb_false_r, Hr. done.
Qed.

(** The page buffer is reloaded when it is used up. *)
Lemma refill n pos :
  streaming n pos -> pos < Z.of_nat (length n.(data)) ->
  exists n1, (if n.(pageOfst) =? n.(bytesPerPage) then
    loadPage { n with pageNo ::= fun p => u32 (p + 1);
               pageOfst := if decide (n.(area) = K9nandAreaC) then 2 * n.(areaSize) else 0 }
    else Ret n) = Ret n1 /\ streaming n1 pos /\ n1.(pageOfst) < n1.(bytesPerPage) /\
    n1.(data) = n.(data) /\ geometry n1 = geometry n.
Proof.
  intros Hst Hpos. pose proof Hst as [Hs Hr Ha Hl [Hb Hp] Ho Hsm [Hin Hbuf] Epos Hw].
  destruct (Z.eqb_spec n.(pageOfst) n.(bytesPerPage)) as [Ee|Hne].
  - assert (n.(pageNo) + 1 < pagesOf n) as Hpg by nia. rewrite decide_False by (rewrite Ha; discriminate).
    assert (is_u 32 (n.(pageNo) + 1)) as Hu1 by (split; nia).
    assert (is_u 32 ((n.(pageNo) + 1) * n.(bytesPerPage))) as Hu2 by (split; nia).
    assert (in_object n.(data) ((n.(pageNo) + 1) * n.(bytesPerPage)) n.(bytesPerPage) = true) as Hin'
      by (apply in_object_spec; nia).
    unfold loadPage. destruct n. cbn in *. rewrite (wrap_small 32 (_ + 1)), (wrap_small 32 (_ * _)), Hin' by done.
    eexists. split; [reflexivity|]. cbn. split; [|split; [lia|done]].
    split; cbn; try done; try lia.
  - exists n. split; [done|]. split; [done|]. split; [lia|done].
Qed.

Lemma nextByte_streaming n pos :
  streaming n pos -> pos < Z.of_nat (length n.(data)) ->
  exists n', nextByte n = Ret (true, n.(data).[pos], n') /\ streaming n' (pos + 1) /\ n'.(data) = n.(data).
Proof.
  intros Hst Hpos. destruct (refill n pos Hst Hpos) as (n1 & E & Hst1 & Hlt & Ed & _).
  unfold nextByte. rewrite E. cbn [mbind outcome_bind]. rewrite <- Ed. clear E Hst Hpos Ed.
  destruct Hst1 as [Hs Hr Ha Hl [Hb Hp] Ho Hsm [Hin Hbuf] Epos Hw].
  assert (Z.of_nat (length n1.(pageBuf)) = n1.(bytesPerPage)) as El
    by (rewrite Hbuf, length_peek by (done || lia); lia).
  rewrite El. assert ((n1.(pageOfst) <? n1.(bytesPerPage)) = true) as -> by (apply Z.ltb_lt; lia).
  assert (n1.(pageBuf).[n1.(pageOfst)] = n1.(data).[pos]) as ->
    by (rewrite Hbuf, aget_peek by (done || lia); by rewrite <- Epos).
  eexists. split; [done|]. split; [|by destruct n1].
  assert (is_u 32 (n1.(pageOfst) + 1)) as Hu by (apply in_object_spec in Hin; split; nia).
  destruct n1. cbn in *. split; cbn; rewrite ?(wrap_small 32 (_ + 1)) by done; try done; lia.
Qed.

Lemma readBytes_streaming k : forall n pos,
  streaming n pos -> 0 <= pos -> pos + Z.of_nat k <= Z.of_nat (length n.(data)) ->
  exists n', readBytes k n = Ret (peek n.(data) pos (Z.of_nat k), n') /\ n'.(data) = n.(data).
Proof.
  induction k as [|k IH]; intros n pos Hst H0 Hle.
  { exists n. by split. }
  cbn [readBytes]. rewrite (nandRead_streaming n pos Hst).
  destruct (nextByte_streaming n pos Hst) as (n1 & -> & Hst1 & Ed); [lia|]. cbn [mbind outcome_bind negb].
  destruct (IH n1 (pos + 1) Hst1) as (n2 & -> & Ed2); [lia|rewrite Ed; lia|]. cbn [mbind outcome_bind].
  exists n2. split; [|congruence]. do 2 f_equal. rewrite Ed.
  rewrite !peek_map by (lia || (apply in_object_spec; lia)). rewrite !Nat2Z.id. cbn [seq fmap list_fmap].
  f_equal; [by rewrite Z.add_0_r|]. rewrite <- seq_shift, <- list_fmap_compose.
  apply list_fmap_ext. intros i x _. cbn. f_equal. lia.
Qed.

(** The first read after the address loads the page. *)
Lemma start_streaming n page col :
  nand_geometry n -> n.(state) = K9nandStateReading -> n.(area) = K9nandAreaA -> addrLen n <= 8 ->
  nandPrvGetByteAddr n = col -> nandPrvGetPageAddr n n.(byteAddrBytes) = page ->
  0 <= page < pagesOf n -> 0 <= col < n.(bytesPerPage) ->
  n.(addrBytesRxed) = 0xfe \/ n.(addrBytesRxed) = addrLen n /\ tst n.(flags) NAND_HAS_SECOND_READ_CMD = false ->
  exists n2, nandRead n false false = nextByte n2 /\ streaming n2 (page * n.(bytesPerPage) + col) /\
    n2.(data) = n.(data).
Proof.
  intros Hg Hs Ha Hl Hc Hp Hpage Hcol Hr. pose proof Hg as [[Hb Hm] _ Hsz _ [Hpp Hmax]].
  assert (is_u 32 (page * n.(bytesPerPage))) as Hu by (split; nia).
  assert (in_object n.(data) (page * n.(bytesPerPage)) n.(bytesPerPage) = true) as Hin
    by (apply in_object_spec; nia).
  assert (is_u 32 col) as Hcu by (split; nia).
  assert (Z.of_nat (length n.(data)) < 2 ^ 32) as Hsmall by nia.
  exists { n with addrBytesRxed := 0xff; pageNo := page; pageOfst := col;
                  pageBuf := peek n.(data) (page * n.(bytesPerPage)) n.(bytesPerPage) }.
  split; [|split; [|by destruct n]].
  - unfold nandRead. cbn [orb]. rewrite Hs.
    set (n0 := if negb _ && _ then _ else n).
    assert (n0 = { n with addrBytesRxed := 0xfe }) as ->.
    { subst n0. destruct Hr as [Hr|[Hr Hf]].
      - rewrite Hr. destruct (negb _ && _); [done|]. destruct n. cbn in *. by subst.
      - by rewrite Hr, Hf, Z.eqb_refl. }
    assert (({ n with addrBytesRxed := 0xfe }.(addrBytesRxed) =? 0xfe) = true) as -> by (by destruct n).
    unfold startReading, loadPage.
    assert (nandPrvGetPageAddr { n with addrBytesRxed := 0xfe } { n with addrBytesRxed := 0xfe }.(byteAddrBytes)
      = page) as -> by (by destruct n).
    set (n1 := { { n with addrBytesRxed := 0xfe } with pageNo := page; addrBytesRxed := 0xff }).
    assert ((pagesOf n1 <=? n1.(pageNo)) = false) as -> by (apply Z.leb_gt; subst n1; destruct n; apply Hpage).
    assert (u32 (n1.(pageNo) * n1.(bytesPerPage)) = page * n.(bytesPerPage)) as ->
      by (subst n1; destruct n; by apply wrap_small).
    assert (n1.(data) = n.(data) /\ n1.(bytesPerPage) = n.(bytesPerPage)) as [-> ->]
      by (subst n1; by destruct n).
    rewrite Hin. cbn [mbind outcome_bind]. subst n1. destruct n. cbn in *. subst.
    unfold leaveAreaB, areaStart. cbn. rewrite Z.add_0_l. unfold nandPrvGetByteAddr, nandPrvGetAddrValLE in *. cbn in *.
    by rewrite wrap_small by done.
  - destruct n. cbn in *. split; cbn; try done; lia.
Qed.

(** Reading: after the read command, the address of column [col] of page
    [page] and, on chips that have it, the second read command, [k] data
    reads return the [k] bytes of the chip from there on, across page
    boundaries, and change nothing. *)
Theorem nand_read_streams n page col k (Hidle : nand_idle n)
    (Hpage : 0 <= page < pagesOf n) (Hcol : is_u (8 * n.(byteAddrBytes)) col)
    (Hcolp : col < n.(bytesPerPage)) :
  let at_ := page * n.(bytesPerPage) + col in
  forall (Hk : at_ + Z.of_nat k <= Z.of_nat (length n.(data))),
  exists n1 n2,
    runCycles n (Cmd 0x00 :: (Addr <$> addrCycles n col page) ++
      (if tst n.(flags) NAND_HAS_SECOND_READ_CMD then [Cmd 0x30] else [])) = Ret n1 /\
    readBytes k n1 = Ret (peek n.(data) at_ (Z.of_nat k), n2) /\ n2.(data) = n.(data).
Proof.
  intros at_ Hk. destruct Hidle as [[Hg [Hl8 Hby] _ Hpn] Hlen Hcb Hbusy Hbytes Hwords].
  pose proof Hg as [[Hb Hm] _ Hsz [Hba Hpa] [Hp Hmax]].
  change (?c :: ?l) with ([c] ++ l). rewrite runCycles_app.
  set (n0 := enter { n with area := K9nandAreaA } K9nandStateReading).
  assert (runCycles n [Cmd 0] = Ret n0) as -> by done.
  cbn [mbind outcome_bind]. rewrite runCycles_app.
  assert (addrCycles n col page = addrCycles n0 col page) as -> by (by destruct n).
  assert (Z.of_nat (length (addrCycles n0 col page)) = addrLen n) as Hal.
  { unfold addrCycles, addrLen. rewrite length_app, !length_le_split. destruct n. cbn in *. lia. }
  assert (is_u (8 * n.(pageAddrBytes)) page) as Hpu by (split; lia).
  destruct (addr_values n0 col page) as (Ecol & Epage & _); [by destruct n..|].
  destruct (address_reading n0 (addrCycles n0 col page)) as (w & b & Erun).
  { unfold callbacks_return. by destruct n. }
  { by destruct n. } { by destruct n. } { by destruct n. } { by destruct n. }
  { rewrite Hal. destruct n. cbn in *. unfold addrLen in *. cbn in *. lia. }
  rewrite Erun. cbn [mbind outcome_bind].
  set (n1 := { addressed n0 (addrCycles n0 col page) with world := w; busyCt := b }).
  assert (n1.(addrBytesRxed) = addrLen n) as Erx.
  { rewrite <- Hal. subst n1 n0. by destruct n. }
  assert (exists r, runCycles n1 (if tst n.(flags) NAND_HAS_SECOND_READ_CMD then [Cmd 0x30] else []) =
    Ret { n1 with addrBytesRxed := r } /\
    (r = 0xfe \/ r = addrLen n /\ tst n.(flags) NAND_HAS_SECOND_READ_CMD = false)) as (r & Er & Hr).
  { destruct (tst n.(flags) NAND_HAS_SECOND_READ_CMD) eqn:Ef.
    - exists 0xfe. split; [|by left]. unfold runCycles, cycle, nandWrite, nandCommand. cbn [forM andb negb]. cbv iota.
      assert (n1.(flags) = n.(flags) /\ addrLen n1 = addrLen n) as [-> ->] by (subst n1 n0; by destruct n).
      rewrite Ef, Erx, Z.eqb_refl. done.
    - exists (addrLen n). split; [|by right]. rewrite <- Erx. cbn. by destruct n1. }
  exists { n1 with addrBytesRxed := r }. rewrite Er.
  destruct (start_streaming { n1 with addrBytesRxed := r } page col) as (n2 & E2 & Hst & Ed).
  - eapply nand_geometry_same; [..|exact Hg]; subst n1 n0; by destruct n.
  - subst n1 n0. by destruct n.
  - subst n1 n0. by destruct n.
  - subst n1 n0. by destruct n.
  - subst n1 n0. by destruct n.
  - subst n1 n0. by destruct n.
  - subst n1 n0. by destruct n.
  - subst n1 n0. destruct n. cbn in *. destruct Hcol. by split.
  - subst n1 n0. by destruct n.
  - assert ({ n1 with addrBytesRxed := r }.(data) = n.(data)) as Ed1 by (subst n1 n0; by destruct n).
    assert ({ n1 with addrBytesRxed := r }.(bytesPerPage) = n.(bytesPerPage)) as Eb1 by (subst n1 n0; by destruct n).
    rewrite Eb1 in Hst. rewrite Ed1 in Ed. fold at_ in Hst. destruct Hcol as [Hc0 _].
    destruct k as [|k].
    + exists { n1 with addrBytesRxed := r }. done.
    + destruct (readBytes_streaming (S k) n2 at_ Hst) as (n3 & E3 & Ed3); [subst at_; nia|by rewrite Ed|].
      exists n3. split; [done|]. split; [|congruence]. rewrite <- Ed, <- E3. cbn [readBytes].
      by rewrite E2, (nandRead_streaming _ _ Hst).
Qed.

End Protocol.

(** ** Erasing the last block *)
Section LastBlock.
Context {W : Type} `{!IrqSink W} `{!ReschedSink W}.
Implicit Types n : NAND W.

Lemma markRange_undef l : forall n p,
  p ∈ l -> Z.of_nat (length n.(dirtyPages)) <= p .>> 5 -> forM l markStorage n = Undef.
Proof.
  induction l as [|q l IH]; intros n p Hin Hp; [by apply not_elem_of_nil in Hin|].
  cbn [forM]. destruct (markStorage n q) as [n1| | |] eqn:E; unfold markStorage in E;
    destruct (Z.ltb_spec (q .>> 5) (Z.of_nat (length n.(dirtyPages)))) as [Hlt|Hge]; try done.
  apply elem_of_cons in Hin as [->|Hin]; [lia|]. cbn [mbind outcome_bind]. apply (IH n1 p Hin).
  injection E as <-. destruct n. cbn in *. by rewrite length_aset.
Qed.

(** On a chip whose size is a multiple of what a word of the dirty bitmap
    covers, erasing the last block writes the bitmap word behind the last:
    the loop over the storage pages includes the page after the block. *)
Theorem nand_erase_last_block_overflows n (Hwf : nand_wf n) (Hlen : addrLen n <= 8)
    (Hstate : n.(state) = K9nandStateEraseAddrRxing) (Hrxed : n.(addrBytesRxed) = 2)
    (Haddr : nandPrvGetPageAddr n 0 = pagesOf n - 2 ^ n.(pagesPerBlockLg2))
    (Haligned : nandPrvGetPageAddr n 0 mod 2 ^ n.(pagesPerBlockLg2) = 0)
    (Hwords : Z.of_nat (length n.(data)) = 32 * STORAGE_PAGE * Z.of_nat (length n.(dirtyPages))) :
  nandWrite n true false 0xd0 = Undef.
Proof.
  destruct Hwf as [[[Hb Hm] [Hk Hu] Hsz [Hba Hpa] [Hp Hmax]] [Hl8 Hby] _ _].
  unfold nandWrite. cbn [andb negb]. unfold nandCommand. cbn zeta. cbv iota. unfold confirmErase. cbn zeta.
  set (n0 := leaveAreaB n). assert (n0 = { n with area := n0.(area) }) as E0.
  { subst n0. unfold leaveAreaB. destruct (decide _); by destruct n. }
  clearbody n0. rewrite E0. set (a := n0.(area)). clearbody a. clear E0 n0.
  set (m := { n with area := a }).
  assert (m.(state) = K9nandStateEraseAddrRxing) as -> by (subst m; by destruct n).
  assert (m.(addrBytesRxed) = 2) as -> by (subst m; by destruct n).
  cbn [bool_decide negb Z.eqb Pos.eqb orb]. unfold nandPrvBlockErase.
  pose proof (addrVal_bound n 0 n.(pageAddrBytes) Hl8 Hby ltac:(lia) Hpa ltac:(lia)) as Hbound.
  assert (nandPrvGetPageAddr m 0 = nandPrvGetPageAddr n 0) as -> by (subst m; by destruct n).
  assert (m.(pagesPerBlockLg2) = n.(pagesPerBlockLg2)) as -> by (subst m; by destruct n).
  assert (m.(bytesPerPage) = n.(bytesPerPage)) as -> by (subst m; by destruct n).
  fold (nandPrvGetPageAddr n 0) in Hbound. set (addr := nandPrvGetPageAddr n 0) in *. clearbody addr.
  rewrite Z.shiftl_1_l, land_low, Haligned by done. cbn [nz Z.eqb negb]. cbn zeta.
  assert (0 < 2 ^ n.(pagesPerBlockLg2)) as Hpow by (by apply Z.pow_pos_nonneg).
  rewrite Z.shiftl_mul_pow2 in * by done.
  rewrite (wrap_small 32 (addr * _)), (wrap_small 32 (_ * 2 ^ _)) by (done || (split; nia)).
  assert (addr * n.(bytesPerPage) + n.(bytesPerPage) * 2 ^ n.(pagesPerBlockLg2) = Z.of_nat (length n.(data))) as Hend
    by nia.
  rewrite Hend, (wrap_small 32 (Z.of_nat _)) by (split; nia).
  assert (in_object m.(data) (addr * n.(bytesPerPage)) (n.(bytesPerPage) * 2 ^ n.(pagesPerBlockLg2)) = true) as ->.
  { replace m.(data) with n.(data) by (subst m; by destruct n). apply in_object_spec. nia. }
  cbn [negb]. set (m1 := { m with data ::= _ }).
  rewrite (markRange_undef _ m1 (Z.of_nat (length n.(data)) / STORAGE_PAGE)); [done| |].
  - apply list_elem_of_fmap. set (s := addr * n.(bytesPerPage)).
    assert (s / STORAGE_PAGE <= Z.of_nat (length n.(data)) / STORAGE_PAGE)
      by (apply Z.div_le_mono; [done|subst s; nia]).
    assert (0 <= s / STORAGE_PAGE) by (apply Z.div_pos; [subst s; nia|done]).
    exists (Z.to_nat (Z.of_nat (length n.(data)) / STORAGE_PAGE - s / STORAGE_PAGE)).
    split; [lia|]. apply elem_of_seq. lia.
  - replace m1.(dirtyPages) with n.(dirtyPages) by (subst m1 m; by destruct n).
    rewrite shiftr_div, Hwords by done. change (2 ^ 5) with 32. unfold STORAGE_PAGE. zdiv_lia.
Qed.
End LastBlock.

(** ** Concrete chips *)

(** One block of eight pages, erased and ready. *)
Definition demo_nand : NAND lines :=
  mkNAND idle [None; None] 528 1 256 3 [0xec; 0x75; 0; 0; 0; 0] 2 1 1 1 K9nandStateReset K9nandAreaA 0
    (replicate 8 0) 0 0 0 (replicate 528 0) (replicate 4224 0xff) [0] false.

Lemma demo_nand_init :
  nandInit idle (Some (replicate 4224 0xff)) (mkNandSpecs 528 1 3 1 2 [0xec; 0x75]) None ≫= (fun n =>
  match n with Some n => nandPeriodic n | None => Abort end) = Ret demo_nand.
Proof. vm_compute. reflexivity. Qed.

Lemma demo_nand_idle : nand_idle demo_nand.
Proof.
  split; [|vm_compute; congruence| |done| |vm_compute; congruence].
  - split; [split; vm_compute; repeat split; congruence| |vm_compute; congruence|vm_compute; split; congruence].
    split; [done|]. apply Forall_replicate. is_u_lit.
  - intros f Hf. apply elem_of_cons in Hf as [|Hf]; [done|]. by apply list_elem_of_singleton in Hf.
  - apply Forall_replicate. is_u_lit.
Qed.

Lemma nand_program_ands_witness :
  exists n', runCycles demo_nand
    (Cmd 0x80 :: (Addr <$> [5; 2]) ++ (DataIn <$> [0x12; 0x34]) ++ [Cmd 0x10]) = Ret n' /\
    n'.(data).[2 * 528 + 5] = 0x12 /\ n'.(busyCt) = 10.
Proof.
  destruct (nand_program_ands demo_nand 2 5 [0x12; 0x34] demo_nand_idle) as (n' & Er & Ed & _ & Eb & _).
  - reflexivity.
  - reflexivity.
  - vm_compute. split; congruence.
  - is_u_lit.
  - discriminate.
  - vm_compute. congruence.
  - exists n'. split; [exact Er|]. split; [rewrite Ed; vm_compute; reflexivity|exact Eb].
Defined.

Lemma nand_read_streams_witness :
  exists n1 n2, runCycles demo_nand (Cmd 0 :: (Addr <$> [200; 2]) ++ []) = Ret n1 /\
    readBytes 400 n1 = Ret (replicate 400 0xff, n2).
Proof.
  destruct (nand_read_streams demo_nand 2 200 400 demo_nand_idle) as (n1 & n2 & E1 & E2 & _).
  - vm_compute. split; congruence.
  - is_u_lit.
  - reflexivity.
  - vm_compute. congruence.
  - exists n1, n2. split; [exact E1|]. rewrite E2. vm_compute. reflexivity.
Defined.

(** A page about to be programmed over erased contents. *)
Definition demo_programming : NAND lines :=
  { demo_nand with state := K9nandStateProgramDataRxing; pageNo := 3; pageBuf := replicate 528 0x0f }.

Lemma nand_dirty_complete_witness :
  exists n', nandWrite demo_programming true false 0x10 = Ret (true, n') /\ n'.(dirty) = true /\
    storageBit n'.(dirtyPages) 0 = true.
Proof.
  eexists. split; [vm_compute; reflexivity|].
  apply (nand_dirty_complete demo_programming true false 0x10 true _) with (i := 3 * 528).
  - destruct demo_nand_idle as [[Hg Ha _ _] _ _ _ _ _]. split; [|exact Ha|vm_compute; congruence|vm_compute; split; congruence].
    apply (nand_geometry_same demo_nand); done.
  - vm_compute. congruence.
  - is_u_lit.
  - vm_compute. reflexivity.
  - vm_compute. split; congruence.
  - vm_compute. congruence.
Defined.

(** The Tungsten E2's chip with the address of its last block received. *)
Definition te2_data : list Z := replicate (Z.to_nat 34603008) 0xff.

Lemma te2_data_length : Z.of_nat (length te2_data) = 34603008.
Proof. unfold te2_data. rewrite length_replicate. apply Z2Nat.id. done. Qed.

#[local] Opaque te2_data.

Definition te2_nand : NAND lines :=
  mkNAND idle [None; None] 528 2048 256 5 [0xec; 0x75; 0; 0; 0; 0] 2 1 2 1 K9nandStateEraseAddrRxing
    K9nandAreaA 2 [0xe0; 0xff; 0; 0; 0; 0; 0; 0] 0 0 0 (replicate 528 0) te2_data (replicate 256 0) false.

Lemma nand_erase_last_block_overflows_witness : nandWrite te2_nand true false 0xd0 = Undef.
Proof.
  apply nand_erase_last_block_overflows; [|discriminate|reflexivity..|].
  - split; [split| | |].
    + split; reflexivity.
    + split; [discriminate|split; [discriminate|reflexivity]].
    + exact te2_data_length.
    + repeat split; discriminate.
    + split; [discriminate|reflexivity].
    + split; [done|]. forall_list; is_u_lit.
    + discriminate.
    + split; [discriminate|reflexivity].
  - exact te2_data_length.
Defined.
