(* ===== verification/SdCard.v ===== *)
(** * The SD card's storage (sdcard.c)

    An array of 512-byte sectors with a bitmap of dirty pages of 16 sectors.
    The static variables of the file are one record. *)

From S2P Require Import Prelude Bytes.

Definition SD_SECTOR_SIZE := 512.

Record SdCard := mkSdCard {
  sectorsTotal : Z;             (* size_t *)
  sdCardDirty : bool;
  data : option (list Z);       (* None: NULL *)
  dirtyPages : list Z           (* uint32_t words; its size is [dirtyPagesSize] *)
}.

Definition sdCardInitializeWithData (sectors : Z) (buf : list Z) : SdCard :=
  let words := sectors / (16 * 32) in
  let words := if words * 16 * 32 <? sectors then words + 1 else words in
  mkSdCard sectors false (Some buf) (replicate (Z.to_nat words) 0).

Definition sdCardInitialize (sectors : Z) : SdCard :=
  sdCardInitializeWithData sectors (replicate (Z.to_nat (sectors * SD_SECTOR_SIZE)) 0).

Definition sdCardReset (c : SdCard) : SdCard := mkSdCard 0 false None [].

Definition sdCardInitialized (c : SdCard) : bool := match c.(data) with Some _ => true | None => false end.

(** The byte offset is computed in 32 bits. *)
Definition sectorOffset (sector : Z) : Z := u32 (SD_SECTOR_SIZE * sector).

(** The C result and the contents of [buf]. *)
Definition sdCardRead (c : SdCard) (sector : Z) : outcome (bool * list Z) :=
  if c.(sectorsTotal) <=? sector then Ret (false, []) else
  match c.(data) with
  | Some d => if in_object d (sectorOffset sector) SD_SECTOR_SIZE
              then Ret (true, peek d (sectorOffset sector) SD_SECTOR_SIZE) else Undef
  | None => Undef
  end.

Definition sdCardWrite (c : SdCard) (sector : Z) (buf : list Z) : outcome (bool * SdCard) :=
  if c.(sectorsTotal) <=? sector then Ret (false, c) else
  match c.(data) with
  | Some d =>
      let page := sector .>> 4 in
      if in_object d (sectorOffset sector) SD_SECTOR_SIZE &&
         (page / 32 <? Z.of_nat (length c.(dirtyPages))) then
        Ret (true, { c with data := Some (poke d (sectorOffset sector) buf);
                            dirtyPages ::= (fun p => p.[page / 32 <- p.[page / 32] .| (1 .<< (page mod 32))]);
                            sdCardDirty := true })
      else Undef
  | None => Undef
  end.

Definition sdCardSectorCount (c : SdCard) : Z := c.(sectorsTotal).
Definition sdCardData (c : SdCard) : option (list Z) := c.(data).
Definition sdCardDirtyPages (c : SdCard) : list Z := c.(dirtyPages).
Definition sdCardIsDirty (c : SdCard) : bool := c.(sdCardDirty).
Definition sdCardSetDirty (c : SdCard) (isDirty : bool) : SdCard := { c with sdCardDirty := isDirty }.

(** ** Cards up to 4 GiB *)

Record card_wf (c : SdCard) : Prop := {
  cw_total : 0 <= c.(sectorsTotal) <= 2 ^ 23;
  cw_data : exists d, c.(data) = Some d /\ Z.of_nat (length d) = SD_SECTOR_SIZE * c.(sectorsTotal);
  cw_words : c.(sectorsTotal) <= 512 * Z.of_nat (length c.(dirtyPages))
}.

(** The page of 16 sectors [p] is marked. *)
Definition sdPageBit (c : SdCard) (p : Z) : bool := Z.testbit c.(dirtyPages).[p / 32] (p mod 32).

Definition is_block (b : list Z) : Prop := length b = 512%nat.

Lemma card_init_wf sectors buf :
  0 <= sectors <= 2 ^ 23 -> Z.of_nat (length buf) = SD_SECTOR_SIZE * sectors ->
  card_wf (sdCardInitializeWithData sectors buf).
Proof.
  intros Hs Hl. split; cbn; [done|by exists buf|]. rewrite length_replicate.
  change (16 * 32) with 512. assert (0 <= sectors / 512) by (apply Z.div_pos; lia).
  destruct (Z.ltb_spec (sectors / 512 * 16 * 32) sectors); rewrite Z2Nat.id by lia; zdiv_lia.
Qed.

Lemma sectorOffset_small s : 0 <= s < 2 ^ 23 -> sectorOffset s = 512 * s.
Proof. intros Hs. apply wrap_small. split; unfold SD_SECTOR_SIZE; lia. Qed.

Lemma sdCardRead_in c s :
  card_wf c -> 0 <= s < c.(sectorsTotal) -> exists b, sdCardRead c s = Ret (true, b) /\ is_block b.
Proof.
  intros [Ht (d & Ed & Hd) Hw] Hs. unfold sdCardRead. rewrite (proj2 (Z.leb_gt _ _)), Ed by lia.
  rewrite sectorOffset_small by lia. unfold SD_SECTOR_SIZE in *.
  assert (in_object d (512 * s) 512 = true) as Ho by (apply in_object_spec; lia). rewrite Ho.
  eexists. split; [done|]. unfold is_block. by rewrite length_peek.
Qed.

(** A write in explicit form, and the reads after it. *)
Lemma sdCardWrite_in c s b :
  card_wf c -> 0 <= s < c.(sectorsTotal) -> is_block b ->
  exists d, let c' := { c with data := Some d;
                dirtyPages ::= (fun p => p.[s / 16 / 32 <- p.[s / 16 / 32] .| (1 .<< (s / 16 mod 32))]);
                sdCardDirty := true } in
    sdCardWrite c s b = Ret (true, c') /\ card_wf c' /\
    (forall s', 0 <= s' < c.(sectorsTotal) ->
      sdCardRead c' s' = if s =? s' then Ret (true, b) else sdCardRead c s').
Proof.
  intros [Ht (d & Ed & Hd) Hw] Hs Hb. destruct c as [t f o w]. cbn in *. subst o.
  unfold is_block in Hb. unfold SD_SECTOR_SIZE in Hd.
  assert (s .>> 4 = s / 16) as Ep by (by rewrite shiftr_div).
  unfold sdCardWrite. cbn. rewrite Ep. assert ((t <=? s) = false) as -> by (apply Z.leb_gt; lia).
  rewrite sectorOffset_small by lia. unfold SD_SECTOR_SIZE.
  assert (in_object d (512 * s) 512 = true) as Ho by (apply in_object_spec; lia). rewrite Ho.
  assert ((s / 16 / 32 <? Z.of_nat (length w)) = true) as Hwd by (apply Z.ltb_lt; zdiv_lia). rewrite Hwd.
  cbn [andb]. eexists. split; [reflexivity|]. split.
  - split; cbn; [done| |by rewrite length_aset]. eexists. split; [done|]. by rewrite length_poke.
  - intros s' Hs'. unfold sdCardRead. cbn. assert ((t <=? s') = false) as -> by (apply Z.leb_gt; lia).
    rewrite sectorOffset_small by lia. unfold SD_SECTOR_SIZE.
    assert (in_object (poke d (512 * s) b) (512 * s') 512 = true) as ->
      by (apply in_object_spec; rewrite length_poke; lia).
    assert (in_object d (512 * s') 512 = true) as -> by (apply in_object_spec; lia).
    destruct (Z.eqb_spec s s') as [->|Hne].
    + by rewrite peek_poke_same by (rewrite ?Hb; done).
    + rewrite peek_poke_disjoint; [done|lia|lia|lia|rewrite Hb; lia].
Qed.

(** A write to a sector of the card succeeds and is what the next read of
    that sector returns; every other sector reads as before, the page of the
    sector is marked dirty, the marks of other pages stay as they were, and
    the card is flagged dirty. *)
Theorem sdcard_write_exact (c : SdCard) (s : Z) (b : list Z)
    (Hwf : card_wf c) (Hs : 0 <= s < c.(sectorsTotal)) (Hb : is_block b) :
  exists c', sdCardWrite c s b = Ret (true, c') /\ card_wf c' /\
    (forall s', 0 <= s' < c.(sectorsTotal) ->
      sdCardRead c' s' = if s =? s' then Ret (true, b) else sdCardRead c s') /\
    (forall p, 0 <= p -> sdPageBit c' p = (p =? s / 16) || sdPageBit c p) /\
    c'.(sdCardDirty) = true /\ c'.(sectorsTotal) = c.(sectorsTotal).
Proof.
  destruct (sdCardWrite_in c s b Hwf Hs Hb) as (d & E & Hwf' & Hr). eexists.
  split; [exact E|]. split; [done|]. split; [done|]. destruct c as [t f o w].
  split; [|done]. intros p Hp. unfold sdPageBit. cbn. rewrite Z.eqb_sym.
  destruct Hwf as [Ht _ Hw]. cbn in *. apply bitmap_mark; [by apply Z.div_pos; lia|done|zdiv_lia].
Qed.

Definition demo_card : SdCard := sdCardInitialize 40.

Lemma demo_card_wf : card_wf demo_card.
Proof. apply card_init_wf; [lia|]. rewrite length_replicate. by apply Z2Nat.id. Qed.

Lemma sdcard_write_exact_witness :
  exists c', sdCardWrite demo_card 17 (replicate 512 7) = Ret (true, c') /\
    sdCardRead c' 17 = Ret (true, replicate 512 7) /\ sdPageBit c' 1 = true.
Proof.
  destruct (sdcard_write_exact demo_card 17 (replicate 512 7) demo_card_wf) as (c' & E & _ & Hr & Hp & _).
  - split; [discriminate|reflexivity].
  - reflexivity.
  - exists c'. split; [exact E|]. split.
    + apply (Hr 17). split; [discriminate|reflexivity].
    + rewrite Hp by discriminate. reflexivity.
Defined.
