(* ===== verification/Vsd.v ===== *)
(** * The virtual SD card (vSD.c)

    The command and data state machine of a card (SD specification v2). The
    sectors behind it are an interface, [SectorStore], which the storage of
    sdcard.c implements. *)

From S2P Require Import Prelude Bytes SdCard.

(** [SdSectorR] and [SdSectorW]: whether the access succeeded, and the bytes. *)
Class SectorStore (W : Type) := {
  sec_read : W -> Z -> outcome (bool * list Z);
  sec_write : W -> Z -> list Z -> outcome (bool * W)
}.

#[export] Instance sdcard_store : SectorStore SdCard := {|
  sec_read := sdCardRead;
  sec_write := sdCardWrite
|}.

(** What the card promises to its host presupposes of the storage. *)
Class SectorStoreLaws (W : Type) `{SectorStore W} := {
  sec_wf : W -> Prop;
  sec_total : W -> Z;
  sec_read_in w s :
    sec_wf w -> 0 <= s < sec_total w -> exists b, sec_read w s = Ret (true, b) /\ is_block b;
  sec_write_in w s b :
    sec_wf w -> 0 <= s < sec_total w -> is_block b ->
    exists w', sec_write w s b = Ret (true, w') /\ sec_wf w' /\ sec_total w' = sec_total w /\
      (forall s', 0 <= s' < sec_total w ->
        sec_read w' s' = if s =? s' then Ret (true, b) else sec_read w s')
}.

#[export, program] Instance sdcard_laws : SectorStoreLaws SdCard := {|
  sec_wf := card_wf; sec_total := sectorsTotal
|}.
Next Obligation. intros. by apply sdCardRead_in. Qed.
Next Obligation.
  intros c s b Hwf Hs Hb. destruct (sdCardWrite_in c s b Hwf Hs Hb) as (d & E & Hwf' & Hr).
  eexists. split; [exact E|]. split; [done|]. split; [by destruct c|done].
Qed.

Inductive RejectReason := InvalidInCurrentState | UnacceptableParam | UnknownCommand.

Inductive State :=
| StateIdle | StateReady | StateIdent | StateStby | StateTran
| StateData | StateRcv | StatePrg | StateDis.

#[export] Instance sd_state_eq : EqDecision State.
Proof. solve_decision. Defined.

(** The number of a state in the status word. *)
Definition stateNo (s : State) : Z :=
  match s with
  | StateIdle => 0 | StateReady => 1 | StateIdent => 2 | StateStby => 3 | StateTran => 4
  | StateData => 5 | StateRcv => 6 | StatePrg => 7 | StateDis => 8
  end.

Inductive SdReplyType := SdReplyNone | SdReply48bits | SdReply48bitsAndBusy | SdReply136bits.
Inductive SdDataReplyType :=
| SdDataOk | SdDataErrWrongBlockSize | SdDataErrWrongCurrentState | SdDataErrBackingStore.

Record VSD (W : Type) := mkVSD {
  store : W;                    (* what secR and secW act on *)
  nSec : Z;                     (* uint32_t *)
  state : State;
  busyCount : Z;                (* uint8_t *)
  rca : Z;                      (* uint16_t *)
  expectedBlockSz : Z;
  expectDataToUs : bool;
  hcCard : bool;
  acmdShift : bool;
  reportAcmdNext : bool;
  initWaitLeft : Z;             (* uint8_t *)
  prevAcmd41Param : Z;          (* uint32_t *)
  curBuf : list Z;              (* uint8_t[512] *)
  curSec : Z;                   (* uint32_t *)
  curBufLen : Z;                (* uint16_t *)
  bufIsData : bool;
  bufContinuous : bool;
  haveExpectedNumBlocks : bool;
  numBlocksExpected : Z         (* uint32_t *)
}.
Arguments mkVSD {W}. Arguments store {W}. Arguments nSec {W}. Arguments state {W}.
Arguments busyCount {W}. Arguments rca {W}. Arguments expectedBlockSz {W}.
Arguments expectDataToUs {W}. Arguments hcCard {W}. Arguments acmdShift {W}.
Arguments reportAcmdNext {W}. Arguments initWaitLeft {W}. Arguments prevAcmd41Param {W}.
Arguments curBuf {W}. Arguments curSec {W}. Arguments curBufLen {W}. Arguments bufIsData {W}.
Arguments bufContinuous {W}. Arguments haveExpectedNumBlocks {W}. Arguments numBlocksExpected {W}.

(** ** CRC *)

Definition crc7tab : list Z := [
  0x00; 0x12; 0x24; 0x36; 0x48; 0x5a; 0x6c; 0x7e; 0x90; 0x82; 0xb4; 0xa6; 0xd8; 0xca; 0xfc;
  0xee; 0x32; 0x20; 0x16; 0x04; 0x7a; 0x68; 0x5e; 0x4c; 0xa2; 0xb0; 0x86; 0x94; 0xea; 0xf8;
  0xce; 0xdc; 0x64; 0x76; 0x40; 0x52; 0x2c; 0x3e; 0x08; 0x1a; 0xf4; 0xe6; 0xd0; 0xc2; 0xbc;
  0xae; 0x98; 0x8a; 0x56; 0x44; 0x72; 0x60; 0x1e; 0x0c; 0x3a; 0x28; 0xc6; 0xd4; 0xe2; 0xf0;
  0x8e; 0x9c; 0xaa; 0xb8; 0xc8; 0xda; 0xec; 0xfe; 0x80; 0x92; 0xa4; 0xb6; 0x58; 0x4a; 0x7c;
  0x6e; 0x10; 0x02; 0x34; 0x26; 0xfa; 0xe8; 0xde; 0xcc; 0xb2; 0xa0; 0x96; 0x84; 0x6a; 0x78;
  0x4e; 0x5c; 0x22; 0x30; 0x06; 0x14; 0xac; 0xbe; 0x88; 0x9a; 0xe4; 0xf6; 0xc0; 0xd2; 0x3c;
  0x2e; 0x18; 0x0a; 0x74; 0x66; 0x50; 0x42; 0x9e; 0x8c; 0xba; 0xa8; 0xd6; 0xc4; 0xf2; 0xe0;
  0x0e; 0x1c; 0x2a; 0x38; 0x46; 0x54; 0x62; 0x70; 0x82; 0x90; 0xa6; 0xb4; 0xca; 0xd8; 0xee;
  0xfc; 0x12; 0x00; 0x36; 0x24; 0x5a; 0x48; 0x7e; 0x6c; 0xb0; 0xa2; 0x94; 0x86; 0xf8; 0xea;
  0xdc; 0xce; 0x20; 0x32; 0x04; 0x16; 0x68; 0x7a; 0x4c; 0x5e; 0xe6; 0xf4; 0xc2; 0xd0; 0xae;
  0xbc; 0x8a; 0x98; 0x76; 0x64; 0x52; 0x40; 0x3e; 0x2c; 0x1a; 0x08; 0xd4; 0xc6; 0xf0; 0xe2;
  0x9c; 0x8e; 0xb8; 0xaa; 0x44; 0x56; 0x60; 0x72; 0x0c; 0x1e; 0x28; 0x3a; 0x4a; 0x58; 0x6e;
  0x7c; 0x02; 0x10; 0x26; 0x34; 0xda; 0xc8; 0xfe; 0xec; 0x92; 0x80; 0xb6; 0xa4; 0x78; 0x6a;
  0x5c; 0x4e; 0x30; 0x22; 0x14; 0x06; 0xe8; 0xfa; 0xcc; 0xde; 0xa0; 0xb2; 0x84; 0x96; 0x2e;
  0x3c; 0x0a; 0x18; 0x66; 0x74; 0x42; 0x50; 0xbe; 0xac; 0x9a; 0x88; 0xf6; 0xe4; 0xd2; 0xc0;
  0x1c; 0x0e; 0x38; 0x2a; 0x54; 0x46; 0x70; 0x62; 0x8c; 0x9e; 0xa8; 0xba; 0xc4; 0xd6; 0xe0;
  0xf2].

Definition crcStep (crc b : Z) : Z := crc7tab.[crc .^ b].

(** The CRC of the first [sz] bytes of [data]. *)
Definition vsdCRC7 (data : list Z) (sz : Z) : Z :=
  u8 (fold_left crcStep (take (Z.to_nat sz) data) 0 + 1).

(** ** The card-specific data register *)

(** The loop that halves the size until it fits C_SIZE. *)
Fixpoint csdFit (fuel : nat) (n shift : Z) : option (Z * Z) :=
  match fuel with
  | O => None
  | S fuel =>
      if (0x1000 <? n) || (shift <? 2) then
        let n := if tst n 1 then u32 (n + 1) else n in
        csdFit fuel (n .>> 1) (shift + 1)
      else Some (n, shift)
  end.

(** More than any 32-bit size needs. *)
Definition csdFuel : nat := 40.

(** The register of a size [n] in units of [2^nShift] sectors. *)
Definition csdV1 (n nShift : Z) : list Z :=
  let cSize := u32 (n - 1) in
  let nShift := nShift - 2 in
  let cSizeMult := if 7 <? nShift then 7 else nShift in
  let nShift := nShift - cSizeMult in
  let cSize := if 1 <? nShift then 0 else cSize in
  let blLen := nShift + 9 in
  let sectorSize := 31 in
  u8 <$> [0x00; 0x0e; 0x00; 0x5A; 0x5B; blLen .| 0x50; (cSize .>> 10) .| 0x80; cSize .>> 2;
          (cSize .<< 6) .| 0x2D; (cSizeMult .>> 1) .| 0xD8; (sectorSize .>> 1) + (cSizeMult .<< 7);
          sectorSize .<< 7; (blLen .>> 2) .| 8; blLen .<< 6; 0x00].

Definition vsdGetCsdV1 (n : Z) : outcome (list Z) :=
  match csdFit csdFuel n 0 with
  | None => Hang
  | Some (n, nShift) => Ret (csdV1 n nShift)
  end.

Definition vsdGetCsdV2 (n : Z) : list Z :=
  let cSize := u32 (u32 (n + 1023) / 1024 - 1) in
  let writeBlLen := 9 in
  let sectorSize := 31 in
  u8 <$> [0x40; 0x0e; 0x00; 0x5A; 0x5B; 0x59; 0x00; cSize .>> 16; cSize .>> 8; cSize;
          sectorSize .>> 1; sectorSize .<< 7; (writeBlLen .>> 2) .| 8; writeBlLen .<< 6; 0x00].

(** ** Commands *)
Section Operations.
Context {W : Type} `{!SectorStore W}.
Implicit Types vsd : VSD W.

Definition vsdIsCardBusy vsd : bool * VSD W :=
  if nz vsd.(busyCount) then (true, { vsd with busyCount ::= Z.pred }) else (false, vsd).

Definition vsdCardReset vsd : VSD W :=
  { vsd with expectedBlockSz := 0; expectDataToUs := false; acmdShift := false; rca := 0;
             reportAcmdNext := false; state := StateIdle; prevAcmd41Param := 0; initWaitLeft := 20 }.

Definition vsdReset vsd (n : Z) : VSD W :=
  vsdCardReset { vsd with nSec := n; hcCard := 4194304 <? n }.

Definition vsdInit (w : W) (n : Z) : VSD W :=
  vsdReset (mkVSD w 0 StateIdle 0 0 0 false false false false 0 0 (replicate 512 0) 0 0 false false
              false 0) n.

Definition vsdCalcR1resp vsd (r1bicBits r1orrBits : Z) : Z * VSD W :=
  let r1 := 0x0100 .| (stateNo vsd.(state) .<< 9) in
  let r1 := if vsd.(acmdShift) || vsd.(reportAcmdNext) then r1 .| (1 .<< 5) else r1 in
  ((r1 .&~ r1bicBits) .| r1orrBits, { vsd with reportAcmdNext := false }).

(** Bytes [off..] of a reply. *)
Definition setReply (reply : list Z) (off : Z) (bs : list Z) : list Z := poke reply off (u8 <$> bs).

(** The type of a reply, its bytes, and the card. *)
Definition answer : Type := SdReplyType * list Z * VSD W.

Definition vsdPrepareR6resp vsd (cmd : Z) (reply : list Z) : answer :=
  let '(r1, vsd) := vsdCalcR1resp vsd 0 0 in
  (SdReply48bits,
   setReply reply 0 [cmd; vsd.(rca) .>> 8; vsd.(rca);
     (((r1 .>> 22) .& 3) .<< 6) .| (((r1 .>> 19) .& 1) .<< 5) .| ((r1 .>> 8) .& 0x1f); r1],
   vsd).

Definition vsdPrepareR1resp vsd (cmd : Z) (reply : list Z) (r1bicBits r1orrBits : Z) : answer :=
  let '(r1, vsd) := vsdCalcR1resp vsd r1bicBits r1orrBits in
  (SdReply48bits, setReply reply 0 [cmd; r1 .>> 24; r1 .>> 16; r1 .>> 8; r1], vsd).

Definition vsdRejectCmd vsd (cmd : Z) (reply : list Z) (why : RejectReason) : answer :=
  match why with
  | InvalidInCurrentState => vsdPrepareR1resp vsd cmd reply 0 (1 .<< 22)
  | UnacceptableParam => vsdPrepareR1resp vsd cmd reply 0 (1 .<< 31)
  | UnknownCommand => (SdReplyNone, reply, vsd)
  end.

Definition vsdGetCsd vsd : outcome (list Z) :=
  if vsd.(hcCard) then Ret (vsdGetCsdV2 vsd.(nSec)) else vsdGetCsdV1 vsd.(nSec).

Definition cidReply (cmd : Z) (reply : list Z) : list Z :=
  setReply reply 0 [cmd; 0x44 (* D *); 0x47; 0x72; 0x20; 0x76; 0x53; 0x44; 0x20; 32; 0x00; 0x00;
                    0x4A; 0xEC; 3; 20].

(** Commands 17 and 18, 24 and 25: a transfer is set up, in state [next]. *)
Definition startTransfer vsd (cmd param : Z) (reply : list Z) (wasAcmd continuous : bool) (next : State)
  : answer :=
  if wasAcmd then vsdRejectCmd vsd cmd reply InvalidInCurrentState
  else if bool_decide (vsd.(state) = StateTran) then
    if negb vsd.(hcCard) && nz (param mod 512) then vsdRejectCmd vsd cmd reply UnacceptableParam
    else
      let param := if vsd.(hcCard) then param else param / 512 in
      vsdPrepareR1resp { vsd with curSec := param; state := next; bufIsData := true;
                                  bufContinuous := continuous; curBufLen := 512 } cmd reply 0 0
  else vsdRejectCmd vsd cmd reply InvalidInCurrentState.

(** ACMD41; the card after an inquiry or an initialisation attempt. *)
Definition sendOpCond vsd (cmd param : Z) (reply : list Z) : answer :=
  let reply := setReply reply 0 [0x3f; 0x00; 0xff; 0x80; 0x00; 0xff] in
  let vsd := { vsd with reportAcmdNext := true } in
  if negb (tst param 0x00FFFFFF) then
    if nz vsd.(prevAcmd41Param) then vsdRejectCmd vsd cmd reply UnacceptableParam
    else (SdReply48bits, reply, vsd)
  else if nz vsd.(prevAcmd41Param) && negb (vsd.(prevAcmd41Param) =? param)
  then vsdRejectCmd vsd cmd reply UnacceptableParam
  else
    let vsd := if nz vsd.(prevAcmd41Param) then vsd else { vsd with prevAcmd41Param := param } in
    if nz vsd.(initWaitLeft) then (SdReply48bits, reply, { vsd with initWaitLeft ::= Z.pred })
    else if negb (tst param 0x40000000) && vsd.(hcCard) then (SdReply48bits, reply, vsd)
    else
      (SdReply48bits,
       reply.[1 <- (reply.[1] .| (if vsd.(hcCard) then 0x40 else 0)) .| 0x80],
       { vsd with state := StateReady }).

(** CMD7: select or deselect the card. *)
Definition selectCard vsd (cmd param : Z) (reply : list Z) : answer :=
  let addressed := vsd.(rca) =? (param .>> 16) in
  if bool_decide (vsd.(state) = StateStby) && addressed then
    let '(_, reply, vsd) := vsdPrepareR1resp { vsd with state := StateTran } cmd reply 0 0 in
    (SdReply48bitsAndBusy, reply, vsd)
  else if (match vsd.(state) with StateStby | StateTran | StateData | StatePrg => true | _ => false end)
          && negb addressed then
    vsdPrepareR1resp { vsd with state := StateStby } cmd reply 0 0
  else vsdRejectCmd vsd cmd reply InvalidInCurrentState.

(** ACMD51: the SCR register becomes the data to read. *)
Definition sendScr vsd (cmd : Z) (reply : list Z) : answer :=
  let scr := [if vsd.(hcCard) then 0x02 else 0x01; 0x05; 0x00; 0x03; 0; 0; 0; 0] in
  vsdPrepareR1resp { vsd with curBuf ::= (fun b => poke b 0 scr); bufIsData := false; curBufLen := 8;
                              state := StateData } cmd reply 0 0.

(** One command without the checksum; the boolean asks for it. *)
Definition vsdExecute vsd (cmd param : Z) (reply : list Z) (wasAcmd : bool) : outcome (answer * bool) :=
  let crc (a : answer) : outcome (answer * bool) := Ret (a, true) in
  let reject why := crc (vsdRejectCmd vsd cmd reply why) in
  let ok vsd := crc (vsdPrepareR1resp vsd cmd reply 0 0) in
  let inState (s : State) := bool_decide (vsd.(state) = s) in
  match cmd with
  | 0 => crc (SdReplyNone, reply, vsdCardReset vsd)
  | 2 => if inState StateReady then crc (SdReply136bits, cidReply cmd reply, { vsd with state := StateIdent })
         else reject InvalidInCurrentState
  | 10 => if inState StateStby then crc (SdReply136bits, cidReply cmd reply, vsd)
          else reject InvalidInCurrentState
  | 3 => if inState StateIdent || inState StateStby
         then crc (vsdPrepareR6resp { vsd with state := StateStby; rca := 3 } cmd reply)
         else reject InvalidInCurrentState
  | 6 => if negb (inState StateTran) then reject InvalidInCurrentState
         else if wasAcmd then ok vsd else Abort (* "CMD6 not implemented" *)
  | 7 => crc (selectCard vsd cmd param reply)
  | 8 => if negb (inState StateIdle) then reject InvalidInCurrentState
         else if negb (param .& 0xffffff00 =? 0x100) then reject UnacceptableParam
         else crc (SdReply48bits, setReply reply 0 [cmd; 0; 0; 1; param .& 0xff], vsd)
  | 9 => if negb (inState StateStby) then reject InvalidInCurrentState
         else csd ← vsdGetCsd vsd;
              crc (SdReply136bits, poke (setReply reply 0 [cmd]) 1 csd, vsd)
  | 12 => if negb (inState StateData) && negb (inState StateRcv) then reject InvalidInCurrentState
          else ok { vsd with state := StateTran }
  | 13 => if wasAcmd then reject InvalidInCurrentState
          else if inState StateIdle || inState StateReady || inState StateIdent then reject InvalidInCurrentState
          else ok vsd
  | 16 => if wasAcmd || negb (inState StateTran) then reject InvalidInCurrentState
          else if negb (param =? 512) then reject UnacceptableParam else ok vsd
  | 17 => crc (startTransfer { vsd with haveExpectedNumBlocks := false } cmd param reply wasAcmd false
                 StateData)
  | 18 => crc (startTransfer vsd cmd param reply wasAcmd true StateData)
  | 23 => if negb (inState StateTran) then reject InvalidInCurrentState
          else if wasAcmd then ok vsd
          else ok { vsd with haveExpectedNumBlocks := nz param; numBlocksExpected := param }
  | 24 => crc (startTransfer { vsd with haveExpectedNumBlocks := false } cmd param reply wasAcmd false
                 StateRcv)
  | 25 => crc (startTransfer vsd cmd param reply wasAcmd true StateRcv)
  | 41 => if negb wasAcmd then reject UnknownCommand
          else if negb (inState StateIdle) then reject InvalidInCurrentState
          else Ret (sendOpCond vsd cmd param reply, false)
  | 51 => if negb wasAcmd then reject UnknownCommand
          else if negb (inState StateTran) then reject InvalidInCurrentState
          else crc (sendScr vsd cmd reply)
  | 55 => if inState StateReady || inState StateIdent then reject InvalidInCurrentState
          else if negb ((param .>> 16) =? vsd.(rca)) then reject UnacceptableParam
          else ok { vsd with acmdShift := true }
  | _ => reject UnknownCommand
  end.

(** The length of a reply without its checksum. *)
Definition replyLen (t : SdReplyType) : Z :=
  match t with SdReplyNone => 0 | SdReply48bits | SdReply48bitsAndBusy => 5 | SdReply136bits => 16 end.

Definition vsdCommand vsd (cmd param : Z) (replyOut : list Z) : outcome answer :=
  let wasAcmd := vsd.(acmdShift) in
  let vsd := { vsd with acmdShift := false } in
  '(r, needsCrc) ← vsdExecute vsd cmd param replyOut.[0 <- cmd] wasAcmd;
  let '(t, reply, vsd) := r in
  let n := replyLen t in
  let reply := if negb needsCrc || (n =? 0) then reply else reply.[n <- vsdCRC7 reply n] in
  Ret (t, reply, vsd).

(** ** Data blocks *)

(** What a block transfer does to the sequence it belongs to. *)
Definition afterBlock vsd : VSD W :=
  let vsd :=
    if vsd.(haveExpectedNumBlocks) then
      let n := u32 (vsd.(numBlocksExpected) - 1) in
      let vsd := { vsd with numBlocksExpected := n } in
      if nz n then vsd else { vsd with bufContinuous := false }
    else vsd in
  if vsd.(bufContinuous) then { vsd with curSec ::= fun s => u32 (s + 1) }
  else { vsd with state := StateTran }.

Definition vsdDataXferBlockToCard vsd (bytes : list Z) (blockSz : Z) : outcome (SdDataReplyType * VSD W) :=
  if negb (bool_decide (vsd.(state) = StateRcv)) then Ret (SdDataErrWrongCurrentState, vsd) else
  if negb (blockSz =? vsd.(curBufLen)) then Ret (SdDataErrWrongBlockSize, vsd) else
  if vsd.(bufIsData) then
    '(ok, w) ← sec_write vsd.(store) vsd.(curSec) (take 512 bytes);
    let vsd := { vsd with store := w } in
    if negb ok then Ret (SdDataErrBackingStore, vsd) else Ret (SdDataOk, afterBlock vsd)
  else Ret (SdDataErrWrongCurrentState, vsd).

(** The bytes the C function stores at the start of [data]. *)
Definition vsdDataXferBlockFromCard vsd (blockSz : Z) : outcome (SdDataReplyType * list Z * VSD W) :=
  if negb (bool_decide (vsd.(state) = StateData)) then Ret (SdDataErrWrongCurrentState, [], vsd) else
  if negb (blockSz =? vsd.(curBufLen)) then Ret (SdDataErrWrongBlockSize, [], vsd) else
  if vsd.(bufIsData) then
    '(ok, bytes) ← sec_read vsd.(store) vsd.(curSec);
    if negb ok then Ret (SdDataErrBackingStore, [], vsd) else Ret (SdDataOk, bytes, afterBlock vsd)
  else Ret (SdDataOk, take (Z.to_nat blockSz) vsd.(curBuf), { vsd with state := StateTran }).

End Operations.

(** ** The checksum is the CRC of the specification *)

(** One bit through the shift register of x^7 + x^3 + 1. *)
Definition crc7Bit (r : Z) (b : bool) : Z :=
  Z.lxor ((r .<< 1) .& 0x7f) (if xorb (Z.testbit r 6) b then 9 else 0).

(** The bits of a byte, the highest first. *)
Definition bitsOf (b : Z) : list bool := (fun k => Z.testbit b (7 - Z.of_nat k)) <$> seq 0 8.

Definition crc7 (data : list Z) : Z := fold_left crc7Bit (data ≫= bitsOf) 0.

Definition crcStepOk (r b : Z) : bool := crcStep (2 * r) b =? 2 * fold_left crc7Bit (bitsOf b) r.

Lemma crcStep_all :
  forallb (fun r => forallb (fun b => crcStepOk (Z.of_nat r) (Z.of_nat b)) (seq 0 256)) (seq 0 128) = true.
Proof. vm_compute. reflexivity. Qed.

Lemma crcStep_serial r b :
  is_u 7 r -> is_u 8 b -> crcStep (2 * r) b = 2 * fold_left crc7Bit (bitsOf b) r.
Proof.
  intros Hr Hb. apply Z.eqb_eq. exact (forallb_grid crcStepOk 128 256 crcStep_all r b Hr Hb).
Qed.

Lemma crc7Bit_u7 r b : is_u 7 (crc7Bit r b).
Proof.
  unfold crc7Bit. apply is_u_lxor; [|by destruct (xorb _ _)|done].
  change 0x7f with (Z.ones 7). rewrite Z.land_ones by done. by apply wrap_is_u.
Qed.

Lemma crc7_fold_u7 l r : is_u 7 r -> is_u 7 (fold_left crc7Bit l r).
Proof. revert r. induction l as [|b l IH]; intros r Hr; [done|]. cbn. apply IH, crc7Bit_u7. Qed.

Lemma crcFold_serial data : forall r,
  is_u 7 r -> Forall byte_ok data ->
  fold_left crcStep data (2 * r) = 2 * fold_left crc7Bit (data ≫= bitsOf) r.
Proof.
  induction data as [|b data IH]; intros r Hr Hb; [done|]. apply Forall_cons in Hb as [Hb Hd].
  cbn [fold_left mbind list_bind]. rewrite fold_left_app, crcStep_serial by done.
  apply IH; [by apply crc7_fold_u7|done].
Qed.

Lemma vsdCRC7_crc7 data sz : Forall byte_ok data -> vsdCRC7 data sz = 2 * crc7 (take (Z.to_nat sz) data) + 1.
Proof.
  intros Hb. unfold vsdCRC7, crc7. rewrite (crcFold_serial _ 0) by (done || by apply Forall_take).
  pose proof (crc7_fold_u7 (take (Z.to_nat sz) data ≫= bitsOf) 0 ltac:(done)) as [H0 H1].
  apply wrap_small. split; [lia|]. change (2 ^ 7) with 128 in H1. change (2 ^ 8) with 256. lia.
Qed.

(** The table-driven checksum of every message is the 7-bit CRC computed
    bit by bit with the shift register of the SD specification, shifted left,
    with the end bit set. *)
Theorem crc7_table_is_serial (data : list Z) (sz : Z) (Hb : Forall byte_ok data) :
  vsdCRC7 data sz = 2 * crc7 (take (Z.to_nat sz) data) + 1.
Proof. by apply vsdCRC7_crc7. Qed.

(** CMD0 with argument 0, the example of the specification: 0x95. *)
Lemma crc7_table_is_serial_witness : vsdCRC7 [0x40; 0; 0; 0; 0] 5 = 2 * crc7 [0x40; 0; 0; 0; 0] + 1 /\
  vsdCRC7 [0x40; 0; 0; 0; 0] 5 = 0x95.
Proof.
  split; [apply (crc7_table_is_serial [0x40; 0; 0; 0; 0] 5); forall_list; is_u_lit|].
  vm_compute. reflexivity.
Defined.

(** ** The capacity a host computes from the card-specific data *)

(** The sectors of a card, as the SD specification decodes the register:
    C_SIZE is bits 73..62, C_SIZE_MULT bits 49..47 and READ_BL_LEN bits 83..80
    in version 1, C_SIZE is bits 69..48 in version 2. *)
Definition csdSectors (csd : list Z) : Z :=
  if csd.[0] .>> 6 =? 0 then
    let cSize := (csd.[6] .& 3) * 1024 + csd.[7] * 4 + (csd.[8] .>> 6) in
    let mult := (csd.[9] .& 3) * 2 + (csd.[10] .>> 7) in
    (cSize + 1) * 2 ^ (mult + 2) * 2 ^ (csd.[5] .& 15) / 512
  else (((csd.[7] .& 63) .<< 16) + (csd.[8] .<< 8) + csd.[9] + 1) * 1024.

Lemma csdFit_spec (j fuel : nat) : forall n s,
  (j < fuel)%nat -> 0 <= n <= 2 ^ (12 + Z.of_nat j) -> n < 2 ^ 32 - 1 -> 0 <= s -> 2 <= s + Z.of_nat j ->
  exists m k, csdFit fuel n s = Some (m, k) /\ s <= k <= s + Z.of_nat j /\ 2 <= k /\
    (0 < n -> 1 <= m) /\ m <= 4096 /\ n <= m * 2 ^ (k - s) < n + 2 ^ (k - s).
Proof.
  revert fuel. induction j as [|j IH]; intros [|fuel] n s Hf Hn Hw Hs Hj; try lia; cbn [csdFit].
  - change (2 ^ (12 + Z.of_nat 0)) with 4096 in Hn.
    rewrite (proj2 (Z.ltb_ge _ _)), (proj2 (Z.ltb_ge _ _)) by lia. cbn [orb].
    exists n, s. rewrite Z.sub_diag. change (2 ^ 0) with 1. split; [done|lia].
  - destruct ((0x1000 <? n) || (s <? 2)) eqn:E.
    + set (n' := if tst n 1 then u32 (n + 1) else n).
      assert (n' = n + n mod 2) as En'.
      { unfold n'. change 1 with (2 ^ 0) at 1. rewrite tst_bit by done.
        rewrite Z.bit0_odd. pose proof (Zmod_odd n) as Eo. destruct (Z.odd n); rewrite Eo; [|lia].
        apply wrap_small. split; lia. }
      rewrite En', shiftr_div by done. change (2 ^ 1) with 2.
      assert (0 <= n mod 2 < 2) as Hm by (apply Z.mod_pos_bound; lia).
      pose proof (Z.div_mod n 2 ltac:(lia)) as Hd.
      assert ((n + n mod 2) / 2 = n / 2 + n mod 2) as -> by zdiv_lia.
      replace (12 + Z.of_nat (S j)) with (Z.succ (12 + Z.of_nat j)) in Hn by lia.
      rewrite Z.pow_succ_r in Hn by lia.
      destruct (IH fuel (n / 2 + n mod 2) (s + 1)) as (m & k & Ef & Hk & H2 & Hp & Hm4 & Hc);
        [lia| |lia|lia|lia|].
      { split; [lia|]. assert (2 ^ (12 + Z.of_nat j) = 2 * 2 ^ (11 + Z.of_nat j)) as Ep.
        { replace (12 + Z.of_nat j) with (Z.succ (11 + Z.of_nat j)) by lia. apply Z.pow_succ_r. lia. }
        lia. }
      exists m, k. split; [done|]. split; [lia|]. split; [done|]. split; [lia|]. split; [done|].
      replace (k - s) with (Z.succ (k - (s + 1))) by lia. rewrite Z.pow_succ_r by lia. lia.
    + apply orb_false_iff in E as [E1%Z.ltb_ge E2%Z.ltb_ge].
      exists n, s. rewrite Z.sub_diag. change (2 ^ 0) with 1. split; [done|lia].
Qed.

Lemma csdFit_card n :
  0 <= n <= 2 ^ 22 -> exists m k, csdFit csdFuel n 0 = Some (m, k) /\ 2 <= k <= 10 /\
    (0 < n -> 1 <= m) /\ m <= 4096 /\ n <= m * 2 ^ k < n + 2 ^ k.
Proof.
  intros Hn. destruct (csdFit_spec 10 csdFuel n 0) as (m & k & E & Hk & H2 & Hp & H4 & Hc);
    [unfold csdFuel; lia|done|lia|lia|lia|].
  rewrite Z.sub_0_r in Hc. exists m, k. split; [done|]. split; [lia|]. done.
Qed.

(** The two bits of C_SIZE in byte 8. *)
Lemma csdV1_byte8 c : u8 ((c .<< 6) .| 0x2D) .>> 6 = c mod 4.
Proof.
  change (c mod 4) with (wrap 2 c). bits_ext i Hi. rewrite Z.add_simpl_r.
  destruct (Z.ltb_spec i 2), (Z.ltb_spec (i + 6) 8); try lia; cbn [andb]; try done.
  replace (Z.testbit 45 (i + 6)) with false; [by rewrite orb_false_r|].
  assert (i = 0 \/ i = 1) as [-> | ->] by lia; reflexivity.
Qed.

Lemma csdV1_byte6 x : 0 <= x < 4 -> u8 (x .| 0x80) .& 3 = x.
Proof. intros Hx. assert (x = 0 \/ x = 1 \/ x = 2 \/ x = 3) as [-> |[-> |[-> | ->]]] by lia; reflexivity. Qed.

Lemma csdV1_decode m k : 1 <= m <= 4096 -> 2 <= k <= 10 -> csdSectors (csdV1 m k) = m * 2 ^ k.
Proof.
  intros Hm Hk. set (c := u32 (m - 1)).
  assert (c = m - 1) as Ec by (apply wrap_small; split; lia).
  assert (csdSectors (csdV1 m k) = ((u8 ((c .>> 10) .| 0x80) .& 3) * 1024 + u8 (c .>> 2) * 4 +
    (u8 ((c .<< 6) .| 0x2D) .>> 6) + 1) * 2 ^ k) as ->.
  { assert (k = 2 \/ k = 3 \/ k = 4 \/ k = 5 \/ k = 6 \/ k = 7 \/ k = 8 \/ k = 9 \/ k = 10) as Hc by lia.
    unfold csdSectors, csdV1. fold c.
    destruct Hc as [-> |[-> |[-> |[-> |[-> |[-> |[-> |[-> | ->]]]]]]]];
      match goal with |- _ = ?x * 2 ^ ?k =>
        let a := eval vm_compute in (2 ^ Z.min k 9) in
        let b := eval vm_compute in (if k =? 10 then 2 ^ 10 else 2 ^ 9) in
        transitivity (x * a * b / 512);
          [reflexivity|symmetry; apply Z.div_unique_exact; [done|lia]]
      end. }
  rewrite csdV1_byte8, !shiftr_div by done. change (2 ^ 10) with 1024. change (2 ^ 2) with 4.
  rewrite csdV1_byte6 by zdiv_lia. unfold wrap. change (2 ^ 8) with 256. f_equal. zdiv_lia.
Qed.

Lemma csdV2_decode n :
  1 <= n <= 2 ^ 32 - 1024 -> csdSectors (vsdGetCsdV2 n) = (n + 1023) / 1024 * 1024.
Proof.
  intros Hn. unfold vsdGetCsdV2. rewrite (wrap_small 32 (n + 1023)) by (split; lia).
  assert (1 <= (n + 1023) / 1024 < 2 ^ 22) as Hc by zdiv_lia.
  rewrite wrap_small by (split; lia). set (c := (n + 1023) / 1024 - 1).
  transitivity ((((u8 (c .>> 16) .& 63) .<< 16) + (u8 (c .>> 8) .<< 8) + u8 c + 1) * 1024); [reflexivity|].
  change 63 with (Z.ones 6). rewrite Z.land_ones, !shiftr_div, !Z.shiftl_mul_pow2 by done. unfold wrap.
  change (2 ^ 16) with 65536. change (2 ^ 8) with 256. change (2 ^ 6) with 64. change (2 ^ 22) with 4194304 in *.
  assert (0 <= c < 4194304) as Hcc by (unfold c; lia). replace ((n + 1023) / 1024) with (c + 1) by (unfold c; lia).
  f_equal. zdiv_lia.
Qed.

(** The capacity that a host computes from the CSD register of a card of
    [nSec] sectors is at least [nSec] and less than one megabyte above it, in
    the standard-capacity and in the high-capacity encoding; the loop that
    computes the standard one ends. *)
Theorem csd_capacity {W} `{!SectorStore W} (w : W) (n : Z) (Hn : 1 <= n <= 2 ^ 32 - 1024) :
  exists csd, vsdGetCsd (vsdInit w n) = Ret csd /\ length csd = 15%nat /\
    n <= csdSectors csd < n + 1024.
Proof.
  unfold vsdGetCsd. change (hcCard (vsdInit w n)) with (4194304 <? n). change (nSec (vsdInit w n)) with n.
  destruct (Z.ltb_spec 4194304 n) as [Hhc|Hsc].
  - eexists. split; [reflexivity|]. split; [done|]. rewrite csdV2_decode by done. zdiv_lia.
  - unfold vsdGetCsdV1. destruct (csdFit_card n) as (m & k & E & Hk & Hm & H4 & Hc); [lia|].
    rewrite E. eexists. split; [reflexivity|]. split; [done|].
    rewrite csdV1_decode by lia. assert (2 ^ k <= 2 ^ 10) by (apply Z.pow_le_mono_r; lia). lia.
Qed.

Lemma csd_capacity_witness :
  exists csd, vsdGetCsd (vsdInit (sdCardInitialize 40) 4000000) = Ret csd /\ csdSectors csd = 4000768.
Proof.
  destruct (csd_capacity (sdCardInitialize 40) 4000000) as (csd & E & Hl & Hc); [lia|].
  exists csd. split; [exact E|]. clear Hl Hc. revert E. vm_compute. by intros [= <-].
Defined.
