(* ===== verification/VsdHost.v ===== *)
(** * What a host can rely on (vSD.c over sdcard.c)

    The well-formed states of the card and the type of every answer; the
    initialisation handshake; transfers of several blocks to and from the
    storage. *)

From S2P Require Import Prelude Bytes SdCard Vsd.

(** ** Well-formed cards and replies *)

Record vsd_wf {W} (v : VSD W) : Prop := {
  vw_nSec : is_u 32 v.(nSec);
  vw_hc : v.(hcCard) = (4194304 <? v.(nSec));
  vw_rca : is_u 16 v.(rca);
  vw_wait : 0 <= v.(initWaitLeft) <= 20;
  vw_prev : is_u 32 v.(prevAcmd41Param);
  vw_sec : is_u 32 v.(curSec);
  vw_num : is_u 32 v.(numBlocksExpected);
  vw_buf : length v.(curBuf) = 512%nat /\ Forall byte_ok v.(curBuf);
  vw_rcv : v.(state) = StateRcv -> v.(bufIsData) = true /\ v.(curBufLen) = 512;
  vw_data : v.(state) = StateData -> v.(curBufLen) = if v.(bufIsData) then 512 else 8
}.

(** The reply buffer of the host. *)
Definition reply_ok (reply : list Z) : Prop := length reply = 17%nat /\ Forall byte_ok reply.

Section Wf.
Context {W : Type} `{!SectorStore W}.
Implicit Types v : VSD W.

Definition answer_ok (a : answer (W := W)) : Prop := let '(_, reply, v) := a in reply_ok reply /\ vsd_wf v.

Lemma reply_ok_set reply off bs : reply_ok reply -> reply_ok (setReply reply off bs).
Proof.
  intros [Hl Hb]. split; [by unfold setReply; rewrite length_poke|]. apply poke_bytes; [done|].
  apply Forall_fmap, Forall_forall. intros b _. by apply wrap_is_u.
Qed.

Lemma reply_ok_aset reply i b : reply_ok reply -> byte_ok b -> reply_ok (reply.[i <- b]).
Proof. intros [Hl Hb] Hx. split; [by rewrite length_aset|by apply Forall_aset]. Qed.

Lemma prepareR1_ok v cmd reply b o : vsd_wf v -> reply_ok reply -> answer_ok (vsdPrepareR1resp v cmd reply b o).
Proof.
  intros Hv Hr. split; [by apply reply_ok_set|]. destruct v, Hv. cbn in *. by split.
Qed.

Lemma prepareR6_ok v cmd reply : vsd_wf v -> reply_ok reply -> answer_ok (vsdPrepareR6resp v cmd reply).
Proof.
  intros Hv Hr. split; [by apply reply_ok_set|]. destruct v, Hv. cbn in *. by split.
Qed.

Lemma reject_ok v cmd reply why : vsd_wf v -> reply_ok reply -> answer_ok (vsdRejectCmd v cmd reply why).
Proof. intros Hv Hr. destruct why; [by apply prepareR1_ok..|by split]. Qed.

Lemma cardReset_wf v : vsd_wf v -> vsd_wf (vsdCardReset v).
Proof. intros Hv. destruct v, Hv. cbn in *. by split. Qed.

(** Moves to a state that has no transfer keep the card well-formed. *)
Lemma wf_state v s : s <> StateRcv -> s <> StateData -> vsd_wf v -> vsd_wf { v with state := s }.
Proof. intros H1 H2 Hv. destruct v, Hv. cbn in *. by split. Qed.

Lemma wf_acmd v b : vsd_wf v -> vsd_wf { v with acmdShift := b }.
Proof. intros Hv. destruct v, Hv. cbn in *. by split. Qed.

Lemma wf_expect v b n : vsd_wf v -> is_u 32 n -> vsd_wf { v with haveExpectedNumBlocks := b; numBlocksExpected := n }.
Proof. intros Hv Hn. destruct v, Hv. cbn in *. by split. Qed.

Lemma wf_noExpect v b : vsd_wf v -> vsd_wf { v with haveExpectedNumBlocks := b }.
Proof. intros Hv. destruct v, Hv. cbn in *. by split. Qed.

Lemma wf_rca v : vsd_wf v -> vsd_wf { v with state := StateStby; rca := 3 }.
Proof. intros Hv. destruct v, Hv. cbn in *. by split; try is_u_lit. Qed.

Lemma startTransfer_ok v cmd param reply a c s :
  s = StateRcv \/ s = StateData -> vsd_wf v -> reply_ok reply -> is_u 32 param ->
  answer_ok (startTransfer v cmd param reply a c s).
Proof.
  intros Hs Hv Hr Hp. unfold startTransfer. destruct a; [by apply reject_ok|].
  destruct (bool_decide _); [|by apply reject_ok]. destruct (_ && _); [by apply reject_ok|].
  apply prepareR1_ok; [|done].
  assert (is_u 32 (if v.(hcCard) then param else param / 512)) as Hs'
    by (destruct v.(hcCard); [done|destruct Hp; split; zdiv_lia]).
  revert Hs'. generalize (if v.(hcCard) then param else param / 512). intros sec Hsec.
  destruct v, Hv. cbn in *. by split.
Qed.

Lemma sendOpCond_ok v cmd param reply :
  vsd_wf v -> reply_ok reply -> is_u 32 param -> answer_ok (sendOpCond v cmd param reply).
Proof.
  intros Hv Hr Hp. unfold sendOpCond.
  assert (vsd_wf { v with reportAcmdNext := true }) as Hv' by (destruct v, Hv; cbn in *; by split).
  pose proof (reply_ok_set reply 0 [0x3f; 0x00; 0xff; 0x80; 0x00; 0xff] Hr) as Hr'.
  set (reply' := setReply _ _ _) in *. clearbody reply'. clear Hr.
  set (v' := { v with reportAcmdNext := true }) in *. clearbody v'. clear v Hv.
  destruct (negb (tst param _)); [destruct (nz _); [by apply reject_ok|by split]|].
  destruct (_ && _) eqn:E; [by apply reject_ok|].
  match goal with |- context [nz (initWaitLeft ?x)] => assert (vsd_wf x) as Hx; [|set (x' := x) in *] end.
  { destruct (nz _); [done|]. destruct v', Hv'. cbn in *. by split. }
  clear E. clearbody x'. destruct (nz x'.(initWaitLeft)) eqn:Ew.
  { split; [done|]. apply negb_true_iff, Z.eqb_neq in Ew. destruct x', Hx. cbn in *. split; cbn; try done. lia. }
  destruct (_ && _); [by split|]. split.
  - apply reply_ok_aset; [done|]. destruct Hr' as [Hl Hb]. apply is_u_lor; [|is_u_lit|done].
    apply is_u_lor; [|by destruct (hcCard _)|done]. apply Forall_aget; [done|lia].
  - by apply wf_state.
Qed.

Lemma selectCard_ok v cmd param reply :
  vsd_wf v -> reply_ok reply -> answer_ok (selectCard v cmd param reply).
Proof.
  intros Hv Hr. unfold selectCard. destruct (_ && _).
  - pose proof (prepareR1_ok { v with state := StateTran } cmd reply 0 0) as H.
    destruct (vsdPrepareR1resp _ _ _ _ _) as [[t r] w]. apply H; [by apply wf_state|done].
  - destruct (_ && _); [|by apply reject_ok]. apply prepareR1_ok; [by apply wf_state|done].
Qed.

Lemma sendScr_ok v cmd reply : vsd_wf v -> reply_ok reply -> answer_ok (sendScr v cmd reply).
Proof.
  intros Hv Hr. unfold sendScr. apply prepareR1_ok; [|done].
  set (scr := [if v.(hcCard) then 0x02 else 0x01; 0x05; 0x00; 0x03; 0; 0; 0; 0]).
  assert (Forall byte_ok scr) as Hs by (subst scr; destruct (hcCard v); forall_list; is_u_lit).
  clearbody scr. destruct v, Hv. cbn in *. split; cbn; try done.
  destruct vw_buf0. split; [by rewrite length_poke|by apply poke_bytes].
Qed.

Lemma vsdGetCsd_ok v : vsd_wf v -> exists csd, vsdGetCsd v = Ret csd /\ Forall byte_ok csd.
Proof.
  intros [Hn Hh]. unfold vsdGetCsd. rewrite Hh. destruct (Z.ltb_spec 4194304 v.(nSec)).
  - eexists. split; [done|]. apply Forall_fmap, Forall_forall. intros b _. by apply wrap_is_u.
  - unfold vsdGetCsdV1. destruct (csdFit_card v.(nSec)) as (m & k & E & _); [destruct Hn; lia|].
    rewrite E. eexists. split; [done|]. apply Forall_fmap, Forall_forall. intros b _. by apply wrap_is_u.
Qed.

(** CMD6 in the transfer state is not implemented. *)
Definition implemented v (cmd : Z) (wasAcmd : bool) : bool :=
  negb ((cmd =? 6) && bool_decide (v.(state) = StateTran) && negb wasAcmd).

(** Split the guards of a command and take its answer. *)
Local Ltac execute_one :=
  lazymatch goal with
  | |- exists r crc, (if ?b then _ else _) = _ /\ _ => destruct b eqn:?; execute_one
  | |- exists r crc, Ret (?x, ?y) = _ /\ _ =>
      exists x, y; split; [reflexivity|split; [|done]];
      lazymatch goal with
      | |- answer_ok (vsdRejectCmd _ _ _ _) => by apply reject_ok
      | |- answer_ok (vsdPrepareR1resp _ _ _ _ _) => apply prepareR1_ok; [|done]; try done
      | |- answer_ok (vsdPrepareR6resp _ _ _) => apply prepareR6_ok; [|done]
      | |- answer_ok (startTransfer _ _ _ _ _ _ _) => apply startTransfer_ok; auto
      | |- answer_ok (selectCard _ _ _ _) => by apply selectCard_ok
      | |- answer_ok (sendOpCond _ _ _ _) => by apply sendOpCond_ok
      | |- answer_ok (sendScr _ _ _) => by apply sendScr_ok
      | _ => idtac
      end
  | _ => idtac
  end.

Lemma vsdExecute_ok v cmd param reply a :
  vsd_wf v -> reply_ok reply -> is_u 32 param -> 0 <= cmd < 64 -> implemented v cmd a = true ->
  exists r crc, vsdExecute v cmd param reply a = Ret (r, crc) /\ answer_ok r /\ (cmd <> 41 -> crc = true).
Proof.
  intros Hv Hr Hp Hc Hi.
  revert cmd Hc Hi. apply (bit_index_cases (fun cmd => implemented v cmd a = true -> exists r crc,
    vsdExecute v cmd param reply a = Ret (r, crc) /\ answer_ok r /\ (cmd <> 41 -> crc = true)) 64).
  cbn [seq]. forall_list; intros Hi.
  all: cbv beta iota zeta delta [vsdExecute Z.of_nat Pos.of_succ_nat Pos.succ]; execute_one.
  - split; [done|by apply cardReset_wf].
  - split; [by apply reply_ok_set|by apply wf_state].
  - by apply wf_rca.
  - exfalso. revert Hi. unfold implemented. subst a. by destruct (bool_decide _).
  - split; [by apply reply_ok_set|done].
  - destruct (vsdGetCsd_ok v Hv) as (csd & -> & Hb). eexists _, _. split; [reflexivity|]. split; [|done].
    split; [|done]. destruct (reply_ok_set reply 0 [9] Hr) as [Hl Hs].
    split; [by rewrite length_poke|by apply poke_bytes].
  - split; [by apply reply_ok_set|done].
  - by apply wf_state.
  - by apply wf_noExpect.
  - by apply wf_expect.
  - by apply wf_noExpect.
  - by apply wf_acmd.
Qed.

(** C35. Every command of a well-formed card that it implements is answered,
    whatever its argument: the card stays well-formed, the 17-byte reply
    buffer keeps its length and holds bytes, and the reply, if there is one,
    ends in the CRC of the specification over its bytes - ACMD41, whose
    replies carry no checksum, excepted. *)
Theorem vsd_command_typed v (cmd param : Z) (reply : list Z)
    (Hv : vsd_wf v) (Hr : reply_ok reply) (Hp : is_u 32 param) (Hc : 0 <= cmd < 64)
    (Hi : implemented v cmd v.(acmdShift) = true) :
  exists t reply' v', vsdCommand v cmd param reply = Ret (t, reply', v') /\ vsd_wf v' /\ reply_ok reply' /\
    (cmd <> 41 -> t <> SdReplyNone ->
     reply'.[replyLen t] = 2 * crc7 (take (Z.to_nat (replyLen t)) reply') + 1).
Proof.
  destruct (vsdExecute_ok { v with acmdShift := false } cmd param (reply.[0 <- cmd]) v.(acmdShift))
    as ([[t r] v'] & crc & E & [Hr' Hv'] & Hcrc); [by apply wf_acmd| |done|done| |].
  { apply reply_ok_aset; [done|]. split; lia. }
  { by destruct v. }
  unfold vsdCommand. cbv zeta. rewrite E. cbn [mbind outcome_bind].
  eexists _, _, _. split; [reflexivity|]. split; [done|].
  assert (forall i b, byte_ok b -> reply_ok (r.[i <- b])) as Hset by (intros; by apply reply_ok_aset).
  assert (replyLen t = 0 /\ t = SdReplyNone \/ 0 < replyLen t < 17) as Ht by (destruct t; cbn; auto; lia).
  split.
  { destruct (_ || _); [done|]. apply Hset. by apply wrap_is_u. }
  intros H41 Hnone. rewrite Hcrc by done. cbn [negb orb].
  destruct Ht as [[_ ?]|Ht]; [done|]. rewrite (proj2 (Z.eqb_neq (replyLen t) 0)) by lia.
  destruct Hr' as [Hl Hb]. rewrite aget_aset_eq by lia. rewrite take_aset_ge by lia.
  by apply vsdCRC7_crc7.
Qed.

End Wf.

Lemma vsdInit_wf {W} `{!SectorStore W} (w : W) n : is_u 32 n -> vsd_wf (vsdInit w n).
Proof. intros Hn. split; try done. cbn [curBuf vsdInit vsdReset vsdCardReset]. split; [done|]. by apply Forall_replicate. Qed.

Lemma blank_reply_ok : reply_ok (replicate 17 0).
Proof. split; [done|]. apply Forall_replicate. is_u_lit. Qed.

(** CMD8, the interface condition, right after power-up. *)
Lemma vsd_command_typed_witness :
  exists t reply' v', vsdCommand (vsdInit demo_card 40) 8 0x1aa (replicate 17 0) = Ret (t, reply', v') /\
    vsd_wf v' /\ (t <> SdReplyNone -> reply'.[replyLen t] = 2 * crc7 (take (Z.to_nat (replyLen t)) reply') + 1).
Proof.
  destruct (vsd_command_typed (vsdInit demo_card 40) 8 0x1aa (replicate 17 0)) as (t & r & v' & E & Hv & _ & Hc).
  - apply vsdInit_wf. is_u_lit.
  - exact blank_reply_ok.
  - is_u_lit.
  - lia.
  - reflexivity.
  - exists t, r, v'. split; [exact E|]. split; [exact Hv|]. by apply Hc.
Defined.

(** ** Initialisation *)

(** A command whose reply the host does not look at. *)
Definition hostCmd {W} `{!SectorStore W} (cmd param : Z) (v : VSD W) : outcome (VSD W) :=
  '(_, v) ← vsdCommand v cmd param (replicate 17 0); Ret v.

(** CMD55 and ACMD41: one attempt to initialise with the host's voltages. *)
Definition hostOpCond {W} `{!SectorStore W} (ocr : Z) (v : VSD W) : outcome (VSD W) :=
  v ← hostCmd 55 0 v; hostCmd 41 ocr v.

(** Reset, [n] attempts, then identification and selection of the card. *)
Definition hostInit {W} `{!SectorStore W} (n : nat) (ocr : Z) (v : VSD W) : outcome (VSD W) :=
  v ← hostCmd 0 0 v;
  v ← iterM n (hostOpCond ocr) v;
  v ← hostCmd 2 0 v;
  v ← hostCmd 3 0 v;
  hostCmd 7 (3 .<< 16) v.

Section Init.
Context {W : Type} `{!SectorStore W}.
Implicit Types v : VSD W.

Lemma hostCmd_exec v cmd param v' :
  (forall reply, exists t r c,
     vsdExecute { v with acmdShift := false } cmd param reply v.(acmdShift) = Ret (t, r, v', c)) ->
  hostCmd cmd param v = Ret v'.
Proof.
  intros H. unfold hostCmd, vsdCommand. cbv zeta.
  destruct (H ((replicate 17 0).[0 <- cmd])) as (t & r & c & ->). reflexivity.
Qed.

(** Answered with 48 bits, leaving the card as [v']. *)
Definition answers48 v (cmd param : Z) v' : Prop :=
  forall reply, exists r c,
    vsdExecute { v with acmdShift := false } cmd param reply v.(acmdShift) = Ret (SdReply48bits, r, v', c).

Lemma answers48_hostCmd v cmd param v' : answers48 v cmd param v' -> hostCmd cmd param v = Ret v'.
Proof. intros H. apply hostCmd_exec. intros reply. eexists. apply H. Qed.

Lemma answers48_command v cmd param v' reply :
  answers48 v cmd param v' -> exists r, vsdCommand v cmd param reply = Ret (SdReply48bits, r, v').
Proof.
  intros H. unfold vsdCommand. cbv zeta. destruct (H (reply.[0 <- cmd])) as (r & c & ->).
  cbn [mbind outcome_bind]. by eexists.
Qed.

Lemma hostCmd_0 v : hostCmd 0 0 v = Ret (vsdCardReset v).
Proof. apply hostCmd_exec. intros reply. destruct v. by eexists _, _, _. Qed.

Lemma hostCmd_2 v :
  v.(state) = StateReady -> hostCmd 2 0 v = Ret { v with acmdShift := false; state := StateIdent }.
Proof. intros Hs. apply hostCmd_exec. intros reply. destruct v. cbn in Hs. subst. by eexists _, _, _. Qed.

Lemma hostCmd_3 v :
  v.(state) = StateIdent ->
  hostCmd 3 0 v = Ret { v with acmdShift := false; state := StateStby; rca := 3; reportAcmdNext := false }.
Proof. intros Hs. apply hostCmd_exec. intros reply. destruct v. cbn in Hs. subst. by eexists _, _, _. Qed.

Lemma hostCmd_7 v :
  v.(state) = StateStby -> v.(rca) = 3 ->
  hostCmd 7 (3 .<< 16) v = Ret { v with acmdShift := false; state := StateTran; reportAcmdNext := false }.
Proof.
  intros Hs Hr. apply hostCmd_exec. intros reply. destruct v. cbn in Hs, Hr. subst. by eexists _, _, _.
Qed.

Lemma hostCmd_55 v :
  v.(state) = StateIdle -> v.(rca) = 0 ->
  hostCmd 55 0 v = Ret { v with acmdShift := true; reportAcmdNext := false }.
Proof.
  intros Hs Hr. apply hostCmd_exec. intros reply. destruct v. cbn in Hs, Hr. subst. by eexists _, _, _.
Qed.

(** Waiting for [w] more attempts. *)
Record waiting (ocr w : Z) v : Prop := {
  wt_state : v.(state) = StateIdle;
  wt_rca : v.(rca) = 0;
  wt_prev : v.(prevAcmd41Param) = 0 \/ v.(prevAcmd41Param) = ocr;
  wt_left : v.(initWaitLeft) = w
}.

(** What an attempt does: count down, or become ready. *)
Lemma opCond_attempt ocr v :
  tst ocr 0x00FFFFFF = true -> (v.(hcCard) = true -> tst ocr 0x40000000 = true) ->
  waiting ocr v.(initWaitLeft) v ->
  hostOpCond ocr v =
  Ret (let v := { v with acmdShift := false; reportAcmdNext := true; prevAcmd41Param := ocr } in
       if nz v.(initWaitLeft) then { v with initWaitLeft ::= Z.pred } else { v with state := StateReady }).
Proof.
  intros Ht Hh [Hs Hr Hp _]. unfold hostOpCond. rewrite hostCmd_55 by done. cbn [mbind outcome_bind].
  apply hostCmd_exec. intros reply. destruct v. cbn in Hh, Hs, Hr, Hp |- *. subst.
  unfold vsdExecute. cbv beta iota zeta. cbn [negb Vsd.acmdShift Vsd.state]. rewrite bool_decide_eq_true_2 by done.
  unfold sendOpCond. cbn. rewrite Ht. cbn [negb].
  assert (nz prevAcmd41Param && negb (prevAcmd41Param =? ocr) = false) as ->
    by (destruct Hp as [-> | ->]; [done|by rewrite Z.eqb_refl, andb_false_r]).
  assert (nz prevAcmd41Param = true -> prevAcmd41Param = ocr) as Hif by (by destruct Hp as [-> | ->]).
  assert (negb (tst ocr 1073741824) && hcCard = false) as Hhc
    by (destruct hcCard; [by rewrite Hh|by rewrite andb_false_r]).
  destruct (nz prevAcmd41Param); [rewrite Hif by done|]; cbn; rewrite Hhc;
    destruct (nz initWaitLeft); by eexists _, _, _.
Qed.

(** The attempts count down to the last, which makes the card ready. *)
Lemma opCond_rounds ocr w : forall v,
  tst ocr 0x00FFFFFF = true -> (v.(hcCard) = true -> tst ocr 0x40000000 = true) ->
  waiting ocr (Z.of_nat w) v ->
  exists v', iterM (S w) (hostOpCond ocr) v = Ret v' /\ v'.(state) = StateReady /\
    v'.(store) = v.(store) /\ v'.(hcCard) = v.(hcCard) /\ v'.(nSec) = v.(nSec).
Proof.
  induction w as [|w IH]; intros v Ht Hh Hw; pose proof (wt_left _ _ _ Hw) as Hl.
  - cbn [iterM]. rewrite opCond_attempt by (done || by rewrite Hl). cbn [mbind outcome_bind].
    eexists. split; [reflexivity|]. destruct v. cbn in Hl |- *. by subst.
  - change (iterM (S (S w)) (hostOpCond ocr) v) with (v ← hostOpCond ocr v; iterM (S w) (hostOpCond ocr) v).
    rewrite opCond_attempt by (done || by rewrite Hl). cbv zeta. cbn [mbind outcome_bind].
    assert (nz v.(initWaitLeft) = true) as Hn by (rewrite Hl; apply negb_true_iff, Z.eqb_neq; lia).
    destruct v. cbn -[iterM] in Hn, Hl, Hh |- *. rewrite Hn.
    match goal with |- context [iterM _ _ ?x] => set (v1 := x) end.
    destruct (IH v1) as (v' & E & Hr); [done|done| |].
    { destruct Hw. subst v1. split; cbn in *; auto. lia. }
    exists v'. by split.
Qed.

(** C37. A host that resets the card, whatever its state, and repeats ACMD41
    with its voltages (and, for a high-capacity card, the bit that says it
    supports one) sees the card become ready at the 21st attempt; identified
    and selected, the card is in the transfer state with its storage as it
    was. *)
Theorem vsd_init_completes v (ocr : Z)
    (Ht : tst ocr 0x00FFFFFF = true) (Hh : v.(hcCard) = true -> tst ocr 0x40000000 = true) :
  exists v', hostInit 21 ocr v = Ret v' /\ v'.(state) = StateTran /\ v'.(rca) = 3 /\
    v'.(store) = v.(store) /\ v'.(hcCard) = v.(hcCard) /\ v'.(nSec) = v.(nSec).
Proof.
  unfold hostInit. rewrite hostCmd_0. cbn [mbind outcome_bind].
  destruct (opCond_rounds ocr 20 (vsdCardReset v)) as (v1 & E & Hs & Hst & Hc & Hn); [done|by destruct v| |].
  { destruct v. split; cbn; auto. }
  rewrite E. cbn [mbind outcome_bind]. rewrite hostCmd_2 by done. cbn [mbind outcome_bind].
  rewrite hostCmd_3 by (by destruct v1). cbn [mbind outcome_bind].
  rewrite hostCmd_7 by (by destruct v1). eexists. split; [reflexivity|].
  destruct v, v1. cbn in *. by subst.
Qed.
End Init.

Lemma vsd_init_completes_witness :
  exists v', hostInit 21 0x00300000 (vsdInit demo_card 40) = Ret v' /\ v'.(state) = StateTran.
Proof.
  destruct (vsd_init_completes (vsdInit demo_card 40) 0x00300000) as (v' & E & Hs & _).
  - reflexivity.
  - discriminate.
  - exists v'. split; [exact E|exact Hs].
Defined.

(** ** Transfers of several blocks *)

Section HostTransfers.
Context {W : Type} `{!SectorStore W}.

(** The argument of a data command: a byte address on a card of standard
    capacity, a sector number on a high-capacity one. *)
Definition cardAddress (v : VSD W) (sec : Z) : Z := if v.(hcCard) then sec else 512 * sec.

Definition sendBlock (v : VSD W) (b : list Z) : outcome (VSD W) :=
  '(r, v) ← vsdDataXferBlockToCard v b 512;
  match r with SdDataOk => Ret v | _ => Abort end.

(** CMD23 with the number of blocks, then the data command [c]. *)
Definition hostStart (c : Z) (n : nat) (sec : Z) (v : VSD W) : outcome (VSD W) :=
  v ← hostCmd 23 (Z.of_nat n) v; hostCmd c (cardAddress v sec) v.

(** CMD25 and the blocks. *)
Definition hostWrite (v : VSD W) (sec : Z) (blocks : list (list Z)) : outcome (VSD W) :=
  v ← hostStart 25 (length blocks) sec v; forM blocks sendBlock v.

Fixpoint receiveBlocks (n : nat) (v : VSD W) : outcome (list (list Z) * VSD W) :=
  match n with
  | O => Ret ([], v)
  | S n =>
      '(r, b, v) ← vsdDataXferBlockFromCard v 512;
      match r with
      | SdDataOk => '(bs, v) ← receiveBlocks n v; Ret (b :: bs, v)
      | _ => Abort
      end
  end.

(** CMD18 and the blocks. *)
Definition hostRead (v : VSD W) (sec : Z) (n : nat) : outcome (list (list Z) * VSD W) :=
  v ← hostStart 18 n sec v; receiveBlocks n v.
End HostTransfers.

Section Transfers.
Context {W : Type} `{SectorStoreLaws W}.
Implicit Types v : VSD W.

(** In the transfer state, between commands. *)
Record idle_card v : Prop := {
  ic_state : v.(state) = StateTran;
  ic_acmd : v.(acmdShift) = false;
  ic_store : sec_wf v.(store)
}.

(** In the middle of a counted transfer: [k] blocks to go, from sector [sec]. *)
Record xfer (d : State) (k sec : Z) v : Prop := {
  xf_state : v.(state) = d;
  xf_len : v.(curBufLen) = 512;
  xf_data : v.(bufIsData) = true;
  xf_cont : v.(bufContinuous) = true;
  xf_have : v.(haveExpectedNumBlocks) = true;
  xf_num : v.(numBlocksExpected) = k;
  xf_sec : v.(curSec) = sec;
  xf_acmd : v.(acmdShift) = false
}.

Lemma afterBlock_xfer d k sec v :
  xfer d k sec v -> 1 <= k < 2 ^ 32 -> is_u 32 (sec + 1) ->
  (if k =? 1 then (afterBlock v).(state) = StateTran /\ (afterBlock v).(acmdShift) = false
   else xfer d (k - 1) (sec + 1) (afterBlock v)) /\
  (afterBlock v).(store) = v.(store) /\ (afterBlock v).(hcCard) = v.(hcCard).
Proof.
  intros [Hs Hl Hd Hc Hh Hn Hsec Ha] Hk Hsec'. destruct v. cbn in Hs, Hl, Hd, Hc, Hh, Hn, Hsec, Ha. subst.
  unfold afterBlock. cbn. rewrite (wrap_small 32 (_ - 1)) by (split; lia). unfold nz.
  destruct (Z.eqb_spec k 1) as [->|Hne]; [done|].
  rewrite (proj2 (Z.eqb_neq (k - 1) 0)) by lia. cbn.
  split; [|done]. split; cbn; try done. by apply wrap_small.
Qed.

Lemma cardAddress_sec v sec : 0 <= sec ->
  negb v.(hcCard) && nz (cardAddress v sec mod 512) = false /\
  (if v.(hcCard) then cardAddress v sec else cardAddress v sec / 512) = sec.
Proof.
  intros Hs. unfold cardAddress. destruct v.(hcCard); [done|]. rewrite (Z.mul_comm 512).
  rewrite Z.mod_mul, Z.div_mul by done. done.
Qed.

Lemma data_answers (c : Z) d v sec :
  c = 18 /\ d = StateData \/ c = 25 /\ d = StateRcv ->
  v.(state) = StateTran -> v.(acmdShift) = false -> 0 <= sec ->
  answers48 v c (cardAddress v sec)
    { v with reportAcmdNext := false; curSec := sec; state := d; bufIsData := true; bufContinuous := true;
             curBufLen := 512 }.
Proof.
  intros Hc Hs Ha Hsec. destruct (cardAddress_sec v sec Hsec) as [Hm Hd].
  intros reply. revert Hm Hd. generalize (cardAddress v sec). intros addr Hm.
  destruct v. cbn in Hs, Ha, Hm |- *. subst. intros Hd.
  destruct Hc as [[-> ->]|[-> ->]]; unfold vsdExecute, startTransfer; cbn; rewrite Hm, Hd;
    by eexists _, _.
Qed.

Lemma count_answers v n :
  v.(state) = StateTran -> v.(acmdShift) = false -> 0 < n ->
  answers48 v 23 n { v with reportAcmdNext := false; haveExpectedNumBlocks := true; numBlocksExpected := n }.
Proof.
  intros Hs Ha Hn reply. destruct v. cbn in Hs, Ha. subst. unfold vsdExecute. cbn.
  assert (nz n = true) as -> by (apply negb_true_iff, Z.eqb_neq; lia). by eexists _, _.
Qed.

Lemma hostCmd_12 v :
  v.(state) = StateData -> hostCmd 12 0 v = Ret { v with acmdShift := false; state := StateTran; reportAcmdNext := false }.
Proof. intros Hs. apply hostCmd_exec. intros reply. destruct v. cbn in Hs. subst. by eexists _, _, _. Qed.

Lemma host_start (c : Z) d v n sec :
  c = 18 /\ d = StateData \/ c = 25 /\ d = StateRcv ->
  idle_card v -> (0 < n)%nat -> 0 <= sec ->
  exists v', hostStart c n sec v = Ret v' /\ xfer d (Z.of_nat n) sec v' /\
    v'.(store) = v.(store) /\ v'.(hcCard) = v.(hcCard).
Proof.
  intros Hc [Hs Ha Hw] Hn Hsec. unfold hostStart.
  rewrite (answers48_hostCmd _ _ _ _ (count_answers v (Z.of_nat n) Hs Ha ltac:(lia))). cbn [mbind outcome_bind].
  erewrite answers48_hostCmd by (apply (data_answers c d); [done|by destruct v|by destruct v|done]). eexists. split; [reflexivity|].
  destruct v. cbn in Ha |- *. by split.
Qed.

Lemma sendBlock_xfer k sec v b :
  xfer StateRcv k sec v -> sec_wf v.(store) -> 1 <= k < 2 ^ 32 -> 0 <= sec < sec_total v.(store) ->
  is_u 32 (sec + 1) -> is_block b ->
  exists v', sendBlock v b = Ret v' /\ v'.(hcCard) = v.(hcCard) /\
    (if k =? 1 then v'.(state) = StateTran /\ v'.(acmdShift) = false else xfer StateRcv (k - 1) (sec + 1) v') /\
    sec_wf v'.(store) /\ sec_total v'.(store) = sec_total v.(store) /\
    (forall s, 0 <= s < sec_total v.(store) ->
      sec_read v'.(store) s = if sec =? s then Ret (true, b) else sec_read v.(store) s).
Proof.
  intros Hx Hw Hk Hs Hs' Hb. unfold sendBlock, vsdDataXferBlockToCard.
  rewrite (xf_state _ _ _ _ Hx), (xf_len _ _ _ _ Hx), (xf_data _ _ _ _ Hx), (xf_sec _ _ _ _ Hx).
  rewrite bool_decide_eq_true_2, Z.eqb_refl by done. cbn [negb].
  rewrite take_ge by (unfold is_block in Hb; lia).
  destruct (sec_write_in v.(store) sec b Hw Hs Hb) as (w' & -> & Hw' & Ht & Hr). cbn [mbind outcome_bind negb].
  set (v1 := { v with store := w' }).
  destruct (afterBlock_xfer StateRcv k sec v1) as (Hst & Hsto & Hhc); [|done|done|].
  { destruct v, Hx. by split. }
  eexists. split; [reflexivity|]. rewrite Hsto, Hhc. by destruct v.
Qed.

(** The blocks of a counted write, in order. *)
Lemma sendBlocks_xfer blocks : forall sec v,
  xfer StateRcv (Z.of_nat (length blocks)) sec v -> sec_wf v.(store) -> (0 < length blocks)%nat ->
  0 <= sec -> sec + Z.of_nat (length blocks) <= sec_total v.(store) ->
  sec + Z.of_nat (length blocks) < 2 ^ 32 -> Forall is_block blocks ->
  exists v', forM blocks sendBlock v = Ret v' /\ idle_card v' /\ v'.(hcCard) = v.(hcCard) /\
    sec_total v'.(store) = sec_total v.(store) /\
    (forall s, 0 <= s < sec_total v.(store) ->
      sec_read v'.(store) s =
      if (sec <=? s) && (s <? sec + Z.of_nat (length blocks)) then Ret (true, blocks.[s - sec])
      else sec_read v.(store) s).
Proof.
  induction blocks as [|b blocks IH]; intros sec v Hx Hw Hl Hs Ht H32 Hb; [cbn in Hl; lia|].
  apply Forall_cons in Hb as [Hb Hbs]. cbn [length] in *.
  destruct (sendBlock_xfer (Z.of_nat (S (length blocks))) sec v b) as (v1 & E & Hc1 & Hx1 & Hw1 & Ht1 & Hr1);
    [done|done|lia|lia|split; lia|done|].
  cbn [forM]. rewrite E. cbn [mbind outcome_bind]. destruct (Z.eqb_spec (Z.of_nat (S (length blocks))) 1) as [E1|Hne].
  - destruct blocks; [|cbn in E1; lia]. destruct Hx1. exists v1. split; [done|]. split; [by split|].
    split; [done|]. split; [done|]. intros s Hs'. rewrite (window_cons (fun b => Ret (true, b)) b []) by done.
    rewrite Hr1 by done. destruct (sec =? s); [done|]. cbn [length].
    destruct (Z.leb_spec (sec + 1) s), (Z.ltb_spec s (sec + 1 + Z.of_nat 0)); (done || lia).
  - destruct (IH (sec + 1) v1) as (v2 & E2 & Hi & Hc2 & Ht2 & Hr2).
    + by replace (Z.of_nat (length blocks)) with (Z.of_nat (S (length blocks)) - 1) by lia.
    + done.
    + lia.
    + lia.
    + rewrite Ht1. lia.
    + lia.
    + done.
    + exists v2. split; [done|]. split; [done|]. split; [congruence|]. split; [congruence|]. intros s Hs'.
      rewrite (window_cons (fun b => Ret (true, b))), Hr2, Hr1 by (done || lia).
      destruct (Z.eqb_spec sec s) as [<-|]; [|done].
      by rewrite (proj2 (Z.leb_gt (sec + 1) sec)) by lia.
Qed.

Lemma receiveBlock_xfer k sec v :
  xfer StateData k sec v -> sec_wf v.(store) -> 1 <= k < 2 ^ 32 -> 0 <= sec < sec_total v.(store) ->
  is_u 32 (sec + 1) ->
  exists b v', vsdDataXferBlockFromCard v 512 = Ret (SdDataOk, b, v') /\ sec_read v.(store) sec = Ret (true, b) /\
    (if k =? 1 then v'.(state) = StateTran /\ v'.(acmdShift) = false else xfer StateData (k - 1) (sec + 1) v') /\
    v'.(store) = v.(store) /\ v'.(hcCard) = v.(hcCard).
Proof.
  intros Hx Hw Hk Hs Hs'. unfold vsdDataXferBlockFromCard.
  rewrite (xf_state _ _ _ _ Hx), (xf_len _ _ _ _ Hx), (xf_data _ _ _ _ Hx), (xf_sec _ _ _ _ Hx).
  rewrite bool_decide_eq_true_2, Z.eqb_refl by done. cbn [negb].
  destruct (sec_read_in v.(store) sec Hw Hs) as (b & Eb & _). rewrite Eb. cbn [mbind outcome_bind negb].
  destruct (afterBlock_xfer StateData k sec v) as (Hst & Hsto & Hhc); [done..|].
  by exists b, (afterBlock v).
Qed.

(** The blocks of a counted read, in order. *)
Lemma receiveBlocks_xfer n : forall sec v,
  xfer StateData (Z.of_nat n) sec v -> sec_wf v.(store) -> (0 < n)%nat ->
  0 <= sec -> sec + Z.of_nat n <= sec_total v.(store) -> sec + Z.of_nat n < 2 ^ 32 ->
  exists bs v', receiveBlocks n v = Ret (bs, v') /\ idle_card v' /\ v'.(hcCard) = v.(hcCard) /\
    v'.(store) = v.(store) /\ length bs = n /\
    (forall i, (i < n)%nat -> sec_read v.(store) (sec + Z.of_nat i) = Ret (true, bs !!! i)).
Proof.
  induction n as [|n IH]; intros sec v Hx Hw Hn Hs Ht H32; [lia|].
  destruct (receiveBlock_xfer (Z.of_nat (S n)) sec v) as (b & v1 & E & Hb & Hx1 & Hs1 & Hc1); [done|done|lia|lia|split; lia|].
  cbn [receiveBlocks]. rewrite E. cbn [mbind outcome_bind]. destruct (Z.eqb_spec (Z.of_nat (S n)) 1) as [E1|Hne].
  - assert (n = 0%nat) as -> by lia. destruct Hx1. exists [b], v1. split; [done|].
    split; [split; [done|done|by rewrite Hs1]|]. split; [done|]. split; [done|]. split; [done|].
    intros i Hi. assert (i = 0%nat) as -> by lia. by rewrite Z.add_0_r.
  - destruct (IH (sec + 1) v1) as (bs & v2 & E2 & Hi2 & Hc2 & Hs2 & Hl2 & Hr2).
    + by replace (Z.of_nat n) with (Z.of_nat (S n) - 1) by lia.
    + by rewrite Hs1.
    + lia.
    + lia.
    + rewrite Hs1. lia.
    + lia.
    + rewrite E2. exists (b :: bs), v2. split; [done|]. split; [done|]. split; [congruence|].
      split; [congruence|]. split; [cbn; lia|]. intros [|i] Hi; [by rewrite Z.add_0_r|].
      rewrite <- Hs1. replace (sec + Z.of_nat (S i)) with (sec + 1 + Z.of_nat i) by lia. apply Hr2. lia.
Qed.

(** The sectors [sec .. sec + n - 1] are on the card and addressable. *)
Definition on_card v (sec : Z) (n : nat) : Prop :=
  (0 < n)%nat /\ 0 <= sec /\ sec + Z.of_nat n <= sec_total v.(store) /\ sec + Z.of_nat n < 2 ^ 32 /\
  is_u 32 (cardAddress v (sec + Z.of_nat n)).

Lemma hostWrite_ok v sec blocks :
  idle_card v -> on_card v sec (length blocks) -> Forall is_block blocks ->
  exists v', hostWrite v sec blocks = Ret v' /\ idle_card v' /\ v'.(hcCard) = v.(hcCard) /\
    sec_total v'.(store) = sec_total v.(store) /\
    (forall s, 0 <= s < sec_total v.(store) ->
      sec_read v'.(store) s =
      if (sec <=? s) && (s <? sec + Z.of_nat (length blocks)) then Ret (true, blocks.[s - sec])
      else sec_read v.(store) s).
Proof.
  intros Hi (Hn & Hs & Ht & H32 & _) Hb. pose proof (ic_store v Hi) as Hw. unfold hostWrite.
  destruct (host_start 25 StateRcv v (length blocks) sec) as (v1 & E & Hx & Hst & Hhc); [auto|done|lia|done|].
  rewrite E. cbn [mbind outcome_bind]. rewrite <- Hst in Hw, Ht |- *. rewrite <- Hhc.
  by apply sendBlocks_xfer.
Qed.

Lemma hostRead_ok v sec n :
  idle_card v -> on_card v sec n ->
  exists bs v', hostRead v sec n = Ret (bs, v') /\ idle_card v' /\ v'.(hcCard) = v.(hcCard) /\
    v'.(store) = v.(store) /\ length bs = n /\
    (forall i, (i < n)%nat -> sec_read v.(store) (sec + Z.of_nat i) = Ret (true, bs !!! i)).
Proof.
  intros Hi (Hn & Hs & Ht & H32 & _). pose proof (ic_store v Hi) as Hw. unfold hostRead.
  destruct (host_start 18 StateData v n sec) as (v1 & E & Hx & Hst & Hhc); [auto|done|lia|done|].
  rewrite E. cbn [mbind outcome_bind]. rewrite <- Hst in Hw, Ht |- *. rewrite <- Hhc.
  by apply receiveBlocks_xfer.
Qed.

(** A counted write of several blocks (CMD23, CMD25, the blocks) to sectors
    of the card stores the blocks in order in consecutive sectors, changes no
    other sector, and ends by itself in the transfer state; on a card of
    either capacity. *)
Theorem vsd_multi_write v (sec : Z) (blocks : list (list Z))
    (Hi : idle_card v) (Hon : on_card v sec (length blocks)) (Hb : Forall is_block blocks) :
  exists v', hostWrite v sec blocks = Ret v' /\ idle_card v' /\
    (forall s, 0 <= s < sec_total v.(store) ->
      sec_read v'.(store) s =
      if (sec <=? s) && (s <? sec + Z.of_nat (length blocks)) then Ret (true, blocks.[s - sec])
      else sec_read v.(store) s).
Proof.
  destruct (hostWrite_ok v sec blocks Hi Hon Hb) as (v' & E & Hi' & _ & _ & Hr). by exists v'.
Qed.

(** C31. What a host writes with a counted multi-block write it reads back with
    a counted multi-block read of the same sectors, and the read leaves the
    storage as it is. *)
Theorem vsd_write_read_roundtrip v (sec : Z) (blocks : list (list Z))
    (Hi : idle_card v) (Hon : on_card v sec (length blocks)) (Hb : Forall is_block blocks) :
  exists v' v'', hostWrite v sec blocks = Ret v' /\ hostRead v' sec (length blocks) = Ret (blocks, v'') /\
    v''.(store) = v'.(store) /\ idle_card v''.
Proof.
  destruct (hostWrite_ok v sec blocks Hi Hon Hb) as (v' & E & Hi' & Hc & Ht & Hr).
  destruct (hostRead_ok v' sec (length blocks) Hi') as (bs & v'' & E' & Hi'' & _ & Hs & Hl & Hb').
  { unfold on_card, cardAddress in *. by rewrite Ht, Hc. }
  exists v', v''. split; [done|]. split; [|done]. rewrite E'. do 2 f_equal.
  destruct Hon as (Hn & Hsec & Htot & _). apply list_eq_same_length with (length blocks); [done|done|].
  intros i x y Hi1 Hx Hy. specialize (Hb' i Hi1). rewrite Hr in Hb' by lia.
  rewrite (proj2 (Z.leb_le _ _)), (proj2 (Z.ltb_lt _ _)) in Hb' by lia. cbn [andb] in Hb'.
  apply (list_lookup_total_correct bs) in Hx. apply (list_lookup_total_correct blocks) in Hy.
  rewrite Hx in Hb'. injection Hb' as <-. unfold aget.
  rewrite <- Hy. f_equal. lia.
Qed.

(** A block count set with CMD23 outlives the transfer it was sent for: of
    [n] counted blocks the host reads one and stops with CMD12; the open-ended
    read (CMD18) that follows ends by itself after [n - 1] blocks, and a
    request for another block fails. *)
Theorem vsd_count_survives_stop v (sec sec' : Z) (n : nat)
    (Hi : idle_card v) (Hon : on_card v sec n) (Hon' : on_card v sec' n) (Hn : (1 < n)%nat) :
  exists v1 v2 v3 bs v4,
    hostStart 18 n sec v = Ret v1 /\ receiveBlocks 1 v1 = Ret (bs, v2) /\
    (v ← hostCmd 12 0 v2; hostCmd 18 (cardAddress v sec') v) = Ret v3 /\
    (exists bs', receiveBlocks (n - 1) v3 = Ret (bs', v4)) /\
    v4.(state) = StateTran /\ vsdDataXferBlockFromCard v4 512 = Ret (SdDataErrWrongCurrentState, [], v4).
Proof.
  destruct Hon as (Hn0 & Hs & Ht & H32 & _), Hon' as (_ & Hs' & Ht' & H32' & _).
  pose proof (ic_store v Hi) as Hw.
  destruct (host_start 18 StateData v n sec) as (v1 & E1 & Hx1 & Hst1 & Hhc1); [auto|done|lia|done|].
  destruct (receiveBlock_xfer (Z.of_nat n) sec v1) as (b & v2 & E2 & _ & Hx2 & Hst2 & Hhc2);
    [done|by rewrite Hst1|lia|rewrite Hst1; lia|split; lia|].
  rewrite (proj2 (Z.eqb_neq (Z.of_nat n) 1)) in Hx2 by lia. destruct Hx2 as [Xs Xl Xd Xc Xh Xn Xe Xa].
  set (v2' := { v2 with acmdShift := false; state := StateTran; reportAcmdNext := false }).
  set (v3 := { v2' with reportAcmdNext := false; curSec := sec'; state := StateData; bufIsData := true;
                        bufContinuous := true; curBufLen := 512 }).
  destruct (receiveBlocks_xfer (n - 1) sec' v3) as (bs' & v4 & E4 & [Hs4 _ _] & _).
  - replace (Z.of_nat (n - 1)) with (Z.of_nat n - 1) by lia. destruct v2. cbn in *. by split.
  - replace (store v3) with (store v) by (destruct v2; cbn in *; congruence). done.
  - lia.
  - done.
  - replace (store v3) with (store v) by (destruct v2; cbn in *; congruence). lia.
  - lia.
  - exists v1, v2, v3, [b], v4. split; [done|]. split; [cbn [receiveBlocks]; by rewrite E2|].
    split; [rewrite hostCmd_12 by done; cbn [mbind outcome_bind]; by apply answers48_hostCmd, (data_answers 18 StateData); auto|].
    split; [by exists bs'|]. split; [done|]. unfold vsdDataXferBlockFromCard. by rewrite Hs4.
Qed.
End Transfers.

(** A card of 40 sectors, initialised, and two blocks for it. *)
Definition demo_idle : VSD SdCard := { vsdInit demo_card 40 with state := StateTran }.

Lemma demo_idle_card : idle_card demo_idle.
Proof. split; [done|done|exact demo_card_wf]. Qed.

Definition demo_blocks : list (list Z) := [replicate 512 7; replicate 512 9].

Lemma demo_on_card : on_card demo_idle 30 (length demo_blocks).
Proof. split; [cbn; lia|]. split; [done|]. split; [done|]. split; [done|]. split; done. Qed.

Lemma demo_are_blocks : Forall is_block demo_blocks.
Proof. forall_list; apply length_replicate. Qed.

Lemma vsd_multi_write_witness :
  exists v', hostWrite demo_idle 30 demo_blocks = Ret v' /\
    sec_read v'.(store) 31 = Ret (true, replicate 512 9).
Proof.
  destruct (vsd_multi_write demo_idle 30 demo_blocks demo_idle_card demo_on_card demo_are_blocks)
    as (v' & E & _ & Hr).
  exists v'. split; [exact E|]. apply (Hr 31). split; [discriminate|reflexivity].
Defined.

Lemma vsd_write_read_roundtrip_witness :
  exists v' v'', hostWrite demo_idle 30 demo_blocks = Ret v' /\
    hostRead v' 30 2 = Ret (demo_blocks, v'').
Proof.
  destruct (vsd_write_read_roundtrip demo_idle 30 demo_blocks demo_idle_card demo_on_card demo_are_blocks)
    as (v' & v'' & E & E' & _).
  exists v', v''. split; [exact E|exact E'].
Defined.

Lemma vsd_count_survives_stop_witness :
  exists v2 v3 v4 bs', (v ← hostCmd 12 0 v2; hostCmd 18 (cardAddress v 8) v) = Ret v3 /\
    receiveBlocks 1 v3 = Ret (bs', v4) /\ v4.(state) = StateTran /\
    vsdDataXferBlockFromCard v4 512 = Ret (SdDataErrWrongCurrentState, [], v4).
Proof.
  destruct (vsd_count_survives_stop demo_idle 30 8 2 demo_idle_card demo_on_card)
    as (v1 & v2 & v3 & bs & v4 & _ & _ & E3 & (bs' & E4) & Hs & Hf); [|lia|].
  - split; [lia|]. split; [done|]. split; [done|]. split; done.
  - exists v2, v3, v4, bs'. split; [exact E3|]. split; [exact E4|]. split; [exact Hs|exact Hf].
Defined.
