(* ===== verification/Mmc.v ===== *)
(** * The MMC controller (pxa_MMC.c)

    Command and data path between the guest and the card of Vsd.v. The
    controller acts on the interrupt controller and the DMA controller, the
    world [W]; the card has storage [S]. *)

From S2P Require Import Prelude Bytes Interfaces SdCard Vsd VsdHost.

Definition PXA_MMC_BASE := 0x41100000.
Definition PXA_MMC_SIZE := 0x00001000.
Definition DMA_CMR_MMC_RX := 21.
Definition DMA_CMR_MMC_TX := 22.

Record PxaMmc (S : Type) := mkPxaMmc {
  arg : Z;                      (* uint32_t *)
  stat : Z;                     (* uint16_t, the next three too *)
  readTo : Z;
  blkLen : Z;
  numBlks : Z;
  spi : Z;                      (* uint8_t, up to cmdReg *)
  iMask : Z;
  iReg : Z;
  cmdat : Z;
  clockSpeed : Z;
  resTo : Z;
  cmdReg : Z;
  respBuf : list Z;             (* uint16_t[8] *)
  clockOn : bool;
  cmdQueued : bool;
  dataXferOngoing : bool;
  vsd : option (VSD S);         (* None: NULL, no card *)
  fifoBytes : Z;                (* uint32_t *)
  fifoOfst : Z;                 (* uint32_t *)
  blockFifo : list Z            (* uint8_t[1024] *)
}.
Arguments mkPxaMmc {S}. Arguments arg {S}. Arguments stat {S}. Arguments readTo {S}.
Arguments blkLen {S}. Arguments numBlks {S}. Arguments spi {S}. Arguments iMask {S}.
Arguments iReg {S}. Arguments cmdat {S}. Arguments clockSpeed {S}. Arguments resTo {S}.
Arguments cmdReg {S}. Arguments respBuf {S}. Arguments clockOn {S}. Arguments cmdQueued {S}.
Arguments dataXferOngoing {S}. Arguments vsd {S}. Arguments fifoBytes {S}. Arguments fifoOfst {S}.
Arguments blockFifo {S}.

Section Operations.
Context {S : Type} `{!SectorStore S}.
Context {W : Type} `{DmaSink W}.
Implicit Types (mmc : PxaMmc S) (w : W).

Definition pxaMmcPrvIrqUpdate mmc w : W :=
  let irqs := mmc.(iReg) .&~ mmc.(iMask) in
  let irqs := if tst mmc.(cmdat) 0x80 then irqs .&~ 0x60 else irqs in
  irq_int w PXA_I_MMC (nz irqs).

(** The status and request bits that follow from the rest of the state. *)
Definition recalcBits mmc : PxaMmc S :=
  let mmc := if tst mmc.(stat) 0x100 then { mmc with iReg ::= fun r => r .&~ 0x10 }
             else { mmc with iReg ::= fun r => r .| 0x10 } in
  let mmc := { mmc with iReg ::= fun r => (r .&~ 7) .| ((mmc.(stat) .>> 11) .& 7) } in
  let mmc := if tst mmc.(cmdat) 4 && tst mmc.(cmdat) 8 && nz mmc.(numBlks)
             then { mmc with stat ::= (fun s => s .| 0x40); iReg ::= (fun r => r .| 0x40) } else mmc in
  if tst mmc.(cmdat) 4 && negb (tst mmc.(cmdat) 8) && (nz mmc.(numBlks) || nz mmc.(fifoBytes))
  then { mmc with stat ::= (fun s => s .| 0x80); iReg ::= (fun r => r .| 0x20) } else mmc.

Definition pxaMmcPrvRecalcIregAndFifo mmc w : PxaMmc S * W :=
  let mmc := recalcBits mmc in
  let w := if tst mmc.(cmdat) 0x80 then
             dma_external_req (dma_external_req w DMA_CMR_MMC_RX (tst mmc.(iReg) 0x20))
               DMA_CMR_MMC_TX (tst mmc.(iReg) 0x40)
           else w in
  (mmc, pxaMmcPrvIrqUpdate mmc w).

Definition setStat mmc (bits : Z) : PxaMmc S := { mmc with stat ::= fun s => s .| bits }.

Definition pxaMmcPrvDataXferNextBlockRead mmc : outcome (PxaMmc S) :=
  if negb mmc.(dataXferOngoing) then Ret mmc else
  match mmc.(vsd) with
  | None => Undef
  | Some v =>
      '(ret, bytes, v) ← vsdDataXferBlockFromCard v mmc.(blkLen);
      let mmc := { mmc with vsd := Some v; blockFifo ::= fun b => poke b 0 bytes } in
      Ret (match ret with
           | SdDataErrWrongBlockSize => setStat mmc 0x0008
           | SdDataErrWrongCurrentState | SdDataErrBackingStore => setStat mmc 0x0001
           | SdDataOk => { mmc with fifoBytes := mmc.(blkLen); fifoOfst := 0;
                                    numBlks ::= fun n => u16 (n - 1) }
           end)
  end.

Definition pxaMmcPrvDataXferStart mmc : outcome (PxaMmc S) :=
  let mmc := { mmc with dataXferOngoing := true } in
  if negb (nz mmc.(blkLen)) || negb (nz mmc.(numBlks)) then Ret mmc
  else if tst mmc.(cmdat) 8 then Ret { mmc with fifoBytes := 0 }
  else pxaMmcPrvDataXferNextBlockRead mmc.

(** The block in the buffer goes to the card. *)
Definition writeBlock mmc : outcome (PxaMmc S) :=
  match mmc.(vsd) with
  | None => Undef
  | Some v =>
      '(ret, v) ← vsdDataXferBlockToCard v mmc.(blockFifo) mmc.(blkLen);
      let mmc := { mmc with vsd := Some v } in
      Ret (match ret with
           | SdDataOk =>
               let mmc := { mmc with fifoBytes := 0; numBlks ::= fun n => u16 (n - 1) } in
               if nz mmc.(numBlks) then mmc
               else { setStat (setStat mmc 0x0800) 0x1000 with dataXferOngoing := false }
           | _ => setStat mmc 0x0004
           end)
  end.

Definition pxaMmcPrvDataFifoW mmc w (val : Z) : outcome (bool * (PxaMmc S * W)) :=
  if mmc.(blkLen) <=? mmc.(fifoBytes) then Ret (false, (mmc, w)) else
  let mmc := { mmc with blockFifo ::= (fun b => b.[mmc.(fifoBytes) <- u8 val]);
                        fifoBytes ::= (fun n => u32 (n + 1)) } in
  if mmc.(fifoBytes) =? mmc.(blkLen) then
    if negb mmc.(dataXferOngoing) then Ret (false, (mmc, w))
    else mmc ← writeBlock mmc; Ret (true, pxaMmcPrvRecalcIregAndFifo mmc w)
  else Ret (true, pxaMmcPrvRecalcIregAndFifo mmc w).

(** The result of the access, the byte, and the controller. *)
Definition pxaMmcPrvDataFifoR mmc w : outcome (bool * Z * (PxaMmc S * W)) :=
  if mmc.(fifoBytes) =? 0 then Ret (false, 0, (mmc, w)) else
  if in_object mmc.(blockFifo) mmc.(fifoOfst) 1 then
    let val := mmc.(blockFifo).[mmc.(fifoOfst)] in
    let mmc := { mmc with fifoOfst ::= (fun n => u32 (n + 1)); fifoBytes ::= (fun n => n - 1) } in
    mmc ← (if mmc.(fifoBytes) =? 0 then
             if nz mmc.(numBlks) then pxaMmcPrvDataXferNextBlockRead mmc
             else Ret { setStat mmc 0x0800 with dataXferOngoing := false }
           else Ret mmc);
    Ret (true, val, pxaMmcPrvRecalcIregAndFifo mmc w)
  else Undef.

(** Whether the reply is of the kind the guest expects, its length, and
    whether its checksum is checked. *)
Definition expectReply mmc (ret : SdReplyType) : bool * Z * bool :=
  match ret with
  | SdReplyNone => (mmc.(cmdat) .& 3 =? 0, 0, true)
  | SdReply48bitsAndBusy | SdReply48bits =>
      (tst mmc.(cmdat) 1, 5, negb (tst mmc.(cmdat) 1 && tst mmc.(cmdat) 2))
  | SdReply136bits => (mmc.(cmdat) .& 3 =? 2, 16, true)
  end.

(** The reply as 16-bit words, an odd last byte in the high half. *)
Definition storeReply (resp reply : list Z) (len : Z) : list Z :=
  let reply := reply.[len <- 0] in
  fold_left (fun r i => r.[Z.of_nat i <- u16 ((reply.[2 * Z.of_nat i] .<< 8) + reply.[2 * Z.of_nat i + 1])])
    (seq 0 (Z.to_nat ((len + 1) / 2))) resp.

(** The reply buffer on the stack, every byte of which is written before it
    is used. *)
Definition replyBuffer : list Z := replicate 17 0.

Definition mmcSendCommand mmc w : outcome (bool * (PxaMmc S * W)) :=
  let mmc := { mmc with cmdQueued := false } in
  '(ret, reply, mmc) ← match mmc.(vsd) with
    | Some v => '(ret, reply, v) ← vsdCommand v (mmc.(cmdReg) .& 0x3f) mmc.(arg) replyBuffer;
                Ret (ret, reply, { mmc with vsd := Some v })
    | None => Ret (SdReplyNone, replyBuffer, mmc)
    end;
  let '(success, len, doCrcCheck) := expectReply mmc ret in
  let crcFail := success && nz len && doCrcCheck && negb (vsdCRC7 reply len =? reply.[len]) in
  let mmc := setStat mmc 0x2000 in
  let mmc := if crcFail then setStat mmc 0x20 else mmc in
  let mmc := if success then { mmc with respBuf ::= fun r => storeReply r reply len }
             else setStat mmc 0x02 in
  mmc ← (if success && tst mmc.(cmdat) 4 then pxaMmcPrvDataXferStart mmc else Ret mmc);
  let mmc := if negb success || negb (tst mmc.(cmdat) 4) || negb (tst mmc.(cmdat) 8)
             then setStat mmc 0x1000 else mmc in
  Ret (true, pxaMmcPrvRecalcIregAndFifo mmc w).

(** MMC_STRPCL: stop or start the clock. *)
Definition writeStrpcl mmc w (val : Z) : outcome (bool * (PxaMmc S * W)) :=
  let finish (r : bool * (PxaMmc S * W)) : outcome (bool * (PxaMmc S * W)) :=
    let '(ret, (mmc, w)) := r in Ret (ret, (mmc, pxaMmcPrvIrqUpdate mmc w)) in
  match val .& 3 with
  | 0 => finish (true, (mmc, w))
  | 1 => finish (true, pxaMmcPrvRecalcIregAndFifo
                  { mmc with clockOn := false; stat ::= fun s => s .&~ 0x100 } w)
  | 2 =>
      let '(mmc, w) := pxaMmcPrvRecalcIregAndFifo
                         { mmc with clockOn := true; stat ::= fun s => s .| 0x100 } w in
      r ← (if mmc.(cmdQueued) then mmcSendCommand mmc w else Ret (true, (mmc, w)));
      finish r
  | _ => finish (false, (mmc, w))
  end.

(** MMC_CMDAT: the command goes out, or waits for the clock. *)
Definition writeCmdat mmc w (val : Z) : outcome (bool * (PxaMmc S * W)) :=
  let mmc := { mmc with cmdat := u8 val; stat ::= fun s => (s .& 0x100) .| 0x40 } in
  let '(mmc, w) := pxaMmcPrvRecalcIregAndFifo mmc w in
  if mmc.(clockOn) then mmcSendCommand mmc w else Ret (true, ({ mmc with cmdQueued := true }, w)).

Definition mmcWrite mmc w (reg val : Z) : outcome (bool * (PxaMmc S * W)) :=
  let done mmc : outcome (bool * (PxaMmc S * W)) := Ret (true, (mmc, w)) in
  match reg with
  | 0 => writeStrpcl mmc w val
  | 1 | 11 => done mmc
  | 2 => if val .& 7 =? 7 then Ret (false, (mmc, w)) else done { mmc with clockSpeed := val .& 7 }
  | 3 => done { mmc with spi := val .& 0x0f }
  | 4 => writeCmdat mmc w val
  | 5 => done { mmc with resTo := val .& 0x7f }
  | 6 => done { mmc with readTo := u16 val }
  | 7 => done { mmc with blkLen := val .& 0x3ff }
  | 8 => done { mmc with numBlks := u16 val }
  | 10 => let mmc := { mmc with iMask := val .& 0x7f } in Ret (true, (mmc, pxaMmcPrvIrqUpdate mmc w))
  | 12 => done { mmc with cmdReg := 0x40 .| (val .& 0x3f) }
  | 13 => done { mmc with arg ::= fun a => (a .& 0x0000ffff) .| u32 (val .<< 16) }
  | 14 => done { mmc with arg ::= fun a => (a .& 0xffff0000) .| (val .& 0xffff) }
  | 17 => pxaMmcPrvDataFifoW mmc w val
  | _ => Ret (false, (mmc, w))
  end.

Definition mmcRead mmc w (reg : Z) : outcome (bool * Z * (PxaMmc S * W)) :=
  let get (x : Z) : outcome (bool * Z * (PxaMmc S * W)) := Ret (true, x, (mmc, w)) in
  match reg with
  | 1 => get mmc.(stat)
  | 2 => get mmc.(clockSpeed)
  | 3 => get mmc.(spi)
  | 4 => get mmc.(cmdat)
  | 5 => get mmc.(resTo)
  | 6 => get mmc.(readTo)
  | 7 => get mmc.(blkLen)
  | 8 => get mmc.(numBlks)
  | 10 => get mmc.(iMask)
  | 11 => Ret (true, mmc.(iReg), pxaMmcPrvRecalcIregAndFifo { mmc with iReg ::= fun r => r .&~ 0x60 } w)
  | 12 => get mmc.(cmdReg)
  | 13 => get (mmc.(arg) .>> 16)
  | 14 => get (mmc.(arg) .& 0xffff)
  | 15 => Ret (true, mmc.(respBuf).[0], ({ mmc with respBuf ::= fun r => poke r 0 (peek r 1 7) }, w))
  | 16 => pxaMmcPrvDataFifoR mmc w
  | _ => Ret (false, 0, (mmc, w))
  end.

Definition pxaMmcPrvMemAccessF mmc w (pa size : Z) (write : bool) (buf : Z)
  : outcome (access (PxaMmc S * W)) :=
  if negb (size =? 4) then Ret (false, buf, (mmc, w)) else
  let reg := u32 (pa - PXA_MMC_BASE) .>> 2 in
  if write then '(ret, s) ← mmcWrite mmc w reg buf; Ret (ret, buf, s)
  else '(ret, val, s) ← mmcRead mmc w reg; Ret (ret, if (ret : bool) then val else buf, s).

Definition pxaMmcInit w : PxaMmc S * W :=
  pxaMmcPrvRecalcIregAndFifo
    (mkPxaMmc 0 0x40 0 0 0 0 0x7f 0 0x80 0 0x40 0x40 (replicate 8 0) false false false None 0 0
       (replicate 1024 0)) w.

Definition pxaMmcInsert mmc (v : option (VSD S)) : PxaMmc S := { mmc with vsd := v }.

End Operations.

(** ** What the recalculation of the status leaves alone *)

Section Frame.
Context {S : Type} `{!SectorStore S}.
Context {W : Type} `{DmaSink W}.
Implicit Types (mmc : PxaMmc S) (w : W).

(** The data path: block geometry, FIFO, card. *)
Definition dataPath mmc :=
  (mmc.(blkLen), mmc.(numBlks), mmc.(dataXferOngoing), mmc.(vsd), mmc.(fifoBytes), mmc.(fifoOfst),
   mmc.(blockFifo)).

(** The command path. *)
Definition commandPath mmc := (mmc.(cmdat), mmc.(clockOn), mmc.(cmdQueued), mmc.(cmdReg), mmc.(arg)).

(** Follow the branches of the recalculation. *)
Local Ltac recalc_cases mmc :=
  unfold pxaMmcPrvRecalcIregAndFifo, recalcBits; destruct mmc; cbn in *;
  repeat (match goal with |- context [if ?b then _ else _] => destruct b end; cbn).

Lemma recalc_dataPath mmc w : dataPath (fst (pxaMmcPrvRecalcIregAndFifo mmc w)) = dataPath mmc.
Proof. recalc_cases mmc; reflexivity. Qed.

Lemma recalc_commandPath mmc w : commandPath (fst (pxaMmcPrvRecalcIregAndFifo mmc w)) = commandPath mmc.
Proof. recalc_cases mmc; reflexivity. Qed.

Lemma tst_lor_l x y m : tst x m = true -> tst (x .| y) m = true.
Proof. rewrite !tst_exists. intros (i & Hi & Hx & Hm). exists i. by rewrite Z.lor_spec, Hx. Qed.

Lemma recalc_stat mmc w m :
  tst mmc.(stat) m = true -> tst (fst (pxaMmcPrvRecalcIregAndFifo mmc w)).(stat) m = true.
Proof.
  intros Hm. recalc_cases mmc; auto using tst_lor_l.
Qed.
End Frame.

(** ** Reading the FIFO *)
Section Streams.
Context {S : Type} `{SectorStoreLaws S}.
Context {W : Type} `{DmaSink W}.
Implicit Types (mmc : PxaMmc S) (s : PxaMmc S * W).

(** [n] reads of the receive FIFO, each of which must succeed. *)
Fixpoint readFifo (n : nat) s : outcome (list Z * (PxaMmc S * W)) :=
  match n with
  | O => Ret ([], s)
  | Datatypes.S n =>
      '(ok, b, s) ← pxaMmcPrvDataFifoR (fst s) (snd s);
      if (ok : bool) then '(bs, s) ← readFifo n s; Ret (b :: bs, s) else Abort
  end.

(** The bytes of [n] sectors from [sec] on. *)
Definition sectorBytes (st : S) (sec : Z) : list Z :=
  match sec_read st sec with Ret (true, b) => b | _ => [] end.
Fixpoint sectorsBytes (st : S) (sec : Z) (n : nat) : list Z :=
  match n with O => [] | Datatypes.S n => sectorBytes st sec ++ sectorsBytes st (sec + 1) n end.

(** The bytes [rest] are in the FIFO and [k] sectors from [sec] on follow. *)
Record streaming (st : S) (k : nat) (sec : Z) (rest : list Z) mmc : Prop := {
  sg_len : mmc.(blkLen) = 512;
  sg_num : mmc.(numBlks) = Z.of_nat k;
  sg_ongoing : mmc.(dataXferOngoing) = true;
  sg_bytes : mmc.(fifoBytes) = Z.of_nat (length rest);
  sg_ofst : 0 <= mmc.(fifoOfst) /\ mmc.(fifoOfst) + Z.of_nat (length rest) <= 1024;
  sg_fifo : length mmc.(blockFifo) = 1024%nat;
  sg_rest : forall i, 0 <= i < Z.of_nat (length rest) -> mmc.(blockFifo).[mmc.(fifoOfst) + i] = rest.[i];
  sg_card : exists v, mmc.(vsd) = Some v /\ v.(store) = st /\
    if bool_decide (k = 0)%nat then v.(state) = StateTran else xfer StateData (Z.of_nat k) sec v
}.

Lemma streaming_recalc st k sec rest mmc (w : W) :
  streaming st k sec rest mmc -> streaming st k sec rest (fst (pxaMmcPrvRecalcIregAndFifo mmc w)).
Proof.
  intros [G1 G2 G3 G4 G5 G6 G7 G8]. pose proof (recalc_dataPath mmc w) as Hd.
  destruct (fst _). unfold dataPath in Hd. cbn in *. injection Hd. intros. subst. by split.
Qed.

(** A read that leaves bytes in the FIFO. *)
Lemma fifoR_next st k sec b b' rest s :
  streaming st k sec (b :: b' :: rest) (fst s) ->
  exists s', pxaMmcPrvDataFifoR (fst s) (snd s) = Ret (true, b, s') /\ streaming st k sec (b' :: rest) (fst s').
Proof.
  destruct s as [mmc w]. cbn [fst snd]. intros [G1 G2 G3 G4 G5 G6 G7 G8]. cbn [length] in *.
  unfold pxaMmcPrvDataFifoR. rewrite (proj2 (Z.eqb_neq mmc.(fifoBytes) 0)) by lia.
  assert (in_object mmc.(blockFifo) mmc.(fifoOfst) 1 = true) as -> by (apply in_object_spec; lia).
  cbv zeta. match goal with |- context [fifoBytes ?x =? 0] => set (m1 := x) end.
  assert (streaming st k sec (b' :: rest) m1 /\ m1.(fifoBytes) = Z.of_nat (length (b' :: rest))) as [Hs1 Hb1].
  { subst m1. destruct mmc. cbn in *. rewrite (wrap_small 32) by (split; lia). split; [|lia].
    split; cbn; try done; try lia. intros i Hi. rewrite <- Z.add_assoc, (G7 (1 + i)) by lia.
    unfold aget. by replace (Z.to_nat (1 + i)) with (Datatypes.S (Z.to_nat i)) by lia. }
  rewrite Hb1, (proj2 (Z.eqb_neq _ 0)) by (cbn [length]; lia). cbn [mbind outcome_bind].
  replace (mmc.(blockFifo).[mmc.(fifoOfst)]) with b by (rewrite <- (Z.add_0_r mmc.(fifoOfst)), G7 by lia; done).
  eexists. split; [reflexivity|]. by apply streaming_recalc.
Qed.

(** The next block of the card enters the FIFO. *)
Lemma nextBlock_streams k sec v mmc :
  mmc.(blkLen) = 512 -> mmc.(numBlks) = Z.of_nat (Datatypes.S k) -> mmc.(dataXferOngoing) = true ->
  length mmc.(blockFifo) = 1024%nat -> mmc.(vsd) = Some v -> xfer StateData (Z.of_nat (Datatypes.S k)) sec v ->
  sec_wf v.(store) -> 0 <= sec -> sec + Z.of_nat (Datatypes.S k) <= sec_total v.(store) ->
  sec + Z.of_nat (Datatypes.S k) < 2 ^ 32 -> Z.of_nat (Datatypes.S k) < 2 ^ 16 ->
  exists mmc', pxaMmcPrvDataXferNextBlockRead mmc = Ret mmc' /\ is_block (sectorBytes v.(store) sec) /\
    streaming v.(store) k (sec + 1) (sectorBytes v.(store) sec) mmc' /\ commandPath mmc' = commandPath mmc.
Proof.
  intros G1 G2 G3 G4 G5 Hx Hw Hs Ht H32 H16.
  destruct (receiveBlock_xfer _ _ v Hx Hw) as (bs & v' & Er & Ers & Hx' & Hst & _); [lia|lia|split; lia|].
  destruct (sec_read_in v.(store) sec Hw) as (bs' & Ebs & Hb); [lia|]. rewrite Ers in Ebs. injection Ebs as <-.
  assert (sectorBytes v.(store) sec = bs) as -> by (unfold sectorBytes; by rewrite Ers).
  unfold pxaMmcPrvDataXferNextBlockRead. rewrite G3, G5, G1, Er. cbn [negb mbind outcome_bind].
  eexists. split; [reflexivity|]. split; [done|]. unfold is_block in Hb.
  destruct mmc. cbn in G1, G2, G3, G4, G5 |- *. subst. split; [|done]. split; cbn; try done.
  - replace (Z.of_nat (Datatypes.S k) - 1) with (Z.of_nat k) by lia. apply wrap_small. split; lia.
  - by rewrite Hb.
  - rewrite Hb. lia.
  - by rewrite length_poke.
  - rewrite Hb. intros i Hi. rewrite aget_poke by (lia || (apply in_object_spec; rewrite Hb; lia)).
    rewrite Hb. rewrite (proj2 (Z.leb_le _ _)), (proj2 (Z.ltb_lt _ _)) by lia. cbn [andb]. f_equal. lia.
  - exists v'. split; [done|]. split; [done|]. case_bool_decide as Hk.
    + subst k. by destruct Hx'.
    + rewrite (proj2 (Z.eqb_neq _ _)) in Hx' by lia. by replace (Z.of_nat k) with (Z.of_nat (Datatypes.S k) - 1) by lia.
Qed.

(** The last byte of a block: the next block is fetched from the card. *)
Lemma fifoR_refill st k sec b s :
  streaming st (Datatypes.S k) sec [b] (fst s) ->
  sec_wf st -> 0 <= sec -> sec + Z.of_nat (Datatypes.S k) <= sec_total st -> sec + Z.of_nat (Datatypes.S k) < 2 ^ 32 ->
  Z.of_nat (Datatypes.S k) < 2 ^ 16 ->
  exists s', pxaMmcPrvDataFifoR (fst s) (snd s) = Ret (true, b, s') /\
    is_block (sectorBytes st sec) /\ streaming st k (sec + 1) (sectorBytes st sec) (fst s').
Proof.
  destruct s as [mmc w]. cbn [fst snd]. intros [G1 G2 G3 G4 G5 G6 G7 G8] Hw Hs Ht H32 H16. cbn [length] in *.
  unfold pxaMmcPrvDataFifoR. rewrite (proj2 (Z.eqb_neq mmc.(fifoBytes) 0)) by lia.
  assert (in_object mmc.(blockFifo) mmc.(fifoOfst) 1 = true) as -> by (apply in_object_spec; lia).
  cbv zeta. match goal with |- context [fifoBytes ?x =? 0] => set (m1 := x) end.
  replace (mmc.(blockFifo).[mmc.(fifoOfst)]) with b by (rewrite <- (Z.add_0_r mmc.(fifoOfst)), G7 by lia; done).
  destruct G8 as (v & Ev & <- & Hx). rewrite bool_decide_eq_false_2 in Hx by lia.
  assert (m1.(fifoBytes) = 0) as -> by (destruct mmc; cbn in *; lia). cbn [Z.eqb].
  assert (nz m1.(numBlks) = true) as ->
    by (apply negb_true_iff, Z.eqb_neq; destruct mmc; cbn in *; lia).
  destruct (nextBlock_streams k sec v m1) as (m2 & E & Hb & Hs2 & _); try done; try (by destruct mmc).
  rewrite E. cbn [mbind outcome_bind]. eexists. split; [reflexivity|]. split; [done|]. by apply streaming_recalc.
Qed.

(** The last byte of the last block ends the transfer. *)
Lemma fifoR_last st sec b s :
  streaming st 0 sec [b] (fst s) ->
  exists s' v, pxaMmcPrvDataFifoR (fst s) (snd s) = Ret (true, b, s') /\
    (fst s').(dataXferOngoing) = false /\ tst (fst s').(stat) 0x0800 = true /\ (fst s').(fifoBytes) = 0 /\
    (fst s').(vsd) = Some v /\ v.(store) = st /\ v.(state) = StateTran.
Proof.
  destruct s as [mmc w]. cbn [fst snd]. intros [G1 G2 G3 G4 G5 G6 G7 G8]. cbn [length] in *.
  unfold pxaMmcPrvDataFifoR. rewrite (proj2 (Z.eqb_neq mmc.(fifoBytes) 0)) by lia.
  assert (in_object mmc.(blockFifo) mmc.(fifoOfst) 1 = true) as -> by (apply in_object_spec; lia).
  cbv zeta. match goal with |- context [fifoBytes ?x =? 0] => set (m1 := x) end.
  replace (mmc.(blockFifo).[mmc.(fifoOfst)]) with b by (rewrite <- (Z.add_0_r mmc.(fifoOfst)), G7 by lia; done).
  destruct G8 as (v & Ev & Hst & Hx). rewrite bool_decide_eq_true_2 in Hx by done.
  assert (m1.(fifoBytes) = 0) as Hb1 by (destruct mmc; cbn in *; lia). rewrite Hb1. cbn [Z.eqb].
  assert (nz m1.(numBlks) = false) as -> by (destruct mmc; cbn in *; by subst). cbn [mbind outcome_bind].
  match goal with |- context [pxaMmcPrvRecalcIregAndFifo ?x w] => set (m2 := x) end.
  exists (pxaMmcPrvRecalcIregAndFifo m2 w), v. split; [reflexivity|].
  pose proof (recalc_dataPath m2 w) as Hd. pose proof (recalc_stat m2 w 0x0800) as Hr.
  assert (tst m2.(stat) 0x0800 = true) as Ht.
  { destruct mmc. cbn. change 0x0800 with (2 ^ 11). rewrite tst_bit, Z.lor_spec by done. by rewrite orb_true_r. }
  specialize (Hr Ht). destruct (pxaMmcPrvRecalcIregAndFifo m2 w) as [m3 w3]. cbn [fst] in *.
  unfold dataPath in Hd. injection Hd. intros. split; [destruct mmc; cbn in *; congruence|].
  split; [done|]. split; [destruct mmc; cbn in *; congruence|]. split; [destruct mmc; cbn in *; congruence|]. done.
Qed.

(** All that is left of a transfer, byte by byte. *)
Lemma readFifo_streams k : forall st sec rest s,
  streaming st k sec rest (fst s) -> rest <> [] ->
  sec_wf st -> 0 <= sec -> sec + Z.of_nat k <= sec_total st -> sec + Z.of_nat k < 2 ^ 32 -> Z.of_nat k < 2 ^ 16 ->
  exists s' v, readFifo (length rest + 512 * k) s = Ret (rest ++ sectorsBytes st sec k, s') /\
    (fst s').(dataXferOngoing) = false /\ tst (fst s').(stat) 0x0800 = true /\ (fst s').(fifoBytes) = 0 /\
    (fst s').(vsd) = Some v /\ v.(store) = st /\ v.(state) = StateTran.
Proof.
  induction k as [|k IHk]; intros st sec rest; induction rest as [|b rest IH]; intros s Hg Hne Hw Hs Ht H32 H16;
    try done; destruct rest as [|b' rest].
  - destruct (fifoR_last st sec b s Hg) as (s' & v & E & Hr). exists s', v. cbn [length Nat.add readFifo].
    change (512 * 0)%nat with 0%nat. cbn [readFifo]. rewrite E. by cbn.
  - destruct (fifoR_next _ _ _ _ _ _ _ Hg) as (s1 & E & Hg1).
    destruct (IH s1 Hg1) as (s' & v & E' & Hr); [done..|]. exists s', v.
    cbn [length Nat.add readFifo] in *. rewrite E. cbn [mbind outcome_bind]. rewrite E'. by cbn.
  - destruct (fifoR_refill _ _ _ _ _ Hg Hw Hs Ht H32 H16) as (s1 & E & Hb & Hg1).
    destruct (IHk st (sec + 1) (sectorBytes st sec) s1 Hg1) as (s' & v & E' & Hr);
      [by intros Hn; rewrite Hn in Hb|done|lia|lia|lia|lia|].
    exists s', v. unfold is_block in Hb. rewrite Hb in E'.
    replace (length [b] + 512 * Datatypes.S k)%nat with (Datatypes.S (512 + 512 * k)) by (cbn [length]; lia).
    cbn [readFifo]. rewrite E. cbn [mbind outcome_bind]. rewrite E'. by cbn.
  - destruct (fifoR_next _ _ _ _ _ _ _ Hg) as (s1 & E & Hg1).
    destruct (IH s1 Hg1) as (s' & v & E' & Hr); [done..|]. exists s', v.
    cbn [length Nat.add readFifo] in *. rewrite E. cbn [mbind outcome_bind]. rewrite E'. by cbn.
Qed.

(** ** A guest program *)

Definition guestWr (reg val : Z) s : outcome (PxaMmc S * W) :=
  '(ok, _, s) ← pxaMmcPrvMemAccessF (fst s) (snd s) (PXA_MMC_BASE + 4 * reg) 4 true val;
  if (ok : bool) then Ret s else Abort.

(** A command, its argument, and the expected response. *)
Definition guestCommand (cmd param dat : Z) s : outcome (PxaMmc S * W) :=
  s ← guestWr 12 cmd s; s ← guestWr 13 (param .>> 16) s; s ← guestWr 14 (param .& 0xffff) s; guestWr 4 dat s.

(** The registers of a transfer of [n] blocks of 512 bytes. *)
Definition guestBlocks (n : nat) s : outcome (PxaMmc S * W) :=
  s ← guestWr 7 512 s; guestWr 8 (Z.of_nat n) s.

(** Read [n] sectors: CMD23 with a 48-bit response, CMD18 with a response and
    data, and one read of the FIFO for every byte. *)
Definition guestRead (addr : Z) (n : nat) s : outcome (list Z * (PxaMmc S * W)) :=
  s ← guestBlocks n s;
  s ← guestCommand 23 (Z.of_nat n) 1 s;
  s ← guestCommand 18 addr 5 s;
  readFifo (512 * n) s.

(** The command and data path before CMDAT is written. *)
Definition ready (v : VSD S) (n : nat) mmc : Prop :=
  mmc.(clockOn) = true /\ mmc.(vsd) = Some v /\ mmc.(blkLen) = 512 /\ mmc.(numBlks) = Z.of_nat n /\
  length mmc.(blockFifo) = 1024%nat.

Lemma arg_halves a p : is_u 32 p ->
  ((a .& 0x0000ffff .| u32 ((p .>> 16) .<< 16)) .& 0xffff0000) .| ((p .& 0xffff) .& 0xffff) = p.
Proof.
  intros Hp. change 0x0000ffff with (Z.ones 16). bits_ext i Hi.
  change 0xffff0000 with (Z.ones 16 .<< 16). rewrite Z.shiftl_spec by done.
  destruct (Z.lt_ge_cases i 16).
  - rewrite (Z.testbit_neg_r (Z.ones 16) (i - 16)), (Z.ones_spec_low 16 i) by lia.
    by rewrite !andb_true_r, andb_false_r.
  - rewrite (Z.ones_spec_high 16 i), !andb_false_r, orb_false_l, orb_false_r by lia.
    destruct (Z.ltb_spec i 32); cbn [andb].
    + rewrite Z.ones_spec_low by lia. rewrite andb_true_r, Z.shiftr_spec by lia. f_equal. lia.
    + symmetry. by apply (testbit_above 32).
Qed.

Lemma writeCmdat_sends mmc (w : W) d :
  mmc.(clockOn) = true -> is_u 8 d ->
  exists m w', writeCmdat mmc w d = mmcSendCommand m w' /\ dataPath m = dataPath mmc /\
    commandPath m = (d, true, mmc.(cmdQueued), mmc.(cmdReg), mmc.(arg)).
Proof.
  intros Hclk Hd. unfold writeCmdat. rewrite (wrap_small 8 d) by done. cbv zeta.
  match goal with |- context [pxaMmcPrvRecalcIregAndFifo ?x w] => set (m0 := x) end.
  pose proof (recalc_dataPath m0 w) as Hdp. pose proof (recalc_commandPath m0 w) as Hcp.
  destruct (pxaMmcPrvRecalcIregAndFifo m0 w) as [m w']. cbn [fst] in *. exists m, w'.
  assert (commandPath m0 = (d, true, mmc.(cmdQueued), mmc.(cmdReg), mmc.(arg))) as E0
    by (destruct mmc; cbn in *; by subst).
  rewrite E0 in Hcp. assert (m.(clockOn) = true) as -> by (unfold commandPath in Hcp; by injection Hcp).
  split; [done|]. split; [|done]. rewrite Hdp. by destruct mmc.
Qed.

(** Writing a command register by register. *)
Lemma guestCommand_sends c p d mmc (w : W) :
  mmc.(clockOn) = true -> is_u 32 p -> is_u 8 d ->
  exists m w', guestCommand c p d (mmc, w) =
      ('(ok, s) ← mmcSendCommand m w'; if (ok : bool) then Ret s else Abort) /\
    dataPath m = dataPath mmc /\ commandPath m = (d, true, mmc.(cmdQueued), 0x40 .| (c .& 0x3f), p).
Proof.
  intros Hclk Hp Hd. set (m1 := { mmc with cmdReg := 0x40 .| (c .& 0x3f); arg := p }).
  destruct (writeCmdat_sends m1 w d) as (m & w' & E & Hdp & Hcp); [by destruct mmc|done|].
  exists m, w'. split; [|split; [rewrite Hdp; by destruct mmc|rewrite Hcp; by destruct mmc]].
  transitivity ('(ok, _, s) ← ('(ret, s) ← writeCmdat m1 w d; Ret (ret, d, s));
                if (ok : bool) then Ret s else @Abort (PxaMmc S * W)).
  - assert (m1 = { mmc with cmdReg := 0x40 .| (c .& 0x3f);
        arg ::= (fun a => ((a .& 0x0000ffff .| u32 ((p .>> 16) .<< 16)) .& 0xffff0000) .| ((p .& 0xffff) .& 0xffff)) })
      as -> by (subst m1; destruct mmc; cbn; by rewrite arg_halves).
    destruct mmc. reflexivity.
  - rewrite E. by destruct (mmcSendCommand m w') as [[ok s]| | |].
Qed.

(** A command answered with the 48 bits the guest expects: what is left is to
    start the data transfer, if the guest asks for one. *)
Lemma send48 v v' mmc (w : W) :
  mmc.(vsd) = Some v -> answers48 v (mmc.(cmdReg) .& 0x3f) mmc.(arg) v' -> tst mmc.(cmdat) 1 = true ->
  exists m, dataPath m = dataPath { mmc with vsd := Some v' } /\
    commandPath m = commandPath { mmc with cmdQueued := false } /\
    mmcSendCommand mmc w =
      (m ← (if tst mmc.(cmdat) 4 then pxaMmcPrvDataXferStart m else Ret m);
       let m := if negb (tst m.(cmdat) 4) || negb (tst m.(cmdat) 8) then setStat m 0x1000 else m in
       Ret (true, pxaMmcPrvRecalcIregAndFifo m w)).
Proof.
  intros Hv Ha Ht1. destruct (answers48_command _ _ _ _ replyBuffer Ha) as (r & E).
  unfold mmcSendCommand. destruct mmc. cbn -[replyBuffer] in Hv, Ha, Ht1, E. subst.
  cbn -[vsdCommand storeReply vsdCRC7 pxaMmcPrvDataXferStart pxaMmcPrvRecalcIregAndFifo Z.land replyBuffer].
  rewrite E. cbn -[storeReply vsdCRC7 pxaMmcPrvDataXferStart pxaMmcPrvRecalcIregAndFifo Z.land replyBuffer].
  rewrite Ht1. destruct (vsdCRC7 r 5 =? r.[5]), (tst cmdat0 2);
    cbn -[storeReply pxaMmcPrvDataXferStart pxaMmcPrvRecalcIregAndFifo Z.land tst];
    (refine (ex_intro _ _ (conj _ (conj _ _))); [..|reflexivity]; reflexivity).
Qed.

(** The fields of the paths one by one. *)
Lemma dataPath_inj mmc mmc' :
  dataPath mmc = dataPath mmc' ->
  mmc.(blkLen) = mmc'.(blkLen) /\ mmc.(numBlks) = mmc'.(numBlks) /\ mmc.(vsd) = mmc'.(vsd) /\
  mmc.(blockFifo) = mmc'.(blockFifo).
Proof. unfold dataPath. intros E. by injection E. Qed.

Lemma commandPath_inj mmc d c q r a :
  commandPath mmc = (d, c, q, r, a) -> mmc.(cmdat) = d /\ mmc.(clockOn) = c /\ mmc.(cmdReg) = r /\ mmc.(arg) = a.
Proof. unfold commandPath. intros E. by injection E. Qed.

Lemma streaming_setStat st k sec rest mmc x :
  streaming st k sec rest mmc -> streaming st k sec rest (setStat mmc x).
Proof. intros []. destruct mmc. cbn in *. by split. Qed.

Lemma dataPath_vsd mmc mmc' x :
  dataPath mmc = dataPath mmc' -> dataPath { mmc with vsd := x } = dataPath { mmc' with vsd := x }.
Proof. destruct mmc, mmc'. unfold dataPath. cbn. intros E. injection E. intros. by subst. Qed.

(** A command from the first register write to its response. *)
Lemma guest48 v v' c p d mmc (w : W) :
  mmc.(clockOn) = true -> mmc.(vsd) = Some v -> is_u 32 p -> is_u 8 d -> tst d 1 = true ->
  answers48 v ((0x40 .| (c .& 0x3f)) .& 0x3f) p v' ->
  exists m w', dataPath m = dataPath { mmc with vsd := Some v' } /\
    commandPath m = (d, true, false, 0x40 .| (c .& 0x3f), p) /\
    guestCommand c p d (mmc, w) =
      (m ← (if tst d 4 then pxaMmcPrvDataXferStart m else Ret m);
       Ret (pxaMmcPrvRecalcIregAndFifo
              (if negb (tst m.(cmdat) 4) || negb (tst m.(cmdat) 8) then setStat m 0x1000 else m) w')).
Proof.
  intros Hclk Hv Hp Hd Ht Hans.
  destruct (guestCommand_sends c p d mmc w) as (m & w1 & E & Hdp & Hcp); [done..|].
  pose proof (commandPath_inj _ _ _ _ _ _ Hcp) as (Hd1 & _ & Hr & Ha).
  pose proof (dataPath_inj _ _ Hdp) as (_ & _ & Hv1 & _).
  destruct (send48 v v' m w1) as (m2 & Hdp2 & Hcp2 & E2); [congruence|by rewrite Hr, Ha|by rewrite Hd1|].
  exists m2, w1. split; [rewrite Hdp2; by apply dataPath_vsd|]. split.
  - rewrite Hcp2. destruct m. unfold commandPath in *. cbn in *. injection Hcp. intros. by subst.
  - rewrite E, E2, Hd1. destruct (if tst d 4 then _ else _); reflexivity.
Qed.

(** The block count: a command with a 48-bit response and no data. *)
Lemma guest_count v n mmc (w : W) :
  mmc.(clockOn) = true -> mmc.(vsd) = Some v -> idle_card v -> (0 < n)%nat -> Z.of_nat n < 2 ^ 32 ->
  exists mmc' w' v', guestCommand 23 (Z.of_nat n) 1 (mmc, w) = Ret (mmc', w') /\ mmc'.(clockOn) = true /\
    dataPath mmc' = dataPath { mmc with vsd := Some v' } /\
    v' = { v with reportAcmdNext := false; haveExpectedNumBlocks := true; numBlocksExpected := Z.of_nat n }.
Proof.
  intros Hclk Hv [Hs Ha Hw] Hn H32. pose proof (count_answers v (Z.of_nat n) Hs Ha ltac:(lia)) as Hans.
  destruct (guest48 v _ 23 (Z.of_nat n) 1 mmc w Hclk Hv ltac:(split; lia) ltac:(is_u_lit) eq_refl Hans)
    as (m & w1 & Hdp & Hcp & E).
  change (tst 1 4) with false in E. cbn [mbind outcome_bind] in E.
  match type of E with _ = Ret (pxaMmcPrvRecalcIregAndFifo ?x w1) =>
    pose proof (recalc_dataPath x w1) as Hdp2; pose proof (recalc_commandPath x w1) as Hcp2;
    destruct (pxaMmcPrvRecalcIregAndFifo x w1) as [mmc' w'] end.
  cbn [fst] in *. eexists mmc', w', _. split; [done|]. split; [|split; [|reflexivity]].
  - assert (commandPath mmc' = commandPath m) as Hc3 by (rewrite Hcp2; destruct (negb _ || _); [by destruct m|done]).
    rewrite Hcp in Hc3. by apply commandPath_inj in Hc3 as (_ & ? & _).
  - rewrite Hdp2, <- Hdp. destruct (negb _ || _); [by destruct m|done].
Qed.

(** The data command of a read: the first block is in the FIFO. *)
Lemma guest_read_start v k sec mmc (w : W) :
  mmc.(clockOn) = true -> mmc.(vsd) = Some v -> v.(state) = StateTran -> v.(acmdShift) = false ->
  v.(haveExpectedNumBlocks) = true -> v.(numBlocksExpected) = Z.of_nat (Datatypes.S k) ->
  mmc.(blkLen) = 512 -> mmc.(numBlks) = Z.of_nat (Datatypes.S k) -> length mmc.(blockFifo) = 1024%nat ->
  sec_wf v.(store) -> 0 <= sec -> sec + Z.of_nat (Datatypes.S k) <= sec_total v.(store) ->
  sec + Z.of_nat (Datatypes.S k) < 2 ^ 32 -> Z.of_nat (Datatypes.S k) < 2 ^ 16 -> is_u 32 (cardAddress v sec) ->
  exists s, guestCommand 18 (cardAddress v sec) 5 (mmc, w) = Ret s /\ is_block (sectorBytes v.(store) sec) /\
    streaming v.(store) k (sec + 1) (sectorBytes v.(store) sec) (fst s).
Proof.
  intros Hclk Hv Hs Ha Hh Hnum Hbl Hnb Hf Hw Hsec Ht H32 H16 Haddr.
  pose proof (data_answers 18 StateData v sec ltac:(auto) Hs Ha Hsec) as Hans.
  match type of Hans with answers48 _ _ _ ?x => set (v1 := x) in * end.
  assert (v1.(store) = v.(store) /\ xfer StateData (Z.of_nat (Datatypes.S k)) sec v1) as [Hst Hx]
    by (subst v1; destruct v; cbn in *; split; [done|by split]).
  clearbody v1.
  destruct (guest48 v v1 18 (cardAddress v sec) 5 mmc w Hclk Hv Haddr ltac:(is_u_lit) eq_refl Hans)
    as (m & w1 & Hdp & Hcp & E).
  rewrite E. clear E. change (tst 5 4) with true. cbv iota.
  set (m1 := { m with dataXferOngoing := true }).
  assert (m1.(blkLen) = 512 /\ m1.(numBlks) = Z.of_nat (Datatypes.S k) /\ m1.(dataXferOngoing) = true /\
    length m1.(blockFifo) = 1024%nat /\ m1.(vsd) = Some v1 /\ m1.(cmdat) = 5) as (B1 & B2 & B3 & B4 & B5 & B6).
  { pose proof (dataPath_inj _ _ Hdp) as (? & ? & ? & ?). pose proof (commandPath_inj _ _ _ _ _ _ Hcp) as (? & _).
    subst m1. destruct m, mmc. cbn in *. subst. done. }
  assert (pxaMmcPrvDataXferStart m = pxaMmcPrvDataXferNextBlockRead m1) as ->.
  { unfold pxaMmcPrvDataXferStart. fold m1. rewrite B1, B2, B6. unfold nz.
    by rewrite (proj2 (Z.eqb_neq (Z.of_nat (Datatypes.S k)) 0)) by lia. }
  rewrite <- Hst in Hw, Ht |- *.
  destruct (nextBlock_streams k sec v1 m1 B1 B2 B3 B4 B5 Hx Hw Hsec Ht H32 H16) as (m2 & -> & Hb & Hs2 & _).
  cbn [mbind outcome_bind]. eexists. split; [reflexivity|]. split; [done|]. apply streaming_recalc.
  case_match; [by apply streaming_setStat|done].
Qed.

Lemma sectorsBytes_S st sec n : sectorsBytes st sec (Datatypes.S n) = sectorBytes st sec ++ sectorsBytes st (sec + 1) n.
Proof. reflexivity. Qed.

(** C23. A guest that sets a block count with CMD23, sends CMD18 and reads the
    receive FIFO once for every byte gets the bytes of the sectors it asked
    for, in order, and none else: through the controller, the card's state
    machine and its storage. At the end the controller reports the end of the
    transfer, the storage is as before and the card is back in the transfer
    state. *)
Theorem mmc_read_streams v mmc (w : W) (sec : Z) (n : nat)
    (Hclk : mmc.(clockOn) = true) (Hv : mmc.(vsd) = Some v) (Hf : length mmc.(blockFifo) = 1024%nat)
    (Hi : idle_card v) (Hon : on_card v sec n) (Hn : Z.of_nat n < 2 ^ 16) :
  exists s' v', guestRead (cardAddress v sec) n (mmc, w) = Ret (sectorsBytes v.(store) sec n, s') /\
    tst (fst s').(stat) 0x0800 = true /\ (fst s').(dataXferOngoing) = false /\ (fst s').(vsd) = Some v' /\
    v'.(store) = v.(store) /\ v'.(state) = StateTran.
Proof.
  destruct Hon as (Hpos & Hsec & Htot & H32 & Haddr). destruct n as [|k]; [lia|].
  set (mmc1 := { mmc with blkLen := 512; numBlks := Z.of_nat (Datatypes.S k) }).
  assert (guestBlocks (Datatypes.S k) (mmc, w) = Ret (mmc1, w)) as E0.
  { transitivity (@Ret (PxaMmc S * W) ({ mmc with blkLen := 512; numBlks := u16 (Z.of_nat (Datatypes.S k)) }, w)).
    - destruct mmc. reflexivity.
    - rewrite wrap_small by (split; lia). reflexivity. }
  destruct (guest_count v (Datatypes.S k) mmc1 w) as (mmc2 & w2 & v2 & E2 & Hclk2 & Hdp2 & Ev2);
    [by destruct mmc|by destruct mmc|done|lia|lia|].
  pose proof (dataPath_inj _ _ Hdp2) as (D1 & D2 & D3 & D4).
  assert (cardAddress v2 sec = cardAddress v sec /\ v2.(store) = v.(store) /\ v2.(state) = StateTran /\
    v2.(acmdShift) = false /\ v2.(haveExpectedNumBlocks) = true /\ v2.(numBlocksExpected) = Z.of_nat (Datatypes.S k))
    as (Ca & Cst & Cs & Cac & Ch & Cn) by (destruct Hi; subst v2; destruct v; by cbn in *).
  pose proof (ic_store v Hi) as Hw.
  destruct (guest_read_start v2 k sec mmc2 w2) as (s & E & Hb & Hg); try done.
  { subst mmc1. clear Ev2. destruct mmc. cbn in *. by rewrite D4. }
  { by rewrite Cst. }
  { by rewrite Cst. }
  { rewrite Ca. unfold cardAddress in *. destruct (hcCard v); destruct Haddr; split; lia. }
  rewrite Cst in *.
  destruct (readFifo_streams k v.(store) (sec + 1) (sectorBytes v.(store) sec) s Hg) as (s' & v' & E' & Hr);
    [by intros Hnil; rewrite Hnil in Hb|done|lia|lia|lia|lia|].
  exists s', v'. destruct Hr as (R1 & R2 & _ & R4 & R5 & R6). split; [|done].
  unfold guestRead. rewrite E0. cbn [mbind outcome_bind]. rewrite E2. cbn [mbind outcome_bind].
  rewrite <- Ca, E. cbn [mbind outcome_bind]. unfold is_block in Hb. rewrite Hb in E'.
  rewrite sectorsBytes_S, <- E'. f_equal. lia.
Qed.
End Streams.

(** ** Accesses the controller does not survive *)
Section Faults.
Context {S : Type} `{SectorStore S}.
Context {W : Type} `{DmaSink W}.
Implicit Types (mmc : PxaMmc S) (s : PxaMmc S * W).

Lemma start_no_card mmc :
  mmc.(vsd) = None -> nz mmc.(blkLen) = true -> nz mmc.(numBlks) = true -> tst mmc.(cmdat) 8 = false ->
  pxaMmcPrvDataXferStart mmc = Undef.
Proof.
  intros G1 G2 G3 G4. destruct mmc. cbn -[nz tst] in G1, G2, G3, G4. subst.
  unfold pxaMmcPrvDataXferStart. cbn -[nz tst]. by rewrite G2, G3, G4.
Qed.

(** Without a card, a command that asks for no response but for data - one
    write to CMDAT, with a block length and a block count set - dereferences
    the null card pointer. *)
Theorem mmc_no_card_faults mmc (w : W)
    (Hv : mmc.(vsd) = None) (Hclk : mmc.(clockOn) = true)
    (Hb : 0 < mmc.(blkLen)) (Hn : 0 < mmc.(numBlks)) :
  pxaMmcPrvMemAccessF mmc w (PXA_MMC_BASE + 0x10) 4 true 4 = Undef.
Proof.
  transitivity ('(ret, s) ← writeCmdat mmc w 4; @Ret (access (PxaMmc S * W)) (ret, 4, s)); [reflexivity|].
  destruct (writeCmdat_sends mmc w 4 Hclk ltac:(is_u_lit)) as (m & w' & -> & Hdp & Hcp).
  apply commandPath_inj in Hcp as (Hd & _). apply dataPath_inj in Hdp as (Hbl & Hnb & Hvm & _).
  assert (nz m.(blkLen) = true /\ nz m.(numBlks) = true) as [E1 E2]
    by (unfold nz; rewrite Hbl, Hnb; split; apply negb_true_iff, Z.eqb_neq; lia).
  rewrite Hv in Hvm. destruct m. cbn in Hd, Hvm, E1, E2. subst. unfold mmcSendCommand.
  cbn -[pxaMmcPrvDataXferStart storeReply nz]. by rewrite start_no_card.
Qed.

(** One byte into the transmit FIFO and one out of the receive FIFO. *)
Definition fifoRound (b : Z) s : outcome (PxaMmc S * W) :=
  '(_, s) ← pxaMmcPrvDataFifoW (fst s) (snd s) b;
  '(_, _, s) ← pxaMmcPrvDataFifoR (fst s) (snd s);
  Ret s.

(** The state between rounds, no transfer being set up. *)
Record stale (o : Z) mmc : Prop := {
  st_len : 1 < mmc.(blkLen);
  st_num : mmc.(numBlks) = 0;
  st_bytes : mmc.(fifoBytes) = 0;
  st_ofst : mmc.(fifoOfst) = o;
  st_fifo : length mmc.(blockFifo) = 1024%nat
}.

Lemma stale_write o mmc (w : W) b :
  stale o mmc -> exists mmc' w', pxaMmcPrvDataFifoW mmc w b = Ret (true, (mmc', w')) /\
    mmc'.(fifoBytes) = 1 /\ mmc'.(fifoOfst) = o /\ mmc'.(numBlks) = 0 /\ 1 < mmc'.(blkLen) /\
    length mmc'.(blockFifo) = 1024%nat.
Proof.
  intros [G1 G2 G3 G4 G5]. unfold pxaMmcPrvDataFifoW. rewrite G3. rewrite (proj2 (Z.leb_gt _ 0)) by lia. cbv zeta.
  match goal with |- context [fifoBytes ?x =? blkLen ?x] => set (m1 := x) end.
  assert (m1.(fifoBytes) = 1 /\ m1.(fifoOfst) = o /\ m1.(numBlks) = 0 /\ m1.(blkLen) = mmc.(blkLen) /\
    length m1.(blockFifo) = 1024%nat) as (B1 & B2 & B3 & B4 & B5).
  { destruct mmc. cbn in *. subst. rewrite length_aset. done. }
  rewrite B1, B4, (proj2 (Z.eqb_neq 1 _)) by lia.
  pose proof (recalc_dataPath m1 w) as Hd. unfold dataPath in Hd.
  destruct (pxaMmcPrvRecalcIregAndFifo m1 w) as [m2 w2]. cbn [fst] in Hd. injection Hd. intros.
  exists m2, w2. split; [done|]. repeat split; try congruence; lia.
Qed.

Lemma stale_round o b s :
  stale o (fst s) -> 0 <= o < 1024 -> exists s', fifoRound b s = Ret s' /\ stale (o + 1) (fst s').
Proof.
  intros Hst Ho. destruct s as [mmc w]. cbn [fst] in Hst.
  destruct (stale_write o mmc w b Hst) as (m & w1 & E & B1 & B2 & B3 & B4 & B5).
  unfold fifoRound. cbn [fst snd]. rewrite E. cbn [mbind outcome_bind fst snd].
  unfold pxaMmcPrvDataFifoR. rewrite B1, B2. cbn [Z.eqb].
  assert (in_object m.(blockFifo) o 1 = true) as -> by (apply in_object_spec; lia). cbv zeta.
  match goal with |- context [fifoBytes ?x =? 0] => set (m1 := x) end.
  assert (m1.(fifoBytes) = 0 /\ m1.(fifoOfst) = o + 1 /\ m1.(numBlks) = 0 /\ m1.(blkLen) = m.(blkLen) /\
    m1.(blockFifo) = m.(blockFifo)) as (C1 & C2 & C3 & C4 & C5).
  { destruct m. cbn in *. subst. rewrite wrap_small by (split; lia). done. }
  rewrite C1, C3. cbn [nz negb Z.eqb mbind outcome_bind].
  match goal with |- context [pxaMmcPrvRecalcIregAndFifo ?x w1] => set (m2 := x) end.
  pose proof (recalc_dataPath m2 w1) as Hd. destruct (pxaMmcPrvRecalcIregAndFifo m2 w1) as [m3 w3].
  assert (dataPath m2 = (m1.(blkLen), m1.(numBlks), false, m1.(vsd), m1.(fifoBytes), m1.(fifoOfst), m1.(blockFifo)))
    as E2 by (subst m2; by destruct m1).
  rewrite E2 in Hd. unfold dataPath in Hd. cbn [fst] in Hd. injection Hd. intros.
  exists (m3, w3). split; [done|]. cbn [fst]. split; try congruence; lia.
Qed.

Lemma stale_rounds n b : forall o s,
  stale o (fst s) -> 0 <= o -> o + Z.of_nat n <= 1024 ->
  exists s', iterM n (fifoRound b) s = Ret s' /\ stale (o + Z.of_nat n) (fst s').
Proof.
  induction n as [|n IH]; intros o s Hst Ho Hn.
  - exists s. by rewrite Z.add_0_r.
  - destruct (stale_round o b s Hst) as (s1 & E & Hs1); [lia|]. cbn [iterM]. rewrite E. cbn [mbind outcome_bind].
    destruct (IH (o + 1) s1 Hs1) as (s' & E' & Hs'); [lia|lia|]. exists s'. split; [done|].
    by replace (o + Z.of_nat (Datatypes.S n)) with (o + 1 + Z.of_nat n) by lia.
Qed.

(** The read offset of the FIFO has no bound: with no transfer set up, a
    guest that writes a byte to the transmit FIFO and reads one from the
    receive FIFO advances it by one, 1024 times, and the next such read is
    beyond the block buffer. *)
Theorem mmc_fifo_offset_unbounded mmc (w : W) (b : Z) (Hst : stale 0 mmc) :
  exists s, iterM 1024 (fifoRound b) (mmc, w) = Ret s /\ (fst s).(fifoOfst) = 1024 /\ fifoRound b s = Undef.
Proof.
  destruct (stale_rounds 1024 b 0 (mmc, w) Hst) as ([m w1] & E & Hs); [lia|lia|].
  exists (m, w1). split; [done|]. split; [by destruct Hs|]. cbn [fst] in Hs.
  destruct (stale_write 1024 m w1 b Hs) as (m' & w' & E' & B1 & B2 & B3 & B4 & B5).
  unfold fifoRound. cbn [fst snd]. rewrite E'. cbn [mbind outcome_bind fst snd].
  unfold pxaMmcPrvDataFifoR. rewrite B1, B2. cbn [Z.eqb].
  destruct (in_object (blockFifo m') 1024 1) eqn:Ho; [|done]. apply in_object_spec in Ho. lia.
Qed.
End Faults.

(** A controller after power-up whose clock the guest has started, a transfer
    length set; without and with the demonstration card. *)
Definition demo_mmc (n : Z) (v : option (VSD SdCard)) : PxaMmc SdCard :=
  { pxaMmcInsert (fst (pxaMmcInit idle)) v with clockOn := true; blkLen := 512; numBlks := n }.

Lemma mmc_no_card_faults_witness :
  pxaMmcPrvMemAccessF (demo_mmc 1 None) idle (PXA_MMC_BASE + 0x10) 4 true 4 = Undef.
Proof. apply (mmc_no_card_faults (demo_mmc 1 None) idle); reflexivity. Defined.

Lemma mmc_fifo_offset_unbounded_witness :
  exists s, iterM 1024 (fifoRound 7) (demo_mmc 0 None, idle) = Ret s /\ fifoRound 7 s = Undef.
Proof.
  destruct (mmc_fifo_offset_unbounded (demo_mmc 0 None) idle 7) as (s & E & _ & F).
  - split; reflexivity.
  - exists s. split; [exact E|exact F].
Defined.

Lemma mmc_read_streams_witness :
  exists s' v', guestRead (cardAddress demo_idle 30) 2 (demo_mmc 0 (Some demo_idle), idle) =
      Ret (sectorsBytes demo_card 30 2, s') /\ (fst s').(vsd) = Some v' /\ v'.(state) = StateTran.
Proof.
  destruct (mmc_read_streams demo_idle (demo_mmc 0 (Some demo_idle)) idle 30 2)
    as (s' & v' & E & _ & _ & Hv & _ & Hs).
  - reflexivity.
  - reflexivity.
  - reflexivity.
  - exact demo_idle_card.
  - exact demo_on_card.
  - reflexivity.
  - exists s', v'. split; [exact E|]. split; [exact Hv|exact Hs].
Defined.
