(* ===== verification/ShiftFifo.v ===== *)
(** * Buffers that are shifted

    The serial devices keep a short FIFO in an array with a count: a character is
    appended behind the last one, and taking the first moves the others down
    with [memmove]. *)

From S2P Require Import Prelude.

(** [fifo[used++] = val] *)
Definition fifoPush (fifo : list Z) (used val : Z) : list Z := fifo.[used <- val].

(** [memmove(fifo + 0, fifo + 1, used - 1 entries)] *)
Definition fifoShift (fifo : list Z) (used : Z) : list Z :=
  take (Z.to_nat (used - 1)) (drop 1 fifo) ++ drop (Z.to_nat (used - 1)) fifo.

(** What the FIFO holds, the oldest first. *)
Definition held (fifo : list Z) (used : Z) : list Z := take (Z.to_nat used) fifo.

Lemma held_length fifo used : 0 <= used <= Z.of_nat (length fifo) -> Z.of_nat (length (held fifo used)) = used.
Proof. intros. unfold held. rewrite length_take. lia. Qed.

Lemma held_push fifo used v :
  0 <= used < Z.of_nat (length fifo) -> held (fifoPush fifo used v) (used + 1) = held fifo used ++ [v].
Proof.
  intros Hu. unfold held, fifoPush, aset. replace (Z.to_nat (used + 1)) with (S (Z.to_nat used)) by lia.
  rewrite (take_S_r _ _ v) by (apply list_lookup_insert_eq; lia). by rewrite take_insert_ge by lia.
Qed.

Lemma held_shift fifo used :
  0 < used <= Z.of_nat (length fifo) -> held fifo used = fifo.[0] :: held (fifoShift fifo used) (used - 1).
Proof.
  intros Hu. destruct fifo as [|x fifo]; [cbn [length] in Hu; lia|]. unfold held, fifoShift. cbn [drop]. cbn [length] in Hu.
  replace (Z.to_nat used) with (S (Z.to_nat (used - 1))) by lia. cbn [take]. f_equal.
  rewrite take_app_length'; [done|]. rewrite length_take, drop_0. lia.
Qed.

Lemma fifoPush_length fifo used v : length (fifoPush fifo used v) = length fifo.
Proof. apply length_aset. Qed.

Lemma fifoShift_length fifo used : 0 < used <= Z.of_nat (length fifo) -> length (fifoShift fifo used) = length fifo.
Proof. intros. unfold fifoShift. rewrite length_app, length_take, !length_drop. lia. Qed.
