(* ===== verification/Ssp.v ===== *)
(** * The synchronous serial ports (pxa_SSP.c)

    A port shifts the words of its transmit FIFO through the clients on the line,
    one per tick, and collects the replies in its receive FIFO. A client is a
    function on the world behind the port. *)

From S2P Require Import Prelude Interfaces ShiftFifo.

Definition SSP_FIFO_DEPTH := 16.
Definition DMA_OFST_RX := 0.
Definition DMA_OFST_TX := 1.

Record SocSsp (W : Type) := mkSocSsp {
  world : W;                             (* dma, ic, reschedule and the clients *)
  base : Z;
  irqNo : Z;                             (* uint8_t *)
  dmaReqNoBase : Z;                      (* uint8_t *)
  cr0 : Z;
  cr1 : Z;
  sr : Z;
  procF : list (option (W -> Z -> Z -> Z * W)); (* [8], each with its userData *)
  rxFifo : list Z;                       (* uint16_t[16] *)
  txFifo : list Z;                       (* uint16_t[16] *)
  rxFifoUsed : Z;                        (* uint8_t *)
  txFifoUsed : Z                         (* uint8_t *)
}.
Arguments mkSocSsp {W}. Arguments world {W}. Arguments base {W}. Arguments irqNo {W}. Arguments dmaReqNoBase {W}.
Arguments cr0 {W}. Arguments cr1 {W}. Arguments sr {W}. Arguments procF {W}. Arguments rxFifo {W}. Arguments txFifo {W}.
Arguments rxFifoUsed {W}. Arguments txFifoUsed {W}.

Section Operations.
Context {W : Type} `{!IrqSink W} `{!DmaSink W} `{!ReschedSink W}.
Implicit Types ssp : SocSsp W.

Definition socSspPrvIrqsUpdate ssp : SocSsp W :=
  let irq := tst ssp.(sr) 0x40 && tst ssp.(cr1) 0x01 || tst ssp.(sr) 0x20 && tst ssp.(cr1) 0x02 in
  { ssp with world ::= fun w => irq_int w ssp.(irqNo) irq }.

Definition rxStatus (status used cr1 : Z) : Z :=
  let status := status .&~ 0xf048 in
  let status := if nz used then status .| 0x08 else status in
  let status := status .| (((used - 1) .& 0x0f) .<< 12) in
  if (cr1 .>> 10) .& 0x0f <? used then status .| 0x40 else status.

Definition socSspPrvRecalcRxFifoSta ssp : SocSsp W :=
  let ssp := { ssp with sr := rxStatus ssp.(sr) ssp.(rxFifoUsed) ssp.(cr1) } in
  let ssp := { ssp with world ::= fun w => dma_external_req w (ssp.(dmaReqNoBase) + DMA_OFST_RX) (tst ssp.(sr) 0x40) } in
  socSspPrvIrqsUpdate ssp.

Definition txStatus (status used cr1 : Z) : Z :=
  let status := status .&~ 0x0f24 in
  let status := if negb (used =? SSP_FIFO_DEPTH) then status .| 0x04 else status in
  let status := status .| ((used .& 0x0f) .<< 8) in
  if used <=? (cr1 .>> 6) .& 0x0f then status .| 0x20 else status.

(** The request goes to the receive channel, as in the source. *)
Definition socSspPrvRecalcTxFifoSta ssp : SocSsp W :=
  let ssp := { ssp with sr := txStatus ssp.(sr) ssp.(txFifoUsed) ssp.(cr1) } in
  let ssp := { ssp with world ::= fun w => dma_external_req w (ssp.(dmaReqNoBase) + DMA_OFST_RX) (tst ssp.(sr) 0x20) } in
  socSspPrvIrqsUpdate ssp.

(** The value read, 16 bits wide; an empty FIFO gives 0. *)
Definition socSspPrvFifoR ssp : Z * SocSsp W :=
  if ssp.(rxFifoUsed) =? 0 then (0, ssp) else
  let val := ssp.(rxFifo).[0] in
  (val, socSspPrvRecalcRxFifoSta { ssp with rxFifo := fifoShift ssp.(rxFifo) ssp.(rxFifoUsed); rxFifoUsed := ssp.(rxFifoUsed) - 1 }).

Definition socSspPrvFifoW ssp (val : Z) : SocSsp W :=
  if ssp.(txFifoUsed) =? SSP_FIFO_DEPTH then ssp else
  let ssp := { ssp with sr ::= fun s => s .| 0x10 } in
  let ssp := { ssp with txFifo := fifoPush ssp.(txFifo) ssp.(txFifoUsed) (u16 val); txFifoUsed := ssp.(txFifoUsed) + 1 } in
  let ssp := socSspPrvRecalcTxFifoSta ssp in
  { ssp with world ::= fun w => reschedule w RESCHEDULE_TASK_SSP }.

Definition socSspPrvMemAccessF ssp (pa size : Z) (wr : bool) (b : Z) : access (SocSsp W) :=
  if negb (size =? 4) then (false, b, ssp) else
  let pa := u32 (pa - ssp.(base)) .>> 2 in
  match pa with
  | 0 => if wr then (true, b, { ssp with cr0 := b }) else (true, ssp.(cr0), ssp)
  | 1 => if wr then (true, b, { ssp with cr1 := b }) else (true, ssp.(cr1), ssp)
  | 2 => if wr then (true, b, { ssp with sr := (ssp.(sr) .&~ 0x80) .| (b .& 0x80) }) else (true, ssp.(sr), ssp)
  | 4 => if wr then (true, b, socSspPrvFifoW ssp (u16 b))
         else let '(val, ssp) := socSspPrvFifoR ssp in (true, (b .&~ 0xffff) .| val, ssp)
  | _ => (false, b, ssp)
  end.

(** The replies of all clients, ORed. *)
Definition socSspClients ssp (bits val : Z) : Z * SocSsp W :=
  fold_left (fun '(ret, ssp) f =>
    match f with
    | None => (ret, ssp)
    | Some f => let '(r, w) := f ssp.(world) bits val in (u32 (ret .| r), { ssp with world := w })
    end) ssp.(procF) (0, ssp).

Definition socSspPeriodic ssp : SocSsp W :=
  if ssp.(txFifoUsed) =? 0 then { ssp with sr ::= fun s => s .&~ 0x10 } else
  let val := ssp.(txFifo).[0] in
  let ssp := { ssp with txFifo := fifoShift ssp.(txFifo) ssp.(txFifoUsed); txFifoUsed := ssp.(txFifoUsed) - 1 } in
  let ssp := socSspPrvRecalcTxFifoSta ssp in
  let '(ret, ssp) := if tst ssp.(cr1) 4 then (val, ssp) else socSspClients ssp (1 + (ssp.(cr0) .& 15)) val in
  if ssp.(rxFifoUsed) =? SSP_FIFO_DEPTH then { ssp with sr ::= fun s => s .| 0x80 }
  else socSspPrvRecalcRxFifoSta { ssp with rxFifo := fifoPush ssp.(rxFifo) ssp.(rxFifoUsed) (u16 ret); rxFifoUsed := ssp.(rxFifoUsed) + 1 }.

Definition socSspInit (w : W) (base irqNo dmaReqNoBase : Z) : SocSsp W :=
  socSspPrvRecalcTxFifoSta (mkSocSsp w base irqNo dmaReqNoBase 0 0 0 (replicate 8 None) (replicate 16 0) (replicate 16 0) 0 0).

(** The first free slot. *)
Definition socSspAddClient ssp (f : W -> Z -> Z -> Z * W) : bool * SocSsp W :=
  match list_find (fun p : option _ => p = None) ssp.(procF) with
  | Some (i, _) => (true, { ssp with procF ::= fun l => <[i := Some f]> l })
  | None => (false, ssp)
  end.

Definition socSspTaskRequired ssp : bool := tst ssp.(sr) 0x10.
End Operations.

(** ** The FIFOs as queues *)

Section Facts.
Context {W : Type} `{!IrqSink W} `{!DmaSink W} `{!ReschedSink W}.
Implicit Types ssp : SocSsp W.

Record ssp_wf ssp : Prop := {
  swf_rx : length ssp.(rxFifo) = 16%nat;
  swf_tx : length ssp.(txFifo) = 16%nat;
  swf_rxUsed : 0 <= ssp.(rxFifoUsed) <= 16;
  swf_txUsed : 0 <= ssp.(txFifoUsed) <= 16;
  swf_busy : 0 < ssp.(txFifoUsed) -> tst ssp.(sr) 0x10 = true
}.

Definition toSend ssp : list Z := held ssp.(txFifo) ssp.(txFifoUsed).
Definition received ssp : list Z := held ssp.(rxFifo) ssp.(rxFifoUsed).

(** The configuration: what only the guest changes. *)
Definition config ssp := (ssp.(base), ssp.(cr0), ssp.(cr1), ssp.(procF)).

(** The bits of literals. *)
Ltac lit_bits :=
  repeat match goal with |- context [Z.testbit (Z.pos ?p) ?i] =>
    let b := eval vm_compute in (Z.testbit (Z.pos p) i) in change (Z.testbit (Z.pos p) i) with b end.

Lemma busy_bit x : tst x 0x10 = Z.testbit x 4.
Proof. apply (tst_bit x 4). lia. Qed.

Lemma txStatus_busy s u c : tst (txStatus s u c) 0x10 = tst s 0x10.
Proof.
  rewrite !busy_bit. unfold txStatus. destruct (negb _), (_ <=? _); rewrite ?Z.lor_spec, ?Z.shiftl_spec_low, ?Z.ldiff_spec by lia; lit_bits; btauto.
Qed.

Lemma rxStatus_busy s u c : tst (rxStatus s u c) 0x10 = tst s 0x10.
Proof.
  rewrite !busy_bit. unfold rxStatus. destruct (nz _), (_ <? _); rewrite ?Z.lor_spec, ?Z.shiftl_spec_low, ?Z.ldiff_spec by lia; lit_bits; btauto.
Qed.

Lemma fifoW_spec ssp v :
  ssp_wf ssp -> ssp.(txFifoUsed) < 16 ->
  let ssp' := socSspPrvFifoW ssp v in
  ssp_wf ssp' /\ toSend ssp' = toSend ssp ++ [u16 v] /\ received ssp' = received ssp /\ config ssp' = config ssp /\
  ssp'.(txFifoUsed) = ssp.(txFifoUsed) + 1 /\ ssp'.(rxFifoUsed) = ssp.(rxFifoUsed).
Proof.
  destruct ssp as [w ba i d c0 c1 s p rx tx ru tu]. intros [Hrx Htx Hru Htu Hb] Hlt. cbn in *. unfold socSspPrvFifoW. cbn [txFifoUsed].
  unfold SSP_FIFO_DEPTH. rewrite (proj2 (Z.eqb_neq tu 16)) by lia. cbn -[txStatus held fifoPush]. split_and!; try done.
  - split; cbn -[txStatus fifoPush]; [done|by rewrite fifoPush_length|lia|lia|]. intros _. rewrite txStatus_busy, busy_bit, Z.lor_spec. by rewrite orb_true_r.
  - unfold toSend. cbn -[held fifoPush]. apply held_push. lia.
Qed.

(** A tick in loopback mode moves one word. *)
Lemma periodic_spec ssp :
  ssp_wf ssp -> 0 < ssp.(txFifoUsed) -> ssp.(rxFifoUsed) < 16 -> tst ssp.(cr1) 4 = true ->
  let ssp' := socSspPeriodic ssp in
  ssp_wf ssp' /\ (exists v, toSend ssp = v :: toSend ssp' /\ received ssp' = received ssp ++ [u16 v]) /\ config ssp' = config ssp /\
  ssp'.(txFifoUsed) = ssp.(txFifoUsed) - 1 /\ ssp'.(rxFifoUsed) = ssp.(rxFifoUsed) + 1.
Proof.
  destruct ssp as [w ba i d c0 c1 s p rx tx ru tu]. intros [Hrx Htx Hru Htu Hb] Ht Hr Hc. cbn in *. unfold socSspPeriodic. cbn [txFifoUsed].
  rewrite (proj2 (Z.eqb_neq tu 0)) by lia. cbn -[txStatus rxStatus held fifoPush fifoShift]. rewrite Hc. unfold SSP_FIFO_DEPTH.
  cbn -[txStatus rxStatus held fifoPush fifoShift]. rewrite (proj2 (Z.eqb_neq ru 16)) by lia. cbn -[txStatus rxStatus held fifoPush fifoShift]. split_and!; try done.
  - split; cbn -[txStatus rxStatus fifoPush fifoShift]; [by rewrite fifoPush_length|rewrite fifoShift_length; lia|lia|lia|].
    intros _. rewrite rxStatus_busy, txStatus_busy. by apply Hb.
  - exists tx.[0]. unfold toSend, received. cbn -[held fifoPush fifoShift]. split; [apply held_shift; lia|apply held_push; lia].
Qed.

Lemma fifoR_spec ssp :
  ssp_wf ssp -> 0 < ssp.(rxFifoUsed) ->
  let '(v, ssp') := socSspPrvFifoR ssp in
  ssp_wf ssp' /\ received ssp = v :: received ssp' /\ config ssp' = config ssp /\ ssp'.(rxFifoUsed) = ssp.(rxFifoUsed) - 1.
Proof.
  destruct ssp as [w ba i d c0 c1 s p rx tx ru tu]. intros [Hrx Htx Hru Htu Hb] Hr. cbn in *. unfold socSspPrvFifoR. cbn [rxFifoUsed].
  rewrite (proj2 (Z.eqb_neq ru 0)) by lia. cbn -[txStatus rxStatus held fifoPush fifoShift]. split_and!; try done.
  - split; cbn -[txStatus rxStatus fifoPush fifoShift]; [rewrite fifoShift_length; lia|done|lia|lia|]. intros. rewrite rxStatus_busy. by apply Hb.
  - unfold received. cbn -[held fifoShift]. apply held_shift. lia.
Qed.

(** ** The guest's accesses to the data register *)

Definition ssp_write ssp (v : Z) : SocSsp W := (socSspPrvMemAccessF ssp (u32 (ssp.(base) + 0x10)) 4 true v).2.

Definition ssp_read ssp : Z * SocSsp W :=
  let '(_, v, ssp') := socSspPrvMemAccessF ssp (u32 (ssp.(base) + 0x10)) 4 false 0 in (v, ssp').

Fixpoint ssp_reads (n : nat) ssp : list Z :=
  match n with O => [] | S n => let '(v, ssp) := ssp_read ssp in v :: ssp_reads n ssp end.

Lemma data_register b : u32 (u32 (b + 0x10) - b) .>> 2 = 4.
Proof. unfold wrap. rewrite Zminus_mod_idemp_l. by replace (b + 0x10 - b) with 0x10 by lia. Qed.

Lemma ssp_write_eq ssp v : ssp_write ssp v = socSspPrvFifoW ssp (u16 v).
Proof. unfold ssp_write, socSspPrvMemAccessF. cbn [Z.eqb Pos.eqb negb]. by rewrite data_register. Qed.

Lemma ssp_read_eq ssp : ssp_read ssp = socSspPrvFifoR ssp.
Proof.
  unfold ssp_read, socSspPrvMemAccessF. cbn [Z.eqb Pos.eqb negb]. rewrite data_register. by destruct (socSspPrvFifoR ssp).
Qed.

Lemma writes_spec ws : forall ssp,
  ssp_wf ssp -> ssp.(txFifoUsed) + Z.of_nat (length ws) <= 16 ->
  let ssp' := fold_left ssp_write ws ssp in
  ssp_wf ssp' /\ toSend ssp' = toSend ssp ++ map u16 ws /\ received ssp' = received ssp /\ config ssp' = config ssp /\
  ssp'.(txFifoUsed) = ssp.(txFifoUsed) + Z.of_nat (length ws) /\ ssp'.(rxFifoUsed) = ssp.(rxFifoUsed).
Proof.
  induction ws as [|v ws IH]; intros ssp Hwf Hn; cbn [fold_left map length] in *.
  - rewrite app_nil_r, Z.add_0_r. done.
  - rewrite ssp_write_eq. destruct (fifoW_spec ssp (u16 v) Hwf ltac:(lia)) as (H1 & H2 & H3 & H4 & H5 & H6).
    destruct (IH _ H1 ltac:(lia)) as (G1 & G2 & G3 & G4 & G5 & G6). split_and!; [done| |congruence|congruence|lia|lia].
    rewrite G2, H2, wrap_idemp, <- app_assoc. done.
Qed.

Lemma ticks_spec n : forall ssp,
  ssp_wf ssp -> ssp.(txFifoUsed) = Z.of_nat n -> ssp.(rxFifoUsed) + Z.of_nat n <= 16 -> tst ssp.(cr1) 4 = true ->
  let ssp' := Nat.iter n socSspPeriodic ssp in
  ssp_wf ssp' /\ received ssp' = received ssp ++ map u16 (toSend ssp) /\ config ssp' = config ssp /\
  ssp'.(txFifoUsed) = 0 /\ ssp'.(rxFifoUsed) = ssp.(rxFifoUsed) + Z.of_nat n.
Proof.
  induction n as [|n IH]; intros ssp Hwf Ht Hr Hc.
  - cbn. unfold toSend, held. rewrite Ht. cbn. rewrite app_nil_r, Z.add_0_r. done.
  - destruct (periodic_spec ssp Hwf ltac:(lia) ltac:(lia) Hc) as (H1 & (v & H2 & H3) & H4 & H5 & H6).
    rewrite Nat.iter_succ_r. assert (Hc' : tst (socSspPeriodic ssp).(cr1) 4 = true) by (unfold config in H4; congruence).
    destruct (IH _ H1 ltac:(lia) ltac:(lia) Hc') as (G1 & G2 & G3 & G4 & G5). split_and!; [done| |congruence|done|lia].
    rewrite G2, H3, H2, <- app_assoc. done.
Qed.

Lemma reads_spec n : forall ssp, ssp_wf ssp -> ssp.(rxFifoUsed) = Z.of_nat n -> ssp_reads n ssp = received ssp.
Proof.
  induction n as [|n IH]; intros ssp Hwf Hr; cbn [ssp_reads].
  - unfold received, held. by rewrite Hr.
  - rewrite ssp_read_eq. pose proof (fifoR_spec ssp Hwf ltac:(lia)) as HR. destruct (socSspPrvFifoR ssp) as [v ssp'].
    destruct HR as (H1 & -> & _ & H2). f_equal. apply IH; [done|lia].
Qed.

(** In loopback mode the words that a guest writes to the data register come back
    in order: up to 16 words written to an idle port, as many ticks later, are
    read back one by one; while they are under way the port asks for ticks. *)
Theorem ssp_loopback ssp ws :
  ssp_wf ssp -> ssp.(txFifoUsed) = 0 -> ssp.(rxFifoUsed) = 0 -> tst ssp.(cr1) 4 = true ->
  ws <> [] -> Z.of_nat (length ws) <= SSP_FIFO_DEPTH -> Forall (is_u 16) ws ->
  let sent := fold_left ssp_write ws ssp in
  socSspTaskRequired sent = true /\ ssp_reads (length ws) (Nat.iter (length ws) socSspPeriodic sent) = ws.
Proof.
  intros Hwf Ht Hr Hc Hne Hlen Hws sent. unfold SSP_FIFO_DEPTH in Hlen.
  destruct (writes_spec ws ssp Hwf ltac:(lia)) as (H1 & H2 & H3 & H4 & H5 & H6). fold sent in H1, H2, H3, H4, H5, H6.
  assert (Hc' : tst sent.(cr1) 4 = true) by (unfold config in H4; congruence).
  destruct (ticks_spec (length ws) sent H1 ltac:(lia) ltac:(lia) Hc') as (G1 & G2 & _ & _ & G5). split.
  - apply H1. destruct ws; [done|]. cbn [length] in H5. lia.
  - rewrite reads_spec; [|done|lia]. rewrite G2, H3, H2. unfold received, toSend, held. rewrite Hr, Ht.
    change (Z.to_nat 0) with 0%nat. rewrite !take_0, !app_nil_l, map_map. rewrite <- (map_id ws) at 2. apply map_ext_Forall. eapply Forall_impl; [exact Hws|].
    intros x Hx. cbn. by rewrite wrap_idemp, wrap_small.
Qed.
End Facts.

(** ** A port with nothing on the line *)

Definition demoSsp : SocSsp lines := (socSspPrvMemAccessF (socSspInit idle 0x41000000 PXA_I_SSP 13) 0x41000004 4 true 6).2.

Example ssp_loopback_witness :
  let sent := fold_left ssp_write [0x1234; 0x5678; 0xffff] demoSsp in
  socSspTaskRequired sent = true /\ ssp_reads 3 (Nat.iter 3 socSspPeriodic sent) = [0x1234; 0x5678; 0xffff].
Proof.
  apply (ssp_loopback demoSsp [0x1234; 0x5678; 0xffff]); [split; vm_compute; try done; split; discriminate|done..|discriminate|done|forall_list; is_u_lit].
Defined.

(** Enabling the transmit interrupt (bit 1 of SSCR1) of a port whose FIFO is empty
    raises no interrupt, although the request is pending in SSSR. *)
Lemma enabling_raises_nothing : tst demoSsp.(sr) 0x20 = true /\ tst demoSsp.(cr1) 2 = true /\ irq_pending demoSsp.(world) PXA_I_SSP = false.
Proof. split_and!; vm_compute; reflexivity. Qed.

(** A world that records the DMA requests. *)
Record requests := mkRequests { levels : lines; asked : list (Z * bool) }.

#[export, program] Instance requests_irq : IrqSink requests := {|
  irq_int w n b := mkRequests (irq_int w.(levels) n b) w.(asked);
  irq_pending w n := irq_pending w.(levels) n
|}.
Next Obligation. done. Qed.

#[export, program] Instance requests_dma : DmaSink requests := {|
  dma_external_req w ch b := mkRequests w.(levels) ((ch, b) :: w.(asked))
|}.
Next Obligation. done. Qed.

(** The empty transmit FIFO asks for data on the channel of the receive FIFO. *)
Lemma transmit_asks_on_receive_channel :
  (socSspInit (mkRequests idle []) 0x41000000 PXA_I_SSP 13).(world).(asked) = [(13 + DMA_OFST_RX, true)].
Proof. vm_compute. reflexivity. Qed.
