(* ===== verification/I2s.v ===== *)
(** * The I2S controller (pxa_I2S.c)

    Samples written by the guest go into the transmit FIFO; a tick of 44.1 kHz
    consumes one, and hands it to the receive FIFO. *)

From S2P Require Import Prelude Interfaces ShiftFifo.

Definition PXA_I2S_BASE := 0x40400000.
Definition DMA_CMR_I2S_RX := 2.
Definition DMA_CMR_I2S_TX := 3.
Definition I2S_FIFO_DEPTH := 16.

Record SocI2s (W : Type) := mkSocI2s {
  world : W;
  sacr0 : Z;           (* uint16_t *)
  sasr0 : Z;           (* uint16_t *)
  sacr1 : Z;           (* uint8_t *)
  sadiv : Z;           (* uint8_t *)
  saimr : Z;           (* uint8_t *)
  txFifo : list Z;     (* uint32_t[16] *)
  rxFifo : list Z;     (* uint32_t[16] *)
  txFifoEnts : Z;      (* uint8_t *)
  rxFifoEnts : Z       (* uint8_t *)
}.
Arguments mkSocI2s {W}. Arguments world {W}. Arguments sacr0 {W}. Arguments sasr0 {W}. Arguments sacr1 {W}. Arguments sadiv {W}.
Arguments saimr {W}. Arguments txFifo {W}. Arguments rxFifo {W}. Arguments txFifoEnts {W}. Arguments rxFifoEnts {W}.

Section Operations.
Context {W : Type} `{!IrqSink W} `{!DmaSink W}.
Implicit Types i2s : SocI2s W.

Definition socI2sPrvIrqUpdate i2s : SocI2s W :=
  { i2s with world ::= fun w => irq_int w PXA_I_I2S (nz (i2s.(sasr0) .& i2s.(saimr) .& 0x78)) }.

Definition txStatus (status ents sacr0 : Z) : Z :=
  let status := status .&~ 0x0f09 in
  let status := status .| ((ents .& 0x0f) .<< 8) in
  let status := if negb (ents =? I2S_FIFO_DEPTH) then status .| 0x01 else status in
  if ents <? (sacr0 .>> 8) .& 0x0f then status .| 0x08 else status.

Definition socI2sPrvTxFifoRecalc i2s : SocI2s W :=
  let i2s := { i2s with sasr0 := txStatus i2s.(sasr0) i2s.(txFifoEnts) i2s.(sacr0) } in
  let i2s := socI2sPrvIrqUpdate i2s in
  { i2s with world ::= fun w => dma_external_req w DMA_CMR_I2S_TX (tst i2s.(sasr0) 0x08) }.

Definition rxStatus (status ents sacr0 : Z) : Z :=
  let status := status .&~ 0xf012 in
  let status := status .| ((ents .& 0x0f) .<< 12) in
  let status := if ents =? 0 then status .| 0x02 else status in
  if (sacr0 .>> 12) .& 0x0f <? ents then status .| 0x10 else status.

Definition socI2sPrvRxFifoRecalc i2s : SocI2s W :=
  let i2s := { i2s with sasr0 := rxStatus i2s.(sasr0) i2s.(rxFifoEnts) i2s.(sacr0) } in
  let i2s := socI2sPrvIrqUpdate i2s in
  { i2s with world ::= fun w => dma_external_req w DMA_CMR_I2S_RX (tst i2s.(sasr0) 0x10) }.

Definition socI2sPrvFifoW i2s (val : Z) : SocI2s W :=
  if i2s.(txFifoEnts) =? I2S_FIFO_DEPTH then i2s else
  socI2sPrvTxFifoRecalc { i2s with txFifo := fifoPush i2s.(txFifo) i2s.(txFifoEnts) val; txFifoEnts := i2s.(txFifoEnts) + 1 }.

(** An empty FIFO refuses the access. *)
Definition socI2sPrvFifoR i2s (b : Z) : access (SocI2s W) :=
  if i2s.(rxFifoEnts) =? 0 then (false, b, i2s) else
  (true, i2s.(rxFifo).[0],
   socI2sPrvRxFifoRecalc { i2s with rxFifo := fifoShift i2s.(rxFifo) i2s.(rxFifoEnts); rxFifoEnts := i2s.(rxFifoEnts) - 1 }).

Definition socI2sPrvMemAccessF i2s (pa size : Z) (wr : bool) (b : Z) : access (SocI2s W) :=
  if negb (size =? 4) then (false, b, i2s) else
  let pa := u32 (pa - PXA_I2S_BASE) .>> 2 in
  match pa with
  | 0 => if wr then (true, b, { i2s with sacr0 := b .& 0xff3d }) else (true, i2s.(sacr0), i2s)
  | 1 => if wr then (true, b, { i2s with sacr1 := b .& 0x39 }) else (true, i2s.(sacr1), i2s)
  | 3 => if wr then (false, b, i2s) else (true, i2s.(sasr0), i2s)
  | 5 => if wr then (true, b, { i2s with saimr := b .& 0x78 }) else (true, i2s.(saimr), i2s)
  | 6 => if wr then (true, b, { i2s with sasr0 ::= fun s => s .&~ (b .& 0x60) }) else (false, b, i2s)
  | 24 => if wr then (true, b, { i2s with sadiv := b .& 0x7f }) else (true, i2s.(sadiv), i2s)
  | 32 => if wr then (true, b, socI2sPrvFifoW i2s b) else socI2sPrvFifoR i2s b
  | _ => (false, b, i2s)
  end.

Definition socI2sInit (w : W) : SocI2s W := mkSocI2s w 0x7700 0x0001 0 0x001a 0 (replicate 16 0) (replicate 16 0) 0 0.

(** A sample leaves the transmit FIFO if playing is allowed. *)
Definition consumeSample i2s : Z * SocI2s W :=
  if tst i2s.(sacr1) 0x10 then (0, i2s)
  else if nz i2s.(txFifoEnts)
  then (i2s.(txFifo).[0], { i2s with txFifo := fifoShift i2s.(txFifo) i2s.(txFifoEnts); txFifoEnts := i2s.(txFifoEnts) - 1 })
  else (0, { i2s with sasr0 ::= fun s => s .| 0x20 }).

Definition produceSample i2s (val : Z) : SocI2s W :=
  if tst i2s.(sacr1) 0x08 then i2s
  else if negb (i2s.(rxFifoEnts) =? I2S_FIFO_DEPTH)
  then { i2s with rxFifo := fifoPush i2s.(rxFifo) i2s.(rxFifoEnts) val; rxFifoEnts := i2s.(rxFifoEnts) + 1 }
  else { i2s with sasr0 ::= fun s => s .| 0x40 }.

Definition socI2sPeriodic i2s : SocI2s W :=
  let '(val, i2s) := consumeSample i2s in
  socI2sPrvRxFifoRecalc (socI2sPrvTxFifoRecalc (produceSample i2s val)).
End Operations.

(** ** A tick moves a sample *)

Section Facts.
Context {W : Type} `{!IrqSink W} `{!DmaSink W}.
Implicit Types i2s : SocI2s W.

Record i2s_wf i2s : Prop := {
  iwf_tx : length i2s.(txFifo) = 16%nat;
  iwf_rx : length i2s.(rxFifo) = 16%nat;
  iwf_txEnts : 0 <= i2s.(txFifoEnts) <= 16;
  iwf_rxEnts : 0 <= i2s.(rxFifoEnts) <= 16
}.

Definition toPlay i2s : list Z := held i2s.(txFifo) i2s.(txFifoEnts).
Definition recorded i2s : list Z := held i2s.(rxFifo) i2s.(rxFifoEnts).

Lemma produce_facts i2s val :
  i2s_wf i2s ->
  let i2s' := produceSample i2s val in
  i2s_wf i2s' /\ toPlay i2s' = toPlay i2s /\
  recorded i2s' = recorded i2s ++ (if tst i2s.(sacr1) 0x08 || (i2s.(rxFifoEnts) =? 16) then [] else [val]).
Proof.
  destruct i2s as [w a0 s0 a1 di im tx rx te re]. intros [Ht Hr Hte Hre]. unfold produceSample, I2S_FIFO_DEPTH. cbn in *.
  destruct (tst a1 8); cbn [orb]; [by rewrite app_nil_r|]. destruct (Z.eqb_spec re 16); cbn [negb].
  - rewrite app_nil_r. split_and!; [by split|done..].
  - split_and!; [split; cbn -[fifoPush]; rewrite ?fifoPush_length; lia|done|]. unfold recorded. cbn -[held fifoPush]. apply held_push. lia.
Qed.

Lemma consume_facts i2s :
  i2s_wf i2s ->
  let '(val, i2s') := consumeSample i2s in
  i2s_wf i2s' /\ recorded i2s' = recorded i2s /\ i2s'.(sacr1) = i2s.(sacr1) /\ i2s'.(rxFifoEnts) = i2s.(rxFifoEnts) /\
  (if tst i2s.(sacr1) 0x10 then toPlay i2s' = toPlay i2s
   else if i2s.(txFifoEnts) =? 0 then toPlay i2s' = [] /\ tst i2s'.(sasr0) 0x20 = true
   else toPlay i2s = val :: toPlay i2s').
Proof.
  destruct i2s as [w a0 s0 a1 di im tx rx te re]. intros [Ht Hr Hte Hre]. unfold consumeSample. cbn in *.
  destruct (tst a1 16); [split_and!; [by split|done..]|]. unfold nz. destruct (Z.eqb_spec te 0) as [->|]; cbn [negb].
  - split_and!; [by split|done|done|done|done|]. cbn. rewrite (tst_bit _ 5), Z.lor_spec by lia. apply orb_true_r.
  - split_and!; [split; cbn -[fifoShift]; rewrite ?fifoShift_length; lia|done|done|done|]. unfold toPlay. cbn -[held fifoShift]. apply held_shift. lia.
Qed.

(** The recomputation of the status leaves the samples alone. *)
Lemma recalc_facts i2s :
  let i2s' := socI2sPrvRxFifoRecalc (socI2sPrvTxFifoRecalc i2s) in
  (i2s_wf i2s -> i2s_wf i2s') /\ toPlay i2s' = toPlay i2s /\ recorded i2s' = recorded i2s.
Proof. destruct i2s. split_and!; [|done|done]. intros [Ht Hr Hte Hre]. by split. Qed.

(** A tick keeps the FIFOs within their arrays. With playing and recording allowed it
    takes the oldest sample, or silence if there is none, to the end of the
    receive FIFO, which drops it when full. *)
Lemma i2s_tick i2s :
  i2s_wf i2s -> tst i2s.(sacr1) 0x10 = false -> tst i2s.(sacr1) 0x08 = false ->
  let i2s' := socI2sPeriodic i2s in
  i2s_wf i2s' /\ toPlay i2s' = drop 1 (toPlay i2s) /\
  recorded i2s' = recorded i2s ++ (if i2s.(rxFifoEnts) =? 16 then [] else [default 0 (head (toPlay i2s))]).
Proof.
  intros Hwf Hp Hr. unfold socI2sPeriodic. pose proof (consume_facts i2s Hwf) as HC. pose proof Hwf as [Ht _ Hte _].
  destruct (consumeSample i2s) as [val i2s1] eqn:Ec. destruct HC as (W1 & R1 & A1 & E1 & P1). rewrite Hp in P1.
  destruct (produce_facts i2s1 val W1) as (W2 & P2 & R2). rewrite A1, Hr, E1, R1 in R2. cbn [orb] in R2.
  destruct (recalc_facts (produceSample i2s1 val)) as (W3 & P3 & R3).
  split_and!; [by apply W3| |]; rewrite ?P3, ?R3, ?P2, ?R2; destruct (Z.eqb_spec i2s.(txFifoEnts) 0) as [E0|].
  - destruct P1 as [-> _]. unfold toPlay, held. by rewrite E0.
  - by rewrite P1.
  - assert (val = 0) as -> by (unfold consumeSample in Ec; rewrite Hp, E0 in Ec; by injection Ec).
    unfold toPlay, held. by rewrite E0.
  - by rewrite P1.
Qed.
End Facts.

(** A change of the thresholds (SACR0) or of the mask (SAIMR) takes effect at the next
    tick only. *)
Lemma mask_takes_effect_late :
  let i2s := socI2sPeriodic (socI2sInit idle) in
  let i2s' := (socI2sPrvMemAccessF i2s (PXA_I2S_BASE + 0x14) 4 true 0x08).2 in
  tst i2s'.(sasr0) 0x08 = true /\ tst i2s'.(saimr) 0x08 = true /\ irq_pending i2s'.(world) PXA_I_I2S = false /\
  irq_pending (socI2sPeriodic i2s').(world) PXA_I_I2S = true.
Proof. split_and!; vm_compute; reflexivity. Qed.
