(* ===== verification/Lcd.v ===== *)
(** * The LCD controller (pxa_LCD.c)

    Every third tick starts a frame: the controller fetches a descriptor from
    memory, then a palette or the pixels it points at. Pixels are drawn into the
    back buffer, which is exchanged with the front buffer when it is full. A
    frame whose memory has not been written since it was drawn is skipped. *)

From S2P Require Import Prelude Bytes Interfaces.

Definition PXA_LCD_BASE := 0x44000000.
Definition UNMASKABLE_INTS := 0x7C8E.
Definition RAM_BASE := 0xA0000000.

Inductive LcdState := LCD_STATE_IDLE | LCD_STATE_DMA_0_START | LCD_STATE_DMA_0_END.

Record PxaLcd (W : Type) := mkPxaLcd {
  world : W;                                   (* ic, mem and soc *)
  lccr0 : Z; lccr1 : Z; lccr2 : Z; lccr3 : Z; lccr4 : Z; lccr5 : Z; liicr : Z; trgbr : Z; tcr : Z;
  fbr : list Z; fdadr : list Z; fsadr : list Z; fidr : list Z; ldcmd : list Z;   (* uint32_t[7] *)
  lcsr : Z;                                    (* uint16_t *)
  intMask : Z;                                 (* uint16_t *)
  state : LcdState;
  intWasPending : bool;
  enbChanged : bool;
  palette : list Z;                            (* uint8_t[512] *)
  palette_mapped : list Z;                     (* uint32_t[512] *)
  width : Z;                                   (* uint16_t *)
  height : Z;                                  (* uint16_t *)
  front_buffer : list Z;                       (* uint32_t[width * height] *)
  back_buffer : list Z;
  i_pixel : Z;                                 (* uint32_t *)
  frame_pending : bool;
  frameNum : Z;                                (* uint32_t *)
  framebufferBase : Z;
  framebufferSize : Z;
  framebufferBpp : Z;                          (* uint8_t *)
  framebufferDirty : bool;
  framebufferTrackingActive : bool
}.
Arguments mkPxaLcd {W}. Arguments world {W}.
Arguments lccr0 {W}. Arguments lccr1 {W}. Arguments lccr2 {W}. Arguments lccr3 {W}. Arguments lccr4 {W}. Arguments lccr5 {W}.
Arguments liicr {W}. Arguments trgbr {W}. Arguments tcr {W}. Arguments fbr {W}. Arguments fdadr {W}. Arguments fsadr {W}.
Arguments fidr {W}. Arguments ldcmd {W}. Arguments lcsr {W}. Arguments intMask {W}. Arguments state {W}. Arguments intWasPending {W}.
Arguments enbChanged {W}. Arguments palette {W}. Arguments palette_mapped {W}. Arguments width {W}. Arguments height {W}.
Arguments front_buffer {W}. Arguments back_buffer {W}. Arguments i_pixel {W}. Arguments frame_pending {W}. Arguments frameNum {W}.
Arguments framebufferBase {W}. Arguments framebufferSize {W}. Arguments framebufferBpp {W}. Arguments framebufferDirty {W}.
Arguments framebufferTrackingActive {W}.

Definition unpack_rgb16 (rgb16 : Z) : Z :=
  let r := (rgb16 .>> 11) .& 0x1f in
  let g := (rgb16 .>> 5) .& 0x3f in
  let b := rgb16 .& 0x1f in
  let r := u8 ((r .<< 3) .| (r .>> 2)) in
  let g := u8 ((g .<< 2) .| (g .>> 4)) in
  let b := u8 ((b .<< 3) .| (b .>> 2)) in
  0xff000000 .| (b .<< 16) .| (g .<< 8) .| r.

Section Operations.
Context {W : Type} `{!IrqSink W} `{!PhysMem W}.
(** [ramSetFramebuffer] on the RAM of the world, and the RAM's size. *)
Context (ram_set_framebuffer : W -> Z -> Z -> W) (ramSize : Z).
Implicit Types lcd : PxaLcd W.

Definition pxaLcdPrvUpdateInts lcd : PxaLcd W :=
  let ints := lcd.(lcsr) .& lcd.(intMask) in
  if (nz ints && negb lcd.(intWasPending)) || (negb (nz ints) && lcd.(intWasPending))
  then { lcd with intWasPending := nz ints; world ::= fun w => irq_int w PXA_I_LCD (nz ints) }
  else lcd.

(** The interrupts that LCCR0 lets through. *)
Definition lcdIntMask (val : Z) : Z :=
  let v16 := UNMASKABLE_INTS in
  let v16 := if tst val 0x00200000 then v16 .| 0x0040 else v16 in
  let v16 := if tst val 0x00100000 then v16 .| 0x0200 else v16 in
  let v16 := if tst val 0x00000800 then v16 .| 0x0001 else v16 in
  let v16 := if tst val 0x00000040 then v16 .| 0x0080 else v16 in
  let v16 := if tst val 0x00000020 then v16 .| 0x0030 else v16 in
  if tst val 0x00000010 then v16 .| 0x0002 else v16.

(** The branch register of a word offset. *)
Definition fbrIndex (pa : Z) : option Z :=
  match pa with
  | 68 => Some 5 | 69 => Some 6
  | 8 => Some 0 | 9 => Some 1 | 10 => Some 2 | 11 => Some 3 | 13 => Some 5
  | _ => None
  end.

(** A register of one of the seven DMA channels: [k] is 0 for FDADR to 3 for LDCMD. *)
Definition dmaIndex (pa k : Z) : option Z :=
  if (128 + k <=? pa) && (pa <=? 152 + k) && ((pa - 128 - k) mod 4 =? 0) then Some ((pa - 128 - k) / 4) else None.

Definition lcdWrite lcd (pa val : Z) : PxaLcd W :=
  match fbrIndex pa, dmaIndex pa 0 with
  | Some i, _ => { lcd with fbr ::= fun l => l.[i <- val] }
  | _, Some i => { lcd with fdadr ::= fun l => l.[i <- val] }
  | _, _ =>
  match pa with
  | 0 =>
      let lcd := if tst (lcd.(lccr0) .^ val) 0x0001 then { lcd with enbChanged := true } else lcd in
      pxaLcdPrvUpdateInts { lcd with lccr0 := val; intMask := lcdIntMask val }
  | 1 => { lcd with lccr1 := val }
  | 2 => { lcd with lccr2 := val }
  | 3 => { lcd with lccr3 := val }
  | 4 => { lcd with lccr4 := val }
  | 5 => { lcd with lccr5 := val }
  | 14 => pxaLcdPrvUpdateInts { lcd with lcsr ::= fun s => s .&~ val }
  | 15 => { lcd with liicr := val }
  | 16 => { lcd with trgbr := val }
  | 17 => { lcd with tcr := val }
  | _ => lcd
  end end.

Definition lcdRead lcd (pa : Z) : Z :=
  match fbrIndex pa, dmaIndex pa 0, dmaIndex pa 1, dmaIndex pa 2, dmaIndex pa 3 with
  | Some i, _, _, _, _ => lcd.(fbr).[i]
  | _, Some i, _, _, _ => lcd.(fdadr).[i]
  | _, _, Some i, _, _ => lcd.(fsadr).[i]
  | _, _, _, Some i, _ => lcd.(fidr).[i]
  | _, _, _, _, Some i => lcd.(ldcmd).[i]
  | _, _, _, _, _ =>
  match pa with
  | 0 => lcd.(lccr0) | 1 => lcd.(lccr1) | 2 => lcd.(lccr2) | 3 => lcd.(lccr3) | 4 => lcd.(lccr4) | 5 => lcd.(lccr5)
  | 14 => lcd.(lcsr) | 15 => lcd.(liicr) | 16 => lcd.(trgbr) | 17 => lcd.(tcr)
  | _ => 0
  end end.

Definition pxaLcdPrvMemAccessF lcd (pa size : Z) (wr : bool) (b : Z) : access (PxaLcd W) :=
  if negb (size =? 4) then (false, b, lcd) else
  let pa := u32 (pa - PXA_LCD_BASE) .>> 2 in
  if wr then (true, b, lcdWrite lcd pa b) else (true, lcdRead lcd pa, lcd).

(** ** Memory *)

Definition pxaLcdPrvGetWord lcd (addr : Z) : outcome (Z * PxaLcd W) :=
  '(ok, v, w) ← mem_access lcd.(world) addr 4 false 0;
  Ret (if (ok : bool) then v else 0, { lcd with world := w }).

(** [len] bytes as words; the bytes of the last word that are not wanted are
    dropped. [words] turns of the loop are at most [len]. *)
Fixpoint lcdDma (words : nat) lcd (dest : list Z) (at_ addr len : Z) : outcome (list Z * PxaLcd W) :=
  match words with
  | O => Ret (dest, lcd)
  | S words =>
      if 0 <? len then
        '(t, lcd) ← pxaLcdPrvGetWord lcd addr;
        let bs := take (Z.to_nat len) (le_split 4 t) in
        if in_object dest at_ (Z.of_nat (length bs)) then
          lcdDma words lcd (poke dest at_ bs) (at_ + 4) (u32 (addr + 4)) (len - 4)
        else Undef
      else Ret (dest, lcd)
  end.

Definition pxaLcdPrvDma lcd (dest : list Z) (addr len : Z) : outcome (list Z * PxaLcd W) :=
  lcdDma (Z.to_nat len) lcd dest 0 addr len.

(** ** Palette *)

Definition paletteEntry (pal : list Z) (i : Z) : Z := le_combine (peek pal (2 * i) 2).

Definition mapEntry (pal : list Z) (s : list Z * bool) (i : Z) : list Z * bool :=
  let '(mapped, dirty) := s in
  let unpacked := unpack_rgb16 (paletteEntry pal i) in
  let dirty := dirty || negb (unpacked =? mapped.[i]) in
  (if dirty then mapped.[i <- unpack_rgb16 (paletteEntry pal i)] else mapped, dirty).

Definition pxaLcdSetFramebufferDirty lcd : PxaLcd W := { lcd with framebufferDirty := true }.

Definition pxaLcdUpdatePalette lcd (len : Z) : PxaLcd W :=
  let n_entries := len .>> 1 in
  let '(mapped, dirty) := fold_left (mapEntry lcd.(palette)) (seqZ 0 n_entries) (lcd.(palette_mapped), false) in
  let lcd := { lcd with palette_mapped := mapped } in
  if (dirty : bool) then pxaLcdSetFramebufferDirty lcd else lcd.

(** ** Pixels *)

Definition pxaLcdPrvScreenDataPixel lcd (color : Z) : outcome (PxaLcd W) :=
  if in_object lcd.(back_buffer) lcd.(i_pixel) 1 then
    let lcd := { lcd with back_buffer := lcd.(back_buffer).[lcd.(i_pixel) <- color]; i_pixel := u32 (lcd.(i_pixel) + 1) } in
    Ret (if lcd.(i_pixel) =? lcd.(width) * lcd.(height)
         then { lcd with i_pixel := 0; frame_pending := true; front_buffer := lcd.(back_buffer); back_buffer := lcd.(front_buffer) }
         else lcd)
  else Undef.

(** The colours in four bytes of the framebuffer. *)
Definition pixelsOf (mapped : list Z) (bpp : Z) (data : list Z) : list Z :=
  match bpp with
  | 0 => data ≫= fun d => (fun j => mapped.[(d .>> j) .& 1]) <$> [0; 1; 2; 3; 4; 5; 6; 7]
  | 1 => data ≫= fun d => (fun j => mapped.[(d .>> j) .& 3]) <$> [0; 2; 4; 6]
  | 2 => data ≫= fun d => (fun j => mapped.[(d .>> j) .& 15]) <$> [0; 4]
  | 3 => (fun d => mapped.[d]) <$> data
  | 4 => [unpack_rgb16 (le_combine (peek data 0 2)); unpack_rgb16 (le_combine (peek data 2 2))]
  | _ => []
  end.

Definition screenWord (bpp : Z) (s : PxaLcd W * Z) (_ : Z) : outcome (PxaLcd W * Z) :=
  let '(lcd, addr) := s in
  '(data, lcd) ← pxaLcdPrvDma lcd [0; 0; 0; 0] addr 4;
  lcd ← forM (pixelsOf lcd.(palette_mapped) bpp data) pxaLcdPrvScreenDataPixel lcd;
  Ret (lcd, u32 (addr + 4)).

(** [socSetFramebuffer] *)
Definition socSetFramebuffer lcd (start size : Z) : bool * PxaLcd W :=
  let size := if (start <? RAM_BASE) || (ramSize <? u32 (start - RAM_BASE + size)) then 0 else size in
  (nz size, { lcd with world ::= fun w => ram_set_framebuffer w start size }).

(** Has the framebuffer moved? *)
Definition trackFramebuffer lcd (addr len bpp : Z) : PxaLcd W :=
  if negb (addr =? lcd.(framebufferBase)) || negb (len =? lcd.(framebufferSize)) || negb (bpp =? lcd.(framebufferBpp)) then
    let lcd := { lcd with framebufferBase := addr; framebufferSize := len; framebufferBpp := bpp } in
    if len =? u32 ((lcd.(width) * lcd.(height)) .<< bpp) .>> 3 then
      let '(active, lcd) := socSetFramebuffer { lcd with framebufferDirty := true } addr len in
      { lcd with framebufferTrackingActive := active }
    else
      let '(_, lcd) := socSetFramebuffer lcd 0 0 in
      { lcd with framebufferDirty := true; framebufferTrackingActive := false }
  else lcd.

Definition pxaLcdPrvScreenDataDma lcd (addr len : Z) : outcome (PxaLcd W) :=
  let bpp := (lcd.(lccr3) .>> 24) .& 7 in
  let lcd := trackFramebuffer lcd addr len bpp in
  if lcd.(framebufferTrackingActive) && negb lcd.(framebufferDirty) then Ret lcd else
  '(lcd, _) ← forM (seqZ 0 (len / 4)) (screenWord bpp) (lcd, addr);
  Ret { lcd with framebufferDirty := false }.

(** ** The tick *)

(** Enabling or quickly disabling the controller. *)
Definition lcdEnable lcd : PxaLcd W :=
  if lcd.(enbChanged) then
    let lcd := if tst lcd.(lccr0) 0x0001 then lcd else { lcd with lcsr ::= fun s => s .| 0x0080; state := LCD_STATE_IDLE } in
    { lcd with enbChanged := false }
  else lcd.

(** Fetch the next descriptor of channel 0. *)
Definition lcdFetch lcd : outcome (PxaLcd W) :=
  let '(descrAddr, lcd) :=
    if tst lcd.(fbr).[0] 1 then
      let lcd := { lcd with fbr ::= fun l => l.[0 <- l.[0] .&~ 1] } in
      let lcd := if tst lcd.(fbr).[0] 2 then { lcd with lcsr ::= fun s => s .| 0x0200 } else lcd in
      (lcd.(fbr).[0] .&~ 0xF, lcd)
    else (lcd.(fdadr).[0], lcd) in
  '(v, lcd) ← pxaLcdPrvGetWord lcd descrAddr;
  let lcd := { lcd with fdadr ::= fun l => l.[0 <- v] } in
  '(v, lcd) ← pxaLcdPrvGetWord lcd (u32 (descrAddr + 4));
  let lcd := { lcd with fsadr ::= fun l => l.[0 <- v] } in
  '(v, lcd) ← pxaLcdPrvGetWord lcd (u32 (descrAddr + 8));
  let lcd := { lcd with fidr ::= fun l => l.[0 <- v] } in
  '(v, lcd) ← pxaLcdPrvGetWord lcd (u32 (descrAddr + 12));
  Ret { lcd with ldcmd ::= fun l => l.[0 <- v]; state := LCD_STATE_DMA_0_START }.

(** Transfer what the descriptor asks for. *)
Definition lcdTransfer lcd : outcome (PxaLcd W) :=
  let cmd := lcd.(ldcmd).[0] in
  let lcd := if tst cmd 0x00400000 then { lcd with lcsr ::= fun s => s .| 0x0002 } else lcd in
  let len := cmd .& 0x000FFFFF in
  lcd ← (if tst cmd 0x04000000 then
    let len := if 512 <? len then 512 else len in
    '(pal, lcd) ← pxaLcdPrvDma lcd lcd.(palette) lcd.(fsadr).[0] len;
    Ret (pxaLcdUpdatePalette { lcd with palette := pal } len)
  else
    let lcd := { lcd with frameNum ::= fun n => u32 (n + 1) } in
    if tst lcd.(frameNum) 63 then Ret lcd else pxaLcdPrvScreenDataDma lcd lcd.(fsadr).[0] len);
  Ret { lcd with state := LCD_STATE_DMA_0_END }.

Definition pxaLcdTick lcd : outcome (PxaLcd W) :=
  let lcd := lcdEnable lcd in
  lcd ← (if tst lcd.(lccr0) 0x0001 then
    if tst lcd.(lccr0) 0x400 then
      Ret { lcd with lcsr ::= fun s => s .| 0x0001; state := LCD_STATE_IDLE; lccr0 ::= fun v => v .&~ 1 }
    else match lcd.(state) with
    | LCD_STATE_IDLE => lcdFetch lcd
    | LCD_STATE_DMA_0_START => lcdTransfer lcd
    | LCD_STATE_DMA_0_END =>
        let lcd := if tst lcd.(ldcmd).[0] 0x00200000 then { lcd with lcsr ::= fun s => s .| 0x0100 } else lcd in
        Ret { lcd with state := LCD_STATE_IDLE }
    end
  else Ret lcd);
  Ret (pxaLcdPrvUpdateInts lcd).

Definition pxaLcdGetPendingFrame lcd : option (list Z) := if lcd.(frame_pending) then Some lcd.(front_buffer) else None.

Definition pxaLcdResetPendingFrame lcd : PxaLcd W := { lcd with frame_pending := false }.

(** [front] and [back] are what [malloc] returns. *)
Definition pxaLcdInit (w : W) (width height : Z) (front back : list Z) : PxaLcd W :=
  mkPxaLcd w 0 0 0 0 0 0 0 0 0 (replicate 7 0) (replicate 7 0) (replicate 7 0) (replicate 7 0) (replicate 7 0) 0 UNMASKABLE_INTS
    LCD_STATE_IDLE false false (replicate 512 0) (replicate 512 0) width height front back 0 false 0 0 0 0 false false.
End Operations.

(** ** A frame *)

(** Setting the RAM's bounds of the framebuffer leaves memory alone. *)
Class FbPort (W : Type) `{WordMem W} := {
  set_framebuffer : W -> Z -> Z -> W;
  set_framebuffer_wf w s z : words_wf w -> words_wf (set_framebuffer w s z);
  set_framebuffer_word w s z a : word_at (set_framebuffer w s z) a = word_at w a
}.

Lemma forM_app {A S} (l l' : list A) (body : S -> A -> outcome S) s : forM (l ++ l') body s = (s ← forM l body s; forM l' body s).
Proof. revert s. induction l as [|a l IH]; intros s; [done|]. cbn [forM app]. destruct (body s a); cbn [mbind outcome_bind]; [apply IH|done..]. Qed.

Lemma aset_app_here (a : list Z) y b x : (a ++ y :: b).[Z.of_nat (length a) <- x] = a ++ x :: b.
Proof. unfold aset. by rewrite Nat2Z.id, insert_app_r_alt, Nat.sub_diag by lia. Qed.

Section Frames.
Context {W : Type} `{!IrqSink W} `{HP : PhysMem W} `{!WordMem W} `{!FbPort W} (ramSize : Z).
Implicit Types lcd : PxaLcd W.

Definition pixels lcd : Z := lcd.(width) * lcd.(height).

Record lcd_wf lcd : Prop := {
  lwf_pixels : 0 < pixels lcd < 2 ^ 32;
  lwf_back : Z.of_nat (length lcd.(back_buffer)) = pixels lcd;
  lwf_front : Z.of_nat (length lcd.(front_buffer)) = pixels lcd
}.

(** The part of the controller that drawing changes. *)
Definition setPix lcd (front back : list Z) (i : Z) (pending : bool) : PxaLcd W :=
  { lcd with front_buffer := front; back_buffer := back; i_pixel := i; frame_pending := pending }.

Lemma setPix_id lcd : setPix lcd lcd.(front_buffer) lcd.(back_buffer) lcd.(i_pixel) lcd.(frame_pending) = lcd.
Proof. by destruct lcd. Qed.

(** Pixels that do not fill the buffer. *)
Lemma pixels_partial cs : forall lcd pre f p,
  Z.of_nat (length pre) + Z.of_nat (length cs) < pixels lcd < 2 ^ 32 -> forall rest,
  Z.of_nat (length pre + length rest) = pixels lcd ->
  forM cs pxaLcdPrvScreenDataPixel (setPix lcd f (pre ++ rest) (Z.of_nat (length pre)) p) =
  Ret (setPix lcd f (pre ++ cs ++ drop (length cs) rest) (Z.of_nat (length pre + length cs)) p).
Proof.
  induction cs as [|c cs IH]; intros lcd pre f p Hn rest Hr; cbn [forM length app].
  - by rewrite drop_0, Nat.add_0_r.
  - destruct rest as [|x rest]; [cbn [length] in *; lia|]. cbn [length] in *.
    assert (E : pxaLcdPrvScreenDataPixel (setPix lcd f (pre ++ x :: rest) (Z.of_nat (length pre)) p) c =
      Ret (setPix lcd f ((pre ++ [c]) ++ rest) (Z.of_nat (length (pre ++ [c]))) p)).
    { unfold pxaLcdPrvScreenDataPixel, pixels in *. destruct lcd. cbn -[in_object Z.add Z.mul] in *.
      rewrite (proj2 (in_object_spec _ _ _)) by (rewrite length_app; cbn [length]; lia).
      rewrite wrap_small by (unfold is_u; lia). rewrite (proj2 (Z.eqb_neq _ _)) by lia. rewrite aset_app_here, <- app_assoc, length_app.
      cbn [length app]. unfold setPix. cbn -[Z.of_nat Z.add]. do 2 f_equal. lia. }
    rewrite E. cbn [mbind outcome_bind]. rewrite IH by (rewrite length_app; cbn [length]; lia).
    rewrite <- app_assoc. cbn [app drop]. do 2 f_equal. rewrite length_app. cbn [length]. lia.
Qed.

(** The last pixel exchanges the buffers. *)
Lemma pixels_frame cs lcd f p back :
  0 < pixels lcd < 2 ^ 32 -> Z.of_nat (length cs) = pixels lcd -> Z.of_nat (length back) = pixels lcd ->
  forM cs pxaLcdPrvScreenDataPixel (setPix lcd f back 0 p) = Ret (setPix lcd cs f 0 true).
Proof.
  intros Hn Hc Hb. destruct (exists_last (l := cs)) as (pre & c & ->); [by intros ->; cbn in Hc; lia|].
  rewrite length_app in Hc. cbn [length] in Hc. rewrite forM_app.
  pose proof (pixels_partial pre lcd [] f p ltac:(cbn [length]; lia) back ltac:(cbn [length]; lia)) as HP1. cbn [app length] in HP1.
  change (Z.of_nat 0) with 0 in HP1. rewrite HP1. cbn [mbind outcome_bind forM]. clear HP1.
  destruct (drop (length pre) back) as [|x [|y rest]] eqn:Ed; apply (f_equal length) in Ed; rewrite length_drop in Ed; cbn [length] in Ed; [lia| |lia].
  unfold pxaLcdPrvScreenDataPixel, pixels in *. destruct lcd. cbn -[in_object Z.add Z.mul Z.of_nat] in *.
  rewrite (proj2 (in_object_spec _ _ _)) by (rewrite length_app; cbn [length]; lia).
  rewrite wrap_small by (unfold is_u; lia). rewrite (proj2 (Z.eqb_eq _ _)) by lia. rewrite aset_app_here. done.
Qed.

(** A word of memory. *)
Lemma getWord_spec lcd addr t :
  words_wf lcd.(world) -> word_at lcd.(world) addr = Some t -> pxaLcdPrvGetWord lcd addr = Ret (t, lcd).
Proof. intros Hw Ht. unfold pxaLcdPrvGetWord. rewrite (word_read _ _ _ _ Hw Ht). cbn [mbind outcome_bind]. by destruct lcd. Qed.

Lemma dma_word lcd addr t :
  words_wf lcd.(world) -> word_at lcd.(world) addr = Some t -> pxaLcdPrvDma lcd [0; 0; 0; 0] addr 4 = Ret (le_split 4 t, lcd).
Proof.
  intros Hw Ht. unfold pxaLcdPrvDma. change (Z.to_nat 4) with 4%nat. cbn [lcdDma]. change (0 <? 4) with true. cbn match.
  rewrite (getWord_spec _ _ _ Hw Ht). cbn [mbind outcome_bind]. done.
Qed.

(** The pixels of words that follow each other. *)
Definition colors (mapped : list Z) (bpp : Z) (ws : list Z) : list Z := ws ≫= fun t => pixelsOf mapped bpp (le_split 4 t).

Lemma pixel_frame lcd c lcd' :
  pxaLcdPrvScreenDataPixel lcd c = Ret lcd' -> lcd'.(world) = lcd.(world) /\ lcd'.(palette_mapped) = lcd.(palette_mapped).
Proof.
  unfold pxaLcdPrvScreenDataPixel. destruct (in_object _ _ _); [|done]. intros [= <-]. destruct lcd. cbn -[Z.mul]. by destruct (_ =? _).
Qed.

Lemma screen_words bpp ws : forall k lcd addr,
  words_wf lcd.(world) -> addr + 4 * Z.of_nat (length ws) < 2 ^ 32 -> 0 <= addr ->
  (forall j t, ws !! j = Some t -> word_at lcd.(world) (addr + 4 * Z.of_nat j) = Some t) ->
  forM (seqZ k (Z.of_nat (length ws))) (screenWord bpp) (lcd, addr) =
  (lcd' ← forM (colors lcd.(palette_mapped) bpp ws) pxaLcdPrvScreenDataPixel lcd; Ret (lcd', addr + 4 * Z.of_nat (length ws))).
Proof.
  induction ws as [|t ws IH]; intros k lcd addr Hw Hb Ha Hmem.
  - cbn. do 2 f_equal. lia.
  - cbn [length] in *. rewrite seqZ_cons by lia. cbn [forM]. replace (Z.pred (Z.of_nat (S (length ws)))) with (Z.of_nat (length ws)) by lia.
    pose proof (Hmem 0%nat t eq_refl) as H0. rewrite Z.mul_0_r, Z.add_0_r in H0.
    assert (E : screenWord bpp (lcd, addr) k =
      (lcd' ← forM (pixelsOf lcd.(palette_mapped) bpp (le_split 4 t)) pxaLcdPrvScreenDataPixel lcd; Ret (lcd', addr + 4))).
    { unfold screenWord. rewrite (dma_word _ _ _ Hw H0). cbn [mbind outcome_bind]. by rewrite wrap_small by (unfold is_u; lia). }
    rewrite E. unfold colors. rewrite bind_cons, forM_app. fold (colors lcd.(palette_mapped) bpp ws).
    destruct (forM (pixelsOf _ _ _) _ lcd) as [lcd1| | |] eqn:E1; cbn [mbind outcome_bind]; [|done..].
    assert (HI : lcd1.(world) = lcd.(world) /\ lcd1.(palette_mapped) = lcd.(palette_mapped)).
    { apply (forM_inv (fun s => s.(world) = lcd.(world) /\ s.(palette_mapped) = lcd.(palette_mapped)) _ _ _ _) in E1; [done| |done].
      intros s c s' [H1 H2] _ Hs. apply pixel_frame in Hs as [-> ->]. done. }
    destruct HI as [Hwo Hpa]. rewrite IH; [| |lia|lia|].
    + rewrite Hpa. destruct (forM _ _ lcd1); cbn [mbind outcome_bind]; [|done..]. do 2 f_equal. lia.
    + by rewrite Hwo.
    + intros j t' Hj. rewrite Hwo. replace (addr + 4 + 4 * Z.of_nat j) with (addr + 4 * Z.of_nat (S j)) by lia. by apply Hmem.
Qed.

Lemma pixelsOf_length mapped bpp t : 0 <= bpp <= 4 -> Z.of_nat (length (pixelsOf mapped bpp (le_split 4 t))) * 2 ^ bpp = 32.
Proof.
  intros Hb. assert (bpp = 0 \/ bpp = 1 \/ bpp = 2 \/ bpp = 3 \/ bpp = 4) as [->|[->|[->|[->| ->]]]] by lia; reflexivity.
Qed.

Lemma colors_length mapped bpp ws : 0 <= bpp <= 4 -> Z.of_nat (length (colors mapped bpp ws)) * 2 ^ bpp = 32 * Z.of_nat (length ws).
Proof.
  intros Hb. unfold colors. induction ws as [|t ws IH]; [done|]. rewrite bind_cons, length_app, Nat2Z.inj_add, Z.mul_add_distr_r, IH, pixelsOf_length by done.
  cbn [length]. lia.
Qed.

(** Is the framebuffer another one than at the last frame? *)
Definition moved lcd (addr len bpp : Z) : bool :=
  negb (addr =? lcd.(framebufferBase)) || negb (len =? lcd.(framebufferSize)) || negb (bpp =? lcd.(framebufferBpp)).

(** A whole screen at the current depth, in the 20 bits of LDCMD. *)
Definition wholeScreen lcd (len : Z) : Prop :=
  let bpp := (lcd.(lccr3) .>> 24) .& 7 in bpp <= 4 /\ 8 * len = pixels lcd * 2 ^ bpp /\ len < 2 ^ 20.

Lemma bpp_range lcd : 0 <= (lcd.(lccr3) .>> 24) .& 7 < 8.
Proof. change 7 with (Z.ones 3). rewrite Z.land_ones by lia. apply Z.mod_pos_bound. lia. Qed.

(** What is known after the framebuffer is looked up. *)
Lemma track_spec lcd addr len bpp :
  lcd_wf lcd -> 0 <= bpp <= 4 -> 8 * len = pixels lcd * 2 ^ bpp -> len < 2 ^ 29 ->
  let lcd' := trackFramebuffer set_framebuffer ramSize lcd addr len bpp in
  (if moved lcd addr len bpp then
     exists w a, lcd' = { lcd with framebufferBase := addr; framebufferSize := len; framebufferBpp := bpp; framebufferDirty := true;
                                   framebufferTrackingActive := a; world := w } /\
       (exists z, w = set_framebuffer lcd.(world) addr z /\ (a = true -> z = len))
   else lcd' = lcd).
Proof.
  intros Hwf Hb Hlen Hmax. unfold trackFramebuffer. fold (moved lcd addr len bpp). destruct (moved lcd addr len bpp); [|done].
  assert (E : (len =? u32 (pixels lcd .<< bpp) .>> 3) = true).
  { apply Z.eqb_eq. rewrite Z.shiftl_mul_pow2, <- Hlen, wrap_small, Z.shiftr_div_pow2 by (unfold is_u; destruct Hwf as [[? ?] ? ?]; lia).
    change (2 ^ 3) with 8. rewrite (Z.mul_comm 8), Z.div_mul by lia. done. }
  destruct lcd. unfold pixels in E. cbn -[Z.mul Z.shiftl Z.shiftr] in *. rewrite E. unfold socSetFramebuffer. cbn -[Z.mul Z.shiftl Z.shiftr].
  do 2 eexists. split; [done|]. eexists. split; [done|]. destruct (_ || _); [done|]. done.
Qed.

(** The words of a stretch of memory. *)
Definition memoryWords (w : W) (addr : Z) (ws : list Z) : Prop :=
  forall j t, ws !! j = Some t -> word_at w (addr + 4 * Z.of_nat j) = Some t.

(** Drawing a whole screen from its first pixel. *)
Lemma draw_spec lcd addr bpp ws :
  lcd_wf lcd -> lcd.(i_pixel) = 0 -> 0 <= bpp <= 4 -> 32 * Z.of_nat (length ws) = pixels lcd * 2 ^ bpp ->
  words_wf lcd.(world) -> 0 <= addr -> addr + 4 * Z.of_nat (length ws) < 2 ^ 32 -> memoryWords lcd.(world) addr ws ->
  forM (seqZ 0 (Z.of_nat (length ws))) (screenWord bpp) (lcd, addr) =
  Ret (setPix lcd (colors lcd.(palette_mapped) bpp ws) lcd.(front_buffer) 0 true, addr + 4 * Z.of_nat (length ws)).
Proof.
  intros Hwf Hi Hb Hlen Hw Ha Hend Hmem. rewrite screen_words by done. pose proof (colors_length lcd.(palette_mapped) bpp ws Hb) as HL.
  rewrite <- (setPix_id lcd) at 2. rewrite Hi, pixels_frame; [done|apply Hwf| |apply Hwf].
  assert (0 < 2 ^ bpp) by (apply Z.pow_pos_nonneg; lia). nia.
Qed.

Lemma frame_spec lcd addr ws :
  lcd_wf lcd -> lcd.(i_pixel) = 0 -> wholeScreen lcd (4 * Z.of_nat (length ws)) ->
  words_wf lcd.(world) -> 0 <= addr -> addr + 4 * Z.of_nat (length ws) < 2 ^ 32 -> memoryWords lcd.(world) addr ws ->
  let len := 4 * Z.of_nat (length ws) in
  let bpp := (lcd.(lccr3) .>> 24) .& 7 in
  if negb (moved lcd addr len bpp) && lcd.(framebufferTrackingActive) && negb lcd.(framebufferDirty)
  then pxaLcdPrvScreenDataDma set_framebuffer ramSize lcd addr len = Ret lcd
  else exists w a, pxaLcdPrvScreenDataDma set_framebuffer ramSize lcd addr len =
    Ret { setPix lcd (colors lcd.(palette_mapped) bpp ws) lcd.(front_buffer) 0 true with
          framebufferBase := addr; framebufferSize := len; framebufferBpp := bpp; framebufferDirty := false; framebufferTrackingActive := a; world := w } /\
    (if moved lcd addr len bpp then exists z, w = set_framebuffer lcd.(world) addr z /\ (a = true -> z = len)
     else w = lcd.(world) /\ a = lcd.(framebufferTrackingActive)).
Proof.
  intros Hwf Hi (Hb4 & Hlen & Hmax) Hw Ha Hend Hmem len bpp. pose proof (bpp_range lcd) as Hb. fold bpp in Hb4, Hlen, Hb.
  unfold pxaLcdPrvScreenDataDma. fold bpp. pose proof (track_spec lcd addr len bpp Hwf ltac:(lia) Hlen ltac:(lia)) as HT.
  assert (Hq : len / 4 = Z.of_nat (length ws)) by (unfold len; rewrite Z.mul_comm; apply Z.div_mul; lia). rewrite Hq.
  destruct (moved lcd addr len bpp) eqn:Em; cbn [negb andb].
  - destruct HT as (w & a & -> & z & -> & Hz). exists (set_framebuffer lcd.(world) addr z), a.
    match goal with |- context [screenWord bpp] => idtac end. set (lcd1 := { lcd with framebufferBase := addr; framebufferSize := len; framebufferBpp := bpp;
      framebufferDirty := true; framebufferTrackingActive := a; world := _ }).
    assert (H1 : forall f b i p, { setPix lcd1 f b i p with framebufferDirty := false } =
      { setPix lcd f b i p with framebufferBase := addr; framebufferSize := len; framebufferBpp := bpp; framebufferDirty := false;
        framebufferTrackingActive := a; world := set_framebuffer lcd.(world) addr z }) by (intros; by destruct lcd).
    assert (H2 : lcd1.(framebufferTrackingActive) && negb lcd1.(framebufferDirty) = false) by (unfold lcd1; destruct lcd; cbn; apply andb_false_r).
    assert (H3 : lcd1.(palette_mapped) = lcd.(palette_mapped) /\ lcd1.(front_buffer) = lcd.(front_buffer) /\ lcd1.(world) = set_framebuffer lcd.(world) addr z /\
      pixels lcd1 = pixels lcd /\ lcd1.(i_pixel) = 0 /\ lcd_wf lcd1).
    { unfold lcd1. destruct lcd. cbn -[Z.mul] in *. destruct Hwf. done. }
    destruct H3 as (P1 & P2 & P3 & P4 & P5 & P6). rewrite H2, draw_spec; [|done|done|lia|rewrite P4; lia| |done|done|].
    + cbn [mbind outcome_bind]. rewrite H1, P1, P2. split; [done|]. by exists z.
    + rewrite P3. by apply set_framebuffer_wf.
    + rewrite P3. intros j t Hj. rewrite set_framebuffer_word. by apply Hmem.
  - rewrite HT. destruct (lcd.(framebufferTrackingActive) && negb lcd.(framebufferDirty)) eqn:Es; [done|].
    exists lcd.(world), lcd.(framebufferTrackingActive). rewrite draw_spec by (done || lia). cbn [mbind outcome_bind]. split; [|done]. f_equal.
    unfold moved in Em. apply orb_false_iff in Em as [Em E3]. apply orb_false_iff in Em as [E1 E2].
    apply negb_false_iff, Z.eqb_eq in E1, E2, E3. rewrite E1, E2, E3. by destruct lcd.
Qed.

(** A frame of the size of the screen, started at the first pixel, ends with the
    colours of the whole framebuffer in the front buffer, in memory order at the
    depth of LCCR3, and marked as pending; it is skipped only if the framebuffer
    is the one of the last frame and was not marked dirty since. *)
Theorem lcd_frame_exact lcd addr ws :
  lcd_wf lcd -> lcd.(i_pixel) = 0 -> wholeScreen lcd (4 * Z.of_nat (length ws)) ->
  words_wf lcd.(world) -> 0 <= addr -> addr + 4 * Z.of_nat (length ws) < 2 ^ 32 -> memoryWords lcd.(world) addr ws ->
  let len := 4 * Z.of_nat (length ws) in
  let bpp := (lcd.(lccr3) .>> 24) .& 7 in
  exists lcd', pxaLcdPrvScreenDataDma set_framebuffer ramSize lcd addr len = Ret lcd' /\ lcd'.(framebufferDirty) = false /\ lcd'.(i_pixel) = 0 /\
    if negb (moved lcd addr len bpp) && lcd.(framebufferTrackingActive) && negb lcd.(framebufferDirty) then lcd' = lcd
    else lcd'.(front_buffer) = colors lcd.(palette_mapped) bpp ws /\ lcd'.(frame_pending) = true /\ lcd'.(back_buffer) = lcd.(front_buffer).
Proof.
  intros Hwf Hi Hs Hw Ha Hend Hmem len bpp. pose proof (frame_spec lcd addr ws Hwf Hi Hs Hw Ha Hend Hmem) as HF. cbv zeta in HF. fold len bpp in HF.
  destruct (negb (moved lcd addr len bpp) && _ && negb _) eqn:Es.
  - exists lcd. split; [exact HF|]. apply andb_true_iff in Es as [_ Es]. by apply negb_true_iff in Es.
  - destruct HF as (w & a & HF & _). eexists. split; [exact HF|]. by destruct lcd.
Qed.
End Frames.
