(* ===== verification/Display.v ===== *)
(** * The display and the RAM it shows (pxa_LCD.c, RAM.c, socPXA.cpp)

    The LCD controller skips a frame when the RAM has not reported a store to the
    framebuffer since the last one. Here the two are put together: the RAM is the
    controller's memory, and its report sets the controller's dirty flag, as
    [socSetFramebufferDirty] does. *)

From stdpp Require Import relations.
From S2P Require Import Prelude Bytes Interfaces Ram Lcd.

(** Behind the RAM: the interrupt lines, and a report that is still to be passed on. *)
Definition World : Type := lines * bool.

#[export] Instance world_fb_sink : FbSink World :=
  {| set_fb_dirty w := (w.1, true); fb_dirty w := w.2; fb_dirty_set _ := eq_refl |}.

#[export, program] Instance ram_irq_sink : IrqSink (ArmRam World) := {|
  irq_int ram n b := { ram with soc ::= fun w => (irq_int w.1 n b, w.2) };
  irq_pending ram n := irq_pending ram.(soc).1 n
|}.
Next Obligation. intros ram. by destruct ram. Qed.

#[export, program] Instance ram_fb_port : FbPort (ArmRam World) := {| set_framebuffer := ramSetFramebuffer |}.
Next Obligation. intros ram s z (H1 & H2 & H3 & H4). unfold ramSetFramebuffer. destruct ram, (0 <? z); by split. Qed.
Next Obligation. intros ram s z a. unfold ramSetFramebuffer. by destruct ram, (0 <? z). Qed.

Abbreviation Display := (PxaLcd (ArmRam World)).

(** [socSetFramebufferDirty] reaches the controller. *)
Definition passOn (lcd : Display) : Display :=
  if fb_dirty lcd.(world).(soc)
  then pxaLcdSetFramebufferDirty { lcd with world ::= fun ram => { ram with soc ::= fun w => (w.1, false) } }
  else lcd.

(** A store to RAM, by the CPU or a device. *)
Definition store (lcd : Display) (pa size v : Z) : outcome Display :=
  '(_, _, ram) ← ramAccessF lcd.(world) pa size true v;
  Ret (passOn { lcd with world := ram }).

Definition tick (ramSize : Z) : Display -> outcome Display := pxaLcdTick set_framebuffer ramSize.

(** ** The display is up to date *)

(** What matters for it: not the interrupt lines, nor the registers. *)
Definition muted (ram : ArmRam World) : ArmRam World := { ram with soc ::= fun w => (idle, w.2) }.

Definition view (lcd : Display) :=
  (muted lcd.(world), lcd.(palette_mapped), (lcd.(width), lcd.(height)), (lcd.(front_buffer), lcd.(back_buffer), lcd.(i_pixel)),
   (lcd.(framebufferBase), lcd.(framebufferSize), lcd.(framebufferBpp)), (lcd.(framebufferDirty), lcd.(framebufferTrackingActive))).

(** The bounds that the RAM compares stores with. *)
Definition bounds (ram : ArmRam World) := (map (fbStart ram) [1; 2; 4; 8; 16; 32; 64]%nat, ram.(framebufferEnd)).

(** A framebuffer in RAM, at least 64 bytes from its start. *)
Record inRam (ram : ArmRam World) (base : Z) (ws : list Z) : Prop := {
  ir_words : memoryWords ram base ws;
  ir_room : 64 <= base - ram.(adr);
  ir_end : base + 4 * Z.of_nat (length ws) < 2 ^ 32;
  ir_fit : 4 * Z.of_nat (length ws) <= Z.of_nat (length ram.(buf).(buffer)) - (base - ram.(adr))
}.

(** A framebuffer that is tracked and clean is on the screen, word for word. *)
Record upToDate (lcd : Display) : Prop := {
  ud_wf : lcd_wf lcd;
  ud_first : lcd.(i_pixel) = 0;
  ud_ram : words_wf lcd.(world);
  ud_reported : lcd.(world).(soc).2 = false;
  ud_bounds : lcd.(framebufferTrackingActive) = true ->
    bounds (ramSetFramebuffer lcd.(world) lcd.(framebufferBase) lcd.(framebufferSize)) = bounds lcd.(world);
  ud_screen : lcd.(framebufferTrackingActive) = true -> lcd.(framebufferDirty) = false ->
    exists ws, 4 * Z.of_nat (length ws) = lcd.(framebufferSize) /\ ws <> [] /\ inRam lcd.(world) lcd.(framebufferBase) ws /\
      lcd.(front_buffer) = colors lcd.(palette_mapped) lcd.(framebufferBpp) ws
}.

Lemma muted_facts ram ram' :
  muted ram = muted ram' ->
  ram.(adr) = ram'.(adr) /\ ram.(buf) = ram'.(buf) /\ ram.(soc).2 = ram'.(soc).2 /\ (words_wf ram -> words_wf ram') /\
  (forall a, word_at ram a = word_at ram' a) /\
  bounds ram = bounds ram' /\ (forall b s, bounds (ramSetFramebuffer ram b s) = bounds (ramSetFramebuffer ram' b s)).
Proof.
  destruct ram as [a s b [l d] ? ? ? ? ? ? ? ?], ram' as [a' s' b' [l' d'] ? ? ? ? ? ? ? ?]. unfold muted. cbn. intros [= -> -> -> -> -> -> -> -> -> -> -> ->].
  split_and!; try done. intros b0 s0. unfold ramSetFramebuffer. by destruct (0 <? s0).
Qed.

Lemma view_upToDate lcd lcd' : view lcd = view lcd' -> upToDate lcd -> upToDate lcd'.
Proof.
  unfold view. rewrite !pair_eq. intros (((((Em & Ep) & Ew & Eh) & (Ef & Eb) & Ei) & (E1 & E2) & E3) & E4 & E5) [Hwf Hi Hr Hs Hbo Hsc].
  destruct (muted_facts _ _ Em) as (Ma & Mb & Ms & Mw & Mword & Mbo & Mset). split.
  - destruct Hwf as [A B C]. unfold pixels in *. split; unfold pixels; congruence.
  - congruence.
  - by apply Mw.
  - congruence.
  - rewrite <- E5, <- E1, <- E2, <- Mbo, <- Mset. done.
  - rewrite <- E5, <- E4. intros Ht Hd. destruct (Hsc Ht Hd) as (ws & H1 & H2 & [G1 G2 G3 G4] & H3). exists ws.
    split_and!; [congruence|done| |congruence]. rewrite <- E1. split.
    + intros j t Hj. rewrite <- Mword. by apply G1.
    + by rewrite <- Ma.
    + done.
    + by rewrite <- Ma, <- Mb.
Qed.

Lemma ret_inj {A} (x y : A) : Ret x = Ret y -> x = y.
Proof. congruence. Qed.

(** ** The guest's registers *)

Lemma updateInts_view (lcd : Display) : view (pxaLcdPrvUpdateInts lcd) = view lcd.
Proof. unfold pxaLcdPrvUpdateInts. destruct (_ || _); [|done]. by destruct lcd as [[]]. Qed.

Lemma write_view (lcd : Display) pa v : view (lcdWrite lcd pa v) = view lcd.
Proof.
  unfold lcdWrite. destruct (fbrIndex pa); [by destruct lcd|]. destruct (dmaIndex pa 0); [by destruct lcd|].
  repeat (case_match; try by destruct lcd); rewrite updateInts_view; try case_match; by destruct lcd.
Qed.

(** ** Reading memory *)

Lemma read_pure (ram : ArmRam World) pa size b ok v ram' : ramAccessF ram pa size false b = Ret (ok, v, ram') -> ram' = ram.
Proof.
  assert (HD : forall m : outcome Z, (x ← m; Ret (true, x, ram)) = Ret (ok, v, ram') -> ram' = ram)
    by (intros [x| | |]; cbn; [by intros [= _ _ <-]|done..]).
  unfold ramAccessF. repeat (case_match; try (by apply HD); try (by intros [= _ _ <-])).
Qed.

Lemma getWord_pure (lcd lcd' : Display) a v : pxaLcdPrvGetWord lcd a = Ret (v, lcd') -> lcd' = lcd.
Proof.
  unfold pxaLcdPrvGetWord. cbn [mem_access ram_phys_mem]. destruct (ramAccessF _ _ _ _ _) as [[[ok v'] ram']| | |] eqn:E; cbn; try done.
  apply read_pure in E. intros [= _ <-]. rewrite E. by destruct lcd.
Qed.

Lemma dma_pure words : forall (lcd lcd' : Display) dest at_ addr len d,
  lcdDma words lcd dest at_ addr len = Ret (d, lcd') -> lcd' = lcd.
Proof.
  induction words as [|words IH]; intros lcd lcd' dest at_ addr len d; cbn [lcdDma]; [congruence|]. destruct (0 <? len); [|congruence].
  destruct (pxaLcdPrvGetWord lcd addr) as [[t lcd1]| | |] eqn:E; cbn [mbind outcome_bind]; try done. apply getWord_pure in E as ->.
  destruct (in_object _ _ _); [|done]. apply IH.
Qed.

(** ** The palette *)

Lemma mapEntries_clean pal l : forall m d m', fold_left (mapEntry pal) l (m, d) = (m', false) -> d = false /\ m' = m.
Proof.
  induction l as [|i l IH]; intros m d m'; cbn [fold_left]; [by intros [= -> ->]|]. unfold mapEntry at 2.
  intros H. apply IH in H as [H1 H2]. destruct (d || _) eqn:Ed; [done|]. apply orb_false_iff in Ed as [-> _]. done.
Qed.

Lemma palette_upToDate (lcd : Display) pal len : upToDate lcd -> upToDate (pxaLcdUpdatePalette { lcd with palette := pal } len).
Proof.
  intros H. unfold pxaLcdUpdatePalette. destruct (fold_left _ _ _) as [mapped dirty] eqn:E. destruct dirty.
  - destruct H as [[A B C] Hi Hr Hs Hbo _]. destruct lcd. cbn in *. split; cbn; try done.
  - apply mapEntries_clean in E as [_ ->]. apply (view_upToDate lcd); [by destruct lcd|done].
Qed.

(** ** The tick *)

(** A frame that the controller is about to transfer. *)
Definition transfersFrame (lcd : Display) : Prop :=
  tst (lcdEnable lcd).(lccr0) 0x0001 = true /\ tst (lcdEnable lcd).(lccr0) 0x400 = false /\
  (lcdEnable lcd).(state) = LCD_STATE_DMA_0_START /\ tst lcd.(ldcmd).[0] 0x04000000 = false /\
  tst (u32 (lcd.(frameNum) + 1)) 63 = false.

(** The frames of this guest fill the screen, from framebuffers in RAM. *)
Definition wholeFrames (lcd : Display) : Prop :=
  transfersFrame lcd -> let len := lcd.(ldcmd).[0] .& 0x000FFFFF in
  wholeScreen lcd len /\ exists ws, len = 4 * Z.of_nat (length ws) /\ inRam lcd.(world) lcd.(fsadr).[0] ws.

Lemma enable_view (lcd : Display) : view (lcdEnable lcd) = view lcd.
Proof. unfold lcdEnable. destruct lcd as [? ? ? ? ? ? ? ? ? ? ? ? ? ? ? ? ? ? ? []]; cbn; [|done]. by destruct (tst _ _). Qed.

Lemma fetch_view (lcd lcd' : Display) : lcdFetch lcd = Ret lcd' -> view lcd' = view lcd.
Proof.
  unfold lcdFetch.
  assert (HB : view (snd (if tst lcd.(fbr).[0] 1 then
      let lcd := { lcd with fbr ::= fun l => l.[0 <- l.[0] .&~ 1] } in
      let lcd := if tst lcd.(fbr).[0] 2 then { lcd with lcsr ::= fun s => s .| 0x0200 } else lcd in
      (lcd.(fbr).[0] .&~ 0xF, lcd)
    else (lcd.(fdadr).[0], lcd))) = view lcd).
  { destruct (tst lcd.(fbr).[0] 1); [|done]. destruct lcd. cbn. by destruct (tst _ 2). }
  destruct (if tst _ 1 then _ else _) as [a lcd0]. cbn [snd] in HB. rewrite <- HB. clear HB lcd.
  destruct (pxaLcdPrvGetWord lcd0 a) as [[v1 ?]| | |] eqn:E1; cbn [mbind outcome_bind]; try done. apply getWord_pure in E1 as ->.
  destruct (pxaLcdPrvGetWord _ _) as [[v2 ?]| | |] eqn:E2; cbn [mbind outcome_bind]; try done. apply getWord_pure in E2 as ->.
  destruct (pxaLcdPrvGetWord _ _) as [[v3 ?]| | |] eqn:E3; cbn [mbind outcome_bind]; try done. apply getWord_pure in E3 as ->.
  destruct (pxaLcdPrvGetWord _ _) as [[v4 ?]| | |] eqn:E4; cbn [mbind outcome_bind]; try done. apply getWord_pure in E4 as ->.
  intros [= <-]. by destruct lcd0.
Qed.

Lemma inRam_set (ram : ArmRam World) base ws s z : inRam ram base ws -> inRam (ramSetFramebuffer ram s z) base ws.
Proof.
  intros [A B C D]. assert (E : (ramSetFramebuffer ram s z).(adr) = ram.(adr) /\ (ramSetFramebuffer ram s z).(buf) = ram.(buf))
    by (unfold ramSetFramebuffer; by destruct ram, (0 <? z)).
  destruct E as [Ea Eb]. split; rewrite ?Ea, ?Eb; try done. intros j t Hj.
  pose proof (set_framebuffer_word (W := ArmRam World) ram s z) as HS. cbn [set_framebuffer ram_fb_port] in HS. rewrite HS. by apply A.
Qed.

Lemma set_again ram s z : bounds (ramSetFramebuffer (ramSetFramebuffer ram s z) s z) = bounds (ramSetFramebuffer ram s z).
Proof. unfold ramSetFramebuffer. by destruct ram, (0 <? z). Qed.

Lemma frame_upToDate ramSize (lcd lcd' : Display) addr ws :
  upToDate lcd -> let len := 4 * Z.of_nat (length ws) in wholeScreen lcd len -> inRam lcd.(world) addr ws ->
  pxaLcdPrvScreenDataDma set_framebuffer ramSize lcd addr len = Ret lcd' -> upToDate lcd'.
Proof.
  intros H len Hs Hin Hr. pose proof H as [Hwf Hi Hw Hrep Hbo Hsc]. pose proof Hin as [Hmem Hroom Hend Hfit].
  destruct Hw as (Hw1 & Hw2 & Hw3 & Hw4).
  pose proof (frame_spec ramSize lcd addr ws Hwf Hi Hs (conj Hw1 (conj Hw2 (conj Hw3 Hw4))) ltac:(lia) Hend Hmem) as HF.
  cbv zeta in HF. fold len in HF. destruct Hs as (Hb4 & Hlen & Hmax). set (bpp := (lcd.(lccr3) .>> 24) .& 7) in *.
  pose proof (bpp_range lcd) as Hb. fold bpp in Hb. pose proof (colors_length lcd.(palette_mapped) bpp ws ltac:(lia)) as HL.
  assert (Hp : 0 < 2 ^ bpp) by (apply Z.pow_pos_nonneg; lia). pose proof (lwf_pixels _ Hwf) as Hpix.
  assert (HC : Z.of_nat (length (colors lcd.(palette_mapped) bpp ws)) = pixels lcd) by nia.
  assert (Hne : ws <> []) by (intros ->; cbn [length] in HL; nia).
  destruct (negb (moved lcd addr len bpp) && _ && _); [congruence|]. destruct HF as (w & a & HF & Hwa). rewrite HF in Hr. injection Hr as <-.
  assert (HW : (w = lcd.(world) \/ exists z, w = ramSetFramebuffer lcd.(world) addr z) /\ (a = true -> bounds (ramSetFramebuffer w addr len) = bounds w)).
  { destruct (moved lcd addr len bpp) eqn:Em.
    - destruct Hwa as (z & -> & Hz). split; [eauto|]. intros Ha. rewrite (Hz Ha). apply set_again.
    - destruct Hwa as [-> ->]. split; [eauto|]. unfold moved in Em. apply orb_false_iff in Em as [Em _]. apply orb_false_iff in Em as [E1 E2].
      apply negb_false_iff, Z.eqb_eq in E1, E2. rewrite E1, E2. exact Hbo. }
  destruct HW as [HW1 HW2].
  assert (HW3 : words_wf w /\ w.(soc).2 = false /\ inRam w addr ws).
  { destruct HW1 as [->|[z ->]]; [done|]. split; [by apply (@set_framebuffer_wf _ _ _ ram_fb_port)|].
    split; [|by apply inRam_set]. rewrite <- Hrep. unfold ramSetFramebuffer. by destruct (world lcd), (0 <? z). }
  destruct HW3 as (HW3 & HW4 & HW5). clear Hsc Hbo Hmem HF Hwa HW1. destruct Hwf as [A B C]. unfold pixels in *. destruct lcd. cbn in *.
  split; cbn; try done. intros _ _. exists ws. done.
Qed.

Lemma transfer_upToDate ramSize (lcd lcd' : Display) :
  upToDate lcd ->
  (tst lcd.(ldcmd).[0] 0x04000000 = false -> tst (u32 (lcd.(frameNum) + 1)) 63 = false ->
   let len := lcd.(ldcmd).[0] .& 0x000FFFFF in wholeScreen lcd len /\ exists ws, len = 4 * Z.of_nat (length ws) /\ inRam lcd.(world) lcd.(fsadr).[0] ws) ->
  lcdTransfer set_framebuffer ramSize lcd = Ret lcd' -> upToDate lcd'.
Proof.
  intros H Hframe. unfold lcdTransfer. set (cmd := lcd.(ldcmd).[0]) in *.
  assert (H0 : exists s, (if tst cmd 0x00400000 then { lcd with lcsr ::= fun s => s .| 0x0002 } else lcd) = { lcd with lcsr := s }).
  { destruct (tst cmd 0x00400000); [by eexists|]. exists lcd.(lcsr). by destruct lcd. }
  destruct H0 as (s & ->). set (len := if 512 <? _ then _ else _). destruct (tst cmd 0x04000000) eqn:Ep.
  - destruct (pxaLcdPrvDma _ _ _ _) as [[pal lcd1]| | |] eqn:E; cbn [mbind outcome_bind]; try done. unfold pxaLcdPrvDma in E. apply dma_pure in E as ->.
    assert (HP : upToDate (pxaLcdUpdatePalette { { lcd with lcsr := s } with palette := pal } len)).
    { apply palette_upToDate, (view_upToDate lcd); [by destruct lcd|done]. }
    revert HP. generalize (pxaLcdUpdatePalette { { lcd with lcsr := s } with palette := pal } len). intros d Hd [= <-].
    apply (view_upToDate d); [by destruct d|done].
  - specialize (Hframe eq_refl). assert (En : ({ { lcd with lcsr := s } with frameNum ::= fun n => u32 (n + 1) }).(frameNum) = u32 (lcd.(frameNum) + 1)) by (by destruct lcd).
    rewrite En. destruct (tst (u32 _) 63) eqn:Ef; cbn [mbind outcome_bind].
    + intros [= <-]. apply (view_upToDate lcd); [by destruct lcd|done].
    + destruct (Hframe eq_refl) as (Hs & ws & Hlen & Hin). fold cmd in Hs, Hlen. set (lcd1 := { { lcd with lcsr := s } with frameNum ::= _ }).
      assert (F : view lcd1 = view lcd /\ lcd1.(fsadr) = lcd.(fsadr) /\ lcd1.(world) = lcd.(world) /\ lcd1.(lccr3) = lcd.(lccr3) /\ pixels lcd1 = pixels lcd)
        by (unfold lcd1; by destruct lcd).
      destruct F as (F1 & F2 & F3 & F4 & F5). clearbody lcd1. rewrite Hlen in *.
      destruct (pxaLcdPrvScreenDataDma _ _ _ _ _) as [lcd2| | |] eqn:E; cbn [mbind outcome_bind]; try done. intros [= <-].
      apply (view_upToDate lcd2); [by destruct lcd2|]. eapply (frame_upToDate ramSize lcd1 lcd2); [by apply (view_upToDate lcd)| | |exact E].
      * unfold wholeScreen in *. rewrite F4, F5. done.
      * rewrite F2, F3. done.
Qed.

Lemma tick_upToDate ramSize (lcd lcd' : Display) :
  upToDate lcd -> wholeFrames lcd -> tick ramSize lcd = Ret lcd' -> upToDate lcd'.
Proof.
  intros H Hw. unfold tick, pxaLcdTick. pose proof (enable_view lcd) as Hv. unfold wholeFrames, transfersFrame in Hw.
  assert (E0 : exists s st b, lcdEnable lcd = { lcd with lcsr := s; state := st; enbChanged := b }).
  { unfold lcdEnable. destruct lcd.(enbChanged) eqn:Eb; [destruct (tst lcd.(lccr0) 1)|].
    - exists lcd.(lcsr), lcd.(state), false. by destruct lcd.
    - exists (lcd.(lcsr) .| 0x0080), LCD_STATE_IDLE, false. by destruct lcd.
    - exists lcd.(lcsr), lcd.(state), false. destruct lcd. cbn in Eb. by rewrite Eb. }
  assert (E0' : (lcdEnable lcd).(ldcmd) = lcd.(ldcmd) /\ (lcdEnable lcd).(fsadr) = lcd.(fsadr) /\ (lcdEnable lcd).(world) = lcd.(world) /\
    (lcdEnable lcd).(lccr3) = lcd.(lccr3) /\ (lcdEnable lcd).(frameNum) = lcd.(frameNum) /\ pixels (lcdEnable lcd) = pixels lcd)
    by (destruct E0 as (s & st & b & ->); by destruct lcd).
  clear E0. rename E0' into E0.
  destruct E0 as (E1 & E2 & E3 & E4 & E5 & E6). apply (view_upToDate lcd (lcdEnable lcd)) in H; [|done]. set (lcd0 := lcdEnable lcd) in *. clearbody lcd0.
  assert (HB : forall m : outcome Display, (forall d, m = Ret d -> upToDate d) -> (d ← m; Ret (pxaLcdPrvUpdateInts d)) = Ret lcd' -> upToDate lcd').
  { intros m Hm. destruct m as [d| | |]; cbn; try done. intros [= <-]. eapply view_upToDate; [symmetry; apply updateInts_view|]. by apply Hm. }
  apply HB. clear HB. intros d. destruct (tst lcd0.(lccr0) 1) eqn:Een; [|by intros [= <-]].
  destruct (tst lcd0.(lccr0) 0x400) eqn:Edis; [intros [= <-]; apply (view_upToDate lcd0); [by destruct lcd0|done]|].
  destruct lcd0.(state) eqn:Est.
  - intros Hf. apply fetch_view in Hf. by apply (view_upToDate lcd0).
  - apply transfer_upToDate; [done|]. rewrite E1, E2, E3, E5. intros Hp Hf. destruct Hw as (Hs & Hin); [done|]. split; [|done].
    unfold wholeScreen in *. by rewrite E4, E6.
  - intros [= <-]. apply (view_upToDate lcd0); [|done]. destruct (tst _ 0x200000); by destruct lcd0.
Qed.

(** ** A store *)

Lemma words_store (ram ram' : ArmRam World) base ws off (n : nat) v :
  ram'.(adr) = ram.(adr) -> ram'.(buf).(buffer) = poke ram.(buf).(buffer) off (le_split n v) -> 0 <= off -> ram.(adr) <= base ->
  off + Z.of_nat n <= base - ram.(adr) \/ base - ram.(adr) + 4 * Z.of_nat (length ws) <= off ->
  memoryWords ram base ws -> memoryWords ram' base ws.
Proof.
  intros Ea Eb Ho Ha Hd Hm j t Hj. specialize (Hm j t Hj). apply lookup_lt_Some in Hj. cbn [word_at ram_word_mem] in *. unfold ram_word in *.
  rewrite Ea, Eb, length_poke. destruct (_ && _); [|done]. rewrite <- Hm. do 2 f_equal.
  apply peek_poke_disjoint; [lia|lia|lia|]. rewrite length_le_split. lia.
Qed.

Lemma bounds_set (ram ram' : ArmRam World) b s : ram'.(adr) = ram.(adr) -> bounds (ramSetFramebuffer ram' b s) = bounds (ramSetFramebuffer ram b s).
Proof. intros E. unfold ramSetFramebuffer. rewrite E. by destruct ram, ram', (0 <? s). Qed.

Lemma touches_bounds (ram ram' : ArmRam World) n off : valid_size n -> bounds ram = bounds ram' -> touches_fb ram n off = touches_fb ram' n off.
Proof.
  unfold bounds, touches_fb. intros Hn [= H1 H2 H4 H8 H16 H32 H64 He]. cbn in Hn. 
  repeat (destruct Hn as [<-|Hn]; [cbn [fbStart]; congruence|]). done.
Qed.

(** A store to a tracked framebuffer is reported. *)
Lemma store_reported (ram : ArmRam World) base size pa n off :
  buffer_wf ram.(buf) -> valid_access ram pa n off -> off + Z.of_nat n <= 2 ^ 32 -> ram.(soc).2 = false ->
  bounds (ramSetFramebuffer ram base size) = bounds ram -> 0 < size -> 64 <= base - ram.(adr) -> base - ram.(adr) + size < 2 ^ 32 ->
  off < base - ram.(adr) + size -> base - ram.(adr) < off + Z.of_nat n -> touches_fb ram n off = true.
Proof.
  intros Hwf Hacc Hend Hs Hb Hsize Hroom Hfit H1 H2. pose proof Hacc as [Hn _ _ _ _].
  rewrite <- (touches_bounds (ramSetFramebuffer ram base size)) by done.
  assert (E : (ramSetFramebuffer ram base size).(adr) = ram.(adr) /\ (ramSetFramebuffer ram base size).(buf) = ram.(buf) /\
    (ramSetFramebuffer ram base size).(soc) = ram.(soc)) by (unfold ramSetFramebuffer; by destruct ram, (0 <? size)).
  destruct E as (Ea & Eb & Es).
  destruct (write_spec (ramSetFramebuffer ram base size) pa n off 0) as (r & E & _ & _ & _ & Er & _); [by rewrite Eb|by apply (valid_access_mono ram); rewrite ?Eb|done|].
  pose proof (framebuffer_store_marks_display ram r base size (base - ram.(adr)) pa off 0 0 n true Hwf Hacc Hend Hsize eq_refl Hfit) as HM.
  rewrite Er in HM. destruct (touches_fb (ramSetFramebuffer ram base size) n off); [done|]. rewrite Es in HM. cbn [fb_dirty world_fb_sink] in HM.
  rewrite Hs in HM. pose proof (valid_size_bounds n Hn). apply HM; [lia|lia|done].
Qed.

Lemma store_upToDate (lcd lcd' : Display) pa n off v :
  upToDate lcd -> valid_access lcd.(world) pa n off -> off + Z.of_nat n <= 2 ^ 32 -> store lcd pa (Z.of_nat n) v = Ret lcd' -> upToDate lcd'.
Proof.
  intros [Hwf Hi Hw Hrep Hbo Hsc] Hacc Hend. unfold store. destruct Hw as (Hw1 & Hw2 & Hw3 & Hw4).
  destruct (write_spec lcd.(world) pa n off v Hw1 Hacc Hend) as (ram & E & (Ea & _ & Eend & Efb) & Hwf' & Eb & Es & _).
  rewrite E. cbn [mbind outcome_bind]. 
  assert (Hbs : bounds ram = bounds lcd.(world)) by (unfold bounds; rewrite Eend; f_equal; apply map_ext; done).
  assert (Hset : forall b s, bounds (ramSetFramebuffer ram b s) = bounds (ramSetFramebuffer lcd.(world) b s)) by (intros; by apply bounds_set).
  assert (Hww : ram_words_wf ram) by (split_and!; rewrite ?Ea, ?Eb, ?length_poke; done).
  unfold passOn. cbn [fb_dirty world_fb_sink].
  assert (Ew : (world { lcd with world := ram }) = ram) by (by destruct lcd). rewrite Ew.
  destruct (touches_fb lcd.(world) n off) eqn:Et; rewrite Es; cbn [set_fb_dirty world_fb_sink snd].
  - intros Hr%ret_inj. subst lcd'. destruct Hwf as [A B C], ram as [? ? ? [? ?]], lcd. cbn in *. split; cbn; try done. intros Ht. rewrite <- Hbs, <- Hset in Hbo.
    specialize (Hbo Ht). unfold ramSetFramebuffer in *. cbn in *. by destruct (0 <? _).
  - rewrite Hrep. intros Hr%ret_inj. subst lcd'. assert (Hold : lcd.(framebufferTrackingActive) = true -> lcd.(framebufferDirty) = false -> 
      exists ws, 4 * Z.of_nat (length ws) = lcd.(framebufferSize) /\ ws <> [] /\ inRam ram lcd.(framebufferBase) ws /\
      lcd.(front_buffer) = colors lcd.(palette_mapped) lcd.(framebufferBpp) ws).
    { intros Ht Hd. destruct (Hsc Ht Hd) as (ws & H1 & H2 & [G1 G2 G3 G4] & H3). exists ws. split_and!; [done|done| |done].
      assert (Hne : 0 < Z.of_nat (length ws)) by (destruct ws; [done|cbn [length]; lia]). destruct Hacc as [Hn Hpa Hadr Hoff Hin] eqn:Eacc.
      split; rewrite ?Ea, ?Eb, ?length_poke; try done. eapply words_store; [exact Ea|exact Eb|lia|lia| |done].
      destruct (Z.le_gt_cases (off + Z.of_nat n) (lcd.(framebufferBase) - lcd.(world).(adr))); [by left|].
      destruct (Z.le_gt_cases (lcd.(framebufferBase) - lcd.(world).(adr) + 4 * Z.of_nat (length ws)) off); [by right|]. exfalso.
      rewrite (store_reported lcd.(world) lcd.(framebufferBase) lcd.(framebufferSize) pa n off) in Et; try done; try lia. by apply Hbo. }
    clear Hsc. destruct Hwf as [A B C], lcd. cbn in *. split; cbn; try done. 
    + congruence.
    + intros Ht. rewrite Hset, Hbs. by apply Hbo.
Qed.

(** ** Runs *)

(** What happens to the display: stores, ticks, accesses of the guest to the registers,
    and the frame being taken by the host. *)
Inductive display_step (ramSize : Z) : Display -> Display -> Prop :=
| step_store lcd lcd' pa n off v :
    valid_access lcd.(world) pa n off -> off + Z.of_nat n <= 2 ^ 32 -> store lcd pa (Z.of_nat n) v = Ret lcd' -> display_step ramSize lcd lcd'
| step_tick lcd lcd' : wholeFrames lcd -> tick ramSize lcd = Ret lcd' -> display_step ramSize lcd lcd'
| step_access lcd pa size wr b : display_step ramSize lcd (pxaLcdPrvMemAccessF lcd pa size wr b).2
| step_taken lcd : display_step ramSize lcd (pxaLcdResetPendingFrame lcd).

Lemma access_view (lcd : Display) pa size wr b : view (pxaLcdPrvMemAccessF lcd pa size wr b).2 = view lcd.
Proof. unfold pxaLcdPrvMemAccessF. destruct (negb _); [done|]. destruct wr; [apply write_view|done]. Qed.

Lemma step_upToDate ramSize lcd lcd' : display_step ramSize lcd lcd' -> upToDate lcd -> upToDate lcd'.
Proof.
  intros [l l' pa n off v Ha He Hs|l l' Hw Ht|l pa size wr b|l] H.
  - by eapply store_upToDate.
  - by eapply tick_upToDate.
  - apply (view_upToDate l); [symmetry; apply access_view|done].
  - apply (view_upToDate l); [by destruct l|done].
Qed.

Lemma init_upToDate (ram : ArmRam World) width height front back :
  words_wf ram -> ram.(soc).2 = false -> 0 < width * height < 2 ^ 32 ->
  Z.of_nat (length front) = width * height -> Z.of_nat (length back) = width * height -> upToDate (pxaLcdInit ram width height front back).
Proof. intros. by split. Qed.

(** C14. Skipping frames loses nothing: along every run of stores to RAM, ticks of the
    controller and accesses of the guest to its registers, where the frames fill
    the screen from framebuffers that lie 64 bytes or more behind the start of
    RAM, a framebuffer that is tracked and not marked dirty is on the screen word
    for word, with the current palette. *)
Theorem display_up_to_date ramSize (ram : ArmRam World) width height front back lcd :
  words_wf ram -> ram.(soc).2 = false -> 0 < width * height < 2 ^ 32 ->
  Z.of_nat (length front) = width * height -> Z.of_nat (length back) = width * height ->
  rtc (display_step ramSize) (pxaLcdInit ram width height front back) lcd ->
  lcd.(framebufferTrackingActive) = true -> lcd.(framebufferDirty) = false ->
  exists ws, 4 * Z.of_nat (length ws) = lcd.(framebufferSize) /\ memoryWords lcd.(world) lcd.(framebufferBase) ws /\
    lcd.(front_buffer) = colors lcd.(palette_mapped) lcd.(framebufferBpp) ws.
Proof.
  intros Hw Hs Hp Hf Hb Hrun Ht Hd. assert (H : upToDate lcd).
  { apply (rtc_ind_r (R := display_step ramSize) upToDate (pxaLcdInit ram width height front back)) with (z := lcd); [|intros a b' _ Hs' Hu; by eapply step_upToDate|exact Hrun].
    by apply init_upToDate. }
  destruct H as [_ _ _ _ _ Hsc]. destruct (Hsc Ht Hd) as (ws & H1 & _ & [H2 _ _ _] & H3). by exists ws.
Qed.

(** ** A display in use *)

(** What happens to it, as a script: word stores, accesses of the guest to the
    registers, ticks. *)
Inductive event := Tick | Store (pa v : Z) | Register (pa v : Z) | Taken.

Definition wordsAt (ram : ArmRam World) (base n : Z) : option (list Z) :=
  mapM (fun j => word_at ram (base + 4 * j)) (seqZ 0 n).

Definition inRamb (ram : ArmRam World) (base len : Z) : bool :=
  bool_decide (is_Some (wordsAt ram base (len / 4))) && (len mod 4 =? 0) && (64 <=? base - ram.(adr)) && (base + len <? 2 ^ 32) &&
  (0 <=? len) && (len <=? Z.of_nat (length ram.(buf).(buffer)) - (base - ram.(adr))).

Definition wholeFramesb (lcd : Display) : bool :=
  let len := lcd.(ldcmd).[0] .& 0x000FFFFF in
  let bpp := (lcd.(lccr3) .>> 24) .& 7 in
  tst lcd.(ldcmd).[0] 0x04000000 || tst (u32 (lcd.(frameNum) + 1)) 63 ||
  match (lcdEnable lcd).(state) with LCD_STATE_DMA_0_START => false | _ => true end ||
  (bpp <=? 4) && (8 * len =? pixels lcd * 2 ^ bpp) && (len <? 2 ^ 20) && inRamb lcd.(world) lcd.(fsadr).[0] len.

Definition event_step (ramSize : Z) (lcd : Display) (e : event) : outcome Display :=
  match e with
  | Tick => if wholeFramesb lcd then tick ramSize lcd else Undef
  | Store pa v =>
      let off := pa - lcd.(world).(adr) in
      if (0 <=? pa) && (pa <? 2 ^ 32) && (0 <=? lcd.(world).(adr)) && (0 <=? off) &&
         (off + 4 <=? Z.of_nat (length lcd.(world).(buf).(buffer))) && (off + 4 <=? 2 ^ 32)
      then store lcd pa 4 v else Undef
  | Register pa v => Ret (pxaLcdPrvMemAccessF lcd pa 4 true v).2
  | Taken => Ret (pxaLcdResetPendingFrame lcd)
  end.

Lemma inRamb_sound (ram : ArmRam World) base len :
  inRamb ram base len = true -> exists ws, len = 4 * Z.of_nat (length ws) /\ inRam ram base ws.
Proof.
  unfold inRamb. rewrite !andb_true_iff, bool_decide_eq_true, Z.eqb_eq, !Z.leb_le, Z.ltb_lt. intros (((((H1 & H2) & H3) & H4) & H5) & H6).
  destruct H1 as [ws Hws]. pose proof Hws as Hl. apply mapM_Some in Hws. unfold wordsAt in Hl. apply length_mapM in Hl. rewrite length_seqZ in Hl.
  assert (El : len = 4 * Z.of_nat (length ws)) by (rewrite <- Hl, Z2Nat.id by (apply Z.div_pos; lia); pose proof (Z.div_mod len 4); lia).
  exists ws. split; [done|]. split; [|lia..]. intros j t Hj. destruct (Forall2_lookup_r _ _ _ _ _ Hws Hj) as (k & Hk & Ht).
  apply lookup_seqZ in Hk as [-> _]. exact Ht.
Qed.

Lemma wholeFramesb_sound (lcd : Display) : wholeFramesb lcd = true -> wholeFrames lcd.
Proof.
  unfold wholeFramesb, wholeFrames, wholeScreen. intros H (_ & _ & Hs & Hp & Hf). rewrite Hp, Hf, Hs in H. cbn [orb] in H.
  rewrite !andb_true_iff, Z.leb_le, Z.eqb_eq, Z.ltb_lt in H. destruct H as [((H1 & H2) & H3) H4]. split; [done|]. by apply inRamb_sound.
Qed.

Lemma event_step_sound ramSize (lcd lcd' : Display) e :
  event_step ramSize lcd e = Ret lcd' -> display_step ramSize lcd lcd'.
Proof.
  destruct e as [|pa v|pa v|]; cbn [event_step].
  - destruct (wholeFramesb lcd) eqn:E; [|done]. intros Ht. apply step_tick; [by apply wholeFramesb_sound|done].
  - destruct (_ && _) eqn:E; [|done]. rewrite !andb_true_iff, !Z.leb_le, Z.ltb_lt in E. intros Hs.
    eapply (step_store _ _ _ pa 4 (pa - lcd.(world).(adr))); [|cbn; lia|exact Hs]. split; [cbn; tauto|unfold is_u; lia|lia|done|cbn; lia].
  - intros <-%ret_inj. apply step_access.
  - intros <-%ret_inj. apply step_taken.
Qed.

Lemma script_sound ramSize script : forall lcd lcd' : Display, forM script (event_step ramSize) lcd = Ret lcd' -> rtc (display_step ramSize) lcd lcd'.
Proof.
  induction script as [|e script IH]; intros lcd lcd'; cbn [forM]; [by intros [= <-]|].
  destruct (event_step ramSize lcd e) as [lcd1| | |] eqn:E; cbn [mbind outcome_bind]; try done.
  intros H. eapply rtc_l; [by eapply event_step_sound|by apply IH].
Qed.

(** A display of 4 by 2 pixels in two kilobytes of RAM: a descriptor at the start of
    RAM, 16-bit pixels at 0x100. *)
Definition small_ram : ArmRam World := ramInit (idle, false) 0xa0000000 2048 (ramBufferAllocate 2048).

Definition small_display : Display := pxaLcdInit small_ram 4 2 (replicate 8 0) (replicate 8 0).

(** The guest sets the display up, draws a red pixel, and lets 64 frames pass; it draws
    a blue one behind it, lets 64 frames pass again, and stores elsewhere. *)
Definition small_script : list event :=
  [Store 0xa0000000 0xa0000000; Store 0xa0000004 0xa0000100; Store 0xa000000c 16; Store 0xa0000100 0xf800;
   Register 0x44000200 0xa0000000; Register 0x4400000c 0x04000000; Register 0x44000000 1] ++
  replicate 192 Tick ++ [Store 0xa0000100 0x001ff800] ++ replicate 192 Tick ++ [Store 0xa0000200 7].

Abbreviation small_run := (forM small_script (event_step 2048) (pxaLcdInit small_ram 4 2 (replicate 8 0) (replicate 8 0))).

Definition outcome_or {A} (d : A) (m : outcome A) : A := match m with Ret x => x | _ => d end.

Definition small_end : Display := outcome_or small_display small_run.

Lemma outcome_or_ret {A} (d : A) m : is_ret m = true -> m = Ret (outcome_or d m).
Proof. by destruct m. Qed.

Lemma small_run_ret : small_run = Ret small_end.
Proof. unfold small_end. apply outcome_or_ret. vm_compute. reflexivity. Qed.

Lemma small_run_ends : rtc (display_step 2048) (pxaLcdInit small_ram 4 2 (replicate 8 0) (replicate 8 0)) small_end.
Proof.
  apply (script_sound 2048 small_script).
  exact small_run_ret.
Qed.

Lemma display_up_to_date_witness :
  exists ws, 4 * Z.of_nat (length ws) = small_end.(framebufferSize) /\ memoryWords small_end.(world) small_end.(framebufferBase) ws /\
    small_end.(front_buffer) = colors small_end.(palette_mapped) small_end.(framebufferBpp) ws.
Proof.
  apply (display_up_to_date 2048 small_ram 4 2 (replicate 8 0) (replicate 8 0) small_end).
  - split; [|split; [vm_compute; discriminate|split; [reflexivity|vm_compute; discriminate]]].
    split; [reflexivity|apply Forall_replicate; is_u_lit|vm_compute; discriminate].
  - reflexivity.
  - lia.
  - reflexivity.
  - reflexivity.
  - exact small_run_ends.
  - vm_compute. reflexivity.
  - vm_compute. reflexivity.
Defined.

(** Both pixels are on the screen. *)
Example small_screen : small_end.(front_buffer) = [0xff0000ff; 0xffff0000; 0xff000000; 0xff000000; 0xff000000; 0xff000000; 0xff000000; 0xff000000].
Proof. vm_compute. reflexivity. Qed.
