(* ===== verification/Ac97.v ===== *)
(** * The AC97 controller (pxa_AC97.c)

    The controller keeps a FIFO per direction and codec, and passes accesses of the
    guest to the codecs' registers on to them. A codec is a pair of functions on the
    world behind the controller; it fetches its samples from the FIFOs itself. *)

From S2P Require Import Prelude Interfaces.

Definition PXA_AC97_BASE := 0x40500000.
Definition DMA_CMR_AC97_MIC := 8.
Definition DMA_CMR_AC97_MODEM_RX := 9.
Definition DMA_CMR_AC97_MODEM_TX := 10.
Definition DMA_CMR_AC97_AUDIO_RX := 11.
Definition DMA_CMR_AC97_AUDIO_TX := 12.
Definition AC97_FIFO_DEPTH := 16.

(** The status registers that the FIFOs point to. *)
Inductive StatusReg := Posr | Pisr | Mcsr | Mosr | Misr.

Record AC97Fifo := mkAC97Fifo {
  readPtr : Z;               (* uint8_t *)
  numItems : Z;              (* uint8_t *)
  dmaChannelNum : Z;         (* uint8_t *)
  isRxFifo : bool;
  data : list Z;             (* uint32_t[16] *)
  isr : option StatusReg     (* NULL where [memset] left it; [icr] is never read *)
}.

Record Ac97CodecStruct (W : Type) := mkAc97CodecStruct {
  regR : option (W -> Z -> Z -> outcome (bool * Z * W)); (* the last argument is the old value behind the pointer *)
  regW : option (W -> Z -> Z -> outcome (bool * W));
  prevReadVal : Z;           (* uint16_t *)
  txFifo : AC97Fifo;
  rxFifo : AC97Fifo
}.
Arguments mkAc97CodecStruct {W}. Arguments regR {W}. Arguments regW {W}. Arguments prevReadVal {W}. Arguments txFifo {W}. Arguments rxFifo {W}.

Record SocAC97 (W : Type) := mkSocAC97 {
  world : W;                 (* dma, ic and the codecs *)
  pocr : Z; picr : Z; mccr : Z; posr : Z; pisr : Z; mcsr : Z; car : Z; mocr : Z; mosr : Z; micr : Z; misr : Z; (* uint8_t *)
  gcr : Z; gsr : Z;          (* uint32_t *)
  primaryAudio : Ac97CodecStruct W;
  secondaryAudio : Ac97CodecStruct W;
  primaryModem : Ac97CodecStruct W;
  secondaryModem : Ac97CodecStruct W
}.
Arguments mkSocAC97 {W}. Arguments world {W}. Arguments pocr {W}. Arguments picr {W}. Arguments mccr {W}. Arguments posr {W}.
Arguments pisr {W}. Arguments mcsr {W}. Arguments car {W}. Arguments mocr {W}. Arguments mosr {W}. Arguments micr {W}. Arguments misr {W}.
Arguments gcr {W}. Arguments gsr {W}. Arguments primaryAudio {W}. Arguments secondaryAudio {W}. Arguments primaryModem {W}. Arguments secondaryModem {W}.

Inductive Ac97Codec := Ac97PrimaryAudio | Ac97SecondaryAudio | Ac97PrimaryModem | Ac97SecondaryModem.

Section Operations.
Context {W : Type} `{!IrqSink W} `{!DmaSink W}.
Implicit Types (ac : SocAC97 W) (which : Ac97Codec).

Definition socAC97prvCodecPtrGet ac which : Ac97CodecStruct W :=
  match which with
  | Ac97PrimaryAudio => ac.(primaryAudio)
  | Ac97SecondaryAudio => ac.(secondaryAudio)
  | Ac97PrimaryModem => ac.(primaryModem)
  | Ac97SecondaryModem => ac.(secondaryModem)
  end.

(** A change behind that pointer. *)
Definition updCodec ac which (f : Ac97CodecStruct W -> Ac97CodecStruct W) : SocAC97 W :=
  match which with
  | Ac97PrimaryAudio => { ac with primaryAudio ::= f }
  | Ac97SecondaryAudio => { ac with secondaryAudio ::= f }
  | Ac97PrimaryModem => { ac with primaryModem ::= f }
  | Ac97SecondaryModem => { ac with secondaryModem ::= f }
  end.

(** A pointer to a FIFO: the codec, and whether it is the receive FIFO. *)
Definition FifoPtr : Type := Ac97Codec * bool.

Definition fifoAt ac (p : FifoPtr) : AC97Fifo :=
  let cd := socAC97prvCodecPtrGet ac p.1 in if p.2 then cd.(rxFifo) else cd.(txFifo).

Definition updFifo ac (p : FifoPtr) (f : AC97Fifo -> AC97Fifo) : SocAC97 W :=
  updCodec ac p.1 (fun cd => if p.2 then { cd with rxFifo ::= f } else { cd with txFifo ::= f }).

(** A change of [*fifo->isr]. *)
Definition updIsr ac (r : StatusReg) (f : Z -> Z) : SocAC97 W :=
  match r with
  | Posr => { ac with posr ::= f }
  | Pisr => { ac with pisr ::= f }
  | Mcsr => { ac with mcsr ::= f }
  | Mosr => { ac with mosr ::= f }
  | Misr => { ac with misr ::= f }
  end.

Definition derefIsr ac (p : FifoPtr) (f : Z -> Z) : outcome (SocAC97 W) :=
  match (fifoAt ac p).(isr) with
  | Some r => Ret (updIsr ac r f)
  | None => Undef
  end.

Definition socAC97prvIrqUpdate ac : SocAC97 W :=
  let irq := tst (ac.(posr) .& (ac.(pocr) .<< 1)) 0x14 in
  let irq := irq || tst (ac.(pisr) .& (ac.(picr) .<< 1)) 0x14 in
  let irq := irq || tst (ac.(mccr) .& (ac.(mcsr) .<< 1)) 0x14 in
  let irq := irq || tst (ac.(mocr) .& (ac.(mosr) .<< 1)) 0x14 in
  let irq := irq || tst (ac.(micr) .& (ac.(misr) .<< 1)) 0x14 in
  let irq := irq || tst (ac.(gcr) .& ac.(gsr)) 0x300 in
  let irq := irq || tst ac.(gsr) 0x000c0000 in
  { ac with world ::= fun w => irq_int w PXA_I_AC97 irq }.

Definition socAC97PrvFifoDmaUpdate ac (p : FifoPtr) : outcome (SocAC97 W) :=
  let fifo := fifoAt ac p in
  let fifoReadyForRead := if fifo.(isRxFifo) then 8 <=? fifo.(numItems) else fifo.(numItems) <? 8 in
  ac ← derefIsr ac p (fun s => if fifoReadyForRead then s .| 4 else s .&~ 4);
  Ret (if nz fifo.(dmaChannelNum)
       then { ac with world ::= fun w => dma_external_req w fifo.(dmaChannelNum) fifoReadyForRead }
       else ac).

Definition socAC97PrvFifoAdd ac (p : FifoPtr) (val : Z) : outcome (bool * SocAC97 W) :=
  let fifo := fifoAt ac p in
  let full := fifo.(numItems) =? AC97_FIFO_DEPTH in
  ac ← (if full then derefIsr ac p (fun s => s .| 0x10)
          else Ret (updFifo ac p (fun f => { f with data := f.(data).[(f.(readPtr) + f.(numItems)) mod AC97_FIFO_DEPTH <- val];
                                                      numItems := f.(numItems) + 1 })));
  ac ← socAC97PrvFifoDmaUpdate ac p;
  Ret (negb full, ac).

Definition socAC97PrvFifoGet ac (p : FifoPtr) : outcome (bool * Z * SocAC97 W) :=
  let fifo := fifoAt ac p in
  let empty := fifo.(numItems) =? 0 in
  ac ← (if empty then derefIsr ac p (fun s => s .| 0x10)
          else Ret (updFifo ac p (fun f => { f with readPtr := if f.(readPtr) + 1 =? AC97_FIFO_DEPTH then 0 else f.(readPtr) + 1;
                                                      numItems := f.(numItems) - 1 })));
  ac ← socAC97PrvFifoDmaUpdate ac p;
  Ret (negb empty, if empty then 0 else fifo.(data).[fifo.(readPtr)], ac).

(** ** The guest's accesses *)

Definition ac97Write ac (pa val : Z) : SocAC97 W :=
  match pa with
  | 0 => socAC97prvIrqUpdate { ac with pocr := val .& 0x0e }
  | 1 => socAC97prvIrqUpdate { ac with picr := val .& 0x0a }
  | 2 => socAC97prvIrqUpdate { ac with mccr := val .& 0x0a }
  | 3 => socAC97prvIrqUpdate { ac with gcr := val .& 0x000c033f; gsr ::= fun s => (s .&~ 8) .| (val .& 8) }
  | 4 => socAC97prvIrqUpdate { ac with posr ::= fun s => s .&~ (val .& 0x10) }
  | 5 => socAC97prvIrqUpdate { ac with pisr ::= fun s => s .&~ (val .& 0x18) }
  | 6 => socAC97prvIrqUpdate { ac with mcsr ::= fun s => s .&~ (val .& 0x18) }
  | 7 => socAC97prvIrqUpdate { ac with gsr ::= fun s => s .&~ (val .& 0x000c8c01) }
  | 8 => { ac with car ::= fun c => c .& (0xfffffffe .| (val .& 1)) }
  | 64 => socAC97prvIrqUpdate { ac with mocr := val .& 0x0a }
  | 66 => socAC97prvIrqUpdate { ac with micr := val .& 0x0a }
  | 68 => socAC97prvIrqUpdate { ac with mosr ::= fun s => s .&~ (val .& 0x10) }
  | 70 => socAC97prvIrqUpdate { ac with misr ::= fun s => s .&~ (val .& 0x18) }
  | _ => ac
  end.

Definition ac97Read ac (pa : Z) : Z * SocAC97 W :=
  match pa with
  | 0 => (ac.(pocr), ac) | 1 => (ac.(picr), ac) | 2 => (ac.(mccr), ac) | 3 => (ac.(gcr), ac)
  | 4 => (ac.(posr), ac) | 5 => (ac.(pisr), ac) | 6 => (ac.(mcsr), ac) | 7 => (ac.(gsr), ac)
  | 8 => if nz ac.(car) then (1, ac) else (0, { ac with car := 1 })
  | 64 => (ac.(mocr), ac) | 66 => (ac.(micr), ac) | 68 => (ac.(mosr), ac) | 70 => (ac.(misr), ac)
  | _ => (0, ac)
  end.

(** The codec whose registers are at a word offset. *)
Definition codecAt (pa : Z) : option Ac97Codec :=
  if (0x080 <=? pa) && (pa <? 0x0c0) then Some Ac97PrimaryAudio
  else if (0x0c0 <=? pa) && (pa <? 0x100) then Some Ac97SecondaryAudio
  else if (0x100 <=? pa) && (pa <? 0x140) then Some Ac97PrimaryModem
  else if (0x140 <=? pa) && (pa <? 0x180) then Some Ac97SecondaryModem
  else None.

(** A write reaches the codec's register; a read fetches the register for the next
    read, and returns what the last one has fetched. *)
Definition codecAccess ac which (pa : Z) (wr : bool) (val : Z) : outcome (Z * SocAC97 W) :=
  let cd := socAC97prvCodecPtrGet ac which in
  let readVal := cd.(prevReadVal) in
  let addr := (pa .& 0x3f) * 2 in
  ac ← (if wr then
            match cd.(regW) with
            | Some f =>
                '(ok, w) ← f ac.(world) addr (u16 val);
                let ac := { ac with world := w } in
                Ret (if (ok : bool) then { ac with gsr ::= fun s => s .| 0x00080000 } else ac)
            | None => Ret ac
            end
          else
            match cd.(regR) with
            | Some f =>
                '(ok, v, w) ← f ac.(world) addr readVal;
                let ac := updCodec { ac with world := w } which (fun cd => { cd with prevReadVal := v }) in
                Ret (if (ok : bool) then { ac with gsr ::= fun s => s .| 0x00040000 } else ac)
            | None => Ret ac
            end);
  Ret (readVal, socAC97prvIrqUpdate { ac with car := 0 }).

(** The FIFO behind a word offset. A read of two bytes stores four. *)
Definition fifoPort (pa : Z) (wr : bool) : option FifoPtr :=
  match pa with
  | 16 => Some (Ac97PrimaryAudio, negb wr)
  | 24 => if wr then None else Some (Ac97SecondaryAudio, true)
  | 80 => Some (Ac97PrimaryModem, negb wr)
  | _ => None
  end.

Definition socAC97PrvMemAccessF ac (pa size : Z) (wr : bool) (b : Z) : outcome (access (SocAC97 W)) :=
  if negb (size =? 4) && negb (size =? 2) then Ret (false, b, ac) else
  let pa := u32 (pa - PXA_AC97_BASE) .>> 2 in
  let val := if size =? 2 then u16 b else u32 b in
  let ret v := if size =? 2 then u16 v else v in
  match fifoPort pa wr with
  | Some p =>
      if wr then '(ok, ac) ← socAC97PrvFifoAdd ac p val; Ret (ok, b, ac)
      else '(ok, v, ac) ← socAC97PrvFifoGet ac p; Ret (ok, v, ac)
  | None =>
      if (pa =? 24) && wr then Ret (false, b, ac) else
      match codecAt pa with
      | Some which =>
          '(v, ac) ← codecAccess ac which pa wr val;
          Ret (true, if wr then b else ret v, ac)
      | None =>
          if wr then Ret (true, b, ac97Write ac pa val)
          else let '(v, ac) := ac97Read ac pa in Ret (true, ret v, ac)
      end
  end.

Definition newFifo (chan : Z) (rx : bool) (r : option StatusReg) : AC97Fifo := mkAC97Fifo 0 0 chan rx (replicate 16 0) r.

Definition noFifo : AC97Fifo := newFifo 0 false None.

Definition socAC97Init (w : W) : SocAC97 W :=
  mkSocAC97 w 0 0 0 0 0 0 0 0 0 0 0 0 0x100
    (mkAc97CodecStruct None None 0 (newFifo DMA_CMR_AC97_AUDIO_TX false (Some Posr)) (newFifo DMA_CMR_AC97_AUDIO_RX true (Some Pisr)))
    (mkAc97CodecStruct None None 0 noFifo (newFifo DMA_CMR_AC97_MIC true (Some Mcsr)))
    (mkAc97CodecStruct None None 0 (newFifo DMA_CMR_AC97_MODEM_TX false (Some Mosr)) (newFifo DMA_CMR_AC97_MODEM_RX true (Some Misr)))
    (mkAc97CodecStruct None None 0 noFifo noFifo).

(** ** The codecs' side *)

Definition socAC97clientAdd ac which r wf : SocAC97 W :=
  updCodec ac which (fun cd => { cd with regR := Some r; regW := Some wf }).

Definition socAC97clientClientWantData ac which : outcome (bool * Z * SocAC97 W) :=
  '(_, v, ac) ← socAC97PrvFifoGet ac (which, false);
  Ret (true, v, ac).

Definition socAC97clientClientHaveData ac which (v : Z) : outcome (SocAC97 W) :=
  '(_, ac) ← socAC97PrvFifoAdd ac (which, true) v;
  Ret ac.
End Operations.

(** ** The FIFOs as queues *)

Definition fifoHeld (f : AC97Fifo) : list Z :=
  (fun k => f.(data).[(f.(readPtr) + Z.of_nat k) mod AC97_FIFO_DEPTH]) <$> seq 0 (Z.to_nat f.(numItems)).

Record fifo_wf (f : AC97Fifo) : Prop := {
  afw_data : length f.(data) = 16%nat;
  afw_readPtr : 0 <= f.(readPtr) < 16;
  afw_numItems : 0 <= f.(numItems) <= 16;
  afw_isr : is_Some f.(isr)
}.

Lemma fifoHeld_length f : 0 <= f.(numItems) -> Z.of_nat (length (fifoHeld f)) = f.(numItems).
Proof. intros. unfold fifoHeld. rewrite length_fmap, length_seq. lia. Qed.

(** Two places less than 16 apart. *)
Lemma ring_ne r i j : 0 <= i < 16 -> 0 <= j < 16 -> i <> j -> (r + i) mod 16 <> (r + j) mod 16.
Proof. intros Hi Hj Hne H. apply Hne. pose proof (Z.div_mod (r + i) 16). pose proof (Z.div_mod (r + j) 16). lia. Qed.

Lemma held_add f v :
  fifo_wf f -> f.(numItems) < 16 ->
  let f' := { f with data := f.(data).[(f.(readPtr) + f.(numItems)) mod AC97_FIFO_DEPTH <- v]; numItems := f.(numItems) + 1 } in
  fifo_wf f' /\ fifoHeld f' = fifoHeld f ++ [v].
Proof.
  destruct f as [r n c rx d i]. intros [Hd Hr Hn Hi] Hlt. cbn in *. split; [split; cbn; rewrite ?length_aset; try done; lia|].
  unfold fifoHeld, AC97_FIFO_DEPTH. cbn [readPtr numItems data].
  replace (Z.to_nat (n + 1)) with (Z.to_nat n + 1)%nat by lia. rewrite seq_app, fmap_app. cbn [seq fmap list_fmap Nat.add]. f_equal.
  - apply list_fmap_ext. intros k x [-> Hk]%lookup_seq. rewrite aget_aset_ne; [done|apply Z.mod_pos_bound; lia..|]. apply ring_ne; lia.
  - f_equal. rewrite Z2Nat.id by lia. apply aget_aset_eq. pose proof (Z.mod_pos_bound (r + n) 16 ltac:(lia)). lia.
Qed.

Lemma held_get f :
  fifo_wf f -> 0 < f.(numItems) ->
  let f' := { f with readPtr := if f.(readPtr) + 1 =? AC97_FIFO_DEPTH then 0 else f.(readPtr) + 1; numItems := f.(numItems) - 1 } in
  fifo_wf f' /\ fifoHeld f = f.(data).[f.(readPtr)] :: fifoHeld f'.
Proof.
  destruct f as [r n c rx d i]. intros [Hd Hr Hn Hi] Hlt. cbn in *. unfold AC97_FIFO_DEPTH.
  assert (Er : (if r + 1 =? 16 then 0 else r + 1) = (r + 1) mod 16).
  { destruct (Z.eqb_spec (r + 1) 16) as [->|]; [done|]. rewrite Z.mod_small; lia. }
  rewrite Er. split; [split; cbn; try done; pose proof (Z.mod_pos_bound (r + 1) 16); lia|].
  unfold fifoHeld, AC97_FIFO_DEPTH. cbn [readPtr numItems data]. replace (Z.to_nat n) with (S (Z.to_nat (n - 1))) by lia. cbn [seq fmap list_fmap].
  f_equal; [rewrite Z.add_0_r, Z.mod_small by lia; done|]. rewrite <- fmap_S_seq, <- list_fmap_compose. apply list_fmap_ext. intros k x _. cbn.
  rewrite Zplus_mod_idemp_l. do 2 f_equal. lia.
Qed.

Section Facts.
Context {W : Type} `{!IrqSink W} `{!DmaSink W}.
Implicit Types (ac : SocAC97 W) (which : Ac97Codec).

(** Every FIFO that has a status register is well-formed. *)
Definition ac97_wf ac : Prop :=
  forall p : FifoPtr, p ∈ [(Ac97PrimaryAudio, false); (Ac97PrimaryAudio, true); (Ac97SecondaryAudio, true); (Ac97PrimaryModem, false); (Ac97PrimaryModem, true)] ->
  fifo_wf (fifoAt ac p).

#[export] Instance Ac97Codec_eq_dec : EqDecision Ac97Codec.
Proof. solve_decision. Defined.

Lemma fifoAt_upd ac (p q : FifoPtr) f : fifoAt (updFifo ac p f) q = if decide (p = q) then f (fifoAt ac p) else fifoAt ac q.
Proof. destruct p as [[] []], q as [[] []], ac as [? ? ? ? ? ? ? ? ? ? ? ? ? ? [] [] [] []]; reflexivity. Qed.

Lemma fifoAt_isr ac r f q : fifoAt (updIsr ac r f) q = fifoAt ac q.
Proof. destruct r, q as [[] []]; reflexivity. Qed.

(** What the FIFO operations leave alone. *)
Definition codecsOf ac :=
  (fun which => let cd := socAC97prvCodecPtrGet ac which in (cd.(regR), cd.(regW), cd.(prevReadVal))) <$>
  [Ac97PrimaryAudio; Ac97SecondaryAudio; Ac97PrimaryModem; Ac97SecondaryModem].

Lemma codecsOf_upd ac p f : codecsOf (updFifo ac p f) = codecsOf ac.
Proof. destruct p as [[] []]; reflexivity. Qed.

Lemma codecsOf_isr ac r f : codecsOf (updIsr ac r f) = codecsOf ac.
Proof. by destruct r. Qed.

(** A FIFO operation changes the FIFO, its status register and the DMA request. *)
Definition rest_kept ac ac' (p : FifoPtr) : Prop :=
  (forall q, q <> p -> fifoAt ac' q = fifoAt ac q) /\ codecsOf ac' = codecsOf ac /\
  (ac'.(world) = ac.(world) \/ exists ch b, ac'.(world) = dma_external_req ac.(world) ch b).

Lemma deref_ok ac p f : is_Some (fifoAt ac p).(isr) ->
  exists ac', derefIsr ac p f = Ret ac' /\ (forall q, fifoAt ac' q = fifoAt ac q) /\ codecsOf ac' = codecsOf ac /\ ac'.(world) = ac.(world).
Proof.
  intros [r Hr]. unfold derefIsr. rewrite Hr. eexists. split; [done|]. split; [intros; apply fifoAt_isr|]. split; [apply codecsOf_isr|by destruct r].
Qed.

Lemma world_only ac f : (forall q, fifoAt { ac with world ::= f } q = fifoAt ac q) /\ codecsOf { ac with world ::= f } = codecsOf ac.
Proof. destruct ac. split; [|done]. by intros [[] []]. Qed.

Lemma dma_update_ok ac p : is_Some (fifoAt ac p).(isr) ->
  exists ac', socAC97PrvFifoDmaUpdate ac p = Ret ac' /\ (forall q, fifoAt ac' q = fifoAt ac q) /\ codecsOf ac' = codecsOf ac /\
    (ac'.(world) = ac.(world) \/ exists ch b, ac'.(world) = dma_external_req ac.(world) ch b).
Proof.
  intros Hr. unfold socAC97PrvFifoDmaUpdate. edestruct (deref_ok ac p) as (ac1 & -> & H1 & H2 & H3); [done|]. cbn [mbind outcome_bind].
  eexists. split; [done|]. destruct (nz _).
  - split; [intros q; by rewrite (proj1 (world_only _ _))|]. split; [by rewrite (proj2 (world_only _ _))|]. right. rewrite <- H3.
    exists (fifoAt ac p).(dmaChannelNum). eexists. by destruct ac1.
  - split; [done|]. split; [done|]. by left.
Qed.

Lemma ac97_add_spec ac p v :
  fifo_wf (fifoAt ac p) ->
  let full := (fifoAt ac p).(numItems) =? 16 in
  exists ac', socAC97PrvFifoAdd ac p v = Ret (negb full, ac') /\ rest_kept ac ac' p /\ fifo_wf (fifoAt ac' p) /\
    fifoHeld (fifoAt ac' p) = fifoHeld (fifoAt ac p) ++ (if full then [] else [v]).
Proof.
  intros Hwf full. unfold socAC97PrvFifoAdd. change AC97_FIFO_DEPTH with 16. fold full. destruct full eqn:Ef; subst full.
  - edestruct (deref_ok ac p) as (ac1 & -> & H1 & H2 & H3); [apply Hwf|]. cbn [mbind outcome_bind].
    destruct (dma_update_ok ac1 p) as (ac2 & -> & G1 & G2 & G3); [rewrite H1; apply Hwf|]. cbn [mbind outcome_bind].
    eexists. split; [done|]. rewrite app_nil_r. unfold rest_kept. rewrite G1, H1, G2, H2. rewrite <- H3. split; [|done]. split; [|done].
    intros q _. by rewrite G1, H1.
  - cbn [mbind outcome_bind]. apply Z.eqb_neq in Ef. pose proof (afw_numItems _ Hwf) as Hn.
    destruct (held_add _ v Hwf ltac:(lia)) as [W1 E1]. set (ac1 := updFifo ac p _).
    assert (E : fifoAt ac1 p = { fifoAt ac p with data := (fifoAt ac p).(data).[((fifoAt ac p).(readPtr) + (fifoAt ac p).(numItems)) mod AC97_FIFO_DEPTH <- v];
      numItems := (fifoAt ac p).(numItems) + 1 }) by (unfold ac1; rewrite fifoAt_upd; by rewrite decide_True).
    destruct (dma_update_ok ac1 p) as (ac2 & -> & G1 & G2 & G3); [rewrite E; apply Hwf|]. cbn [mbind outcome_bind].
    eexists. split; [done|]. rewrite G1, E. split; [|done]. split; [intros q Hq; rewrite G1; unfold ac1; rewrite fifoAt_upd; by rewrite decide_False|].
    rewrite G2. split; [apply codecsOf_upd|]. replace ac.(world) with ac1.(world); [done|]. by destruct p as [[] []].
Qed.

Lemma ac97_get_spec ac p :
  fifo_wf (fifoAt ac p) ->
  let empty := (fifoAt ac p).(numItems) =? 0 in
  exists ac', socAC97PrvFifoGet ac p = Ret (negb empty, default 0 (head (fifoHeld (fifoAt ac p))), ac') /\ rest_kept ac ac' p /\ fifo_wf (fifoAt ac' p) /\
    fifoHeld (fifoAt ac' p) = tail (fifoHeld (fifoAt ac p)).
Proof.
  intros Hwf empty. unfold socAC97PrvFifoGet. fold empty. destruct empty eqn:Ef; subst empty.
  - edestruct (deref_ok ac p) as (ac1 & -> & H1 & H2 & H3); [apply Hwf|]. cbn [mbind outcome_bind].
    destruct (dma_update_ok ac1 p) as (ac2 & -> & G1 & G2 & G3); [rewrite H1; apply Hwf|]. cbn [mbind outcome_bind].
    apply Z.eqb_eq in Ef. assert (Eh : fifoHeld (fifoAt ac p) = []) by (unfold fifoHeld; by rewrite Ef).
    eexists. rewrite Eh. split; [done|]. unfold rest_kept. rewrite G1, H1, G2, H2, Eh. rewrite <- H3. split; [|done]. split; [|done].
    intros q _. by rewrite G1, H1.
  - cbn [mbind outcome_bind]. apply Z.eqb_neq in Ef. pose proof (afw_numItems _ Hwf) as Hn.
    destruct (held_get _ Hwf ltac:(lia)) as [W1 E1]. set (ac1 := updFifo ac p _).
    assert (E : fifoAt ac1 p = { fifoAt ac p with readPtr := if (fifoAt ac p).(readPtr) + 1 =? AC97_FIFO_DEPTH then 0 else (fifoAt ac p).(readPtr) + 1;
      numItems := (fifoAt ac p).(numItems) - 1 }) by (unfold ac1; rewrite fifoAt_upd; by rewrite decide_True).
    destruct (dma_update_ok ac1 p) as (ac2 & -> & G1 & G2 & G3); [rewrite E; apply Hwf|]. cbn [mbind outcome_bind].
    eexists. rewrite E1. split; [done|]. rewrite G1, E. split; [|done]. split; [intros q Hq; rewrite G1; unfold ac1; rewrite fifoAt_upd; by rewrite decide_False|].
    rewrite G2. split; [apply codecsOf_upd|]. replace ac.(world) with ac1.(world); [done|]. by destruct p as [[] []].
Qed.

(** The microphone and the modem never interrupt: their control bits are compared
    with the shifted status bits, where they do not overlap. *)
Lemma mic_and_modem_never_interrupt c s : tst (c .& 0x0a .& (s .<< 1)) 0x14 = false.
Proof.
  unfold tst, nz. replace (c .& 0x0a .& (s .<< 1) .& 0x14) with 0; [done|]. apply Z.bits_inj'. intros n Hn.
  rewrite !Z.land_spec, Z.bits_0. assert (Z.testbit 0x0a n && Z.testbit 0x14 n = false) as E.
  { rewrite <- Z.land_spec. change (Z.land 0x0a 0x14) with 0. apply Z.bits_0. }
  destruct (Z.testbit c n), (Z.testbit 0x0a n), (Z.testbit (s .<< 1) n), (Z.testbit 0x14 n); cbn in *; congruence.
Qed.
End Facts.
