(* ===== verification/Wm9712L.v ===== *)
(** * The audio codec and touch screen (ac97dev_WM9712L.c)

    The codec sits behind the AC97 controller. At every tick it takes an audio sample
    from the controller's FIFO to the host's audio queue, and if the guest has
    asked for it, samples the pen and puts the coordinates into the modem's FIFO. *)

From S2P Require Import Prelude Interfaces Queue Ac97.

(** The registers of [enum WM9712REG] that can be accessed. *)
Inductive WM9712REG :=
  | RESET | OUT2VOL | HPVOL | MONOOUTVOL | PHONEVOL | MICVOL | LENEINVOL | SIDETONEVOL | OUT3VOL | DACVOL | RECSEL | RECGAIN
  | PDOWN1 | PDOWN2 | EXTDAUDIOID | EXTDAUDIOCTL | DACRATE | AUXDACRATE | ADCRATE
  | GPIOCFG | GPIOPOLTYP | GPIOSTICKY | GPIOWAKE | GPIOSTA | GPIOSHARE | ADDFUNC1 | VENDORTEST | ADDFUNC2
  | DIGI1 | DIGI2 | DIGI_RES | VID1 | VID2.

Definition whichReg (regAddr : Z) : option WM9712REG :=
  match regAddr with
  | 0x00 => Some RESET | 0x02 => Some OUT2VOL | 0x04 => Some HPVOL | 0x06 => Some MONOOUTVOL | 0x0a => Some PHONEVOL
  | 0x0e => Some MICVOL | 0x10 => Some LENEINVOL | 0x14 => Some SIDETONEVOL | 0x16 => Some OUT3VOL | 0x18 => Some DACVOL
  | 0x1a => Some RECSEL | 0x1c => Some RECGAIN | 0x24 => Some PDOWN1 | 0x26 => Some PDOWN2 | 0x28 => Some EXTDAUDIOID
  | 0x2a => Some EXTDAUDIOCTL | 0x2c => Some DACRATE | 0x2e => Some AUXDACRATE | 0x32 => Some ADCRATE
  | 0x4c => Some GPIOCFG | 0x4e => Some GPIOPOLTYP | 0x50 => Some GPIOSTICKY | 0x52 => Some GPIOWAKE | 0x54 => Some GPIOSTA
  | 0x56 => Some GPIOSHARE | 0x58 => Some ADDFUNC1 | 0x5a => Some VENDORTEST | 0x5c => Some ADDFUNC2
  | 0x76 => Some DIGI1 | 0x78 => Some DIGI2 | 0x7a => Some DIGI_RES | 0x7c => Some VID1 | 0x7e => Some VID2
  | _ => None
  end.

Inductive WM9712LsampleIdx :=
  | WM9712LsampleIdxNone | WM9712LsampleIdxX | WM9712LsampleIdxY | WM9712LsampleIdxPressure
  | WM9712LsampleIdxAux1 | WM9712LsampleIdxAux2 | WM9712LsampleIdxBmon | WM9712LsampleIdxAux3.

(** The number of the enumerator, and the enumerator of three bits. *)
Definition sampleNo (which : WM9712LsampleIdx) : Z :=
  match which with
  | WM9712LsampleIdxNone => 0 | WM9712LsampleIdxX => 1 | WM9712LsampleIdxY => 2 | WM9712LsampleIdxPressure => 3
  | WM9712LsampleIdxAux1 => 4 | WM9712LsampleIdxAux2 => 5 | WM9712LsampleIdxBmon => 6 | WM9712LsampleIdxAux3 => 7
  end.

Definition sampleOf (n : Z) : WM9712LsampleIdx :=
  match n with
  | 1 => WM9712LsampleIdxX | 2 => WM9712LsampleIdxY | 3 => WM9712LsampleIdxPressure
  | 4 => WM9712LsampleIdxAux1 | 5 => WM9712LsampleIdxAux2 | 6 => WM9712LsampleIdxBmon | 7 => WM9712LsampleIdxAux3
  | _ => WM9712LsampleIdxNone
  end.

Inductive WM9712LauxPin := WM9712LauxPinAux1 | WM9712LauxPinAux2 | WM9712LauxPinBmon | WM9712LauxPinAux4.

Definition auxNo (which : WM9712LauxPin) : Z :=
  match which with WM9712LauxPinAux1 => 0 | WM9712LauxPinAux2 => 1 | WM9712LauxPinBmon => 2 | WM9712LauxPinAux4 => 3 end.

Record WM9712L (V : Type) := mkWM9712L {
  board : V;                       (* gpio, and what is behind the controller *)
  penDownPin : Z;                  (* int8_t *)
  digiRegs : list Z;               (* uint16_t[3] *)
  addFunc1 : Z; vendorTest : Z; addFunc2 : Z; pdown1 : Z; pdown2 : Z; extdCtl : Z; recSel : Z;   (* uint16_t *)
  gpioCfg : Z; gpioPolTyp : Z; gpioSticky : Z; gpioWake : Z; gpioStatus : Z; gpioSharing : Z;    (* uint16_t *)
  dacRate : Z; auxDacRate : Z; adcRate : Z;                                                      (* uint16_t *)
  volOut2 : Z; volHP : Z; volMono : Z; volPhone : Z; volMic : Z; volOut3 : Z; volLineIn : Z; dacVol : Z; recGain : Z; volSidetone : Z;
  vAux : list Z;                   (* uint16_t[4] *)
  penX : Z; penY : Z; penZ : Z;    (* uint16_t *)
  penDown : bool;
  haveUnreadPenData : bool;
  numUnreadDatas : Z;              (* uint8_t; [cooIdx] is never used *)
  otherTwo : list Z;               (* uint16_t[2] *)
  audioQueue : option AudioQueue
}.
Arguments mkWM9712L {V}. Arguments board {V}. Arguments penDownPin {V}. Arguments digiRegs {V}. Arguments addFunc1 {V}. Arguments vendorTest {V}.
Arguments addFunc2 {V}. Arguments pdown1 {V}. Arguments pdown2 {V}. Arguments extdCtl {V}. Arguments recSel {V}. Arguments gpioCfg {V}.
Arguments gpioPolTyp {V}. Arguments gpioSticky {V}. Arguments gpioWake {V}. Arguments gpioStatus {V}. Arguments gpioSharing {V}.
Arguments dacRate {V}. Arguments auxDacRate {V}. Arguments adcRate {V}. Arguments volOut2 {V}. Arguments volHP {V}. Arguments volMono {V}.
Arguments volPhone {V}. Arguments volMic {V}. Arguments volOut3 {V}. Arguments volLineIn {V}. Arguments dacVol {V}. Arguments recGain {V}.
Arguments volSidetone {V}. Arguments vAux {V}. Arguments penX {V}. Arguments penY {V}. Arguments penZ {V}. Arguments penDown {V}.
Arguments haveUnreadPenData {V}. Arguments numUnreadDatas {V}. Arguments otherTwo {V}. Arguments audioQueue {V}.

(** What the AC97 controller sends reaches the board. *)
#[export, program] Instance wm_irq_sink {V} `{!IrqSink V} : IrqSink (WM9712L V) := {|
  irq_int wm n b := { wm with board ::= fun w => irq_int w n b };
  irq_pending wm n := irq_pending wm.(board) n
|}.
Next Obligation. intros V HV wm n b m Hn Hm. destruct wm. cbn. by apply irq_pending_int. Qed.

#[export, program] Instance wm_dma_sink {V} `{!IrqSink V} `{!DmaSink V} : DmaSink (WM9712L V) := {|
  dma_external_req wm ch b := { wm with board ::= fun w => dma_external_req w ch b }
|}.
Next Obligation. intros V HI HV wm ch b n. destruct wm. cbn. apply dma_external_req_irq. Qed.

Section Operations.
Context {V : Type} `{!IrqSink V} `{!DmaSink V} `{!GpioPort V}.
Implicit Types (wm : WM9712L V) (ac : SocAC97 (WM9712L V)).

Definition wm9712LprvGpioRecalc wm : outcome (WM9712L V) :=
  if 0 <=? wm.(penDownPin) then
    v ← gpio_set_state wm.(board) wm.(penDownPin) (if tst wm.(gpioSharing) 8 then false else wm.(penDown));
    Ret { wm with board := v }
  else Ret wm.

(** ** Registers *)

(** [val] is the value behind the pointer. *)
Definition wm9712LprvCodecRegR wm (regAddr val : Z) : outcome (bool * Z * WM9712L V) :=
  match whichReg regAddr with
  | None => Ret (false, val, wm)
  | Some DIGI_RES => Ret (true, (wm.(digiRegs).[2] .& 0x7fff) .| (if wm.(penDown) then 0x8000 else 0), { wm with haveUnreadPenData := false })
  | Some which =>
      Ret (true, match which with
        | RESET => 0x6174
        | OUT2VOL => wm.(volOut2) | HPVOL => wm.(volHP) | MONOOUTVOL => wm.(volMono) | PHONEVOL => wm.(volPhone)
        | MICVOL => wm.(volMic) | LENEINVOL => wm.(volLineIn) | SIDETONEVOL => wm.(volSidetone) | OUT3VOL => wm.(volOut3)
        | DACVOL => wm.(dacVol) | RECSEL => wm.(recSel) | RECGAIN => wm.(recGain) | PDOWN1 => wm.(pdown1) | PDOWN2 => wm.(pdown2)
        | EXTDAUDIOID => 0x0405 | EXTDAUDIOCTL => wm.(extdCtl) | DACRATE => wm.(dacRate) | AUXDACRATE => wm.(auxDacRate) | ADCRATE => wm.(adcRate)
        | GPIOCFG => wm.(gpioCfg) | GPIOPOLTYP => wm.(gpioPolTyp) | GPIOSTICKY => wm.(gpioSticky) | GPIOWAKE => wm.(gpioWake)
        | GPIOSTA => wm.(gpioStatus) | GPIOSHARE => wm.(gpioSharing) | ADDFUNC1 => wm.(addFunc1) | VENDORTEST => wm.(vendorTest)
        | ADDFUNC2 => wm.(addFunc2) | DIGI1 => wm.(digiRegs).[0] | DIGI2 => wm.(digiRegs).[1] | DIGI_RES => 0
        | VID1 => 0x574D | VID2 => 0x4C12
        end, wm)
  end.

(** The answer is [false] on every path, as in the source. *)
Definition wm9712LprvCodecRegW wm (regAddr val : Z) : outcome (bool * WM9712L V) :=
  wm ← match whichReg regAddr with
  | Some OUT2VOL => Ret { wm with volOut2 := val }
  | Some HPVOL => Ret { wm with volHP := val }
  | Some MONOOUTVOL => Ret { wm with volMono := val }
  | Some PHONEVOL => Ret { wm with volPhone := val }
  | Some MICVOL => Ret { wm with volMic := val }
  | Some LENEINVOL => Ret { wm with volLineIn := val }
  | Some SIDETONEVOL => Ret { wm with volSidetone := val }
  | Some OUT3VOL => Ret { wm with volOut3 := val }
  | Some DACVOL => Ret { wm with dacVol := val }
  | Some RECSEL => Ret { wm with recSel := val }
  | Some RECGAIN => Ret { wm with recGain := val }
  | Some PDOWN1 => Ret { wm with pdown1 := val }
  | Some PDOWN2 => Ret { wm with pdown2 := val }
  | Some EXTDAUDIOCTL => Ret { wm with extdCtl := val }
  | Some DACRATE => Ret { wm with dacRate := val }
  | Some AUXDACRATE => Ret { wm with auxDacRate := val }
  | Some ADCRATE => Ret { wm with adcRate := val }
  | Some GPIOCFG => wm9712LprvGpioRecalc { wm with gpioCfg := val }
  | Some GPIOPOLTYP => wm9712LprvGpioRecalc { wm with gpioPolTyp := val }
  | Some GPIOSTICKY => Ret { wm with gpioSticky := val }
  | Some GPIOWAKE => Ret { wm with gpioWake := val }
  | Some GPIOSTA => Ret { wm with gpioStatus := val }
  | Some GPIOSHARE => wm9712LprvGpioRecalc { wm with gpioSharing := val }
  | Some ADDFUNC1 => Ret { wm with addFunc1 := val }
  | Some VENDORTEST => Ret { wm with vendorTest := val }
  | Some ADDFUNC2 => Ret { wm with addFunc2 := val }
  | Some DIGI1 => Ret { wm with digiRegs ::= fun l => l.[0 <- val] }
  | Some DIGI2 => Ret { wm with digiRegs ::= fun l => l.[1 <- val] }
  | Some (RESET | EXTDAUDIOID | DIGI_RES | VID1 | VID2) | None => Ret wm
  end;
  Ret (false, wm).

Definition wm9712LprvUnusedRegR wm (_ val : Z) : outcome (bool * Z * WM9712L V) := Ret (false, val, wm).
Definition wm9712LprvUnusedRegW wm (_ _ : Z) : outcome (bool * WM9712L V) := Ret (false, wm).

Definition newWM9712L (v : V) (pin : Z) : WM9712L V := {|
  board := v; penDownPin := pin; digiRegs := [0; 0; 0];
  addFunc1 := 0x0008; vendorTest := 0; addFunc2 := 0; pdown1 := 0; pdown2 := 0; extdCtl := 0x0410; recSel := 0x3000;
  gpioCfg := 0xf83e; gpioPolTyp := 0xffff; gpioSticky := 0; gpioWake := 0; gpioStatus := 0; gpioSharing := 0xf83e;
  dacRate := 0xbb80; auxDacRate := 0xbb80; adcRate := 0xbb80;
  volOut2 := 0x8000; volHP := 0x8000; volMono := 0x8000; volPhone := 0xc008; volMic := 0x6808; volOut3 := 0x8000; volLineIn := 0xe808;
  dacVol := 0xe808; recGain := 0x8000; volSidetone := 0xad00;
  vAux := [0; 0; 0; 0]; penX := 0; penY := 0; penZ := 0; penDown := false;
  haveUnreadPenData := false; numUnreadDatas := 0; otherTwo := [0; 0]; audioQueue := None
|}.

(** The codec is put behind the controller. *)
Definition wm9712LInit (v : V) (pin : Z) : SocAC97 (WM9712L V) :=
  let ac := socAC97Init (newWM9712L v pin) in
  let ac := socAC97clientAdd ac Ac97PrimaryAudio wm9712LprvCodecRegR wm9712LprvCodecRegW in
  let ac := socAC97clientAdd ac Ac97SecondaryAudio wm9712LprvUnusedRegR wm9712LprvUnusedRegW in
  socAC97clientAdd ac Ac97PrimaryModem wm9712LprvUnusedRegR wm9712LprvUnusedRegW.

(** ** Samples *)

Definition wm9712LprvNewAudioPlaybackSample wm (samp : Z) : outcome (WM9712L V) :=
  match wm.(audioQueue) with
  | Some q => q ← audioQueuePush q samp; Ret { wm with audioQueue := Some q }
  | None => Ret wm
  end.

Definition wm9712LprvHaveAudioOutSample wm : option Z := Some 0.
Definition wm9712LprvHaveMicOutSample wm : option Z := Some 0.

Definition wm9712LprvGetSample wm (which : WM9712LsampleIdx) : Z :=
  let ret := match which with
    | WM9712LsampleIdxNone => 0
    | WM9712LsampleIdxX => wm.(penX)
    | WM9712LsampleIdxY => wm.(penY)
    | WM9712LsampleIdxPressure => wm.(penZ)
    | WM9712LsampleIdxAux1 => wm.(vAux).[auxNo WM9712LauxPinAux1]
    | WM9712LsampleIdxAux2 => wm.(vAux).[auxNo WM9712LauxPinAux2]
    | WM9712LsampleIdxBmon => wm.(vAux).[auxNo WM9712LauxPinBmon]
    | WM9712LsampleIdxAux3 => wm.(vAux).[auxNo WM9712LauxPinAux4]
    end in
  (ret .& 0x0fff) .| (sampleNo which .<< 12).

(** A value is due: one that was kept, or a new one if the guest polls, or samples
    continuously while the pen is down. *)
Definition nextPenData wm : option (Z * WM9712L V) :=
  let digi0 := wm.(digiRegs).[0] in
  if nz wm.(numUnreadDatas) then
    Some (wm.(otherTwo).[2 - wm.(numUnreadDatas)], { wm with numUnreadDatas ::= fun n => n - 1 })
  else if tst digi0 0x8000 || tst digi0 0x0400 && (wm.(penDown) || negb (tst wm.(digiRegs).[1] 0x0800)) then
    let addrIdx := sampleOf ((digi0 .>> 12) .& 7) in
    let wm := { wm with digiRegs ::= fun l => l.[0 <- digi0 .&~ 0x8000] } in
    if tst wm.(digiRegs).[0] 0x0800 then
      let x := wm9712LprvGetSample wm WM9712LsampleIdxX in
      let y := wm9712LprvGetSample wm WM9712LsampleIdxY in
      Some (x, match addrIdx with
               | WM9712LsampleIdxNone => { wm with otherTwo ::= fun l => l.[1 <- y]; numUnreadDatas := 1 }
               | _ => { wm with otherTwo ::= fun l => l.[0 <- y].[1 <- wm9712LprvGetSample wm addrIdx]; numUnreadDatas := 2 }
               end)
    else Some (wm9712LprvGetSample wm addrIdx, wm)
  else None.

Definition wm9712LprvHaveModemOutSample wm : option Z * WM9712L V :=
  let digi0 := wm.(digiRegs).[0] in
  if negb (tst digi0 0x08) && wm.(haveUnreadPenData) && tst wm.(digiRegs).[1] 0x0200 then (None, wm)
  else if tst digi0 0x08 && tst digi0 0x07 then (None, wm)
  else match nextPenData wm with
  | None => (None, wm)
  | Some (retVal, wm) =>
      if tst wm.(digiRegs).[0] 0x08 then (Some (retVal .| (if wm.(penDown) then 0x8000 else 0)), wm)
      else (None, { wm with digiRegs ::= fun l => l.[2 <- retVal] })
  end.

(** The sample goes to the FIFO if there is one. *)
Definition haveData ac which (samp : option Z) : outcome (SocAC97 (WM9712L V)) :=
  match samp with Some v => socAC97clientClientHaveData ac which v | None => Ret ac end.

Definition wm9712Lperiodic ac : outcome (SocAC97 (WM9712L V)) :=
  '(ok, val, ac) ← socAC97clientClientWantData ac Ac97PrimaryAudio;
  ac ← (if (ok : bool) then wm ← wm9712LprvNewAudioPlaybackSample ac.(world) val; Ret { ac with world := wm } else Ret ac);
  ac ← haveData ac Ac97PrimaryAudio (wm9712LprvHaveAudioOutSample ac.(world));
  ac ← haveData ac Ac97SecondaryAudio (wm9712LprvHaveMicOutSample ac.(world));
  let '(samp, wm) := wm9712LprvHaveModemOutSample ac.(world) in
  ac ← haveData { ac with world := wm } Ac97PrimaryModem samp;
  wm ← wm9712LprvGpioRecalc ac.(world);
  Ret { ac with world := wm }.

(** ** Stimuli *)

Definition wm9712LsetAuxVoltage wm (which : WM9712LauxPin) (mV : Z) : WM9712L V :=
  let mV := if 3300 <? mV then 0xfff else u32 (mV * 4095 + 3300 / 2) / 3300 in
  { wm with vAux ::= fun l => l.[auxNo which <- u16 mV] }.

(** Negative values mean that the pen is up. *)
Definition wm9712LsetPen wm (x y press : Z) : outcome (WM9712L V) :=
  wm9712LprvGpioRecalc
    (if (0 <=? x) && (0 <=? y) && (0 <=? press)
     then { wm with penX := x; penY := y; penZ := press; penDown := true }
     else { wm with penX := 0xfff; penY := 0xfff; penZ := 0; penDown := false }).

Definition wm9712LsetAudioQueue wm (q : AudioQueue) : WM9712L V := { wm with audioQueue := Some q }.
End Operations.

(** ** A tick *)

Section Facts.
Context {V : Type} `{!IrqSink V} `{!DmaSink V} `{!GpioPort V}.
Context (gpio_total : forall (v : V) pin b, exists v', gpio_set_state v pin b = Ret v').
Implicit Types (wm : WM9712L V) (ac : SocAC97 (WM9712L V)).

(** What the guest has sent and the codec has not yet fetched, what waits in the host's
    queue, and the samples of the pen that the guest has not yet read. *)
Definition pcm ac : list Z := fifoHeld (fifoAt ac (Ac97PrimaryAudio, false)).
Definition penSamples ac : list Z := fifoHeld (fifoAt ac (Ac97PrimaryModem, true)).

(** The codec but for the board and the audio queue. *)
Definition setOuter wm v aq : WM9712L V := { wm with board := v; audioQueue := aq }.

Definition same_codec wm wm' : Prop := exists v, wm' = setOuter wm v wm.(audioQueue).

Lemma same_codec_refl wm : same_codec wm wm.
Proof. exists wm.(board). by destruct wm. Qed.

Lemma same_codec_trans wm1 wm2 wm3 : same_codec wm1 wm2 -> same_codec wm2 wm3 -> same_codec wm1 wm3.
Proof. intros [v ->] [v' ->]. exists v'. by destruct wm1. Qed.

Lemma rest_kept_codec ac ac' p : rest_kept ac ac' p -> same_codec ac.(world) ac'.(world).
Proof.
  intros (_ & _ & [->|(ch & b & ->)]); [apply same_codec_refl|]. exists (dma_external_req ac.(world).(board) ch b). cbn. by destruct (world ac).
Qed.

Lemma rest_kept_wf ac ac' p : ac97_wf ac -> rest_kept ac ac' p -> fifo_wf (fifoAt ac' p) -> ac97_wf ac'.
Proof. intros Hwf (Hk & _) Hp q Hq. destruct (decide (q = p)) as [->|Hne]; [done|]. rewrite Hk by done. by apply Hwf. Qed.

(** Appending to a FIFO of 16. *)
Definition appended (l : list Z) (v : Z) : list Z := l ++ (if Z.of_nat (length l) =? 16 then [] else [v]).

Lemma haveData_spec ac which s :
  ac97_wf ac -> which <> Ac97SecondaryModem ->
  exists ac', haveData ac which s = Ret ac' /\ ac97_wf ac' /\ same_codec ac.(world) ac'.(world) /\ codecsOf ac' = codecsOf ac /\
    forall q, fifoHeld (fifoAt ac' q) =
      if decide (q = (which, true)) then match s with Some v => appended (fifoHeld (fifoAt ac q)) v | None => fifoHeld (fifoAt ac q) end
      else fifoHeld (fifoAt ac q).
Proof.
  intros Hwf Hw. destruct s as [v|]; cbn [haveData].
  - assert (Hp : fifo_wf (fifoAt ac (which, true))) by (apply Hwf; destruct which; [set_solver..|done]).
    unfold socAC97clientClientHaveData. destruct (ac97_add_spec ac (which, true) v Hp) as (ac' & -> & Hk & Hp' & Hh). cbn [mbind outcome_bind].
    exists ac'. split; [done|]. split; [by eapply rest_kept_wf|]. split; [by eapply rest_kept_codec|]. split; [apply Hk|]. intros q.
    destruct (decide (q = (which, true))) as [->|Hne].
    + rewrite Hh. unfold appended. rewrite fifoHeld_length by apply Hp. done.
    + f_equal. by apply Hk.
  - exists ac. split_and!; [done|done|apply same_codec_refl|done|]. intros q. by case_decide.
Qed.

Lemma wantData_spec ac :
  ac97_wf ac ->
  exists ac', socAC97clientClientWantData ac Ac97PrimaryAudio = Ret (true, default 0 (head (pcm ac)), ac') /\ ac97_wf ac' /\
    same_codec ac.(world) ac'.(world) /\ codecsOf ac' = codecsOf ac /\ pcm ac' = tail (pcm ac) /\
    forall q, q <> (Ac97PrimaryAudio, false) -> fifoAt ac' q = fifoAt ac q.
Proof.
  intros Hwf. assert (Hp : fifo_wf (fifoAt ac (Ac97PrimaryAudio, false))) by (apply Hwf; set_solver).
  unfold socAC97clientClientWantData. destruct (ac97_get_spec ac (Ac97PrimaryAudio, false) Hp) as (ac' & -> & Hk & Hp' & Hh). cbn [mbind outcome_bind].
  exists ac'. split; [done|]. split; [by eapply rest_kept_wf|]. split; [by eapply rest_kept_codec|]. split; [apply Hk|]. split; [done|apply Hk].
Qed.

Lemma recalc_total wm : exists wm', wm9712LprvGpioRecalc wm = Ret wm' /\ same_codec wm wm'.
Proof.
  unfold wm9712LprvGpioRecalc. destruct (0 <=? _); [|exists wm; split; [done|apply same_codec_refl]].
  edestruct (gpio_total wm.(board)) as [v ->]. cbn [mbind outcome_bind]. eexists. split; [done|]. exists v. by destruct wm.
Qed.

(** The state machine of the pen does not look at the board or at the queue. *)
Lemma getSample_outer wm v aq which : wm9712LprvGetSample (setOuter wm v aq) which = wm9712LprvGetSample wm which.
Proof. by destruct wm, which. Qed.

Lemma nextPenData_outer wm v aq :
  nextPenData (setOuter wm v aq) = (fun '(s, wm') => (s, setOuter wm' v aq)) <$> nextPenData wm.
Proof.
  destruct wm. unfold nextPenData. cbn [setOuter digiRegs numUnreadDatas otherTwo penDown]. destruct (nz _); [done|]. cbn.
  destruct (_ || _); [|done]. destruct (tst _ 0x800); [|done]. cbn. by destruct (sampleOf _).
Qed.

Lemma modemOut_outer wm v aq :
  wm9712LprvHaveModemOutSample (setOuter wm v aq) =
  ((wm9712LprvHaveModemOutSample wm).1, setOuter (wm9712LprvHaveModemOutSample wm).2 v aq).
Proof.
  assert (E : (setOuter wm v aq).(digiRegs) = wm.(digiRegs) /\ (setOuter wm v aq).(haveUnreadPenData) = wm.(haveUnreadPenData)) by (by destruct wm).
  destruct E as [E1 E2]. unfold wm9712LprvHaveModemOutSample. rewrite E1, E2, nextPenData_outer.
  destruct (negb _ && _ && _); [done|]. destruct (_ && _); [done|]. destruct (nextPenData wm) as [[s wm1]|]; [|done]. cbn [fmap option_fmap option_map].
  destruct wm1. cbn. by destruct (tst _ 8).
Qed.

Lemma nextPenData_queue wm : match nextPenData wm with Some (_, wm') => wm'.(audioQueue) = wm.(audioQueue) | None => True end.
Proof.
  destruct wm. unfold nextPenData. cbn. destruct (nz _); [done|]. destruct (_ || _); [|done]. cbn.
  destruct (tst _ 0x800); [|done]. by destruct (sampleOf _).
Qed.

Lemma modemOut_queue wm : (wm9712LprvHaveModemOutSample wm).2.(audioQueue) = wm.(audioQueue).
Proof.
  unfold wm9712LprvHaveModemOutSample. destruct (negb _ && _ && _); [done|]. destruct (_ && _); [done|].
  pose proof (nextPenData_queue wm) as H. destruct (nextPenData wm) as [[s wm1]|]; [|done]. destruct (tst _ 8); [done|]. rewrite <- H. by destruct wm1.
Qed.

Lemma world_set ac wm : (forall q, fifoAt { ac with world := wm } q = fifoAt ac q) /\ codecsOf { ac with world := wm } = codecsOf ac.
Proof. destruct ac. split; [|done]. by intros [[] []]. Qed.

Lemma world_wf ac wm : ac97_wf ac -> ac97_wf { ac with world := wm }.
Proof. intros Hwf q Hq. rewrite (proj1 (world_set _ _)). by apply Hwf. Qed.

(** A sample is played. *)
Definition pushed (aq : option AudioQueue) (samp : Z) : outcome (option AudioQueue) :=
  match aq with Some q => q ← audioQueuePush q samp; Ret (Some q) | None => Ret None end.

Lemma playback_pushed wm samp aq :
  pushed wm.(audioQueue) samp = Ret aq -> wm9712LprvNewAudioPlaybackSample wm samp = Ret { wm with audioQueue := aq }.
Proof.
  unfold pushed, wm9712LprvNewAudioPlaybackSample. destruct wm as [? ? ? ? ? ? ? ? ? ? ? ? ? ? ? ? ? ? ? ? ? ? ? ? ? ? ? ? ? ? ? ? ? ? ? ? ? [q|]]; cbn; [|by intros [= <-]].
  destruct (audioQueuePush q samp); cbn; try done. by intros [= <-].
Qed.

(** What a tick does, if the sample can be played. *)
Lemma tick_spec ac q' :
  ac97_wf ac -> pushed ac.(world).(audioQueue) (default 0 (head (pcm ac))) = Ret q' ->
  exists ac' v, wm9712Lperiodic ac = Ret ac' /\ ac97_wf ac' /\ codecsOf ac' = codecsOf ac /\ pcm ac' = tail (pcm ac) /\
    ac'.(world) = setOuter (wm9712LprvHaveModemOutSample ac.(world)).2 v q' /\
    penSamples ac' = match (wm9712LprvHaveModemOutSample ac.(world)).1 with Some s => appended (penSamples ac) s | None => penSamples ac end.
Proof.
  intros Hwf Hpush. unfold wm9712Lperiodic.
  destruct (wantData_spec ac Hwf) as (ac1 & -> & W1 & (v1 & S1) & C1 & P1 & F1). cbn [mbind outcome_bind].
  assert (Hq1 : ac1.(world).(audioQueue) = ac.(world).(audioQueue)) by (rewrite S1; by destruct (world ac)).
  rewrite (playback_pushed _ _ q') by (by rewrite Hq1). cbn [mbind outcome_bind].
  set (wm2 := { world ac1 with audioQueue := q' }). assert (S2 : wm2 = setOuter ac.(world) v1 q') by (unfold wm2; rewrite S1; by destruct (world ac)).
  clearbody wm2. set (ac2 := { ac1 with world := wm2 }). assert (W2 : ac97_wf ac2) by (by apply world_wf).
  assert (C2 : codecsOf ac2 = codecsOf ac) by (unfold ac2; by rewrite (proj2 (world_set _ _))).
  assert (F2 : forall p, fifoAt ac2 p = fifoAt ac1 p) by apply world_set. assert (E2 : ac2.(world) = wm2) by (by destruct ac1). clearbody ac2.
  destruct (haveData_spec ac2 Ac97PrimaryAudio (wm9712LprvHaveAudioOutSample ac2.(world)) W2) as (ac3 & -> & W3 & (v3 & S3) & C3 & F3); [done|]. cbn [mbind outcome_bind].
  destruct (haveData_spec ac3 Ac97SecondaryAudio (wm9712LprvHaveMicOutSample ac3.(world)) W3) as (ac4 & -> & W4 & (v4 & S4) & C4 & F4); [done|]. cbn [mbind outcome_bind].
  assert (S4' : ac4.(world) = setOuter ac.(world) v4 q') by (rewrite S4, S3, E2, S2; by destruct (world ac)).
  rewrite S4', modemOut_outer. pose proof (modemOut_queue ac.(world)) as Hmq. destruct (wm9712LprvHaveModemOutSample ac.(world)) as [s wm5]. cbn [fst snd] in *.
  set (ac5 := { ac4 with world := _ }). assert (W5 : ac97_wf ac5) by (by apply world_wf).
  assert (C5 : codecsOf ac5 = codecsOf ac4) by apply world_set. assert (F5 : forall p, fifoAt ac5 p = fifoAt ac4 p) by apply world_set.
  assert (E5 : ac5.(world) = setOuter wm5 v4 q') by (by destruct ac4). clearbody ac5.
  destruct (haveData_spec ac5 Ac97PrimaryModem s W5) as (ac6 & -> & W6 & (v6 & S6) & C6 & F6); [done|]. cbn [mbind outcome_bind].
  destruct (recalc_total ac6.(world)) as (wm7 & -> & (v7 & S7)). cbn [mbind outcome_bind].
  exists { ac6 with world := wm7 }, v7. split; [done|]. split; [by apply world_wf|]. unfold pcm, penSamples.
  rewrite (proj2 (world_set _ _)), !(proj1 (world_set _ _)), C6, C5, C4, C3, C2, !F6, !F5, !F4, !F3, !F2.
  split; [done|]. split; [exact P1|]. split.
  - destruct ac6. cbn in *. rewrite S7, S6, E5. by destruct wm5.
  - rewrite F1 by done. by destruct s.
Qed.
(** ** The way of the samples *)

(** The guest writes a sample to PCDR, the device ticks, the host fetches a chunk. *)
Inductive audio_event := Sample (v : Z) | AudioTick | Fetch (count : nat).

Definition audio_step '((ac, out) : SocAC97 (WM9712L V) * list Z) (e : audio_event) : outcome (SocAC97 (WM9712L V) * list Z) :=
  match e with
  | Sample v => '(_, _, ac) ← socAC97PrvMemAccessF ac (PXA_AC97_BASE + 0x40) 4 true v; Ret (ac, out)
  | AudioTick => ac ← wm9712Lperiodic ac; Ret (ac, out)
  | Fetch count =>
      match ac.(world).(audioQueue) with
      | Some q =>
          '(xs, q) ← audioQueuePopChunk q count;
          Ret ({ ac with world ::= fun wm => { wm with audioQueue := Some q } }, out ++ xs)
      | None => Ret (ac, out)
      end
  end.

(** The same on three lists: the FIFO, the host's queue, and what was fetched. *)
Definition audio_spec (capacity : nat) '((fifo, queue, out) : list Z * list Z * list Z) (e : audio_event) : list Z * list Z * list Z :=
  match e with
  | Sample v => (appended fifo v, queue, out)
  | AudioTick => (tail fifo, drop (length queue + 1 - capacity) (queue ++ [default 0 (head fifo)]), out)
  | Fetch count => (fifo, drop count queue, out ++ take count queue)
  end.

(** The implementation's state [s] is the specification's [a]. *)
Definition audio_refines (capacity : nat) (s : SocAC97 (WM9712L V) * list Z) (a : list Z * list Z * list Z) : Prop :=
  ac97_wf s.1 /\ exists q, s.1.(world).(audioQueue) = Some q /\ queue_ok q /\ Z.to_nat (capacityOf q) = capacity /\
    a = (pcm s.1, contents q, s.2).

Lemma pcm_write ac v :
  ac97_wf ac -> is_u 32 v ->
  exists ac' ok, socAC97PrvMemAccessF ac (PXA_AC97_BASE + 0x40) 4 true v = Ret (ok, v, ac') /\ ac97_wf ac' /\ same_codec ac.(world) ac'.(world) /\
    pcm ac' = appended (pcm ac) v.
Proof.
  intros Hwf Hv. assert (Hp : fifo_wf (fifoAt ac (Ac97PrimaryAudio, false))) by (apply Hwf; set_solver).
  unfold socAC97PrvMemAccessF. cbn [Z.eqb Pos.eqb negb andb]. change (u32 (PXA_AC97_BASE + 0x40 - PXA_AC97_BASE) .>> 2) with 16. cbn [fifoPort negb].
  rewrite wrap_small by done. destruct (ac97_add_spec ac (Ac97PrimaryAudio, false) v Hp) as (ac' & -> & Hk & Hp' & Hh). cbn [mbind outcome_bind].
  do 2 eexists. split; [done|]. split; [by eapply rest_kept_wf|]. split; [by eapply rest_kept_codec|].
  unfold pcm. rewrite Hh. unfold appended. by rewrite fifoHeld_length by apply Hp.
Qed.

Lemma audio_step_refines capacity s a e :
  audio_refines capacity s a -> (forall v, e = Sample v -> is_u 32 v) ->
  exists s', audio_step s e = Ret s' /\ audio_refines capacity s' (audio_spec capacity a e).
Proof.
  destruct s as [ac out]. intros (Hwf & q & Hq & Hok & Hc & ->) He. cbn [fst snd] in *. destruct e as [v| |count]; cbn [audio_step audio_spec].
  - destruct (pcm_write ac v Hwf (He v eq_refl)) as (ac' & ok & -> & W & (v' & S') & P). cbn [mbind outcome_bind]. eexists. split; [done|].
    split; [done|]. exists q. cbn [fst snd]. rewrite P, S'. split; [by destruct (world ac)|done].
  - destruct (queue_push_exact q (default 0 (head (pcm ac))) Hok) as (q' & Eq & Hok' & Ec & Eh).
    assert (HP : pushed ac.(world).(audioQueue) (default 0 (head (pcm ac))) = Ret (Some q')) by (rewrite Hq; cbn [pushed]; unfold audioQueuePush; by rewrite Eq).
    destruct (tick_spec ac (Some q') Hwf HP) as (ac' & v & -> & W & _ & P & S' & _). cbn [mbind outcome_bind]. eexists. split; [done|].
    split; [done|]. exists q'. cbn [fst snd]. rewrite S', P, Ec, Eh, Hc. split; [by destruct (snd _)|done].
  - rewrite Hq. destruct (popChunk_exact q count Hok) as (q' & -> & Hok' & Ec & Eh). cbn [mbind outcome_bind]. eexists. split; [done|].
    assert (E : { ac with world ::= fun wm => { wm with audioQueue := Some q' } } = { ac with world := { world ac with audioQueue := Some q' } }) by (by destruct ac).
    rewrite E. split; cbn [fst snd]; [by apply world_wf|]. exists q'. unfold pcm. rewrite (proj1 (world_set _ _)), Ec, Eh. split; [|done].
    destruct ac. cbn. by destruct world.
Qed.

(** C15. The guest's samples reach the host in order: whatever the order in which the
    guest writes samples, the codec ticks and the host fetches chunks, the
    controller's ring buffer, the codec and the host's ring buffer together behave
    as two queues. A tick moves the oldest sample, or silence if there is none; a
    sample for which the FIFO of 16 has no room is refused, and the host's queue
    forgets its oldest samples. No step fails; setting the codec's GPIO pin is
    taken not to fail. *)
Theorem audio_reaches_host capacity ac q es :
  ac97_wf ac -> ac.(world).(audioQueue) = Some q -> queue_ok q -> Z.to_nat (capacityOf q) = capacity ->
  Forall (fun e => forall v, e = Sample v -> is_u 32 v) es ->
  exists ac' q' out, forM es audio_step (ac, []) = Ret (ac', out) /\ ac97_wf ac' /\ ac'.(world).(audioQueue) = Some q' /\
    fold_left (audio_spec capacity) es (pcm ac, contents q, []) = (pcm ac', contents q', out).
Proof.
  intros Hwf Hq Hok Hc Hes. assert (H : audio_refines capacity (ac, []) (pcm ac, contents q, [])) by (split; [done|]; by exists q).
  revert H. generalize (ac, [] : list Z) (pcm ac, contents q, [] : list Z). clear Hwf Hq Hok Hc. induction Hes as [|e es He _ IH]; intros s a H; cbn [forM fold_left].
  - destruct H as (Hwf & q' & Hq & Hok & Hc & ->), s as [ac' out]. by exists ac', q', out.
  - destruct (audio_step_refines capacity s a e H He) as (s' & -> & H'). cbn [mbind outcome_bind]. by apply IH.
Qed.

(** ** The way of the pen *)

(** The codec's registers are those of the first codec. *)
Definition wired ac : Prop :=
  ac.(primaryAudio).(regR) = Some wm9712LprvCodecRegR /\ ac.(primaryAudio).(regW) = Some wm9712LprvCodecRegW.

Lemma wired_codecs ac ac' : codecsOf ac' = codecsOf ac -> wired ac -> wired ac'.
Proof. unfold codecsOf, wired. cbn [fmap list_fmap socAC97prvCodecPtrGet]. intros [= E1 E2 _ _ _ _ _ _ _ _ _ _] [H1 H2]. by rewrite E1, E2. Qed.

(** A word written to a register of the codec. *)
Definition codec_write ac (regAddr v : Z) : outcome (SocAC97 (WM9712L V)) :=
  '(_, _, ac) ← socAC97PrvMemAccessF ac (PXA_AC97_BASE + 0x200 + 2 * regAddr) 4 true v; Ret ac.

Fixpoint ticks (n : nat) ac : outcome (SocAC97 (WM9712L V)) :=
  match n with O => Ret ac | S n => ac ← wm9712Lperiodic ac; ticks n ac end.

(** Words read from the modem's FIFO. *)
Fixpoint modem_reads (n : nat) ac : outcome (list Z) :=
  match n with
  | O => Ret []
  | S n => '(_, v, ac) ← socAC97PrvMemAccessF ac (PXA_AC97_BASE + 0x140) 4 false 0; vs ← modem_reads n ac; Ret (v :: vs)
  end.

Lemma irqUpdate_codec ac : same_codec ac.(world) (socAC97prvIrqUpdate ac).(world).
Proof.
  unfold socAC97prvIrqUpdate. set (irq := _ || _). exists (irq_int ac.(world).(board) PXA_I_AC97 irq). clearbody irq.
  destruct ac as [w]. by destruct w.
Qed.

Lemma digi1_write ac v :
  ac97_wf ac -> wired ac -> is_u 16 v ->
  exists ac', codec_write ac 0x76 v = Ret ac' /\ ac97_wf ac' /\ penSamples ac' = penSamples ac /\ pcm ac' = pcm ac /\
    same_codec { ac.(world) with digiRegs ::= fun l => l.[0 <- v] } ac'.(world).
Proof.
  intros Hwf [_ Hw] Hv. unfold codec_write, socAC97PrvMemAccessF. cbn [Z.eqb Pos.eqb negb andb].
  change (u32 (PXA_AC97_BASE + 0x200 + 2 * 0x76 - PXA_AC97_BASE) .>> 2) with 0xbb. cbn [fifoPort codecAt Z.leb Z.ltb Z.compare Pos.compare Pos.compare_cont andb Z.eqb Pos.eqb].
  unfold codecAccess. cbn [socAC97prvCodecPtrGet]. rewrite Hw. change ((0xbb .& 0x3f) * 2) with 0x76.
  rewrite (wrap_small 32), wrap_small by (unfold is_u in *; lia). cbn [mbind outcome_bind].
  unfold wm9712LprvCodecRegW. cbn [whichReg mbind outcome_bind]. eexists. split; [done|].
  split; [intros q Hq; specialize (Hwf q Hq); by destruct ac, q as [[] []]|]. split; [by destruct ac|]. split; [by destruct ac|].
  eapply same_codec_trans; [|apply irqUpdate_codec]. destruct ac. apply same_codec_refl.
Qed.

Lemma modem_read ac v vs :
  ac97_wf ac -> penSamples ac = v :: vs ->
  exists ac', socAC97PrvMemAccessF ac (PXA_AC97_BASE + 0x140) 4 false 0 = Ret (true, v, ac') /\ ac97_wf ac' /\ penSamples ac' = vs.
Proof.
  intros Hwf Hs. assert (Hp : fifo_wf (fifoAt ac (Ac97PrimaryModem, true))) by (apply Hwf; set_solver).
  unfold socAC97PrvMemAccessF. cbn [Z.eqb Pos.eqb negb andb]. change (u32 (PXA_AC97_BASE + 0x140 - PXA_AC97_BASE) .>> 2) with 80. cbn [fifoPort negb].
  destruct (ac97_get_spec ac (Ac97PrimaryModem, true) Hp) as (ac' & -> & Hk & Hp' & Hh). cbn [mbind outcome_bind].
  unfold penSamples in *. pose proof (fifoHeld_length (fifoAt ac (Ac97PrimaryModem, true)) ltac:(apply Hp)) as HL. rewrite Hs in *. cbn [length] in HL.
  rewrite (proj2 (Z.eqb_neq _ 0)) by lia. eexists. split; [done|]. split; [by eapply rest_kept_wf|done].
Qed.

Lemma modem_reads_spec vs : forall ac, ac97_wf ac -> penSamples ac = vs -> modem_reads (length vs) ac = Ret vs.
Proof.
  induction vs as [|v vs IH]; intros ac Hwf Hs; cbn [modem_reads length]; [done|].
  destruct (modem_read ac v vs Hwf Hs) as (ac' & -> & W & E). cbn [mbind outcome_bind]. by rewrite (IH ac' W E).
Qed.

(** The host's queue, if any, is one. *)
Definition queue_usable wm : Prop := match wm.(audioQueue) with Some q => queue_ok q | None => True end.

Lemma pushed_ok aq v : match aq with Some q => queue_ok q | None => True end ->
  exists aq', pushed aq v = Ret aq' /\ match aq' with Some q => queue_ok q | None => True end.
Proof.
  destruct aq as [q|]; cbn [pushed]; [|by exists None]. intros Hq. destruct (queue_push_exact q v Hq) as (q' & E & H & _).
  unfold audioQueuePush. rewrite E. by exists (Some q').
Qed.

(** A tick of which only the pen matters. *)
Lemma tick_pen ac :
  ac97_wf ac -> queue_usable ac.(world) ->
  exists ac' v aq, wm9712Lperiodic ac = Ret ac' /\ ac97_wf ac' /\ queue_usable ac'.(world) /\
    ac'.(world) = setOuter (wm9712LprvHaveModemOutSample ac.(world)).2 v aq /\
    penSamples ac' = match (wm9712LprvHaveModemOutSample ac.(world)).1 with Some s => appended (penSamples ac) s | None => penSamples ac end.
Proof.
  intros Hwf Hq. destruct (pushed_ok ac.(world).(audioQueue) (default 0 (head (pcm ac))) Hq) as (aq & HP & Haq).
  destruct (tick_spec ac aq Hwf HP) as (ac' & v & E & W & _ & _ & S' & P). exists ac', v, aq. split_and!; try done.
  unfold queue_usable. rewrite S'. by destruct (snd _).
Qed.

(** A coordinate as the guest gets it: the number of the source and, in bit 15, the pen
    that is down. *)
Definition pen_word (which : WM9712LsampleIdx) (v : Z) : Z := 0x8000 + 0x1000 * sampleNo which + v.

Lemma pen_word_exact which v : is_u 12 v -> ((v .& 0x0fff) .| (sampleNo which .<< 12)) .| 0x8000 = pen_word which v.
Proof.
  intros Hv. unfold pen_word. change 0x0fff with (Z.ones 12). rewrite Z.land_ones, Z.mod_small, Z.shiftl_mul_pow2, (Z.lor_comm v) by (unfold is_u in *; lia).
  rewrite lor_mul_pow2 by (done || lia). rewrite Z.lor_comm. change 0x8000 with (1 * 2 ^ 15) at 1. rewrite lor_mul_pow2; [lia|lia|].
  unfold is_u in *. destruct which; cbn [sampleNo]; lia.
Qed.

(** Nothing is due in slot mode without a poll. *)
Lemma quiet wm d : wm.(digiRegs) = d -> wm.(numUnreadDatas) = 0 -> tst d.[0] 0x8000 = false -> tst d.[0] 0x0400 = false ->
  tst d.[0] 0x08 = true -> tst d.[0] 0x07 = false -> wm9712LprvHaveModemOutSample wm = (None, wm).
Proof.
  intros Hd Hn H1 H2 H3 H4. unfold wm9712LprvHaveModemOutSample, nextPenData. rewrite Hd, Hn, H1, H2, H3, H4. done.
Qed.

Lemma quiet_ticks n : forall ac d, ac97_wf ac -> queue_usable ac.(world) ->
  ac.(world).(digiRegs) = d -> ac.(world).(numUnreadDatas) = 0 -> tst d.[0] 0x8000 = false -> tst d.[0] 0x0400 = false ->
  tst d.[0] 0x08 = true -> tst d.[0] 0x07 = false ->
  exists ac', ticks n ac = Ret ac' /\ ac97_wf ac' /\ penSamples ac' = penSamples ac.
Proof.
  induction n as [|n IH]; intros ac d Hwf Hq Hd Hn H1 H2 H3 H4; cbn [ticks]; [by exists ac|].
  destruct (tick_pen ac Hwf Hq) as (ac1 & v & aq & -> & W & Q & S1 & P). rewrite (quiet _ d) in S1, P by done. cbn [mbind outcome_bind fst snd] in *.
  destruct (IH ac1 d W Q) as (ac' & -> & W' & P'); [rewrite S1; by destruct (world ac)..|done|done|done|done|].
  exists ac'. split_and!; [done|done|]. by rewrite P'.
Qed.

Lemma ticks_add n m ac : ticks (n + m) ac = (ac ← ticks n ac; ticks m ac).
Proof. revert ac. induction n as [|n IH]; intros ac; [done|]. cbn [ticks Nat.add]. destruct (wm9712Lperiodic ac); cbn [mbind outcome_bind]; [apply IH|done..]. Qed.

(** The samples of a poll: X at once, the others kept for the next ticks. *)
Lemma poll_first wm d1 d2 o0 o1 :
  wm.(digiRegs) = [0xB808; d1; d2] -> wm.(otherTwo) = [o0; o1] -> wm.(numUnreadDatas) = 0 ->
  wm9712LprvHaveModemOutSample wm =
    (Some (wm9712LprvGetSample wm WM9712LsampleIdxX .| (if wm.(penDown) then 0x8000 else 0)),
     { wm with digiRegs := [0x3808; d1; d2]; numUnreadDatas := 2;
               otherTwo := [wm9712LprvGetSample wm WM9712LsampleIdxY; wm9712LprvGetSample wm WM9712LsampleIdxPressure] }).
Proof. destruct wm. cbn. intros -> -> ->. reflexivity. Qed.

Lemma poll_next wm d1 d2 k :
  wm.(digiRegs) = [0x3808; d1; d2] -> wm.(numUnreadDatas) = k -> k <> 0 ->
  wm9712LprvHaveModemOutSample wm =
    (Some (wm.(otherTwo).[2 - k] .| (if wm.(penDown) then 0x8000 else 0)), { wm with numUnreadDatas := k - 1 }).
Proof.
  destruct wm. cbn. intros -> -> Hk. unfold wm9712LprvHaveModemOutSample, nextPenData. cbn. unfold nz. rewrite (proj2 (Z.eqb_neq k 0)) by done. reflexivity.
Qed.

(** The three samples of a poll. *)
Lemma polled_samples ac :
  ac97_wf ac -> queue_usable ac.(world) -> penSamples ac = [] -> length ac.(world).(otherTwo) = 2%nat -> ac.(world).(digiRegs).[0] = 0xB808 ->
  length ac.(world).(digiRegs) = 3%nat -> ac.(world).(numUnreadDatas) = 0 -> ac.(world).(penDown) = true ->
  is_u 12 ac.(world).(penX) -> is_u 12 ac.(world).(penY) -> is_u 12 ac.(world).(penZ) ->
  exists ac', ticks 3 ac = Ret ac' /\ ac97_wf ac' /\ queue_usable ac'.(world) /\ ac'.(world).(digiRegs).[0] = 0x3808 /\ ac'.(world).(numUnreadDatas) = 0 /\
    penSamples ac' = [pen_word WM9712LsampleIdxX ac.(world).(penX); pen_word WM9712LsampleIdxY ac.(world).(penY);
                      pen_word WM9712LsampleIdxPressure ac.(world).(penZ)].
Proof.
  intros Hwf Hq Hs Ho Hd0 Hd Hn Hp Hx Hy Hz.
  revert Ho Hd0 Hd. destruct ac.(world).(otherTwo) as [|o0 [|o1 [|]]] eqn:Eo; intros Ho Hd0 Hd; cbn [length] in Ho; try lia.
  revert Hd0 Hd. destruct ac.(world).(digiRegs) as [|d0 [|d1 [|d2 [|]]]] eqn:Ed; intros Hd0 Hd; cbn [length] in Hd; try lia. change (d0 = 0xB808) in Hd0. subst d0.
  rewrite <- (pen_word_exact WM9712LsampleIdxX), <- (pen_word_exact WM9712LsampleIdxY), <- (pen_word_exact WM9712LsampleIdxPressure) by done.
  cbn [ticks]. destruct (tick_pen ac Hwf Hq) as (ac1 & v1 & q1 & -> & W1 & Q1 & S1 & P1). cbn [mbind outcome_bind].
  destruct (tick_pen ac1 W1 Q1) as (ac2 & v2 & q2 & -> & W2 & Q2 & S2 & P2). cbn [mbind outcome_bind].
  destruct (tick_pen ac2 W2 Q2) as (ac3 & v3 & q3 & -> & W3 & Q3 & S3 & P3). cbn [mbind outcome_bind].
  exists ac3. split; [done|]. split; [done|]. split; [done|].
  rewrite (poll_first _ d1 d2 o0 o1) in S1, P1 by done. cbn [fst snd] in S1, P1.
  rewrite (poll_next _ d1 d2 2) in S2, P2 by (rewrite ?S1; by destruct (world ac)). cbn [fst snd] in S2, P2.
  rewrite (poll_next _ d1 d2 1) in S3, P3 by (rewrite ?S2, ?S1; by destruct (world ac)). cbn [fst snd] in S3, P3.
  rewrite P3, P2, P1, S3, S2, S1, Hs. destruct (world ac). cbn in Hp. subst. done.
Qed.

(** C16. A touch of the screen reaches the guest: the guest polls (DIGI1 with the poll bit,
    X and Y together with the pressure, in slot mode), and after three ticks or more
    it reads, in this order and nothing more, the coordinates and the pressure that
    the pen had, each marked with its source and with the pen being down. *)
Theorem touch_reaches_guest ac x y z n :
  ac97_wf ac -> wired ac -> queue_usable ac.(world) -> penSamples ac = [] -> length ac.(world).(otherTwo) = 2%nat ->
  length ac.(world).(digiRegs) = 3%nat -> ac.(world).(numUnreadDatas) = 0 -> is_u 12 x -> is_u 12 y -> is_u 12 z ->
  exists wm ac1 ac2, wm9712LsetPen ac.(world) x y z = Ret wm /\ codec_write { ac with world := wm } 0x76 0xB808 = Ret ac1 /\
    ticks (3 + n) ac1 = Ret ac2 /\ length (penSamples ac2) = 3%nat /\
    modem_reads 3 ac2 = Ret [pen_word WM9712LsampleIdxX x; pen_word WM9712LsampleIdxY y; pen_word WM9712LsampleIdxPressure z].
Proof.
  intros Hwf Hw Hq Hs Ho Hd Hn Hx Hy Hz. unfold wm9712LsetPen.
  replace ((0 <=? x) && (0 <=? y) && (0 <=? z)) with true by (unfold is_u in *; symmetry; rewrite !andb_true_iff, !Z.leb_le; lia).
  edestruct recalc_total as (wm & -> & (v & Swm)). set (ac0 := { ac with world := wm }).
  assert (F0 : forall p, fifoAt ac0 p = fifoAt ac p) by apply world_set. assert (C0 : codecsOf ac0 = codecsOf ac) by apply world_set.
  assert (W0 : ac97_wf ac0) by (by apply world_wf). assert (E0 : ac0.(world) = wm) by (by destruct ac).
  destruct (digi1_write ac0 0xB808 W0 (wired_codecs _ _ C0 Hw)) as (ac1 & E1 & W1 & P1 & _ & (v1 & S1)); [is_u_lit|].
  exists wm, ac1. rewrite E0, Swm in S1.
  assert (HF : queue_usable ac1.(world) /\ length ac1.(world).(otherTwo) = 2%nat /\ ac1.(world).(digiRegs).[0] = 0xB808 /\
    length ac1.(world).(digiRegs) = 3%nat /\ ac1.(world).(numUnreadDatas) = 0 /\ ac1.(world).(penDown) = true /\
    ac1.(world).(penX) = x /\ ac1.(world).(penY) = y /\ ac1.(world).(penZ) = z).
  { unfold queue_usable in *. rewrite S1. destruct (world ac). cbn in *. rewrite length_aset. split_and!; try done. apply aget_aset_eq. lia. }
  destruct HF as (Q1 & O1 & D1 & L1 & N1 & P & X1 & Y1 & Z1). unfold penSamples in P1. rewrite F0 in P1. fold (penSamples ac) (penSamples ac1) in P1.
  destruct (polled_samples ac1 W1 Q1) as (ac2 & E2 & W2 & Q2 & D2 & N2 & P2); try congruence.
  destruct (quiet_ticks n ac2 ac2.(world).(digiRegs) W2 Q2 eq_refl N2) as (ac3 & E3 & W3 & P3); [by rewrite D2..|].
  exists ac3. split; [done|]. split; [done|]. rewrite ticks_add, E2. cbn [mbind outcome_bind]. split; [done|].
  rewrite P2, X1, Y1, Z1 in P3. split; [by rewrite P3|]. apply (modem_reads_spec _ ac3 W3 P3).
Qed.
End Facts.

(** ** A codec on a board *)

(** The board: the interrupt lines and the level of the pen's pin. *)
Record Board := mkBoard { irqLines : lines; penPin : option bool }.

#[export, program] Instance board_irq : IrqSink Board := {|
  irq_int b n l := mkBoard (irq_int b.(irqLines) n l) b.(penPin);
  irq_pending b n := irq_pending b.(irqLines) n
|}.
Next Obligation. done. Qed.

#[export, program] Instance board_dma : DmaSink Board := {| dma_external_req b _ _ := b |}.
Next Obligation. done. Qed.

#[export] Instance board_gpio : GpioPort Board := {| gpio_set_state b _ l := Ret (mkBoard b.(irqLines) (Some l)) |}.

Definition small_codec : SocAC97 (WM9712L Board) := wm9712LInit (mkBoard idle None) 1.

Definition small_player : SocAC97 (WM9712L Board) :=
  { small_codec with world ::= fun wm => wm9712LsetAudioQueue wm (audioQueueCreate 4) }.

Lemma board_gpio_total (v : Board) pin b : exists v', gpio_set_state v pin b = Ret v'.
Proof. by eexists. Qed.

Lemma small_wf (ac : SocAC97 (WM9712L Board)) : (forall q, fifoAt ac q = fifoAt small_codec q) -> ac97_wf ac.
Proof. intros H q Hq. rewrite H. repeat (apply elem_of_cons in Hq as [->|Hq]; [split; cbn; done || lia|]). by apply elem_of_nil in Hq. Qed.

Lemma audio_reaches_host_witness :
  exists ac' out, forM [Sample 11; Sample 12; AudioTick; Fetch 1; AudioTick; AudioTick; Fetch 4] audio_step (small_player, []) = Ret (ac', out) /\
    out = [11; 12; 0].
Proof.
  destruct (audio_reaches_host board_gpio_total 4 small_player (audioQueueCreate 4) [Sample 11; Sample 12; AudioTick; Fetch 1; AudioTick; AudioTick; Fetch 4])
    as (ac' & q' & out & E & _ & _ & H).
  - apply small_wf. by intros [[] []].
  - reflexivity.
  - split; vm_compute; split; discriminate || reflexivity.
  - reflexivity.
  - repeat (apply Forall_cons; split; [intros v; (discriminate || intros [= <-]; is_u_lit)|]). apply Forall_nil. done.
  - exists ac', out. split; [exact E|]. by injection H.
Defined.

Lemma touch_reaches_guest_witness :
  exists wm ac1 ac2, wm9712LsetPen small_codec.(world) 100 200 50 = Ret wm /\ codec_write { small_codec with world := wm } 0x76 0xB808 = Ret ac1 /\
    ticks 5 ac1 = Ret ac2 /\ modem_reads 3 ac2 = Ret [0x9064; 0xA0C8; 0xB032].
Proof.
  destruct (touch_reaches_guest board_gpio_total small_codec 100 200 50 2) as (wm & ac1 & ac2 & E1 & E2 & E3 & _ & E4);
    [by apply small_wf|done|exact I|reflexivity|reflexivity|reflexivity|reflexivity|is_u_lit|is_u_lit|is_u_lit|].
  exists wm, ac1, ac2. split; [exact E1|]. split; [exact E2|]. split; [exact E3|]. exact E4.
Defined.

(** A write of a codec register is never reported as done (bit 19 of GSR), although the
    controller waits for the codec's answer. *)
Lemma write_never_done {V} `{!IrqSink V} `{!GpioPort V} (wm : WM9712L V) regAddr val ok wm' :
  wm9712LprvCodecRegW wm regAddr val = Ret (ok, wm') -> ok = false.
Proof.
  unfold wm9712LprvCodecRegW. intros H. match type of H with (x ← ?m; _) = _ => destruct m as [wm1| | |]; cbn in H; try done end. congruence.
Qed.

(** A tick that empties the transmit FIFO sets the status of its interrupt, but raises
    no interrupt, although the guest has enabled it: only accesses of the guest to
    the controller's registers update the line. *)
Definition underrun_enabled : outcome (SocAC97 (WM9712L Board)) :=
  '(_, _, ac) ← socAC97PrvMemAccessF small_codec PXA_AC97_BASE 4 true 0x08; wm9712Lperiodic ac.

Lemma underrun_raises_nothing :
  match underrun_enabled with
  | Ret ac => tst ac.(posr) 0x10 = true /\ tst ac.(pocr) 0x08 = true /\ irq_pending ac.(world) PXA_I_AC97 = false /\
      match socAC97PrvMemAccessF ac PXA_AC97_BASE 4 true 0x08 with Ret (_, _, ac) => irq_pending ac.(world) PXA_I_AC97 = true | _ => False end
  | _ => False
  end.
Proof. vm_compute. done. Qed.
