(* ===== verification/Kpc.v ===== *)
(** * The keypad controller (pxa270_KPC.c)

    Keys of a matrix of up to eight rows and columns, eight direct keys and two jog
    dials. On demand, or whenever a key changes, the controller scans the
    matrix and reports what it finds in its registers. *)

From S2P Require Import Prelude Interfaces.

Definition PXA270_KPC_BASE := 0x41500000.

Record PxaKpc (W : Type) := mkPxaKpc {
  world : W;                    (* ic *)
  kpc : Z; kpmk : Z; kpas : Z;
  kpasmkp : list Z;             (* uint32_t[4] *)
  kpkdi : Z;                    (* uint16_t *)
  kpdkChanged : bool;
  prevKeys : Z;                 (* uint64_t *)
  matrixKeys : list Z;          (* uint8_t[8], by column; a bit for a row *)
  directKeys : Z;               (* uint8_t *)
  numMatrixKeysPressed : Z;     (* uint8_t *)
  jogSta : list Z               (* uint16_t[2] *)
}.
Arguments mkPxaKpc {W}. Arguments world {W}. Arguments kpc {W}. Arguments kpmk {W}. Arguments kpas {W}. Arguments kpasmkp {W}. Arguments kpkdi {W}.
Arguments kpdkChanged {W}. Arguments prevKeys {W}. Arguments matrixKeys {W}. Arguments directKeys {W}. Arguments numMatrixKeysPressed {W}.
Arguments jogSta {W}.

(** [__builtin_ctz] of a number that is not 0. *)
Definition ctz (v : Z) : Z := Z.log2 (v .& (- v)).

Section Operations.
Context {W : Type} `{!IrqSink W}.
Implicit Types kp : PxaKpc W.

Definition matrixRows kp : Z := ((kp.(kpc) .>> 26) .& 7) + 1.

(** The state of the loop: [nowKeys], [kpasmkp], [kpas] and [nkeys]. *)
Definition scanColumn (keys : list Z) (nrows : Z) (s : Z * list Z * Z * Z) (c : Z) : Z * list Z * Z * Z :=
  let '(nowKeys, mkp, as_, nkeys) := s in
  let cval := keys.[c] .& ((1 .<< nrows) - 1) in
  let nowKeys := u64 (u64 (nowKeys .<< 8) + cval) in
  let mkp := mkp.[c / 2 <- mkp.[c / 2] .| (cval .<< (16 * (c mod 2)))] in
  if cval =? 0 then (nowKeys, mkp, as_, nkeys)
  else if nz (cval .& (cval - 1)) then (nowKeys, mkp, as_, u8 (nkeys + 2))
  else (nowKeys, mkp, if nkeys =? 0 then as_ .| c .| (ctz cval .<< 4) else as_, u8 (nkeys + 1)).

Definition pxaKpcPrvDoAutoScan kp (causeIrq : bool) : PxaKpc W :=
  let ncols := ((kp.(kpc) .>> 23) .& 7) + 1 in
  let '(nowKeys, mkp, as_, nkeys) :=
    fold_left (scanColumn kp.(matrixKeys) (matrixRows kp)) (seqZ 0 ncols) (0, [0; 0; 0; 0], kp.(kpas) .&~ 0x7c0000ff, 0) in
  let as_ := if nkeys =? 1 then as_ .| 0x04000000 else if nz nkeys then as_ .| 0x100000ff else as_ in
  { kp with kpasmkp := mkp; kpas := as_; prevKeys := nowKeys;
            kpc := if causeIrq && negb (nowKeys =? kp.(prevKeys)) then kp.(kpc) .| 0x00400000 else kp.(kpc) }.

Definition pxaKpcPrvIrqRecals kp : PxaKpc W :=
  let irq := (kp.(kpc) .& 0x00401800 =? 0x00401800) || (kp.(kpc) .& 0x00000023 =? 0x00000023) in
  { kp with world ::= fun w => irq_int w PXA_I_KEYPAD irq }.

(** The rows of the columns that the guest drives. *)
Definition manualRows kp : Z :=
  let val := fold_left (fun val c => if tst kp.(kpc) (1 .<< (12 + c)) then val .| kp.(matrixKeys).[c] else val)
    (seqZ 0 ((kp.(kpc) .>> 23) .& 7)) 0 in
  val .&~ ((1 .<< matrixRows kp) - 1).

Definition pxaKpcPrvMatrixRecalc kp (lastKeyChangeWasDown : bool) : PxaKpc W :=
  if negb (tst kp.(kpc) 0x1000) then kp else
  if tst kp.(kpc) 0x20000000 then
    if tst kp.(kpc) 0x00200000 && (lastKeyChangeWasDown && negb (kp.(numMatrixKeysPressed) =? 1) ||
                                   negb lastKeyChangeWasDown && negb (kp.(numMatrixKeysPressed) =? 0))
    then kp
    else pxaKpcPrvIrqRecals (pxaKpcPrvDoAutoScan kp true)
  else
    let val := manualRows kp in
    pxaKpcPrvIrqRecals { kp with kpc ::= fun k => if nz val then k .| 0x00400000 else k; kpmk := val }.

Definition pxaKpcPrvDirectKeysRecalc kp : PxaKpc W := pxaKpcPrvIrqRecals { kp with kpc ::= fun k => k .| 0x00000020 }.
Definition pxaKpcPrvJogRecalcRecalc kp : PxaKpc W := pxaKpcPrvIrqRecals { kp with kpc ::= fun k => k .| 0x00000020 }.

(** The direct keys, with the levels of the jog dials in place of theirs. *)
Definition kpdk kp : Z :=
  let val := (if kp.(kpdkChanged) then 0x80000000 else 0) .| (0xff .&~ kp.(directKeys)) in
  let val := if tst kp.(kpc) 4 then (val .&~ 0x03) .| ((kp.(jogSta).[0] .>> 12) .& 0x03) else val in
  if tst kp.(kpc) 8 then (val .&~ 0x0c) .| ((kp.(jogSta).[0] .>> 10) .& 0x0c) else val.

Definition kpcWrite kp (pa val : Z) : option (PxaKpc W) :=
  match pa with
  | 0 =>
      let kp := { kp with kpc ::= fun k => (k .& 0x00400020) .| (val .& 0x7fbffbdf) } in
      Some (if tst val 0x80000000 then pxaKpcPrvDoAutoScan kp false else pxaKpcPrvMatrixRecalc kp false)
  | 2 => Some { kp with jogSta ::= fun l => [(l.[0] .& 0x0300) .| (val .& 0xc0ff); (l.[1] .& 0x0300) .| ((val .>> 16) .& 0xc0ff)] }
  | 1 | 3 | 4 | 5 | 6 | 7 | 8 => Some kp
  | 9 => Some { kp with kpkdi := u16 val }
  | _ => None
  end.

Definition kpcRead kp (pa : Z) : option (Z * PxaKpc W) :=
  match pa with
  | 0 => Some (kp.(kpc), pxaKpcPrvIrqRecals { kp with kpc ::= fun k => k .&~ 0x00400020 })
  | 1 => Some (kpdk kp, { kp with kpdkChanged := false })
  | 2 => Some (((kp.(jogSta).[1] .& 0xc0ff) .<< 16) + (kp.(jogSta).[0] .& 0xc0ff), { kp with jogSta ::= map (fun j => j .&~ 0xc000) })
  | 3 => Some (kp.(kpmk), { kp with kpmk ::= fun m => m .&~ 0x80000000 })
  | 4 => Some (kp.(kpas), kp)
  | 5 | 6 | 7 | 8 => Some (kp.(kpasmkp).[pa - 5], kp)
  | 9 => Some (kp.(kpkdi), kp)
  | _ => None
  end.

Definition pxaKpcPrvMemAccessF kp (pa size : Z) (wr : bool) (b : Z) : access (PxaKpc W) :=
  if negb (size =? 4) || nz (pa .& 7) then (false, b, kp) else
  let pa := u32 (pa - PXA270_KPC_BASE) .>> 3 in
  if wr then match kpcWrite kp pa b with Some kp => (true, b, kp) | None => (false, b, kp) end
  else match kpcRead kp pa with Some (v, kp) => (true, v, kp) | None => (false, b, kp) end.

Definition pxaKpcInit (w : W) : PxaKpc W := mkPxaKpc w 0 0 0xff [0; 0; 0; 0] 0x0064 false 0 (replicate 8 0) 0 0 [0; 0].

(** ** Stimuli

    The column, the key and the dial are used before they are checked. *)

Definition pxaKpcMatrixKeyChange kp (row col : Z) (isDown : bool) : outcome (PxaKpc W) :=
  if negb (col <? 8) || negb (row <? 32) then Undef else
  if negb (row <? 8) then Abort else
  let cur := Z.testbit kp.(matrixKeys).[col] row in
  Ret (if Bool.eqb cur isDown then kp else
       pxaKpcPrvMatrixRecalc { kp with matrixKeys ::= fun l => l.[col <- l.[col] .^ (1 .<< row)];
                                       numMatrixKeysPressed ::= fun n => u8 (if isDown then n + 1 else n - 1);
                                       kpmk ::= fun m => m .| 0x80000000 } isDown).

Definition pxaKpcDirectKeyChange kp (keyIdx : Z) (isDown : bool) : outcome (PxaKpc W) :=
  if negb (keyIdx <? 32) then Undef else
  if negb (keyIdx <? 8) then Abort else
  let cur := Z.testbit kp.(directKeys) keyIdx in
  Ret (if Bool.eqb cur isDown then kp else
       pxaKpcPrvDirectKeysRecalc { kp with directKeys ::= fun k => k .^ (1 .<< keyIdx) }).

Definition jogNextUp : list Z := [2; 0; 3; 1].
Definition jogNextDown : list Z := [1; 3; 2; 0].

(** The dial's counter, then the levels of its two contacts. *)
Definition jogTurn (sta : Z) (up : bool) : Z :=
  let cur := sta .& 0xff in
  let sta := if up then (if cur =? 0xff then (sta .& 0x4300) .| 0x8000 else u16 (sta + 1))
             else (if cur =? 0 then (sta .& 0x8300) .| 0x40ff else u16 (sta - 1)) in
  u16 ((sta .& 0xc0ff) .| ((if up then jogNextUp else jogNextDown).[(sta .>> 12) .& 3] .<< 12)).

Definition pxaKpcJogInput kp (jogIdx : Z) (up : bool) : outcome (PxaKpc W) :=
  if negb (jogIdx <? 2) then Undef else
  Ret (pxaKpcPrvJogRecalcRecalc { kp with jogSta ::= fun l => l.[jogIdx <- jogTurn l.[jogIdx] up] }).
End Operations.

(** ** A scan *)

(** The rows whose keys are down in a column. *)
Definition rowsDown (nrows v : Z) : list Z := filter (fun r => Z.testbit v r = true) (seqZ 0 nrows).

Lemma byte_checked (P : Z -> bool) : forallb P (seqZ 0 256) = true -> forall v, is_u 8 v -> P v = true.
Proof. intros H v Hv. rewrite forallb_forall in H. apply H, list_elem_of_In, elem_of_seqZ. unfold is_u in Hv. lia. Qed.

Lemma rows_checked (P : Z -> Z -> bool) :
  forallb (fun n => forallb (P n) (seqZ 0 256)) (seqZ 1 8) = true -> forall n v, 1 <= n <= 8 -> is_u 8 v -> P n v = true.
Proof.
  intros H n v Hn Hv. rewrite forallb_forall in H. apply byte_checked; [|done]. apply H, list_elem_of_In, elem_of_seqZ. lia.
Qed.

(** What the bit tricks of the loop say about a column. *)
Definition column_ok (nrows v : Z) : bool :=
  let cval := v .& ((1 .<< nrows) - 1) in
  (0 <=? cval) && (cval <? 256) &&
  match rowsDown nrows v with
  | [] => cval =? 0
  | [r] => negb (cval =? 0) && negb (nz (cval .& (cval - 1))) && (ctz cval =? r) && (0 <=? r) && (r <? 8)
  | _ => negb (cval =? 0) && nz (cval .& (cval - 1))
  end.

Lemma column_exact nrows v : 1 <= nrows <= 8 -> is_u 8 v -> column_ok nrows v = true.
Proof. apply rows_checked. vm_compute. reflexivity. Qed.

Lemma shiftl_ones n : 0 <= n -> (1 .<< n) - 1 = Z.ones n.
Proof. intros. unfold Z.ones. rewrite Z.sub_1_r. done. Qed.

Lemma masked_bit v nrows r : 0 <= nrows -> 0 <= r -> Z.testbit (v .& ((1 .<< nrows) - 1)) r = (r <? nrows) && Z.testbit v r.
Proof. intros Hn Hr. rewrite shiftl_ones, Z.land_spec, Z.testbit_ones by done. rewrite (proj2 (Z.leb_le 0 r)) by done. cbn. apply andb_comm. Qed.

(** The keys that are down in the first [n] columns, as row and column. *)
Definition keysIn (keys : list Z) (nrows n : Z) : list (Z * Z) :=
  seqZ 0 n ≫= fun c => (fun r => (r, c)) <$> rowsDown nrows keys.[c].

Lemma keysIn_S keys nrows n : 0 <= n -> keysIn keys nrows (n + 1) = keysIn keys nrows n ++ ((fun r => (r, n)) <$> rowsDown nrows keys.[n]).
Proof.
  intros Hn. unfold keysIn. rewrite seqZ_app, bind_app by lia. f_equal. rewrite Z.add_0_l. change (seqZ n 1) with [n]. cbn. by rewrite app_nil_r.
Qed.

(** What KPAS and the count say about a list of keys. *)
Definition found (base : Z) (l : list (Z * Z)) (as_ nkeys : Z) : Prop :=
  match l with
  | [] => nkeys = 0 /\ as_ = base
  | [(r, c)] => nkeys = 1 /\ as_ = base .| (c .| (r .<< 4)) /\ 0 <= r < 8 /\ 0 <= c < 8
  | _ => 2 <= nkeys /\ exists x, is_u 8 x /\ as_ = base .| x
  end.

Lemma key_is_byte r c : 0 <= r < 8 -> 0 <= c < 8 -> is_u 8 (c .| (r .<< 4)).
Proof.
  intros Hr Hc. apply is_u_lor; [|rewrite Z.shiftl_mul_pow2; unfold is_u in *; lia|lia]. unfold is_u. lia.
Qed.

(** Two keys or more stay so. *)
Lemma found_many base l l' as_ n n' x :
  found base l as_ n -> l <> [] -> l' <> [] -> n + 1 <= n' -> is_u 8 x -> found base (l ++ l') (as_ .| x) n'.
Proof.
  intros H Hl Hl' Hn Hx. assert (HB : exists y, is_u 8 y /\ as_ .| x = base .| y).
  { destruct l as [|[r c] [|]]; [done| |]; cbn in H.
    - destruct H as (_ & -> & Hr & Hc). exists ((c .| (r .<< 4)) .| x). split; [apply is_u_lor; [by apply key_is_byte|done|lia]|]. by rewrite !Z.lor_assoc.
    - destruct H as (_ & y & Hy & ->). exists (y .| x). split; [apply is_u_lor; done || lia|]. by rewrite !Z.lor_assoc. }
  assert (Hn2 : 2 <= n') by (destruct l as [|[r c] [|]]; [done|cbn in H; lia..]).
  destruct l as [|k1 l]; [done|]. destruct l' as [|k3 l']; [done|]. destruct k1, l; (split; [exact Hn2|exact HB]).
Qed.

Lemma found_same base l as_ n n' : found base l as_ n -> l = [] -> n = n' -> found base [] as_ n'.
Proof. intros H -> <-. done. Qed.

Definition scanned (keys : list Z) (nrows base n : Z) (s : Z * list Z * Z * Z) : Prop :=
  let '(nowKeys, mkp, as_, nkeys) := s in
  length mkp = 4%nat /\ 0 <= nkeys <= 2 * n /\ found base (keysIn keys nrows n) as_ nkeys /\
  forall c r, 0 <= c < 8 -> 0 <= r < 16 ->
    Z.testbit mkp.[c / 2] (16 * (c mod 2) + r) = (c <? n) && (r <? nrows) && Z.testbit keys.[c] r.

Lemma mkp_step mkp c c' r cval :
  length mkp = 4%nat -> 0 <= c < 8 -> 0 <= c' < 8 -> 0 <= r < 16 -> is_u 8 cval ->
  Z.testbit (mkp.[c / 2 <- mkp.[c / 2] .| (cval .<< (16 * (c mod 2)))]).[c' / 2] (16 * (c' mod 2) + r) =
  Z.testbit mkp.[c' / 2] (16 * (c' mod 2) + r) || ((c =? c') && Z.testbit cval r).
Proof.
  intros Hl Hc Hc' Hr Hv. assert (Hd : 0 <= c / 2 < 4 /\ 0 <= c' / 2 < 4) by (split; zdiv_lia).
  pose proof (Z.div_mod c 2 ltac:(lia)) as E. pose proof (Z.div_mod c' 2 ltac:(lia)) as E'.
  pose proof (Z.mod_pos_bound c 2 ltac:(lia)). pose proof (Z.mod_pos_bound c' 2 ltac:(lia)).
  destruct (Z.eqb_spec (c / 2) (c' / 2)) as [Eq|Ne].
  - rewrite <- Eq, aget_aset_eq by lia. rewrite Z.lor_spec. f_equal. rewrite Z.shiftl_spec by lia.
    destruct (Z.eqb_spec c c') as [<-|Hne]; cbn [andb].
    + f_equal. lia.
    + destruct (Z.lt_ge_cases (c mod 2) (c' mod 2)).
      * apply (testbit_above 8); [done|lia].
      * apply Z.testbit_neg_r. lia.
  - rewrite aget_aset_ne by lia. rewrite (proj2 (Z.eqb_neq c c')) by (intros ->; done). cbn. by rewrite orb_false_r.
Qed.

Lemma scan_step keys nrows base n s :
  1 <= nrows <= 8 -> 0 <= n < 8 -> is_u 8 keys.[n] -> scanned keys nrows base n s -> scanned keys nrows base (n + 1) (scanColumn keys nrows s n).
Proof.
  intros Hr Hn Hk. destruct s as [[[now mkp] as_] nkeys]. intros (Hl & Hc & Hf & Hm). unfold scanColumn.
  pose proof (column_exact nrows keys.[n] Hr Hk) as HC. unfold column_ok in HC. pose proof (fun r => masked_bit keys.[n] nrows r ltac:(lia)) as HB.
  set (cval := keys.[n] .& ((1 .<< nrows) - 1)) in *. clearbody cval. rewrite !andb_true_iff, Z.leb_le, Z.ltb_lt in HC. destruct HC as [[Hv1 Hv2] HC].
  assert (Hmkp : forall c r, 0 <= c < 8 -> 0 <= r < 16 ->
    Z.testbit (mkp.[n / 2 <- mkp.[n / 2] .| (cval .<< (16 * (n mod 2)))]).[c / 2] (16 * (c mod 2) + r) = (c <? n + 1) && (r <? nrows) && Z.testbit keys.[c] r).
  { intros c r Hc' Hr'. rewrite mkp_step by (done || unfold is_u; lia). rewrite Hm, HB by lia.
    destruct (Z.eqb_spec n c) as [<-|Hne]; cbn [andb].
    - rewrite (proj2 (Z.ltb_ge n n)), (proj2 (Z.ltb_lt n (n + 1))) by lia. done.
    - rewrite orb_false_r. do 2 f_equal. destruct (Z.ltb_spec c n), (Z.ltb_spec c (n + 1)); lia. }
  unfold scanned. rewrite keysIn_S by lia. destruct (rowsDown nrows keys.[n]) as [|r0 [|r1 rs]].
  - rewrite HC, app_nil_r. split_and!; [by rewrite length_aset|lia|lia|done|done].
  - rewrite !andb_true_iff, !negb_true_iff, Z.eqb_eq, Z.leb_le, Z.ltb_lt in HC. destruct HC as [[[[Ez Eh] Ec] Hr1] Hr2]. rewrite Ez, Eh, Ec, wrap_small by (unfold is_u; lia).
    split_and!; [by rewrite length_aset|lia|lia| |done]. cbn [fmap list_fmap]. destruct (Z.eqb_spec nkeys 0) as [->|Hne].
    + destruct (keysIn keys nrows n) as [|[r c] [|]]; cbn in Hf |- *; [|lia..]. destruct Hf as [_ ->]. by rewrite Z.lor_assoc.
    + rewrite <- (Z.lor_0_r as_). eapply found_many; [exact Hf| |done|lia|unfold is_u; lia]. intros E. rewrite E in Hf. by destruct Hf.
  - rewrite !andb_true_iff, !negb_true_iff in HC. destruct HC as [Ez Eh]. rewrite Ez, Eh, wrap_small by (unfold is_u; lia).
    split_and!; [by rewrite length_aset|lia|lia| |done]. cbn [fmap list_fmap].
    destruct (keysIn keys nrows n) as [|k l] eqn:El; cbn [app].
    + cbn in Hf. destruct Hf as [-> ->]. cbn. split; [lia|]. exists 0. rewrite Z.lor_0_r. split; [unfold is_u; lia|done].
    + rewrite <- (Z.lor_0_r as_). eapply (found_many base (k :: l)); [exact Hf|done|done|lia|unfold is_u; lia].
Qed.

Lemma scan_columns keys nrows base now n :
  1 <= nrows <= 8 -> (n <= 8)%nat -> Forall (is_u 8) keys -> (8 <= length keys)%nat ->
  scanned keys nrows base (Z.of_nat n) (fold_left (scanColumn keys nrows) (seqZ 0 (Z.of_nat n)) (now, [0; 0; 0; 0], base, 0)).
Proof.
  intros Hr Hn Hk Hl. induction n as [|n IH].
  - split; [done|]. split; [done|]. split; [done|]. intros c r Hc Hr'. change (Z.of_nat 0) with 0. rewrite (proj2 (Z.ltb_ge c 0)) by lia. cbn [andb].
    replace ([0; 0; 0; 0].[c / 2]) with 0; [apply Z.bits_0|]. assert (0 <= c / 2 < 4) by zdiv_lia.
    assert (c / 2 = 0 \/ c / 2 = 1 \/ c / 2 = 2 \/ c / 2 = 3) as [->|[->|[->| ->]]] by lia; done.
  - rewrite Nat2Z.inj_succ, <- Z.add_1_r, seqZ_app, fold_left_app by lia. change (seqZ (0 + Z.of_nat n) 1) with [Z.of_nat n]. cbn [fold_left].
    apply scan_step; [done|lia| |apply IH; lia]. apply Forall_aget; [done|lia].
Qed.

Section Facts.
Context {W : Type} `{!IrqSink W}.
Implicit Types kp : PxaKpc W.

Record kpc_wf kp : Prop := {
  kwf_keys : length kp.(matrixKeys) = 8%nat;
  kwf_bytes : Forall (is_u 8) kp.(matrixKeys)
}.

Definition matrixCols kp : Z := ((kp.(kpc) .>> 23) .& 7) + 1.

(** The keys of the configured matrix that are down. *)
Definition keysDown kp : list (Z * Z) := keysIn kp.(matrixKeys) (matrixRows kp) (matrixCols kp).

(** The fields of KPAS for a list of keys: a single key by its row and column, several
    as all ones, and how many there are: none, one or more. *)
Definition kpasFields (l : list (Z * Z)) : Z :=
  match l with
  | [] => 0
  | [(r, c)] => 0x04000000 .| (r .<< 4) .| c
  | _ => 0x100000ff
  end.

Definition KPAS_FIELDS := 0x7c0000ff.

Lemma field_range x n : 1 <= (x .>> n) .& 7 + 1 <= 8.
Proof. change 7 with (Z.ones 3). rewrite Z.land_ones by lia. pose proof (Z.mod_pos_bound (x .>> n) (2 ^ 3) ltac:(lia)). lia. Qed.

(** The fields are replaced, the other bits stay. *)
Lemma fields_replaced x y m : y .& m = y -> ((x .&~ m) .| y) .& m = y /\ ((x .&~ m) .| y) .&~ m = x .&~ m.
Proof.
  intros Hy. assert (H : forall i, 0 <= i -> Z.testbit y i && Z.testbit m i = Z.testbit y i) by (intros i Hi; by rewrite <- Z.land_spec, Hy).
  split; apply Z.bits_inj'; intros i Hi; specialize (H i Hi); rewrite ?Z.land_spec, ?Z.ldiff_spec, ?Z.lor_spec, ?Z.ldiff_spec;
    destruct (Z.testbit x i), (Z.testbit y i), (Z.testbit m i); cbn in *; congruence.
Qed.

Lemma one_key_field r c : 0 <= r < 8 -> 0 <= c < 8 ->
  (c .| (r .<< 4)) .| 0x04000000 = kpasFields [(r, c)] /\ kpasFields [(r, c)] .& KPAS_FIELDS = kpasFields [(r, c)].
Proof.
  intros Hr Hc.
  pose proof (forallb_grid (fun r c => ((c .| (r .<< 4)) .| 0x04000000 =? kpasFields [(r, c)]) && (kpasFields [(r, c)] .& KPAS_FIELDS =? kpasFields [(r, c)])) 8 8
    ltac:(vm_compute; reflexivity) r c Hr Hc) as H. cbv beta in H. by rewrite andb_true_iff, !Z.eqb_eq in H.
Qed.

Lemma many_keys_field x : is_u 8 x -> x .| 0x100000ff = 0x100000ff.
Proof. intros Hx. apply Z.eqb_eq. revert x Hx. apply byte_checked. vm_compute. reflexivity. Qed.

Lemma found_fields base l as_ nkeys :
  found base l as_ nkeys ->
  (if nkeys =? 1 then as_ .| 0x04000000 else if nz nkeys then as_ .| 0x100000ff else as_) = base .| kpasFields l /\ kpasFields l .& KPAS_FIELDS = kpasFields l.
Proof.
  destruct l as [|[r c] [|k l]]; cbn [found].
  - intros [-> ->]. by rewrite Z.lor_0_r.
  - intros (-> & -> & Hr & Hc). destruct (one_key_field r c Hr Hc) as [E1 E2]. split; [|exact E2]. by rewrite <- E1, !Z.lor_assoc.
  - intros (Hn & x & Hx & ->). rewrite (proj2 (Z.eqb_neq nkeys 1)) by lia. unfold nz. rewrite (proj2 (Z.eqb_neq nkeys 0)) by lia. cbn [negb].
    split; [|done]. rewrite <- Z.lor_assoc, many_keys_field by done. done.
Qed.

(** What a scan leaves in the registers. *)
Lemma scan_registers kp causeIrq :
  kpc_wf kp ->
  let kp' := pxaKpcPrvDoAutoScan kp causeIrq in
  (forall c r, 0 <= c < 8 -> 0 <= r < 16 ->
     Z.testbit kp'.(kpasmkp).[c / 2] (16 * (c mod 2) + r) = (c <? matrixCols kp) && (r <? matrixRows kp) && Z.testbit kp.(matrixKeys).[c] r) /\
  kp'.(kpas) .& KPAS_FIELDS = kpasFields (keysDown kp) /\ kp'.(kpas) .&~ KPAS_FIELDS = kp.(kpas) .&~ KPAS_FIELDS /\
  kp'.(matrixKeys) = kp.(matrixKeys) /\ kp'.(kpc) .&~ 0x00400000 = kp.(kpc) .&~ 0x00400000.
Proof.
  intros [Hl Hb]. pose proof (field_range kp.(kpc) 23) as Hc. fold (matrixCols kp) in Hc. pose proof (field_range kp.(kpc) 26) as Hr. fold (matrixRows kp) in Hr.
  pose proof (scan_columns kp.(matrixKeys) (matrixRows kp) (kp.(kpas) .&~ 0x7c0000ff) 0 (Z.to_nat (matrixCols kp)) Hr ltac:(lia) Hb ltac:(lia)) as HS.
  rewrite Z2Nat.id in HS by lia. unfold pxaKpcPrvDoAutoScan. fold (matrixCols kp). destruct (fold_left _ _ _) as [[[now mkp] as_] nkeys].
  destruct HS as (_ & _ & Hf & Hm). fold (keysDown kp) in Hf. apply found_fields in Hf as [E1 E2]. rewrite E1. fold KPAS_FIELDS.
  destruct (fields_replaced kp.(kpas) _ _ E2) as [F1 F2]. destruct kp as [? k]. cbn in *. split_and!; try done.
  destruct (_ && _); [|done]. apply Z.bits_inj'. intros i Hi. rewrite !Z.ldiff_spec, Z.lor_spec. destruct (Z.testbit k i), (Z.testbit 0x00400000 i); done.
Qed.

Lemma fields_kept k k' n m : k' .&~ 0x00400000 = k .&~ 0x00400000 -> 23 <= n -> 0 <= m -> (k' .>> n) .& m = (k .>> n) .& m.
Proof.
  intros H Hn Hm. apply Z.bits_inj'. intros i Hi. rewrite !Z.land_spec, !Z.shiftr_spec by done. f_equal.
  apply (f_equal (fun x => Z.testbit x (i + n))) in H. rewrite !Z.ldiff_spec in H.
  rewrite (testbit_above 23 0x00400000) in H by (is_u_lit || lia). by rewrite !andb_true_r in H.
Qed.

Lemma keysDown_ext kp kp' :
  kp'.(matrixKeys) = kp.(matrixKeys) -> kp'.(kpc) .&~ 0x00400000 = kp.(kpc) .&~ 0x00400000 ->
  keysDown kp' = keysDown kp /\ matrixCols kp' = matrixCols kp /\ matrixRows kp' = matrixRows kp.
Proof. intros H1 H2. unfold keysDown, matrixCols, matrixRows. rewrite H1, !(fields_kept _ _ _ _ H2) by lia. done. Qed.

(** A read of the register at an offset. *)
Definition kpc_read kp (offset : Z) : access (PxaKpc W) := pxaKpcPrvMemAccessF kp (PXA270_KPC_BASE + offset) 4 false 0.

(** The registers show which keys are down. *)
Definition shows kp : Prop :=
  (exists v, kpc_read kp 0x20 = (true, v, kp) /\ v .& KPAS_FIELDS = kpasFields (keysDown kp)) /\
  forall c, 0 <= c < 8 -> exists m, kpc_read kp (0x28 + 8 * (c / 2)) = (true, m, kp) /\
    forall r, 0 <= r < 16 -> Z.testbit m (16 * (c mod 2) + r) = (c <? matrixCols kp) && (r <? matrixRows kp) && Z.testbit kp.(matrixKeys).[c] r.

Lemma scan_shows kp causeIrq : kpc_wf kp -> shows (pxaKpcPrvIrqRecals (pxaKpcPrvDoAutoScan kp causeIrq)).
Proof.
  intros Hwf. destruct (scan_registers kp causeIrq Hwf) as (Hm & Ha & _ & Hk & Hc). set (kp1 := pxaKpcPrvDoAutoScan kp causeIrq) in *. clearbody kp1.
  set (kp' := pxaKpcPrvIrqRecals kp1).
  assert (E : kp'.(kpasmkp) = kp1.(kpasmkp) /\ kp'.(kpas) = kp1.(kpas) /\ kp'.(matrixKeys) = kp1.(matrixKeys) /\ kp'.(kpc) = kp1.(kpc)) by (by destruct kp1).
  destruct E as (E1 & E2 & E3 & E4). clearbody kp'. destruct (keysDown_ext kp kp') as (F1 & F2 & F3); [congruence|congruence|]. split.
  - exists kp'.(kpas). split; [reflexivity|]. by rewrite E2, F1.
  - intros c Hc'. exists kp'.(kpasmkp).[c / 2]. assert (0 <= c / 2 < 4) by zdiv_lia. split.
    + assert (c / 2 = 0 \/ c / 2 = 1 \/ c / 2 = 2 \/ c / 2 = 3) as [->|[->|[->| ->]]] by lia; reflexivity.
    + intros r Hr. rewrite E1, F2, F3, E3, Hk. by apply Hm.
Qed.

(** C38. A key of the matrix reaches the guest: with the keypad enabled and scanned
    automatically, when a key changes, KPASMKP has a bit for every key of the
    configured matrix that is down and no other, and KPAS tells whether there is
    none, one or more of them, and the row and column if there is one. *)
Theorem kpc_key_shown kp row col (isDown : bool) :
  kpc_wf kp -> tst kp.(kpc) 0x1000 = true -> tst kp.(kpc) 0x20000000 = true -> tst kp.(kpc) 0x00200000 = false ->
  0 <= row < 8 -> 0 <= col < 8 ->
  exists kp', pxaKpcMatrixKeyChange kp row col isDown = Ret kp' /\ kpc_wf kp' /\
    (forall r c, 0 <= r < 8 -> 0 <= c < 8 ->
       Z.testbit kp'.(matrixKeys).[c] r = if (r =? row) && (c =? col) then isDown else Z.testbit kp.(matrixKeys).[c] r) /\
    (Z.testbit kp.(matrixKeys).[col] row = negb isDown -> shows kp').
Proof.
  intros Hwf He Ha Hi Hr Hc. pose proof Hwf as [Hl Hb]. unfold pxaKpcMatrixKeyChange.
  rewrite (proj2 (Z.ltb_lt col 8)), (proj2 (Z.ltb_lt row 32)), (proj2 (Z.ltb_lt row 8)) by lia. cbn [negb orb].
  destruct (Bool.eqb _ _) eqn:Ec; (eexists; split; [done|]).
  - apply eqb_prop in Ec. split; [done|]. split; [|intros H; rewrite Ec in H; by destruct isDown]. intros r c _ _.
    destruct (Z.eqb_spec r row) as [->|]; [|done]. destruct (Z.eqb_spec c col) as [->|]; done.
  - apply eqb_false_iff in Ec. set (kp1 := { kp with matrixKeys ::= _; numMatrixKeysPressed ::= _; kpmk ::= _ }).
    assert (Hk1 : kp1.(matrixKeys) = kp.(matrixKeys).[col <- kp.(matrixKeys).[col] .^ (1 .<< row)] /\ kp1.(kpc) = kp.(kpc)) by (by destruct kp).
    destruct Hk1 as [Hk1 Hk2]. clearbody kp1. assert (W1 : kpc_wf kp1).
    { split; rewrite Hk1; [by rewrite length_aset|]. apply Forall_aset; [done|]. apply is_u_lxor; [apply Forall_aget; [done|lia]| |lia].
      rewrite Z.shiftl_1_l. pose proof (Z.pow_le_mono_r 2 row 7). unfold is_u. lia. }
    unfold pxaKpcPrvMatrixRecalc. rewrite Hk2, He, Ha, Hi. cbn [negb andb].
    destruct (scan_registers kp1 true W1) as (_ & _ & _ & Hk3 & _). pose proof (scan_shows kp1 true W1) as HS.
    assert (Hk4 : (pxaKpcPrvIrqRecals (pxaKpcPrvDoAutoScan kp1 true)).(matrixKeys) = kp1.(matrixKeys)) by (by rewrite <- Hk3; destruct (pxaKpcPrvDoAutoScan kp1 true)).
    split; [destruct W1; split; by rewrite Hk4|]. split; [|done]. intros r c Hr' Hc'. rewrite Hk4, Hk1. destruct (Z.eqb_spec c col) as [->|Hne].
    + rewrite aget_aset_eq by lia. rewrite Z.lxor_spec, testbit_1_shiftl by lia. rewrite (Z.eqb_sym row r), andb_true_r.
      destruct (Z.eqb_spec r row) as [->|]; [|apply xorb_false_r]. rewrite xorb_true_r. destruct (Z.testbit _ row), isDown; done.
    + rewrite aget_aset_ne by lia. by rewrite andb_false_r.
Qed.
End Facts.

(** ** A keypad *)

(** Eight rows and columns, scanned automatically. *)
Definition demo_keypad : PxaKpc lines := (pxaKpcPrvMemAccessF (pxaKpcInit idle) PXA270_KPC_BASE 4 true 0x3f801800).2.

Lemma kpc_key_shown_witness :
  exists kp', pxaKpcMatrixKeyChange demo_keypad 3 2 true = Ret kp' /\ shows kp' /\ Z.testbit kp'.(matrixKeys).[2] 3 = true.
Proof.
  destruct (kpc_key_shown demo_keypad 3 2 true) as (kp' & E & _ & H1 & H2); [|reflexivity|reflexivity|reflexivity|lia|lia|].
  - split; [reflexivity|]. apply Forall_replicate. is_u_lit.
  - exists kp'. split; [exact E|]. split; [apply H2; reflexivity|]. rewrite H1 by lia. reflexivity.
Defined.

(** A manual scan masks the rows that exist instead of the others: with eight rows it
    finds no key. *)
Lemma manual_scan_is_blind {W} (kp : PxaKpc W) :
  kpc_wf kp -> (kp.(kpc) .>> 26) .& 7 = 7 -> manualRows kp = 0.
Proof.
  intros [Hl Hb] Hr. unfold manualRows, matrixRows. rewrite Hr. change ((1 .<< (7 + 1)) - 1) with (Z.ones 8).
  assert (H : is_u 8 (fold_left (fun val c => if tst kp.(kpc) (1 .<< (12 + c)) then val .| kp.(matrixKeys).[c] else val) (seqZ 0 ((kp.(kpc) .>> 23) .& 7)) 0)).
  { assert (Hn : forall l v, (forall c, c ∈ l -> 0 <= c < 8) -> is_u 8 v ->
      is_u 8 (fold_left (fun val c => if tst kp.(kpc) (1 .<< (12 + c)) then val .| kp.(matrixKeys).[c] else val) l v)).
    { induction l as [|c l IH]; intros v Hl' Hv; cbn [fold_left]; [done|]. apply IH; [intros; apply Hl'; by right|].
      destruct (tst _ _); [|done]. apply is_u_lor; [done|apply Forall_aget; [done|]|lia]. specialize (Hl' c ltac:(by left)). lia. }
    apply Hn; [|unfold is_u; lia]. intros c Hc%elem_of_seqZ. pose proof (field_range kp.(kpc) 23). lia. }
  apply Z.bits_inj'. intros i Hi. rewrite Z.ldiff_spec, Z.testbit_ones, Z.bits_0 by lia. destruct (Z.ltb_spec i 8).
  - rewrite (proj2 (Z.leb_le 0 i)) by lia. apply andb_false_r.
  - by rewrite (testbit_above 8) by done.
Qed.

(** When the last key is released, the row and column in KPAS are 0, as if the key of row
    0 and column 0 were down; after a reset they are all ones. *)
Lemma released_reads_as_first_key :
  (pxaKpcInit idle).(kpas) .& 0xff = 0xff /\
  match pxaKpcMatrixKeyChange demo_keypad 3 2 true with
  | Ret kp => match pxaKpcMatrixKeyChange kp 3 2 false with Ret kp => kp.(kpas) .& 0xff = 0 | _ => False end
  | _ => False
  end.
Proof. split; vm_compute; done. Qed.
