(* ===== verification/PwrClk.v ===== *)
(** * The clock and power managers (pxa_PwrClk.c)

    Two blocks of registers, and the coprocessors 7 and 14, through which the guest
    puts the processor to sleep. *)

From S2P Require Import Prelude Interfaces.

Definition PXA_CLOCK_MANAGER_BASE := 0x41300000.
Definition PXA_POWER_MANAGER_BASE := 0x40F00000.

(** What the coprocessors do to the SoC: [socSleep] and [cpuReset]. *)
Class PowerPort (E : Type) := {
  soc_sleep : E -> E;
  reset_cpu : E -> Z -> E
}.

(** All registers are 32 bits wide. *)
Record PxaPwrClk := mkPxaPwrClk {
  CCCR : Z; CKEN : Z; OSCR : Z;
  PMCR : Z; PSSR : Z; PSPR : Z; PWER : Z; PRER : Z; PFER : Z; PEDR : Z; PCFR : Z;
  PGSR : list Z;               (* uint32_t[4] *)
  RCSR : Z; PMFW : Z;
  PSTR : Z; PVCR : Z; PUCR : Z; PKWR : Z; PKSR : Z;
  PCMD : list Z;               (* uint32_t[32] *)
  turbo : bool;
  isPXA270 : bool
}.

Implicit Types pc : PxaPwrClk.

(** ** The coprocessors *)

Section Coprocessors.
Context {E : Type} `{!CpuRegPort E} `{!PowerPort E}.

Definition pxaPwrClkPrvCoproc7regXferFunc (e : E) (two read : bool) (op1 Rx CRn CRm op2 : Z) : bool * E :=
  if read && negb two && (op1 =? 0) && (op2 =? 0) && (CRn =? 4) then (true, cpu_set_reg e Rx 0) else (false, e).

Definition pxaPwrClkPrvCoproc14regXferFunc pc (e : E) (two read : bool) (op1 Rx CRn CRm op2 : Z) : bool * (PxaPwrClk * E) :=
  let val := if read then 0 else cpu_get_reg e Rx in
  let success s := (true, if read then (s.1, cpu_set_reg s.2 Rx 0) else s) in
  if (CRm =? 0) && (op1 =? 0) && negb two then
    match CRn with
    | 6 => if op2 =? 0 then success (if read then pc else { pc with turbo := tst val 1 }, e) else (false, (pc, e))
    | 7 =>
        success (if read then (pc, e)
                 else if (val =? 1) && (op2 =? 0) then (pc, soc_sleep e)
                 else if (val =? 3) && (op2 =? 0) then ({ pc with RCSR ::= fun r => r .| 4 }, reset_cpu e 0)
                 else (pc, e))
    | 10 => if op2 =? 0 then success (pc, e) else (false, (pc, e))
    | _ => (false, (pc, e))
    end
  else (false, (pc, e)).
End Coprocessors.

(** ** The registers *)

Definition clockWrite pc (pa val : Z) : PxaPwrClk :=
  match pa with 0 => { pc with CCCR := val } | 1 => { pc with CKEN := val } | _ => pc end.

Definition clockRead pc (pa : Z) : Z :=
  match pa with 0 => pc.(CCCR) | 1 => pc.(CKEN) | 2 => pc.(OSCR) | _ => 0 end.

Definition pxaPwrClkPrvClockMgrMemAccessF pc (pa size : Z) (wr : bool) (b : Z) : access PxaPwrClk :=
  if negb (size =? 4) then (false, b, pc) else
  let pa := u32 (pa - PXA_CLOCK_MANAGER_BASE) .>> 2 in
  if wr then (true, b, clockWrite pc pa b) else (true, clockRead pc pa, pc).

(** The registers that only the PXA270 has. *)
Definition only270 (pa : Z) : bool :=
  match pa with 0xb | 0xe | 0x10 | 0x13 | 0x14 | 0x15 => true | _ => (0x20 <=? pa) && (pa <=? 0x3f) end.

(** The bits that a write can set, for PMCR, PWER, PRER and PFER, PCFR, PMFW. *)
Definition maskPMCR (g2 : bool) := if g2 then 0x3f else 0x01.
Definition maskPWER (g2 : bool) := if g2 then 0xdf9ffe1b else 0xf000ffff.
Definition maskPxER (g2 : bool) := if g2 then 0x0100fe1b else 0x0000ffff.
Definition maskPCFR (g2 : bool) := if g2 then 0xdcd7 else 0x0007.
Definition maskPMFW (g2 : bool) := if g2 then 0xffd00f0c else 0x00000002.

(** A write of PKSR clears bits of PKWR, as in the source. *)
Definition powerWrite pc (pa val : Z) : option PxaPwrClk :=
  if only270 pa && negb pc.(isPXA270) then None else
  if (0x20 <=? pa) && (pa <=? 0x3f) then Some { pc with PCMD ::= fun l => l.[pa - 0x20 <- val .& 0x00001fff] } else
  match pa with
  | 0 => Some { pc with PMCR := val .& maskPMCR pc.(isPXA270) }
  | 1 => Some { pc with PSSR ::= fun s => s .&~ val }
  | 2 => Some { pc with PSPR := val }
  | 3 => Some { pc with PWER := val .& maskPWER pc.(isPXA270) }
  | 4 => Some { pc with PRER := val .& maskPxER pc.(isPXA270) }
  | 5 => Some { pc with PFER := val .& maskPxER pc.(isPXA270) }
  | 6 => Some { pc with PEDR ::= fun s => s .&~ val }
  | 7 => Some { pc with PCFR := val .& maskPCFR pc.(isPXA270) }
  | 8 | 9 | 10 => Some { pc with PGSR ::= fun l => l.[pa - 8 <- val] }
  | 11 => Some { pc with PGSR ::= fun l => l.[3 <- val .& 0x01ffffff] }
  | 12 => Some { pc with RCSR ::= fun s => s .&~ val }
  | 13 => Some { pc with PMFW := val .& maskPMFW pc.(isPXA270) }
  | 14 => Some { pc with PSTR := val .& 0x00000f0c }
  | 0x10 => Some { pc with PVCR := val .& 0x01f04fff }
  | 0x13 => Some { pc with PUCR := val .& 0x0000002d }
  | 0x14 => Some { pc with PKWR := val .& 0x000fffff }
  | 0x15 => Some { pc with PKWR ::= fun s => s .&~ val }
  | _ => None
  end.

Definition powerRead pc (pa : Z) : option Z :=
  if only270 pa && negb pc.(isPXA270) then None else
  if (0x20 <=? pa) && (pa <=? 0x3f) then Some pc.(PCMD).[pa - 0x20] else
  match pa with
  | 0 => Some pc.(PMCR) | 1 => Some pc.(PSSR) | 2 => Some pc.(PSPR) | 3 => Some pc.(PWER) | 4 => Some pc.(PRER) | 5 => Some pc.(PFER)
  | 6 => Some pc.(PEDR) | 7 => Some pc.(PCFR) | 8 | 9 | 10 | 11 => Some pc.(PGSR).[pa - 8] | 12 => Some pc.(RCSR) | 13 => Some pc.(PMFW)
  | 14 => Some pc.(PSTR) | 0x10 => Some pc.(PVCR) | 0x13 => Some pc.(PUCR) | 0x14 => Some pc.(PKWR) | 0x15 => Some pc.(PKSR)
  | _ => None
  end.

Definition pxaPwrClkPrvPowerMgrMemAccessF pc (pa size : Z) (wr : bool) (b : Z) : access PxaPwrClk :=
  if negb (size =? 4) then (false, b, pc) else
  let pa := u32 (pa - PXA_POWER_MANAGER_BASE) .>> 2 in
  if wr then match powerWrite pc pa b with Some pc => (true, b, pc) | None => (false, b, pc) end
  else match powerRead pc pa with Some v => (true, v, pc) | None => (false, b, pc) end.

(** PSPR survives a reset. *)
Definition pxaPwrClkReset pc : PxaPwrClk :=
  { pc with CCCR := 0x122; CKEN := 0x179EF; OSCR := 3; PMCR := 0; PSSR := 0x20; PWER := 3; PRER := 3; PFER := 3; PEDR := 0; PCFR := 0;
            PGSR := replicate 4 0; RCSR := 0 .| 1; PMFW := if pc.(isPXA270) then 0xcc000000 else 0;
            PSTR := 0; PVCR := 0; PUCR := 0; PKWR := 0; PKSR := 0; PCMD := replicate 32 0 }.

Definition pxaPwrClkInit (g2 : bool) : PxaPwrClk :=
  pxaPwrClkReset (mkPxaPwrClk 0 0 0 0 0 0 0 0 0 0 0 [] 0 0 0 0 0 0 0 [] false g2).

(** ** Reserved bits stay clear *)

Definition inMask (v m : Z) : Prop := v .&~ m = 0.

Lemma inMask_land v m : inMask (v .& m) m.
Proof. apply Z.bits_inj'. intros i Hi. rewrite Z.ldiff_spec, Z.land_spec, Z.bits_0. destruct (Z.testbit v i), (Z.testbit m i); done. Qed.

Lemma inMask_ldiff v w m : inMask v m -> inMask (v .&~ w) m.
Proof.
  unfold inMask. intros H. apply Z.bits_inj'. intros i Hi. apply (f_equal (fun x => Z.testbit x i)) in H.
  rewrite !Z.ldiff_spec, !Z.bits_0 in *. destruct (Z.testbit v i), (Z.testbit w i), (Z.testbit m i); done.
Qed.

(** The array lengths, and the bits that each register can have; PMFW of a PXA270 comes
    out of a reset with bits that no write can set. *)
Record pwr_wf pc : Prop := {
  pwf_pgsr : length pc.(PGSR) = 4%nat;
  pwf_pcmd : length pc.(PCMD) = 32%nat /\ Forall (fun v => inMask v 0x1fff) pc.(PCMD);
  pwf_pmcr : inMask pc.(PMCR) (maskPMCR pc.(isPXA270));
  pwf_pwer : inMask pc.(PWER) (maskPWER pc.(isPXA270));
  pwf_prer : inMask pc.(PRER) (maskPxER pc.(isPXA270));
  pwf_pfer : inMask pc.(PFER) (maskPxER pc.(isPXA270));
  pwf_pcfr : inMask pc.(PCFR) (maskPCFR pc.(isPXA270));
  pwf_pmfw : inMask pc.(PMFW) (maskPMFW pc.(isPXA270) .| 0xcc000000);
  pwf_pstr : inMask pc.(PSTR) 0xf0c;
  pwf_pvcr : inMask pc.(PVCR) 0x01f04fff;
  pwf_pucr : inMask pc.(PUCR) 0x2d;
  pwf_pkwr : inMask pc.(PKWR) 0x000fffff
}.

Lemma inMask_wider v m m' : inMask v m -> m .&~ m' = 0 -> inMask v m'.
Proof.
  unfold inMask. intros H Hm. apply Z.bits_inj'. intros i Hi. apply (f_equal (fun x => Z.testbit x i)) in H, Hm.
  rewrite !Z.ldiff_spec, !Z.bits_0 in *. destruct (Z.testbit v i), (Z.testbit m i), (Z.testbit m' i); done.
Qed.

Lemma reset_wf pc : pwr_wf (pxaPwrClkReset pc).
Proof. destruct pc as [? ? ? ? ? ? ? ? ? ? ? ? ? ? ? ? ? ? ? ? ? []]; split; try reflexivity; (split; [reflexivity|apply Forall_replicate; reflexivity]). Qed.

Lemma powerWrite_wf pc pa val pc' : pwr_wf pc -> powerWrite pc pa val = Some pc' -> pwr_wf pc'.
Proof.
  intros [H1 [H2 H3] H4 H5 H6 H7 H8 H9 H10 H11 H12 H13]. unfold powerWrite.
  destruct (only270 pa && _); [done|]. destruct ((0x20 <=? pa) && _).
  { intros [= <-]. destruct pc. cbn in *. split; cbn; try done. rewrite length_aset. split; [done|]. apply Forall_aset; [done|apply inMask_land]. }
  assert (HM : inMask (val .& maskPMFW pc.(isPXA270)) (maskPMFW pc.(isPXA270) .| 0xcc000000)).
  { eapply inMask_wider; [apply inMask_land|]. by destruct (isPXA270 pc). }
  repeat case_match; intros [= <-]; destruct pc; cbn in *; split; cbn; rewrite ?length_aset; try done; try apply inMask_land; by apply inMask_ldiff.
Qed.

(** No access, of any size and to any address, sets a reserved bit or leaves an array. *)
Lemma power_registers_wf pc pa size wr b : pwr_wf pc -> pwr_wf (pxaPwrClkPrvPowerMgrMemAccessF pc pa size wr b).2.
Proof.
  intros H. unfold pxaPwrClkPrvPowerMgrMemAccessF. destruct (negb _); [done|]. destruct wr.
  - destruct (powerWrite _ _ _) eqn:E; [|done]. by eapply powerWrite_wf.
  - by destruct (powerRead _ _).
Qed.

(** A write of PKSR leaves PKSR alone and clears PKWR, the enabled wake-up sources. *)
Lemma pksr_write_clears_pkwr :
  let pc := (pxaPwrClkPrvPowerMgrMemAccessF (pxaPwrClkInit true) (PXA_POWER_MANAGER_BASE + 0x50) 4 true 3).2 in
  pc.(PKWR) = 3 /\ (pxaPwrClkPrvPowerMgrMemAccessF pc (PXA_POWER_MANAGER_BASE + 0x54) 4 true 1).2.(PKWR) = 2.
Proof. vm_compute. done. Qed.
