(* ===== verification/I2c.v ===== *)
(** * The I2C controller (pxa_I2C.c)

    The guest writes a byte to the data buffer and starts its transfer with the
    control register; the controller hands every action on the bus to all devices,
    and a byte counts as acknowledged if one of them answers. *)

From S2P Require Import Prelude Interfaces.

Inductive ActionI2C := i2cStart | i2cRestart | i2cStop | i2cTx | i2cRx.

Definition REG_IDX_IBMR := 0.
Definition REG_IDX_IDBR := 1.
Definition REG_IDX_ICR := 2.
Definition REG_IDX_ISR := 3.
Definition REG_IDX_ISAR := 4.

Record SocI2c (W : Type) := mkSocI2c {
  world : W;             (* ic and the devices *)
  base : Z;
  irqNo : Z;
  icr : Z;               (* uint16_t *)
  isr : Z;               (* uint16_t *)
  db : Z;                (* uint8_t *)
  isa : Z;               (* uint8_t *)
  devs : list (option (W -> ActionI2C -> Z -> Z * W));  (* [8], each with its userData *)
  waitForAddr : bool;
  latentBusy : bool
}.
Arguments mkSocI2c {W}. Arguments world {W}. Arguments base {W}. Arguments irqNo {W}. Arguments icr {W}. Arguments isr {W}. Arguments db {W}.
Arguments isa {W}. Arguments devs {W}. Arguments waitForAddr {W}. Arguments latentBusy {W}.

Section Operations.
Context {W : Type} `{!IrqSink W}.
Implicit Types bus : SocI2c W.

(** The first free slot. *)
Definition socI2cDeviceAdd bus (f : W -> ActionI2C -> Z -> Z * W) : bool * SocI2c W :=
  match list_find (fun d : option _ => d = None) bus.(devs) with
  | Some (i, _) => (true, { bus with devs ::= fun l => <[i := Some f]> l })
  | None => (false, bus)
  end.

Definition effectiveIsr (isr icr : Z) : Z :=
  let e := isr .& 0x6f0 in
  let e := if tst icr 0x2000 then e else e .&~ 0x200 in
  let e := if tst icr 0x1000 then e else e .&~ 0x20 in
  let e := if tst icr 0x0800 then e else e .&~ 0x10 in
  let e := if tst icr 0x0400 then e else e .&~ 0x400 in
  let e := if tst icr 0x0200 then e else e .&~ 0x80 in
  if tst icr 0x0100 then e else e .&~ 0x40.

Definition socI2cPrvRecalcIrq bus : SocI2c W :=
  { bus with world ::= fun w => irq_int w bus.(irqNo) (nz (effectiveIsr bus.(isr) bus.(icr))) }.

(** The answers of all devices, ORed, 8 bits wide. *)
Definition socI2cPrvAction bus (action : ActionI2C) (param : Z) : Z * SocI2c W :=
  fold_left (fun '(ret, bus) d =>
    match d with
    | None => (ret, bus)
    | Some f => let '(r, w) := f bus.(world) action param in (u8 (ret .| r), { bus with world := w })
    end) bus.(devs) (0, bus).

Definition busStop bus : SocI2c W :=
  let '(_, bus) := socI2cPrvAction bus i2cStop 0 in { bus with isr ::= fun s => s .&~ 1; latentBusy := true }.

(** The byte of the buffer goes to the devices; bit 1 of the status says that none of
    them acknowledged it. *)
Definition busSend bus : SocI2c W :=
  let '(ack, bus) := socI2cPrvAction bus i2cTx bus.(db) in
  { bus with isr ::= fun s => (s .&~ 2) .| (if nz ack then 0 else 2) }.

Definition busTransfer bus : SocI2c W :=
  if bus.(waitForAddr) then
    let bus := busSend { bus with isr ::= fun s => (s .&~ 1) .| (bus.(db) .& 1) } in
    { bus with waitForAddr := false; isr ::= fun s => s .| 0x40 }
  else if negb (tst bus.(isr) 1) then
    { busSend bus with isr ::= fun s => s .| 0x40 }
  else
    let '(v, bus) := socI2cPrvAction bus i2cRx (if tst bus.(icr) 4 then 0 else 1) in
    { bus with db := v; isr ::= fun s => let s := (s .| 0x80) .&~ 2 in if tst bus.(icr) 4 then s .| 2 else s }.

Definition socI2cPrvCrW bus (val : Z) : SocI2c W :=
  let diffBits := bus.(icr) .^ val in
  let bus := { bus with icr := u16 val } in
  if negb (tst val 0x40) then bus else
  let bus := if tst (val .& diffBits) 0x01 then
      let '(_, bus) := socI2cPrvAction bus (if tst bus.(isr) 4 then i2cRestart else i2cStart) 0 in
      { bus with waitForAddr := true; isr ::= fun s => s .| 4 }
    else bus in
  let bus := if tst val 0x08 then
      let bus := busTransfer bus in
      let bus := if tst val 2 then busStop bus else bus in
      { bus with icr ::= fun c => c .&~ 8 }
    else bus in
  let bus := if tst val 0x10 then busStop bus else bus in
  socI2cPrvRecalcIrq bus.

Definition socI2cPrvMemAccessF bus (pa size : Z) (wr : bool) (b : Z) : access (SocI2c W) :=
  if negb (size =? 4) then (false, b, bus) else
  let pa := u32 (pa - bus.(base)) .>> 2 in
  if tst pa 1 then (false, b, bus) else
  let pa := pa .>> 1 in
  let bus := if wr && bus.(latentBusy) then { bus with isr ::= fun s => s .&~ 4; latentBusy := false } else bus in
  match pa with
  | 0 => if wr then (false, b, bus) else (true, 0x03, bus)
  | 1 => if wr then (true, b, socI2cPrvRecalcIrq { bus with isr ::= fun s => s .&~ 0x40; db := u8 b })
         else (true, bus.(db), socI2cPrvRecalcIrq bus)
  | 2 => if wr then (true, b, socI2cPrvRecalcIrq (socI2cPrvCrW bus b)) else (true, bus.(icr), bus)
  | 3 => if wr then (true, b, socI2cPrvRecalcIrq { bus with isr ::= fun s => s .&~ (b .& 0x6f0) }) else (true, bus.(isr), bus)
  | 4 => if wr then (true, b, { bus with isa := b .& 0x7f }) else (true, bus.(isa), bus)
  | _ => (false, b, bus)
  end.

Definition socI2cInit (w : W) (base irqNo : Z) : SocI2c W := mkSocI2c w base irqNo 0 0x40 0 0 (replicate 8 None) false false.
End Operations.

(** ** A transfer

    What a guest does that writes bytes to a device: the address with a start
    condition, the bytes, the last one with a stop condition. *)

Section Transfers.
Context {W : Type} `{!IrqSink W}.
Implicit Types bus : SocI2c W.

Definition write_reg bus (idx v : Z) : SocI2c W := (socI2cPrvMemAccessF bus (u32 (bus.(base) + 8 * idx)) 4 true v).2.

(** A byte with the bits of ICR beside the unit enable: 1 starts, 2 stops, 8 transfers. *)
Definition send_byte bus (v cmd : Z) : SocI2c W := write_reg (write_reg bus REG_IDX_IDBR v) REG_IDX_ICR (0x40 + cmd).

Definition send_message bus (addr : Z) (bytes : list Z) (last : Z) : SocI2c W :=
  let bus := send_byte bus addr 9 in
  send_byte (fold_left (fun bus v => send_byte bus v 8) bytes bus) last 10.

(** A single device on the bus that keeps a log and acknowledges everything: the world
    is the log. *)
Definition logger (put : W -> ActionI2C -> Z -> W) : list (option (W -> ActionI2C -> Z -> Z * W)) :=
  Some (fun w a v => (1, put w a v)) :: replicate 7 None.
End Transfers.

(** The log of a bus: the levels of the lines and the actions, newest first. *)
Record BusLog := mkBusLog { bl_lines : lines; bl_log : list (ActionI2C * Z) }.

#[export, program] Instance buslog_irq : IrqSink BusLog := {|
  irq_int w n b := mkBusLog (irq_int w.(bl_lines) n b) w.(bl_log);
  irq_pending w n := irq_pending w.(bl_lines) n
|}.
Next Obligation. done. Qed.

Definition put (w : BusLog) (a : ActionI2C) (v : Z) : BusLog := mkBusLog w.(bl_lines) ((a, v) :: w.(bl_log)).

Implicit Types bus : SocI2c BusLog.

Definition actions bus : list (ActionI2C * Z) := reverse bus.(world).(bl_log).

(** The controller is between the bytes of a message that it sends. *)
Record sending bus : Prop := {
  sd_devs : bus.(devs) = logger put;
  sd_write : tst bus.(isr) 1 = false;
  sd_addr : bus.(waitForAddr) = false;
  sd_quiet : bus.(latentBusy) = false
}.

(** No message is under way: the bus is free, or it becomes free at the next write, and
    the start bit is clear. *)
Record free bus : Prop := {
  fr_devs : bus.(devs) = logger put;
  fr_start : tst bus.(icr) 1 = false;
  fr_busy : bus.(latentBusy) = true \/ tst bus.(isr) 4 = false
}.

Lemma bit0 x : tst x 1 = Z.testbit x 0.
Proof. apply (tst_bit x 0). lia. Qed.

Lemma bit2 x : tst x 4 = Z.testbit x 2.
Proof. apply (tst_bit x 2). lia. Qed.

Lemma one_action bus a v : bus.(devs) = logger put -> socI2cPrvAction bus a v = (1, { bus with world ::= fun w => put w a v }).
Proof. intros H. unfold socI2cPrvAction. rewrite H. by destruct bus. Qed.

Lemma register_offset b idx : 0 <= idx < 5 -> u32 (u32 (b + 8 * idx) - b) .>> 2 = 2 * idx /\ tst (2 * idx) 1 = false /\ (2 * idx) .>> 1 = idx.
Proof.
  intros Hi. split.
  - unfold wrap. rewrite Zminus_mod_idemp_l. replace (b + 8 * idx - b) with (8 * idx) by lia. rewrite Z.mod_small, shiftr_div by lia. zdiv_lia.
  - assert (idx = 0 \/ idx = 1 \/ idx = 2 \/ idx = 3 \/ idx = 4) as [->|[->|[->|[->| ->]]]] by lia; done.
Qed.

(** The busy bit of a message that has ended goes with the next write. *)
Definition settled bus : SocI2c BusLog :=
  if bus.(latentBusy) then { bus with isr ::= fun s => s .&~ 4; latentBusy := false } else bus.

Lemma write_idbr bus v : write_reg bus REG_IDX_IDBR v = socI2cPrvRecalcIrq { settled bus with isr ::= fun s => s .&~ 0x40; db := u8 v }.
Proof.
  unfold write_reg, socI2cPrvMemAccessF. destruct (register_offset bus.(base) 1) as (E1 & E2 & E3); [lia|]. unfold REG_IDX_IDBR. rewrite E1, E2, E3. done.
Qed.

Lemma write_icr bus v : write_reg bus REG_IDX_ICR v = socI2cPrvRecalcIrq (socI2cPrvCrW (settled bus) v).
Proof.
  unfold write_reg, socI2cPrvMemAccessF. destruct (register_offset bus.(base) 2) as (E1 & E2 & E3); [lia|]. unfold REG_IDX_ICR. rewrite E1, E2, E3. done.
Qed.


(** The bits that the transfers leave in the status. *)
Lemma cleared x m : tst m 1 = false -> tst x 1 = false -> tst ((x .&~ 2) .| m) 1 = false.
Proof. rewrite !bit0, Z.lor_spec, Z.ldiff_spec. intros -> ->. done. Qed.

(** Everything but the interrupt line. *)
Definition log bus := bus.(world).(bl_log).

Lemma recalc_keeps bus :
  let bus' := socI2cPrvRecalcIrq bus in
  log bus' = log bus /\ (sending bus -> sending bus') /\ (free bus -> free bus') /\ bus'.(icr) = bus.(icr).
Proof. destruct bus. split_and!; try done; intros [A B C]; by split. Qed.

Lemma start_bit i v : tst (v .& (i .^ v)) 1 = Z.testbit v 0 && negb (tst i 1).
Proof. rewrite !bit0, Z.land_spec, Z.lxor_spec. by destruct (Z.testbit v 0), (Z.testbit i 0). Qed.

(** The data buffer is filled. *)
Definition filled bus (v : Z) : SocI2c BusLog := socI2cPrvRecalcIrq { settled bus with isr ::= fun s => s .&~ 0x40; db := u8 v }.

Lemma filled_sending bus v : sending bus -> sending (filled bus v) /\ log (filled bus v) = log bus /\ (filled bus v).(db) = u8 v.
Proof.
  intros [A B C D]. unfold filled, settled. rewrite D. split_and!; [|by destruct bus|by destruct bus]. apply recalc_keeps. destruct bus. cbn in *.
  split; cbn; try done. rewrite bit0, Z.ldiff_spec in *. by rewrite B.
Qed.

Lemma filled_free bus v : free bus -> 
  (filled bus v).(devs) = logger put /\ tst (filled bus v).(icr) 1 = false /\ tst (filled bus v).(isr) 4 = false /\ (filled bus v).(latentBusy) = false /\
  log (filled bus v) = log bus /\ (filled bus v).(db) = u8 v.
Proof.
  intros [A B C]. unfold filled, settled. destruct bus as [w ba irq cr sr d ia ds wt lb]. cbn in *. destruct lb; cbn; split_and!; try done.
  - by rewrite bit2, !Z.ldiff_spec, andb_false_r.
  - destruct C as [|C]; [done|]. rewrite bit2, Z.ldiff_spec in *. by rewrite C.
Qed.

(** A byte goes over the bus. *)
Lemma send_spec bus :
  bus.(devs) = logger put -> tst bus.(isr) 1 = false -> bus.(latentBusy) = false ->
  let bus' := { busSend bus with isr ::= fun s => s .| 0x40 } in
  bus'.(devs) = logger put /\ tst bus'.(isr) 1 = false /\ bus'.(latentBusy) = false /\ log bus' = (i2cTx, bus.(db)) :: log bus /\
  bus'.(waitForAddr) = bus.(waitForAddr) /\ bus'.(icr) = bus.(icr).
Proof.
  intros A B C. unfold busSend. rewrite one_action by done. destruct bus. cbn in *. split_and!; try done.
  rewrite bit0, !Z.lor_spec, Z.ldiff_spec in *. by rewrite B.
Qed.

Lemma send_mid bus v :
  sending bus -> is_u 8 v -> let bus' := send_byte bus v 8 in sending bus' /\ log bus' = (i2cTx, v) :: log bus.
Proof.
  intros Hs Hv. unfold send_byte. rewrite write_icr, write_idbr. fold (filled bus v). destruct (filled_sending bus v Hs) as ([A B C D] & L & Hd).
  rewrite wrap_small in Hd by done. set (bus1 := filled bus v) in *. clearbody bus1. unfold settled. rewrite D. unfold socI2cPrvCrW. rewrite start_bit. cbn [andb].
  set (bus2 := { bus1 with icr := u16 (0x40 + 8) }).
  assert (E : bus2.(devs) = logger put /\ tst bus2.(isr) 1 = false /\ bus2.(latentBusy) = false /\ bus2.(waitForAddr) = false /\ log bus2 = log bus1 /\ bus2.(db) = v)
    by (by destruct bus1). destruct E as (E1 & E2 & E3 & E4 & E5 & E6). clearbody bus2.
  change (tst (64 + 8) 64) with true. change (tst (64 + 8) 8) with true. change (tst (64 + 8) 2) with false. change (tst (64 + 8) 16) with false.
  change (Z.testbit (64 + 8) 0) with false. cbn [negb andb]. unfold busTransfer. rewrite E4, E2. cbn [negb].
  destruct (send_spec bus2 E1 E2 E3) as (F1 & F2 & F3 & F4 & F5 & _). set (bus3 := { busSend bus2 with isr ::= _ }) in *. clearbody bus3.
  set (bus4 := { bus3 with icr ::= _ }). assert (G : sending bus4 /\ log bus4 = (i2cTx, v) :: log bus).
  { unfold bus4. destruct bus3. cbn in *. split; [split; cbn; congruence|]. unfold log in *. cbn in *. congruence. }
  clearbody bus4. destruct (recalc_keeps bus4) as (L1 & S1 & _). destruct (recalc_keeps (socI2cPrvRecalcIrq bus4)) as (L2 & S2 & _).
  split; [apply S2, S1, G|]. rewrite L2, L1. apply G.
Qed.

Lemma send_start bus addr :
  free bus -> is_u 8 addr -> tst addr 1 = false -> let bus' := send_byte bus addr 9 in sending bus' /\ log bus' = (i2cTx, addr) :: (i2cStart, 0) :: log bus.
Proof.
  intros Hf Ha Hw. unfold send_byte. rewrite write_icr, write_idbr. fold (filled bus addr). destruct (filled_free bus addr Hf) as (A & B & C & D & L & Hd).
  rewrite wrap_small in Hd by done. set (bus1 := filled bus addr) in *. clearbody bus1. unfold settled. rewrite D. unfold socI2cPrvCrW. rewrite start_bit, B.
  change (tst (64 + 9) 64) with true. change (tst (64 + 9) 8) with true. change (tst (64 + 9) 2) with false. change (tst (64 + 9) 16) with false.
  change (Z.testbit (64 + 9) 0) with true. cbn [negb andb].
  set (bus2 := { bus1 with icr := u16 (0x40 + 9) }).
  assert (E : bus2.(devs) = logger put /\ tst bus2.(isr) 4 = false /\ bus2.(latentBusy) = false /\ log bus2 = log bus1 /\ bus2.(db) = addr)
    by (by destruct bus1). destruct E as (E1 & E2 & E3 & E4 & E5). clearbody bus2. rewrite E2, one_action by done.
  set (bus3 := { { bus2 with world ::= _ } with waitForAddr := true; isr ::= _ }).
  assert (F : bus3.(devs) = logger put /\ bus3.(latentBusy) = false /\ bus3.(waitForAddr) = true /\ log bus3 = (i2cStart, 0) :: log bus1 /\ bus3.(db) = addr)
    by (unfold bus3, log in *; destruct bus2; cbn in *; rewrite E4; done). destruct F as (F1 & F2 & F3 & F4 & F5). clearbody bus3.
  unfold busTransfer. rewrite F3, F5. set (bus4 := { bus3 with isr ::= _ }).
  assert (G : bus4.(devs) = logger put /\ tst bus4.(isr) 1 = false /\ bus4.(latentBusy) = false /\ log bus4 = (i2cStart, 0) :: log bus1 /\ bus4.(db) = addr).
  { unfold bus4. destruct bus3. cbn in *. split_and!; try done. rewrite bit0 in *. by rewrite Z.lor_spec, Z.ldiff_spec, Z.land_spec, Hw, andb_false_r. }
  destruct G as (G1 & G2 & G3 & G4 & G5). clearbody bus4. destruct (send_spec bus4 G1 G2 G3) as (H1 & H2 & H3 & H4 & _ & _).
  set (bus5 := { { busSend bus4 with waitForAddr := false; isr ::= _ } with icr ::= _ }).
  assert (K : sending bus5 /\ log bus5 = (i2cTx, addr) :: (i2cStart, 0) :: log bus).
  { unfold bus5, log in *. destruct (busSend bus4). cbn in *. split; [split; cbn; congruence|]. cbn. congruence. }
  clearbody bus5. destruct (recalc_keeps bus5) as (L1 & S1 & _). destruct (recalc_keeps (socI2cPrvRecalcIrq bus5)) as (L2 & S2 & _).
  split; [apply S2, S1, K|]. rewrite L2, L1. apply K.
Qed.

Lemma send_last bus v :
  sending bus -> is_u 8 v -> let bus' := send_byte bus v 10 in free bus' /\ log bus' = (i2cStop, 0) :: (i2cTx, v) :: log bus.
Proof.
  intros Hs Hv. unfold send_byte. rewrite write_icr, write_idbr. fold (filled bus v). destruct (filled_sending bus v Hs) as ([A B C D] & L & Hd).
  rewrite wrap_small in Hd by done. set (bus1 := filled bus v) in *. clearbody bus1. unfold settled. rewrite D. unfold socI2cPrvCrW. rewrite start_bit.
  set (bus2 := { bus1 with icr := u16 (0x40 + 10) }).
  assert (E : bus2.(devs) = logger put /\ tst bus2.(isr) 1 = false /\ bus2.(latentBusy) = false /\ bus2.(waitForAddr) = false /\ log bus2 = log bus1 /\
    bus2.(db) = v /\ bus2.(icr) = 0x4a) by (by destruct bus1). destruct E as (E1 & E2 & E3 & E4 & E5 & E6 & E7). clearbody bus2.
  change (tst (64 + 10) 64) with true. change (tst (64 + 10) 8) with true. change (tst (64 + 10) 2) with true. change (tst (64 + 10) 16) with false.
  change (Z.testbit (64 + 10) 0) with false. cbn [negb andb]. unfold busTransfer. rewrite E4, E2. cbn [negb].
  destruct (send_spec bus2 E1 E2 E3) as (F1 & F2 & F3 & F4 & F5 & F6). set (bus3 := { busSend bus2 with isr ::= _ }) in *. clearbody bus3.
  unfold busStop. rewrite one_action by done. set (bus4 := { { { bus3 with world ::= _ } with isr ::= _; latentBusy := true } with icr ::= _ }).
  assert (G : free bus4 /\ log bus4 = (i2cStop, 0) :: (i2cTx, v) :: log bus).
  { unfold bus4, log in *. destruct bus3. cbn in *. rewrite F6, E7. split; [split; cbn; [done|done|by left]|]. cbn. congruence. }
  clearbody bus4. destruct (recalc_keeps bus4) as (L1 & _ & S1 & _). destruct (recalc_keeps (socI2cPrvRecalcIrq bus4)) as (L2 & _ & S2 & _).
  split; [apply S2, S1, G|]. rewrite L2, L1. apply G.
Qed.

Lemma send_middle bytes : forall bus, sending bus -> Forall (is_u 8) bytes ->
  let bus' := fold_left (fun bus v => send_byte bus v 8) bytes bus in
  sending bus' /\ log bus' = reverse ((fun v => (i2cTx, v)) <$> bytes) ++ log bus.
Proof.
  induction bytes as [|v bytes IH]; intros bus Hs Hb; cbn [fold_left]; [done|].
  apply Forall_cons in Hb as [Hv Hb]. destruct (send_mid bus v Hs Hv) as [H1 H2]. destruct (IH _ H1 Hb) as [G1 G2]. split; [done|].
  rewrite G2, H2. cbn [fmap list_fmap]. by rewrite reverse_cons, <- app_assoc.
Qed.

(** A message that the guest sends, byte by byte, appears on the bus as a start
    condition, the address, the bytes in order and a stop condition, and leaves the
    bus free for the next one. *)
Lemma message_on_the_bus bus addr bytes last :
  free bus -> is_u 8 addr -> tst addr 1 = false -> Forall (is_u 8) bytes -> is_u 8 last ->
  let bus' := send_message bus addr bytes last in
  free bus' /\ actions bus' = actions bus ++ [(i2cStart, 0); (i2cTx, addr)] ++ ((fun v => (i2cTx, v)) <$> bytes) ++ [(i2cTx, last); (i2cStop, 0)].
Proof.
  intros Hf Ha Hw Hb Hl. unfold send_message. destruct (send_start bus addr Hf Ha Hw) as [S1 L1].
  destruct (send_middle bytes _ S1 Hb) as [S2 L2]. destruct (send_last _ last S2 Hl) as [S3 L3]. split; [done|].
  unfold actions. fold (log bus). match goal with |- reverse (bl_log (world ?b)) = _ => change (reverse (log b) = reverse (log bus) ++ [(i2cStart, 0); (i2cTx, addr)] ++ ((fun v => (i2cTx, v)) <$> bytes) ++ [(i2cTx, last); (i2cStop, 0)]) end.
  rewrite L3, L2, L1, !reverse_cons, reverse_app, reverse_involutive, !reverse_cons, <- !app_assoc. done.
Qed.

(** Two messages to the device with address 0x5a (write). *)
Example two_messages :
  actions (send_message (send_message (snd (socI2cDeviceAdd (socI2cInit (mkBusLog idle []) 0x40301680 PXA_I_I2C) (fun w a v => (1, put w a v)))) 0xb4 [1; 2] 3) 0xb4 [] 7) =
  [(i2cStart, 0); (i2cTx, 0xb4); (i2cTx, 1); (i2cTx, 2); (i2cTx, 3); (i2cStop, 0); (i2cStart, 0); (i2cTx, 0xb4); (i2cTx, 7); (i2cStop, 0)].
Proof. vm_compute. reflexivity. Qed.
